(* ===== verification/_CoqProject ===== *)
-Q . S2P
Prelude.v
Bytes.v
CString.v
ListNode.v
SpinProtocol.v
Machine.v
Sched.v
BlockIO.v
Virtio.v
Bio.v
Fs.v
Inode.v
Dir.v
PageAlloc.v
Vm.v
Pipe.v
Slot.v
File.v
Printf.v
Uart.v
Console.v
Sysfs.v
Tid.v
UserCopy.v
TaskMem.v
TaskSpace.v
TaskDrop.v
Task.v
ProcTree.v
Mkfs.v
MkfsLayout.v
MkfsTree.v
Riscv.v
Trap.v
KernelMap.v
TrapResults.v
Boot.v
TrapKernel.v
Elf.v
DevInit.v
Ls.v
VirtioResults.v
TermResults.v
MemResults.v
TaskResults.v
FsResults.v
FileResults.v
DirResults.v
SysResults.v
ProcResults.v
ElfResults.v
ElfExec.v
ElfStart.v
ElfKernel.v
MkfsWalk.v
MkfsResults.v
