(* ===== verification/Prelude.v ===== *)
(** * Tnix: a verification library for the kernel

    Tnix is a small Unix-like kernel in C for 64-bit RISC-V.  This library translates
    its code into executable Rocq functions and proves what they do.  Paths below are
    relative to src/.

    ** The program and the files that model it

    - Foundations.  [Prelude] (this file): machine integers with their wrap-around, the
      outcome monad, lists.  [Bytes]: little-endian loads and stores in byte arrays, bit
      maps.  [CString]: kernel/util/string.c.  [ListNode]: kernel/util/list.c, circular
      lists over a heap of nodes.
    - Locks and scheduling.  [SpinProtocol]: kernel/util/spinlock.c among any number of
      CPUs, one memory access at a time.  [Machine]: the context of one kernel path:
      interrupt state ([push_intr], [pop_intr] of kernel/task/cpu.h), spinlocks,
      sleeplocks (kernel/util/sleeplock.c), [sleep] and [wakeup] (kernel/task/sche.c).
      [Sched]: the scheduler loop, [yield] and the end of a task on any number of CPUs,
      as a transition system.
    - Memory.  [PageAlloc]: kernel/mem/alloc.c.  [Slot]: the object allocator that
      kernel/mem/slot.c generates.  [Vm]: the Sv39 page tables and user copies of
      kernel/mem/vm.c.  [UserCopy]: the copies implement the interface [UserMem].
    - Storage.  [Virtio]: the disk driver kernel/dev/disk.c.  [BlockIO]: the interfaces
      between driver, buffer cache and file system.  [Bio]: the buffer cache
      kernel/fs/bio.c.  [Fs]: superblock and block map (kernel/fs/fs.c).  [Inode]:
      kernel/fs/inode.c.  [Dir]: directories and paths (kernel/fs/dir.c).  [File]: open
      files (kernel/fs/file.c).  [Pipe]: kernel/fs/pipe.c.
    - Terminal.  [Printf]: kernel/util/printf.c.  [Uart]: [uart_write] of
      kernel/dev/uart.c.  [Console]: kernel/dev/console.c.
    - Tasks.  [Tid]: task identifiers.  [TaskMem]: the memory of a task
      (kernel/task/task.c: [task_vmmap], [reset_vma], [task_mm_init], [clean_mm_source];
      kernel/mem/vm.c: [copy_pagetable]), on a store of pages, page tables and list nodes.
      [TaskSpace]: the invariant of one address space and what each operation does to it.
      [TaskDrop]: its release.  [Task]: the table of tasks with [alloc_task], [sys_fork],
      [sys_exit], [sys_wait], [sys_alloc] and [sys_free].  [ProcTree]: the parent and
      child lists as a tree.
    - Traps.  [Riscv]: the registers and control registers of a hart
      (kernel/util/riscv.h), trap entry and return, the instructions that the assembly
      uses, kernel/boot/start.c and kernel/task/switch.S.  [Trap]: kernel/trap/trap.c, plic.c
      and pt_reg.S, the system call table of kernel/syscall/syscall.c, [sys_sleep].
    - Programs.  [Elf]: kernel/task/elf.c, [sys_exec] of kernel/syscall/systask.c,
      [first_sched] and the dispatch of kernel/task/sche.c, [init_proc1] of kernel/task/init.c, [fsinit] of
      kernel/fs/fs.c.
    - System calls.  [Sysfs]: kernel/syscall/sysfs.c and [argstr] of
      kernel/syscall/syscall.c.  [Ls]: [sys_ls], which prints while it reads.
    - Initialisation.  [DevInit]: [virtio_disk_init], [init_uart] and [init_console].
      [KernelMap]: [init_page] of kernel/mem/vm.c.  The other components begin with their
      own set-up ([init_memory], [init_slots], [init_bcache], [start], ...).
    - The host tool.  [Mkfs]: mkfs/mkfs.cc on an image and a tree of host files;
      [MkfsLayout] and [MkfsTree]: what each of its steps leaves in the image.
      [MkfsWalk]: the kernel's path walk on such an image.
    - [Boot]: concrete states (machine, memory, a disk with a small file system) on which
      the witnesses run.
    - [MemResults], [VirtioResults], [TermResults], [FsResults], [FileResults],
      [DirResults], [SysResults], [TaskResults], [ProcResults], [TrapResults],
      [ElfResults] (loading), [ElfExec] (exec), [ElfStart] (the first run of a task),
      [MkfsResults]: the theorems about the components together, each with a run on a
      concrete state ([TrapKernel] and [ElfKernel] hold the runs of traps and programs).

    ** How the code is modelled

    A C function is a function in the monad [M S]: it maps a state to an [outcome].  [Ok]
    is a return; [Panic] a call of [panic]; [Fault] an access that C leaves undefined (a
    null pointer, an index out of range); [Switch] a path that gave the CPU up and does
    not come back in this call; [Spin] a busy wait that no step of this path ends.
    Integers have their C width ([u8], [u32], [i32], ...).  A pointer to an object of an
    array is its index; list nodes and pages are addressed through a heap, so that
    aliasing is visible.  Assembly is a list of instructions run by [exec] on the
    registers and the memory of a hart.

    A function that calls [sleep] is cut there: the part before returns where it stands,
    the part after is a definition of its own ([piperead_resume], [rw_finish],
    [uart_continue], [sleep_resume]).  Concurrency is then a step relation whose steps
    are such parts, in any order: [pipe_step], [vstep], [con_step], [smp_step],
    [spin_step].

    Interfaces are classes: [DiskDriver] (what the cache needs from a disk), [BlockIO]
    (what the file system needs from the cache; [Bio] is an instance), [UserMem] (what
    pipes, files and the terminal need from user memory; [UserCopy] proves the page table
    copies implement it), [VirtioDevice] (what the driver needs from the device, as the
    virtio specification states it for a device without errors), [Plic] (claim and
    complete of the interrupt controller) and [TrapEnv] (what the trap handlers call: the
    two device handlers and the system calls).

    ** What is proved

    - Memory: mapping and unmapping change the translation of exactly the range given;
      copies to and from user memory are inverse across pages; the page and slot
      allocators hand out what nobody has, zeroed, and take it back.
    - Disk: the driver implements an atomic disk under every interleaving of transfers,
      device steps and interrupts, never stops the machine, leaks no descriptor and loses
      no wakeup; its set-up leaves the state it starts from; the cache returns what was
      last written; blocks and inodes are allocated and released exactly.
    - Files: [fread], [fwrite], [fseek] and path resolution against reference
      definitions; round trips of inodes, directory entries and file contents.
      File contents are covered up to 12288 bytes, the direct blocks of an inode; the code
      faults from offset 13056 on.
    - Pipes and terminal: any interleaving of readers and writers is a FIFO; the terminal
      is a line editor, escape sequences included, as long as the code stays inside its
      arrays; formatted output equals a reference renderer (for up to seven arguments,
      the least 64-bit number excepted).
    - Scheduling: a spinlock excludes among all CPUs and blocks only behind a CPU that can
      go on or stopped the machine; on any number of CPUs the tasks in state RUN are
      exactly those that a CPU runs, each on one; on n CPUs a READY task waits for at most
      n * (NPROC - 1) dispatches; sleeping and waking do not lose each other.
    - Tasks: fork gives the child equal contents in pages of its own; exit returns every
      page; orphans move to the first task (whose own exit with two children or more does
      not end); wait returns the first child that has ended
      and releases its entry; [sys_alloc] maps a fresh zero page, [sys_free] gives no page
      of a task back; file descriptors are allocated least first while the table is not full.
    - Programs, for files of at most 12288 bytes with page-aligned segments of at most a
      page of the file each: the loader gives the task the memory that a reference loader computes from
      the bytes of the file; exec replaces the program and leaves the task ready at its
      entry; the first run of a task enters user mode there.
    - Traps: an interrupt of the kernel leaves all registers as they were; a trap from
      user mode and its return restore the user's registers, except [tp], which the code
      does not restore, and a0 and the program counter of a system call; [context_switch] resumes the other context where that one
      stopped; each cause and each call number reaches its handler; a sleeping task runs
      again after its time.
    - mkfs: the image it builds holds every host file under its path, and the kernel's
      path walk finds it there.
    - Cases the code gets wrong are theorems too: they state what it does there (the
      findings of the manifest name them).

    ** Bounds and fuel

    Loops are structural on the C bound where there is one.  Otherwise fuel is an argument
    computed from the state, and running out gives [Fault] or [Spin], which the theorems
    exclude: [S PIPE_SIZE] rounds for a pipe (each moves a byte or ends), [intr_fuel]
    (the distance of two 16-bit indices), [S NUM] for a chain of descriptors (each is
    freed once), [chunk_fuel] (a round sends a piece), the length of the memory for
    strings, [NUM_FUEL] = 64 digits for a 64-bit number, [list_fuel] and [child_fuel]
    (the number of nodes a list can have), the depth of the directory tree for mkfs.

    ** Not modelled

    The order of initialisation in [main] and the entry code: each set-up is a definition
    of its component, on a state of its own.  The leaves of 2 MB that [init_page] enters
    are stated as calls of [mvmmap] ([KernelMap.map_rest_covers]); translation through them
    is not, the other code never meets them.  [scan_pagetable], which only prints; the
    user programs.  Memory ordering is sequential: the fences of the code order what it
    does. *)
From Stdlib Require Export ZArith Lia.
From stdpp Require Export base numbers sets fin_maps gmap strings list_numbers list.

#[global] Open Scope Z_scope.

(** * Machine integers (kernel/types.h)

    A w-bit C integer is a [Z] kept in range by an explicit wrap. *)

Definition u8 (z : Z) : Z := z mod 2 ^ 8.
Definition u16 (z : Z) : Z := z mod 2 ^ 16.
Definition u32 (z : Z) : Z := z mod 2 ^ 32.
Definition u64 (z : Z) : Z := z mod 2 ^ 64.
(** The two's complement value of the low [w] bits. *)
Definition swrap (w z : Z) : Z := (z + 2 ^ (w - 1)) mod 2 ^ w - 2 ^ (w - 1).
Definition i8 (z : Z) : Z := swrap 8 z.
Definition i32 (z : Z) : Z := swrap 32 z.
Definition i64 (z : Z) : Z := swrap 64 z.

Lemma u32_id z : 0 ≤ z < 2 ^ 32 → u32 z = z.
Proof. apply Z.mod_small. Qed.
Lemma u64_id z : 0 ≤ z < 2 ^ 64 → u64 z = z.
Proof. apply Z.mod_small. Qed.
Lemma i32_id z : - 2 ^ 31 ≤ z < 2 ^ 31 → i32 z = z.
Proof. intros. unfold i32, swrap. rewrite Z.mod_small; lia. Qed.
Lemma u32_bound z : 0 ≤ u32 z < 2 ^ 32.
Proof. apply Z.mod_pos_bound. lia. Qed.
Lemma u64_bound z : 0 ≤ u64 z < 2 ^ 64.
Proof. apply Z.mod_pos_bound. lia. Qed.
Lemma i32_bound z : - 2 ^ 31 ≤ i32 z < 2 ^ 31.
Proof. unfold i32, swrap. pose proof (Z.mod_pos_bound (z + 2 ^ (32 - 1)) (2 ^ 32)). lia. Qed.

(** A field stored above [n] low bits. *)
Lemma land_mul_pow2 q r m n : 0 ≤ n → 0 ≤ m < 2 ^ n → Z.land (q * 2 ^ n + r) m = Z.land r m.
Proof.
  intros Hn Hm. apply Z.bits_inj'. intros k Hk. rewrite !Z.land_spec.
  destruct (Z.ltb_spec k n).
  - f_equal. rewrite <- (Z.mod_pow2_bits_low (q * 2 ^ n + r) n k), <- (Z.mod_pow2_bits_low r n k) by lia.
    by rewrite Z.add_comm, Z.mod_add by lia.
  - rewrite <- (Z.mod_small m (2 ^ n)) by lia. rewrite !Z.mod_pow2_bits_high by lia. by rewrite !andb_false_r.
Qed.
Lemma lor_mul_pow2 q r n : 0 ≤ n → 0 ≤ r < 2 ^ n → Z.lor (q * 2 ^ n) r = q * 2 ^ n + r.
Proof.
  intros Hn Hr. symmetry. apply Z.add_nocarry_lor. rewrite <- (Z.add_0_r (q * 2 ^ n)).
  rewrite land_mul_pow2 by done. apply Z.land_0_l.
Qed.
Lemma shiftr_mul_pow2 q r n : 0 ≤ n → 0 ≤ r < 2 ^ n → Z.shiftr (q * 2 ^ n + r) n = q.
Proof. intros Hn Hr. rewrite Z.shiftr_div_pow2 by done. rewrite Z.div_add_l, Z.div_small by lia. lia. Qed.

(** The macros [align_down], [align_up], [min] and [max] of kernel/types.h at
    type [u64]; [min] and [max] are the conditional expressions of C. *)
Definition align_down (x a : Z) : Z := Z.land x (u64 (Z.lnot (a - 1))).
Definition align_up (x a : Z) : Z := Z.land (u64 (x + a - 1)) (u64 (Z.lnot (a - 1))).
Definition cmin (a b : Z) : Z := if a <? b then a else b.
Definition cmax (a b : Z) : Z := if a >? b then a else b.

Lemma cmin_min a b : cmin a b = Z.min a b.
Proof. unfold cmin. destruct (Z.ltb_spec a b); lia. Qed.
Lemma cmax_max a b : cmax a b = Z.max a b.
Proof. unfold cmax. rewrite Z.gtb_ltb. destruct (Z.ltb_spec b a); lia. Qed.
(** Masking off the low [n] bits rounds down to a multiple of [2 ^ n]. *)
Lemma land_high_mask y n : 0 ≤ n ≤ 64 → 0 ≤ y < 2 ^ 64 →
  Z.land y (u64 (Z.lnot (2 ^ n - 1))) = y / 2 ^ n * 2 ^ n.
Proof.
  intros Hn Hy. rewrite <- Z.shiftr_div_pow2, <- Z.shiftl_mul_pow2 by lia.
  rewrite Z.sub_1_r, <- Z.ones_equiv. apply Z.bits_inj'. intros k Hk. rewrite Z.land_spec.
  rewrite Z.shiftl_spec by lia. destruct (Z.ltb_spec k n).
  - rewrite (Z.testbit_neg_r _ (k - n)) by lia. unfold u64. rewrite Z.mod_pow2_bits_low, Z.lnot_spec by lia.
    rewrite Z.ones_spec_low by lia. by rewrite andb_false_r.
  - rewrite Z.shiftr_spec by lia. replace (k - n + n) with k by lia. destruct (Z.ltb_spec k 64).
    + unfold u64. rewrite Z.mod_pow2_bits_low, Z.lnot_spec, Z.ones_spec_high by lia. by rewrite andb_true_r.
    + rewrite <- (Z.mod_small y (2 ^ 64)) by lia. by rewrite Z.mod_pow2_bits_high by lia.
Qed.
Lemma align_up_eq x n : 0 ≤ n ≤ 63 → 0 ≤ x < 2 ^ 63 → align_up x (2 ^ n) = (x + 2 ^ n - 1) / 2 ^ n * 2 ^ n.
Proof.
  intros Hn Hx. assert (2 ^ n ≤ 2 ^ 63) by (apply Z.pow_le_mono_r; lia).
  unfold align_up. rewrite (u64_id (x + 2 ^ n - 1)) by lia. apply land_high_mask; lia.
Qed.

(** * Configuration (kernel/config.h) *)
Definition NPROC : nat := 32.
Definition PGSIZE : Z := 4096.
Definition MPGSIZE : Z := Z.shiftl PGSIZE 9.
Definition GPGSIZE : Z := Z.shiftl PGSIZE 18.
Definition VA_TOP : Z := 0x4000000000.
Definition TRAMPOLINE : Z := VA_TOP - PGSIZE.
Definition TRAPFRAME : Z := TRAMPOLINE - PGSIZE.
Definition USTACK : Z := TRAPFRAME - PGSIZE.
Definition PHY_MEMORY : Z := 0x80000000.
Definition PHY_SIZE : Z := 0x20000000.
Definition PHY_TOP : Z := PHY_MEMORY + PHY_SIZE.
Definition BSIZE : nat := 1024.
Definition NDIRECT : nat := 12.
Definition NINDIRECT : nat := 3.
Definition ROOTDEV : Z := 0.
Definition ROOTINUM : Z := 0.
Definition DLENGTH : nat := 28.
Definition NFILE : nat := 16.
Definition NIOBUF : nat := 16.
Definition NINODE : nat := 50.
Definition MAX_PATH_LENGTH : nat := 128.
Definition BIT_CNT_PER_BLOCK : Z := Z.of_nat BSIZE * 8.

#[global] Arguments NPROC : simpl never.
#[global] Arguments PGSIZE : simpl never.
#[global] Arguments BSIZE : simpl never.
#[global] Arguments NDIRECT : simpl never.
#[global] Arguments NINDIRECT : simpl never.
#[global] Arguments DLENGTH : simpl never.
#[global] Arguments NFILE : simpl never.
#[global] Arguments NIOBUF : simpl never.
#[global] Arguments NINODE : simpl never.
#[global] Arguments MAX_PATH_LENGTH : simpl never.
#[global] Arguments BIT_CNT_PER_BLOCK : simpl never.

(** * Outcomes and the kernel monad

    A kernel routine runs on a state and either returns ([Ok]), stops the
    machine by calling [panic] ([Panic]), performs an access C leaves undefined
    ([Fault]: a null or wild pointer, an index out of range), gives up the CPU
    in [context_switch] ([Switch]: control comes back only after another task
    acts) or busy-waits for another CPU ([Spin]). *)
Inductive outcome (S A : Type) :=
| Ok (a : A) (s : S)
| Panic (msg : string) (s : S)
| Fault (s : S)
| Switch (s : S)
| Spin (s : S).
Arguments Ok {S A} a s.
Arguments Panic {S A} msg s.
Arguments Fault {S A} s.
Arguments Switch {S A} s.
Arguments Spin {S A} s.

Definition state_of {S A} (r : outcome S A) : S :=
  match r with Ok _ s => s | Panic _ s => s | Fault s => s | Switch s => s | Spin s => s end.

Definition M (S A : Type) : Type := S → outcome S A.

Definition ret {S A} (a : A) : M S A := λ s, Ok a s.
Definition bind {S A B} (m : M S A) (f : A → M S B) : M S B := λ s,
  match m s with
  | Ok a s' => f a s'
  | Panic msg s' => Panic msg s'
  | Fault s' => Fault s'
  | Switch s' => Switch s'
  | Spin s' => Spin s'
  end.
Definition panic {S A} (msg : string) : M S A := λ s, Panic msg s.
Definition fault {S A} : M S A := λ s, Fault s.
Definition gets {S A} (f : S → A) : M S A := λ s, Ok (f s) s.
Definition modify {S} (f : S → S) : M S unit := λ s, Ok tt (f s).
(** Dereference: [None] is an access outside the object. *)
Definition deref {S A} (f : S → option A) : M S A := λ s,
  match f s with Some a => Ok a s | None => Fault s end.
Definition update {S} (f : S → option S) : M S unit := λ s,
  match f s with Some s' => Ok tt s' | None => Fault s end.

Declare Scope kernel_scope.
Delimit Scope kernel_scope with K.
Notation "'let!' x := m 'in' k" := (bind m (λ x, k))
  (at level 10, x pattern, m at level 100, k at level 200,
   format "'[v' 'let!'  x  :=  m  'in' '//' k ']'") : kernel_scope.
Notation "m ;; k" := (bind m (λ _, k)) : kernel_scope.
#[global] Open Scope kernel_scope.

(** [if (c) m;] *)
Definition when {S} (c : bool) (m : M S unit) : M S unit := if c then m else ret tt.

(** Run a routine of a component inside a larger state. *)
Definition zoom {S T A} (get : S → T) (put : T → S → S) (m : M T A) : M S A := λ s,
  match m (get s) with
  | Ok a t => Ok a (put t s)
  | Panic msg t => Panic msg (put t s)
  | Fault t => Fault (put t s)
  | Switch t => Switch (put t s)
  | Spin t => Spin (put t s)
  end.

Section monad_laws.
Context {S A B C : Type}.

Lemma bind_ok (m : M S A) (f : A → M S B) s a s' :
  m s = Ok a s' → bind m f s = f a s'.
Proof. intros H. unfold bind. by rewrite H. Qed.

Lemma bind_panicked (m : M S A) (f : A → M S B) s msg s' :
  m s = Panic msg s' → bind m f s = Panic msg s'.
Proof. intros H. unfold bind. by rewrite H. Qed.

Lemma bind_assoc (m : M S A) (f : A → M S B) (g : B → M S C) s :
  bind (bind m f) g s = bind m (λ a, bind (f a) g) s.
Proof. unfold bind. by destruct (m s). Qed.

Lemma bind_ok_inv (m : M S A) (f : A → M S B) s b s' :
  bind m f s = Ok b s' → ∃ a s1, m s = Ok a s1 ∧ f a s1 = Ok b s'.
Proof. unfold bind. destruct (m s); naive_solver. Qed.
End monad_laws.

Section primitive_steps.
Context {S A B : Type} (s : S).

Lemma bind_gets (g : S → A) (f : A → M S B) : bind (gets g) f s = f (g s) s.
Proof. done. Qed.
Lemma bind_modify (g : S → S) (f : unit → M S B) : bind (modify g) f s = f tt (g s).
Proof. done. Qed.
Lemma bind_ret (a : A) (f : A → M S B) : bind (ret a) f s = f a s.
Proof. done. Qed.
Lemma bind_panic (msg : string) (f : A → M S B) : bind (panic msg) f s = Panic msg s.
Proof. done. Qed.
Lemma bind_deref (g : S → option A) (f : A → M S B) a : g s = Some a → bind (deref g) f s = f a s.
Proof. unfold bind, deref. by intros ->. Qed.
Lemma bind_update (g : S → option S) (f : unit → M S B) s' : g s = Some s' → bind (update g) f s = f tt s'.
Proof. unfold bind, update. by intros ->. Qed.
Lemma bind_deref_const (a : A) (f : A → M S B) : bind (deref (λ _, Some a)) f s = f a s.
Proof. done. Qed.
End primitive_steps.

(** [go]: run the primitive reads and writes at the head of a routine. *)
Ltac go := repeat (rewrite bind_assoc || rewrite bind_gets || rewrite bind_modify
                   || rewrite bind_ret || rewrite bind_panic || rewrite bind_deref_const); cbn beta.
(** [run H]: step a bind whose first routine is known to return. *)
Ltac run H := rewrite ?bind_assoc; rewrite (bind_ok _ _ _ _ _ H); cbn beta.
(** [mstep]: unfold one step of the primitive state operations. *)
Ltac mstep :=
  unfold bind at 1, gets, modify, deref, update, ret, when; cbn beta iota.

(** * Lists *)

Lemma list_alter_insert {A} (f : A → A) i (l : list A) a : l !! i = Some a → alter f i l = <[i := f a]> l.
Proof.
  intros E. apply list_eq. intros j. destruct (decide (i = j)) as [<-|].
  - by rewrite list_lookup_alter_eq, E, list_lookup_insert_eq by (by eapply lookup_lt_Some).
  - by rewrite list_lookup_alter_ne, list_lookup_insert_ne.
Qed.

Lemma take_split {A} c n (l : list A) : (c ≤ n)%nat → take n l = take c l ++ take (n - c) (drop c l).
Proof.
  intros Hc. rewrite take_drop_commute. replace (c + (n - c))%nat with n by lia.
  rewrite <- (take_drop c (take n l)) at 1. by rewrite take_take, Nat.min_l.
Qed.

(** The number of elements a test accepts. *)
Fixpoint countb {A} (f : A → bool) (l : list A) : nat :=
  match l with [] => 0 | x :: l => if f x then S (countb f l) else countb f l end%nat.

Section countb.
Context {A : Type} (f : A → bool).

Lemma countb_insert l i x y : l !! i = Some x →
  (countb f (<[i := y]> l) + (if f x then 1 else 0) = countb f l + (if f y then 1 else 0))%nat.
Proof.
  revert i. induction l as [|z l IH]; intros [|i] E; try discriminate E.
  - injection E as ->. cbn. destruct (f x), (f y); lia.
  - specialize (IH i E). change (<[S i:=y]> (z :: l)) with (z :: <[i:=y]> l).
    cbn [countb]. destruct (f z); lia.
Qed.

Lemma countb_le l : (countb f l ≤ length l)%nat.
Proof. induction l as [|z l IH]; cbn; [lia|]. destruct (f z); lia. Qed.

Lemma countb_lt_exists l : (countb f l < length l)%nat → ∃ i x, l !! i = Some x ∧ f x = false.
Proof.
  induction l as [|z l IH]; cbn; [lia|]. destruct (f z) eqn:E; intros Hl; [|by exists 0%nat, z].
  destruct IH as (i & x & ? & ?); [lia|]. by exists (S i), x.
Qed.

Lemma countb_exists l : (0 < countb f l)%nat → ∃ i x, l !! i = Some x ∧ f x = true.
Proof.
  induction l as [|z l IH]; cbn; [lia|]. destruct (f z) eqn:E; intros Hl; [by exists 0%nat, z|].
  destruct (IH Hl) as (i & x & ? & ?). by exists (S i), x.
Qed.

Lemma countb_pos l i x : l !! i = Some x → f x = true → (0 < countb f l)%nat.
Proof.
  revert i. induction l as [|z l IH]; intros [|i] E Hx; try discriminate E; cbn.
  - injection E as ->. rewrite Hx. lia.
  - specialize (IH i E Hx). destruct (f z); lia.
Qed.
End countb.

(** [find] from stdlib's List, through its split form. *)
Lemma find_split {A} (f : A → bool) l x : List.find f l = Some x →
  ∃ l1 l2, l = l1 ++ x :: l2 ∧ f x = true ∧ Forall (λ y, f y = false) l1.
Proof.
  induction l as [|y l IH]; cbn; [done|]. destruct (f y) eqn:E.
  - intros [= ->]. exists [], l. eauto.
  - intros (l1 & l2 & -> & Hx & Hl)%IH. exists (y :: l1), l2. eauto.
Qed.
Lemma find_none_iff {A} (f : A → bool) l : List.find f l = None ↔ Forall (λ y, f y = false) l.
Proof.
  induction l as [|y l IH]; cbn; [by split|]. rewrite Forall_cons, <- IH.
  destruct (f y); naive_solver.
Qed.
