(* ===== verification/Bytes.v ===== *)
(** Byte arrays: the view of a disk block, a page or a C buffer as a list of
    bytes, with the little-endian loads and stores that the C code performs
    through casts such as [( u64* )b->data], and the bits of a bitmap block. *)
From S2P Require Import Prelude.

(** Every element is a byte. *)
Definition bytes_ok (d : list Z) : Prop := Forall (λ b, 0 ≤ b < 256) d.

Fixpoint le_combine (l : list Z) : Z :=
  match l with [] => 0 | b :: t => b + 256 * le_combine t end.
Fixpoint le_split (n : nat) (w : Z) : list Z :=
  match n with O => [] | S n => w mod 256 :: le_split n (w / 256) end.

(** Load and store of an [n]-byte little-endian integer at byte offset [off]. *)
Definition get_at (n off : nat) (d : list Z) : Z := le_combine (take n (drop off d)).
Definition put_at (n off : nat) (v : Z) (d : list Z) : list Z :=
  take off d ++ le_split n v ++ drop (off + n) d.

(** Copy [src] into [d] at byte offset [off] (a [memcpy] inside one object). *)
Definition blit (off : nat) (src d : list Z) : list Z :=
  take off d ++ src ++ drop (off + length src) d.

(** Bit [k] of a byte array: bit [k mod 8] of byte [k / 8]. *)
Definition bit_at (d : list Z) (k : nat) : bool :=
  Z.testbit (nth (k / 8) d 0) (Z.of_nat (k mod 8)).

Lemma bytes_ok_app d1 d2 : bytes_ok (d1 ++ d2) ↔ bytes_ok d1 ∧ bytes_ok d2.
Proof. apply Forall_app. Qed.
Lemma bytes_ok_take n d : bytes_ok d → bytes_ok (take n d).
Proof. apply Forall_take. Qed.
Lemma bytes_ok_drop n d : bytes_ok d → bytes_ok (drop n d).
Proof. apply Forall_drop. Qed.
Lemma bytes_ok_replicate n : bytes_ok (replicate n 0).
Proof. apply Forall_replicate. lia. Qed.
Lemma bytes_ok_le_split n v : bytes_ok (le_split n v).
Proof.
  revert v. induction n as [|n IH]; intros v; [constructor|].
  constructor; [apply Z.mod_pos_bound; lia | apply IH].
Qed.
Lemma bytes_ok_put_at n off v d : bytes_ok d → bytes_ok (put_at n off v d).
Proof.
  intros H. unfold put_at. rewrite !bytes_ok_app.
  auto using bytes_ok_take, bytes_ok_drop, bytes_ok_le_split.
Qed.
Lemma bytes_ok_blit off src d : bytes_ok src → bytes_ok d → bytes_ok (blit off src d).
Proof.
  intros Hs H. unfold blit. rewrite !bytes_ok_app. auto using bytes_ok_take, bytes_ok_drop.
Qed.

Create HintDb bytes.
#[export] Hint Resolve bytes_ok_take bytes_ok_drop bytes_ok_replicate bytes_ok_le_split
  bytes_ok_put_at bytes_ok_blit : bytes.

Lemma length_le_split n v : length (le_split n v) = n.
Proof. revert v. induction n; intros; cbn; auto. Qed.

Lemma length_put_at n off v d :
  (off + n ≤ length d)%nat → length (put_at n off v d) = length d.
Proof.
  intros. unfold put_at.
  rewrite !length_app, length_take, length_drop, length_le_split. lia.
Qed.

Lemma length_blit off src d :
  (off + length src ≤ length d)%nat → length (blit off src d) = length d.
Proof. intros. unfold blit. rewrite !length_app, length_take, length_drop. lia. Qed.

Lemma le_combine_split n v : le_combine (le_split n v) = v mod 256 ^ Z.of_nat n.
Proof.
  revert v. induction n as [|n IH]; intros v.
  - cbn. by rewrite Z.mod_1_r.
  - cbn [le_split le_combine]. rewrite IH, Nat2Z.inj_succ, Z.pow_succ_r by lia.
    rewrite (Z.rem_mul_r v 256) by lia. lia.
Qed.

Lemma le_combine_bound d : bytes_ok d → 0 ≤ le_combine d < 256 ^ Z.of_nat (length d).
Proof.
  induction 1 as [|b d Hb Hd IH]; cbn [le_combine length]; [lia|].
  rewrite Nat2Z.inj_succ, Z.pow_succ_r by lia. lia.
Qed.

Lemma le_split_combine d : bytes_ok d → le_split (length d) (le_combine d) = d.
Proof.
  induction 1 as [|b d Hb Hd IH]; [done|]. cbn [le_combine length le_split].
  f_equal.
  - rewrite (Z.mul_comm 256), Z.mod_add by lia. apply Z.mod_small; lia.
  - rewrite (Z.mul_comm 256), Z.div_add by lia.
    rewrite (Z.div_small b) by lia. by rewrite Z.add_0_l.
Qed.

Lemma testbit_byte_cons b t k : 0 ≤ b < 256 → 0 ≤ k →
  Z.testbit (b + 256 * t) k = if k <? 8 then Z.testbit b k else Z.testbit t (k - 8).
Proof.
  intros Hb Hk. destruct (Z.ltb_spec k 8).
  - rewrite <- (Z.mod_pow2_bits_low (b + 256 * t) 8 k) by lia.
    change (2 ^ 8) with 256. rewrite (Z.mul_comm 256), Z.mod_add by lia.
    by rewrite Z.mod_small by lia.
  - replace k with ((k - 8) + 8) at 1 by lia.
    rewrite <- Z.div_pow2_bits by lia. change (2 ^ 8) with 256.
    rewrite (Z.mul_comm 256), Z.div_add by lia.
    rewrite (Z.div_small b) by lia. by rewrite Z.add_0_l.
Qed.

Lemma testbit_byte_high b k : 0 ≤ b < 256 → 8 ≤ k → Z.testbit b k = false.
Proof.
  intros Hb Hk. rewrite <- (Z.mod_small b (2 ^ 8)) by (change (2 ^ 8) with 256; lia).
  apply Z.mod_pow2_bits_high; lia.
Qed.

Lemma testbit_le_combine d k : bytes_ok d →
  Z.testbit (le_combine d) (Z.of_nat k) = bit_at d k.
Proof.
  intros Hd. revert k. induction Hd as [|b d Hb Hd IH]; intros k.
  - unfold bit_at. cbn [le_combine]. rewrite Z.testbit_0_l.
    destruct (k / 8)%nat; cbn; by rewrite Z.testbit_0_l.
  - cbn [le_combine]. rewrite testbit_byte_cons by lia.
    destruct (Z.ltb_spec (Z.of_nat k) 8).
    + unfold bit_at. rewrite Nat.div_small, Nat.mod_small by lia. done.
    + replace (Z.of_nat k - 8) with (Z.of_nat (k - 8)) by lia. rewrite IH.
      unfold bit_at. replace k with (k - 8 + 1 * 8)%nat at 3 4 by lia.
      rewrite Nat.div_add, Nat.Div0.mod_add by lia.
      by rewrite Nat.add_1_r.
Qed.

Lemma bit_at_take_drop n off d k : (k < 8 * n)%nat →
  bit_at (take n (drop off d)) k = bit_at d (8 * off + k).
Proof.
  intros Hk. unfold bit_at.
  replace (8 * off + k)%nat with (k + off * 8)%nat by lia.
  rewrite Nat.div_add, Nat.Div0.mod_add by lia. f_equal.
  rewrite !nth_lookup, lookup_take, lookup_drop.
  rewrite decide_True by (apply Nat.Div0.div_lt_upper_bound; lia).
  by rewrite Nat.add_comm.
Qed.

(** A bit of a loaded word is the corresponding bit of the array. *)
Lemma testbit_get_at n off d k : bytes_ok d → (k < 8 * n)%nat →
  Z.testbit (get_at n off d) (Z.of_nat k) = bit_at d (8 * off + k).
Proof.
  intros Hd Hk. unfold get_at. rewrite testbit_le_combine by auto with bytes.
  by apply bit_at_take_drop.
Qed.

Lemma get_at_bound n off d : bytes_ok d → (off + n ≤ length d)%nat →
  0 ≤ get_at n off d < 256 ^ Z.of_nat n.
Proof.
  intros Hd Hl. unfold get_at.
  pose proof (le_combine_bound (take n (drop off d))) as H.
  rewrite length_take, length_drop in H.
  replace (n `min` (length d - off))%nat with n in H by lia. auto with bytes.
Qed.

Lemma drop_put_at_same n off v d : (off + n ≤ length d)%nat →
  take n (drop off (put_at n off v d)) = le_split n v.
Proof.
  intros Hl. unfold put_at.
  rewrite drop_app_length' by (rewrite length_take; lia).
  by rewrite take_app_length' by (by rewrite length_le_split).
Qed.

Lemma get_put_same n off v d : (off + n ≤ length d)%nat →
  get_at n off (put_at n off v d) = v mod 256 ^ Z.of_nat n.
Proof. intros. unfold get_at. by rewrite drop_put_at_same, le_combine_split. Qed.

Lemma lookup_put_at n off v d i : (off + n ≤ length d)%nat →
  put_at n off v d !! i =
    if decide (off ≤ i < off + n)%nat then le_split n v !! (i - off)%nat else d !! i.
Proof.
  intros Hl. unfold put_at.
  destruct (decide (i < off)%nat) as [Hi|Hi].
  - rewrite lookup_app_l by (rewrite length_take; lia).
    rewrite lookup_take, decide_True by lia. by rewrite decide_False by lia.
  - rewrite lookup_app_r by (rewrite length_take; lia).
    rewrite length_take, Nat.min_l by lia. case_decide as Hd.
    + by rewrite lookup_app_l by (rewrite length_le_split; lia).
    + rewrite lookup_app_r by (rewrite length_le_split; lia).
      rewrite length_le_split, lookup_drop. f_equal. lia.
Qed.

Lemma get_at_ext n off d d' :
  (∀ i, (off ≤ i < off + n)%nat → d !! i = d' !! i) → get_at n off d = get_at n off d'.
Proof.
  intros H. unfold get_at. f_equal. apply list_eq. intros i.
  rewrite !lookup_take. case_decide; [|done]. rewrite !lookup_drop. apply H. lia.
Qed.

Lemma get_put_ne n off n' off' v d : (off + n ≤ length d)%nat →
  (off' + n' ≤ off ∨ off + n ≤ off')%nat →
  get_at n' off' (put_at n off v d) = get_at n' off' d.
Proof.
  intros Hl Hd. apply get_at_ext. intros i Hi.
  rewrite lookup_put_at by done. by rewrite decide_False by lia.
Qed.

Lemma put_get_id n off d : bytes_ok d → (off + n ≤ length d)%nat →
  put_at n off (get_at n off d) d = d.
Proof.
  intros Hd Hl. unfold put_at, get_at.
  assert (length (take n (drop off d)) = n) as Hn
    by (rewrite length_take, length_drop; lia).
  pose proof (le_split_combine (take n (drop off d)) ltac:(auto with bytes)) as E.
  rewrite Hn in E. rewrite E.
  rewrite <- drop_drop. by rewrite take_drop, take_drop.
Qed.

Lemma nth_le_split n v i : (i < n)%nat →
  nth i (le_split n v) 0 = (v / 256 ^ Z.of_nat i) mod 256.
Proof.
  revert v i. induction n as [|n IH]; intros v [|i] Hi; try lia.
  - cbn. by rewrite Z.div_1_r.
  - cbn [le_split nth]. rewrite IH by lia.
    rewrite Nat2Z.inj_succ, Z.pow_succ_r, Z.div_div by lia. done.
Qed.

(** The bits of an array after a store. *)
Lemma bit_at_put_at n off v d k : (off + n ≤ length d)%nat →
  bit_at (put_at n off v d) k =
    if decide (8 * off ≤ k < 8 * (off + n))%nat
    then Z.testbit v (Z.of_nat (k - 8 * off)) else bit_at d k.
Proof.
  intros Hl. unfold bit_at at 1. rewrite nth_lookup, lookup_put_at by done.
  pose proof (Nat.div_mod_eq k 8) as Hk.
  pose proof (Nat.mod_upper_bound k 8 ltac:(lia)) as Hm.
  destruct (decide (8 * off ≤ k < 8 * (off + n))%nat) as [Hi|Hi].
  - rewrite decide_True by lia. rewrite <- nth_lookup, nth_le_split by lia.
    change 256 with (2 ^ 8). rewrite <- Z.pow_mul_r by lia.
    rewrite Z.mod_pow2_bits_low, Z.div_pow2_bits by lia. f_equal. lia.
  - rewrite decide_False by lia. unfold bit_at. by rewrite <- nth_lookup.
Qed.

Lemma lookup_blit off src d i : (off + length src ≤ length d)%nat →
  blit off src d !! i =
    if decide (off ≤ i < off + length src)%nat then src !! (i - off)%nat else d !! i.
Proof.
  intros Hl. unfold blit.
  destruct (decide (i < off)%nat) as [Hi|Hi].
  - rewrite lookup_app_l by (rewrite length_take; lia).
    rewrite lookup_take, decide_True by lia. by rewrite decide_False by lia.
  - rewrite lookup_app_r by (rewrite length_take; lia).
    rewrite length_take, Nat.min_l by lia. case_decide as Hd.
    + by rewrite lookup_app_l by lia.
    + rewrite lookup_app_r by lia. rewrite lookup_drop. f_equal. lia.
Qed.

Lemma take_drop_blit off src d : (off + length src ≤ length d)%nat →
  take (length src) (drop off (blit off src d)) = src.
Proof.
  intros. unfold blit. rewrite drop_app_length' by (rewrite length_take; lia).
  by rewrite take_app_length.
Qed.
