(* ===== verification/CString.v ===== *)
(** kernel/util/string.c: the byte and string routines.

    Memory is a list of bytes; an address is an offset, and an access outside the
    list is [None].  The theorems say what the loops leave in memory, overlapping
    copies included. *)
From S2P Require Import Prelude Bytes.

Definition ld (p : nat) (m : list Z) : option Z := m !! p.
Definition st (p : nat) (v : Z) (m : list Z) : option (list Z) :=
  if decide (p < length m)%nat then Some (<[p := v]> m) else None.

(** [for (char* p = d; n--; ++p) *p = c;] *)
Fixpoint memset (d : nat) (c : Z) (n : nat) (m : list Z) : option (list Z) :=
  match n with
  | O => Some m
  | S n => m ← st d (u8 c) m; memset (S d) c n m
  end.

(** The two copying loops of [memcpy]: from the last byte down, from the first up. *)
Fixpoint copy_down (d s n : nat) (m : list Z) : option (list Z) :=
  match n with
  | O => Some m
  | S n => v ← ld (s + n) m; m ← st (d + n) v m; copy_down d s n m
  end.
Fixpoint copy_up (d s n : nat) (m : list Z) : option (list Z) :=
  match n with
  | O => Some m
  | S n => v ← ld s m; m ← st d v m; copy_up (S d) (S s) n m
  end.
Definition memcpy (d s n : nat) (m : list Z) : option (list Z) :=
  if Nat.eqb n 0 then Some m
  else if (s <? d)%nat && (d <? s + n)%nat then copy_down d s n m
  else copy_up d s n m.

(** [while (n-- > 0) *s++ = 0;] *)
Fixpoint strncpy_pad (s n : nat) (m : list Z) : option (list Z) :=
  match n with
  | O => Some m
  | S n => m ← st s 0 m; strncpy_pad (S s) n m
  end.
(** [while (n-- > 0 && ( *s++ = *t++) != 0);] and the padding: [n] is the
    argument when it is positive. *)
Fixpoint strncpy (s t n : nat) (m : list Z) : option (list Z) :=
  match n with
  | O => Some m
  | S n =>
    v ← ld t m;
    m ← st s v m;
    if v =? 0 then strncpy_pad (S s) n m else strncpy (S s) (S t) n m
  end.

(** [strlen] and [strcpy] run until the terminator; the fuel is the size of the
    memory. *)
Fixpoint strlen_loop (fuel str len : nat) (m : list Z) : option nat :=
  match fuel with
  | O => None
  | S fuel => v ← ld (str + len) m; if v =? 0 then Some len else strlen_loop fuel str (S len) m
  end.
Definition strlen (str : nat) (m : list Z) : option nat := strlen_loop (S (length m)) str 0 m.
Fixpoint strcpy_loop (fuel d s : nat) (m : list Z) : option (list Z) :=
  match fuel with
  | O => None
  | S fuel => v ← ld s m; m ← st d v m; if v =? 0 then Some m else strcpy_loop fuel (S d) (S s) m
  end.
Definition strcpy (d s : nat) (m : list Z) : option (list Z) := strcpy_loop (S (length m)) d s m.

(** ** Specifications *)

(** The bytes [p, p + n) of memory. *)
Definition slice (p n : nat) (m : list Z) : list Z := take n (drop p m).
(** The C string at [p]. *)
Definition cstr_at (p : nat) (w : list Z) (m : list Z) : Prop :=
  Forall (λ v, v ≠ 0) w ∧ slice p (length w + 1) m = w ++ [0].

Lemma st_ok p v m : (p < length m)%nat → st p v m = Some (<[p := v]> m).
Proof. intros. unfold st. by rewrite decide_True. Qed.
Lemma length_slice p n m : (p + n ≤ length m)%nat → length (slice p n m) = n.
Proof. intros. unfold slice. rewrite length_take, length_drop. lia. Qed.
Lemma lookup_slice p n m i : slice p n m !! i = if decide (i < n)%nat then m !! (p + i)%nat else None.
Proof.
  unfold slice. destruct (decide (i < n)%nat).
  - by rewrite lookup_take_lt, lookup_drop by done.
  - by rewrite lookup_take_ge by lia.
Qed.
Lemma slice_insert_out p n q v m : (q < p ∨ p + n ≤ q)%nat → slice p n (<[q := v]> m) = slice p n m.
Proof.
  intros Hq. apply list_eq. intros i. rewrite !lookup_slice. case_decide; [|done].
  by rewrite list_lookup_insert_ne by lia.
Qed.
(** Storing the first byte and then the rest, or the last byte and then the rest. *)
Lemma blit_first off v src m : (off + S (length src) ≤ length m)%nat →
  blit (S off) src (<[off := v]> m) = blit off (v :: src) m.
Proof.
  intros H. apply list_eq. intros i. rewrite !lookup_blit by (cbn; rewrite ?length_insert; lia). cbn [length].
  destruct (decide (i = off)) as [->|].
  - rewrite decide_False, decide_True by lia. rewrite Nat.sub_diag. by apply list_lookup_insert_eq; lia.
  - rewrite list_lookup_insert_ne by done. repeat case_decide; try lia; try done.
    by replace (i - off)%nat with (S (i - S off)) by lia.
Qed.
Lemma blit_last off v src m : (off + S (length src) ≤ length m)%nat →
  blit off src (<[(off + length src)%nat := v]> m) = blit off (src ++ [v]) m.
Proof.
  intros H. apply list_eq. intros i.
  rewrite !lookup_blit by (rewrite ?length_insert, ?length_app; cbn; lia). rewrite length_app. cbn [length].
  destruct (decide (i = off + length src)%nat) as [->|].
  - rewrite decide_False, decide_True by lia. rewrite list_lookup_insert_eq by lia.
    rewrite lookup_app_r by lia. by replace (off + length src - off - length src)%nat with 0%nat by lia.
  - rewrite list_lookup_insert_ne by lia. repeat case_decide; try lia; try done.
    by rewrite lookup_app_l by lia.
Qed.
Lemma blit_nil off m : blit off [] m = m.
Proof. unfold blit. cbn. rewrite Nat.add_0_r. apply take_drop. Qed.
Lemma slice_first p n m v : m !! p = Some v → slice p (S n) m = v :: slice (S p) n m.
Proof.
  intros E. apply list_eq. intros [|i]; rewrite ?lookup_cons, !lookup_slice.
  - rewrite decide_True by lia. by rewrite Nat.add_0_r.
  - replace (p + S i)%nat with (S p + i)%nat by lia. repeat case_decide; try done; lia.
Qed.
Lemma slice_last p n m v : m !! (p + n)%nat = Some v → slice p (S n) m = slice p n m ++ [v].
Proof.
  intros E. pose proof (lookup_lt_Some _ _ _ E). apply list_eq. intros i.
  destruct (decide (i < n)%nat).
  - rewrite lookup_app_l by (rewrite length_slice; lia). rewrite !lookup_slice. repeat case_decide; done || lia.
  - rewrite lookup_app_r by (rewrite length_slice; lia). rewrite length_slice, lookup_slice by lia.
    destruct (decide (i = n)) as [->|]; [by rewrite decide_True, Nat.sub_diag by lia|].
    rewrite decide_False by lia. symmetry. apply lookup_ge_None_2. cbn. lia.
Qed.

Lemma memset_ok d c n m : (d + n ≤ length m)%nat → memset d c n m = Some (blit d (replicate n (u8 c)) m).
Proof.
  revert d m. induction n as [|n IH]; intros d m H; cbn [memset replicate]; [by rewrite blit_nil|].
  rewrite st_ok by lia. cbn. rewrite IH by (rewrite length_insert; lia).
  by rewrite blit_first by (rewrite length_replicate; lia).
Qed.
Lemma memset_out d c n m : (length m < d + n)%nat → (d ≤ length m)%nat → memset d c n m = None.
Proof.
  revert d m. induction n as [|n IH]; intros d m H Hd; [lia|]. cbn [memset]. unfold st.
  case_decide; [|done]. cbn. apply IH; rewrite length_insert; lia.
Qed.
Lemma copy_down_ok d s n m : (s ≤ d)%nat → (d + n ≤ length m)%nat →
  copy_down d s n m = Some (blit d (slice s n m) m).
Proof.
  revert m. induction n as [|n IH]; intros m Hs Hd; cbn [copy_down].
  { unfold slice. by rewrite take_0, blit_nil. }
  destruct (lookup_lt_is_Some_2 m (s + n)) as [v Ev]; [lia|]. unfold ld. rewrite Ev. cbn.
  rewrite st_ok by lia. cbn. rewrite IH by (rewrite ?length_insert; lia).
  rewrite slice_insert_out by lia. rewrite (slice_last _ _ _ _ Ev).
  pose proof (length_slice s n m ltac:(lia)) as Hl. rewrite <- Hl at 2. by rewrite blit_last by lia.
Qed.
Lemma copy_up_ok d s n m : (d ≤ s ∨ s + n ≤ d)%nat → (d + n ≤ length m)%nat → (s + n ≤ length m)%nat →
  copy_up d s n m = Some (blit d (slice s n m) m).
Proof.
  revert d s m. induction n as [|n IH]; intros d s m Ho Hd Hs; cbn [copy_up].
  { unfold slice. by rewrite take_0, blit_nil. }
  destruct (lookup_lt_is_Some_2 m s) as [v Ev]; [lia|]. unfold ld. rewrite Ev. cbn.
  rewrite st_ok by lia. cbn. rewrite IH by (rewrite ?length_insert; lia).
  rewrite slice_insert_out by lia. rewrite (slice_first _ _ _ _ Ev).
  by rewrite blit_first by (rewrite length_slice; lia).
Qed.
Lemma memcpy_ok d s n m : (d + n ≤ length m)%nat → (s + n ≤ length m)%nat →
  memcpy d s n m = Some (blit d (slice s n m) m).
Proof.
  intros Hd Hs. unfold memcpy. destruct (Nat.eqb_spec n 0) as [->|Hn].
  { unfold slice. by rewrite take_0, blit_nil. }
  destruct (Nat.ltb_spec s d), (Nat.ltb_spec d (s + n)); cbn [andb];
    (apply copy_down_ok || apply copy_up_ok); lia.
Qed.

Lemma strncpy_pad_ok s n m : (s + n ≤ length m)%nat → strncpy_pad s n m = Some (blit s (replicate n 0) m).
Proof.
  revert s m. induction n as [|n IH]; intros s m H; cbn [strncpy_pad replicate]; [by rewrite blit_nil|].
  rewrite st_ok by lia. cbn. rewrite IH by (rewrite length_insert; lia).
  by rewrite blit_first by (rewrite length_replicate; lia).
Qed.

Lemma cstr_at_lookup p w m i v : cstr_at p w m → (w ++ [0]) !! i = Some v → m !! (p + i)%nat = Some v.
Proof.
  intros [_ E] Hi. pose proof (lookup_lt_Some _ _ _ Hi) as Hl. rewrite length_app in Hl. cbn in Hl.
  rewrite <- E, lookup_slice in Hi. case_decide; [done|lia].
Qed.
Lemma cstr_at_nil p m : cstr_at p [] m → m !! p = Some 0.
Proof. intros H. rewrite <- (Nat.add_0_r p). by eapply cstr_at_lookup. Qed.
Lemma cstr_at_cons p v w m : cstr_at p (v :: w) m → m !! p = Some v ∧ v ≠ 0 ∧ cstr_at (S p) w m.
Proof.
  intros H. assert (Ev : m !! p = Some v) by (rewrite <- (Nat.add_0_r p); by eapply cstr_at_lookup).
  destruct H as [H E]. apply Forall_cons in H as [Hv Hw]. split; [done|]. split; [done|]. split; [done|].
  cbn [length Nat.add] in E. rewrite (slice_first _ _ _ _ Ev) in E. by injection E.
Qed.
Lemma cstr_at_insert p w m q v : cstr_at p w m → (q < p ∨ p + length w + 1 ≤ q)%nat →
  cstr_at p w (<[q := v]> m).
Proof. intros [H E] Hq. split; [done|]. rewrite slice_insert_out by lia. done. Qed.

(** [n] bytes of the string padded with zeros. *)
Definition padded (n : nat) (w : list Z) : list Z := take n (w ++ replicate n 0).
Lemma padded_cons n v w : padded (S n) (v :: w) = v :: padded n w.
Proof.
  unfold padded. cbn. f_equal. rewrite replicate_cons_app, app_assoc.
  rewrite take_app_le; [done|]. rewrite length_app, length_replicate. lia.
Qed.
#[global] Arguments padded : simpl never.
Lemma strncpy_ok s t n w m : cstr_at t w m → (s + n ≤ t ∨ t + length w + 1 ≤ s)%nat →
  (s + n ≤ length m)%nat → strncpy s t n m = Some (blit s (padded n w) m).
Proof.
  revert s t w m. induction n as [|n IH]; intros s t w m Hw Ho Hs; cbn [strncpy].
  { unfold padded. by rewrite take_0, blit_nil. }
  destruct w as [|v w].
  - unfold ld. rewrite (cstr_at_nil _ _ Hw). cbn. rewrite st_ok by lia. cbn.
    rewrite strncpy_pad_ok by (rewrite length_insert; lia).
    rewrite blit_first by (rewrite length_replicate; lia). unfold padded. cbn.
    by rewrite take_ge by (rewrite length_replicate; lia).
  - apply cstr_at_cons in Hw as (Ev & Hv & Hw). cbn in Ho. unfold ld. rewrite Ev. cbn.
    rewrite st_ok by lia. cbn. rewrite (proj2 (Z.eqb_neq v 0) Hv).
    rewrite (IH (S s) (S t) w); [|apply cstr_at_insert; [done|lia]|lia|rewrite length_insert; lia].
    rewrite padded_cons, blit_first; [done|]. unfold padded. rewrite length_take. lia.
Qed.

Lemma strlen_ok p w m : cstr_at p w m → strlen p m = Some (length w).
Proof.
  intros Hw. unfold strlen.
  assert (G : ∀ w' k fuel, cstr_at (p + k) w' m → (length w' < fuel)%nat →
    strlen_loop fuel p k m = Some (k + length w')%nat).
  { induction w' as [|v w' IH]; intros k [|fuel] Hc Hf; cbn in Hf; try lia; cbn [strlen_loop]; unfold ld.
    - rewrite (cstr_at_nil _ _ Hc). cbn. f_equal. lia.
    - apply cstr_at_cons in Hc as (Ev & Hv & Hc). rewrite Ev. cbn. rewrite (proj2 (Z.eqb_neq v 0) Hv).
      rewrite IH; [f_equal; lia|by replace (p + S k)%nat with (S (p + k)) by lia|lia]. }
  rewrite (G w 0%nat); [done|by rewrite Nat.add_0_r|].
  assert (Hz : m !! (p + length w)%nat = Some 0)
    by (eapply cstr_at_lookup; [done|]; by rewrite lookup_app_r, Nat.sub_diag by lia).
  apply lookup_lt_Some in Hz. lia.
Qed.
Lemma strcpy_ok d s w m : cstr_at s w m → (d + length w + 1 ≤ s ∨ s + length w + 1 ≤ d)%nat →
  (d + length w + 1 ≤ length m)%nat → strcpy d s m = Some (blit d (w ++ [0]) m).
Proof.
  intros Hw Ho Hd. unfold strcpy. assert (Hf : (length w < S (length m))%nat) by lia. revert Hf.
  generalize (S (length m)). intros fuel. revert d s w m Hw Ho Hd.
  induction fuel as [|fuel IH]; intros d s w m Hw Ho Hd Hf; [lia|]. cbn [strcpy_loop]. unfold ld.
  destruct w as [|v w].
  - rewrite (cstr_at_nil _ _ Hw). cbn. rewrite st_ok by (cbn in Hd; lia). cbn.
    rewrite <- blit_first by (cbn in *; lia). by rewrite blit_nil.
  - apply cstr_at_cons in Hw as (Ev & Hv & Hw). cbn in Ho, Hd, Hf. rewrite Ev. cbn. rewrite st_ok by lia. cbn.
    rewrite (proj2 (Z.eqb_neq v 0) Hv). rewrite (IH (S d) (S s) w).
    + by rewrite blit_first by (rewrite length_app; cbn; lia).
    + apply cstr_at_insert; [done|lia].
    + lia.
    + rewrite length_insert. lia.
    + lia.
Qed.
