(* ===== verification/ListNode.v ===== *)
(** Intrusive doubly linked lists (kernel/util/list.h, kernel/util/list.c).

    A [struct list_node] lives inside the object it links; the heap of nodes is
    a finite map from node addresses to nodes, a pointer is an [option] (NULL is
    [None]).  The C code updates shared nodes through aliases; here every access
    goes through the heap and an access to NULL or to an address that holds no
    node has no result.  [dlist h head l] says that the nodes of [l], in this
    order, form the circular list of [head]; the operations are shown to
    implement appending, prepending and removing on [l]. *)
From S2P Require Import Prelude.

Record list_node (K : Type) := LNode { next : option K; prev : option K }.
Arguments LNode {K} next prev.
Arguments next {K} _.
Arguments prev {K} _.

Section list_node.
Context {K : Type} `{Countable K}.
Implicit Types (h : gmap K (list_node K)) (k head node : K) (l : list K).

(** [p->next] and [p->prev]: [None] when [p] holds no node. *)
Definition ld_next (h : gmap K (list_node K)) (p : option K) : option (option K) :=
  k ← p; n ← h !! k; Some (next n).
Definition ld_prev (h : gmap K (list_node K)) (p : option K) : option (option K) :=
  k ← p; n ← h !! k; Some (prev n).
(** [p->next = v] and [p->prev = v]. *)
Definition st_next (p v : option K) (h : gmap K (list_node K)) : option (gmap K (list_node K)) :=
  k ← p; n ← h !! k; Some (<[k := LNode v (prev n)]> h).
Definition st_prev (p v : option K) (h : gmap K (list_node K)) : option (gmap K (list_node K)) :=
  k ← p; n ← h !! k; Some (<[k := LNode (next n) v]> h).

Definition list_init (head : K) (h : gmap K (list_node K)) : option (gmap K (list_node K)) :=
  h1 ← st_prev (Some head) (Some head) h;
  st_next (Some head) (Some head) h1.

Definition list_pushback (head node : K) (h : gmap K (list_node K)) :
    option (gmap K (list_node K)) :=
  h1 ← st_next (Some node) (Some head) h;
  p ← ld_prev h1 (Some head);
  h2 ← st_prev (Some node) p h1;
  q ← ld_prev h2 (Some head);
  h3 ← st_next q (Some node) h2;
  st_prev (Some head) (Some node) h3.

Definition list_pushfront (head node : K) (h : gmap K (list_node K)) :
    option (gmap K (list_node K)) :=
  h1 ← st_prev (Some node) (Some head) h;
  p ← ld_next h1 (Some head);
  h2 ← st_next (Some node) p h1;
  q ← ld_next h2 (Some head);
  h3 ← st_prev q (Some node) h2;
  st_next (Some head) (Some node) h3.

Definition list_remove (node : K) (h : gmap K (list_node K)) : option (gmap K (list_node K)) :=
  p ← ld_prev h (Some node);
  n ← ld_next h (Some node);
  h1 ← st_next p n h;
  n1 ← ld_next h1 (Some node);
  p1 ← ld_prev h1 (Some node);
  h2 ← st_prev n1 p1 h1;
  h3 ← st_next (Some node) None h2;
  st_prev (Some node) None h3.

(** The nodes visited by [for (node = head->next; node != head; node = node->next)],
    at most [fuel] of them; [None] if the walk runs out of fuel or faults. *)
Fixpoint list_walk (fuel : nat) (head : K) (p : option K) (h : gmap K (list_node K)) :
    option (list K) :=
  match fuel with
  | O => None
  | S fuel =>
    k ← p;
    if decide (k = head) then Some []
    else q ← ld_next h (Some k); l ← list_walk fuel head q h; Some (k :: l)
  end.

(** ** The list a heap represents *)

Definition nx (h : gmap K (list_node K)) (k : K) : option K := h !! k ≫= next.
Definition pv (h : gmap K (list_node K)) (k : K) : option K := h !! k ≫= prev.
Definition link (h : gmap K (list_node K)) (a b : K) : Prop := nx h a = Some b ∧ pv h b = Some a.

(** The links from [a] through the nodes of [l] to [b]. *)
Fixpoint seg (h : gmap K (list_node K)) (a : K) (l : list K) (b : K) : Prop :=
  match l with
  | [] => link h a b
  | x :: l => link h a x ∧ seg h x l b
  end.

Definition dlist (h : gmap K (list_node K)) (head : K) (l : list K) : Prop :=
  NoDup (head :: l) ∧ seg h head l head.

Lemma seg_app h a l1 x l2 b : seg h a (l1 ++ x :: l2) b ↔ seg h a l1 x ∧ seg h x l2 b.
Proof. revert a. induction l1; intros; cbn; [done|]. rewrite IHl1. tauto. Qed.

Lemma seg_snoc h a l x b : seg h a (l ++ [x]) b ↔ seg h a l x ∧ link h x b.
Proof. apply seg_app. Qed.

(** A segment depends only on the [next] of its start and inner nodes and on the
    [prev] of its inner nodes and end. *)
Lemma seg_frame h h' a l b :
  (∀ k, k ∈ a :: l → nx h' k = nx h k) → (∀ k, k ∈ l ++ [b] → pv h' k = pv h k) →
  seg h a l b → seg h' a l b.
Proof.
  revert a. induction l as [|x l IH]; intros a Hn Hp; cbn.
  - unfold link. rewrite Hn, Hp by set_solver. done.
  - unfold link. intros [[? ?] ?]. rewrite Hn, Hp by set_solver. split; [done|].
    apply IH; set_solver.
Qed.

Lemma link_is_Some_l h a b : link h a b → is_Some (h !! a).
Proof. unfold link, nx. destruct (h !! a); naive_solver. Qed.
Lemma link_is_Some_r h a b : link h a b → is_Some (h !! b).
Proof. unfold link, pv. destruct (h !! b); naive_solver. Qed.

Lemma seg_elem h a l b k : seg h a l b → k ∈ a :: l → is_Some (h !! k).
Proof.
  revert a. induction l as [|x l IH]; intros a; cbn.
  - intros Hl Hk. assert (k = a) as -> by set_solver. eauto using link_is_Some_l.
  - intros [Hl Hs] Hk. apply elem_of_cons in Hk as [->|Hk]; eauto using link_is_Some_l.
Qed.

Lemma dlist_elem h head l k : dlist h head l → k ∈ head :: l → is_Some (h !! k).
Proof. intros [_ Hs]. eauto using seg_elem. Qed.

(** Two lists that share no node do not interfere. *)
Lemma dlist_frame h h' head l :
  (∀ k, k ∈ head :: l → h' !! k = h !! k) → dlist h head l → dlist h' head l.
Proof.
  intros Hk [Hnd Hs]. split; [done|].
  eapply seg_frame; [..|done]; unfold nx, pv; intros k Hin; rewrite Hk; set_solver.
Qed.

Lemma dlist_head_next h head l : dlist h head l → nx h head = Some (default head (hd_error l)).
Proof. intros [_ Hs]. destruct l; cbn in *; [apply Hs|apply Hs]. Qed.

Lemma dlist_head_prev h head l : dlist h head l → pv h head = Some (default head (list.last l)).
Proof.
  intros [_ Hs]. destruct l as [|x l _] using rev_ind; cbn in *; [apply Hs|].
  rewrite last_snoc. apply seg_snoc in Hs. apply Hs.
Qed.

(** ** What the stores do to [nx] and [pv] *)

Lemma st_next_spec a v h : is_Some (h !! a) → ∃ h', st_next (Some a) v h = Some h' ∧
  (∀ k, nx h' k = if decide (k = a) then v else nx h k) ∧ (∀ k, pv h' k = pv h k) ∧
  (∀ k, k ≠ a → h' !! k = h !! k) ∧ (∀ k, is_Some (h' !! k) ↔ is_Some (h !! k)).
Proof.
  intros [n Hn]. unfold st_next. cbn. rewrite Hn. cbn. eexists. split; [done|].
  unfold nx, pv. split_and!; intros k; try destruct (decide (k = a)) as [->|];
    rewrite ?lookup_insert_eq, ?lookup_insert_ne by done; rewrite ?Hn; done.
Qed.

Lemma st_prev_spec a v h : is_Some (h !! a) → ∃ h', st_prev (Some a) v h = Some h' ∧
  (∀ k, pv h' k = if decide (k = a) then v else pv h k) ∧ (∀ k, nx h' k = nx h k) ∧
  (∀ k, k ≠ a → h' !! k = h !! k) ∧ (∀ k, is_Some (h' !! k) ↔ is_Some (h !! k)).
Proof.
  intros [n Hn]. unfold st_prev. cbn. rewrite Hn. cbn. eexists. split; [done|].
  unfold nx, pv. split_and!; intros k; try destruct (decide (k = a)) as [->|];
    rewrite ?lookup_insert_eq, ?lookup_insert_ne by done; rewrite ?Hn; done.
Qed.

Lemma ld_next_nx h a b : nx h a = Some b → ld_next h (Some a) = Some (Some b).
Proof. unfold nx, ld_next. cbn. destruct (h !! a) as [n|]; cbn; congruence. Qed.
Lemma ld_prev_pv h a b : pv h a = Some b → ld_prev h (Some a) = Some (Some b).
Proof. unfold pv, ld_prev. cbn. destruct (h !! a) as [n|]; cbn; congruence. Qed.

(** ** The operations implement list operations *)

Lemma list_init_spec head h : is_Some (h !! head) →
  ∃ h', list_init head h = Some h' ∧ dlist h' head [] ∧
    (∀ k, k ≠ head → h' !! k = h !! k) ∧ (∀ k, is_Some (h' !! k) ↔ is_Some (h !! k)).
Proof.
  intros Hh. unfold list_init.
  destruct (st_prev_spec head (Some head) h Hh) as (h1 & -> & P1 & N1 & F1 & D1). cbn [mbind option_bind].
  destruct (st_next_spec head (Some head) h1) as (h2 & -> & N2 & P2 & F2 & D2);
    [by apply D1|].
  exists h2. split; [done|]. split_and!.
  - split; [by apply NoDup_singleton|]. cbn. unfold link.
    rewrite N2, P2, P1, !decide_True by done. done.
  - intros k Hk. by rewrite F2, F1.
  - intros k. by rewrite D2, D1.
Qed.

Lemma list_pushback_spec h head l node :
  dlist h head l → node ∉ head :: l → is_Some (h !! node) →
  ∃ h', list_pushback head node h = Some h' ∧ dlist h' head (l ++ [node]) ∧
    (∀ k, k ∉ head :: node :: l → h' !! k = h !! k) ∧
    (∀ k, is_Some (h' !! k) ↔ is_Some (h !! k)).
Proof.
  intros Hdl Hni Hnode. pose proof (dlist_head_prev _ _ _ Hdl) as Hpv.
  destruct Hdl as [Hnd Hs]. unfold list_pushback.
  destruct (st_next_spec node (Some head) h Hnode) as (h1 & -> & N1 & P1 & F1 & D1). cbn [mbind option_bind].
  set (z := default head (list.last l)) in *.
  assert (Hz : z ∈ head :: l).
  { unfold z. destruct (list.last l) as [y|] eqn:E; cbn; [|set_solver].
    apply last_Some_elem_of in E. set_solver. }
  rewrite (ld_prev_pv h1 head z) by (by rewrite P1). cbn [mbind option_bind].
  destruct (st_prev_spec node (Some z) h1) as (h2 & -> & P2 & N2 & F2 & D2); [by apply D1|].
  cbn [mbind option_bind].
  rewrite (ld_prev_pv h2 head z) by (rewrite P2, P1, decide_False by set_solver; done).
  cbn [mbind option_bind].
  destruct (st_next_spec z (Some node) h2) as (h3 & -> & N3 & P3 & F3 & D3).
  { apply D2, D1. eapply seg_elem; eauto. }
  cbn [mbind option_bind].
  destruct (st_prev_spec head (Some node) h3) as (h4 & -> & P4 & N4 & F4 & D4).
  { apply D3, D2, D1. eapply (seg_elem _ _ _ _ _ Hs). set_solver. }
  exists h4. split; [done|]. split_and!.
  - split.
    { rewrite app_comm_cons. apply NoDup_app. split_and!; [done| |apply NoDup_singleton].
      intros x Hx Hx'. apply list_elem_of_singleton in Hx'. by subst. }
    apply seg_snoc. split.
    + destruct l as [|y l _] using rev_ind; cbn in z; subst z; cbn.
      * unfold link. rewrite N4, N3, decide_True by done. split; [done|].
        rewrite P4, decide_False, P3, P2, decide_True by set_solver. done.
      * rewrite last_snoc in *; cbn in *. apply seg_snoc in Hs as [Hs Hl].
        assert (Hhy : head ≠ y ∧ y ∉ l) by (rewrite NoDup_cons, NoDup_app in Hnd; set_solver).
        apply seg_snoc. split.
        -- eapply seg_frame; [| |exact Hs]; intros k Hk.
           ++ rewrite N4, N3, decide_False, N2, N1, decide_False by set_solver. done.
           ++ rewrite P4, decide_False, P3, P2, decide_False, P1; [done|set_solver|].
              rewrite NoDup_cons in Hnd. set_solver.
        -- unfold link. rewrite N4, N3, decide_True by done. split; [done|].
           rewrite P4, decide_False, P3, P2, decide_True by set_solver. done.
    + unfold link. rewrite N4, N3, decide_False, N2, N1, decide_True by set_solver.
      split; [done|]. by rewrite P4, decide_True.
  - intros k Hk. rewrite F4, F3, F2, F1 by set_solver. done.
  - intros k. by rewrite D4, D3, D2, D1.
Qed.

Lemma list_pushfront_spec h head l node :
  dlist h head l → node ∉ head :: l → is_Some (h !! node) →
  ∃ h', list_pushfront head node h = Some h' ∧ dlist h' head (node :: l) ∧
    (∀ k, k ∉ head :: node :: l → h' !! k = h !! k) ∧
    (∀ k, is_Some (h' !! k) ↔ is_Some (h !! k)).
Proof.
  intros Hdl Hni Hnode. pose proof (dlist_head_next _ _ _ Hdl) as Hnx.
  destruct Hdl as [Hnd Hs]. unfold list_pushfront.
  destruct (st_prev_spec node (Some head) h Hnode) as (h1 & -> & P1 & N1 & F1 & D1). cbn [mbind option_bind].
  set (z := default head (hd_error l)) in *.
  assert (Hz : z ∈ head :: l) by (unfold z; destruct l; cbn; set_solver).
  rewrite (ld_next_nx h1 head z) by (by rewrite N1). cbn [mbind option_bind].
  destruct (st_next_spec node (Some z) h1) as (h2 & -> & N2 & P2 & F2 & D2); [by apply D1|].
  cbn [mbind option_bind].
  rewrite (ld_next_nx h2 head z) by (rewrite N2, N1, decide_False by set_solver; done).
  cbn [mbind option_bind].
  destruct (st_prev_spec z (Some node) h2) as (h3 & -> & P3 & N3 & F3 & D3).
  { apply D2, D1. eapply seg_elem; eauto. }
  cbn [mbind option_bind].
  destruct (st_next_spec head (Some node) h3) as (h4 & -> & N4 & P4 & F4 & D4).
  { apply D3, D2, D1. eapply (seg_elem _ _ _ _ _ Hs). set_solver. }
  exists h4. split; [done|]. split_and!.
  - split; [rewrite !NoDup_cons in *; set_solver|]. cbn. split.
    { unfold link. rewrite N4, decide_True by done. split; [done|].
      rewrite P4, P3, decide_False, P2, P1, decide_True by set_solver. done. }
    destruct l as [|y l]; cbn in z; subst z; cbn in *.
    + unfold link. rewrite N4, decide_False, N3, N2, decide_True by set_solver.
      split; [done|]. by rewrite P4, P3, decide_True.
    + destruct Hs as [_ Hs]. rewrite !NoDup_cons in Hnd. split.
      { unfold link. rewrite N4, decide_False, N3, N2, decide_True by set_solver.
        split; [done|]. by rewrite P4, P3, decide_True. }
      eapply seg_frame; [| |exact Hs]; intros k Hk.
      * rewrite N4, decide_False, N3, N2, decide_False, N1 by set_solver. done.
      * rewrite P4, P3, decide_False, P2, P1, decide_False by set_solver. done.
  - intros k Hk. rewrite F4, F3, F2, F1 by set_solver. done.
  - intros k. by rewrite D4, D3, D2, D1.
Qed.

(** A segment survives when [next] changes only at [node] and [a], and [prev]
    only at [node] and [b], none of which it uses. *)
Lemma seg_redirect h h' node a b x l y :
  (∀ k, k ≠ node → k ≠ a → nx h' k = nx h k) → (∀ k, k ≠ node → k ≠ b → pv h' k = pv h k) →
  node ∉ x :: l → node ≠ y → a ∉ x :: l → b ∉ l → b ≠ y →
  seg h x l y → seg h' x l y.
Proof.
  intros Hn Hp H1 H2 H3 H4 H5. apply seg_frame.
  - intros k Hk. apply Hn; intros ->; done.
  - intros k Hk. apply elem_of_app in Hk. apply Hp; intros ->; set_solver.
Qed.

Lemma seg_pred h x l y : seg h x l y → pv h y = Some (default x (list.last l)).
Proof.
  destruct l as [|z l _] using rev_ind; cbn; [by intros []|].
  rewrite seg_snoc, last_snoc. cbn. by intros [_ []].
Qed.
Lemma seg_succ h x l y : seg h x l y → nx h x = Some (default y (hd_error l)).
Proof. destruct l; cbn; [by intros []|by intros [[] _]]. Qed.
Lemma last_default_in (x : K) l : default x (list.last l) ∈ x :: l.
Proof.
  destruct (list.last l) as [y|] eqn:E; cbn; [|set_solver].
  apply last_Some_elem_of in E. set_solver.
Qed.
Lemma hd_default_in (x : K) l : default x (hd_error l) ∈ x :: l.
Proof. destruct l; cbn; set_solver. Qed.

Lemma NoDup_split (head : K) l1 node l2 : NoDup (head :: l1 ++ node :: l2) →
  head ≠ node ∧ head ∉ l1 ∧ head ∉ l2 ∧ node ∉ l1 ∧ node ∉ l2 ∧
  NoDup l1 ∧ NoDup l2 ∧ (∀ k, k ∈ l1 → k ∉ l2).
Proof.
  rewrite NoDup_cons, NoDup_app, NoDup_cons. intros (Hh & Hd1 & Hdj & Hn2 & Hd2).
  rewrite elem_of_app, elem_of_cons in Hh.
  split_and!; try tauto.
  - intros Hi. apply (Hdj node Hi). by left.
  - intros k Hi Hi2. apply (Hdj k Hi). by right.
Qed.

Lemma cons_sep (x head : K) l l2 :
  x ∈ head :: l2 → head ∉ l → (∀ k, k ∈ l → k ∉ l2) → x ∉ l.
Proof. set_solver. Qed.

(** Unlinking [node] from between two segments joins them. *)
Lemma seg_unlink h h' head l1 node l2 :
  NoDup (head :: l1 ++ node :: l2) → seg h head l1 node → seg h node l2 head →
  let a := default head (list.last l1) in let b := default head (hd_error l2) in
  (∀ k, k ≠ node → nx h' k = if decide (k = a) then Some b else nx h k) →
  (∀ k, k ≠ node → pv h' k = if decide (k = b) then Some a else pv h k) →
  seg h' head (l1 ++ l2) head.
Proof.
  intros Hnd Hs1 Hs2 a b Nx Pv.
  apply NoDup_split in Hnd as (Hhn & Hh1 & Hh2 & Hn1 & Hn2 & Hd1 & Hd2 & Hdj).
  pose proof (last_default_in head l1) as Hai. fold a in Hai.
  pose proof (hd_default_in head l2) as Hbi. fold b in Hbi.
  assert (Han : a ≠ node) by (intros ->; set_solver).
  assert (Hbn : b ≠ node) by (intros ->; set_solver).
  assert (Hnx : ∀ k, k ≠ node → k ≠ a → nx h' k = nx h k)
    by (intros; rewrite Nx, decide_False; done).
  assert (Hpv : ∀ k, k ≠ node → k ≠ b → pv h' k = pv h k)
    by (intros; rewrite Pv, decide_False; done).
  assert (Hab : link h' a b) by (split; [rewrite Nx|rewrite Pv]; [|done| |done]; by rewrite decide_True).
  clear Nx Pv. assert (Hr : seg h' a l2 head).
  { destruct l2 as [|y l]; cbn in b; subst b; [done|]. destruct Hs2 as [_ Hs2]. split; [done|].
    apply NoDup_cons in Hd2 as [Hyl _].
    eapply (seg_redirect h h' node a y y l head Hnx Hpv);
      [done|done| |done|set_solver|done].
    apply (cons_sep a head _ l1 Hai Hh2). intros k Hk Hk'. by apply (Hdj k). }
  destruct l1 as [|y l _] using rev_ind; cbn in a; subst a; [done|].
  rewrite last_snoc in *; cbn in *. apply seg_snoc in Hs1 as [Hs1 _].
  rewrite <- app_assoc. apply seg_app. split; [|done].
  apply NoDup_app in Hd1 as (_ & Hyl & _).
  pose proof (cons_sep b head _ l2 Hbi Hh1 Hdj) as H0. clearbody b. clear Hbi.
  clear - Hnx Hpv Hs1 Hhn Hh1 Hn1 Hyl H0 Hab Han.
  eapply (seg_redirect h h' node y b head l y Hnx Hpv); set_solver.
Qed.

Lemma list_remove_spec h head l1 node l2 :
  dlist h head (l1 ++ node :: l2) →
  ∃ h', list_remove node h = Some h' ∧ dlist h' head (l1 ++ l2) ∧
    h' !! node = Some (LNode None None) ∧
    (∀ k, k ∉ head :: l1 ++ node :: l2 → h' !! k = h !! k) ∧
    (∀ k, is_Some (h' !! k) ↔ is_Some (h !! k)).
Proof.
  intros Hdl. pose proof (λ k, dlist_elem _ _ _ k Hdl) as Hel. destruct Hdl as [Hnd Hs].
  pose proof (NoDup_split _ _ _ _ Hnd) as (Hhn & Hh1 & Hh2 & Hn1 & Hn2 & Hd1 & Hd2 & Hdj).
  apply seg_app in Hs as [Hs1 Hs2].
  pose proof (seg_pred _ _ _ _ Hs1) as Ha. pose proof (seg_succ _ _ _ _ Hs2) as Hb.
  pose proof (seg_unlink h) as Hun.
  specialize (λ h', Hun h' head l1 node l2 Hnd Hs1 Hs2). cbn zeta in Hun.
  pose proof (last_default_in head l1) as Hai. pose proof (hd_default_in head l2) as Hbi.
  set (a := default head (list.last l1)) in *. set (b := default head (hd_error l2)) in *.
  assert (Han : a ≠ node) by (intros E; rewrite E in Hai; clear - Hai Hhn Hn1; set_solver).
  assert (Hbn : b ≠ node) by (intros E; rewrite E in Hbi; clear - Hbi Hhn Hn2; set_solver).
  assert (Hin : is_Some (h !! a) ∧ is_Some (h !! b) ∧ is_Some (h !! node)).
  { clear - Hel Hai Hbi. split_and!; apply Hel; set_solver. }
  destruct Hin as (Ia & Ib & In).
  unfold list_remove. rewrite (ld_prev_pv _ _ _ Ha), (ld_next_nx _ _ _ Hb).
  cbn [mbind option_bind].
  destruct (st_next_spec a (Some b) h Ia) as (h1 & -> & N1 & P1 & F1 & D1). cbn [mbind option_bind].
  rewrite (ld_next_nx h1 node b) by (rewrite N1, decide_False by done; done).
  rewrite (ld_prev_pv h1 node a) by (rewrite P1; done). cbn [mbind option_bind].
  destruct (st_prev_spec b (Some a) h1) as (h2 & -> & P2 & N2 & F2 & D2);
    [by apply D1|]. cbn [mbind option_bind].
  destruct (st_next_spec node None h2) as (h3 & -> & N3 & P3 & F3 & D3);
    [by apply D2, D1|]. cbn [mbind option_bind].
  destruct (st_prev_spec node None h3) as (h4 & -> & P4 & N4 & F4 & D4);
    [by apply D3, D2, D1|].
  exists h4. split; [done|]. split_and!.
  - split; [clear - Hd1 Hd2 Hdj Hh1 Hh2; rewrite NoDup_cons, NoDup_app; set_solver|].
    apply Hun; intros k Hk;
      [rewrite N4, N3, decide_False, N2, N1 by done|rewrite P4, decide_False, P3, P2, P1 by done];
      done.
  - pose proof (N4 node) as E1. pose proof (P4 node) as E2.
    rewrite N3, decide_True in E1 by done. rewrite decide_True in E2 by done.
    unfold nx in E1; unfold pv in E2.
    assert (is_Some (h4 !! node)) as [[n p] Hn] by (by apply D4, D3, D2, D1).
    rewrite Hn in *; cbn in *; congruence.
  - intros k Hk. assert (k ≠ node ∧ k ≠ a ∧ k ≠ b) as (?&?&?).
    { clear - Hk Hai Hbi. split_and!; intros E; subst k; set_solver. }
    by rewrite F4, F3, F2, F1.
  - intros k. by rewrite D4, D3, D2, D1.
Qed.

(** The neighbours of a node in the middle of a list. *)
Lemma dlist_next h head l1 x l2 : dlist h head (l1 ++ x :: l2) →
  ld_next h (Some x) = Some (Some (default head (hd_error l2))).
Proof. intros [_ [_ Hs]%seg_app]. by apply ld_next_nx, seg_succ. Qed.
Lemma dlist_prev h head l1 x l2 : dlist h head (l1 ++ x :: l2) →
  ld_prev h (Some x) = Some (Some (default head (list.last l1))).
Proof. intros [_ [Hs _]%seg_app]. by apply ld_prev_pv, seg_pred. Qed.
Lemma dlist_first h head l : dlist h head l →
  ld_next h (Some head) = Some (Some (default head (hd_error l))).
Proof. intros. by apply ld_next_nx, dlist_head_next. Qed.
Lemma dlist_last h head l : dlist h head l →
  ld_prev h (Some head) = Some (Some (default head (list.last l))).
Proof. intros. by apply ld_prev_pv, dlist_head_prev. Qed.

Lemma list_walk_seg h head a l fuel :
  seg h a l head → head ∉ l → (length l < fuel)%nat →
  list_walk fuel head (nx h a) h = Some l.
Proof.
  revert a fuel. induction l as [|x l IH]; intros a [|fuel] Hs Hnd Hf; cbn in Hf; try lia.
  - cbn. destruct Hs as [-> _]. cbn. by rewrite decide_True.
  - destruct Hs as [[-> _] Hs]. cbn. rewrite decide_False by set_solver.
    assert (is_Some (h !! x)) as [n Hn] by (eapply seg_elem; [done|set_solver]).
    rewrite Hn. cbn.
    assert (next n = nx h x) as -> by (unfold nx; by rewrite Hn).
    rewrite (IH x fuel Hs); [done|set_solver|lia].
Qed.

(** The traversal of a list visits its nodes in order and ends. *)
Lemma list_walk_spec h head l fuel :
  dlist h head l → (length l < fuel)%nat → list_walk fuel head (nx h head) h = Some l.
Proof. intros [[Hnd _]%NoDup_cons Hs] ?. by apply list_walk_seg. Qed.
End list_node.
#[global] Arguments ld_next : simpl never.
#[global] Arguments ld_prev : simpl never.
#[global] Arguments st_next : simpl never.
#[global] Arguments st_prev : simpl never.
#[global] Arguments list_init : simpl never.
#[global] Arguments list_pushback : simpl never.
#[global] Arguments list_pushfront : simpl never.
#[global] Arguments list_remove : simpl never.
