(* ===== verification/SpinProtocol.v ===== *)
(** The spin lock among several CPUs (kernel/util/spinlock.c), at the granularity of
    its memory accesses: the reads of [lock->locked] and [lock->cpu] in
    [spin_holding], the atomic test-and-set, and the two stores on each side.

    The steps interleave freely.  A CPU may also misuse the lock: take it again
    while it holds it, or give it back without holding it. *)
From stdpp Require Import functions.
From S2P Require Import Prelude.

(** Where a CPU is; [h] records whether it holds the lock when it calls. *)
Inductive pc :=
| Out                    (* in neither function, without the lock *)
| Check (h : bool)       (* spin_get: about to read lock->locked *)
| CheckCpu (h : bool)    (* spin_get: lock->locked was true, about to read lock->cpu *)
| Tas                    (* spin_get: about to test and set *)
| SetOwner               (* spin_get: about to store lock->cpu = mycpu() *)
| Crit                   (* spin_get has returned *)
| PutCheck (h : bool)    (* spin_put: about to read lock->locked *)
| PutCpu (h : bool)      (* spin_put: about to read lock->cpu *)
| ClearOwner             (* spin_put: about to store lock->cpu = NULL *)
| ClearWord              (* spin_put: about to release lock->locked *)
| GetPanic (h : bool)    (* stopped in spin_get *)
| PutPanic (h : bool).   (* stopped in spin_put *)

Record lockst := MkLock { word : bool; who : option nat; pcs : nat → pc }.
Definition at_pc (c : nat) (p : pc) (s : lockst) : lockst := MkLock (word s) (who s) (<[c := p]> (pcs s)).
Definition store_word (w : bool) (s : lockst) : lockst := MkLock w (who s) (pcs s).
Definition store_who (o : option nat) (s : lockst) : lockst := MkLock (word s) o (pcs s).

(** One access of CPU [c]. *)
Inductive spin_step (c : nat) (s : lockst) : lockst → Prop :=
| st_get : pcs s c = Out → spin_step c s (at_pc c (Check false) s)
| st_get_again : pcs s c = Crit → spin_step c s (at_pc c (Check true) s)
| st_check_free h : pcs s c = Check h → word s = false → spin_step c s (at_pc c Tas s)
| st_check_locked h : pcs s c = Check h → word s = true → spin_step c s (at_pc c (CheckCpu h) s)
| st_check_mine h : pcs s c = CheckCpu h → who s = Some c → spin_step c s (at_pc c (GetPanic h) s)
| st_check_other h : pcs s c = CheckCpu h → who s ≠ Some c → spin_step c s (at_pc c Tas s)
| st_tas_busy : pcs s c = Tas → word s = true → spin_step c s s
| st_tas_won : pcs s c = Tas → word s = false → spin_step c s (at_pc c SetOwner (store_word true s))
| st_set_owner : pcs s c = SetOwner → spin_step c s (at_pc c Crit (store_who (Some c) s))
| st_put : pcs s c = Crit → spin_step c s (at_pc c (PutCheck true) s)
| st_put_free : pcs s c = Out → spin_step c s (at_pc c (PutCheck false) s)
| st_put_unlocked h : pcs s c = PutCheck h → word s = false → spin_step c s (at_pc c (PutPanic h) s)
| st_put_locked h : pcs s c = PutCheck h → word s = true → spin_step c s (at_pc c (PutCpu h) s)
| st_put_other h : pcs s c = PutCpu h → who s ≠ Some c → spin_step c s (at_pc c (PutPanic h) s)
| st_put_mine h : pcs s c = PutCpu h → who s = Some c → spin_step c s (at_pc c ClearOwner s)
| st_clear_owner : pcs s c = ClearOwner → spin_step c s (at_pc c ClearWord (store_who None s))
| st_clear_word : pcs s c = ClearWord → spin_step c s (at_pc c Out (store_word false s)).
Definition any_step (s s' : lockst) : Prop := ∃ c, spin_step c s s'.
(** The lock is free and no CPU uses it. *)
Definition lock_init : lockst := MkLock false None (λ _, Out).

(** ** Mutual exclusion *)

(** The CPU has won the test-and-set and has not released the word. *)
Definition has_lock (p : pc) : bool :=
  match p with
  | SetOwner | Crit | ClearOwner | ClearWord => true
  | Check h | CheckCpu h | PutCheck h | PutCpu h | GetPanic h | PutPanic h => h
  | Out | Tas => false
  end.
(** The owner field names the CPU. *)
Definition is_owner (p : pc) : bool :=
  match p with SetOwner | ClearWord => false | _ => has_lock p end.
(** A CPU stops in [spin_get] only with the lock and in [spin_put] only without it. *)
Definition justified (p : pc) : Prop :=
  match p with GetPanic h => h = true | PutPanic h => h = false | _ => True end.

(** [h] is the CPU that has the lock, if any. *)
Record spin_inv (h : option nat) (s : lockst) : Prop := {
  si_holds c : has_lock (pcs s c) = bool_decide (h = Some c);
  si_word : word s = bool_decide (is_Some h);
  si_who c : who s = Some c ↔ h = Some c ∧ is_owner (pcs s c) = true;
  si_panic c : justified (pcs s c);
}.

Lemma at_pc_inv c p s w o h h' : spin_inv h s → has_lock p = bool_decide (h' = Some c) →
  (∀ d, d ≠ c → h' = Some d ↔ h = Some d) → w = bool_decide (is_Some h') →
  (∀ d, o = Some d ↔ h' = Some d ∧ is_owner (<[c := p]> (pcs s) d) = true) → justified p →
  spin_inv h' (MkLock w o (<[c := p]> (pcs s))).
Proof.
  intros [I1 I2 I3 I4] Hp Hh Hw Ho Hj. split; cbn; [|done|done|].
  - intros d. destruct (decide (d = c)) as [->|Hne]; [by rewrite fn_lookup_insert|].
    rewrite fn_lookup_insert_ne by done. rewrite I1. apply bool_decide_ext. by rewrite Hh.
  - intros d. destruct (decide (d = c)) as [->|Hne]; [by rewrite fn_lookup_insert|]. rewrite fn_lookup_insert_ne by done. apply I4.
Qed.
(** A step of [c] that leaves word and owner alone and keeps what [c] holds. *)
Lemma move_inv c p s h : spin_inv h s → has_lock p = has_lock (pcs s c) → is_owner p = is_owner (pcs s c) → justified p → spin_inv h (at_pc c p s).
Proof.
  intros I Hp Ho Hj. apply (at_pc_inv c p s _ _ h); [done|by rewrite Hp, (si_holds _ _ I)|done|by apply I| |done].
  intros d. rewrite (si_who _ _ I). destruct (decide (d = c)) as [->|Hne]; [by rewrite fn_lookup_insert, Ho|].
  by rewrite fn_lookup_insert_ne.
Qed.
Lemma spin_step_inv c s s' h : spin_inv h s → spin_step c s s' → ∃ h', spin_inv h' s'.
Proof.
  intros I St. pose proof I as [I1 I2 I3 I4]. pose proof (I1 c) as Hc. pose proof (I3 c) as Hw.
  destruct St as [E|E|b E Ew|b E Ew|b E Ew|b E Ew|E Ew|E Ew|E|E|E|b E Ew|b E Ew|b E Ew|b E Ew|E|E];
    rewrite E in Hc, Hw; cbn in Hc, Hw.
  - exists h. apply move_inv; by rewrite ?E.
  - exists h. apply move_inv; by rewrite ?E.
  - exists h. assert (b = false) as ->; [|apply move_inv; by rewrite ?E].
    rewrite Ew in I2. destruct h; [done|]. by rewrite Hc.
  - exists h. apply move_inv; by rewrite ?E.
  - exists h. assert (b = true) as -> by (by apply Hw). apply move_inv; by rewrite ?E.
  - exists h. assert (b = false) as ->; [|apply move_inv; by rewrite ?E].
    destruct b; [|done]. destruct Ew. apply Hw. symmetry in Hc. by apply bool_decide_eq_true in Hc.
  - by exists h.
  - assert (h = None) as -> by (destruct h; [by rewrite Ew in I2|done]). exists (Some c).
    apply (at_pc_inv c SetOwner s true (who s) None); [done|by rewrite bool_decide_true|naive_solver|done| |done].
    intros d. rewrite I3. split; [by intros [? _]|]. intros [[= <-] Hd]. by rewrite fn_lookup_insert in Hd.
  - exists h. symmetry in Hc. apply bool_decide_eq_true in Hc as ->.
    apply (at_pc_inv c Crit s (word s) (Some c) (Some c)); [done|by rewrite bool_decide_true|done|done| |done].
    intros d. split; [intros [= <-]; by rewrite fn_lookup_insert|by intros [? _]].
  - exists h. apply move_inv; by rewrite ?E.
  - exists h. apply move_inv; by rewrite ?E.
  - exists h. assert (b = false) as ->; [|apply move_inv; by rewrite ?E].
    rewrite Ew in I2. destruct h; [done|]. by rewrite Hc.
  - exists h. apply move_inv; by rewrite ?E.
  - exists h. assert (b = false) as ->; [|apply move_inv; by rewrite ?E].
    destruct b; [|done]. destruct Ew. apply Hw. symmetry in Hc. by apply bool_decide_eq_true in Hc.
  - exists h. assert (b = true) as -> by (by apply Hw). apply move_inv; by rewrite ?E.
  - exists h. symmetry in Hc. apply bool_decide_eq_true in Hc as ->.
    apply (at_pc_inv c ClearWord s (word s) None (Some c)); [done|by rewrite bool_decide_true|done|done| |done].
    intros d. split; [done|]. intros [[= <-] Hd]. by rewrite fn_lookup_insert in Hd.
  - exists None. symmetry in Hc. apply bool_decide_eq_true in Hc as ->.
    apply (at_pc_inv c Out s false (who s) (Some c)); [done|done|naive_solver|done| |done].
    intros d. rewrite I3. split; [|by intros [? _]]. intros [[= <-] Hd]. by rewrite E in Hd.
Qed.
Lemma spin_reach_inv s : rtc any_step lock_init s → ∃ h, spin_inv h s.
Proof.
  intros Hr. assert (H0 : ∃ h, spin_inv h lock_init) by (exists None; split; [done|done|naive_solver|done]).
  revert H0. induction Hr as [s|s s1 s2 [c St] _ IH]; [done|]. intros [h I]. apply IH. by eapply spin_step_inv.
Qed.

(** C31: among any number of CPUs whose accesses interleave in any way, at most one
    is between [spin_get] and [spin_put] of a lock; [spin_get] stops the machine only
    for a CPU that holds the lock, and [spin_put] only for one that does not. *)
Theorem spin_mutual_exclusion s : rtc any_step lock_init s →
  (∀ c d, pcs s c = Crit → pcs s d = Crit → c = d) ∧
  (∀ c h, pcs s c = GetPanic h → h = true) ∧ (∀ c h, pcs s c = PutPanic h → h = false).
Proof.
  intros Hr. destruct (spin_reach_inv s Hr) as [h [I1 I2 I3 I4]]. split; [|split].
  - intros c d Ec Ed. pose proof (I1 c) as Hc. pose proof (I1 d) as Hd. rewrite Ec in Hc. rewrite Ed in Hd.
    symmetry in Hc, Hd. apply bool_decide_eq_true in Hc, Hd. congruence.
  - intros c b E. specialize (I4 c). by rewrite E in I4.
  - intros c b E. specialize (I4 c). by rewrite E in I4.
Qed.
(** A run: CPU 0 takes the lock, then CPU 1 waits for it. *)
Definition lock_run : lockst := at_pc 1 Tas (at_pc 1 (CheckCpu false) (at_pc 1 (Check false) (at_pc 0 Crit (store_who (Some 0%nat)
  (at_pc 0 SetOwner (store_word true (at_pc 0 Tas (at_pc 0 (Check false) lock_init)))))))).
Lemma lock_run_reach : rtc any_step lock_init lock_run.
Proof.
  eapply rtc_l; [exists 0%nat; by apply st_get|]. eapply rtc_l; [exists 0%nat; by eapply st_check_free|].
  eapply rtc_l; [exists 0%nat; by apply st_tas_won|]. eapply rtc_l; [exists 0%nat; by apply st_set_owner|].
  eapply rtc_l; [exists 1%nat; by apply st_get|]. eapply rtc_l; [exists 1%nat; by eapply st_check_locked|].
  eapply rtc_l; [exists 1%nat; by eapply st_check_other|]. apply rtc_refl.
Qed.
Lemma spin_mutual_exclusion_witness : pcs lock_run 0%nat = Crit ∧ ∀ d, pcs lock_run d = Crit → 0%nat = d.
Proof. split; [reflexivity|]. intros d Ed. exact (proj1 (spin_mutual_exclusion lock_run lock_run_reach) 0%nat d eq_refl Ed). Defined.

(** C32: the lock does not block: in every reachable state where a CPU waits for it,
    either the lock is free and the test-and-set of the waiting CPU takes it, or the
    CPU that has it has a step that does not depend on any other CPU, or it stopped
    the machine by taking the lock twice. *)
Theorem spin_progress s c : rtc any_step lock_init s → pcs s c = Tas →
  (word s = false ∧ spin_step c s (at_pc c SetOwner (store_word true s))) ∨
  (∃ d, d ≠ c ∧ word s = true ∧ ((∃ s', spin_step d s s' ∧ s' ≠ s) ∨ pcs s d = GetPanic true)).
Proof.
  intros Hr Hc. destruct (spin_reach_inv s Hr) as [h [I1 I2 I3 I4]]. destruct h as [d|].
  2: { left. split; [done|]. by apply st_tas_won. }
  right. exists d. pose proof (I1 d) as Hd. rewrite bool_decide_true in Hd by done.
  assert (Hne : d ≠ c) by (intros ->; by rewrite Hc in Hd). split; [done|]. split; [done|].
  assert (Hmove : ∀ p w o, p ≠ pcs s d → MkLock w o (<[d := p]> (pcs s)) ≠ s).
  { intros p w o Hp E. apply Hp. rewrite <- E. cbn. by rewrite fn_lookup_insert. }
  pose proof (I3 d) as Hw. destruct (pcs s d) eqn:E; cbn in Hd, Hw; try done; try subst.
  - left. eexists. split; [by eapply st_check_locked|]. by apply Hmove.
  - left. eexists. split; [eapply st_check_mine; [done|by apply Hw]|]. by apply Hmove.
  - left. eexists. split; [by eapply st_set_owner|]. by apply Hmove.
  - left. eexists. split; [by eapply st_put|]. by apply Hmove.
  - left. eexists. split; [by eapply st_put_locked|]. by apply Hmove.
  - left. eexists. split; [eapply st_put_mine; [done|by apply Hw]|]. by apply Hmove.
  - left. eexists. split; [by eapply st_clear_owner|]. by apply Hmove.
  - left. eexists. split; [by eapply st_clear_word|]. by apply Hmove.
  - by right.
  - specialize (I4 d). by rewrite E in I4.
Qed.
Lemma spin_progress_witness :
  (word lock_run = false ∧ spin_step 1 lock_run (at_pc 1 SetOwner (store_word true lock_run))) ∨
  (∃ d, d ≠ 1%nat ∧ word lock_run = true ∧
     ((∃ s', spin_step d lock_run s' ∧ s' ≠ lock_run) ∨ pcs lock_run d = GetPanic true)).
Proof. exact (spin_progress lock_run 1 lock_run_reach eq_refl). Defined.
