(* ===== verification/Machine.v ===== *)
(** The execution context of a kernel path: the CPU that runs it, the spinlocks
    and the scheduling state of the tasks (kernel/task/cpu.h,
    kernel/util/spinlock.c, kernel/util/sleeplock.c, and [sleep], [wakeup] of
    kernel/task/sche.c).

    One CPU runs one kernel path; a lock that another CPU holds makes the path
    [Spin], and giving up the CPU makes it [Switch].  The interleaving of several
    CPUs at the granularity of the atomic instructions is in SpinProtocol. *)
From S2P Require Import Prelude.

(** ** Names of the locks and of the wait channels (addresses in the C code) *)

Inductive slot_kind := VmaSlot | MmStructSlot | FsStructSlot | FileSlot.
Inductive lockid :=
| L_pr | L_tx | L_mem | L_tq | L_ti | L_bcache | L_icache | L_vdisk | L_console | L_pipecache
| L_inode (i : nat) | L_task (i : nat) | L_file (i : nat) | L_pipe (i : nat)
| L_slot (k : slot_kind) (i : nat).
Inductive chan :=
| ChBufLock (b : nat) | ChInodeLock (i : nat) | ChBuf (b : nat) | ChDiskFree | ChConsole
| ChUart | ChTimer | ChChilds (t : nat) | ChPipeRead (p : nat) | ChPipeWrite (p : nat).

#[export] Instance slot_kind_eq_dec : EqDecision slot_kind.
Proof. solve_decision. Defined.
#[export] Instance lockid_eq_dec : EqDecision lockid.
Proof. solve_decision. Defined.
#[export] Instance chan_eq_dec : EqDecision chan.
Proof. solve_decision. Defined.

Definition slot_kind_code (k : slot_kind) : nat :=
  match k with VmaSlot => 0 | MmStructSlot => 1 | FsStructSlot => 2 | FileSlot => 3 end.
Definition slot_kind_of (n : nat) : slot_kind :=
  match n with 0%nat => VmaSlot | 1%nat => MmStructSlot | 2%nat => FsStructSlot | _ => FileSlot end.
Definition lockid_code (l : lockid) : nat * nat :=
  match l with
  | L_pr => (0, 0) | L_tx => (1, 0) | L_mem => (2, 0) | L_tq => (3, 0) | L_ti => (4, 0)
  | L_bcache => (5, 0) | L_icache => (6, 0) | L_vdisk => (7, 0) | L_console => (8, 0)
  | L_pipecache => (9, 0) | L_inode i => (10, i) | L_task i => (11, i) | L_file i => (12, i)
  | L_pipe i => (13, i) | L_slot k i => (14 + slot_kind_code k, i)
  end%nat.
Definition lockid_of (c : nat * nat) : lockid :=
  match c with
  | (0, _) => L_pr | (1, _) => L_tx | (2, _) => L_mem | (3, _) => L_tq | (4, _) => L_ti
  | (5, _) => L_bcache | (6, _) => L_icache | (7, _) => L_vdisk | (8, _) => L_console
  | (9, _) => L_pipecache | (10, i) => L_inode i | (11, i) => L_task i | (12, i) => L_file i
  | (13, i) => L_pipe i | (n, i) => L_slot (slot_kind_of (n - 14)) i
  end%nat.
#[export] Instance lockid_countable : Countable lockid.
Proof. apply (inj_countable' lockid_code lockid_of). by intros [| | | | | | | | | | | | | |[]]. Defined.

(** ** Data *)

(** [enum task_state] of kernel/task/task.h. *)
Inductive task_state := FREE | INIT | READY | RUN | SLEEP | EXIT.
#[export] Instance task_state_eq_dec : EqDecision task_state.
Proof. solve_decision. Defined.

(** The part of [struct cpu] that lives across a kernel path, with the SIE bit of
    its [sstatus] register. *)
Record cpu := MkCpu {
  cpu_id : nat;
  sie : bool;
  raw_intr : bool;
  spinlevel : Z;
  cur_task : option nat;
}.
(** [struct spinlock]: [owner] is the field [cpu]. *)
Record spinlock := MkSpin { locked : bool; owner : option nat }.
Definition spin0 : spinlock := MkSpin false None.
#[export] Instance spinlock_eq_dec : EqDecision spinlock.
Proof. solve_decision. Defined.
(** The scheduling fields of [struct task]. *)
Record tsk := MkTsk { tstate : task_state; tchan : option chan }.

(** A lock that is not in [m_spin] has the value [spin0]. *)
Record mach := MkMach {
  m_cpu : cpu;
  m_spin : gmap lockid spinlock;
  m_tasks : list tsk;
}.

Definition set_cpu (f : cpu → cpu) (m : mach) : mach :=
  MkMach (f (m_cpu m)) (m_spin m) (m_tasks m).
Definition set_tasks (f : list tsk → list tsk) (m : mach) : mach :=
  MkMach (m_cpu m) (m_spin m) (f (m_tasks m)).
Definition spin_of (m : mach) (l : lockid) : spinlock := default spin0 (m_spin m !! l).
Definition set_spin (l : lockid) (v : spinlock) (m : mach) : mach :=
  MkMach (m_cpu m) (if decide (v = spin0) then delete l (m_spin m) else <[l := v]> (m_spin m))
    (m_tasks m).

(** ** kernel/task/cpu.h *)

Definition mytask (m : mach) : option nat := cur_task (m_cpu m).

Definition push_intr (c : cpu) : cpu :=
  let raw := if spinlevel c =? 0 then sie c else raw_intr c in
  MkCpu (cpu_id c) false raw (u8 (spinlevel c + 1)) (cur_task c).

Definition pop_intr (c : cpu) : cpu :=
  let lvl := u8 (spinlevel c - 1) in
  MkCpu (cpu_id c) (if (lvl =? 0) && raw_intr c then true else sie c) (raw_intr c) lvl (cur_task c).

(** ** kernel/util/spinlock.c *)

Definition spin_holding (l : lockid) (m : mach) : bool :=
  locked (spin_of m l) && bool_decide (owner (spin_of m l) = Some (cpu_id (m_cpu m))).

(** [__sync_lock_test_and_set(&lock->locked, true)]: the old value. *)
Definition lock_test_and_set (l : lockid) : M mach bool := λ m,
  Ok (locked (spin_of m l)) (set_spin l (MkSpin true (owner (spin_of m l))) m).

Definition spin_get (l : lockid) : M mach unit :=
  modify (set_cpu push_intr) ;;
  let! h := gets (spin_holding l) in
  if h then panic "spin_get" else
  let! old := lock_test_and_set l in
  if old then (λ m, Spin m) else
  modify (λ m, set_spin l (MkSpin (locked (spin_of m l)) (Some (cpu_id (m_cpu m)))) m).

Definition spin_put (l : lockid) : M mach unit :=
  let! h := gets (spin_holding l) in
  if negb h then panic "spin_put" else
  modify (λ m, set_spin l (MkSpin (locked (spin_of m l)) None) m) ;;
  modify (λ m, set_spin l (MkSpin false (owner (spin_of m l))) m) ;;
  modify (set_cpu pop_intr).

(** ** [sleep] and [wakeup] of kernel/task/sche.c *)

Definition task_at (i : nat) : M mach tsk := deref (λ m, m_tasks m !! i).
Definition set_task (i : nat) (t : tsk) : M mach unit := modify (set_tasks <[i := t]>).

(** [sleep] up to [context_switch]. *)
Definition sleep_enter (ch : chan) (lock : option lockid) : M mach unit :=
  let! t := deref mytask in
  spin_get (L_task t) ;;
  match lock with Some l => spin_put l | None => ret tt end ;;
  let! _ := task_at t in
  set_task t (MkTsk SLEEP (Some ch)).
Definition sleep {A} (ch : chan) (lock : option lockid) : M mach A :=
  sleep_enter ch lock ;; (λ m, Switch m).

(** [sleep] after the scheduler has switched back to the task. *)
Definition sleep_resume (lock : option lockid) : M mach unit :=
  let! t := deref mytask in
  let! ts := task_at t in
  set_task t (MkTsk (tstate ts) None) ;;
  spin_put (L_task t) ;;
  match lock with Some l => spin_get l | None => ret tt end.

(** The body of the loop of [wakeup] for task [i]. *)
Definition wakeup_one (ch : chan) (i : nat) : M mach unit :=
  let! me := gets mytask in
  if bool_decide (Some i = me) then ret tt else
  spin_get (L_task i) ;;
  let! ts := task_at i in
  when (bool_decide (tstate ts = SLEEP) && bool_decide (tchan ts = Some ch))
    (set_task i (MkTsk READY (tchan ts))) ;;
  spin_put (L_task i).

(** [for (int i = NPROC - n; i < NPROC; ++i)]. *)
Fixpoint wakeup_loop (ch : chan) (n : nat) : M mach unit :=
  match n with
  | O => ret tt
  | S n' => wakeup_one ch (NPROC - n) ;; wakeup_loop ch n'
  end.
Definition wakeup (ch : chan) : M mach unit := wakeup_loop ch NPROC.

(** ** kernel/util/sleeplock.c *)

Record sleeplock := MkSleep { s_locked : bool; s_task : option nat }.
Definition sleep0 : sleeplock := MkSleep false None.

Section sleeplock.
(** The lock lives inside an object of the component state [X]. *)
Context {X : Type} (get : X → option sleeplock) (put : sleeplock → X → X) (ch : chan).

Definition onm {A} (m : M mach A) : M (mach * X) A := zoom fst (λ m s, (m, s.2)) m.
Definition onx {A} (m : M X A) : M (mach * X) A := zoom snd (λ x s, (s.1, x)) m.

Definition sleep_holding : M (mach * X) bool :=
  let! sl := deref (λ s, get s.2) in
  gets (λ s, s_locked sl && bool_decide (s_task sl = mytask s.1)).

Definition sleep_get : M (mach * X) unit :=
  let! h := sleep_holding in
  if h then panic "sleep_get" else
  let! sl := deref (λ s, get s.2) in
  modify (λ s, (s.1, put (MkSleep true (s_task sl)) s.2)) ;;
  if s_locked sl then onm (sleep ch None) else
  modify (λ s, (s.1, put (MkSleep true (mytask s.1)) s.2)).

Definition sleep_put : M (mach * X) unit :=
  let! h := sleep_holding in
  if negb h then panic "sleep_put" else
  modify (λ s, (s.1, put sleep0 s.2)) ;;
  onm (wakeup ch).
End sleeplock.

(** ** The state after a critical section

    [raw_intr] is the only field a balanced [spin_get]/[spin_put] pair leaves
    changed, and only at the outermost level, where it is dead. *)

Definition touch (m : mach) : mach :=
  set_cpu (λ c, MkCpu (cpu_id c) (sie c) (if spinlevel c =? 0 then sie c else raw_intr c)
                  (spinlevel c) (cur_task c)) m.
(** Inside [n] critical sections interrupts are off; [spinlevel] is a [u8] and
    the kernel nests at most a handful of spinlocks. *)
Definition m_wf (m : mach) : Prop :=
  0 ≤ spinlevel (m_cpu m) < 250 ∧ (0 < spinlevel (m_cpu m) → sie (m_cpu m) = false).
Definition lock_free (m : mach) (l : lockid) : Prop := m_spin m !! l = None.
(** No spinlock is held. *)
Definition quiet (m : mach) : Prop := spinlevel (m_cpu m) = 0 ∧ m_spin m = ∅.

(** The state inside the critical section of [l]. *)
Definition acq (l : lockid) (m : mach) : mach :=
  MkMach (push_intr (m_cpu m)) (<[l := MkSpin true (Some (cpu_id (m_cpu m)))]> (m_spin m))
    (m_tasks m).
Definition rel (l : lockid) (m : mach) : mach :=
  MkMach (pop_intr (m_cpu m)) (delete l (m_spin m)) (m_tasks m).

Lemma set_spin_ne l v m : v ≠ spin0 →
  set_spin l v m = MkMach (m_cpu m) (<[l := v]> (m_spin m)) (m_tasks m).
Proof. intros. unfold set_spin. by rewrite decide_False. Qed.
Lemma set_spin_free l m :
  set_spin l spin0 m = MkMach (m_cpu m) (delete l (m_spin m)) (m_tasks m).
Proof. unfold set_spin. by rewrite decide_True. Qed.

Lemma spin_get_free l m : lock_free m l → spin_get l m = Ok tt (acq l m).
Proof.
  intros Hl. unfold spin_get, bind, modify, gets, spin_holding, lock_test_and_set.
  assert (spin_of (set_cpu push_intr m) l = spin0) as E by (unfold spin_of; cbn; by rewrite Hl).
  rewrite E. cbn [spin0 locked owner andb]. rewrite !E. cbn [spin0 locked owner]. rewrite (set_spin_ne l (MkSpin true None)) by done.
  unfold spin_of; cbn. rewrite lookup_insert_eq. cbn. rewrite set_spin_ne by done.
  unfold acq. cbn. by rewrite insert_insert_eq.
Qed.

(** Re-entering a critical section stops the machine. *)
Lemma spin_get_held l m :
  spin_of m l = MkSpin true (Some (cpu_id (m_cpu m))) →
  spin_get l m = Panic "spin_get" (set_cpu push_intr m).
Proof.
  unfold spin_get, bind, modify, gets, spin_holding. intros H.
  assert (spin_of (set_cpu push_intr m) l = spin_of m l) as -> by done.
  rewrite H. cbn. by rewrite bool_decide_eq_true_2.
Qed.

Lemma spin_put_held l m :
  m_spin m !! l = Some (MkSpin true (Some (cpu_id (m_cpu m)))) → spin_put l m = Ok tt (rel l m).
Proof.
  intros Hl. unfold spin_put, bind, modify, gets, spin_holding.
  assert (spin_of m l = MkSpin true (Some (cpu_id (m_cpu m)))) as E
    by (unfold spin_of; by rewrite Hl).
  rewrite E. cbn [locked owner andb]. rewrite bool_decide_eq_true_2 by done. cbn [negb].
  rewrite E. cbn [locked]. rewrite (set_spin_ne l (MkSpin true None)) by done.
  unfold spin_of; cbn. rewrite lookup_insert_eq. cbn. change (MkSpin false None) with spin0.
  rewrite set_spin_free. unfold set_cpu, rel; cbn. by rewrite delete_insert_eq.
Qed.

Lemma spin_put_not_held l m : spin_holding l m = false → spin_put l m = Panic "spin_put" m.
Proof. intros H. unfold spin_put, bind, gets. by rewrite H. Qed.

Lemma acq_held l m : m_spin (acq l m) !! l = Some (MkSpin true (Some (cpu_id (m_cpu (acq l m))))).
Proof. apply lookup_insert_eq. Qed.

Lemma u8_small z : 0 ≤ z < 256 → u8 z = z.
Proof. intros. unfold u8. apply Z.mod_small. done. Qed.

Lemma push_pop c : 0 ≤ spinlevel c < 250 → (0 < spinlevel c → sie c = false) →
  pop_intr (push_intr c) =
  MkCpu (cpu_id c) (sie c) (if spinlevel c =? 0 then sie c else raw_intr c) (spinlevel c) (cur_task c).
Proof.
  intros Hl Hs. unfold pop_intr, push_intr. cbn.
  rewrite (u8_small (spinlevel c + 1)) by lia.
  replace (spinlevel c + 1 - 1) with (spinlevel c) by lia. rewrite (u8_small (spinlevel c)) by lia.
  f_equal. destruct (Z.eqb_spec (spinlevel c) 0); cbn; [by destruct (sie c)|].
  rewrite Hs by lia. by destruct (raw_intr c).
Qed.

(** Leaving the critical section restores the interrupt state and the locks. *)
Lemma rel_acq l m : m_wf m → lock_free m l → rel l (acq l m) = touch m.
Proof.
  intros [Hl Hs] Hf. unfold rel, acq, touch, set_cpu. cbn.
  rewrite push_pop by done. f_equal. by rewrite delete_insert_id.
Qed.

Lemma rel_acq_tasks l f m : m_wf m → lock_free m l →
  rel l (set_tasks f (acq l m)) = set_tasks f (touch m).
Proof.
  intros Hwf Hf. pose proof (rel_acq _ _ Hwf Hf) as E.
  pose proof (f_equal m_cpu E) as E1. pose proof (f_equal m_spin E) as E2.
  unfold rel, set_tasks in *. cbn [m_cpu m_spin m_tasks] in *. by rewrite E1, E2.
Qed.

Lemma touch_touch m : touch (touch m) = touch m.
Proof. destruct m as [[? ? ? lvl ?] ? ?]. unfold touch, set_cpu. cbn. by destruct (lvl =? 0). Qed.
Lemma touch_wf m : m_wf m → m_wf (touch m).
Proof. done. Qed.
Lemma acq_wf l m : m_wf m → spinlevel (m_cpu m) < 240 → m_wf (acq l m).
Proof. intros [? ?] ?. unfold m_wf, acq, push_intr; cbn. rewrite u8_small by lia. split; [lia|done]. Qed.
Lemma lock_free_touch m l : lock_free (touch m) l ↔ lock_free m l.
Proof. done. Qed.
Lemma quiet_wf m : quiet m → m_wf m.
Proof. intros [H _]. unfold m_wf. rewrite H. lia. Qed.
Lemma quiet_free m l : quiet m → lock_free m l.
Proof. intros [_ H]. unfold lock_free. by rewrite H. Qed.
Lemma quiet_touch m : quiet m → quiet (touch m).
Proof. done. Qed.

Create HintDb mach.
#[export] Hint Resolve touch_wf quiet_wf quiet_free quiet_touch : mach.

(** ** [wakeup] *)

(** The effect of [wakeup(ch)] on one task. *)
Definition wake (ch : chan) (t : tsk) : tsk :=
  if bool_decide (tstate t = SLEEP) && bool_decide (tchan t = Some ch)
  then MkTsk READY (tchan t) else t.
Definition wake_at (ch : chan) (me : option nat) (i : nat) (t : tsk) : tsk :=
  if bool_decide (Some i = me) then t else wake ch t.

Lemma wakeup_one_spec ch i m t : m_wf m → lock_free m (L_task i) → m_tasks m !! i = Some t →
  wakeup_one ch i m =
    Ok tt (if bool_decide (Some i = mytask m) then m
           else set_tasks <[i := wake ch t]> (touch m)).
Proof.
  intros Hwf Hf Ht. unfold wakeup_one. mstep. case_bool_decide as Hme; [done|].
  run (spin_get_free _ _ Hf). unfold task_at. unfold bind at 1, deref. cbn [acq m_tasks].
  rewrite Ht. unfold when, wake, set_task.
  destruct (bool_decide (tstate t = SLEEP) && bool_decide (tchan t = Some ch)).
  - unfold bind, modify. rewrite spin_put_held by apply acq_held. by rewrite rel_acq_tasks.
  - unfold bind, ret. rewrite spin_put_held by apply acq_held. rewrite rel_acq by done.
    unfold set_tasks. rewrite list_insert_id by done. by destruct m as [[]].
Qed.

Lemma wakeup_loop_spec ch n m : m_wf m → (n ≤ NPROC)%nat → length (m_tasks m) = NPROC →
  (∀ i, Some i ≠ mytask m → lock_free m (L_task i)) →
  ∃ m', wakeup_loop ch n m = Ok tt m' ∧
    m_spin m' = m_spin m ∧ touch m' = touch (set_tasks (λ _, m_tasks m') m) ∧
    ∀ i, m_tasks m' !! i =
      (if decide (NPROC - n ≤ i)%nat then wake_at ch (mytask m) i else id) <$> m_tasks m !! i.
Proof.
  revert m. induction n as [|n IH]; intros m Hwf Hn Hlen Hf.
  - exists m. split; [done|]. split; [done|]. split; [by destruct m as [[]]|]. intros i.
    case_decide; [|by destruct (m_tasks m !! i)].
    rewrite lookup_ge_None_2 by lia. done.
  - cbn [wakeup_loop]. set (i0 := (NPROC - S n)%nat).
    destruct (lookup_lt_is_Some_2 (m_tasks m) i0) as [t Ht]; [unfold i0, NPROC in *; lia|].
    destruct (decide (Some i0 = mytask m)) as [Hme|Hme].
    + assert (wakeup_one ch i0 m = Ok tt m) as E.
      { unfold wakeup_one. mstep. by rewrite bool_decide_eq_true_2. }
      run E. destruct (IH m) as (m' & E' & Hs & Hc & Ht'); [done|lia|done|done|].
      exists m'. split; [done|]. split; [done|]. split; [done|]. intros i. rewrite Ht'.
      destruct (decide (i = i0)) as [->|Hi].
      * rewrite Ht. case_decide; [unfold i0 in *; lia|]. case_decide; [|unfold i0 in *; lia].
        cbn. unfold wake_at. by rewrite bool_decide_eq_true_2.
      * repeat case_decide; try done; unfold i0 in *; lia.
    + pose proof (wakeup_one_spec ch i0 m t Hwf (Hf _ Hme) Ht) as E.
      rewrite bool_decide_eq_false_2 in E by done. run E.
      set (m1 := set_tasks <[i0:=wake ch t]> (touch m)).
      destruct (IH m1) as (m' & E' & Hs & Hc & Ht'); [done|lia|cbn; by rewrite length_insert|done|].
      exists m'. split; [done|]. split; [done|]. split.
      { rewrite Hc. by destruct m as [[? ? ? lvl ?] ? ?]; unfold m1, touch, set_tasks, set_cpu; cbn; destruct (lvl =? 0). }
      intros i. rewrite Ht'. cbn. destruct (decide (i = i0)) as [->|Hi].
      * rewrite list_lookup_insert_eq by (apply lookup_lt_Some in Ht; done).
        case_decide; [unfold i0 in *; lia|]. case_decide; [|unfold i0 in *; lia].
        rewrite Ht. cbn. unfold wake_at. by rewrite bool_decide_eq_false_2.
      * rewrite list_lookup_insert_ne by done.
        repeat case_decide; try done; unfold i0 in *; lia.
Qed.

(** [wakeup(ch)] makes READY exactly the other tasks that sleep on [ch]. *)
Lemma wakeup_spec ch m : m_wf m → length (m_tasks m) = NPROC →
  (∀ i, Some i ≠ mytask m → lock_free m (L_task i)) →
  ∃ m', wakeup ch m = Ok tt m' ∧ m_spin m' = m_spin m ∧
    touch m' = touch (set_tasks (λ _, m_tasks m') m) ∧
    m_tasks m' = imap (wake_at ch (mytask m)) (m_tasks m).
Proof.
  intros Hwf Hlen Hf.
  destruct (wakeup_loop_spec ch NPROC m Hwf) as (m' & E & Hs & Hc & Ht); [lia|done|done|].
  exists m'. split; [done|]. split; [done|]. split; [done|].
  apply list_eq. intros i. rewrite Ht, list_lookup_imap.
  rewrite decide_True by lia. done.
Qed.

(** ** What every balanced kernel path keeps: the CPU, its interrupt state and
    the locks; only [raw_intr] and the states of tasks may change. *)
Definition mach_frame (m m' : mach) : Prop :=
  cpu_id (m_cpu m') = cpu_id (m_cpu m) ∧ sie (m_cpu m') = sie (m_cpu m) ∧
  spinlevel (m_cpu m') = spinlevel (m_cpu m) ∧ cur_task (m_cpu m') = cur_task (m_cpu m) ∧
  m_spin m' = m_spin m ∧ length (m_tasks m') = length (m_tasks m).

#[export] Instance mach_frame_preorder : PreOrder mach_frame.
Proof.
  split; [by intros m|]. intros m1 m2 m3 (?&?&?&?&?&?) (?&?&?&?&?&?).
  split_and!; congruence.
Qed.

Lemma touch_frame m : mach_frame m (touch m).
Proof. done. Qed.
Lemma wakeup_frame ch m : m_wf m → length (m_tasks m) = NPROC →
  (∀ i, Some i ≠ mytask m → lock_free m (L_task i)) →
  ∃ m', wakeup ch m = Ok tt m' ∧ mach_frame m m'.
Proof.
  intros Hwf Hlen Hf. destruct (wakeup_spec ch m Hwf Hlen Hf) as (m' & E & Hs & Hc & Ht).
  exists m'. split; [done|].
  assert (touch (set_tasks (λ _, m_tasks m') m) = set_tasks (λ _, m_tasks m') (touch m)) as E'
    by done.
  rewrite E' in Hc. pose proof (f_equal m_cpu Hc) as E1. unfold touch, set_cpu in E1; cbn in E1.
  destruct (m_cpu m) eqn:?, (m_cpu m') eqn:?; cbn in *. injection E1 as -> -> _ -> ->.
  split_and!; try (rewrite ?Heqc, ?Heqc0; done). by rewrite Ht, length_imap.
Qed.

(** A kernel path may sleep only when it holds no spinlock and runs in a task. *)
Definition can_sleep (m : mach) : Prop :=
  quiet m ∧ is_Some (mytask m) ∧ length (m_tasks m) = NPROC.

Lemma frame_quiet m m' : mach_frame m m' → quiet m → quiet m'.
Proof. intros (?&?&?&?&?&?) [? ?]. split; congruence. Qed.
Lemma frame_mytask m m' : mach_frame m m' → mytask m' = mytask m.
Proof. intros (?&?&?&?&?&?). done. Qed.
Lemma frame_can_sleep m m' : mach_frame m m' → can_sleep m → can_sleep m'.
Proof.
  intros Hf (Hq & Ht & Hl). split_and!; [by eapply frame_quiet|by rewrite (frame_mytask m)|].
  destruct Hf as (?&?&?&?&?&?). congruence.
Qed.
#[export] Hint Resolve touch_frame frame_can_sleep : mach.

(** ** Sleeplocks *)
Section sleeplock_specs.
Context {X : Type} (get : X → option sleeplock) (put : sleeplock → X → X) (ch : chan).

Lemma sleep_holding_eq m x sl : get x = Some sl →
  sleep_holding get (m, x) = Ok (s_locked sl && bool_decide (s_task sl = mytask m)) (m, x).
Proof. intros E. unfold sleep_holding, bind, deref, gets. cbn. by rewrite E. Qed.

Lemma sleep_get_free m x : get x = Some sleep0 →
  sleep_get get put ch (m, x) =
  Ok tt (m, put (MkSleep true (mytask m)) (put (MkSleep true None) x)).
Proof.
  intros E. unfold sleep_get. run (sleep_holding_eq m x _ E). cbn.
  unfold bind, deref, modify. cbn. by rewrite E.
Qed.

(** Taking a sleeplock twice stops the machine. *)
Lemma sleep_get_again m x : get x = Some (MkSleep true (mytask m)) →
  sleep_get get put ch (m, x) = Panic "sleep_get" (m, x).
Proof.
  intros E. unfold sleep_get. run (sleep_holding_eq m x _ E). cbn.
  by rewrite bool_decide_eq_true_2.
Qed.

Lemma sleep_put_held m x : get x = Some (MkSleep true (mytask m)) → can_sleep m →
  ∃ m', sleep_put get put ch (m, x) = Ok tt (m', put sleep0 x) ∧ wakeup ch m = Ok tt m' ∧
    mach_frame m m'.
Proof.
  intros E (Hq & _ & Hl).
  destruct (wakeup_frame ch m) as (m' & Ew & Hf); [auto with mach..|].
  exists m'. split; [|done]. unfold sleep_put. run (sleep_holding_eq m x _ E). cbn.
  rewrite bool_decide_eq_true_2 by done. cbn. unfold bind, modify, onm, zoom. cbn. by rewrite Ew.
Qed.

Lemma sleep_put_not_held m x sl : get x = Some sl →
  s_locked sl && bool_decide (s_task sl = mytask m) = false →
  sleep_put get put ch (m, x) = Panic "sleep_put" (m, x).
Proof. intros E H. unfold sleep_put. run (sleep_holding_eq m x _ E). by rewrite H. Qed.
End sleeplock_specs.

(** ** [wakeup] and [sleep] inside a critical section *)

Lemma acq_set_tasks lk f m : acq lk (set_tasks f m) = set_tasks f (acq lk m).
Proof. done. Qed.
Lemma touch_inside m : spinlevel (m_cpu m) ≠ 0 → touch m = m.
Proof.
  intros Hl. destruct m as [[? ? ? lvl ?] ? ?]. unfold touch, set_cpu. cbn in *.
  by rewrite (proj2 (Z.eqb_neq _ _) Hl).
Qed.
Lemma acq_level lk m : quiet m → spinlevel (m_cpu (acq lk m)) = 1.
Proof. intros [Hl _]. cbn. by rewrite Hl. Qed.

Lemma wakeup_inside ch lk m : quiet m → length (m_tasks m) = NPROC → (∀ i, lk ≠ L_task i) →
  wakeup ch (acq lk m) = Ok tt (acq lk (set_tasks (imap (wake_at ch (mytask m))) m)).
Proof.
  intros Hq Hl Hlk. pose proof (acq_level lk m Hq) as Hlv.
  destruct (wakeup_spec ch (acq lk m)) as (m' & E & Hs & Ht & Hts).
  - apply acq_wf; [auto with mach|]. destruct Hq as [-> _]. lia.
  - done.
  - intros i _. unfold lock_free. cbn. rewrite lookup_insert_ne by apply Hlk. by apply quiet_free.
  - rewrite E. f_equal. change (acq lk (set_tasks (imap (wake_at ch (mytask m))) m)) with
      (set_tasks (λ _, imap (wake_at ch (mytask (acq lk m))) (m_tasks (acq lk m))) (acq lk m)).
    rewrite <- Hts, <- (touch_inside (set_tasks _ (acq lk m))), <- Ht.
    2: { cbn in *. by rewrite Hlv. }
    symmetry. apply touch_inside.
    assert (spinlevel (m_cpu (touch m')) = 1) as El by (rewrite Ht; exact Hlv). cbn in El. by rewrite El.
Qed.
Lemma wakeup_critical ch lk m : can_sleep m → (∀ i, lk ≠ L_task i) →
  ∃ ts, wakeup ch (acq lk m) = Ok tt (acq lk (set_tasks (λ _, ts) m)) ∧
    ts = imap (wake_at ch (mytask m)) (m_tasks m) ∧ can_sleep (set_tasks (λ _, ts) m).
Proof.
  intros (Hq & Hm & Hl) Hlk. eexists. split; [by apply wakeup_inside|]. split; [done|].
  split_and!; [done|done|]. cbn. by rewrite length_imap.
Qed.

(** A task that sleeps on [ch] has released [lk]; it holds only its own lock. *)
Lemma sleep_enter_spec ch lk m t : can_sleep m → mytask m = Some t → (t < NPROC)%nat → lk ≠ L_task t →
  ∃ m', sleep_enter ch (Some lk) (acq lk m) = Ok tt m' ∧
    m_tasks m' = <[t := MkTsk SLEEP (Some ch)]> (m_tasks m) ∧
    m_spin m' = {[ L_task t := MkSpin true (Some (cpu_id (m_cpu m))) ]} ∧
    cur_task (m_cpu m') = Some t ∧ spinlevel (m_cpu m') = 1 ∧ cpu_id (m_cpu m') = cpu_id (m_cpu m).
Proof.
  intros (Hq & _ & Hl) Ht Htn Hlk. destruct Hq as [Hlv Hsp]. unfold sleep_enter.
  assert (Hmy : mytask (acq lk m) = Some t) by done. rewrite (bind_deref _ _ _ t Hmy).
  assert (Hf : lock_free (acq lk m) (L_task t)) by (unfold lock_free; cbn; rewrite lookup_insert_ne by done; by rewrite Hsp).
  run (spin_get_free _ _ Hf).
  assert (Hh : m_spin (acq (L_task t) (acq lk m)) !! lk = Some (MkSpin true (Some (cpu_id (m_cpu (acq (L_task t) (acq lk m))))))).
  { cbn. rewrite lookup_insert_ne by done. by rewrite lookup_insert_eq. }
  run (spin_put_held _ _ Hh). set (m1 := rel lk _).
  destruct (lookup_lt_is_Some_2 (m_tasks m) t) as [ts Ets]; [lia|].
  unfold task_at. rewrite (bind_deref _ _ _ ts) by done. unfold set_task, modify. eexists. split; [done|].
  cbn. split; [done|]. split.
  - rewrite Hsp. apply map_eq. intros k. destruct (decide (k = lk)) as [->|].
    + rewrite lookup_delete_eq. by rewrite lookup_singleton_ne.
    + rewrite lookup_delete_ne by done. destruct (decide (k = L_task t)) as [->|].
      * by rewrite lookup_insert_eq, lookup_singleton_eq.
      * by rewrite !lookup_insert_ne, lookup_singleton_ne by done.
  - split; [done|]. split; [by rewrite Hlv|done].
Qed.
