(* ===== verification/Sched.v ===== *)
(** The scheduler (kernel/task/sche.c: [task_schedule], [yield], the last part of
    [kill]) and the states of the tasks over time, on any number of CPUs.

    [context_switch] divides a function into the code before it and the code after
    it; each part is a definition.  The stores to [cur_kstack] and [cur_satp], which
    the trap entry reads, are in Elf ([dispatch]), where the memory of [struct cpu] is. *)
From S2P Require Import Prelude Machine.

Definition set_cur (t : option nat) (c : cpu) : cpu := MkCpu (cpu_id c) (sie c) (raw_intr c) (spinlevel c) t.
Definition set_sie (b : bool) (c : cpu) : cpu := MkCpu (cpu_id c) b (raw_intr c) (spinlevel c) (cur_task c).

(** The end of the loop body of [task_schedule], also after a task switched back. *)
Definition sched_leave (i : nat) : M mach unit :=
  modify (set_cpu (set_cur None)) ;;
  spin_put (L_task i).
(** The loop body of [task_schedule] for task [i]: true when it switches to it. *)
Definition sched_visit (i : nat) : M mach bool :=
  spin_get (L_task i) ;;
  let! t := task_at i in
  if bool_decide (tstate t = READY) then
    set_task i (MkTsk RUN (tchan t)) ;;
    modify (set_cpu (set_cur (Some i))) ;;
    ret true
  else
    sched_leave i ;;
    ret false.
(** The [for] loop with [n] tasks left: the task switched to. *)
Fixpoint sched_loop (n : nat) : M mach (option nat) :=
  match n with
  | O => ret None
  | S n' => let! sw := sched_visit (NPROC - n) in if (sw : bool) then ret (Some (NPROC - n)%nat) else sched_loop n'
  end.
(** [sti(); cli();] at the head of the outer loop. *)
Definition sched_idle (m : mach) : mach := set_cpu (set_sie false) m.

Definition yield_enter : M mach unit :=
  let! t := deref mytask in
  spin_get (L_task t) ;;
  let! ts := task_at t in
  set_task t (MkTsk READY (tchan ts)).
Definition yield_resume : M mach unit :=
  let! t := deref mytask in
  spin_put (L_task t).
(** [kill] and [sys_exit] behind [clean_source]: the store to [state], made without
    the lock, then [wakeup], then the lock; [ch] is [&t->parent->childs]. *)
Definition exit_mark : M mach unit :=
  let! t := deref mytask in
  let! ts := task_at t in
  set_task t (MkTsk EXIT (tchan ts)).
Definition exit_lock : M mach unit :=
  let! t := deref mytask in
  spin_get (L_task t).
Definition exit_enter (ch : chan) : M mach unit :=
  exit_mark ;;
  wakeup ch ;;
  exit_lock.

(** ** The system as a transition system *)

(** A CPU is in the scheduler loop, about to visit task [i], runs task [t], or is
    between the store of EXIT and the lock in the exit of task [t]. *)
Inductive place := InSched (i : nat) | InTask (t : nat) | InExit (t : nat).
(** One step of a CPU: one critical section of a task's lock, or one store made
    without it.  The label names the task that gets the CPU.  [wakeup] is a step for
    each task it visits; interrupt handlers call it at any place. *)
Inductive sys_step : option nat → place * mach → place * mach → Prop :=
| ss_visit i m m' : (i < NPROC)%nat → sched_visit i m = Ok false m' →
    sys_step None (InSched i, m) (InSched (S i), m')
| ss_wrap m : sys_step None (InSched NPROC, m) (InSched 0, sched_idle m)
| ss_dispatch i m m1 m2 : (i < NPROC)%nat → sched_visit i m = Ok true m1 → yield_resume m1 = Ok tt m2 →
    sys_step (Some i) (InSched i, m) (InTask i, m2)
| ss_dispatch_sleeper i m m1 m2 : (i < NPROC)%nat → sched_visit i m = Ok true m1 → sleep_resume None m1 = Ok tt m2 →
    sys_step (Some i) (InSched i, m) (InTask i, m2)
| ss_yield t m m1 m2 : yield_enter m = Ok tt m1 → sched_leave t m1 = Ok tt m2 →
    sys_step None (InTask t, m) (InSched (S t), m2)
| ss_sleep t ch m m1 m2 : sleep_enter ch None m = Ok tt m1 → sched_leave t m1 = Ok tt m2 →
    sys_step None (InTask t, m) (InSched (S t), m2)
| ss_sleep_lock t ch lk m m1 m2 : (∀ i, lk ≠ L_task i) → sleep_enter ch (Some lk) (acq lk m) = Ok tt m1 →
    sched_leave t m1 = Ok tt m2 → sys_step None (InTask t, m) (InSched (S t), m2)
| ss_exit_mark t m m' : exit_mark m = Ok tt m' → sys_step None (InTask t, m) (InExit t, m')
| ss_exit t m m1 m2 : exit_lock m = Ok tt m1 → sched_leave t m1 = Ok tt m2 →
    sys_step None (InExit t, m) (InSched (S t), m2)
| ss_wakeup p ch i m m' : (i < NPROC)%nat → wakeup_one ch i m = Ok tt m' → sys_step None (p, m) (p, m')
| ss_create t i c m : m_tasks m !! i = Some (MkTsk FREE c) →
    sys_step None (InTask t, m) (InTask t, set_tasks <[i := MkTsk INIT c]> m)
| ss_start t i c m : m_tasks m !! i = Some (MkTsk INIT c) →
    sys_step None (InTask t, m) (InTask t, set_tasks <[i := MkTsk READY c]> m)
| ss_reap t i c m : m_tasks m !! i = Some (MkTsk EXIT c) →
    sys_step None (InTask t, m) (InTask t, set_tasks <[i := MkTsk FREE c]> m).

(** All CPUs: where each one is, the locks and the task list, which they share. *)
Record smp := MkSmp { s_cpus : list (place * cpu); s_spin : gmap lockid spinlock; s_tasks : list tsk }.
(** The machine as CPU [c] sees it. *)
Definition view (s : smp) (c : cpu) : mach := MkMach c (s_spin s) (s_tasks s).
(** Any CPU makes the next step. *)
Inductive smp_step : option nat → smp → smp → Prop :=
| smp_cpu l k p c p' m' s : s_cpus s !! k = Some (p, c) → sys_step l (p, view s c) (p', m') →
    smp_step l s (MkSmp (<[k := (p', m_cpu m')]> (s_cpus s)) (m_spin m') (m_tasks m')).
(** Runs, with the tasks that got a CPU, in order. *)
Inductive smp_steps : list nat → smp → smp → Prop :=
| smp_nil s : smp_steps [] s s
| smp_cons l ds s1 s2 s3 : smp_step l s1 s2 → smp_steps ds s2 s3 → smp_steps (option_list l ++ ds) s1 s3.

(** What holds of a CPU between its steps. *)
Record cpu_ok (p : place) (c : cpu) : Prop := {
  co_level : spinlevel c = 0;
  co_cur : cur_task c = match p with InSched _ => None | InTask t | InExit t => Some t end;
  co_place : match p with InSched i => (i ≤ NPROC)%nat | InTask t | InExit t => (t < NPROC)%nat end;
}.
(** No lock is held, and the RUN state belongs to the tasks the CPUs run, each on one. *)
Record smp_inv (s : smp) : Prop := {
  sy_spin : s_spin s = ∅;
  sy_len : length (s_tasks s) = NPROC;
  sy_cpus k p c : s_cpus s !! k = Some (p, c) → cpu_ok p c;
  sy_run i ts : s_tasks s !! i = Some ts → tstate ts = RUN ↔ ∃ k c, s_cpus s !! k = Some (InTask i, c);
  sy_one i k k' c c' : s_cpus s !! k = Some (InTask i, c) → s_cpus s !! k' = Some (InTask i, c') → k = k';
}.

(** ** The parts of the functions, on a machine where no lock is held *)

Definition cur (t : option nat) (m : mach) : mach := set_cpu (set_cur t) m.
Definition put_task (i : nat) (ts : tsk) (m : mach) : mach := set_tasks <[i := ts]> m.

Lemma quiet_frame t i ts m : quiet m → quiet (cur t (put_task i ts (touch m))).
Proof. done. Qed.
Lemma rel_task i t f m : quiet m → rel (L_task i) (cur t (set_tasks f (acq (L_task i) m))) = cur t (set_tasks f (touch m)).
Proof.
  intros Hq. pose proof (rel_acq_tasks (L_task i) f m (quiet_wf _ Hq) (quiet_free _ _ Hq)) as E.
  rewrite <- E. done.
Qed.
Lemma put_held i t f m : spin_put (L_task i) (cur t (set_tasks f (acq (L_task i) m))) = Ok tt (rel (L_task i) (cur t (set_tasks f (acq (L_task i) m)))).
Proof. apply spin_put_held, lookup_insert_eq. Qed.
Lemma sched_leave_spec i t f m : quiet m →
  sched_leave i (cur t (set_tasks f (acq (L_task i) m))) = Ok tt (cur None (set_tasks f (touch m))).
Proof.
  intros Hq. unfold sched_leave. go. change (set_cpu (set_cur None) (cur t ?x)) with (cur None x).
  rewrite put_held. by rewrite rel_task.
Qed.
Lemma set_tasks_id m : set_tasks (λ l, l) m = m.
Proof. by destruct m. Qed.
Lemma cur_id m : cur (mytask m) m = m.
Proof. by destruct m as [[]]. Qed.
Lemma acq_cur l m : acq l m = cur (mytask m) (set_tasks (λ l, l) (acq l m)).
Proof. rewrite set_tasks_id. by destruct m as [[]]. Qed.

Lemma sched_visit_spec i m ts : quiet m → m_tasks m !! i = Some ts →
  sched_visit i m = if decide (tstate ts = READY)
    then Ok true (cur (Some i) (put_task i (MkTsk RUN (tchan ts)) (acq (L_task i) m)))
    else Ok false (cur None (touch m)).
Proof.
  intros Hq E. unfold sched_visit. run (spin_get_free (L_task i) m (quiet_free _ _ Hq)).
  unfold task_at; rewrite (bind_deref _ _ _ ts) by done. case_decide.
  - rewrite bool_decide_true by done. done.
  - rewrite bool_decide_false by done. rewrite (acq_cur (L_task i) m) at 1.
    run (sched_leave_spec i (mytask m) (λ l, l) m Hq). by rewrite set_tasks_id.
Qed.
(** A task that is switched to releases its lock and goes on. *)
Lemma yield_resume_spec i m ts : quiet m →
  yield_resume (cur (Some i) (put_task i ts (acq (L_task i) m))) = Ok tt (cur (Some i) (put_task i ts (touch m))).
Proof.
  intros Hq. unfold yield_resume. rewrite (bind_deref _ _ _ i) by done. unfold put_task. rewrite put_held. by rewrite rel_task.
Qed.
Lemma sleep_resume_spec i m ts : quiet m → (i < length (m_tasks m))%nat →
  sleep_resume None (cur (Some i) (put_task i ts (acq (L_task i) m))) =
    Ok tt (cur (Some i) (put_task i (MkTsk (tstate ts) None) (touch m))).
Proof.
  intros Hq Hi. unfold sleep_resume. rewrite (bind_deref _ _ _ i) by done.
  unfold task_at. rewrite (bind_deref _ _ _ ts) by (by apply list_lookup_insert_eq). unfold set_task. go.
  assert (∀ x, set_tasks <[i := x]> (cur (Some i) (put_task i ts (acq (L_task i) m))) =
    cur (Some i) (set_tasks <[i := x]> (acq (L_task i) m))) as ->.
  { intros x. unfold cur, put_task, set_tasks, set_cpu. cbn. by rewrite list_insert_insert_eq. }
  unfold bind at 1. rewrite put_held, rel_task by done. done.
Qed.
Lemma yield_enter_spec t m ts : quiet m → mytask m = Some t → m_tasks m !! t = Some ts →
  yield_enter m = Ok tt (cur (Some t) (put_task t (MkTsk READY (tchan ts)) (acq (L_task t) m))).
Proof.
  intros Hq Ht E. unfold yield_enter. rewrite (bind_deref _ _ _ t) by done.
  run (spin_get_free (L_task t) m (quiet_free _ _ Hq)). unfold task_at; rewrite (bind_deref _ _ _ ts) by done.
  unfold set_task, modify, put_task. f_equal. rewrite <- Ht. by destruct m as [[]].
Qed.
Lemma sleep_enter_none t ch m ts : quiet m → mytask m = Some t → m_tasks m !! t = Some ts →
  sleep_enter ch None m = Ok tt (cur (Some t) (put_task t (MkTsk SLEEP (Some ch)) (acq (L_task t) m))).
Proof.
  intros Hq Ht E. unfold sleep_enter. rewrite (bind_deref _ _ _ t) by done.
  run (spin_get_free (L_task t) m (quiet_free _ _ Hq)). go. unfold task_at; rewrite (bind_deref _ _ _ ts) by done.
  unfold set_task, modify, put_task. f_equal. rewrite <- Ht. by destruct m as [[]].
Qed.

(** The machine of a task that is about to switch to the scheduler: it holds its own
    lock and nothing else. *)
Definition leaving (t : nat) (ts : list tsk) (m : mach) : Prop :=
  m_spin m = {[ L_task t := MkSpin true (Some (cpu_id (m_cpu m))) ]} ∧ spinlevel (m_cpu m) = 1 ∧ m_tasks m = ts.
Lemma leave_leaving t ts m : leaving t ts m →
  ∃ m', sched_leave t m = Ok tt m' ∧ quiet m' ∧ mytask m' = None ∧ m_tasks m' = ts.
Proof.
  intros (Hs & Hl & Ht). unfold sched_leave. go.
  assert (E : spin_put (L_task t) (set_cpu (set_cur None) m) = Ok tt (rel (L_task t) (set_cpu (set_cur None) m))).
  { apply spin_put_held. cbn. by rewrite Hs, lookup_singleton_eq. }
  rewrite E. eexists. split; [done|]. split; [|split; [done|by cbn]]. split.
  - cbn. by rewrite Hl.
  - cbn. rewrite Hs. apply delete_singleton_eq.
Qed.
Lemma acq_leaving t m i ts : quiet m → mytask m = Some t → leaving i (<[i := ts]> (m_tasks m)) (cur (Some t) (put_task i ts (acq (L_task i) m))).
Proof.
  intros [Hl Hs] _. split_and!; [|cbn; by rewrite Hl|done]. cbn. by rewrite Hs, insert_empty.
Qed.

Lemma wake_at_run ch me j ts : tstate (wake_at ch me j ts) = RUN ↔ tstate ts = RUN.
Proof.
  unfold wake_at, wake. destruct (bool_decide (Some j = me)); [done|]. destruct (bool_decide_reflect (tstate ts = SLEEP)) as [E|]; [|done].
  cbn. destruct (bool_decide (tchan ts = Some ch)); cbn; [by rewrite E|done].
Qed.
Lemma wake_at_ready ch me j ts : tstate ts = READY → wake_at ch me j ts = ts.
Proof. intros E. unfold wake_at, wake. rewrite E. by destruct (bool_decide (Some j = me)). Qed.
Lemma wakeup_quiet ch m : quiet m → length (m_tasks m) = NPROC → ∃ m', wakeup ch m = Ok tt m' ∧ mach_frame m m' ∧
  m_tasks m' = imap (wake_at ch (mytask m)) (m_tasks m).
Proof.
  intros Hq Hl. destruct (wakeup_frame ch m (quiet_wf _ Hq) Hl) as (m' & E & Hf); [intros; by apply quiet_free|].
  destruct (wakeup_spec ch m (quiet_wf _ Hq) Hl) as (m2 & E2 & _ & _ & Ht); [intros; by apply quiet_free|].
  rewrite E in E2. injection E2 as <-. by exists m'.
Qed.
Lemma exit_enter_spec t ch m ts : quiet m → length (m_tasks m) = NPROC → mytask m = Some t → m_tasks m !! t = Some ts →
  ∃ m1, exit_enter ch m = Ok tt m1 ∧ leaving t (imap (wake_at ch (Some t)) (<[t := MkTsk EXIT (tchan ts)]> (m_tasks m))) m1.
Proof.
  intros Hq Hl Ht E. unfold exit_enter, exit_mark, exit_lock. go. rewrite (bind_deref _ _ _ t) by done. go.
  unfold task_at; rewrite (bind_deref _ _ _ ts) by done.
  unfold set_task. go. set (m0 := set_tasks _ m).
  destruct (wakeup_quiet ch m0) as (m' & E' & Hf & Hts); [done|cbn; by rewrite length_insert|]. run E'.
  pose proof (frame_quiet _ _ Hf Hq) as Hq'. rewrite (bind_deref _ _ _ t) by (by rewrite (frame_mytask _ _ Hf)). rewrite spin_get_free by (by apply quiet_free). eexists. split; [done|].
  destruct Hq' as [L S]. split_and!; [cbn; by rewrite S, insert_empty|cbn; by rewrite L|].
  change (mytask m0) with (mytask m) in Hts. by rewrite Ht in Hts.
Qed.

(** ** The invariant *)

(** A CPU at place [p] that sees the machine [m], between its steps. *)
Record local_ok (p : place) (m : mach) : Prop := {
  lo_quiet : quiet m;
  lo_len : length (m_tasks m) = NPROC;
  lo_cpu : cpu_ok p (m_cpu m);
}.
(** What a step does to the place and the tasks: the cases of the theorems below. *)
Inductive effect : option nat → place * list tsk → place * list tsk → Prop :=
| ef_visit i l ts : l !! i = Some ts → tstate ts ≠ READY → (i < NPROC)%nat → effect None (InSched i, l) (InSched (S i), l)
| ef_wrap l : effect None (InSched NPROC, l) (InSched 0, l)
| ef_dispatch i l ts ch : l !! i = Some ts → tstate ts = READY → (i < NPROC)%nat →
    effect (Some i) (InSched i, l) (InTask i, <[i := MkTsk RUN ch]> l)
| ef_leave t l ts : tstate ts ≠ RUN → effect None (InTask t, l) (InSched (S t), <[t := ts]> l)
| ef_exit t l ts : tstate ts ≠ RUN → effect None (InTask t, l) (InExit t, <[t := ts]> l)
| ef_exited t l : effect None (InExit t, l) (InSched (S t), l)
| ef_put p l i ts ts' : l !! i = Some ts → tstate ts ≠ RUN → tstate ts ≠ READY → tstate ts' ≠ RUN →
    effect None (p, l) (p, <[i := ts']> l)
| ef_same p l : effect None (p, l) (p, l).

Lemma task_exists p m i : local_ok p m → (i < NPROC)%nat → ∃ ts, m_tasks m !! i = Some ts.
Proof. intros I Hi. apply lookup_lt_is_Some. by rewrite (lo_len _ _ I). Qed.
Lemma visit_true i m m1 : local_ok (InSched i) m → (i < NPROC)%nat → sched_visit i m = Ok true m1 →
  ∃ ts, m_tasks m !! i = Some ts ∧ tstate ts = READY ∧ m1 = cur (Some i) (put_task i (MkTsk RUN (tchan ts)) (acq (L_task i) m)).
Proof.
  intros I Hi E. destruct (task_exists _ _ i I Hi) as [ts Ets].
  rewrite (sched_visit_spec i m ts (lo_quiet _ _ I) Ets) in E. case_decide; [|done]. injection E as <-. by exists ts.
Qed.
Lemma dispatched i m ts ch : local_ok (InSched i) m → (i < NPROC)%nat → m_tasks m !! i = Some ts → tstate ts = READY →
  effect (Some i) (InSched i, m_tasks m) (InTask i, m_tasks (cur (Some i) (put_task i (MkTsk RUN ch) (touch m)))) ∧
  local_ok (InTask i) (cur (Some i) (put_task i (MkTsk RUN ch) (touch m))).
Proof.
  intros I Hi E Hr. split; [by apply (ef_dispatch i _ ts)|]. destruct I as [I1 I2 [I3 I4 I5]].
  split; [done|cbn; by rewrite length_insert|by split].
Qed.
Lemma left_ok t m1 m2 l : leaving t l m1 → length l = NPROC → (t < NPROC)%nat → sched_leave t m1 = Ok tt m2 →
  m_tasks m2 = l ∧ local_ok (InSched (S t)) m2.
Proof.
  intros Hl Hlen Hlt E. destruct (leave_leaving _ _ _ Hl) as (m2' & E2 & Hq & Hc & Ht). rewrite E in E2. injection E2 as <-.
  split; [done|]. split; [done|by rewrite Ht|]. split; [apply Hq|done|]. exact Hlt.
Qed.
Lemma left_effect t m m1 m2 ts : local_ok (InTask t) m → leaving t (<[t := ts]> (m_tasks m)) m1 → tstate ts ≠ RUN →
  sched_leave t m1 = Ok tt m2 → effect None (InTask t, m_tasks m) (InSched (S t), m_tasks m2) ∧ local_ok (InSched (S t)) m2.
Proof.
  intros I Hl Hts E. destruct (left_ok t m1 m2 _ Hl) as [-> ?]; [by rewrite length_insert, (lo_len _ _ I)|apply (lo_cpu _ _ I)|done|].
  split; [by apply ef_leave|done].
Qed.
Lemma put_effect p m i ts ts' : local_ok p m → m_tasks m !! i = Some ts → tstate ts ≠ RUN → tstate ts ≠ READY → tstate ts' ≠ RUN →
  effect None (p, m_tasks m) (p, m_tasks (set_tasks <[i := ts']> m)) ∧ local_ok p (set_tasks <[i := ts']> m).
Proof.
  intros [I1 I2 I3] E H1 H2 H3. split; [by apply (ef_put p _ i ts)|]. split; [done|cbn; by rewrite length_insert|done].
Qed.
Lemma wakeup_effect p m ch i m' : local_ok p m → (i < NPROC)%nat → wakeup_one ch i m = Ok tt m' →
  effect None (p, m_tasks m) (p, m_tasks m') ∧ local_ok p m'.
Proof.
  intros I Hi E. destruct (task_exists _ _ i I Hi) as [ts Ets]. pose proof (lo_quiet _ _ I) as Hq.
  rewrite (wakeup_one_spec ch i m ts (quiet_wf _ Hq) (quiet_free _ _ Hq) Ets) in E. injection E as <-.
  case_bool_decide; [by split; [apply ef_same|]|].
  assert (It : local_ok p (touch m)) by (destruct I as [I1 I2 [I3 I4 I5]]; by split).
  unfold wake. destruct (bool_decide_reflect (tstate ts = SLEEP)) as [Es|]; cbn [andb].
  - destruct (bool_decide (tchan ts = Some ch)).
    + apply (put_effect p (touch m) i ts); by rewrite ?Es.
    + apply (put_effect p (touch m) i ts); by rewrite ?Es.
  - assert (set_tasks <[i := ts]> (touch m) = touch m) as ->.
    { unfold set_tasks. rewrite (list_insert_id (m_tasks (touch m)) i ts) by done. by destruct m. }
    split; [apply ef_same|done].
Qed.
Lemma step_effect l p m p' m' : local_ok p m → sys_step l (p, m) (p', m') →
  effect l (p, m_tasks m) (p', m_tasks m') ∧ local_ok p' m'.
Proof.
  intros I H. inversion H as [i ? ? Hi E|?|i ? m1 ? Hi E E2|i ? m1 ? Hi E E2|t ? m1 ? E E2|t ch ? m1 ? E E2
    |t ch lk ? m1 ? Hlk E E2|t ? ? E|t ? m1 ? E E2|? ch i ? ? Hi E|t i c ? E|t i c ? E|t i c ? E]; subst;
    pose proof (lo_quiet _ _ I) as Hq; pose proof (lo_len _ _ I) as Hl; destruct (lo_cpu _ _ I) as [Hv Hc Hp].
  - destruct (task_exists _ _ i I Hi) as [ts Ets]. rewrite (sched_visit_spec i m ts Hq Ets) in E. case_decide; [done|].
    injection E as <-. split; [by apply (ef_visit i _ ts)|]. split; [done|done|by split].
  - split; [apply ef_wrap|]. split; [done|done|]. split; [done|done|cbn; lia].
  - destruct (visit_true _ _ _ I Hi E) as (ts & Ets & Hr & ->). rewrite yield_resume_spec in E2 by done. injection E2 as <-.
    by apply (dispatched i m ts).
  - destruct (visit_true _ _ _ I Hi E) as (ts & Ets & Hr & ->). rewrite sleep_resume_spec in E2 by (done || lia).
    injection E2 as <-. by apply (dispatched i m ts).
  - destruct (task_exists _ _ t I Hp) as [ts Ets]. rewrite (yield_enter_spec t m ts Hq Hc Ets) in E. injection E as <-.
    eapply left_effect, E2; [done|by apply acq_leaving|done].
  - destruct (task_exists _ _ t I Hp) as [ts Ets]. rewrite (sleep_enter_none t ch m ts Hq Hc Ets) in E. injection E as <-.
    eapply left_effect, E2; [done|by apply acq_leaving|done].
  - destruct (sleep_enter_spec ch lk m t) as (m1' & E1 & Ht & Hs & _ & Hlv & Hid);
      [split_and!; [done|unfold mytask; by rewrite Hc|done]|done|done|apply Hlk|].
    rewrite E in E1. injection E1 as <-. apply (left_effect t m m1 m' (MkTsk SLEEP (Some ch))); [done| |done..].
    split_and!; [by rewrite Hid|done|done].
  - destruct (task_exists _ _ t I Hp) as [ts Ets]. unfold exit_mark, task_at in E. rewrite (bind_deref _ _ _ t), (bind_deref _ _ _ ts) in E by done.
    injection E as <-. split; [by apply ef_exit|]. split; [done|cbn; by rewrite length_insert|by split].
  - unfold exit_lock in E. rewrite (bind_deref _ _ _ t), (spin_get_free _ _ (quiet_free _ _ Hq)) in E by done. injection E as <-.
    destruct (left_ok t (acq (L_task t) m) m' (m_tasks m)) as [Ht ?]; [|done..|rewrite Ht; by split; [apply ef_exited|]].
    destruct Hq as [L S]. split_and!; [cbn; by rewrite S, insert_empty|cbn; by rewrite L|done].
  - by eapply wakeup_effect.
  - by apply (put_effect _ m i (MkTsk FREE c)).
  - by apply (put_effect _ m i (MkTsk INIT c)).
  - by apply (put_effect _ m i (MkTsk EXIT c)).
Qed.

(** A step of the system as the effect of a step of one CPU. *)
Lemma local_of s k p c : smp_inv s → s_cpus s !! k = Some (p, c) → local_ok p (view s c).
Proof. intros I E. pose proof (sy_cpus _ I k p c E) as Hc. split; [split; [apply Hc|apply I]|apply I|done]. Qed.
Lemma smp_effect l s s' : smp_inv s → smp_step l s s' → ∃ k p c p' c', s_cpus s !! k = Some (p, c) ∧ cpu_ok p' c' ∧
  effect l (p, s_tasks s) (p', s_tasks s') ∧ s_cpus s' = <[k := (p', c')]> (s_cpus s) ∧ s_spin s' = ∅ ∧ length (s_tasks s') = NPROC.
Proof.
  intros I H. destruct H as [l' k p c p' m' s0 E H]. destruct (step_effect _ _ _ _ _ (local_of s0 k p c I E) H) as [He [[_ Hs] Hl Hc]].
  by exists k, p, c, p', (m_cpu m').
Qed.

(** The places alone: which CPU runs which task. *)
Definition runs (s : smp) (k i : nat) : Prop := ∃ c, s_cpus s !! k = Some (InTask i, c).
Lemma runs_insert s s' k p c p' c' j i : s_cpus s !! k = Some (p, c) → s_cpus s' = <[k := (p', c')]> (s_cpus s) →
  runs s' j i ↔ if decide (j = k) then p' = InTask i else runs s j i.
Proof.
  intros E Es. unfold runs. rewrite Es. case_decide as Hj.
  - subst j. rewrite list_lookup_insert_eq by (by eapply lookup_lt_Some). split; [by intros [? [= -> _]]|intros ->; by eexists].
  - by rewrite list_lookup_insert_ne.
Qed.
(** A step changes which task CPU [k] runs and the state of tasks in the same way. *)
Definition run_ok (s : smp) : Prop :=
  (∀ i ts, s_tasks s !! i = Some ts → tstate ts = RUN ↔ ∃ k, runs s k i) ∧ ∀ i k k', runs s k i → runs s k' i → k = k'.
Lemma inv_run_ok s : smp_inv s → run_ok s.
Proof.
  intros I. split; [intros i ts E; apply (sy_run _ I i ts E)|]. intros i k k' [c E] [c' E']. by apply (sy_one _ I i k k' c c').
Qed.
(** The place of CPU [k] changes between places that run no task, no task's running changes. *)
Lemma run_same s s' k p c p' c' : run_ok s → s_cpus s !! k = Some (p, c) → s_cpus s' = <[k := (p', c')]> (s_cpus s) →
  (∀ i, p' = InTask i ↔ p = InTask i) →
  (∀ i ts', s_tasks s' !! i = Some ts' → ∃ ts, s_tasks s !! i = Some ts ∧ (tstate ts' = RUN ↔ tstate ts = RUN)) → run_ok s'.
Proof.
  intros [R1 R2] E Es Hp Ht. assert (H : ∀ j i, runs s' j i ↔ runs s j i).
  { intros j i. rewrite (runs_insert s s' k p c p' c' j i E Es). case_decide as Hj; [|done]. subst j. rewrite Hp. unfold runs. rewrite E.
    split; [intros ->; by eexists|by intros [? [= -> _]]]. }
  split; [|intros i j j'; rewrite !H; apply R2].
  intros i ts' Ei. destruct (Ht i ts' Ei) as (ts & Ei' & ->). rewrite (R1 i ts Ei'). by setoid_rewrite H.
Qed.
Lemma run_place s s' k p c p' c' : run_ok s → s_cpus s !! k = Some (p, c) → s_cpus s' = <[k := (p', c')]> (s_cpus s) →
  (∀ i, p' = InTask i ↔ p = InTask i) → s_tasks s = s_tasks s' → run_ok s'.
Proof. intros R E Es Hp Ht. eapply run_same; [done..|]. intros i ts Ei. exists ts. split; [by rewrite Ht|done]. Qed.
(** CPU [k] stops to run task [t], which leaves the state RUN. *)
Lemma run_stop s s' k t c p' c' ts : run_ok s → s_cpus s !! k = Some (InTask t, c) → s_cpus s' = <[k := (p', c')]> (s_cpus s) →
  (∀ i, p' ≠ InTask i) → s_tasks s' = <[t := ts]> (s_tasks s) → tstate ts ≠ RUN → run_ok s'.
Proof.
  intros [R1 R2] E Es Hp Ht Hts. assert (Hk : runs s k t) by (by exists c).
  assert (H : ∀ j i, runs s' j i ↔ j ≠ k ∧ runs s j i).
  { intros j i. rewrite (runs_insert s s' k _ c p' c' j i E Es). case_decide as Hj; [|tauto]. specialize (Hp i). tauto. }
  split; [|intros i j j'; rewrite !H; intros [_ A] [_ B]; by apply (R2 i)].
  intros i ts' Ei. rewrite Ht in Ei. setoid_rewrite H. destruct (decide (i = t)) as [->|Hne].
  - assert (Hlt : (t < length (s_tasks s))%nat) by (apply lookup_lt_Some in Ei; by rewrite length_insert in Ei).
    rewrite list_lookup_insert_eq in Ei by done. injection Ei as <-. split; [done|]. intros (j & Hj & Hr). by destruct Hj, (R2 t j k).
  - rewrite list_lookup_insert_ne in Ei by done. rewrite (R1 i ts' Ei). split; [|naive_solver].
    intros [j Hj]. exists j. split; [|done]. intros ->. apply Hne. destruct Hj as [? Hj], Hk as [? Hk]. rewrite Hk in Hj. by injection Hj.
Qed.
(** CPU [k] starts to run task [t], which enters the state RUN. *)
Lemma run_start s s' k t c p c' ts ts' : run_ok s → s_cpus s !! k = Some (p, c) → s_cpus s' = <[k := (InTask t, c')]> (s_cpus s) →
  (∀ i, p ≠ InTask i) → s_tasks s !! t = Some ts → tstate ts ≠ RUN → s_tasks s' = <[t := ts']> (s_tasks s) → tstate ts' = RUN → run_ok s'.
Proof.
  intros [R1 R2] E Es Hp Et Hts Ht Hts'.
  assert (H : ∀ j i, runs s' j i ↔ if decide (j = k) then i = t else runs s j i).
  { intros j i. rewrite (runs_insert s s' k p c _ c' j i E Es). case_decide; [|done]. split; [by intros [= ->]|by intros ->]. }
  assert (Hno : ∀ j, ¬ runs s j t) by (intros j Hj; apply Hts, (R1 t ts Et); by exists j).
  split.
  - intros i tsi Ei. rewrite Ht in Ei. setoid_rewrite H. destruct (decide (i = t)) as [->|Hne].
    + rewrite list_lookup_insert_eq in Ei by (by eapply lookup_lt_Some). injection Ei as <-. split; [|done]. intros _. exists k. by rewrite decide_True.
    + rewrite list_lookup_insert_ne in Ei by done. rewrite (R1 i tsi Ei). split.
      * intros [j Hj]. exists j. rewrite decide_False; [done|]. intros ->. destruct Hj as [? Hj]. rewrite E in Hj. injection Hj as ? _. by destruct (Hp i).
      * intros [j Hj]. case_decide; [done|]. by exists j.
  - intros i j j'. rewrite !H. case_decide as H1; case_decide as H2; [congruence|intros ->; by intros ?%Hno|intros A ->; by apply Hno in A|apply R2].
Qed.
Lemma smp_step_inv l s s' : smp_inv s → smp_step l s s' → smp_inv s'.
Proof.
  intros I H. destruct (smp_effect _ _ _ I H) as (k & p & c & p' & c' & E & Hc & He & Es & Hsp & Hlen). clear H.
  assert (R' : run_ok s').
  { pose proof (inv_run_ok s I) as R. inversion He as [i ? ts Hi Hr Hlt|?|i ? ts ch Hi Hr Hlt|t ? ts Hn|t ? ts Hn|t ?|? ? i ts ts' Hi Hn Hn2 Hn'|? ?]; subst.
    - by eapply run_place.
    - by eapply run_place.
    - eapply (run_start s s' k i); [done..|by rewrite Hr|done|done].
    - by eapply (run_stop s s' k t).
    - by eapply (run_stop s s' k t).
    - by eapply run_place.
    - eapply run_same; [done..|]. intros j tsj Ej. destruct (decide (j = i)) as [->|Hne].
      + match goal with HT : _ = s_tasks s' |- _ => rewrite <- HT in Ej end.
        rewrite list_lookup_insert_eq in Ej by (by eapply lookup_lt_Some). injection Ej as <-. exists ts. tauto.
      + match goal with HT : _ = s_tasks s' |- _ => rewrite <- HT in Ej end. rewrite list_lookup_insert_ne in Ej by done. by exists tsj.
    - by eapply run_place. }
  destruct R' as [R1 R2]. split; [done|done| |done|].
  - intros j q d Ej. rewrite Es in Ej. destruct (decide (j = k)) as [->|Hne].
    + rewrite list_lookup_insert_eq in Ej by (by eapply lookup_lt_Some). by injection Ej as <- <-.
    + rewrite list_lookup_insert_ne in Ej by done. by apply (sy_cpus _ I j).
  - intros i j j' d d' Ej Ej'. by apply (R2 i); [exists d|exists d'].
Qed.

(** ** Waiting for a CPU *)

(** How many tasks the scheduler visits on a CPU before task [i]. *)
Definition dist (p : place) (i : nat) : nat :=
  let j := match p with InSched j => j | InTask t | InExit t => S t end in
  if decide (j ≤ i)%nat then (i - j)%nat else (NPROC - j + i)%nat.
(** The same for all CPUs together. *)
Definition total (cs : list (place * cpu)) (i : nat) : nat := sum_list ((λ x, dist x.1 i) <$> cs).
Definition ready (s : smp) (i : nat) : Prop := ∃ ts, s_tasks s !! i = Some ts ∧ tstate ts = READY.
Lemma total_cons p c cs i : total ((p, c) :: cs) i = (dist p i + total cs i)%nat.
Proof. done. Qed.
Lemma dist_next j i : (j < NPROC)%nat → (i < NPROC)%nat → i ≠ j → S (dist (InSched (S j)) i) = dist (InSched j) i.
Proof. intros. unfold dist. repeat case_decide; lia. Qed.
Lemma dist_wrap i : (i < NPROC)%nat → dist (InSched 0) i = dist (InSched NPROC) i.
Proof. intros. unfold dist. repeat case_decide; lia. Qed.
Lemma dist_bound p c i : cpu_ok p c → (i < NPROC)%nat → (dist p i ≤ NPROC - 1)%nat.
Proof. intros [_ _ Hp] Hi. destruct p as [j|t|t]; cbn in *; unfold dist; case_decide; lia. Qed.
Lemma total_bound s i : smp_inv s → (i < NPROC)%nat → (total (s_cpus s) i ≤ length (s_cpus s) * (NPROC - 1))%nat.
Proof.
  intros I Hi. assert (H : ∀ k p c, s_cpus s !! k = Some (p, c) → cpu_ok p c) by apply I. revert H.
  generalize (s_cpus s). clear I. intros cs. induction cs as [|[p c] cs IH]; intros H; [done|].
  pose proof (dist_bound p c i (H 0%nat p c eq_refl) Hi) as Hb. specialize (IH (λ k, H (S k))). clear H.
  remember (NPROC - 1)%nat as n. rewrite total_cons. cbn [length]. lia.
Qed.
Lemma total_insert cs k p c p' c' i : cs !! k = Some (p, c) →
  (total (<[k := (p', c')]> cs) i + dist p i = total cs i + dist p' i)%nat.
Proof.
  revert k. induction cs as [|[q d] cs IH]; intros [|k] E; cbn in E; [done..| |].
  - injection E as -> ->. change (<[0%nat := (p', c')]> ((p, c) :: cs)) with ((p', c') :: cs). rewrite !total_cons. lia.
  - specialize (IH k E). change (<[S k := (p', c')]> ((q, d) :: cs)) with ((q, d) :: <[k := (p', c')]> cs). rewrite !total_cons. lia.
Qed.
Lemma insert_ready (l : list tsk) i j ts x : (∃ y, l !! i = Some y ∧ tstate y = READY) → l !! j = Some ts → tstate ts ≠ READY →
  ∃ y, <[j := x]> l !! i = Some y ∧ tstate y = READY.
Proof.
  intros (y & E & Hy) Ej Hn. exists y. split; [|done]. rewrite list_lookup_insert_ne; [done|]. intros ->. congruence.
Qed.
Lemma effect_wait l p ts p' ts' i : effect l (p, ts) (p', ts') → (i < NPROC)%nat → l ≠ Some i →
  (∀ t x, p = InTask t → ts !! t = Some x → tstate x = RUN) → (∃ y, ts !! i = Some y ∧ tstate y = READY) →
  (∃ y, ts' !! i = Some y ∧ tstate y = READY) ∧ (length (option_list l) + dist p' i ≤ dist p i)%nat.
Proof.
  intros H Hi Hl Hrun Hr. inversion H as [j ? x Ej Hn Hj|?|j ? x ch Ej Hx Hj|t ? x Hn|t ? x Hn|t ?|? ? j x x' Ej Hn Hn2 Hn'|? ?]; subst;
    try change (length (option_list (@None nat))) with 0%nat; try change (length (option_list (Some j))) with 1%nat.
  - split; [done|]. assert (i ≠ j) by (intros ->; destruct Hr as (y & Ey & Hy); congruence).
    rewrite <- (dist_next j i) by done. lia.
  - split; [done|]. by rewrite (dist_wrap i).
  - assert (i ≠ j) by congruence. split.
    + destruct Hr as (y & Ey & Hy). exists y. by rewrite list_lookup_insert_ne.
    + rewrite <- (dist_next j i) by done. unfold dist. lia.
  - split; [|done]. destruct Hr as (y & Ey & Hy). exists y. rewrite list_lookup_insert_ne; [done|]. intros ->. by rewrite (Hrun i y) in Hy.
  - split; [|done]. destruct Hr as (y & Ey & Hy). exists y. rewrite list_lookup_insert_ne; [done|]. intros ->. by rewrite (Hrun i y) in Hy.
  - by split.
  - split; [|done]. by apply (insert_ready _ i j x).
  - by split.
Qed.
Lemma smp_wait l s s' i : smp_inv s → smp_step l s s' → ready s i → (i < NPROC)%nat → l ≠ Some i →
  ready s' i ∧ (length (option_list l) + total (s_cpus s') i ≤ total (s_cpus s) i)%nat ∧ length (s_cpus s') = length (s_cpus s).
Proof.
  intros I H Hr Hi Hl. destruct (smp_effect _ _ _ I H) as (k & p & c & p' & c' & E & Hc & He & Es & Hsp & Hlen).
  destruct (effect_wait _ _ _ _ _ i He Hi Hl) as [Hr' Hd]; [|done|].
  { intros t x -> Ex. apply (sy_run _ I t x Ex). by exists k, c. }
  split; [done|]. rewrite Es, length_insert. split; [|done]. pose proof (total_insert (s_cpus s) k p c p' c' i E) as Ht. lia.
Qed.


(** C29: no task starves: on [n] CPUs, from any state of the system, a READY task that has
    not got a CPU yet is still READY, and at most n * (NPROC - 1) other dispatches happened
    since: the round-robin scan of each CPU reaches it before it returns to any task. *)
Theorem sched_bounded_wait ds s s' i : smp_inv s → ready s i → smp_steps ds s s' → i ∉ ds →
  ready s' i ∧ (length ds ≤ length (s_cpus s) * (NPROC - 1))%nat.
Proof.
  intros I Hr H Hd. assert (Hi : (i < NPROC)%nat).
  { destruct Hr as (ts & E & _). apply lookup_lt_Some in E. by rewrite (sy_len _ I) in E. }
  pose proof (total_bound s i I Hi) as Hb.
  assert (ready s' i ∧ (length ds + total (s_cpus s') i ≤ total (s_cpus s) i)%nat) as [? ?]; [|split; [done|lia]]. clear Hb.
  induction H as [s|l ds s1 s2 s3 H _ IH]; [split; [done|cbn; lia]|].
  destruct (smp_wait l s1 s2 i I H Hr Hi) as (Hr2 & Hl2 & _).
  { intros ->. cbn in Hd. set_solver. }
  destruct (IH (smp_step_inv _ _ _ I H) Hr2) as [Hr3 Hl3]; [set_solver|]. split; [done|]. rewrite length_app. lia.
Qed.

(** ** One round of the scheduler *)

Lemma sched_loop_spec n m : quiet m → length (m_tasks m) = NPROC → (n ≤ NPROC)%nat →
  match list_find (λ t, tstate t = READY) (drop (NPROC - n) (m_tasks m)) with
  | Some (k, ts) => ∃ m', sched_loop n m = Ok (Some (NPROC - n + k)%nat) m' ∧ mytask m' = Some (NPROC - n + k)%nat ∧
      leaving (NPROC - n + k) (<[(NPROC - n + k)%nat := MkTsk RUN (tchan ts)]> (m_tasks m)) m'
  | None => ∃ m', sched_loop n m = Ok None m' ∧ quiet m' ∧ m_tasks m' = m_tasks m
  end.
Proof.
  revert m. induction n as [|n IH]; intros m Hq Hl Hn.
  { rewrite drop_ge by lia. cbn. by eexists. }
  assert (Hlt : (NPROC - S n < length (m_tasks m))%nat) by lia. apply lookup_lt_is_Some in Hlt as [ts Ets].
  rewrite (drop_S _ ts) by done. cbn [list_find sched_loop].
  pose proof (sched_visit_spec _ m ts Hq Ets) as V. case_decide as Hr; run V.
  - rewrite Nat.add_0_r. eexists. split; [done|]. split; [done|]. destruct Hq as [Hv Hs]. split_and!; cbn; [by rewrite Hs|by rewrite Hv|done].
  - replace (S (NPROC - S n)) with (NPROC - n)%nat by lia. specialize (IH (cur None (touch m)) Hq Hl ltac:(lia)).
    change (m_tasks (cur None (touch m))) with (m_tasks m) in IH.
    destruct (list_find _ (drop (NPROC - n) (m_tasks m))) as [[k x]|]; cbn; [|done].
    by replace (NPROC - S n + S k)%nat with (NPROC - n + k)%nat by lia.
Qed.

(** A scan of [task_schedule] over the task queue switches to the first READY task,
    which becomes RUN and the CPU's current task with its own lock held and no other,
    all other tasks as before; without a READY task the scan ends with no lock held and
    every task as it was. *)
Theorem sched_picks_first m : quiet m → length (m_tasks m) = NPROC →
  match list_find (λ t, tstate t = READY) (m_tasks m) with
  | Some (i, ts) => ∃ m', sched_loop NPROC m = Ok (Some i) m' ∧ mytask m' = Some i ∧
      m_spin m' = {[ L_task i := MkSpin true (Some (cpu_id (m_cpu m'))) ]} ∧
      m_tasks m' = <[i := MkTsk RUN (tchan ts)]> (m_tasks m)
  | None => ∃ m', sched_loop NPROC m = Ok None m' ∧ quiet m' ∧ m_tasks m' = m_tasks m
  end.
Proof.
  intros Hq Hl. pose proof (sched_loop_spec NPROC m Hq Hl (le_n _)) as H. rewrite Nat.sub_diag, drop_0 in H.
  destruct (list_find _ (m_tasks m)) as [[k ts]|]; [|done]. destruct H as (m' & E & Hc & Hs & _ & Ht). by exists m'.
Qed.

(** ** A system with three tasks on two CPUs: CPU 0 runs task 0, CPU 1 is in the
    scheduler, 1 and 2 wait for a CPU *)

Definition hart (i : nat) (t : option nat) : cpu := MkCpu i true false 0 t.
Definition three : mach := MkMach (hart 0 (Some 0%nat)) ∅
  (MkTsk RUN None :: MkTsk READY None :: MkTsk READY None :: replicate (NPROC - 3) (MkTsk FREE None)).
Definition three_smp : smp := MkSmp [(InTask 0, hart 0 (Some 0%nat)); (InSched 1, hart 1 None)] ∅ (m_tasks three).
Lemma hart_ok i p : match p with InSched i => (i ≤ NPROC)%nat | InTask t | InExit t => (t < NPROC)%nat end →
  cpu_ok p (hart i match p with InSched _ => None | InTask t | InExit t => Some t end).
Proof. by split. Qed.
(** Two CPUs of which the first runs task [t], and the tasks [ts]. *)
Lemma two_inv t j ts : (t < NPROC)%nat → (j ≤ NPROC)%nat → length ts = NPROC →
  (∀ i x, ts !! i = Some x → tstate x = RUN ↔ i = t) →
  smp_inv (MkSmp [(InTask t, hart 0 (Some t)); (InSched j, hart 1 None)] ∅ ts).
Proof.
  intros Ht Hj Hl Hr. split; [done|done| | |]; cbn [s_cpus s_tasks].
  - intros [|[|k]] p c E; cbn in E; [injection E as <- <-|injection E as <- <-|done].
    + by apply (hart_ok 0 (InTask t)).
    + by apply (hart_ok 1 (InSched j)).
  - intros i x E. rewrite (Hr i x E). split; [intros ->; by exists 0%nat, (hart 0 (Some t))|].
    intros ([|[|k]] & c & Ek); cbn in Ek; [by injection Ek as <- _|done..].
  - intros i [|[|k]] [|[|k']] c c' E E'; cbn in E, E'; done.
Qed.
Lemma three_inv : smp_inv three_smp.
Proof.
  apply two_inv; [apply Nat.lt_0_succ|by apply Nat.leb_le|done|]. intros i ts E.
  destruct i as [|[|[|i]]]; cbn in E; [by injection E as <-..|]. change (replicate (NPROC - 3) (MkTsk FREE None) !! i = Some ts) in E.
  apply lookup_replicate in E as [-> _]. done.
Qed.
(** A step of CPU [k] that ends in the machine [m']. *)
Lemma smp_by k p c p' m' l s s' : s_cpus s !! k = Some (p, c) → sys_step l (p, view s c) (p', m') →
  s' = MkSmp (<[k := (p', m_cpu m')]> (s_cpus s)) (m_spin m') (m_tasks m') → smp_step l s s'.
Proof. intros E H ->. by eapply smp_cpu. Qed.
(** CPU 1 dispatches task 1, then CPU 0 gives task 0 up. *)
Definition three_m0 : mach := state_of (sched_visit 1 (view three_smp (hart 1 None))).
Definition three_m1 : mach := state_of (yield_resume three_m0).
Definition three_s1 : smp := MkSmp [(InTask 0, hart 0 (Some 0%nat)); (InTask 1, m_cpu three_m1)] (m_spin three_m1) (m_tasks three_m1).
Definition three_y : mach := state_of (yield_enter (view three_s1 (hart 0 (Some 0%nat)))).
Definition three_m2 : mach := state_of (sched_leave 0 three_y).
Definition three_next : smp := MkSmp [(InSched 1, m_cpu three_m2); (InTask 1, m_cpu three_m1)] (m_spin three_m2) (m_tasks three_m2).
Lemma three_run : smp_steps [1%nat] three_smp three_next.
Proof.
  apply (smp_cons (Some 1%nat) [] _ three_s1).
  { eapply (smp_by 1 (InSched 1) (hart 1 None) (InTask 1) three_m1); [done| |done].
    apply (ss_dispatch 1 _ three_m0); [by apply Nat.ltb_lt|vm_compute; reflexivity..]. }
  apply (smp_cons None [] _ three_next); [|apply smp_nil].
  eapply (smp_by 0 (InTask 0) (hart 0 (Some 0%nat)) (InSched 1) three_m2); [done| |done].
  apply (ss_yield 0 _ three_y); vm_compute; reflexivity.
Qed.
Lemma sched_bounded_wait_witness : ready three_next 2 ∧ (length [1%nat] ≤ 2 * (NPROC - 1))%nat.
Proof.
  apply (sched_bounded_wait [1%nat] three_smp three_next 2 three_inv).
  - exists (MkTsk READY None). split; reflexivity.
  - exact three_run.
  - rewrite list_elem_of_singleton. discriminate.
Defined.
Lemma sched_picks_first_witness : ∃ m', sched_loop NPROC three = Ok (Some 1%nat) m' ∧ mytask m' = Some 1%nat ∧
  m_spin m' = {[ L_task 1 := MkSpin true (Some (cpu_id (m_cpu m'))) ]} ∧
  m_tasks m' = <[1%nat := MkTsk RUN None]> (m_tasks three).
Proof. apply (sched_picks_first three); [by split|reflexivity]. Defined.

(** ** The exit of a task and its parent on two CPUs *)

(** CPU 0 runs task 1, CPU 1 its parent, task 0. *)
Definition exit_smp : smp := MkSmp [(InTask 1, hart 0 (Some 1%nat)); (InTask 0, hart 1 (Some 0%nat))] ∅
  (MkTsk RUN None :: MkTsk RUN None :: replicate (NPROC - 2) (MkTsk FREE None)).
Definition exit_tasks (st : task_state) : list tsk := MkTsk RUN None :: MkTsk st None :: replicate (NPROC - 2) (MkTsk FREE None).
Definition exit_at (p : place) (t : option nat) (ts : list tsk) : smp :=
  MkSmp [(InExit 1, hart 0 (Some 1%nat)); (p, hart 1 t)] ∅ ts.
Definition exit_reused : list tsk := MkTsk READY None :: MkTsk RUN None :: replicate (NPROC - 2) (MkTsk FREE None).
(** [sys_exit] and [kill] store EXIT before they take the lock of the task, so [wait]
    on another CPU frees the slot while the task still runs, on its kernel stack, and the
    slot can be given to a new task and dispatched: two CPUs then run in the same
    slot. *)
Theorem exit_window : ∃ c0 c1 s', smp_steps [1%nat] exit_smp s' ∧
  s_cpus s' !! 0%nat = Some (InExit 1, c0) ∧ cur_task c0 = Some 1%nat ∧
  s_cpus s' !! 1%nat = Some (InTask 1, c1) ∧ cur_task c1 = Some 1%nat.
Proof.
  set (c1 := MkCpu 1 true true 0 (Some 1%nat)). set (cs := MkCpu 1 true true 0 None).
  set (sy := MkSmp [(InExit 1, hart 0 (Some 1%nat)); (InSched 1, cs)] ∅ (MkTsk READY None :: drop 1 (exit_tasks READY))).
  set (m0 := view (exit_at (InTask 0) (Some 0%nat) (exit_tasks READY)) (hart 1 (Some 0%nat))).
  set (s' := MkSmp [(InExit 1, hart 0 (Some 1%nat)); (InTask 1, c1)] ∅ exit_reused).
  exists (hart 0 (Some 1%nat)), c1, s'. split; [|done].
  apply (smp_cons None [1%nat] _ (exit_at (InTask 0) (Some 0%nat) (exit_tasks EXIT))).
  { eapply (smp_by 0 (InTask 1)); [done|by apply ss_exit_mark|done]. }
  apply (smp_cons None [1%nat] _ (exit_at (InTask 0) (Some 0%nat) (exit_tasks FREE))).
  { eapply (smp_by 1 (InTask 0)); [done|by apply (ss_reap 0 1 None)|done]. }
  apply (smp_cons None [1%nat] _ (exit_at (InTask 0) (Some 0%nat) (exit_tasks INIT))).
  { eapply (smp_by 1 (InTask 0)); [done|by apply (ss_create 0 1 None)|done]. }
  apply (smp_cons None [1%nat] _ (exit_at (InTask 0) (Some 0%nat) (exit_tasks READY))).
  { eapply (smp_by 1 (InTask 0)); [done|by apply (ss_start 0 1 None)|done]. }
  apply (smp_cons None [1%nat] _ sy).
  { eapply (smp_by 1 (InTask 0)); [done|apply (ss_yield 0 m0 (state_of (yield_enter m0)) (view sy cs)); vm_compute; reflexivity|done]. }
  apply (smp_cons (Some 1%nat) [] _ s'); [|apply smp_nil].
  eapply (smp_by 1 (InSched 1)); [done|apply (ss_dispatch 1 (view sy cs) (state_of (sched_visit 1 (view sy cs))) (view s' c1)); [by apply Nat.ltb_lt|vm_compute; reflexivity..]|done].
Qed.
