(* ===== verification/BlockIO.v ===== *)
(** The contracts of the block layer.

    [DiskDriver] is what the buffer cache relies on from the disk driver
    ([disk_read], [disk_write] of kernel/dev/disk.c): a block read returns the
    last block written there.  [BlockIO] is what the file system relies on from
    the buffer cache ([bread], [bwrite], [brelse] of kernel/fs/bio.c), stated on
    an abstract view: the contents of the disk and the buffers the running task
    holds.  Bio proves that the cache implements it. *)
From S2P Require Import Prelude Bytes Machine.

(** A block: [BSIZE] bytes. *)
Definition is_block (d : list Z) : Prop := length d = BSIZE ∧ bytes_ok d.

(** Block numbers whose sector number [blockno * (BSIZE / 512)] does not wrap in
    32 bits. *)
Definition blk (n : Z) : Prop := 0 ≤ n < 2 ^ 31.

Class DiskDriver (D : Type) := {
  disk_rd : Z → D → list Z;
  disk_wr : Z → list Z → D → D;
  disk_rd_block d n : blk n → is_block (disk_rd n d);
  disk_rd_wr d n n' v : blk n → blk n' → is_block v →
    disk_rd n' (disk_wr n v d) = if decide (n' = n) then v else disk_rd n' d;
}.

(** A disk as a finite map of blocks, zero where nothing was written. *)
Definition ram_disk : Type := gmap Z (list Z).
Definition zero_block : list Z := replicate BSIZE 0.
Lemma zero_block_ok : is_block zero_block.
Proof. split; [apply length_replicate|apply bytes_ok_replicate]. Qed.
Definition ram_rd (n : Z) (d : ram_disk) : list Z :=
  match (d : gmap Z (list Z)) !! n with
  | Some v => if decide (length v = BSIZE ∧ Forall (λ b, 0 ≤ b < 256) v) then v else zero_block
  | None => zero_block
  end.
Definition ram_wr (n : Z) (v : list Z) (d : ram_disk) : ram_disk :=
  <[n := v]> (d : gmap Z (list Z)).
#[export] Instance ram_driver : DiskDriver ram_disk.
Proof.
  refine {| disk_rd := ram_rd; disk_wr := ram_wr |}.
  - intros d n _. unfold ram_rd. destruct (_ !! n); [case_decide|]; auto using zero_block_ok.
  - intros d n n' v _ _ Hv. unfold ram_rd, ram_wr. case_decide as E.
    + subst. rewrite lookup_insert_eq. by rewrite decide_True.
    + by rewrite lookup_insert_ne by done.
Defined.

(** [b] is the index of the [struct buf] a pointer designates. *)
Class BlockIO (S : Type) := {
  bread : Z → Z → M S nat;
  bwrite : nat → M S unit;
  bzero : nat → M S unit;
  brelse : nat → M S unit;
  (** [b->data] and [b->blockno], and a store through [b->data] *)
  bdata : S → nat → list Z;
  bblockno : S → nat → Z;
  bset : nat → list Z → S → S;
  (** the execution context *)
  bmach : S → mach;
  bset_mach : mach → S → S;
  (** the abstract view *)
  bio_ok : S → Prop;
  bio_disk : S → Z → list Z;
  bio_held : S → nat → option (Z * list Z);
  bio_nheld : S → nat;

  bio_ok_mach s : bio_ok s → can_sleep (bmach s);
  bmach_set m s : bmach (bset_mach m s) = m;
  bset_mach_same s : bset_mach (bmach s) s = s;
  bset_mach_twice m m' s : bset_mach m (bset_mach m' s) = bset_mach m s;
  bset_mach_ok s m : bio_ok s → mach_frame (bmach s) m →
    bio_ok (bset_mach m s);
  bset_mach_view s m : (∀ n, bio_disk (bset_mach m s) n = bio_disk s n) ∧
    (∀ b, bio_held (bset_mach m s) b = bio_held s b) ∧ bio_nheld (bset_mach m s) = bio_nheld s;
  bio_held_data s b n d : bio_ok s → bio_held s b = Some (n, d) →
    bdata s b = d ∧ bblockno s b = n ∧ is_block d ∧ blk n ∧ n ≠ 0;
  bio_disk_block s n : bio_ok s → blk n → is_block (bio_disk s n);
  (** a block that is not held can be read while a buffer is left *)
  bread_ok s n : bio_ok s → blk n → n ≠ 0 → (bio_nheld s < NIOBUF)%nat →
    (∀ b d, bio_held s b ≠ Some (n, d)) →
    ∃ b s', bread ROOTDEV n s = Ok b s' ∧ bio_ok s' ∧ bio_held s b = None ∧
      (∀ b', bio_held s' b' = if decide (b' = b) then Some (n, bio_disk s n) else bio_held s b') ∧
      (∀ k, bio_disk s' k = bio_disk s k) ∧ bio_nheld s' = Datatypes.S (bio_nheld s) ∧
      mach_frame (bmach s) (bmach s');
  (** a task that reads a block it holds stops the machine *)
  bread_again s b n d : bio_ok s → bio_held s b = Some (n, d) →
    ∃ s', bread ROOTDEV n s = Panic "sleep_get" s';
  bset_ok s b n d d' : bio_ok s → bio_held s b = Some (n, d) → is_block d' →
    bio_ok (bset b d' s) ∧
    (∀ b', bio_held (bset b d' s) b' = if decide (b' = b) then Some (n, d') else bio_held s b') ∧
    (∀ k, bio_disk (bset b d' s) k = bio_disk s k) ∧
    bio_nheld (bset b d' s) = bio_nheld s ∧ bmach (bset b d' s) = bmach s;
  bwrite_ok s b n d : bio_ok s → bio_held s b = Some (n, d) →
    ∃ s', bwrite b s = Ok tt s' ∧ bio_ok s' ∧ (∀ b', bio_held s' b' = bio_held s b') ∧
      (∀ k, blk k → bio_disk s' k = if decide (k = n) then d else bio_disk s k) ∧
      bio_nheld s' = bio_nheld s ∧ bmach s' = bmach s;
  bzero_ok s b n d : bio_ok s → bio_held s b = Some (n, d) →
    ∃ s', bzero b s = Ok tt s' ∧ bio_ok s' ∧
      (∀ b', bio_held s' b' = if decide (b' = b) then Some (n, zero_block) else bio_held s b') ∧
      (∀ k, blk k → bio_disk s' k = if decide (k = n) then zero_block else bio_disk s k) ∧
      bio_nheld s' = bio_nheld s ∧ bmach s' = bmach s;
  (** a buffer is released when it agrees with the disk *)
  brelse_ok s b n d : bio_ok s → bio_held s b = Some (n, d) → d = bio_disk s n →
    ∃ s', brelse b s = Ok tt s' ∧ bio_ok s' ∧
      (∀ b', bio_held s' b' = if decide (b' = b) then None else bio_held s b') ∧
      (∀ k, bio_disk s' k = bio_disk s k) ∧ Datatypes.S (bio_nheld s') = bio_nheld s ∧
      mach_frame (bmach s) (bmach s') ∧ bdata s' b = d;
}.

(** ** Reasoning with the contract

    [io_step f s s']: a path that ends with the buffers it started with and
    changes block [k] from [d] to [f k d].  [owns b n d f s s1]: in between, the
    path holds block [n], with contents [d], in buffer [b] in addition. *)
Section io.
Context {S : Type} {IO : BlockIO S}.
Implicit Types (s : S) (f g : Z → list Z → list Z).

Definition keep : Z → list Z → list Z := λ _ d, d.
Definition wr (n : Z) (v : list Z) : Z → list Z → list Z :=
  λ k d, if decide (k = n) then v else d.
Definition comp (g f : Z → list Z → list Z) : Z → list Z → list Z := λ k d, g k (f k d).
Definition not_held (s : S) (n : Z) : Prop := ∀ b d, bio_held s b ≠ Some (n, d).
(** [k] more buffers can be held. *)
Definition room (k : nat) (s : S) : Prop := (bio_nheld s + k ≤ NIOBUF)%nat.

Record io_step (f : Z → list Z → list Z) (s s' : S) : Prop := {
  st_ok : bio_ok s';
  st_held b : bio_held s' b = bio_held s b;
  st_nheld : bio_nheld s' = bio_nheld s;
  st_mach : mach_frame (bmach s) (bmach s');
  st_disk k : blk k → bio_disk s' k = f k (bio_disk s k);
}.
Record owns (b : nat) (n : Z) (d : list Z) (f : Z → list Z → list Z) (s s1 : S) : Prop := {
  ow_ok : bio_ok s1;
  ow_new : bio_held s b = None;
  ow_held b' : bio_held s1 b' = if decide (b' = b) then Some (n, d) else bio_held s b';
  ow_nheld : bio_nheld s1 = Datatypes.S (bio_nheld s);
  ow_mach : mach_frame (bmach s) (bmach s1);
  ow_disk k : blk k → bio_disk s1 k = f k (bio_disk s k);
}.

Lemma io_step_refl s : bio_ok s → io_step keep s s.
Proof. done. Qed.
Lemma io_step_trans f g s1 s2 s3 : io_step f s1 s2 → io_step g s2 s3 → io_step (comp g f) s1 s3.
Proof.
  intros [? ? ? ? Hf] [? ? ? ? Hg]. split; [done|congruence|congruence|by etransitivity|].
  intros k Hk. rewrite Hg, Hf by done. done.
Qed.
Lemma io_step_ext f g s s' : (∀ k, blk k → f k (bio_disk s k) = g k (bio_disk s k)) →
  io_step f s s' → io_step g s s'.
Proof. intros E [? ? ? ? Hf]. split; try done. intros k Hk. by rewrite Hf, E. Qed.
Lemma io_step_not_held f s s' n : io_step f s s' → not_held s n → not_held s' n.
Proof. intros St Hn b d. rewrite (st_held _ _ _ St). apply Hn. Qed.
Lemma io_step_room f s s' k : io_step f s s' → room k s → room k s'.
Proof. intros St. unfold room. by rewrite (st_nheld _ _ _ St). Qed.

Lemma owns_held b n d f s s1 : owns b n d f s s1 → bio_held s1 b = Some (n, d).
Proof. intros O. by rewrite (ow_held _ _ _ _ _ _ O), decide_True. Qed.
Lemma owns_data b n d f s s1 : owns b n d f s s1 →
  bdata s1 b = d ∧ bblockno s1 b = n ∧ is_block d ∧ blk n ∧ n ≠ 0.
Proof. intros O. eapply bio_held_data; [apply O|by eapply owns_held]. Qed.
Lemma owns_not_held b n d f s s1 n' : owns b n d f s s1 → n' ≠ n → not_held s n' → not_held s1 n'.
Proof.
  intros O Hne Hn b' d'. rewrite (ow_held _ _ _ _ _ _ O).
  case_decide; [intros [= ? ?]; congruence|apply Hn].
Qed.
Lemma owns_room b n d f s s1 k : owns b n d f s s1 → room (Datatypes.S k) s → room k s1.
Proof. intros O. unfold room. rewrite (ow_nheld _ _ _ _ _ _ O). lia. Qed.

Lemma io_bread_owns s n : bio_ok s → blk n → n ≠ 0 → room 1 s → not_held s n →
  ∃ b s1, bread ROOTDEV n s = Ok b s1 ∧ owns b n (bio_disk s n) keep s s1.
Proof.
  intros Hok Hn Hn0 Hr Hh. unfold room in Hr.
  destruct (bread_ok s n Hok Hn Hn0 ltac:(lia) Hh) as (b & s1 & E & H1 & H2 & H3 & H4 & H5 & H6).
  exists b, s1. split; [done|]. split; auto.
Qed.
Lemma owns_bset b n d d' f s s1 : owns b n d f s s1 → is_block d' →
  owns b n d' f s (bset b d' s1).
Proof.
  intros O Hd. destruct (bset_ok s1 b n d d' (ow_ok _ _ _ _ _ _ O) (owns_held _ _ _ _ _ _ O) Hd)
    as (H1 & H2 & H3 & H4 & H5). destruct O as [O1 O2 O3 O4 O5 O6].
  split; [done|done| |congruence|by rewrite H5|].
  - intros b'. rewrite H2, O3. by case_decide.
  - intros k Hk. rewrite H3. auto.
Qed.
Lemma owns_bwrite b n d f s s1 : owns b n d f s s1 →
  ∃ s2, bwrite b s1 = Ok tt s2 ∧ owns b n d (comp (wr n d) f) s s2.
Proof.
  intros O. destruct (bwrite_ok s1 b n d (ow_ok _ _ _ _ _ _ O) (owns_held _ _ _ _ _ _ O))
    as (s2 & E & H1 & H2 & H3 & H4 & H5). destruct O as [O1 O2 O3 O4 O5 O6].
  exists s2. split; [done|]. split; [done|done| |congruence|by rewrite H5|].
  - intros b'. by rewrite H2, O3.
  - intros k Hk. rewrite H3, O6 by done. done.
Qed.
Lemma owns_bzero b n d f s s1 : owns b n d f s s1 →
  ∃ s2, bzero b s1 = Ok tt s2 ∧ owns b n zero_block (comp (wr n zero_block) f) s s2.
Proof.
  intros O. destruct (bzero_ok s1 b n d (ow_ok _ _ _ _ _ _ O) (owns_held _ _ _ _ _ _ O))
    as (s2 & E & H1 & H2 & H3 & H4 & H5). destruct O as [O1 O2 O3 O4 O5 O6].
  exists s2. split; [done|]. split; [done|done| |congruence|by rewrite H5|].
  - intros b'. rewrite H2, O3. by case_decide.
  - intros k Hk. rewrite H3, O6 by done. done.
Qed.
Lemma owns_brelse b n d f s s1 : owns b n d f s s1 → d = f n (bio_disk s n) →
  ∃ s2, brelse b s1 = Ok tt s2 ∧ io_step f s s2 ∧ bdata s2 b = d.
Proof.
  intros O Hd. destruct (owns_data _ _ _ _ _ _ O) as (_ & _ & _ & Hn & _).
  destruct (brelse_ok s1 b n d (ow_ok _ _ _ _ _ _ O) (owns_held _ _ _ _ _ _ O))
    as (s2 & E & H1 & H2 & H3 & H4 & H5 & H6).
  { by rewrite (ow_disk _ _ _ _ _ _ O) by done. }
  destruct O as [O1 O2 O3 O4 O5 O6].
  exists s2. split; [done|]. split; [|done]. split; [done| |congruence|by etransitivity|].
  - intros b'. rewrite H2, O3. case_decide; [by subst|done].
  - intros k Hk. rewrite H3. auto.
Qed.
(** Work done while [b] is held. *)
Lemma owns_step b n d f g s s1 s2 : owns b n d f s s1 → io_step g s1 s2 →
  owns b n d (comp g f) s s2.
Proof.
  intros [O1 O2 O3 O4 O5 O6] [T1 T2 T3 T4 T5].
  split; [done|done| |congruence|by etransitivity|].
  - intros b'. by rewrite T2, O3.
  - intros k Hk. rewrite T5, O6 by done. done.
Qed.

(** Reading a block and releasing it, and rewriting a block. *)
Lemma io_read_relse s n : bio_ok s → blk n → n ≠ 0 → room 1 s → not_held s n →
  ∃ b s1 s2, bread ROOTDEV n s = Ok b s1 ∧ owns b n (bio_disk s n) keep s s1 ∧
    bdata s1 b = bio_disk s n ∧ brelse b s1 = Ok tt s2 ∧ io_step keep s s2.
Proof.
  intros Hok Hn Hn0 Hr Hh. destruct (io_bread_owns s n) as (b & s1 & E & O); try done.
  destruct (owns_brelse _ _ _ _ _ _ O) as (s2 & E2 & St & _); [done|].
  exists b, s1, s2. split; [done|]. split; [done|]. split; [by eapply owns_data|done].
Qed.
Lemma owns_rewrite b n d d' f s s1 : owns b n d f s s1 → is_block d' →
  ∃ s2 s3, bwrite b (bset b d' s1) = Ok tt s2 ∧ brelse b s2 = Ok tt s3 ∧
    io_step (comp (wr n d') f) s s3.
Proof.
  intros O Hd. pose proof (owns_bset _ _ _ _ _ _ _ O Hd) as O1.
  destruct (owns_bwrite _ _ _ _ _ _ O1) as (s2 & E2 & O2).
  destruct (owns_brelse _ _ _ _ _ _ O2) as (s3 & E3 & St & _).
  { unfold comp, wr. by rewrite decide_True. }
  exists s2, s3. done.
Qed.
End io.
