(* ===== verification/Virtio.v ===== *)
(** The virtio disk driver (kernel/dev/disk.c): descriptors, the available and the
    used ring, and the protocol between the tasks that wait for a transfer, the
    interrupt handler and the device.

    A pointer in a descriptor is the object it points to.  A call of
    [virtio_disk_rw] that waits returns where it is ([inl]); the code behind the
    [sleep] is a definition of its own.  The device is a parameter: [VirtioDevice]
    states what the virtio specification says of a device that serves requests
    without error. *)
From S2P Require Import Prelude Bytes Machine BlockIO.

Definition NUM : nat := 8.
#[global] Arguments NUM : simpl never.
Definition VRING_DESC_F_NEXT : Z := 1.
Definition VRING_DESC_F_WRITE : Z := 2.
Definition VIRTIO_BLK_T_IN : Z := 0.
Definition VIRTIO_BLK_T_OUT : Z := 1.

(** What an address in a descriptor points to: [&disk.ops[i]], [b->data] or
    [&disk.info[i].status]. *)
Inductive daddr := A_null | A_op (i : nat) | A_data (b : nat) | A_status (i : nat).
Record virtq_desc := MkDesc { d_addr : daddr; d_len : Z; d_flags : Z; d_next : nat }.
Definition desc0 : virtq_desc := MkDesc A_null 0 0 0.
Record virtio_blk_req := MkOp { op_type : Z; op_reserved : Z; op_sector : Z }.
Record virtq := MkRing { r_idx : Z; r_ring : list nat }.
(** The registers of the device the driver uses in a transfer: whether a store to
    [VIRTIO_MMIO_QUEUE_NOTIFY] waits to be seen, and [VIRTIO_MMIO_INTERRUPT_STATUS]. *)
Record mmio := MkMmio { mm_notified : bool; mm_status : Z }.

(** [struct disk]; the lock is [L_vdisk].  [v_info] pairs [b] and [status]. *)
Record vdisk := MkVdisk {
  v_desc : list virtq_desc;
  v_avail : virtq;
  v_used : virtq;
  v_free : list bool;
  v_used_idx : Z;
  v_info : list (option nat * Z);
  v_ops : list virtio_blk_req;
  v_mmio : mmio;
}.
(** The fields of [struct buf] the driver uses. *)
Record vbuf := MkVbuf { vb_blockno : Z; vb_disk : bool; vb_data : list Z }.
Definition set_vb_disk (v : bool) (b : vbuf) : vbuf := MkVbuf (vb_blockno b) v (vb_data b).

Definition vst : Type := mach * (vdisk * list vbuf).
Definition onv {A} (m : M mach A) : M vst A := onm m.
Definition set_desc (i : nat) (d : virtq_desc) (v : vdisk) : vdisk :=
  MkVdisk (<[i := d]> (v_desc v)) (v_avail v) (v_used v) (v_free v) (v_used_idx v) (v_info v) (v_ops v) (v_mmio v).
Definition set_free (i : nat) (b : bool) (v : vdisk) : vdisk :=
  MkVdisk (v_desc v) (v_avail v) (v_used v) (<[i := b]> (v_free v)) (v_used_idx v) (v_info v) (v_ops v) (v_mmio v).
Definition set_avail (r : virtq) (v : vdisk) : vdisk :=
  MkVdisk (v_desc v) r (v_used v) (v_free v) (v_used_idx v) (v_info v) (v_ops v) (v_mmio v).
Definition set_used (r : virtq) (v : vdisk) : vdisk :=
  MkVdisk (v_desc v) (v_avail v) r (v_free v) (v_used_idx v) (v_info v) (v_ops v) (v_mmio v).
Definition set_used_idx (z : Z) (v : vdisk) : vdisk :=
  MkVdisk (v_desc v) (v_avail v) (v_used v) (v_free v) z (v_info v) (v_ops v) (v_mmio v).
Definition set_info (i : nat) (x : option nat * Z) (v : vdisk) : vdisk :=
  MkVdisk (v_desc v) (v_avail v) (v_used v) (v_free v) (v_used_idx v) (<[i := x]> (v_info v)) (v_ops v) (v_mmio v).
Definition set_op (i : nat) (o : virtio_blk_req) (v : vdisk) : vdisk :=
  MkVdisk (v_desc v) (v_avail v) (v_used v) (v_free v) (v_used_idx v) (v_info v) (<[i := o]> (v_ops v)) (v_mmio v).
Definition set_mmio (r : mmio) (v : vdisk) : vdisk :=
  MkVdisk (v_desc v) (v_avail v) (v_used v) (v_free v) (v_used_idx v) (v_info v) (v_ops v) r.
Definition mod_disk (f : vdisk → vdisk) : M vst unit := modify (λ s, (s.1, (f s.2.1, s.2.2))).
Definition mod_buf (b : nat) (f : vbuf → vbuf) : M vst unit :=
  let! _ := deref (λ s : vst, s.2.2 !! b) in modify (λ s, (s.1, (s.2.1, alter f b s.2.2))).

(** A store to [VIRTIO_MMIO_QUEUE_NOTIFY], a load of [VIRTIO_MMIO_INTERRUPT_STATUS] and a
    store to [VIRTIO_MMIO_INTERRUPT_ACK], which clears the bits stored (section 4.2.2 of the
    specification). *)
Definition queue_notify : M vst unit := mod_disk (λ v, set_mmio (MkMmio true (mm_status (v_mmio v))) v).
Definition interrupt_status : M vst Z := gets (λ s : vst, mm_status (v_mmio s.2.1)).
Definition interrupt_ack (bits : Z) : M vst unit :=
  mod_disk (λ v, set_mmio (MkMmio (mm_notified (v_mmio v)) (Z.ldiff (mm_status (v_mmio v)) bits)) v).

(** ** The descriptors *)

(** [for (int i = NUM - n; i < NUM; i++)]; [None] is -1. *)
Fixpoint desc_loop (n : nat) : M vst (option nat) :=
  match n with
  | O => ret None
  | S n' =>
    let! f := deref (λ s : vst, v_free s.2.1 !! (NUM - n)%nat) in
    if (f : bool) then mod_disk (set_free (NUM - n) false) ;; ret (Some (NUM - n)%nat)
    else desc_loop n'
  end.
Definition alloc_desc : M vst (option nat) := desc_loop NUM.

Definition free_desc (i : nat) : M vst unit :=
  if (NUM <=? i)%nat then panic "free_desc: i>NUM" else
  let! f := deref (λ s : vst, v_free s.2.1 !! i) in
  if (f : bool) then panic "free_desc: disk.free[i]" else
  mod_disk (set_desc i desc0) ;;
  mod_disk (set_free i true) ;;
  onv (wakeup ChDiskFree).

(** [while (1)]; a descriptor is freed at most once, so [NUM + 1] rounds are enough. *)
Fixpoint chain_loop (fuel : nat) (i : nat) : M vst unit :=
  match fuel with
  | O => λ s, Spin s
  | S fuel =>
    let! d := deref (λ s : vst, v_desc s.2.1 !! i) in
    free_desc i ;;
    if negb (Z.land (d_flags d) VRING_DESC_F_NEXT =? 0) then chain_loop fuel (d_next d) else ret tt
  end.
Definition free_chain (i : nat) : M vst unit := chain_loop (S NUM) i.

Fixpoint free_descs (l : list nat) : M vst unit :=
  match l with [] => ret tt | i :: l => free_desc i ;; free_descs l end.
(** [for (int i = 3 - n; i < 3; i++)] with the descriptors [idx] taken so far; [None]
    is -1. *)
Fixpoint alloc_n (n : nat) (idx : list nat) : M vst (option (list nat)) :=
  match n with
  | O => ret (Some idx)
  | S n' =>
    let! r := alloc_desc in
    match r with
    | Some i => alloc_n n' (idx ++ [i])
    | None => free_descs idx ;; ret None
    end
  end.
Definition alloc3_desc : M vst (option (list nat)) := alloc_n 3 [].

(** ** Transfers *)

Definition sector_of (blockno : Z) : Z := u32 (blockno * (Z.of_nat BSIZE / 512)).

(** The part of [virtio_disk_rw] from the command header to the notification. *)
Definition submit (b : nat) (write : bool) (sector : Z) (i0 i1 i2 : nat) : M vst unit :=
  mod_disk (set_op i0 (MkOp (if write then VIRTIO_BLK_T_OUT else VIRTIO_BLK_T_IN) 0 sector)) ;;
  mod_disk (set_desc i0 (MkDesc (A_op i0) 16 VRING_DESC_F_NEXT i1)) ;;
  mod_disk (set_desc i1 (MkDesc (A_data b) (Z.of_nat BSIZE)
    (Z.lor (if write then 0 else VRING_DESC_F_WRITE) VRING_DESC_F_NEXT) i2)) ;;
  let! inf := deref (λ s : vst, v_info s.2.1 !! i0) in
  mod_disk (set_info i0 (inf.1, 255)) ;;
  mod_disk (set_desc i2 (MkDesc (A_status i0) 1 VRING_DESC_F_WRITE 0)) ;;
  mod_buf b (set_vb_disk true) ;;
  mod_disk (set_info i0 (Some b, 255)) ;;
  mod_disk (λ v, set_avail (MkRing (r_idx (v_avail v))
    (<[Z.to_nat (r_idx (v_avail v) mod Z.of_nat NUM) := i0]> (r_ring (v_avail v)))) v) ;;
  mod_disk (λ v, set_avail (MkRing (u16 (r_idx (v_avail v) + 1)) (r_ring (v_avail v))) v) ;;
  queue_notify.

(** Where a call waits: for descriptors, or for the device with [idx[0]]. *)
Inductive rw_wait := WaitFree | WaitDone (i0 : nat).

(** [while (b->disk == 1)] and the end of [virtio_disk_rw]. *)
Definition rw_finish (b i0 : nat) : M vst (rw_wait + unit) :=
  let! bf := deref (λ s : vst, s.2.2 !! b) in
  if vb_disk bf then
    onv (sleep_enter (ChBuf b) (Some L_vdisk)) ;; ret (inl (WaitDone i0))
  else
    let! inf := deref (λ s : vst, v_info s.2.1 !! i0) in
    mod_disk (set_info i0 (None, inf.2)) ;;
    free_chain i0 ;;
    onv (spin_put L_vdisk) ;;
    ret (inr tt).
(** [virtio_disk_rw] from the allocation of the descriptors on. *)
Definition rw_try (b : nat) (write : bool) (sector : Z) : M vst (rw_wait + unit) :=
  let! r := alloc3_desc in
  match r with
  | Some [i0; i1; i2] => submit b write sector i0 i1 i2 ;; rw_finish b i0
  | Some _ => fault
  | None => onv (sleep_enter ChDiskFree (Some L_vdisk)) ;; ret (inl WaitFree)
  end.
Definition virtio_disk_rw (b : nat) (write : bool) : M vst (rw_wait + unit) :=
  let! bf := deref (λ s : vst, s.2.2 !! b) in
  onv (spin_get L_vdisk) ;;
  rw_try b write (sector_of (vb_blockno bf)).
(** After the scheduler came back to a call that slept. *)
Definition virtio_disk_rw_resume (b : nat) (write : bool) (w : rw_wait) : M vst (rw_wait + unit) :=
  let! bf := deref (λ s : vst, s.2.2 !! b) in
  onv (sleep_resume (Some L_vdisk)) ;;
  match w with
  | WaitFree => rw_try b write (sector_of (vb_blockno bf))
  | WaitDone i0 => rw_finish b i0
  end.

(** The body of the loop of [virtio_disk_intr]. *)
Definition intr_one : M vst unit :=
  let! id := deref (λ s : vst, r_ring (v_used s.2.1) !! Z.to_nat (v_used_idx s.2.1 mod Z.of_nat NUM)) in
  let! inf := deref (λ s : vst, v_info s.2.1 !! id) in
  if negb (inf.2 =? 0) then panic "virtio_disk_intr: status" else
  let! b := deref (λ _, inf.1) in
  mod_buf b (set_vb_disk false) ;;
  onv (wakeup (ChBuf b)) ;;
  mod_disk (λ v, set_used_idx (u16 (v_used_idx v + 1)) v).
(** [while (disk.used_idx != disk.used->idx)]: the indices have 16 bits. *)
Fixpoint intr_loop (fuel : nat) : M vst unit :=
  let! more := gets (λ s : vst, negb (v_used_idx s.2.1 =? r_idx (v_used s.2.1))) in
  if (more : bool) then
    match fuel with O => λ s, Spin s | S fuel => intr_one ;; intr_loop fuel end
  else ret tt.
Definition intr_fuel (v : vdisk) : nat := Z.to_nat (u16 (r_idx (v_used v) - v_used_idx v)).
Definition virtio_disk_intr : M vst unit :=
  onv (spin_get L_vdisk) ;;
  let! st := interrupt_status in
  interrupt_ack (Z.land st 3) ;;
  let! n := gets (λ s : vst, intr_fuel s.2.1) in
  intr_loop n ;;
  onv (spin_put L_vdisk).

(** ** The rings as queues *)

Definition slot_of (z : Z) : nat := Z.to_nat (z mod Z.of_nat NUM).
(** The entries of [rg] from index [start] on that its writer added are [q]. *)
Record queued (rg : virtq) (start : Z) (q : list nat) : Prop := {
  qu_start : 0 ≤ start < 2 ^ 16;
  qu_len : length (r_ring rg) = NUM;
  qu_idx : r_idx rg = u16 (start + Z.of_nat (length q));
  qu_at k x : q !! k = Some x → r_ring rg !! slot_of (start + Z.of_nat k) = Some x;
}.

Lemma NUM_Z : Z.of_nat NUM = 8.
Proof. done. Qed.
Lemma slot_u16 z : slot_of (u16 z) = slot_of z.
Proof.
  unfold slot_of, u16. f_equal. rewrite NUM_Z. change (2 ^ 16) with (8 * 8192). rewrite Z.rem_mul_r by lia.
  rewrite Z.mul_comm, Z_mod_plus_full. apply Z.mod_mod. lia.
Qed.
Lemma slot_lt z : (slot_of z < NUM)%nat.
Proof. unfold slot_of. pose proof (Z.mod_pos_bound z (Z.of_nat NUM)). rewrite NUM_Z in *. unfold NUM. lia. Qed.
Lemma slot_ne z k : 0 < k < 8 → slot_of z ≠ slot_of (z + k).
Proof.
  intros Hk E. unfold slot_of in E. rewrite NUM_Z in E. apply (f_equal Z.of_nat) in E.
  rewrite !Z2Nat.id in E by (apply Z.mod_pos_bound; lia).
  pose proof (Z.div_mod z 8). pose proof (Z.div_mod (z + k) 8). lia.
Qed.
Lemma u16_add a b : u16 (u16 a + b) = u16 (a + b).
Proof. unfold u16. apply Zplus_mod_idemp_l. Qed.
Lemma u16_bound z : 0 ≤ u16 z < 2 ^ 16.
Proof. apply Z.mod_pos_bound. lia. Qed.

Lemma queued_push rg start q x : queued rg start q → (length q < NUM)%nat →
  queued (MkRing (u16 (r_idx rg + 1)) (<[slot_of (r_idx rg) := x]> (r_ring rg))) start (q ++ [x]).
Proof.
  intros [Q1 Q2 Q3 Q4] Hq. pose proof NUM_Z. split; cbn; [done|by rewrite length_insert| |].
  - rewrite Q3, u16_add, length_app. f_equal. cbn. lia.
  - intros k y Hy. rewrite Q3, slot_u16. destruct (decide (k < length q)%nat) as [Hk|Hk].
    + rewrite lookup_app_l in Hy by done. rewrite list_lookup_insert_ne; [by apply Q4|].
      replace (start + Z.of_nat (length q)) with (start + Z.of_nat k + Z.of_nat (length q - k)) by lia.
      intros E. symmetry in E. revert E. apply slot_ne. lia.
    + assert (k = length q) as -> by (apply lookup_lt_Some in Hy; rewrite length_app in Hy; cbn in Hy; lia).
      rewrite lookup_app_r, Nat.sub_diag in Hy by lia. injection Hy as ->. apply list_lookup_insert_eq. rewrite Q2. apply slot_lt.
Qed.
Lemma queued_pop rg start x q : queued rg start (x :: q) →
  r_ring rg !! slot_of start = Some x ∧ queued rg (u16 (start + 1)) q.
Proof.
  intros [Q1 Q2 Q3 Q4]. split; [|split].
  - pose proof (Q4 0%nat x eq_refl) as E. by rewrite Z.add_0_r in E.
  - apply u16_bound.
  - done.
  - rewrite Q3, u16_add. f_equal. cbn. lia.
  - intros k y Hy. pose proof (Q4 (S k) y Hy) as E. rewrite <- slot_u16, u16_add, slot_u16.
    by replace (start + 1 + Z.of_nat k) with (start + Z.of_nat (S k)) by lia.
Qed.
Lemma queued_diff rg start q : queued rg start q → (length q < NUM)%nat →
  u16 (r_idx rg - start) = Z.of_nat (length q).
Proof.
  intros [Q1 Q2 Q3 Q4] Hl. pose proof NUM_Z. rewrite Q3. unfold Z.sub. rewrite u16_add.
  replace (start + Z.of_nat (length q) + - start) with (Z.of_nat (length q)) by lia.
  apply Z.mod_small. lia.
Qed.

(** ** Descriptors in use *)

Definition used_by (v : vdisk) (U : list nat) : Prop :=
  length (v_free v) = NUM ∧ ∀ i, (i < NUM)%nat → v_free v !! i = Some (bool_decide (i ∉ U)).
Lemma used_take v i U : used_by v U → (i < NUM)%nat → used_by (set_free i false v) (i :: U).
Proof.
  intros [Hl H] Hi. split; [cbn; by rewrite length_insert|]. intros j Hj. cbn. destruct (decide (j = i)) as [->|Hne].
  - rewrite list_lookup_insert_eq by lia. rewrite bool_decide_false; [done|]. set_solver.
  - rewrite list_lookup_insert_ne, H by done. f_equal. apply bool_decide_ext. set_solver.
Qed.
Lemma used_drop v i U : used_by v (i :: U) → i ∉ U → (i < NUM)%nat → used_by (set_free i true v) U.
Proof.
  intros [Hl H] Hn Hi. split; [cbn; by rewrite length_insert|]. intros j Hj. cbn. destruct (decide (j = i)) as [->|Hne].
  - rewrite list_lookup_insert_eq by lia. by rewrite bool_decide_true.
  - rewrite list_lookup_insert_ne, H by done. f_equal. apply bool_decide_ext. set_solver.
Qed.
Lemma used_perm v U U' : U ≡ₚ U' → used_by v U → used_by v U'.
Proof. intros P [Hl H]. split; [done|]. intros i Hi. rewrite H by done. f_equal. apply bool_decide_ext. by rewrite P. Qed.
Lemma used_eq v v' U : v_free v' = v_free v → used_by v U → used_by v' U.
Proof. unfold used_by. by intros ->. Qed.

Lemma desc_loop_spec n m v bs U : used_by v U → (n ≤ NUM)%nat →
  (∃ i, desc_loop n (m, (v, bs)) = Ok (Some i) (m, (set_free i false v, bs)) ∧ i ∉ U ∧ (i < NUM)%nat) ∨
  (desc_loop n (m, (v, bs)) = Ok None (m, (v, bs)) ∧ ∀ i, (NUM - n ≤ i < NUM)%nat → i ∈ U).
Proof.
  intros HU. induction n as [|n IH]; intros Hn; [right; split; [done|lia]|]. cbn [desc_loop].
  rewrite (bind_deref _ _ _ (bool_decide ((NUM - S n)%nat ∉ U))) by (apply HU; lia).
  destruct (bool_decide_reflect ((NUM - S n)%nat ∉ U)) as [Hi|Hi].
  - left. eexists. split; [done|]. split; [done|lia].
  - destruct (IH ltac:(lia)) as [?|[E Hall]]; [by left|]. right. split; [done|]. intros i Hi2.
    destruct (decide (i = (NUM - S n)%nat)) as [->|]; [by apply dec_stable|]. apply Hall. lia.
Qed.
Lemma full_length U : (∀ i, (i < NUM)%nat → i ∈ U) → (NUM ≤ length U)%nat.
Proof.
  intros H. transitivity (length (seq 0 NUM)); [by rewrite length_seq|].
  apply submseteq_length, NoDup_submseteq; [apply NoDup_seq|].
  intros i Hi. apply H. apply elem_of_seq in Hi. lia.
Qed.
Lemma alloc_desc_spec m v bs U : used_by v U →
  (∃ i, alloc_desc (m, (v, bs)) = Ok (Some i) (m, (set_free i false v, bs)) ∧ i ∉ U ∧ (i < NUM)%nat) ∨
  (alloc_desc (m, (v, bs)) = Ok None (m, (v, bs)) ∧ (NUM ≤ length U)%nat).
Proof.
  intros HU. destruct (desc_loop_spec NUM m v bs U HU (le_n _)) as [?|[E H]]; [by left|right].
  split; [done|]. apply full_length. intros i Hi. apply H. lia.
Qed.

(** The machine outside the critical section of a driver routine. *)
Definition calm (m : mach) : Prop := quiet m ∧ length (m_tasks m) = NPROC.
Definition woken (ch : chan) (m : mach) : mach := set_tasks (imap (wake_at ch (mytask m))) m.
Lemma woken_calm ch m : calm m → calm (woken ch m).
Proof. intros [Hq Hl]. split; [done|]. cbn. by rewrite length_imap. Qed.
Lemma wakeup_vdisk ch m x : calm m → onv (wakeup ch) (acq L_vdisk m, x) = Ok tt (acq L_vdisk (woken ch m), x).
Proof. intros [Hq Hl]. unfold onv, onm, zoom. cbn [fst]. by rewrite wakeup_inside. Qed.
Lemma put_vdisk m x : quiet m → onv (spin_put L_vdisk) (acq L_vdisk m, x) = Ok tt (touch m, x).
Proof.
  intros Hq. unfold onv, onm, zoom. cbn [fst]. rewrite spin_put_held by apply acq_held.
  rewrite rel_acq; [done|by apply quiet_wf|by apply quiet_free].
Qed.
Lemma get_vdisk m x : quiet m → onv (spin_get L_vdisk) (m, x) = Ok tt (acq L_vdisk m, x).
Proof. intros Hq. unfold onv, onm, zoom. cbn [fst]. by rewrite spin_get_free by (by apply quiet_free). Qed.
#[local] Hint Resolve woken_calm : core.

Definition freed (i : nat) (v : vdisk) : vdisk := set_free i true (set_desc i desc0 v).
Lemma freed_used v i U : used_by v (i :: U) → i ∉ U → (i < NUM)%nat → used_by (freed i v) U.
Proof. intros. apply used_drop; [|done..]. by apply (used_eq v). Qed.
Lemma free_desc_spec i m v bs U : calm m → used_by v (i :: U) → (i < NUM)%nat →
  free_desc i (acq L_vdisk m, (v, bs)) = Ok tt (acq L_vdisk (woken ChDiskFree m), (freed i v, bs)).
Proof.
  intros Hm [Hl H] Hi. unfold free_desc. rewrite (proj2 (Nat.leb_gt _ _)) by done.
  rewrite (bind_deref _ _ _ false). 2: { cbn. rewrite H by done. rewrite bool_decide_false; [done|set_solver]. }
  unfold mod_disk. go. cbn [fst snd]. by rewrite wakeup_vdisk.
Qed.

(** Only descriptors outside [U] differ, beside the flags [free]. *)
Record same_but (U : list nat) (v v' : vdisk) : Prop := {
  sb_avail : v_avail v' = v_avail v;
  sb_used : v_used v' = v_used v;
  sb_idx : v_used_idx v' = v_used_idx v;
  sb_info : v_info v' = v_info v;
  sb_ops : v_ops v' = v_ops v;
  sb_mmio : v_mmio v' = v_mmio v;
  sb_len : length (v_desc v') = length (v_desc v);
  sb_desc i : i ∈ U → v_desc v' !! i = v_desc v !! i;
}.
Lemma same_but_refl U v : same_but U v v.
Proof. done. Qed.
Lemma same_but_trans U v1 v2 v3 : same_but U v1 v2 → same_but U v2 v3 → same_but U v1 v3.
Proof.
  intros H1 H2. split; [etrans; [apply H2|apply H1]..|].
  intros i Hi. by rewrite (sb_desc _ _ _ H2), (sb_desc _ _ _ H1).
Qed.
Lemma same_but_free U v i b : same_but U v (set_free i b v).
Proof. done. Qed.
Lemma same_but_freed U v i : i ∉ U → same_but U v (freed i v).
Proof. intros Hi. split; cbn; [done..|by rewrite length_insert|]. intros j Hj. apply list_lookup_insert_ne. by intros ->. Qed.

Lemma free_descs_spec l m v bs U : calm m → used_by v (l ++ U) → NoDup (l ++ U) → Forall (λ i, (i < NUM)%nat) l →
  ∃ m' v', free_descs l (acq L_vdisk m, (v, bs)) = Ok tt (acq L_vdisk m', (v', bs)) ∧
    calm m' ∧ mytask m' = mytask m ∧ used_by v' U ∧ same_but U v v'.
Proof.
  revert m v. induction l as [|i l IH]; intros m v Hm HU Hnd Hlt.
  { exists m, v. split_and!; done. }
  cbn [app free_descs] in *. apply NoDup_cons in Hnd as [Hi Hnd]. apply Forall_cons in Hlt as [Hil Hlt].
  run (free_desc_spec i m v bs (l ++ U) Hm HU Hil).
  destruct (IH (woken ChDiskFree m) (freed i v)) as (m' & v' & E & Hm' & Ht & HU' & Hs); [auto|by apply freed_used|done..|].
  exists m', v'. split_and!; [done..|]. eapply same_but_trans; [|exact Hs]. apply same_but_freed. set_solver.
Qed.

Lemma alloc_n_spec n l m v bs U : calm m → used_by v (l ++ U) → NoDup (l ++ U) → Forall (λ i, (i < NUM)%nat) l →
  (∃ l' v', alloc_n n l (acq L_vdisk m, (v, bs)) = Ok (Some (l ++ l')) (acq L_vdisk m, (v', bs)) ∧ length l' = n ∧
     used_by v' (l ++ l' ++ U) ∧ NoDup (l ++ l' ++ U) ∧ Forall (λ i, (i < NUM)%nat) (l ++ l') ∧ same_but U v v' ∧ v_desc v' = v_desc v) ∨
  (∃ m' v', alloc_n n l (acq L_vdisk m, (v, bs)) = Ok None (acq L_vdisk m', (v', bs)) ∧
     calm m' ∧ mytask m' = mytask m ∧ used_by v' U ∧ same_but U v v' ∧ (NUM < length l + n + length U)%nat).
Proof.
  revert l v. induction n as [|n IH]; intros l v Hm HU Hnd Hlt.
  { left. exists [], v. rewrite app_nil_r. split_and!; done. }
  cbn [alloc_n]. destruct (alloc_desc_spec (acq L_vdisk m) v bs _ HU) as [(i & E & Hi & Hin)|[E Hfull]]; run E.
  - assert (P : i :: l ++ U ≡ₚ (l ++ [i]) ++ U) by (rewrite <- app_assoc; apply Permutation_middle).
    destruct (IH (l ++ [i]) (set_free i false v)) as [(l' & v' & E2 & Hl & H1 & H2 & H3 & H4 & H5)|(m' & v' & E2 & H1 & H2 & H3 & H4 & H5)].
    + done.
    + eapply used_perm; [exact P|]. by apply used_take.
    + rewrite <- P. by constructor.
    + apply Forall_app. split; [done|by apply Forall_singleton].
    + left. exists (i :: l'), v'. rewrite <- !app_assoc in *. cbn in *. split_and!; [done|by rewrite Hl|done..| |done].
      by eapply same_but_trans; [apply (same_but_free U v i false)|].
    + right. exists m', v'. rewrite length_app in H5. cbn in H5. split_and!; [done..| |lia].
      by eapply same_but_trans; [apply (same_but_free U v i false)|].
  - right. destruct (free_descs_spec l m v bs U Hm HU Hnd Hlt) as (m' & v' & E2 & H1 & H2 & H3 & H4). run E2.
    exists m', v'. rewrite length_app in Hfull. split_and!; [done..|lia].
Qed.
Lemma alloc3_spec m v bs U : calm m → used_by v U → NoDup U →
  (∃ i0 i1 i2 v', alloc3_desc (acq L_vdisk m, (v, bs)) = Ok (Some [i0; i1; i2]) (acq L_vdisk m, (v', bs)) ∧
     used_by v' ([i0; i1; i2] ++ U) ∧ NoDup ([i0; i1; i2] ++ U) ∧ Forall (λ i, (i < NUM)%nat) [i0; i1; i2] ∧ same_but U v v' ∧ v_desc v' = v_desc v) ∨
  (∃ m' v', alloc3_desc (acq L_vdisk m, (v, bs)) = Ok None (acq L_vdisk m', (v', bs)) ∧
     calm m' ∧ mytask m' = mytask m ∧ used_by v' U ∧ same_but U v v' ∧ (NUM < 3 + length U)%nat).
Proof.
  intros Hm HU Hnd. destruct (alloc_n_spec 3 [] m v bs U Hm HU Hnd) as [(l' & v' & E & Hl & H)|(m' & v' & H)]; [done| |].
  - left. destruct l' as [|i0 [|i1 [|i2 [|]]]]; try discriminate Hl. exists i0, i1, i2, v'. split; [exact E|exact H].
  - right. by exists m', v'.
Qed.

(** ** A transfer *)

(** The locals of a call of [virtio_disk_rw] whose request the device may see. *)
Record req := MkReq { q_b : nat; q_write : bool; q_n : Z; q_h : nat; q_1 : nat; q_2 : nat }.
Definition descs (r : req) : list nat := [q_h r; q_1 r; q_2 r].
Definition op_of (r : req) : virtio_blk_req :=
  MkOp (if q_write r then VIRTIO_BLK_T_OUT else VIRTIO_BLK_T_IN) 0 (sector_of (q_n r)).
Definition flags_of (r : req) : Z := Z.lor (if q_write r then 0 else VRING_DESC_F_WRITE) VRING_DESC_F_NEXT.

(** What the driver has written for request [r]. *)
Record chained (v : vdisk) (r : req) : Prop := {
  fm_0 : v_desc v !! q_h r = Some (MkDesc (A_op (q_h r)) 16 VRING_DESC_F_NEXT (q_1 r));
  fm_1 : v_desc v !! q_1 r = Some (MkDesc (A_data (q_b r)) (Z.of_nat BSIZE) (flags_of r) (q_2 r));
  fm_2 : v_desc v !! q_2 r = Some (MkDesc (A_status (q_h r)) 1 VRING_DESC_F_WRITE 0);
}.
Lemma chained_eq v v' r : v_desc v' = v_desc v → chained v r → chained v' r.
Proof. intros E [F0 F1 F2]. by split; rewrite E. Qed.
Record formatted (v : vdisk) (r : req) : Prop := {
  fm_chain : chained v r;
  fm_op : v_ops v !! q_h r = Some (op_of r);
  fm_info : ∃ st, v_info v !! q_h r = Some (Some (q_b r), st);
}.
Record lens (v : vdisk) : Prop := {
  ln_desc : length (v_desc v) = NUM;
  ln_info : length (v_info v) = NUM;
  ln_ops : length (v_ops v) = NUM;
}.
(** The state behind [submit]. *)
Definition submitted (r : req) (v : vdisk) : vdisk :=
  MkVdisk (<[q_2 r := MkDesc (A_status (q_h r)) 1 VRING_DESC_F_WRITE 0]>
      (<[q_1 r := MkDesc (A_data (q_b r)) (Z.of_nat BSIZE) (flags_of r) (q_2 r)]>
      (<[q_h r := MkDesc (A_op (q_h r)) 16 VRING_DESC_F_NEXT (q_1 r)]> (v_desc v))))
    (MkRing (u16 (r_idx (v_avail v) + 1)) (<[slot_of (r_idx (v_avail v)) := q_h r]> (r_ring (v_avail v))))
    (v_used v) (v_free v) (v_used_idx v) (<[q_h r := (Some (q_b r), 255)]> (v_info v)) (<[q_h r := op_of r]> (v_ops v))
    (MkMmio true (mm_status (v_mmio v))).

Lemma vdisk_eq v v' : v_desc v = v_desc v' → v_avail v = v_avail v' → v_used v = v_used v' → v_free v = v_free v' →
  v_used_idx v = v_used_idx v' → v_info v = v_info v' → v_ops v = v_ops v' → v_mmio v = v_mmio v' → v = v'.
Proof. destruct v, v'. cbn. by intros -> -> -> -> -> -> -> ->. Qed.
Lemma submit_spec r m v bs bf : lens v → Forall (λ i, (i < NUM)%nat) (descs r) → bs !! q_b r = Some bf →
  submit (q_b r) (q_write r) (sector_of (q_n r)) (q_h r) (q_1 r) (q_2 r) (m, (v, bs)) =
    Ok tt (m, (submitted r v, <[q_b r := set_vb_disk true bf]> bs)).
Proof.
  intros [L1 L2 L3] Hlt Hb. apply Forall_cons in Hlt as [H0 _]. unfold submit, queue_notify, mod_disk. go. cbn [fst snd].
  destruct (lookup_lt_is_Some_2 (v_info v) (q_h r)) as [inf Einf]; [lia|].
  rewrite (bind_deref _ _ _ inf) by done. go. unfold mod_buf. rewrite bind_assoc, (bind_deref _ _ _ bf) by done. go. unfold modify. cbn [fst snd].
  rewrite (list_alter_insert _ _ _ bf) by done. do 3 f_equal. apply vdisk_eq; cbn; [done..| |done|done].
  by rewrite list_insert_insert_eq.
Qed.
Lemma submitted_formatted r v : lens v → Forall (λ i, (i < NUM)%nat) (descs r) → NoDup (descs r) → formatted (submitted r v) r.
Proof.
  intros [L1 L2 L3] Hlt Hnd. unfold descs in *. rewrite !Forall_cons in Hlt. destruct Hlt as (H0 & H1 & H2 & _).
  assert (q_h r ≠ q_1 r ∧ q_h r ≠ q_2 r ∧ q_1 r ≠ q_2 r) as (N1 & N2 & N3)
    by (rewrite !NoDup_cons in Hnd; set_solver).
  split; [split|..]; cbn.
  - rewrite !list_lookup_insert_ne by done. apply list_lookup_insert_eq. lia.
  - rewrite list_lookup_insert_ne by done. apply list_lookup_insert_eq. rewrite length_insert. lia.
  - apply list_lookup_insert_eq. rewrite !length_insert. lia.
  - apply list_lookup_insert_eq. lia.
  - eexists. apply list_lookup_insert_eq. lia.
Qed.
Lemma submitted_lens r v : lens v → lens (submitted r v).
Proof. intros []. split; cbn; by rewrite ?length_insert. Qed.
Lemma descs_in r : q_h r ∈ descs r ∧ q_1 r ∈ descs r ∧ q_2 r ∈ descs r.
Proof. unfold descs. set_solver. Qed.
Lemma submitted_other r r' v : formatted v r' → (∀ i, i ∈ descs r → i ∉ descs r') → formatted (submitted r v) r'.
Proof.
  intros [[F0 F1 F2] F3 F4] Hd. assert (Hne : ∀ i j, i ∈ descs r → j ∈ descs r' → i ≠ j) by (intros i j Hi Hj ->; by apply (Hd j)).
  split; [split|..]; cbn; rewrite ?list_lookup_insert_ne; try done; apply Hne; apply descs_in.
Qed.

Definition released (r : req) (v : vdisk) : vdisk := freed (q_2 r) (freed (q_1 r) (freed (q_h r) v)).
Definition woken3 (m : mach) : mach := woken ChDiskFree (woken ChDiskFree (woken ChDiskFree m)).
Lemma flags_next r : negb (Z.land (flags_of r) VRING_DESC_F_NEXT =? 0) = true.
Proof. unfold flags_of. by destruct (q_write r). Qed.
Lemma released_used r v U : used_by v (descs r ++ U) → NoDup (descs r ++ U) → Forall (λ i, (i < NUM)%nat) (descs r) → used_by (released r v) U.
Proof.
  intros HU Hnd Hlt. unfold descs in *. cbn in *. rewrite !NoDup_cons in Hnd. rewrite !Forall_cons in Hlt.
  destruct Hnd as (N0 & N1 & N2 & _), Hlt as (L0 & L1 & L2 & _). by repeat (apply freed_used; try done).
Qed.
Lemma free_chain_spec r m v bs U : calm m → used_by v (descs r ++ U) → NoDup (descs r ++ U) →
  Forall (λ i, (i < NUM)%nat) (descs r) → chained v r →
  free_chain (q_h r) (acq L_vdisk m, (v, bs)) = Ok tt (acq L_vdisk (woken3 m), (released r v, bs)).
Proof.
  intros Hm HU Hnd Hlt [F0 F1 F2]. unfold descs in *. cbn in HU, Hnd. rewrite !NoDup_cons in Hnd. rewrite !Forall_cons in Hlt.
  destruct Hnd as (N0 & N1 & N2 & _), Hlt as (L0 & L1 & L2 & _).
  assert (HU1 : used_by (freed (q_h r) v) (q_1 r :: q_2 r :: U)) by (by apply freed_used).
  assert (HU2 : used_by (freed (q_1 r) (freed (q_h r) v)) (q_2 r :: U)) by (by apply freed_used).
  unfold free_chain. change (S NUM) with 9%nat. cbn [chain_loop].
  rewrite (bind_deref _ _ _ _) by exact F0. run (free_desc_spec (q_h r) m v bs _ Hm HU L0). cbn [d_flags d_next].
  change (negb (Z.land VRING_DESC_F_NEXT VRING_DESC_F_NEXT =? 0)) with true. cbn iota.
  rewrite (bind_deref _ _ _ (MkDesc (A_data (q_b r)) (Z.of_nat BSIZE) (flags_of r) (q_2 r))).
  2: { cbn. rewrite list_lookup_insert_ne; [done|set_solver]. }
  run (free_desc_spec (q_1 r) _ _ bs _ (woken_calm ChDiskFree m Hm) HU1 L1). cbn [d_flags d_next]. rewrite flags_next.
  rewrite (bind_deref _ _ _ (MkDesc (A_status (q_h r)) 1 VRING_DESC_F_WRITE 0)).
  2: { cbn. rewrite !list_lookup_insert_ne; [done|set_solver..]. }
  run (free_desc_spec (q_2 r) _ _ bs _ (woken_calm ChDiskFree _ (woken_calm ChDiskFree m Hm)) HU2 L2). done.
Qed.
Lemma rw_finish_done r m v bs bf U st : calm m → used_by v (descs r ++ U) → NoDup (descs r ++ U) →
  Forall (λ i, (i < NUM)%nat) (descs r) → chained v r → v_info v !! q_h r = Some (Some (q_b r), st) →
  bs !! q_b r = Some bf → vb_disk bf = false →
  rw_finish (q_b r) (q_h r) (acq L_vdisk m, (v, bs)) =
    Ok (inr tt) (touch (woken3 m), (released r (set_info (q_h r) (None, st) v), bs)).
Proof.
  intros Hm HU Hnd Hlt F Hst Hb Hd. unfold rw_finish. rewrite (bind_deref _ _ _ bf) by done. rewrite Hd.
  rewrite (bind_deref _ _ _ _) by exact Hst. unfold mod_disk. go. cbn [fst snd].

  run (free_chain_spec r m (set_info (q_h r) (None, st) v) bs U Hm HU Hnd Hlt (chained_eq v (set_info (q_h r) (None, st) v) r eq_refl F)).
  unfold bind. rewrite put_vdisk; [done|]. by destruct Hm.
Qed.
Lemma rw_finish_wait m v bs b h bf t : can_sleep m → mytask m = Some t → (t < NPROC)%nat → bs !! b = Some bf → vb_disk bf = true →
  ∃ m', rw_finish b h (acq L_vdisk m, (v, bs)) = Ok (inl (WaitDone h)) (m', (v, bs)) ∧
    m_tasks m' = <[t := MkTsk SLEEP (Some (ChBuf b))]> (m_tasks m).
Proof.
  intros Hm Ht Htn Hb Hd. unfold rw_finish. rewrite (bind_deref _ _ _ bf) by done. rewrite Hd.
  destruct (sleep_enter_spec (ChBuf b) L_vdisk m t Hm Ht Htn) as (m' & E & Hts & _); [done|]. exists m'. split; [|done].
  unfold onv, onm, zoom, bind. cbn [fst]. by rewrite E.
Qed.

(** ** The device *)

(** The device has taken the available entries before [dv_seen]; it has not finished
    the chains [dv_taken].  [dv_bytes] is what is on the disk. *)
Record dev := MkDev { dv_seen : Z; dv_taken : list nat; dv_bytes : Z → Z }.
Definition world : Type := dev * vdisk * list vbuf.
(** A request as the device finds it in memory. *)
Record dreq := MkDreq { dr_write : bool; dr_sector : Z; dr_len : Z; dr_buf : nat; dr_status : nat }.
Definition has (flags f : Z) : bool := negb (Z.land flags f =? 0).
(** Chapter 5.2.6 of the specification: a header the device reads, data, and a status
    byte the device writes. *)
Definition chain_of (v : vdisk) (h : nat) : option dreq :=
  d0 ← v_desc v !! h; d1 ← v_desc v !! d_next d0; d2 ← v_desc v !! d_next d1;
  match d_addr d0, d_addr d1, d_addr d2 with
  | A_op o, A_data b, A_status st =>
    op ← v_ops v !! o;
    if has (d_flags d0) VRING_DESC_F_NEXT && negb (has (d_flags d0) VRING_DESC_F_WRITE) && (d_len d0 =? 16)
       && has (d_flags d1) VRING_DESC_F_NEXT
       && negb (has (d_flags d2) VRING_DESC_F_NEXT) && has (d_flags d2) VRING_DESC_F_WRITE && (d_len d2 =? 1)
    then
      if (op_type op =? VIRTIO_BLK_T_OUT) && negb (has (d_flags d1) VRING_DESC_F_WRITE) then
        Some (MkDreq true (op_sector op) (d_len d1) b st)
      else if (op_type op =? VIRTIO_BLK_T_IN) && has (d_flags d1) VRING_DESC_F_WRITE then
        Some (MkDreq false (op_sector op) (d_len d1) b st)
      else None
    else None
  | _, _, _ => None
  end.
Definition bytes_read (dk : Z → Z) (off : Z) (n : nat) : list Z := (λ k, dk (off + Z.of_nat k)) <$> seq 0 n.
Definition bytes_written (dk : Z → Z) (off : Z) (d : list Z) : Z → Z := λ a,
  if decide (off ≤ a < off + Z.of_nat (length d)) then default 0 (d !! Z.to_nat (a - off)) else dk a.

(** A device that was notified takes the next available chain; when there is none, it
    waits for the next notification. *)
Definition dev_take (w : world) : option world :=
  let '(dv, v, bs) := w in
  if negb (mm_notified (v_mmio v)) then None else
  if dv_seen dv =? r_idx (v_avail v) then Some (dv, set_mmio (MkMmio false (mm_status (v_mmio v))) v, bs) else
  h ← r_ring (v_avail v) !! slot_of (dv_seen dv);
  Some (MkDev (u16 (dv_seen dv + 1)) (dv_taken dv ++ [h]) (dv_bytes dv), v, bs).
(** The device serves the request of chain [h], stores the status 0, adds the chain to
    the used ring and raises the interrupt. *)
Definition dev_serve (h : nat) (r : dreq) (w : world) : world :=
  let '(dv, v, bs) := w in
  let off := dr_sector r * 512 in
  let n := Z.to_nat (dr_len r) in
  let data := default [] (vb_data <$> bs !! dr_buf r) in
  (MkDev (dv_seen dv) (filter (λ x, x ≠ h) (dv_taken dv))
     (if dr_write r then bytes_written (dv_bytes dv) off (take n data) else dv_bytes dv),
   set_mmio (MkMmio (mm_notified (v_mmio v)) (Z.lor (mm_status (v_mmio v)) 1))
     (set_used (MkRing (u16 (r_idx (v_used v) + 1)) (<[slot_of (r_idx (v_used v)) := h]> (r_ring (v_used v))))
     (set_info (dr_status r) (default None (fst <$> v_info v !! dr_status r), 0) v)),
   if dr_write r then bs
   else alter (λ b, MkVbuf (vb_blockno b) (vb_disk b) (bytes_read (dv_bytes dv) off n)) (dr_buf r) bs).

(** A device that follows the specification and has no errors: what it does with a
    chain that is not a request is left open. *)
Class VirtioDevice := {
  dev_step : world → world → Prop;
  dev_step_spec w w' : dev_step w w' → dev_take w = Some w' ∨
    ∃ h, h ∈ dv_taken w.1.1 ∧ ∀ r, chain_of w.1.2 h = Some r → w' = dev_serve h r w;
}.

(** The block [n] of the disk. *)
Definition dblock (dk : Z → Z) (n : Z) : list Z := bytes_read dk (n * Z.of_nat BSIZE) BSIZE.
Lemma dblock_len dk n : length (dblock dk n) = BSIZE.
Proof. unfold dblock, bytes_read. by rewrite length_fmap, length_seq. Qed.
Lemma sector_bytes n : blk n → sector_of n * 512 = n * Z.of_nat BSIZE.
Proof. intros [H1 H2]. unfold sector_of. change (Z.of_nat BSIZE) with 1024. change (1024 / 512) with 2. rewrite u32_id; lia. Qed.
Lemma dblock_written dk n n' d : length d = BSIZE →
  dblock (bytes_written dk (n * Z.of_nat BSIZE) d) n' = if decide (n' = n) then d else dblock dk n'.
Proof.
  intros Hd. unfold dblock, bytes_read. case_decide as E.
  - subst n'. apply list_eq. intros k. rewrite list_lookup_fmap. destruct (decide (k < BSIZE)%nat) as [Hk|Hk].
    + rewrite lookup_seq_lt by done. cbn. unfold bytes_written. rewrite decide_True by lia.
      replace (Z.to_nat _) with k by lia. destruct (lookup_lt_is_Some_2 d k) as [x ->]; [lia|done].
    + rewrite lookup_seq_ge, lookup_ge_None_2 by lia. done.
  - apply list_fmap_ext. intros i k Hk. apply lookup_seq in Hk as [-> Hk]. unfold bytes_written. rewrite decide_False; [done|].
    rewrite Hd. change (Z.of_nat BSIZE) with 1024. assert ((0 + i < 1024)%nat) by (exact Hk). nia.
Qed.

(** ** The protocol

    A call of [virtio_disk_rw] that waits for the device is its buffer, direction and
    first descriptor.  The driver steps run from the moment they have the lock. *)
Definition call : Type := nat * bool * nat.
Definition vsys : Type := world * list call.
(** A transfer of block [n] starts ([Some d]: it writes [d]); a transfer of block [n]
    ends, with [d] in the buffer. *)
Inductive vevent := EvStart (n : Z) (wr : option (list Z)) | EvDone (n : Z) (d : list Z).

Section protocol.
Context {VD : VirtioDevice}.

(** No transfer of block [n] is under way: the buffer cache has one buffer for a
    block, and it is locked during a transfer. *)
Definition no_transfer (n : Z) (bs : list vbuf) (calls : list call) : Prop :=
  ∀ c cb, c ∈ calls → bs !! c.1.1 = Some cb → vb_blockno cb ≠ n.
Inductive vstep : option vevent → vsys → vsys → Prop :=
| vs_start dv v bs calls m t b w bf h m' v' bs' :
    can_sleep m → mytask m = Some t → (t < NPROC)%nat → bs !! b = Some bf → blk (vb_blockno bf) →
    length (vb_data bf) = BSIZE → no_transfer (vb_blockno bf) bs calls →
    rw_try b w (sector_of (vb_blockno bf)) (acq L_vdisk m, (v, bs)) = Ok (inl (WaitDone h)) (m', (v', bs')) →
    vstep (Some (EvStart (vb_blockno bf) (if w then Some (vb_data bf) else None)))
      ((dv, v, bs), calls) ((dv, v', bs'), (b, w, h) :: calls)
| vs_full dv v bs calls m t b w bf m' v' bs' :
    can_sleep m → mytask m = Some t → (t < NPROC)%nat → bs !! b = Some bf → blk (vb_blockno bf) →
    length (vb_data bf) = BSIZE → no_transfer (vb_blockno bf) bs calls →
    rw_try b w (sector_of (vb_blockno bf)) (acq L_vdisk m, (v, bs)) = Ok (inl WaitFree) (m', (v', bs')) →
    vstep None ((dv, v, bs), calls) ((dv, v', bs'), calls)
| vs_device w w' calls : dev_step w w' → vstep None (w, calls) (w', calls)
| vs_intr dv v bs calls m m' v' bs' : calm m → virtio_disk_intr (m, (v, bs)) = Ok tt (m', (v', bs')) →
    vstep None ((dv, v, bs), calls) ((dv, v', bs'), calls)
| vs_again dv v bs calls m t b w h x m' v' bs' :
    can_sleep m → mytask m = Some t → (t < NPROC)%nat → (b, w, h) ∈ calls →
    rw_finish b h (acq L_vdisk m, (v, bs)) = Ok (inl x) (m', (v', bs')) →
    vstep None ((dv, v, bs), calls) ((dv, v', bs'), calls)
| vs_done dv v bs calls m k b w h bf m' v' bs' :
    can_sleep m → calls !! k = Some (b, w, h) →
    rw_finish b h (acq L_vdisk m, (v, bs)) = Ok (inr tt) (m', (v', bs')) → bs' !! b = Some bf →
    vstep (Some (EvDone (vb_blockno bf) (vb_data bf))) ((dv, v, bs), calls) ((dv, v', bs'), delete k calls)
| vs_kernel dv v bs calls b bf :
    (∀ c, c ∈ calls → c.1.1 ≠ b) → vstep None ((dv, v, bs), calls) ((dv, v, <[b := bf]> bs), calls).
Inductive vsteps : list vevent → vsys → vsys → Prop :=
| vss_nil s : vsteps [] s s
| vss_cons e es s1 s2 s3 : vstep e s1 s2 → vsteps es s2 s3 → vsteps (option_list e ++ es) s1 s3.

(** The specification: a disk on which transfers take place at once. *)
Inductive disk_run : (Z → list Z) → list vevent → (Z → list Z) → Prop :=
| dk_nil A : disk_run A [] A
| dk_read A n es A' : disk_run A es A' → disk_run A (EvStart n None :: es) A'
| dk_write A n d es A' : disk_run (λ k, if decide (k = n) then d else A k) es A' →
    disk_run A (EvStart n (Some d) :: es) A'
| dk_done A n d es A' : A n = d → disk_run A es A' → disk_run A (EvDone n d :: es) A'.

(** *** The invariant *)

Definition served (A : Z → list Z) (dk : Z → Z) (Sv : list nat) (r : req) (d : list Z) : Prop :=
  if decide (q_h r ∈ Sv) then d = A (q_n r) ∧ dblock dk (q_n r) = A (q_n r)
  else if q_write r then d = A (q_n r) else dblock dk (q_n r) = A (q_n r).
Record req_ok (A : Z → list Z) (v : vdisk) (bs : list vbuf) (dk : Z → Z) (Qu Dn : list nat) (r : req) : Prop := {
  ro_fmt : formatted v r;
  ro_blk : blk (q_n r);
  ro_buf : ∃ bf, bs !! q_b r = Some bf ∧ vb_blockno bf = q_n r ∧ length (vb_data bf) = BSIZE ∧
    vb_disk bf = bool_decide (q_h r ∉ Dn) ∧ served A dk (Qu ++ Dn) r (vb_data bf);
  ro_status : q_h r ∈ Qu → v_info v !! q_h r = Some (Some (q_b r), 0);
}.
(** [G] are the requests, [Qa] those the device has not seen, [Qu] those the interrupt
    handler has not seen, [Dn] those it has; [A] is the disk of the specification. *)
Record vinv (A : Z → list Z) (G : list req) (Qa Qu Dn : list nat) (dv : dev) (v : vdisk) (bs : list vbuf) : Prop := {
  vi_lens : lens v;
  vi_used : used_by v (G ≫= descs);
  vi_nodup : NoDup (G ≫= descs);
  vi_lt : Forall (λ i, (i < NUM)%nat) (G ≫= descs);
  vi_phase : q_h <$> G ≡ₚ Qa ++ dv_taken dv ++ Qu ++ Dn;
  vi_avail : queued (v_avail v) (dv_seen dv) Qa;
  vi_usedq : queued (v_used v) (v_used_idx v) Qu;
  vi_blocks : NoDup (q_n <$> G);
  vi_bufs : NoDup (q_b <$> G);
  vi_reqs r : r ∈ G → req_ok A v bs (dv_bytes dv) Qu Dn r;
  vi_notify : Qa ≠ [] → mm_notified (v_mmio v) = true;
  vi_disk n : blk n → (∀ r, r ∈ G → q_n r = n → q_write r = true → q_h r ∈ Qu ++ Dn) → dblock (dv_bytes dv) n = A n;
}.
#[global] Arguments vi_lens {_ _ _ _ _ _ _ _} _.
#[global] Arguments vi_used {_ _ _ _ _ _ _ _} _.
#[global] Arguments vi_nodup {_ _ _ _ _ _ _ _} _.
#[global] Arguments vi_lt {_ _ _ _ _ _ _ _} _.
#[global] Arguments vi_phase {_ _ _ _ _ _ _ _} _.
#[global] Arguments vi_avail {_ _ _ _ _ _ _ _} _.
#[global] Arguments vi_usedq {_ _ _ _ _ _ _ _} _.
#[global] Arguments vi_blocks {_ _ _ _ _ _ _ _} _.
#[global] Arguments vi_bufs {_ _ _ _ _ _ _ _} _.
#[global] Arguments vi_reqs {_ _ _ _ _ _ _ _} _ _ _.
#[global] Arguments vi_notify {_ _ _ _ _ _ _ _} _ _.
#[global] Arguments vi_disk {_ _ _ _ _ _ _ _} _ _ _ _.
(** The interrupt is raised while the handler has not seen all the device has served;
    the handler takes it back first. *)
Definition irq_ok (Qu : list nat) (v : vdisk) : Prop := Qu ≠ [] → Z.testbit (mm_status (v_mmio v)) 0 = true.
Definition call_of (r : req) : call := (q_b r, q_write r, q_h r).

Lemma descs_length (G : list req) : length (G ≫= descs) = (3 * length G)%nat.
Proof. induction G as [|r G IH]; [done|]. rewrite bind_cons, length_app, IH. cbn. lia. Qed.
Lemma lt_length (l : list nat) : NoDup l → Forall (λ i, (i < NUM)%nat) l → (length l ≤ NUM)%nat.
Proof.
  intros Hnd Hlt. transitivity (length (seq 0 NUM)); [|by rewrite length_seq].
  apply submseteq_length, NoDup_submseteq; [done|]. intros i Hi. rewrite Forall_forall in Hlt. apply elem_of_seq. specialize (Hlt i Hi). lia.
Qed.
Lemma heads_sub (G : list req) : NoDup (G ≫= descs) → NoDup (q_h <$> G).
Proof.
  induction G as [|r G IH]; [constructor|]. rewrite bind_cons, NoDup_app. intros (_ & Hd & HG). cbn. constructor; [|by apply IH].
  intros Hin. apply list_elem_of_fmap in Hin as (r' & E & Hr'). apply (Hd (q_h r)); [apply descs_in|].
  apply list_elem_of_bind. exists r'. split; [rewrite E; apply descs_in|done].
Qed.
Lemma fmap_inj_in {B} (f : req → B) (G : list req) r r' : NoDup (f <$> G) → r ∈ G → r' ∈ G → f r = f r' → r = r'.
Proof.
  intros Hnd Hr Hr' E. apply list_elem_of_lookup in Hr as [i Hi], Hr' as [j Hj].
  assert (i = j) as ->; [|congruence]. apply (NoDup_lookup _ i j (f r) Hnd); rewrite list_lookup_fmap, ?Hi, ?Hj; cbn; by rewrite ?E.
Qed.
Lemma descs_elem r (G : list req) i : r ∈ G → i ∈ descs r → i ∈ G ≫= descs.
Proof. intros Hr Hi. apply list_elem_of_bind. by exists r. Qed.

Section inv_facts.
Context {A G Qa Qu Dn dv v bs} (I : vinv A G Qa Qu Dn dv v bs).

Lemma inv_few : (length G ≤ 2)%nat.
Proof. pose proof (lt_length _ (vi_nodup I) (vi_lt I)) as H. rewrite descs_length in H. unfold NUM in H. lia. Qed.
Lemma inv_heads : NoDup (Qa ++ dv_taken dv ++ Qu ++ Dn).
Proof. rewrite <- (vi_phase I). apply heads_sub, I. Qed.
Lemma inv_short : (length Qa ≤ 2)%nat ∧ (length Qu ≤ 2)%nat.
Proof.
  pose proof inv_few as H. pose proof (Permutation_length (vi_phase I)) as P.
  rewrite length_fmap, !length_app in P. lia.
Qed.
Lemma inv_find h : h ∈ Qa ++ dv_taken dv ++ Qu ++ Dn → ∃ r, r ∈ G ∧ q_h r = h.
Proof. rewrite <- (vi_phase I), list_elem_of_fmap. intros (r & -> & Hr). by exists r. Qed.
Lemma inv_same_head r r' : r ∈ G → r' ∈ G → q_h r = q_h r' → r = r'.
Proof. apply fmap_inj_in, heads_sub, I. Qed.
Lemma inv_same_buf r r' : r ∈ G → r' ∈ G → q_b r = q_b r' → r = r'.
Proof. apply fmap_inj_in, I. Qed.
Lemma inv_same_block r r' : r ∈ G → r' ∈ G → q_n r = q_n r' → r = r'.
Proof. apply fmap_inj_in, I. Qed.
End inv_facts.

(** A request keeps its facts when nothing of it changes. *)
Lemma req_ok_frame A A' v v' bs bs' dk dk' Qu Qu' Dn Dn' r : req_ok A v bs dk Qu Dn r → formatted v' r →
  v_info v' !! q_h r = v_info v !! q_h r → bs' !! q_b r = bs !! q_b r → A' (q_n r) = A (q_n r) →
  dblock dk' (q_n r) = dblock dk (q_n r) → (q_h r ∈ Qu' ↔ q_h r ∈ Qu) → (q_h r ∈ Dn' ↔ q_h r ∈ Dn) →
  req_ok A' v' bs' dk' Qu' Dn' r.
Proof.
  intros [R1 R2 (bf & Hb & Hn & Hl & Hd & Hs) R4] F Hi Hbs HA Hdk HQ HD. split; [done|done| |].
  - exists bf. rewrite Hbs. split_and!; [done..| |].
    + rewrite Hd. apply bool_decide_ext. by rewrite HD.
    + unfold served in *. rewrite HA, Hdk. assert (HS : q_h r ∈ Qu' ++ Dn' ↔ q_h r ∈ Qu ++ Dn) by (rewrite !elem_of_app; tauto).
      by rewrite (decide_ext _ _ _ _ HS).
  - intros Hq. rewrite Hi. by apply R4, HQ.
Qed.
End protocol.

(** *** Starting a transfer *)

Lemma same_but_formatted U v v' r : same_but U v v' → (∀ i, i ∈ descs r → i ∈ U) → formatted v r → formatted v' r.
Proof.
  intros S HU [[F0 F1 F2] F3 F4]. split; [split|..]; rewrite ?(sb_desc _ _ _ S), ?(sb_ops _ _ _ S), ?(sb_info _ _ _ S); try done; apply HU, descs_in.
Qed.
Lemma same_but_lens U v v' : same_but U v v' → lens v → lens v'.
Proof. intros S [L1 L2 L3]. split; by rewrite ?(sb_len _ _ _ S), ?(sb_ops _ _ _ S), ?(sb_info _ _ _ S). Qed.

(** Allocation changes nothing the invariant speaks of but the descriptors in use. *)
Lemma inv_same A G Qa Qu Dn dv v v' bs : vinv A G Qa Qu Dn dv v bs → same_but (G ≫= descs) v v' → used_by v' (G ≫= descs) →
  vinv A G Qa Qu Dn dv v' bs.
Proof.
  intros I S HU. split; [by eapply same_but_lens, I|done|apply I|apply I|apply I| | |apply I|apply I| | |apply I].
  - rewrite (sb_avail _ _ _ S). apply I.
  - rewrite (sb_used _ _ _ S), (sb_idx _ _ _ S). apply I.
  - intros r Hr. eapply req_ok_frame; [by apply (vi_reqs I)| |by rewrite (sb_info _ _ _ S)|done..].
    eapply same_but_formatted; [done| |apply (vi_reqs I r Hr)]. intros i. by apply descs_elem.
  - rewrite (sb_mmio _ _ _ S). apply I.
Qed.
Definition upd (A : Z → list Z) (n : Z) (wr : option (list Z)) : Z → list Z :=
  match wr with Some d => λ k, if decide (k = n) then d else A k | None => A end.
Lemma upd_ne A n wr k : k ≠ n → upd A n wr k = A k.
Proof. intros. destruct wr; cbn; [|done]. by rewrite decide_False. Qed.

Lemma fresh_descs r (G : list req) r' i : NoDup (descs r ++ (G ≫= descs)) → r' ∈ G → i ∈ descs r → i ∉ descs r'.
Proof. intros Hnd Hr' Hi Hi'. apply NoDup_app in Hnd as (_ & Hd & _). by apply (Hd i Hi), (descs_elem r'). Qed.
Lemma fresh_head r (G : list req) (Q : list nat) : NoDup (descs r ++ (G ≫= descs)) → (∀ h, h ∈ Q → ∃ r', r' ∈ G ∧ q_h r' = h) → q_h r ∉ Q.
Proof.
  intros Hnd HQ Hin. destruct (HQ _ Hin) as (r' & Hr' & E). apply (fresh_descs r G r' (q_h r)); [done..|apply descs_in|].
  rewrite <- E. apply descs_in.
Qed.
Lemma start_inv A G Qa Qu Dn dv v v1 bs r bf : vinv A G Qa Qu Dn dv v bs → NoDup (descs r ++ (G ≫= descs)) →
  Forall (λ i, (i < NUM)%nat) (descs r) → same_but (G ≫= descs) v v1 → used_by v1 (descs r ++ (G ≫= descs)) →
  bs !! q_b r = Some bf → vb_blockno bf = q_n r → blk (q_n r) → length (vb_data bf) = BSIZE →
  (∀ r', r' ∈ G → q_n r' ≠ q_n r) →
  vinv (upd A (q_n r) (if q_write r then Some (vb_data bf) else None)) (r :: G) (Qa ++ [q_h r]) Qu Dn dv
    (submitted r v1) (<[q_b r := set_vb_disk true bf]> bs).
Proof.
  intros I Hnd Hlt S HU Hb Hn Hblk Hlen Hne.
  assert (Hbne : ∀ r', r' ∈ G → q_b r' ≠ q_b r).
  { intros r' Hr' E. destruct (ro_buf _ _ _ _ _ _ _ (vi_reqs I r' Hr')) as (bf' & Hb' & Hn' & _). apply (Hne r' Hr'). rewrite E in Hb'. congruence. }
  assert (Hh : ∀ Q : list nat, (∀ h, h ∈ Q → h ∈ Qa ++ dv_taken dv ++ Qu ++ Dn) → q_h r ∉ Q).
  { intros Q HQ. apply (fresh_head r G Q Hnd). intros h Hh. by apply (inv_find I), HQ. }
  assert (L1 : lens v1) by (eapply same_but_lens, I; done).
  assert (Hd : NoDup (descs r)) by (by apply NoDup_app in Hnd as [? _]).
  split; rewrite ?bind_cons.
  - by apply submitted_lens.
  - by apply (used_eq v1).
  - done.
  - apply Forall_app. split; [done|apply I].
  - rewrite fmap_cons, (vi_phase I), <- app_assoc. apply Permutation_middle.
  - cbn. rewrite (sb_avail _ _ _ S). apply queued_push; [apply I|]. pose proof (inv_short I). unfold NUM. lia.
  - cbn. rewrite (sb_used _ _ _ S), (sb_idx _ _ _ S). apply I.
  - cbn. constructor; [|apply I]. intros Hin. apply list_elem_of_fmap in Hin as (r' & E & Hr'). by apply (Hne r').
  - cbn. constructor; [|apply I]. intros Hin. apply list_elem_of_fmap in Hin as (r' & E & Hr'). by apply (Hbne r').
  - intros r' Hr'. apply elem_of_cons in Hr' as [->|Hr'].
    + split; [by apply submitted_formatted|done| |].
      * eexists. split; [apply list_lookup_insert_eq; by eapply lookup_lt_Some|]. split_and!; cbn; [done..| |].
        -- rewrite bool_decide_true; [done|]. apply Hh. set_solver.
        -- unfold served. rewrite decide_False by (apply Hh; set_solver). unfold upd. destruct (q_write r).
           ++ by rewrite decide_True.
           ++ apply (vi_disk I); [done|]. intros r' Hr' E. by destruct (Hne r' Hr').
      * intros HQ. exfalso. revert HQ. apply Hh. set_solver.
    + eapply req_ok_frame; [by apply (vi_reqs I)|..]; try done.
      * apply submitted_other; [|intros i; by apply (fresh_descs r G)].
        eapply same_but_formatted; [done| |apply (vi_reqs I r' Hr')]. intros i. by apply descs_elem.
      * cbn. rewrite list_lookup_insert_ne; [by rewrite (sb_info _ _ _ S)|].
        intros E. apply (fresh_descs r G r' (q_h r) Hnd Hr'); [apply descs_in|]. rewrite E. apply descs_in.
      * apply list_lookup_insert_ne. intros E. by apply (Hbne r').
      * by apply upd_ne, Hne.
  - done.
  - intros n Hn' Hall. destruct (decide (n = q_n r)) as [->|Hnn].
    + destruct (q_write r) eqn:Ew.
      * exfalso. assert (q_h r ∉ Qu ++ Dn) as Hx by (apply Hh; set_solver). apply Hx, Hall; [set_solver|done..].
      * cbn. apply (vi_disk I); [done|]. intros r' Hr' E. by destruct (Hne r' Hr').
    + rewrite upd_ne by done. apply (vi_disk I); [done|]. intros r' Hr'. apply Hall. set_solver.
Qed.

Lemma can_calm m : can_sleep m → calm m.
Proof. by intros (? & _ & ?). Qed.
Lemma calm_can m m' : can_sleep m → calm m' → mytask m' = mytask m → can_sleep m'.
Proof. intros (_ & Ht & _) [? ?] E. split; [done|]. by rewrite E. Qed.
Lemma rw_try_spec A G Qa Qu Dn dv v bs m t b w bf : vinv A G Qa Qu Dn dv v bs →
  can_sleep m → mytask m = Some t → (t < NPROC)%nat → bs !! b = Some bf → blk (vb_blockno bf) →
  length (vb_data bf) = BSIZE → (∀ r, r ∈ G → q_n r ≠ vb_blockno bf) →
  (∃ m' v' r, rw_try b w (sector_of (vb_blockno bf)) (acq L_vdisk m, (v, bs)) =
      Ok (inl (WaitDone (q_h r))) (m', (v', <[b := set_vb_disk true bf]> bs)) ∧ q_b r = b ∧ q_write r = w ∧
    vinv (upd A (vb_blockno bf) (if w then Some (vb_data bf) else None)) (r :: G) (Qa ++ [q_h r]) Qu Dn dv v'
      (<[b := set_vb_disk true bf]> bs) ∧ mm_status (v_mmio v') = mm_status (v_mmio v)) ∨
  (∃ m' v', rw_try b w (sector_of (vb_blockno bf)) (acq L_vdisk m, (v, bs)) = Ok (inl WaitFree) (m', (v', bs)) ∧
    vinv A G Qa Qu Dn dv v' bs ∧ length G = 2%nat ∧ v_mmio v' = v_mmio v).
Proof.
  intros I Hm Ht Htn Hb Hblk Hlen Hne. unfold rw_try.
  destruct (alloc3_spec m v bs _ (can_calm m Hm) (vi_used I) (vi_nodup I))
    as [(i0 & i1 & i2 & v1 & E & HU & Hnd & Hlt & S & _)|(m' & v' & E & Hc & Hmt & HU & S & Hfull)]; run E.
  - left. set (r := MkReq b w (vb_blockno bf) i0 i1 i2).
    run (submit_spec r (acq L_vdisk m) v1 bs bf (same_but_lens _ _ _ S (vi_lens I)) Hlt Hb).
    destruct (rw_finish_wait m (submitted r v1) (<[b := set_vb_disk true bf]> bs) b i0 (set_vb_disk true bf) t) as (m' & E' & _);
      [done..|apply list_lookup_insert_eq; by eapply lookup_lt_Some|done|].
    exists m', (submitted r v1), r. split_and!; [exact E'|done|done|..].
    + by apply (start_inv A G Qa Qu Dn dv v v1 bs r bf).
    + cbn. by rewrite (sb_mmio _ _ _ S).
  - right. destruct (sleep_enter_spec ChDiskFree L_vdisk m' t) as (m2 & E2 & _); [by apply (calm_can m)|congruence|done|done|].
    exists m2, v'. split; [|split; [by apply (inv_same _ _ _ _ _ _ v)|split; [|apply S]]].
    + unfold onv, onm, zoom, bind. cbn [fst]. by rewrite E2.
    + rewrite descs_length in Hfull. pose proof (inv_few I). unfold NUM in Hfull. lia.
Qed.

(** *** The device *)

Lemma take_inv A G Qa Qu Dn dv v bs dv' v' bs' : vinv A G Qa Qu Dn dv v bs → dev_take (dv, v, bs) = Some (dv', v', bs') →
  ∃ Qa', vinv A G Qa' Qu Dn dv' v' bs' ∧ mm_status (v_mmio v') = mm_status (v_mmio v).
Proof.
  intros I E. cbn in E. destruct (mm_notified (v_mmio v)) eqn:En; [|done]. cbn [negb] in E.
  destruct (Z.eqb_spec (dv_seen dv) (r_idx (v_avail v))) as [Heq|Hne].
  { injection E as <- <- <-. pose proof (queued_diff _ _ _ (vi_avail I)) as H. pose proof (inv_short I) as [Hs _].
    rewrite Heq, Z.sub_diag in H. destruct Qa; [|unfold NUM in H; cbn in Hs, H; specialize (H ltac:(lia)); discriminate H].
    exists []. split; [|done]. destruct I as [I1 I2 I3 I4 I5 I6 I7 I8 I9 I10 I11 I12]. split; try done; [by destruct I1|].
    intros r Hr. eapply req_ok_frame; [by apply (I10 r Hr)| |done..]. destruct (ro_fmt _ _ _ _ _ _ _ (I10 r Hr)) as [[F0 F1 F2] F3 F4].
    by split. }
  pose proof (vi_avail I) as Q. destruct Qa as [|x Qa].
  { exfalso. apply Hne. rewrite (qu_idx _ _ _ Q). cbn. rewrite Z.add_0_r. symmetry. apply Z.mod_small, Q. }
  destruct (queued_pop _ _ _ _ Q) as [Ex Q']. rewrite Ex in E. cbn in E. injection E as <- <- <-. exists Qa. split; [|done].
  split; [apply I|apply I|apply I|apply I| |done|apply I|apply I|apply I|apply I|done|apply I].
  cbn. rewrite (vi_phase I), <- (app_assoc (dv_taken dv)). cbn. rewrite !(app_assoc Qa (dv_taken dv)). apply Permutation_middle.
Qed.
Lemma chain_formatted v r : formatted v r →
  chain_of v (q_h r) = Some (MkDreq (q_write r) (sector_of (q_n r)) (Z.of_nat BSIZE) (q_b r) (q_h r)).
Proof.
  intros [[F0 F1 F2] F3 F4]. unfold chain_of. rewrite F0. cbn. rewrite F1. cbn. rewrite F2. cbn. rewrite F3. cbn.
  unfold flags_of, op_of. by destruct (q_write r).
Qed.
Lemma filter_notin (l : list nat) x : x ∉ l → filter (λ y, y ≠ x) l = l.
Proof.
  induction l as [|y l IH]; [done|]. intros [Hy Hl]%not_elem_of_cons. rewrite filter_cons, IH by done. case_decide; [done|congruence].
Qed.
Lemma filter_out (l : list nat) x : NoDup l → x ∈ l → l ≡ₚ x :: filter (λ y, y ≠ x) l.
Proof.
  induction l as [|y l IH]; [by intros ? ?%elem_of_nil|]. intros [Hy Hnd]%NoDup_cons Hx. rewrite filter_cons. case_decide as E.
  - apply elem_of_cons in Hx as [->|Hx]; [done|]. rewrite (IH Hnd Hx) at 1. apply Permutation_swap.
  - subst y. by rewrite filter_notin.
Qed.

(** What serving [r] does to the buffers and the disk. *)
Definition served_disk (r : req) (bs : list vbuf) (dk : Z → Z) : Z → Z :=
  if q_write r then bytes_written dk (sector_of (q_n r) * 512) (take BSIZE (default [] (vb_data <$> bs !! q_b r))) else dk.
Definition served_bufs (r : req) (bs : list vbuf) (dk : Z → Z) : list vbuf :=
  if q_write r then bs
  else alter (λ b, MkVbuf (vb_blockno b) (vb_disk b) (bytes_read dk (sector_of (q_n r) * 512) BSIZE)) (q_b r) bs.
Section serve.
Context {A G Qa Qu Dn dv v bs} (I : vinv A G Qa Qu Dn dv v bs) (r : req) (Hr : r ∈ G) (Ht : q_h r ∈ dv_taken dv).

Lemma serve_fresh : q_h r ∉ Qu ++ Dn.
Proof.
  pose proof (inv_heads I) as H. apply NoDup_app in H as (_ & _ & H). apply NoDup_app in H as (_ & H & _). by apply H.
Qed.
Lemma serve_data : ∃ bf bf', bs !! q_b r = Some bf ∧ served_bufs r bs (dv_bytes dv) !! q_b r = Some bf' ∧
  vb_blockno bf' = vb_blockno bf ∧ vb_disk bf' = vb_disk bf ∧
  vb_data bf' = A (q_n r) ∧ length (vb_data bf') = BSIZE ∧ dblock (served_disk r bs (dv_bytes dv)) (q_n r) = A (q_n r).
Proof.
  destruct (vi_reqs I r Hr) as [_ Hblk (bf & Hb & Hn & Hl & Hd & Hs) _]. unfold served in Hs. rewrite decide_False in Hs by apply serve_fresh.
  unfold served_bufs, served_disk. rewrite (sector_bytes _ Hblk). exists bf. destruct (q_write r).
  - exists bf. split_and!; try done. rewrite Hb. cbn. rewrite dblock_written by (rewrite length_take; lia).
    rewrite decide_True, take_ge by (done || lia). done.
  - eexists. split; [done|]. split; [by rewrite list_lookup_alter_eq, Hb|]. cbn. split_and!; [done|done|exact Hs|apply dblock_len|exact Hs].
Qed.
Lemma serve_other_disk n : n ≠ q_n r → dblock (served_disk r bs (dv_bytes dv)) n = dblock (dv_bytes dv) n.
Proof.
  intros Hne. destruct (vi_reqs I r Hr) as [_ Hblk (bf & Hb & Hn & Hl & Hd & Hs) _]. unfold served_disk. rewrite (sector_bytes _ Hblk).
  destruct (q_write r); [|done]. rewrite Hb. cbn. rewrite dblock_written by (rewrite length_take; lia). by rewrite decide_False.
Qed.
Lemma serve_other_buf b : b ≠ q_b r → served_bufs r bs (dv_bytes dv) !! b = bs !! b.
Proof. intros Hne. unfold served_bufs. destruct (q_write r); [done|]. by apply list_lookup_alter_ne. Qed.
End serve.

Definition served_ring (h : nat) (v : vdisk) : vdisk :=
  set_mmio (MkMmio (mm_notified (v_mmio v)) (Z.lor (mm_status (v_mmio v)) 1))
    (set_used (MkRing (u16 (r_idx (v_used v) + 1)) (<[slot_of (r_idx (v_used v)) := h]> (r_ring (v_used v)))) v).
Lemma serve_eq r dv v bs st : v_info v !! q_h r = Some (Some (q_b r), st) →
  dev_serve (q_h r) (MkDreq (q_write r) (sector_of (q_n r)) (Z.of_nat BSIZE) (q_b r) (q_h r)) (dv, v, bs) =
  (MkDev (dv_seen dv) (filter (λ x, x ≠ q_h r) (dv_taken dv)) (served_disk r bs (dv_bytes dv)),
   served_ring (q_h r) (set_info (q_h r) (Some (q_b r), 0) v), served_bufs r bs (dv_bytes dv)).
Proof. intros E. unfold dev_serve, served_disk, served_bufs, served_ring. cbn [dr_sector dr_len dr_buf dr_status dr_write]. rewrite E, Nat2Z.id. done. Qed.
Lemma info_formatted v r r' b st : formatted v r' → (q_h r' = q_h r → b = q_b r') →
  formatted (set_info (q_h r) (Some b, st) v) r'.
Proof.
  intros [F0 F3 (st' & F4)] Hb. split; [by apply (chained_eq v)|done|]. cbn. destruct (decide (q_h r = q_h r')) as [E|E].
  - exists st. rewrite E, Hb by done. apply list_lookup_insert_eq. by eapply lookup_lt_Some.
  - exists st'. by rewrite list_lookup_insert_ne.
Qed.
Lemma serve_inv A G Qa Qu Dn dv v bs r : vinv A G Qa Qu Dn dv v bs → r ∈ G → q_h r ∈ dv_taken dv →
  vinv A G Qa (Qu ++ [q_h r]) Dn
    (MkDev (dv_seen dv) (filter (λ x, x ≠ q_h r) (dv_taken dv)) (served_disk r bs (dv_bytes dv)))
    (served_ring (q_h r) (set_info (q_h r) (Some (q_b r), 0) v)) (served_bufs r bs (dv_bytes dv)).
Proof.
  intros I Hr Ht. pose proof (serve_fresh I r Ht) as Hf. pose proof (vi_lens I) as [L1 L2 L3].
  assert (Hfmt : ∀ r', r' ∈ G → formatted (served_ring (q_h r) (set_info (q_h r) (Some (q_b r), 0) v)) r').
  { intros r' Hr'. destruct (info_formatted v r r' (q_b r) 0) as [[F0 F1 F2] F3 F4]; [apply (vi_reqs I r' Hr')| |by split].
    intros E. by rewrite (inv_same_head I r' r Hr' Hr E). }
  split; cbn [dv_seen dv_taken dv_bytes].
  - split; cbn; rewrite ?length_insert; done.
  - by apply (used_eq v), I.
  - apply I.
  - apply I.
  - rewrite (vi_phase I). pose proof (inv_heads I) as H. apply NoDup_app in H as (_ & _ & H). apply NoDup_app in H as (H & _ & _).
    rewrite (filter_out _ _ H Ht) at 1. apply Permutation_app_head. rewrite <- (app_assoc Qu). cbn.
    rewrite !(app_assoc (filter _ _)). apply Permutation_middle.
  - apply I.
  - cbn. apply queued_push; [apply I|]. pose proof (inv_short I). unfold NUM. lia.
  - apply I.
  - apply I.
  - intros r' Hr'. destruct (decide (q_h r' = q_h r)) as [E|E].
    + apply (inv_same_head I r' r Hr' Hr) in E as ->. destruct (serve_data I r Hr Ht) as (bf & bf' & Hb & Hb' & H1 & H2 & H3 & H4 & H5).
      destruct (vi_reqs I r Hr) as [R1 R2 (bf0 & Hb0 & Hn & _ & Hd & _) R4]. assert (bf0 = bf) as -> by congruence.
      split; [by apply Hfmt|done| |].
      * exists bf'. rewrite H1, H2. split_and!; [done..|]. unfold served. rewrite decide_True; [done|]. set_solver.
      * intros _. cbn. apply list_lookup_insert_eq. rewrite L2. destruct R1 as [_ _ (st & F)]. apply lookup_lt_Some in F. lia.
    + eapply req_ok_frame; [by apply (vi_reqs I)|by apply Hfmt|..]; try done.
      * cbn. by rewrite list_lookup_insert_ne.
      * apply serve_other_buf. intros Eb. apply E. by rewrite (inv_same_buf I r' r Hr' Hr Eb).
      * apply (serve_other_disk I r Hr). intros En. apply E. by rewrite (inv_same_block I r' r Hr' Hr En).
      * set_solver.
  - apply I.
  - intros n Hn Hall. destruct (decide (n = q_n r)) as [->|Hne].
    + by destruct (serve_data I r Hr Ht) as (bf & bf' & _ & _ & _ & _ & _ & _ & H5).
    + rewrite (serve_other_disk I r Hr) by done. apply (vi_disk I); [done|]. intros r' Hr' En Ew. specialize (Hall r' Hr' En Ew).
      assert (q_h r' ≠ q_h r) by (intros E; apply Hne; by rewrite <- En, (inv_same_head I r' r Hr' Hr E)). set_solver.
Qed.
Lemma device_inv `{VirtioDevice} A G Qa Qu Dn dv v bs dv' v' bs' : vinv A G Qa Qu Dn dv v bs → dev_step (dv, v, bs) (dv', v', bs') →
  irq_ok Qu v → ∃ Qa' Qu', vinv A G Qa' Qu' Dn dv' v' bs' ∧ irq_ok Qu' v'.
Proof.
  intros I St Hi. apply dev_step_spec in St as [E|(h & Hh & E)].
  - destruct (take_inv _ _ _ _ _ _ _ _ _ _ _ I E) as (Qa' & I' & Es). exists Qa', Qu. split; [done|]. unfold irq_ok. by rewrite Es.
  - destruct (inv_find I h) as (r & Hr & <-); [cbn in Hh; set_solver|]. pose proof (ro_fmt _ _ _ _ _ _ _ (vi_reqs I r Hr)) as F.
    destruct (fm_info _ _ F) as [st Est]. specialize (E _ (chain_formatted _ _ F)). cbn [fst snd] in E.
    rewrite (serve_eq r dv v bs st Est) in E. injection E as -> -> ->. exists Qa, (Qu ++ [q_h r]). split; [by apply serve_inv|].
    intros _. cbn [served_ring set_mmio v_mmio mm_status]. rewrite Z.lor_spec. apply orb_true_r.
Qed.

(** *** The interrupt handler *)

Lemma seen_inv A G Qa x Qu Dn dv v bs r bf : vinv A G Qa (x :: Qu) Dn dv v bs → r ∈ G → q_h r = x → bs !! q_b r = Some bf →
  vinv A G Qa Qu (x :: Dn) dv (set_used_idx (u16 (v_used_idx v + 1)) v) (<[q_b r := set_vb_disk false bf]> bs).
Proof.
  intros I Hr Hx Hb. pose proof (inv_heads I) as Hnd. apply NoDup_app in Hnd as (_ & _ & Hnd). apply NoDup_app in Hnd as (_ & _ & Hnd).
  cbn in Hnd. apply NoDup_cons in Hnd as [Hxn _].
  assert (Hfmt : ∀ r', r' ∈ G → formatted (set_used_idx (u16 (v_used_idx v + 1)) v) r').
  { intros r' Hr'. destruct (ro_fmt _ _ _ _ _ _ _ (vi_reqs I r' Hr')) as [[F0 F1 F2] F3 F4]. by split. }
  split; [|apply (used_eq v), I; done|apply I|apply I| |apply I| |apply I|apply I| |apply I|].
  - destruct (vi_lens I). by split.
  - rewrite (vi_phase I). cbn. do 2 apply Permutation_app_head. apply Permutation_middle.
  - apply (queued_pop _ _ x), I.
  - intros r' Hr'. destruct (decide (q_h r' = q_h r)) as [E|E].
    + apply (inv_same_head I r' r Hr' Hr) in E as ->. destruct (vi_reqs I r Hr) as [R1 R2 (bf0 & Hb0 & Hn & Hl & Hd & Hs) R4].
      assert (bf0 = bf) as -> by congruence. split; [by apply Hfmt|done| |].
      * eexists. split; [apply list_lookup_insert_eq; by eapply lookup_lt_Some|]. split_and!; cbn; [done..| |].
        -- rewrite bool_decide_false; [done|]. rewrite Hx. set_solver.
        -- unfold served in *. rewrite decide_True by (rewrite Hx; set_solver). by rewrite decide_True in Hs by (rewrite Hx; set_solver).
      * intros HQ. rewrite Hx in HQ. set_solver.
    + assert (q_h r' ≠ x) by congruence. eapply req_ok_frame; [by apply (vi_reqs I)|by apply Hfmt|..]; try done.
      * apply list_lookup_insert_ne. intros Eb. apply E. by rewrite (inv_same_buf I r' r Hr' Hr (eq_sym Eb)).
      * rewrite elem_of_cons. naive_solver.
      * rewrite elem_of_cons. naive_solver.
  - intros n Hn Hall. apply (vi_disk I); [done|]. intros r' Hr' En Ew. specialize (Hall r' Hr' En Ew). set_solver.
Qed.
(** Task [j] sleeps on [c], or was woken from it and is not running yet. *)
Definition ready_on (c : chan) (m : mach) (j : nat) : Prop := m_tasks m !! j = Some (MkTsk READY (Some c)).
Definition waits_on (c : chan) (m : mach) (j : nat) : Prop := m_tasks m !! j = Some (MkTsk SLEEP (Some c)) ∨ ready_on c m j.
Lemma woken_ready ch c m j : ready_on c m j → ready_on c (woken ch m) j.
Proof.
  unfold ready_on. intros E. cbn. rewrite list_lookup_imap, E. cbn. unfold wake_at, wake. by destruct (bool_decide (Some j = mytask m)).
Qed.
Lemma woken_waits ch c m j : waits_on c m j → waits_on c (woken ch m) j.
Proof.
  intros [E|E]; [|right; by apply woken_ready]. unfold waits_on, ready_on. cbn. rewrite list_lookup_imap, E. cbn. unfold wake_at, wake.
  destruct (bool_decide (Some j = mytask m)); [by left|]. destruct (bool_decide _ && bool_decide _); [by right|by left].
Qed.
Lemma woken_wakes c m j : waits_on c m j → Some j ≠ mytask m → ready_on c (woken c m) j.
Proof.
  intros [E|E] Hj; [|by apply woken_ready]. unfold ready_on. cbn. rewrite list_lookup_imap, E. cbn. unfold wake_at, wake.
  rewrite bool_decide_false by done. cbn [tstate tchan]. by rewrite !bool_decide_true.
Qed.

Lemma intr_one_spec A G Qa x Qu Dn dv v bs m r : vinv A G Qa (x :: Qu) Dn dv v bs → calm m → r ∈ G → q_h r = x →
  ∃ v' bs', intr_one (acq L_vdisk m, (v, bs)) = Ok tt (acq L_vdisk (woken (ChBuf (q_b r)) m), (v', bs')) ∧
    vinv A G Qa Qu (x :: Dn) dv v' bs' ∧ v_mmio v' = v_mmio v.
Proof.
  intros I Hm Hr Hx.
  destruct (vi_reqs I r Hr) as [_ _ (bf & Hb & _) R4]. specialize (R4 ltac:(rewrite Hx; set_solver)). rewrite Hx in R4.
  destruct (queued_pop _ _ _ _ (vi_usedq I)) as [Ex _]. unfold intr_one.
  rewrite (bind_deref _ _ _ x) by exact Ex. rewrite (bind_deref _ _ _ _) by exact R4. cbn [fst snd Z.eqb negb]. go.
  unfold mod_buf. rewrite bind_assoc, (bind_deref _ _ _ bf) by done. go. cbn [fst snd]. rewrite (list_alter_insert _ _ _ bf) by done.
  run (wakeup_vdisk (ChBuf (q_b r)) m (v, <[q_b r := set_vb_disk false bf]> bs) Hm).
  do 2 eexists. split; [done|]. split; [by apply seen_inv|done].
Qed.
(** The tasks that wait for the requests [Qu] become ready, and stay so. *)
Definition woke (G : list req) (Qu : list nat) (m m' : mach) : Prop :=
  (∀ c j, ready_on c m j → ready_on c m' j) ∧
  ∀ r c j, r ∈ G → q_h r ∈ Qu → c = ChBuf (q_b r) → Some j ≠ mytask m → waits_on c m j → ready_on c m' j.
Lemma woke_cons A G Qa x Qu Dn dv v bs m m' r : vinv A G Qa (x :: Qu) Dn dv v bs → r ∈ G → q_h r = x →
  woke G Qu (woken (ChBuf (q_b r)) m) m' → woke G (x :: Qu) m m'.
Proof.
  intros I Hr Hx [W1 W2]. split.
  - intros c j H. by apply W1, woken_ready.
  - intros r' c j Hr' HQ -> Hj Hw. apply elem_of_cons in HQ as [E|HQ].
    + rewrite (inv_same_head I r' r Hr' Hr) in * by congruence. by apply W1, woken_wakes.
    + eapply W2; [done..|]. by apply woken_waits.
Qed.
Lemma intr_loop_spec A G Qa Qu Dn dv v bs m : vinv A G Qa Qu Dn dv v bs → calm m →
  ∃ m' v' bs' Dn', intr_loop (length Qu) (acq L_vdisk m, (v, bs)) = Ok tt (acq L_vdisk m', (v', bs')) ∧ calm m' ∧
    vinv A G Qa [] Dn' dv v' bs' ∧ v_mmio v' = v_mmio v ∧ (∀ x, x ∈ Dn' ↔ x ∈ Qu ++ Dn) ∧ woke G Qu m m'.
Proof.
  revert Dn v bs m. induction Qu as [|x Qu IH]; intros Dn v bs m I Hm.
  - exists m, v, bs, Dn. split; [|by split_and!; [..|split; [|intros r c j _ ?%elem_of_nil]]]. cbn [length intr_loop]. go. cbn [snd fst].
    rewrite (qu_idx _ _ _ (vi_usedq I)). cbn [length]. rewrite Z.add_0_r. unfold u16. rewrite Z.mod_small by apply (vi_usedq I).
    by rewrite Z.eqb_refl.
  - cbn [length intr_loop]. go. cbn [snd fst]. pose proof (queued_diff _ _ _ (vi_usedq I)) as Hd. pose proof (inv_short I) as [_ Hs].
    rewrite (proj2 (Z.eqb_neq _ _)).
    2: { intros E. rewrite E, Z.sub_diag in Hd. unfold NUM in Hd. cbn in Hd, Hs. specialize (Hd ltac:(lia)). discriminate Hd. }
    cbn [negb]. destruct (inv_find I x) as (r & Hr & Hx); [set_solver|].
    destruct (intr_one_spec _ _ _ _ _ _ _ _ _ m r I Hm Hr Hx) as (v1 & bs1 & E1 & I1 & Es). run E1.
    destruct (IH (x :: Dn) v1 bs1 _ I1 (woken_calm (ChBuf (q_b r)) m Hm)) as (m' & v' & bs' & Dn' & E & Hm' & I' & Es' & HD & Hw). exists m', v', bs', Dn'.
    split_and!; [done..|congruence| |by apply (woke_cons A G Qa x Qu Dn dv v bs m m' r)]. intros y. rewrite HD. cbn. rewrite !elem_of_app, !elem_of_cons, elem_of_app. tauto.
Qed.
(** The handler acknowledges all the device raised. *)
Definition acked (v : vdisk) : vdisk :=
  set_mmio (MkMmio (mm_notified (v_mmio v)) (Z.ldiff (mm_status (v_mmio v)) (Z.land (mm_status (v_mmio v)) 3))) v.
Lemma acked_inv A G Qa Qu Dn dv v bs : vinv A G Qa Qu Dn dv v bs → vinv A G Qa Qu Dn dv (acked v) bs.
Proof.
  intros [I1 I2 I3 I4 I5 I6 I7 I8 I9 I10 I11 I12]. split; try done; [by destruct I1|].
  intros r Hr. eapply req_ok_frame; [by apply (I10 r Hr)| |done..]. destruct (ro_fmt _ _ _ _ _ _ _ (I10 r Hr)) as [[F0 F1 F2] F3 F4].
  by split.
Qed.
Lemma intr_spec A G Qa Qu Dn dv v bs m : vinv A G Qa Qu Dn dv v bs → calm m →
  ∃ m' v' bs' Dn', virtio_disk_intr (m, (v, bs)) = Ok tt (m', (v', bs')) ∧ calm m' ∧ vinv A G Qa [] Dn' dv v' bs' ∧
    v_mmio v' = v_mmio (acked v) ∧ (∀ x, x ∈ Dn' ↔ x ∈ Qu ++ Dn) ∧ woke G Qu m m'.
Proof.
  intros I%acked_inv Hm. unfold virtio_disk_intr, interrupt_status, interrupt_ack, mod_disk. run (get_vdisk m (v, bs) (proj1 Hm)). go. cbn [snd fst].
  fold (acked v). unfold intr_fuel.
  pose proof (inv_short I) as [_ Hs]. rewrite (queued_diff _ _ _ (vi_usedq I)), Nat2Z.id by (unfold NUM; lia).
  destruct (intr_loop_spec _ _ _ _ _ _ _ _ m I Hm) as (m' & v' & bs' & Dn' & E & Hm' & I' & Es & HD & Hw). run E.
  exists (touch m'), v', bs', Dn'. rewrite put_vdisk by apply Hm'. split_and!; [done| |done..]. by destruct Hm'.
Qed.

(** *** The end of a transfer *)

Lemma bind_perm (G G' : list req) : G ≡ₚ G' → G ≫= descs ≡ₚ G' ≫= descs.
Proof. intros P. by rewrite P. Qed.
Lemma released_formatted r r' v st : formatted v r' → (∀ i, i ∈ descs r → i ∉ descs r') →
  formatted (released r (set_info (q_h r) (None, st) v)) r'.
Proof.
  intros [[F0 F1 F2] F3 F4] Hd. assert (Hne : ∀ i j, i ∈ descs r → j ∈ descs r' → i ≠ j) by (intros i j Hi Hj ->; by apply (Hd j)).
  split; [split|..]; cbn; rewrite ?list_lookup_insert_ne; try done; apply Hne; apply descs_in.
Qed.
Lemma done_inv A G G' Qa Qu Dn dv v bs r st : vinv A G Qa Qu Dn dv v bs → G ≡ₚ r :: G' → q_h r ∈ Dn →
  ∃ Dn', vinv A G' Qa Qu Dn' dv (released r (set_info (q_h r) (None, st) v)) bs.
Proof.
  intros I P HD. pose proof (inv_heads I) as Hh. exists (filter (λ x, x ≠ q_h r) Dn).
  assert (PU : G ≫= descs ≡ₚ descs r ++ (G' ≫= descs)) by (by rewrite (bind_perm _ _ P)).
  assert (Hnd : NoDup (descs r ++ (G' ≫= descs))) by (rewrite <- PU; apply I).
  assert (Hlt : Forall (λ i, (i < NUM)%nat) (descs r ++ (G' ≫= descs))) by (rewrite <- PU; apply I).
  apply Forall_app in Hlt as [Hlt Hlt'].
  assert (Hsub : ∀ r', r' ∈ G' → r' ∈ G) by (intros r' Hr'; rewrite P; set_solver).
  assert (Hhd : ∀ r', r' ∈ G' → q_h r' ≠ q_h r).
  { intros r' Hr' E. apply (fresh_descs r G' r' (q_h r) Hnd Hr'); [apply descs_in|]. rewrite <- E. apply descs_in. }
  assert (HDn : ∀ r', r' ∈ G' → q_h r' ∈ filter (λ x, x ≠ q_h r) Dn ↔ q_h r' ∈ Dn).
  { intros r' Hr'. rewrite list_elem_of_filter. specialize (Hhd r' Hr'). tauto. }
  apply NoDup_app in Hh as (_ & _ & Hh). apply NoDup_app in Hh as (_ & _ & Hh). apply NoDup_app in Hh as (_ & _ & Hh).
  split.
  - destruct (vi_lens I). split; cbn; by rewrite ?length_insert.
  - apply released_used; [|done..]. apply (used_eq v); [done|]. eapply used_perm; [exact PU|apply I].
  - by apply NoDup_app in Hnd as (_ & _ & ?).
  - done.
  - apply (Permutation_cons_inv (a := q_h r)). rewrite <- (fmap_cons q_h r G'), <- P, (vi_phase I), (filter_out Dn (q_h r)) at 1 by done.
    rewrite !(app_assoc _ Qu), !(app_assoc Qa). symmetry. apply Permutation_middle.
  - apply I.
  - apply I.
  - pose proof (vi_blocks I) as H. rewrite P in H. by apply NoDup_cons in H as [_ ?].
  - pose proof (vi_bufs I) as H. rewrite P in H. by apply NoDup_cons in H as [_ ?].
  - intros r' Hr'. eapply req_ok_frame; [apply (vi_reqs I), Hsub, Hr'|..]; try done.
    + apply released_formatted; [apply (vi_reqs I), Hsub, Hr'|]. intros i. by apply (fresh_descs r G').
    + cbn. rewrite list_lookup_insert_ne; [done|]. intros E. by apply (Hhd r').
    + by apply HDn.
  - apply I.
  - intros n Hn Hall. apply (vi_disk I); [done|]. intros r' Hr' En Ew. rewrite P in Hr'. apply elem_of_cons in Hr' as [->|Hr']; [set_solver|].
    specialize (Hall r' Hr' En Ew). rewrite elem_of_app, HDn in Hall by done. by rewrite elem_of_app.
Qed.
Lemma finish_spec A G Qa Qu Dn dv v bs m r : vinv A G Qa Qu Dn dv v bs → can_sleep m → r ∈ G → q_h r ∈ Dn →
  ∃ m' v', rw_finish (q_b r) (q_h r) (acq L_vdisk m, (v, bs)) = Ok (inr tt) (m', (v', bs)) ∧ calm m' ∧
    (∃ bf, bs !! q_b r = Some bf ∧ vb_blockno bf = q_n r ∧ vb_data bf = A (q_n r)) ∧
    v_mmio v' = v_mmio v ∧ ∀ G', G ≡ₚ r :: G' → ∃ Dn', vinv A G' Qa Qu Dn' dv v' bs.
Proof.
  intros I Hm Hr HD. destruct (vi_reqs I r Hr) as [[F0 F3 (st & F4)] _ (bf & Hb & Hn & _ & Hd & Hs) _].
  rewrite bool_decide_false in Hd by tauto. unfold served in Hs. rewrite decide_True in Hs by set_solver.
  apply elem_of_Permutation in Hr as [G0 P].
  assert (PU : G ≫= descs ≡ₚ descs r ++ (G0 ≫= descs)) by (by rewrite (bind_perm _ _ P)).
  assert (Hnd : NoDup (descs r ++ (G0 ≫= descs))) by (rewrite <- PU; apply I).
  assert (Hlt : Forall (λ i, (i < NUM)%nat) (descs r ++ (G0 ≫= descs))) by (rewrite <- PU; apply I).
  apply Forall_app in Hlt as [Hlt _].
  exists (touch (woken3 m)), (released r (set_info (q_h r) (None, st) v)). split.
  { eapply rw_finish_done; [by apply can_calm| |exact Hnd|done..]. eapply used_perm; [exact PU|apply I]. }
  split; [|split; [|split; [done|]]].
  - apply can_calm in Hm as [Hq Hl]. split; [done|]. cbn. by rewrite !length_imap.
  - exists bf. split_and!; [done..|]. apply Hs.
  - intros G' P'. by apply (done_inv A G G' Qa Qu Dn dv v bs r st).
Qed.

(** *** Runs *)

(** The state [virtio_disk_init] leaves: zeroed pages and all descriptors free. *)
Definition vdisk0 : vdisk :=
  MkVdisk (replicate NUM desc0) (MkRing 0 (replicate NUM 0%nat)) (MkRing 0 (replicate NUM 0%nat)) (replicate NUM true) 0
    (replicate NUM (None, 0)) (replicate NUM (MkOp 0 0 0)) (MkMmio false 0).
Definition dev0 (dk : Z → Z) : dev := MkDev 0 [] dk.
Lemma ring0_queued : queued (MkRing 0 (replicate NUM 0%nat)) 0 [].
Proof. split; [lia|apply length_replicate|done|done]. Qed.
Lemma vinv0 dk bs : vinv (dblock dk) [] [] [] [] (dev0 dk) vdisk0 bs.
Proof.
  split; [split; apply length_replicate| |constructor|done|done|apply ring0_queued|apply ring0_queued|constructor|constructor| |done|done].
  - split; [apply length_replicate|]. intros i Hi. by apply lookup_replicate_2.
  - by intros r ?%elem_of_nil.
Qed.

Section runs.
Context {VD : VirtioDevice}.

(** The invariant with the calls that wait. *)
Definition sys_ok (A : Z → list Z) (s : vsys) : Prop :=
  ∃ G Qa Qu Dn, vinv A G Qa Qu Dn s.1.1.1 s.1.1.2 s.1.2 ∧ irq_ok Qu s.1.1.2 ∧ s.2 = call_of <$> G.
Definition ev_disk (A : Z → list Z) (e : option vevent) : Z → list Z :=
  match e with Some (EvStart n wr) => upd A n wr | _ => A end.
Definition ev_ok (A : Z → list Z) (e : option vevent) : Prop :=
  match e with Some (EvDone n d) => A n = d | _ => True end.
Lemma no_transfer_reqs A G Qa Qu Dn dv v bs n r : vinv A G Qa Qu Dn dv v bs → no_transfer n bs (call_of <$> G) → r ∈ G → q_n r ≠ n.
Proof.
  intros I Hn Hr. destruct (ro_buf _ _ _ _ _ _ _ (vi_reqs I r Hr)) as (bf & Hb & <- & _).
  apply (Hn (call_of r)); [|done]. by apply list_elem_of_fmap_2.
Qed.
Lemma kernel_inv A G Qa Qu Dn dv v bs b bf : vinv A G Qa Qu Dn dv v bs → (∀ c, c ∈ call_of <$> G → c.1.1 ≠ b) →
  vinv A G Qa Qu Dn dv v (<[b := bf]> bs).
Proof.
  intros I Hc. destruct I as [I1 I2 I3 I4 I5 I6 I7 I8 I9 I10 I11 I12]. split; try done. intros r Hr.
  eapply req_ok_frame; [by apply I10|apply (I10 r Hr)|done| |done..]. apply list_lookup_insert_ne. intros ->.
  by apply (Hc (call_of r)); [apply list_elem_of_fmap_2|].
Qed.
Lemma call_elem (G : list req) b w h : (b, w, h) ∈ call_of <$> G → ∃ r, r ∈ G ∧ q_b r = b ∧ q_write r = w ∧ q_h r = h.
Proof. intros (r & E & Hr)%list_elem_of_fmap. exists r. unfold call_of in E. by injection E as -> -> ->. Qed.
(** What [rw_finish] does for a call that waits. *)
Lemma finish_cases A G Qa Qu Dn dv v bs m t r : vinv A G Qa Qu Dn dv v bs → can_sleep m → mytask m = Some t → (t < NPROC)%nat → r ∈ G →
  (q_h r ∈ Dn ∧ ∃ m' v', rw_finish (q_b r) (q_h r) (acq L_vdisk m, (v, bs)) = Ok (inr tt) (m', (v', bs))) ∨
  (q_h r ∉ Dn ∧ ∃ m', rw_finish (q_b r) (q_h r) (acq L_vdisk m, (v, bs)) = Ok (inl (WaitDone (q_h r))) (m', (v, bs))).
Proof.
  intros I Hm Ht Htn Hr. destruct (decide (q_h r ∈ Dn)) as [HD|HD].
  - left. split; [done|]. destruct (finish_spec _ _ _ _ _ _ _ _ m r I Hm Hr HD) as (m' & v' & E & _). by exists m', v'.
  - right. split; [done|]. destruct (ro_buf _ _ _ _ _ _ _ (vi_reqs I r Hr)) as (bf & Hb & _ & _ & Hd & _). rewrite bool_decide_true in Hd by done.
    destruct (rw_finish_wait m v bs (q_b r) (q_h r) bf t Hm Ht Htn Hb Hd) as (m' & E & _). by exists m'.
Qed.
Lemma vstep_ok A e s s' : sys_ok A s → vstep e s s' → ev_ok A e ∧ sys_ok (ev_disk A e) s'.
Proof.
  intros (G & Qa & Qu & Dn & I & Hi & Hc) St.
  destruct St as [dv v bs calls m t b w bf h m' v' bs' Hm Ht Htn Hb Hblk Hlen Hno E|dv v bs calls m t b w bf m' v' bs' Hm Ht Htn Hb Hblk Hlen Hno E
    |[[dv v] bs] [[dv' v'] bs'] calls St|dv v bs calls m m' v' bs' Hm E|dv v bs calls m t b w h x m' v' bs' Hm Ht Htn Hin E
    |dv v bs calls m k b w h bf m' v' bs' Hm Hk E Hb|dv v bs calls b bf Hb]; cbn [fst snd] in *; subst calls; cbn [ev_ok ev_disk].
  - split; [done|]. destruct (rw_try_spec _ _ _ _ _ _ _ _ m t b w bf I Hm Ht Htn Hb Hblk Hlen) as [(m1 & v1 & r & E1 & <- & <- & I1 & Es)|(m1 & v1 & E1 & _)].
    + intros r Hr. by eapply no_transfer_reqs.
    + rewrite E in E1. injection E1 as -> -> -> ->. exists (r :: G), (Qa ++ [q_h r]), Qu, Dn.
      split; [done|]. split; [|done]. unfold irq_ok. cbn [fst snd]. by rewrite Es.
    + rewrite E in E1. discriminate E1.
  - split; [done|]. destruct (rw_try_spec _ _ _ _ _ _ _ _ m t b w bf I Hm Ht Htn Hb Hblk Hlen) as [(m1 & v1 & r & E1 & _)|(m1 & v1 & E1 & I1 & _ & Es)].
    + intros r Hr. by eapply no_transfer_reqs.
    + rewrite E in E1. discriminate E1.
    + rewrite E in E1. injection E1 as -> -> ->. exists G, Qa, Qu, Dn.
      split; [done|]. split; [|done]. unfold irq_ok. cbn [fst snd]. by rewrite Es.
  - split; [done|]. destruct (device_inv _ _ _ _ _ _ _ _ _ _ _ I St Hi) as (Qa' & Qu' & I' & Hi'). by exists G, Qa', Qu', Dn.
  - split; [done|]. destruct (intr_spec _ _ _ _ _ _ _ _ m I Hm) as (m1 & v1 & bs1 & Dn1 & E1 & _ & I1 & _).
    rewrite E in E1. injection E1 as -> -> ->. exists G, Qa, [], Dn1.
    split; [done|]. split; [by intros []|done].
  - split; [done|]. apply call_elem in Hin as (r & Hr & <- & <- & <-).
    destruct (finish_cases _ _ _ _ _ _ _ _ m t r I Hm Ht Htn Hr) as [(_ & m1 & v1 & E1)|(_ & m1 & E1)]; rewrite E in E1; [discriminate E1|].
    injection E1 as _ -> -> ->. by exists G, Qa, Qu, Dn.
  - rewrite list_lookup_fmap in Hk. destruct (G !! k) as [r|] eqn:Er; [|done]. unfold call_of in Hk. injection Hk as <- <- <-.
    assert (Hr : r ∈ G) by (by eapply list_elem_of_lookup_2).
    assert (HD : q_h r ∈ Dn).
    { destruct Hm as (Hq & [t Ht] & Hl). destruct (decide (q_h r ∈ Dn)) as [|HD]; [done|]. exfalso.
      destruct (ro_buf _ _ _ _ _ _ _ (vi_reqs I r Hr)) as (bf0 & Hb0 & _ & _ & Hd & _). rewrite bool_decide_true in Hd by done.
      unfold rw_finish in E. rewrite (bind_deref _ _ _ bf0), Hd in E by done.
      apply bind_ok_inv in E as (? & ? & _ & E). discriminate E. }
    destruct (finish_spec _ _ _ _ _ _ _ _ m r I Hm Hr HD) as (m1 & v1 & E1 & _ & (bf0 & Hb0 & Hn & Hd) & Es & HG).
    rewrite E in E1. injection E1 as -> -> ->. assert (bf0 = bf) as -> by congruence. split; [by rewrite Hn, Hd|].
    destruct (HG (delete k G)) as [Dn' I']; [by apply delete_Permutation|]. exists (delete k G), Qa, Qu, Dn'. split; [done|].
    split; [unfold irq_ok; cbn [fst snd]; by rewrite Es|].
    cbn. by rewrite list_fmap_delete.
  - split; [done|]. exists G, Qa, Qu, Dn. split; [by apply kernel_inv|by split].
Qed.
End runs.
