(* ===== verification/Bio.v ===== *)
(** The buffer cache (kernel/fs/bio.h, kernel/fs/bio.c).

    The cache is an array of [NIOBUF] buffers linked in a list that [brelse]
    keeps in least-recently-used order.  The state is the array, the heap of the
    list nodes and the disk behind the driver; the lock [bcache.lock], the
    buffers' sleeplocks and the calls of [wakeup] are part of the operations. *)
From S2P Require Import Prelude Bytes ListNode Machine BlockIO.

(** [struct buf]. *)
Record buf := MkBuf {
  b_dev : Z;
  b_refc : Z;
  b_blockno : Z;
  b_valid : bool;
  b_disk : bool;
  b_lock : sleeplock;
  b_data : list Z;
}.
Definition set_refc (r : Z) (b : buf) : buf :=
  MkBuf (b_dev b) r (b_blockno b) (b_valid b) (b_disk b) (b_lock b) (b_data b).
Definition set_lock (l : sleeplock) (b : buf) : buf :=
  MkBuf (b_dev b) (b_refc b) (b_blockno b) (b_valid b) (b_disk b) l (b_data b).
Definition set_data (d : list Z) (b : buf) : buf :=
  MkBuf (b_dev b) (b_refc b) (b_blockno b) (b_valid b) (b_disk b) (b_lock b) d.
Definition set_valid (v : bool) (b : buf) : buf :=
  MkBuf (b_dev b) (b_refc b) (b_blockno b) v (b_disk b) (b_lock b) (b_data b).
(** A buffer claimed for a block on a cache miss. *)
Definition claim_buf (dev blockno : Z) (b : buf) : buf :=
  MkBuf dev 1 blockno false (b_disk b) (b_lock b) (b_data b).

(** The list nodes: [bcache.head] and [bufs[i].bcache_node]. *)
Inductive bnode := BHead | BNode (i : nat).
#[export] Instance bnode_eq_dec : EqDecision bnode.
Proof. solve_decision. Defined.
#[export] Instance bnode_countable : Countable bnode.
Proof.
  apply (inj_countable' (λ n, match n with BHead => None | BNode i => Some i end)
           (λ o, match o with None => BHead | Some i => BNode i end)).
  by intros [].
Defined.

Module Cache.
Section bio.
Context {D : Type} `{DiskDriver D}.

(** The static [bcache] and the disk. *)
Record bcache := MkBcache {
  bufs : list buf;
  bnodes : gmap bnode (list_node bnode);
  bdisk : D;
}.
Definition set_bufs (f : list buf → list buf) (c : bcache) : bcache :=
  MkBcache (f (bufs c)) (bnodes c) (bdisk c).
Definition upd_buf (i : nat) (f : buf → buf) : bcache → bcache := set_bufs (alter f i).

Abbreviation BM := (M (mach * bcache)).

Definition buf_at (i : nat) : BM buf := deref (λ s, bufs s.2 !! i).
Definition mod_buf (i : nat) (f : buf → buf) : BM unit :=
  let! _ := buf_at i in modify (λ s, (s.1, upd_buf i f s.2)).
(** [container_of(node, struct buf, bcache_node)]. *)
Definition buf_of_node (n : bnode) : option nat :=
  match n with BNode i => Some i | BHead => None end.
Definition lock_buf (i : nat) : BM unit :=
  sleep_get (λ c, b_lock <$> bufs c !! i) (λ l, upd_buf i (set_lock l)) (ChBufLock i).
Definition unlock_buf (i : nat) : BM unit :=
  sleep_put (λ c, b_lock <$> bufs c !! i) (λ l, upd_buf i (set_lock l)) (ChBufLock i).
Definition holding_buf (i : nat) : BM bool := sleep_holding (λ c, b_lock <$> bufs c !! i).

(** The loop of [bget] over cached blocks; [None]: the walk came back to the head. *)
Fixpoint bget_hit (fuel : nat) (dev blockno : Z) (node : option bnode) : BM (option nat) :=
  match fuel with
  | O => fault
  | S fuel =>
    if bool_decide (node = Some BHead) then ret None else
    let! i := deref (λ _, node ≫= buf_of_node) in
    let! b := buf_at i in
    if (b_dev b =? dev) && (b_blockno b =? blockno) then
      mod_buf i (set_refc (u32 (b_refc b + 1))) ;;
      onm (spin_put L_bcache) ;;
      lock_buf i ;;
      ret (Some i)
    else
      let! nxt := deref (λ s, ld_next (bnodes s.2) node) in
      bget_hit fuel dev blockno nxt
  end.

(** The loop of [bget] that recycles the least recently used free buffer. *)
Fixpoint bget_miss (fuel : nat) (dev blockno : Z) (node : option bnode) : BM (option nat) :=
  match fuel with
  | O => fault
  | S fuel =>
    if bool_decide (node = Some BHead) then ret None else
    let! i := deref (λ _, node ≫= buf_of_node) in
    let! b := buf_at i in
    if b_refc b =? 0 then
      mod_buf i (claim_buf dev blockno) ;;
      onm (spin_put L_bcache) ;;
      lock_buf i ;;
      ret (Some i)
    else
      let! prv := deref (λ s, ld_prev (bnodes s.2) node) in
      bget_miss fuel dev blockno prv
  end.

(** The list has [NIOBUF] nodes, so a walk of [NIOBUF + 1] steps ends. *)
Definition bget (dev blockno : Z) : BM nat :=
  onm (spin_get L_bcache) ;;
  let! first := deref (λ s, ld_next (bnodes s.2) (Some BHead)) in
  let! hit := bget_hit (S NIOBUF) dev blockno first in
  match hit with
  | Some i => ret i
  | None =>
    let! last := deref (λ s, ld_prev (bnodes s.2) (Some BHead)) in
    let! miss := bget_miss (S NIOBUF) dev blockno last in
    match miss with Some i => ret i | None => panic "bget: bcache exhausted" end
  end.

(** [disk_read(b)] and [disk_write(b)] through the driver. *)
Definition disk_read (i : nat) : BM unit :=
  let! b := buf_at i in
  modify (λ s, (s.1, upd_buf i (set_data (disk_rd (b_blockno b) (bdisk s.2))) s.2)).
Definition disk_write (i : nat) : BM unit :=
  let! b := buf_at i in
  modify (λ s, (s.1, MkBcache (bufs s.2) (bnodes s.2)
                       (disk_wr (b_blockno b) (b_data b) (bdisk s.2)))).

Definition bread (dev blockno : Z) : BM nat :=
  let! i := bget dev blockno in
  let! b := buf_at i in
  when (negb (b_valid b)) (disk_read i ;; mod_buf i (set_valid true)) ;;
  ret i.

Definition bwrite (i : nat) : BM unit :=
  let! h := holding_buf i in
  if negb h then panic "bwrite: not holding lock" else disk_write i.

(** [for (int i = 0; i < BSIZE / 8; ++i) { *sec = 0; ++sec; }], [n] rounds left. *)
Fixpoint bzero_data (n sec : nat) (d : list Z) : list Z :=
  match n with O => d | S n => bzero_data n (sec + 8) (put_at 8 sec 0 d) end.
Definition bzero (i : nat) : BM unit :=
  let! b := buf_at i in
  mod_buf i (set_data (bzero_data (BSIZE / 8) 0 (b_data b))) ;;
  bwrite i.

Definition brelse (i : nat) : BM unit :=
  let! h := holding_buf i in
  if negb h then panic "brelse: not holding lock" else
  unlock_buf i ;;
  onm (spin_get L_bcache) ;;
  let! b := buf_at i in
  mod_buf i (set_refc (u32 (b_refc b - 1))) ;;
  let! b := buf_at i in
  when (b_refc b =? 0)
    (update (λ s, h ← list_remove (BNode i) (bnodes s.2);
                  Some (s.1, MkBcache (bufs s.2) h (bdisk s.2))) ;;
     update (λ s, h ← list_pushfront BHead (BNode i) (bnodes s.2);
                  Some (s.1, MkBcache (bufs s.2) h (bdisk s.2)))) ;;
  onm (spin_put L_bcache).

(** [init_bcache]: link the statically zeroed buffers (the lock names are not modelled). *)
Fixpoint init_loop (n i : nat) (h : gmap bnode (list_node bnode)) :
    option (gmap bnode (list_node bnode)) :=
  match n with
  | O => Some h
  | S n => h ← list_pushback BHead (BNode i) h; init_loop n (S i) h
  end.
Definition buf0 : buf := MkBuf 0 0 0 false false sleep0 zero_block.
Definition zero_nodes : gmap bnode (list_node bnode) :=
  list_to_map ((λ k, (k, LNode None None)) <$> BHead :: (BNode <$> seq 0 NIOBUF)).
Definition init_bcache (dk : D) : option bcache :=
  h ← list_init BHead zero_nodes;
  h ← init_loop NIOBUF 0 h;
  Some (MkBcache (replicate NIOBUF buf0) h dk).

(** ** The invariant

    [order] is the list order.  Outside a call every buffer is either held by the
    running task, with one reference, or free, and then it agrees with the disk
    unless it was never used. *)
Definition buf_inv (s : mach * bcache) (b : buf) : Prop :=
  is_block (b_data b) ∧ b_dev b = ROOTDEV ∧ blk (b_blockno b) ∧
  ((b_lock b = MkSleep true (mytask s.1) ∧ b_refc b = 1 ∧ b_valid b = true ∧ b_blockno b ≠ 0) ∨
   (b_lock b = sleep0 ∧ b_refc b = 0 ∧
    if b_valid b then b_data b = disk_rd (b_blockno b) (bdisk s.2) else b_blockno b = 0)).

Record bio_inv (order : list nat) (s : mach * bcache) : Prop := {
  bi_len : length (bufs s.2) = NIOBUF;
  bi_list : dlist (bnodes s.2) BHead (BNode <$> order);
  bi_perm : order ≡ₚ seq 0 NIOBUF;
  bi_mach : can_sleep s.1;
  bi_buf : ∀ i b, bufs s.2 !! i = Some b → buf_inv s b;
  bi_uniq : ∀ i j b b', bufs s.2 !! i = Some b → bufs s.2 !! j = Some b' →
    b_blockno b = b_blockno b' → b_blockno b ≠ 0 → i = j;
}.

Definition held (s : mach * bcache) (i : nat) : option (Z * list Z) :=
  b ← bufs s.2 !! i; if s_locked (b_lock b) then Some (b_blockno b, b_data b) else None.
Definition nheld (s : mach * bcache) : nat := countb (λ b, s_locked (b_lock b)) (bufs s.2).

Lemma order_elem order s i : bio_inv order s → i ∈ order ↔ (i < NIOBUF)%nat.
Proof. intros I. rewrite (bi_perm _ _ I), elem_of_seq. lia. Qed.
Lemma order_length order s : bio_inv order s → length order = NIOBUF.
Proof. intros I. by rewrite (bi_perm _ _ I), length_seq. Qed.
Lemma order_buf order s i : bio_inv order s → i ∈ order → ∃ b, bufs s.2 !! i = Some b.
Proof.
  intros I Hi. rewrite order_elem in Hi by done. rewrite <- (bi_len _ _ I) in Hi.
  by apply lookup_lt_is_Some_2.
Qed.

(** ** The two walks of [bget] find the first match and the last free buffer *)

Definition hit_test (s : mach * bcache) (dev blockno : Z) (i : nat) : bool :=
  match bufs s.2 !! i with
  | Some b => (b_dev b =? dev) && (b_blockno b =? blockno) | None => false end.
Definition free_test (s : mach * bcache) (i : nat) : bool :=
  match bufs s.2 !! i with Some b => b_refc b =? 0 | None => false end.
Definition take_buf (i : nat) (f : buf → buf) : BM (option nat) :=
  mod_buf i f ;; onm (spin_put L_bcache) ;; lock_buf i ;; ret (Some i).
Definition refc_inc (b : buf) : buf := set_refc (u32 (b_refc b + 1)) b.

Lemma buf_at_ok i b s : bufs s.2 !! i = Some b → buf_at i s = Ok b s.
Proof. intros E. unfold buf_at, deref. by rewrite E. Qed.
Lemma mod_buf_ok i b f s : bufs s.2 !! i = Some b → mod_buf i f s = Ok tt (s.1, upd_buf i f s.2).
Proof. intros E. unfold mod_buf. run (buf_at_ok i b s E). done. Qed.

Lemma bget_hit_spec s dev n l1 l2 fuel :
  dlist (bnodes s.2) BHead (BNode <$> l1 ++ l2) → (length l2 < fuel)%nat →
  (∀ i, i ∈ l2 → is_Some (bufs s.2 !! i)) →
  bget_hit fuel dev n (Some (default BHead (hd_error (BNode <$> l2)))) s =
  match List.find (hit_test s dev n) l2 with
  | Some i => take_buf i (set_refc (u32 (default 0 (b_refc <$> bufs s.2 !! i) + 1))) s
  | None => Ok None s
  end.
Proof.
  revert l1 fuel. induction l2 as [|i l2 IH]; intros l1 [|fuel] Hd Hf Hb; cbn in Hf; try lia.
  - cbn. by rewrite bool_decide_eq_true_2.
  - cbn. rewrite bool_decide_eq_false_2 by done. unfold bind at 1, deref at 1. cbn.
    destruct (Hb i) as [b Eb]; [set_solver|]. run (buf_at_ok i b s Eb).
    unfold hit_test at 1. rewrite Eb. cbn.
    destruct ((b_dev b =? dev) && (b_blockno b =? n)) eqn:Et; [by rewrite Eb|].
    unfold bind at 1, deref at 1.
    rewrite fmap_app, fmap_cons in Hd. rewrite (dlist_next _ _ _ _ _ Hd).
    apply (IH (l1 ++ [i])); [|lia|set_solver].
    rewrite <- app_assoc. cbn. by rewrite fmap_app, fmap_cons.
Qed.

Lemma bget_miss_spec s dev n l1 l2 fuel :
  dlist (bnodes s.2) BHead (BNode <$> l1 ++ l2) → (length l1 < fuel)%nat →
  (∀ i, i ∈ l1 → is_Some (bufs s.2 !! i)) →
  bget_miss fuel dev n (Some (default BHead (list.last (BNode <$> l1)))) s =
  match List.find (free_test s) (reverse l1) with
  | Some i => take_buf i (claim_buf dev n) s
  | None => Ok None s
  end.
Proof.
  revert l2 fuel. induction l1 as [|i l1 IH] using rev_ind; intros l2 [|fuel] Hd Hf Hb;
    rewrite ?length_app in Hf; cbn in Hf; try lia.
  - cbn. by rewrite bool_decide_eq_true_2.
  - rewrite fmap_app, reverse_app. cbn [fmap list_fmap]. rewrite last_snoc. cbn.
    rewrite bool_decide_eq_false_2 by done. unfold bind at 1, deref at 1. cbn.
    destruct (Hb i) as [b Eb]; [set_solver|]. run (buf_at_ok i b s Eb).
    unfold free_test at 1. rewrite Eb. destruct (b_refc b =? 0) eqn:Et; [done|].
    unfold bind at 1, deref at 1.
    rewrite <- app_assoc in Hd. cbn in Hd. rewrite fmap_app, fmap_cons in Hd.
    rewrite (dlist_prev _ _ _ _ _ Hd).
    apply (IH (i :: l2)); [|lia|set_solver]. by rewrite fmap_app, fmap_cons.
Qed.

(** ** [bget] *)

Definition put_buf (i : nat) (b : buf) (c : bcache) : bcache := set_bufs <[i := b]> c.
Lemma upd_buf_eq i f b c : bufs c !! i = Some b → upd_buf i f c = put_buf i (f b) c.
Proof.
  intros E. unfold upd_buf, put_buf, set_bufs. f_equal. apply list_eq. intros j.
  destruct (decide (i = j)) as [<-|Hne].
  - rewrite list_lookup_alter_eq, E, list_lookup_insert_eq; [done|by eapply lookup_lt_Some].
  - by rewrite list_lookup_alter_ne, list_lookup_insert_ne.
Qed.
Lemma put_put i b b' c : put_buf i b (put_buf i b' c) = put_buf i b c.
Proof. unfold put_buf, set_bufs. cbn. by rewrite list_insert_insert_eq. Qed.
Lemma lookup_put_eq i b b' c : bufs c !! i = Some b' → bufs (put_buf i b c) !! i = Some b.
Proof. intros E. cbn. apply list_lookup_insert_eq. by eapply lookup_lt_Some. Qed.
Lemma lookup_put i j b b' c : bufs c !! i = Some b' →
  bufs (put_buf i b c) !! j = if decide (j = i) then Some b else bufs c !! j.
Proof.
  intros E. case_decide as Hd; [subst; by eapply lookup_put_eq|].
  cbn. by apply list_lookup_insert_ne.
Qed.

(** A buffer locked by task [t]. *)
Definition locked_by (t : option nat) (b : buf) : buf := set_lock (MkSleep true t) b.

Lemma lock_buf_ok i b m c : bufs c !! i = Some b → b_lock b = sleep0 →
  lock_buf i (m, c) = Ok tt (m, put_buf i (locked_by (mytask m) b) c).
Proof.
  intros E El. unfold lock_buf. rewrite sleep_get_free by (cbn; rewrite E; cbn; congruence).
  rewrite (upd_buf_eq i _ b c E), (upd_buf_eq i _ _ _ (lookup_put_eq i _ b c E)), put_put. done.
Qed.

Lemma lock_buf_again i b m c : bufs c !! i = Some b → b_lock b = MkSleep true (mytask m) →
  lock_buf i (m, c) = Panic "sleep_get" (m, c).
Proof. intros E El. unfold lock_buf. apply sleep_get_again. cbn. rewrite E. cbn. congruence. Qed.

Lemma onm_ok {A} (k : M mach A) m c a m' : k m = Ok a m' →
  onm (X := bcache) k (m, c) = Ok a (m', c).
Proof. intros E. unfold onm, zoom. cbn. by rewrite E. Qed.

Lemma spin_put_acq m l c : quiet m →
  onm (X := bcache) (spin_put l) (acq l m, c) = Ok tt (touch m, c).
Proof.
  intros Hq. apply onm_ok. rewrite spin_put_held by apply acq_held.
  by rewrite rel_acq by auto with mach.
Qed.

Lemma take_buf_ok i f b m c : bufs c !! i = Some b → quiet m → b_lock (f b) = sleep0 →
  take_buf i f (acq L_bcache m, c) =
  Ok (Some i) (touch m, put_buf i (locked_by (mytask m) (f b)) c).
Proof.
  intros E Hq El. unfold take_buf. run (mod_buf_ok i b f (acq L_bcache m, c) E). cbn [fst snd].
  rewrite (upd_buf_eq _ _ _ _ E). run (spin_put_acq m L_bcache (put_buf i (f b) c) Hq).
  run (lock_buf_ok i (f b) (touch m) (put_buf i (f b) c) (lookup_put_eq i _ b c E) El).
  by rewrite put_put.
Qed.

Lemma bget_run dev n order m c : bio_inv order (m, c) →
  bget dev n (m, c) =
  match List.find (hit_test (m, c) dev n) order with
  | Some i => match take_buf i (set_refc (u32 (default 0 (b_refc <$> bufs c !! i) + 1)))
                (acq L_bcache m, c) with
              | Ok (Some j) s => Ok j s | Ok None s => Fault s
              | Panic msg s => Panic msg s | Fault s => Fault s
              | Switch s => Switch s | Spin s => Spin s end
  | None => match List.find (free_test (m, c)) (reverse order) with
            | Some i => match take_buf i (claim_buf dev n) (acq L_bcache m, c) with
                        | Ok (Some j) s => Ok j s | Ok None s => Fault s
                        | Panic msg s => Panic msg s | Fault s => Fault s
                        | Switch s => Switch s | Spin s => Spin s end
            | None => Panic "bget: bcache exhausted" (acq L_bcache m, c)
            end
  end.
Proof.
  intros I. pose proof (bi_list _ _ I) as Hl. cbn in Hl.
  pose proof (order_length _ _ I) as Hn.
  assert (Hb : ∀ i, i ∈ order → is_Some (bufs c !! i)) by (intros i Hi; by apply (order_buf order (m, c))).
  unfold bget. run (onm_ok _ _ c _ _ (spin_get_free L_bcache m (quiet_free _ _ (proj1 (bi_mach _ _ I))))).
  unfold bind at 1, deref at 1. cbn [snd bnodes]. rewrite (dlist_first _ _ _ Hl).
  unfold bind at 1.
  rewrite (bget_hit_spec (acq L_bcache m, c) dev n [] order) by (done || lia).
  change (hit_test (acq L_bcache m, c) dev n) with (hit_test (m, c) dev n).
  destruct (List.find _ order) as [i|]; cbn [snd].
  { unfold take_buf, bind, ret. destruct (mod_buf _ _ _); try done.
    destruct (onm _ _); try done. by destruct (lock_buf _ _). }
  unfold bind at 1, deref at 1. cbn [snd bnodes]. rewrite (dlist_last _ _ _ Hl).
  unfold bind at 1.
  rewrite (bget_miss_spec (acq L_bcache m, c) dev n order []) by (done || lia || by rewrite app_nil_r).
  change (free_test (acq L_bcache m, c)) with (free_test (m, c)).
  destruct (List.find _ (reverse order)) as [i|]; [|done].
  unfold take_buf, bind, ret. destruct (mod_buf _ _ _); try done.
  destruct (onm _ _); try done. by destruct (lock_buf _ _).
Qed.

(** ** Preservation of the invariant *)

Lemma buf_inv_frame m m' c b : mach_frame m m' → buf_inv (m, c) b → buf_inv (m', c) b.
Proof. intros Hf. unfold buf_inv. cbn. by rewrite (frame_mytask _ _ Hf). Qed.

Lemma bio_inv_put order m m' c i b b' :
  bio_inv order (m, c) → mach_frame m m' → bufs c !! i = Some b → buf_inv (m', c) b' →
  (b_blockno b' = b_blockno b ∨ ∀ j b'', bufs c !! j = Some b'' → b_blockno b'' ≠ b_blockno b') →
  bio_inv order (m', put_buf i b' c).
Proof.
  intros I Hf E Hb' Hn. pose proof (bi_uniq _ _ I) as Hu. cbn in Hu.
  split; cbn [fst snd].
  - cbn. rewrite length_insert. apply (bi_len _ _ I).
  - apply (bi_list _ _ I).
  - apply (bi_perm _ _ I).
  - eapply frame_can_sleep; [done|apply (bi_mach _ _ I)].
  - intros j bj. rewrite (lookup_put i j b' b c E). case_decide; [by intros [= <-]|].
    intros Ej. eapply buf_inv_frame; [done|]. by apply (bi_buf _ _ I j).
  - intros j k bj bk. rewrite !(lookup_put _ _ b' b c E).
    repeat case_decide; subst; try done.
    + intros [= <-] Ek Hbn Hnz. destruct Hn as [Hn|Hn]; [|by destruct (Hn _ _ Ek)].
      eapply Hu; [done|done|congruence|congruence].
    + intros Ek [= <-] Hbn Hnz. destruct Hn as [Hn|Hn]; [|by destruct (Hn _ _ Ek)].
      eapply Hu; [done|done|congruence|congruence].
    + intros Ej Ek. by apply Hu.
Qed.

Lemma held_put m m' c i b b' j : bufs c !! i = Some b →
  held (m', put_buf i b' c) j =
  if decide (j = i) then if s_locked (b_lock b') then Some (b_blockno b', b_data b') else None
  else held (m, c) j.
Proof. intros E. unfold held. cbn [snd]. rewrite (lookup_put i j b' b c E). by case_decide. Qed.

Lemma nheld_put m m' c i b b' : bufs c !! i = Some b →
  (nheld (m', put_buf i b' c) + (if s_locked (b_lock b) then 1 else 0) =
   nheld (m, c) + (if s_locked (b_lock b') then 1 else 0))%nat.
Proof. intros E. exact (countb_insert (λ b, s_locked (b_lock b)) _ _ _ b' E). Qed.

Lemma held_Some s i n d : held s i = Some (n, d) ↔
  ∃ b, bufs s.2 !! i = Some b ∧ s_locked (b_lock b) = true ∧ b_blockno b = n ∧ b_data b = d.
Proof.
  unfold held. destruct (bufs s.2 !! i) as [b|]; cbn.
  - split.
    + destruct (s_locked (b_lock b)) eqn:E; [|done]. intros [= <- <-]. by exists b.
    + intros (b' & [= <-] & -> & -> & ->). done.
  - split; [done|]. by intros (b & ? & _).
Qed.

(** The shape of a held buffer. *)
Lemma held_inv order m c i n d : bio_inv order (m, c) → held (m, c) i = Some (n, d) →
  ∃ b, bufs c !! i = Some b ∧ b_lock b = MkSleep true (mytask m) ∧ b_refc b = 1 ∧
    b_valid b = true ∧ b_blockno b = n ∧ b_data b = d ∧ b_dev b = ROOTDEV ∧
    is_block d ∧ blk n ∧ n ≠ 0.
Proof.
  intros I (b & E & Hl & <- & <-)%held_Some. exists b.
  destruct (bi_buf _ _ I i b E) as (? & ? & ? & [(?&?&?&?)|(Hl'&?&?)]); [done|].
  by rewrite Hl' in Hl.
Qed.

(** ** [bread] *)

(** What [bread] leaves: buffer [i] holds block [n] for the running task. *)
Definition bread_post (order : list nat) (m : mach) (c : bcache) (n : Z) (i : nat) (b b' : buf) :
    Prop :=
  bufs c !! i = Some b ∧ s_locked (b_lock b) = false ∧
  bread ROOTDEV n (m, c) = Ok i (touch m, put_buf i b' c) ∧
  b_lock b' = MkSleep true (mytask m) ∧ b_blockno b' = n ∧ b_data b' = disk_rd n (bdisk c) ∧
  bio_inv order (touch m, put_buf i b' c).

Lemma bread_hit order m c n i : bio_inv order (m, c) → blk n → n ≠ 0 →
  (∀ b d, held (m, c) b ≠ Some (n, d)) →
  List.find (hit_test (m, c) ROOTDEV n) order = Some i → ∃ b b', bread_post order m c n i b b'.
Proof.
  intros I Hn Hn0 Hheld Eh. assert (Hq : quiet m) by apply (bi_mach _ _ I).
  pose proof (bget_run ROOTDEV n _ _ _ I) as Eg. rewrite Eh in Eg.
  apply find_split in Eh as (l1 & l2 & _ & Ht & _). unfold hit_test in Ht. cbn in Ht.
  destruct (bufs c !! i) as [b|] eqn:Eb; [|done].
  apply andb_true_iff in Ht as [_ Hbn%Z.eqb_eq].
  destruct (bi_buf _ _ I i b Eb) as (Hblk & Hdev & _ & [(Hl & _)|(Hl & Hr & Hv)]).
  { destruct (Hheld i (b_data b)). apply held_Some. exists b. cbn. by rewrite Hl. }
  destruct (b_valid b) eqn:Ev; [|congruence]. cbn [fst snd] in *.
  rewrite (take_buf_ok i _ b) in Eg by done. cbn in Eg. rewrite Hr in Eg.
  set (b' := locked_by (mytask m) (set_refc 1 b)) in *.
  exists b, b'. split; [done|]. split; [by rewrite Hl|]. split.
  { unfold bread. run Eg. unfold bind at 1.
    rewrite (buf_at_ok i b') by (by eapply lookup_put_eq).
    assert (b_valid b' = true) as -> by done. done. }
  split; [done|]. split; [done|]. split; [by rewrite <- Hbn|].
  eapply bio_inv_put; [done|apply touch_frame|done| |by left].
  unfold buf_inv, b'. cbn. split; [done|]. split; [done|]. split; [by rewrite Hbn|].
  left. split_and!; try done. congruence.
Qed.

(** While a buffer is left, the recycling walk finds a free one. *)
Lemma free_exists order m c : bio_inv order (m, c) → (nheld (m, c) < NIOBUF)%nat →
  ∃ i, List.find (free_test (m, c)) (reverse order) = Some i.
Proof.
  intros I Hnh. destruct (List.find _ _) as [i|] eqn:Ef; [eauto|]. exfalso.
  apply find_none_iff in Ef. rewrite Forall_forall in Ef.
  unfold nheld in Hnh. rewrite <- (bi_len _ _ I) in Hnh.
  apply countb_lt_exists in Hnh as (j & bj & Ej & Hlj).
  assert (Hjo : j ∈ reverse order).
  { rewrite elem_of_reverse, (order_elem _ _ _ I), <- (bi_len _ _ I). by eapply lookup_lt_Some. }
  specialize (Ef j Hjo). unfold free_test in Ef. rewrite Ej in Ef.
  destruct (bi_buf _ _ I j bj Ej) as (_ & _ & _ & [(Hl & _)|(_ & Hr & _)]);
    [by rewrite Hl in Hlj|by rewrite Hr in Ef].
Qed.

(** A block the first walk does not find is in no buffer. *)
Lemma hit_none order m c n j b : bio_inv order (m, c) →
  List.find (hit_test (m, c) ROOTDEV n) order = None → bufs c !! j = Some b → b_blockno b ≠ n.
Proof.
  intros I Eh Ej Hj. apply find_none_iff in Eh. rewrite Forall_forall in Eh.
  assert (Hjo : j ∈ order).
  { rewrite (order_elem _ _ _ I), <- (bi_len _ _ I). by eapply lookup_lt_Some. }
  specialize (Eh j Hjo). unfold hit_test in Eh. cbn in Eh. rewrite Ej in Eh.
  destruct (bi_buf _ _ I j b Ej) as (_ & Hdev & _). by rewrite Hdev, Hj, !Z.eqb_refl in Eh.
Qed.

Lemma bread_miss order m c n i : bio_inv order (m, c) → blk n → n ≠ 0 →
  List.find (hit_test (m, c) ROOTDEV n) order = None →
  List.find (free_test (m, c)) (reverse order) = Some i → ∃ b b', bread_post order m c n i b b'.
Proof.
  intros I Hn Hn0 Eh Ef. assert (Hq : quiet m) by apply (bi_mach _ _ I).
  pose proof (bget_run ROOTDEV n _ _ _ I) as Eg. rewrite Eh, Ef in Eg.
  apply find_split in Ef as (l1 & l2 & _ & Ht & _). unfold free_test in Ht. cbn in Ht.
  destruct (bufs c !! i) as [b|] eqn:Eb; [|done]. apply Z.eqb_eq in Ht.
  destruct (bi_buf _ _ I i b Eb) as (Hblk & Hdev & _ & [(_ & Hr & _)|(Hl & Hr & Hv)]); [lia|].
  rewrite (take_buf_ok i _ b) in Eg by done.
  set (b1 := locked_by (mytask m) (claim_buf ROOTDEV n b)) in *.
  set (b2 := set_data (disk_rd n (bdisk c)) b1).
  exists b, (set_valid true b2). split; [done|]. split; [by rewrite Hl|].
  split.
  { pose proof (lookup_put_eq i b1 b c Eb) as E1. pose proof (lookup_put_eq i b2 b c Eb) as E2.
    unfold bread. run Eg. run (buf_at_ok i b1 (touch m, put_buf i b1 c) E1).
    cbn [b_valid b1 locked_by set_lock claim_buf negb when]. unfold disk_read.
    run (buf_at_ok i b1 (touch m, put_buf i b1 c) E1).
    unfold bind at 1, modify at 1. cbn [fst snd].
    rewrite (upd_buf_eq i _ b1 _ E1), put_put.
    run (mod_buf_ok i b2 (set_valid true) (touch m, put_buf i b2 c) E2).
    cbn [fst snd]. by rewrite (upd_buf_eq i _ b2 _ E2), put_put. }
  split; [done|]. split; [done|]. split; [done|].
  eapply bio_inv_put; [done|apply touch_frame|done| |].
  - unfold buf_inv. cbn. split; [by apply disk_rd_block|]. split; [done|]. split; [done|]. by left.
  - right. intros j b'' Ej. by eapply hit_none.
Qed.

Lemma bread_spec order m c n : bio_inv order (m, c) → blk n → n ≠ 0 →
  (nheld (m, c) < NIOBUF)%nat → (∀ b d, held (m, c) b ≠ Some (n, d)) →
  ∃ i b b', bread_post order m c n i b b'.
Proof.
  intros I Hn Hn0 Hnh Hheld.
  destruct (List.find (hit_test (m, c) ROOTDEV n) order) as [i|] eqn:Eh.
  - exists i. by apply bread_hit.
  - destruct (free_exists _ _ _ I Hnh) as [i Ef]. exists i. by apply bread_miss.
Qed.


(** ** [bread] of a block the task already holds *)
Lemma bread_twice order m c n i d : bio_inv order (m, c) → held (m, c) i = Some (n, d) →
  ∃ s', bread ROOTDEV n (m, c) = Panic "sleep_get" s'.
Proof.
  intros I Hh.
  destruct (held_inv _ _ _ _ _ _ I Hh) as (b & Eb & Hl & _ & _ & Hbn & _ & Hdev & _ & _ & Hn0).
  assert (Hq : quiet m) by apply (bi_mach _ _ I).
  assert (Hi : i ∈ order).
  { rewrite (order_elem _ _ _ I), <- (bi_len _ _ I). by eapply lookup_lt_Some. }
  pose proof (bget_run ROOTDEV n _ _ _ I) as Eg.
  destruct (List.find (hit_test (m, c) ROOTDEV n) order) as [j|] eqn:Eh.
  2: { apply find_none_iff in Eh. rewrite Forall_forall in Eh. specialize (Eh i Hi).
       unfold hit_test in Eh. cbn in Eh. by rewrite Eb, Hdev, Hbn, !Z.eqb_refl in Eh. }
  apply find_split in Eh as (l1 & l2 & _ & Ht & _). unfold hit_test in Ht. cbn in Ht.
  destruct (bufs c !! j) as [bj|] eqn:Ej; [|done].
  apply andb_true_iff in Ht as [_ Hbj%Z.eqb_eq].
  assert (j = i) as ->.
  { eapply (bi_uniq _ _ I); [exact Ej|exact Eb|congruence|congruence]. }
  assert (bj = b) as -> by congruence.
  set (f := set_refc _) in Eg. unfold take_buf, bind at 1 in Eg.
  rewrite (mod_buf_ok i b f) in Eg by done. cbn [fst snd] in Eg.
  rewrite (upd_buf_eq _ _ _ _ Eb) in Eg.
  unfold bind at 1 in Eg. rewrite (spin_put_acq m L_bcache _ Hq) in Eg.
  unfold bind at 1 in Eg.
  rewrite (lock_buf_again i (f b)) in Eg by (done || by eapply lookup_put_eq).
  eexists. unfold bread, bind at 1. by rewrite Eg.
Qed.

(** ** [bwrite], [bzero] and [brelse] *)

Lemma holding_buf_ok order m c i n d : bio_inv order (m, c) → held (m, c) i = Some (n, d) →
  holding_buf i (m, c) = Ok true (m, c).
Proof.
  intros I Hh. destruct (held_inv _ _ _ _ _ _ I Hh) as (b & Eb & Hl & _).
  unfold holding_buf. rewrite (sleep_holding_eq _ m c (b_lock b)) by (cbn; by rewrite Eb).
  rewrite Hl. cbn. by rewrite bool_decide_eq_true_2.
Qed.

Definition with_disk (dk : D) (c : bcache) : bcache := MkBcache (bufs c) (bnodes c) dk.

Lemma bwrite_run order m c i n d : bio_inv order (m, c) → held (m, c) i = Some (n, d) →
  bwrite i (m, c) = Ok tt (m, with_disk (disk_wr n d (bdisk c)) c).
Proof.
  intros I Hh. unfold bwrite. run (holding_buf_ok _ _ _ _ _ _ I Hh). cbn [negb].
  destruct (held_inv _ _ _ _ _ _ I Hh) as (b & Eb & _ & _ & _ & <- & <- & _).
  unfold disk_write, bind. by rewrite (buf_at_ok i b).
Qed.

Lemma bio_inv_write order m c i n d : bio_inv order (m, c) → held (m, c) i = Some (n, d) →
  bio_inv order (m, with_disk (disk_wr n d (bdisk c)) c).
Proof.
  intros I Hh.
  destruct (held_inv _ _ _ _ _ _ I Hh) as (b & Eb & Hl & _ & _ & Hbn & _ & _ & Hd & Hn & Hn0).
  split; cbn; try apply I. intros j bj Ej.
  destruct (bi_buf _ _ I j bj Ej) as (H1 & H2 & H3 & [H4|(H4 & H5 & H6)]).
  - split_and!; auto.
  - split; [done|]. split; [done|]. split; [done|]. right. split; [done|]. split; [done|].
    destruct (b_valid bj); [|done]. cbn. rewrite disk_rd_wr by done. case_decide as Hj; [|done].
    assert (j = i) as -> by (eapply (bi_uniq _ _ I); [exact Ej|exact Eb|congruence|congruence]).
    assert (bj = b) as -> by congruence. by rewrite Hl in H4.
Qed.

Lemma bzero_data_spec n sec d : (sec + 8 * n = length d)%nat →
  bzero_data n sec d = take sec d ++ replicate (8 * n) 0.
Proof.
  revert sec d. induction n as [|n IH]; intros sec d Hd.
  - cbn. rewrite app_nil_r, take_ge by lia. done.
  - cbn [bzero_data]. rewrite IH by (rewrite length_put_at; lia).
    unfold put_at. change (le_split 8 0) with (replicate 8 0).
    rewrite take_app, length_take. replace (sec + 8 - sec `min` length d)%nat with 8%nat by lia.
    rewrite take_take, take_app_length' by (by rewrite length_replicate).
    rewrite <- app_assoc, <- replicate_add. f_equal; [f_equal; lia|]. f_equal. lia.
Qed.
Lemma bzero_data_block d : is_block d → bzero_data (BSIZE / 8) 0 d = zero_block.
Proof. intros [Hl _]. rewrite bzero_data_spec by (rewrite Hl; done). done. Qed.

Lemma bio_inv_data order m c i n d d' b : bio_inv order (m, c) → held (m, c) i = Some (n, d) →
  is_block d' → bufs c !! i = Some b → bio_inv order (m, put_buf i (set_data d' b) c).
Proof.
  intros I Hh Hd' Eb. destruct (held_inv _ _ _ _ _ _ I Hh) as (b' & Eb' & ? & ? & ? & ? & ? & ? & ? & ? & ?).
  assert (b' = b) as -> by congruence.
  eapply bio_inv_put; [done|done|done| |by left]. unfold buf_inv. cbn. split; [done|].
  split; [done|]. split; [congruence|]. left. split_and!; congruence.
Qed.

Lemma bzero_run order m c i n d b : bio_inv order (m, c) → held (m, c) i = Some (n, d) →
  bufs c !! i = Some b →
  bzero i (m, c) =
    Ok tt (m, with_disk (disk_wr n zero_block (bdisk c)) (put_buf i (set_data zero_block b) c)).
Proof.
  intros I Hh Eb. destruct (held_inv _ _ _ _ _ _ I Hh) as (b' & Eb' & Hl & _ & _ & Hbn & Hd & _ & Hblk & _).
  assert (b' = b) as -> by congruence.
  unfold bzero. run (buf_at_ok i b (m, c) Eb). run (mod_buf_ok i b (set_data (bzero_data (BSIZE / 8) 0 (b_data b))) (m, c) Eb).
  cbn [fst snd]. rewrite (upd_buf_eq _ _ _ _ Eb), Hd, (bzero_data_block _ Hblk).
  erewrite (bwrite_run order).
  - done.
  - eapply bio_inv_data; [done|done|apply zero_block_ok|done].
  - apply held_Some. exists (set_data zero_block b). cbn [snd].
    split; [by eapply lookup_put_eq|]. cbn. by rewrite Hl.
Qed.

Lemma unlock_buf_ok order m c i n d b : bio_inv order (m, c) → held (m, c) i = Some (n, d) →
  bufs c !! i = Some b →
  ∃ m', unlock_buf i (m, c) = Ok tt (m', put_buf i (set_lock sleep0 b) c) ∧ mach_frame m m'.
Proof.
  intros I Hh Eb. destruct (held_inv _ _ _ _ _ _ I Hh) as (b' & Eb' & Hl & _).
  assert (b' = b) as -> by congruence. unfold unlock_buf.
  edestruct (sleep_put_held (λ c, b_lock <$> bufs c !! i) (λ l, upd_buf i (set_lock l)) (ChBufLock i))
    as (m' & E & _ & Hf); [|apply (bi_mach _ _ I)|].
  { cbn. by rewrite Eb, <- Hl. }
  exists m'. split; [|done]. etransitivity; [exact E|]. by rewrite (upd_buf_eq _ _ _ _ Eb).
Qed.

(** The list after moving node [i] to the front. *)
Lemma move_front order h i : dlist h BHead (BNode <$> order) → NoDup order → i ∈ order →
  ∃ l1 l2 h1 h2, order = l1 ++ i :: l2 ∧ list_remove (BNode i) h = Some h1 ∧
    list_pushfront BHead (BNode i) h1 = Some h2 ∧ dlist h2 BHead (BNode <$> i :: l1 ++ l2).
Proof.
  intros Hd Hnd (l1 & l2 & ->)%list_elem_of_split.
  rewrite fmap_app, fmap_cons in Hd.
  destruct (list_remove_spec _ _ _ _ _ Hd) as (h1 & E1 & Hd1 & Hn1 & _ & _).
  destruct (list_pushfront_spec h1 BHead (BNode <$> l1 ++ l2) (BNode i)) as (h2 & E2 & Hd2 & _).
  - by rewrite fmap_app.
  - rewrite elem_of_cons. intros [?|(j & [= <-] & Hj)%list_elem_of_fmap]; [done|].
    apply NoDup_app in Hnd as (_ & Hdj & [Hi _]%NoDup_cons).
    apply elem_of_app in Hj as [Hj|Hj]; [|done]. apply (Hdj i Hj). set_solver.
  - by rewrite Hn1.
  - exists l1, l2, h1, h2. split; [done|]. split; [done|]. split; [done|]. exact Hd2.
Qed.

Lemma brelse_spec order m c i n d : bio_inv order (m, c) → held (m, c) i = Some (n, d) →
  d = disk_rd n (bdisk c) →
  ∃ m' b h l1 l2, bufs c !! i = Some b ∧ order = l1 ++ i :: l2 ∧ mach_frame m m' ∧
    let c' := MkBcache (<[i := set_refc 0 (set_lock sleep0 b)]> (bufs c)) h (bdisk c) in
    brelse i (m, c) = Ok tt (m', c') ∧ bio_inv (i :: l1 ++ l2) (m', c').
Proof.
  intros I Hh Hclean.
  destruct (held_inv _ _ _ _ _ _ I Hh) as (b & Eb & Hl & Hr & Hv & Hbn & Hd & Hdev & Hblk & Hn & Hn0).
  destruct (unlock_buf_ok _ _ _ _ _ _ _ I Hh Eb) as (m1 & Eu & Hf).
  assert (Hq : quiet m1) by (eapply frame_quiet; [done|apply (bi_mach _ _ I)]).
  destruct (move_front order (bnodes c) i) as (l1 & l2 & h1 & h2 & Ho & E1 & E2 & Hd2).
  { apply (bi_list _ _ I). }
  { rewrite (bi_perm _ _ I). apply NoDup_seq. }
  { rewrite (order_elem _ _ _ I), <- (bi_len _ _ I). by eapply lookup_lt_Some. }
  set (b1 := set_lock sleep0 b). set (b2 := set_refc 0 b1).
  exists (touch m1), b, h2, l1, l2. split; [done|]. split; [done|].
  split; [etransitivity; [done|apply touch_frame]|]. cbn zeta.
  pose proof (lookup_put_eq i b1 b c Eb) as L1. pose proof (lookup_put_eq i b2 b c Eb) as L2.
  split.
  - unfold brelse. run (holding_buf_ok _ _ _ _ _ _ I Hh). cbn [negb]. run Eu.
    run (onm_ok _ _ (put_buf i b1 c) _ _ (spin_get_free L_bcache m1 (quiet_free _ _ Hq))).
    run (buf_at_ok i b1 (acq L_bcache m1, put_buf i b1 c) L1).
    run (mod_buf_ok i b1 (set_refc (u32 (b_refc b1 - 1))) (acq L_bcache m1, put_buf i b1 c) L1).
    cbn [fst snd]. rewrite (upd_buf_eq _ _ _ _ L1), put_put. cbn [b1 b_refc set_lock]. rewrite Hr.
    change (u32 (1 - 1)) with 0. fold b1 b2.
    run (buf_at_ok i b2 (acq L_bcache m1, put_buf i b2 c) L2). cbn [b2 b_refc set_refc Z.eqb when].
    fold b2. unfold bind at 1, bind at 1, update. cbn [snd bnodes put_buf set_bufs].
    rewrite E1. cbn [mbind option_bind snd bnodes]. rewrite E2. cbn [mbind option_bind].
    by rewrite (spin_put_acq m1 L_bcache).
  - pose proof (bio_inv_put order m (touch m1) c i b b2 I) as I2.
    destruct I2 as [J1 J2 J3 J4 J5 J6]; [etransitivity; [done|apply touch_frame]|done| |by left|].
    { unfold buf_inv. cbn. split; [by rewrite Hd|]. split; [done|]. split; [congruence|].
      right. split; [done|]. split; [done|]. rewrite Hv. congruence. }
    split; [done|done| |done|done|done].
    rewrite <- J3, Ho. by rewrite Permutation_middle.
Qed.

(** ** Initialisation *)

Lemma link_loop_spec n i h l : dlist h BHead (BNode <$> l) →
  (∀ j, (i ≤ j < i + n)%nat → j ∉ l ∧ is_Some (h !! BNode j)) →
  ∃ h', init_loop n i h = Some h' ∧ dlist h' BHead (BNode <$> l ++ seq i n).
Proof.
  revert i h l. induction n as [|n IH]; intros i h l Hd Hj; cbn [init_loop seq].
  - exists h. by rewrite app_nil_r.
  - destruct (Hj i) as [Hi Hs]; [lia|].
    destruct (list_pushback_spec h BHead (BNode <$> l) (BNode i) Hd) as (h1 & -> & Hd1 & _ & D1).
    { rewrite elem_of_cons. by intros [?|(j & [= <-] & ?)%list_elem_of_fmap]. }
    { done. }
    cbn [mbind option_bind].
    destruct (IH (S i) h1 (l ++ [i])) as (h2 & -> & Hd2).
    { by rewrite fmap_app. }
    { intros j Hji. destruct (Hj j) as [Hnj Hsj]; [lia|]. rewrite D1. split; [|done].
      rewrite elem_of_app, list_elem_of_singleton. intros [?|?]; [done|lia]. }
    exists h2. split; [done|]. by rewrite <- app_assoc in Hd2.
Qed.

Lemma zero_nodes_dom k : k ∈ BHead :: (BNode <$> seq 0 NIOBUF) → is_Some (zero_nodes !! k).
Proof. intros Hk. apply elem_of_dom. unfold zero_nodes. rewrite dom_list_to_map_L. set_solver. Qed.

(** The statically zeroed cache, once linked, satisfies the invariant. *)
Lemma init_bcache_inv dk m : can_sleep m →
  ∃ c, init_bcache dk = Some c ∧ bio_inv (seq 0 NIOBUF) (m, c) ∧ bdisk c = dk ∧ nheld (m, c) = 0%nat.
Proof.
  intros Hm. unfold init_bcache.
  destruct (list_init_spec BHead zero_nodes) as (h0 & -> & Hd0 & _ & D0).
  { apply zero_nodes_dom. set_solver. }
  cbn [mbind option_bind].
  destruct (link_loop_spec NIOBUF 0 h0 []) as (h & -> & Hd); [done| |].
  { intros j Hj. split; [set_solver|]. apply D0, zero_nodes_dom.
    apply elem_of_cons. right. apply list_elem_of_fmap_2, elem_of_seq. lia. }
  cbn [mbind option_bind]. eexists. split; [done|]. split; [|done]. split; cbn.
  - apply length_replicate.
  - done.
  - done.
  - done.
  - intros i b [-> _]%lookup_replicate. split; [apply zero_block_ok|]. split; [done|].
    split; [unfold blk; cbn; lia|]. right. done.
  - intros i j b b' [-> _]%lookup_replicate [-> _]%lookup_replicate. done.
Qed.

(** ** The cache implements [BlockIO] *)

Definition io_ok (s : mach * bcache) : Prop := ∃ order, bio_inv order s.
Definition io_disk (s : mach * bcache) (n : Z) : list Z := disk_rd n (bdisk s.2).
Definition io_data (s : mach * bcache) (i : nat) : list Z := default [] (b_data <$> bufs s.2 !! i).
Definition io_blockno (s : mach * bcache) (i : nat) : Z :=
  default 0 (b_blockno <$> bufs s.2 !! i).
Definition io_set (i : nat) (d : list Z) (s : mach * bcache) : mach * bcache :=
  (s.1, upd_buf i (set_data d) s.2).

Lemma io_bread s n : io_ok s → blk n → n ≠ 0 → (nheld s < NIOBUF)%nat →
  (∀ b d, held s b ≠ Some (n, d)) →
  ∃ b s', bread ROOTDEV n s = Ok b s' ∧ io_ok s' ∧ held s b = None ∧
    (∀ b', held s' b' = if decide (b' = b) then Some (n, io_disk s n) else held s b') ∧
    (∀ k, io_disk s' k = io_disk s k) ∧ nheld s' = S (nheld s) ∧ mach_frame s.1 s'.1.
Proof.
  destruct s as [m c]. intros [order I] Hn Hn0 Hnh Hh.
  destruct (bread_spec order m c n I Hn Hn0 Hnh Hh) as (i & b & b' & Eb & Hl & E & Hl' & Hbn & Hd & I').
  exists i, (touch m, put_buf i b' c). split; [done|]. split; [by exists order|].
  split; [unfold held; cbn; rewrite Eb; cbn; by rewrite Hl|]. split.
  { intros j. rewrite (held_put m _ _ _ b _ _ Eb), Hl', Hbn, Hd. done. }
  split; [done|]. split; [|done].
  pose proof (nheld_put m (touch m) c i b b' Eb) as Hc. rewrite Hl, Hl' in Hc.
  cbn [s_locked] in Hc. lia.
Qed.

Lemma io_bzero s b n d : io_ok s → held s b = Some (n, d) →
  ∃ s', bzero b s = Ok tt s' ∧ io_ok s' ∧
    (∀ b', held s' b' = if decide (b' = b) then Some (n, zero_block) else held s b') ∧
    (∀ k, blk k → io_disk s' k = if decide (k = n) then zero_block else io_disk s k) ∧
    nheld s' = nheld s ∧ s'.1 = s.1.
Proof.
  destruct s as [m c]. intros [order I] Hh.
  destruct (held_inv _ _ _ _ _ _ I Hh) as (bf & Eb & Hl & _ & _ & Hbn & _ & _ & _ & Hn & _).
  rewrite (bzero_run _ _ _ _ _ _ _ I Hh Eb). eexists. split; [done|].
  set (c1 := put_buf b (set_data zero_block bf) c).
  assert (I1 : bio_inv order (m, c1)) by (eapply bio_inv_data; eauto using zero_block_ok).
  assert (Hh1 : ∀ j, held (m, c1) j = if decide (j = b) then Some (n, zero_block) else held (m, c) j).
  { intros j. unfold c1. rewrite (held_put m _ _ _ bf _ _ Eb). cbn. by rewrite Hl, Hbn. }
  split.
  { exists order. apply (bio_inv_write order m c1 b n zero_block I1). by rewrite Hh1, decide_True. }
  split; [intros j; apply Hh1|]. split.
  { intros k Hk. unfold io_disk. cbn. by rewrite disk_rd_wr by eauto using zero_block_ok. }
  split; [|done]. pose proof (nheld_put m m c b bf (set_data zero_block bf) Eb) as Hc.
  cbn [set_data b_lock] in Hc. rewrite Hl in Hc. unfold nheld in *. cbn in *. lia.
Qed.

Lemma io_brelse s b n d : io_ok s → held s b = Some (n, d) → d = io_disk s n →
  ∃ s', brelse b s = Ok tt s' ∧ io_ok s' ∧
    (∀ b', held s' b' = if decide (b' = b) then None else held s b') ∧
    (∀ k, io_disk s' k = io_disk s k) ∧ S (nheld s') = nheld s ∧ mach_frame s.1 s'.1 ∧
    io_data s' b = d.
Proof.
  destruct s as [m c]. intros [order I] Hh Hd.
  destruct (brelse_spec order m c b n d I Hh Hd) as (m' & bf & h & l1 & l2 & Eb & _ & Hf & E & I').
  destruct (held_inv _ _ _ _ _ _ I Hh) as (bf' & Eb' & Hl & _ & _ & _ & Hdt & _).
  assert (bf' = bf) as -> by congruence. eexists. split; [exact E|]. split; [by eexists|].
  split.
  { intros j. pose proof (held_put m m' c b bf (set_refc 0 (set_lock sleep0 bf)) j Eb) as Hp.
    unfold held in *. cbn in *. rewrite Hp. done. }
  split; [done|]. split; [|split; [done|]].
  - pose proof (nheld_put m m' c b bf (set_refc 0 (set_lock sleep0 bf)) Eb) as Hc.
    rewrite Hl in Hc. unfold nheld in *. cbn in *. lia.
  - unfold io_data. cbn. by rewrite list_lookup_insert_eq by (by eapply lookup_lt_Some).
Qed.

Lemma io_bset s b n d d' : io_ok s → held s b = Some (n, d) → is_block d' →
  io_ok (io_set b d' s) ∧
  (∀ b', held (io_set b d' s) b' = if decide (b' = b) then Some (n, d') else held s b') ∧
  (∀ k, io_disk (io_set b d' s) k = io_disk s k) ∧
  nheld (io_set b d' s) = nheld s ∧ (io_set b d' s).1 = s.1.
Proof.
  destruct s as [m c]. intros [order I] Hh Hd'.
  destruct (held_inv _ _ _ _ _ _ I Hh) as (bf & Eb & Hl & _ & _ & Hbn & _).
  unfold io_set. cbn [fst snd]. rewrite (upd_buf_eq _ _ _ _ Eb).
  split; [exists order; by eapply bio_inv_data|]. split.
  { intros j. rewrite (held_put m _ _ _ bf _ _ Eb). cbn. by rewrite Hl, Hbn. }
  split; [done|]. split; [|done].
  pose proof (nheld_put m m c b bf (set_data d' bf) Eb) as Hc. cbn [set_data b_lock] in Hc.
  rewrite Hl in Hc. cbn [s_locked] in Hc. lia.
Qed.

#[export] Instance bio_io : BlockIO (mach * bcache).
Proof.
  refine {| BlockIO.bread := bread; BlockIO.bwrite := bwrite; BlockIO.bzero := bzero;
    BlockIO.brelse := brelse; bdata := io_data; bblockno := io_blockno; bset := io_set;
    bmach := fst; bset_mach := λ m s, (m, s.2);
    bio_ok := io_ok; bio_disk := io_disk; bio_held := held; bio_nheld := nheld |}.
  - intros s [order I]. apply (bi_mach _ _ I).
  - done.
  - by intros [].
  - done.
  - intros [m c] m' [order I] Hf. exists order. destruct I as [J1 J2 J3 J4 J5 J6].
    split; cbn in *; try done; [by eapply frame_can_sleep|].
    intros i b Ei. eapply (buf_inv_frame m); eauto.
  - done.
  - intros [m c] b n d [order I] Hh. cbn.
    destruct (held_inv _ _ _ _ _ _ I Hh) as (bf & Eb & ? & ? & ? & Hbn & Hd & ? & ? & ? & ?).
    unfold io_data, io_blockno. cbn. by rewrite Eb.
  - intros s n _ Hn. by apply disk_rd_block.
  - exact io_bread.
  - intros [m c] b n d [order I] Hh. by eapply bread_twice.
  - exact io_bset.
  - intros [m c] b n d [order I] Hh.
    destruct (held_inv _ _ _ _ _ _ I Hh) as (bf & Eb & ? & ? & ? & ? & ? & ? & ? & ? & ?).
    eexists. split; [by eapply bwrite_run|]. split; [exists order; by eapply bio_inv_write|].
    split; [done|]. split; [|done].
    intros k Hk. unfold io_disk. cbn. by rewrite disk_rd_wr.
  - exact io_bzero.
  - exact io_brelse.
Defined.
End bio.
End Cache.
