(* ===== verification/Fs.v ===== *)
(** The on-disk allocation maps (kernel/fs/fs.h, kernel/fs/fs.c).

    The superblock, the access to the bitmap blocks, and the allocation
    ([balloc]) and release ([bfree]) of data blocks, on any implementation of
    [BlockIO]. *)
From S2P Require Import Prelude Bytes Machine BlockIO.

(** [struct superblock]. *)
Record superblock := MkSb {
  sb_dev : Z;
  sb_imap : Z;
  sb_inodes : Z;
  sb_bmap : Z;
  sb_blocks : Z;
  sb_max_inum : Z;
  sb_max_blockno : Z;
  sb_name : list Z;
}.
(** The layout of [struct superblock] on disk: seven [u32] fields and [name[8]]. *)
Definition sb_decode (d : list Z) : superblock :=
  MkSb (get_at 4 0 d) (get_at 4 4 d) (get_at 4 8 d) (get_at 4 12 d) (get_at 4 16 d)
    (get_at 4 20 d) (get_at 4 24 d) (take 8 (drop 28 d)).

(** The scans of [balloc] and [ialloc] inside one bitmap block. *)
Definition ONES : Z := 0xFFFFFFFFFFFFFFFF.
(** [for (; j < BSIZE / 8; ++j) if (section[j] != ONES) break;] with [n] sections left. *)
Fixpoint find_section (n j : nat) (d : list Z) : nat :=
  match n with
  | O => j
  | S n => if negb (Z.land (get_at 8 (8 * j) d) ONES =? ONES) then j else find_section n (S j) d
  end.
(** [for (int k = 0; k < 64; ++k) if (( *section & (1UL << k)) == 0)] with [n] bits left. *)
Fixpoint find_bit (n k : nat) (w : Z) : option nat :=
  match n with
  | O => None
  | S n => if Z.land w (Z.shiftl 1 (Z.of_nat k)) =? 0 then Some k else find_bit n (S k) w
  end.
(** [*section |= 1UL << k] and [*section &= ~(1UL << k)] at section [j]. *)
Definition section_set (j k : nat) (d : list Z) : list Z :=
  put_at 8 (8 * j) (Z.lor (get_at 8 (8 * j) d) (Z.shiftl 1 (Z.of_nat k))) d.
Definition section_clear (j k : nat) (d : list Z) : list Z :=
  put_at 8 (8 * j) (Z.land (get_at 8 (8 * j) d) (u64 (Z.lnot (Z.shiftl 1 (Z.of_nat k))))) d.

Section fs.
Context {S : Type} {IO : BlockIO S}.
Implicit Types s : S.

Definition read_superblock (dev : Z) : M S superblock :=
  let! b := bread dev 1 in
  let! d := gets (λ s, bdata s b) in
  brelse b ;;
  ret (sb_decode d).

Definition read_nth_imap (sb : superblock) (n : Z) : M S nat :=
  if u32 (sb_inodes sb - sb_imap sb) <=? n then panic "read_nth_imap: out of range"
  else bread (sb_dev sb) (u32 (n + sb_imap sb)).
Definition read_nth_bmap (sb : superblock) (n : Z) : M S nat :=
  if u32 (sb_blocks sb - sb_bmap sb) <=? n then panic "read_nth_bmap: out of range"
  else bread (sb_dev sb) (u32 (n + sb_bmap sb)).

(** The loop of [balloc] over the bitmap blocks: [n] left, the next one is [i]. *)
Fixpoint balloc_loop (sb : superblock) (n : nat) (i : Z) : M S Z :=
  match n with
  | O => panic "balloc: space exhausted"
  | Datatypes.S n =>
    let! b := read_nth_bmap sb i in
    let! d := gets (λ s, bdata s b) in
    let j := find_section (BSIZE / 8) 0 d in
    if Nat.eqb j (BSIZE / 8) then brelse b ;; balloc_loop sb n (i + 1) else
    match find_bit 64 0 (get_at 8 (8 * j) d) with
    | Some k =>
      modify (bset b (section_set j k d)) ;;
      bwrite b ;;
      brelse b ;;
      ret (u32 (i * BIT_CNT_PER_BLOCK + Z.of_nat j * 64 + Z.of_nat k + sb_blocks sb))
    | None => balloc_loop sb n (i + 1)
    end
  end.
Definition balloc (sb : superblock) : M S Z :=
  balloc_loop sb (Z.to_nat (i32 (sb_blocks sb - sb_bmap sb))) 0.

Definition bfree (sb : superblock) (blockno : Z) : M S unit :=
  let i := i32 (u32 (blockno - sb_blocks sb) / BIT_CNT_PER_BLOCK) in
  let k := Z.to_nat (u32 (blockno - sb_blocks sb) mod BIT_CNT_PER_BLOCK) in
  let! b := read_nth_bmap sb (u32 i) in
  let! d := gets (λ s, bdata s b) in
  if Z.land (get_at 8 (8 * (k / 64)) d) (Z.shiftl 1 (Z.of_nat (k mod 64))) =? 0
  then panic "bfree: double free" else
  modify (bset b (section_clear (k / 64) (k mod 64) d)) ;;
  bwrite b ;;
  brelse b.
End fs.

(** ** Bits of a bitmap block *)

Lemma land_shiftl_0 w k : 0 ≤ k → (Z.land w (Z.shiftl 1 k) =? 0) = negb (Z.testbit w k).
Proof.
  intros Hk. rewrite Z.shiftl_1_l. destruct (Z.testbit w k) eqn:E; cbn.
  - apply Z.eqb_neq. intros H0. apply (f_equal (λ z, Z.testbit z k)) in H0.
    rewrite Z.land_spec, E, Z.pow2_bits_true, Z.testbit_0_l in H0 by lia. done.
  - apply Z.eqb_eq. apply Z.bits_inj'. intros m Hm.
    rewrite Z.land_spec, Z.testbit_0_l, Z.pow2_bits_eqb by lia.
    destruct (Z.eqb_spec k m); [subst; by rewrite E|by rewrite andb_false_r].
Qed.

Lemma testbit_set w k m : 0 ≤ k → 0 ≤ m →
  Z.testbit (Z.lor w (Z.shiftl 1 k)) m = if decide (m = k) then true else Z.testbit w m.
Proof.
  intros. rewrite Z.lor_spec, Z.shiftl_1_l, Z.pow2_bits_eqb by lia.
  case_decide; [subst; by rewrite Z.eqb_refl, orb_true_r|].
  destruct (Z.eqb_spec k m); [lia|]. by rewrite orb_false_r.
Qed.

Lemma testbit_clear w k m : 0 ≤ k < 64 → 0 ≤ m < 64 →
  Z.testbit (Z.land w (u64 (Z.lnot (Z.shiftl 1 k)))) m = if decide (m = k) then false else Z.testbit w m.
Proof.
  intros Hk Hm. unfold u64. rewrite Z.land_spec, Z.mod_pow2_bits_low, Z.lnot_spec by lia.
  rewrite Z.shiftl_1_l, Z.pow2_bits_eqb by lia.
  case_decide; [subst; by rewrite Z.eqb_refl, andb_false_r|].
  destruct (Z.eqb_spec k m); [lia|]. by rewrite andb_true_r.
Qed.

Lemma ones_testbit w : 0 ≤ w < 2 ^ 64 →
  (Z.land w ONES =? ONES) = true ↔ ∀ k, (k < 64)%nat → Z.testbit w (Z.of_nat k) = true.
Proof.
  intros Hw. change ONES with (Z.ones 64). rewrite Z.land_ones, Z.mod_small by lia.
  rewrite Z.eqb_eq. split.
  - intros -> k Hk. apply Z.ones_spec_low. lia.
  - intros Hb. apply Z.bits_inj'. intros m Hm. destruct (Z.ltb_spec m 64).
    + rewrite Z.ones_spec_low by lia. rewrite <- (Z2Nat.id m) by lia. apply Hb. lia.
    + rewrite Z.ones_spec_high by lia. rewrite <- (Z.mod_small w (2 ^ 64)) by lia.
      apply Z.mod_pow2_bits_high. lia.
Qed.

Lemma find_bit_spec n k w : 
  match find_bit n k w with
  | Some k' => (k ≤ k' < k + n)%nat ∧ Z.testbit w (Z.of_nat k') = false ∧
               ∀ m, (k ≤ m < k')%nat → Z.testbit w (Z.of_nat m) = true
  | None => ∀ m, (k ≤ m < k + n)%nat → Z.testbit w (Z.of_nat m) = true
  end.
Proof.
  revert k. induction n as [|n IH]; intros k; cbn [find_bit]; [lia|].
  rewrite land_shiftl_0 by lia. destruct (Z.testbit w (Z.of_nat k)) eqn:E; cbn [negb].
  - specialize (IH (S k)). destruct (find_bit n (S k) w) as [k'|].
    + destruct IH as (? & ? & Hm). split; [lia|]. split; [done|]. intros m Hmk.
      destruct (decide (m = k)) as [->|]; [done|]. apply Hm. lia.
    + intros m Hm. destruct (decide (m = k)) as [->|]; [done|]. apply IH. lia.
  - split; [lia|]. split; [done|]. lia.
Qed.

Lemma section_bit d i k : bytes_ok d → (k < 64)%nat →
  Z.testbit (get_at 8 (8 * i) d) (Z.of_nat k) = bit_at d (64 * i + k).
Proof. intros Hd Hk. rewrite testbit_get_at by (done || lia). f_equal. lia. Qed.

(** The word of section [i] has all its bits set. *)
Lemma section_full d i : bytes_ok d → (8 * i + 8 ≤ length d)%nat →
  (Z.land (get_at 8 (8 * i) d) ONES =? ONES) = true ↔
  ∀ k, (k < 64)%nat → bit_at d (64 * i + k) = true.
Proof.
  intros Hd Hl. rewrite ones_testbit by (apply (get_at_bound 8); [done|lia]).
  split; intros Hb k Hk; [rewrite <- section_bit|rewrite section_bit]; auto.
Qed.

Lemma find_section_spec n j d : bytes_ok d → (8 * (j + n) ≤ length d)%nat →
  let j' := find_section n j d in
  (j ≤ j' ≤ j + n)%nat ∧ (∀ g, (64 * j ≤ g < 64 * j')%nat → bit_at d g = true) ∧
  ((j' < j + n)%nat → ∃ k, (k < 64)%nat ∧ bit_at d (64 * j' + k) = false).
Proof.
  intros Hd. revert j. induction n as [|n IH]; intros j Hl; cbn [find_section].
  - cbn. split; [lia|]. split; lia.
  - pose proof (section_full d j Hd ltac:(lia)) as Hf.
    destruct (Z.land (get_at 8 (8 * j) d) ONES =? ONES) eqn:E; cbn [negb].
    + destruct (IH (S j)) as (H1 & H2 & H3); [lia|]. split; [lia|]. split.
      * intros g Hg. destruct (decide (64 * S j ≤ g)%nat); [apply H2; lia|].
        replace g with (64 * j + (g - 64 * j))%nat by lia. apply Hf; [done|lia].
      * intros Hj. apply H3. lia.
    + split; [lia|]. split; [lia|]. intros _.
      pose proof (find_bit_spec 64 0 (get_at 8 (8 * j) d)) as Hb.
      destruct (find_bit 64 0 _) as [k|].
      * destruct Hb as (Hk & Hb & _). exists k. split; [lia|].
        by rewrite <- section_bit by (done || lia).
      * exfalso. assert (false = true); [|done]. apply Hf. intros k Hk.
        rewrite <- section_bit by (done || lia). apply Hb. lia.
Qed.

(** The first clear bit of a block, found by sections and then by bits. *)
Lemma scan_spec d : is_block d →
  let j := find_section (BSIZE / 8) 0 d in
  (j = (BSIZE / 8)%nat ∧ ∀ g, (g < 8 * BSIZE)%nat → bit_at d g = true) ∨
  ((j < BSIZE / 8)%nat ∧ ∃ k, find_bit 64 0 (get_at 8 (8 * j) d) = Some k ∧ (k < 64)%nat ∧
    bit_at d (64 * j + k) = false ∧ ∀ g, (g < 64 * j + k)%nat → bit_at d g = true).
Proof.
  intros [Hl Hd] j.
  destruct (find_section_spec (BSIZE / 8) 0 d Hd) as (H1 & H2 & H3); [rewrite Hl; done|].
  fold j in H1, H2, H3.
  destruct (decide (j = BSIZE / 8)%nat) as [Hj|Hj].
  - left. split; [done|]. intros g Hg. apply H2. rewrite Hj. unfold BSIZE in *. cbn. lia.
  - right. split; [lia|]. destruct H3 as (k0 & Hk0 & Hb0); [lia|].
    pose proof (find_bit_spec 64 0 (get_at 8 (8 * j) d)) as Hb.
    destruct (find_bit 64 0 _) as [k|].
    + destruct Hb as (Hk & Hb & Hm). exists k. split; [done|]. split; [lia|].
      rewrite section_bit in Hb by (done || lia). split; [done|]. intros g Hg.
      destruct (decide (g < 64 * j)%nat); [apply H2; lia|].
      replace g with (64 * j + (g - 64 * j))%nat by lia.
      rewrite <- section_bit by (done || lia). apply Hm. lia.
    + exfalso. specialize (Hb k0 ltac:(lia)). rewrite section_bit in Hb by (done || lia). congruence.
Qed.

Lemma section_set_bit j k d g : is_block d → (8 * j + 8 ≤ BSIZE)%nat → (k < 64)%nat →
  bit_at (section_set j k d) g = if decide (g = 64 * j + k)%nat then true else bit_at d g.
Proof.
  intros [Hl Hd] Hj Hk. unfold section_set. rewrite bit_at_put_at by lia.
  destruct (decide (8 * (8 * j) ≤ g < 8 * (8 * j + 8))%nat) as [Hg|Hg].
  - rewrite testbit_set by lia.
    assert (bit_at d g = Z.testbit (get_at 8 (8 * j) d) (Z.of_nat (g - 64 * j))) as ->
      by (rewrite section_bit by (done || lia); f_equal; lia).
    replace (g - 8 * (8 * j))%nat with (g - 64 * j)%nat by lia.
    repeat case_decide; try done; lia.
  - by rewrite decide_False by lia.
Qed.
Lemma section_clear_bit j k d g : is_block d → (8 * j + 8 ≤ BSIZE)%nat → (k < 64)%nat →
  bit_at (section_clear j k d) g = if decide (g = 64 * j + k)%nat then false else bit_at d g.
Proof.
  intros [Hl Hd] Hj Hk. unfold section_clear. rewrite bit_at_put_at by lia.
  destruct (decide (8 * (8 * j) ≤ g < 8 * (8 * j + 8))%nat) as [Hg|Hg].
  - rewrite testbit_clear by lia.
    assert (bit_at d g = Z.testbit (get_at 8 (8 * j) d) (Z.of_nat (g - 64 * j))) as ->
      by (rewrite section_bit by (done || lia); f_equal; lia).
    replace (g - 8 * (8 * j))%nat with (g - 64 * j)%nat by lia.
    repeat case_decide; try done; lia.
  - by rewrite decide_False by lia.
Qed.
Lemma section_set_block j k d : is_block d → (8 * j + 8 ≤ BSIZE)%nat → is_block (section_set j k d).
Proof.
  intros [Hl Hd] Hj. split; [by unfold section_set; rewrite length_put_at by lia|].
  by apply bytes_ok_put_at.
Qed.
Lemma section_clear_block j k d : is_block d → (8 * j + 8 ≤ BSIZE)%nat → is_block (section_clear j k d).
Proof.
  intros [Hl Hd] Hj. split; [by unfold section_clear; rewrite length_put_at by lia|].
  by apply bytes_ok_put_at.
Qed.

(** Two blocks with the same bits are equal. *)
Lemma block_bits_eq d d' : is_block d → is_block d' →
  (∀ g, (g < 8 * BSIZE)%nat → bit_at d g = bit_at d' g) → d = d'.
Proof.
  intros [Hl Hd] [Hl' Hd'] Hb. apply (nth_ext _ _ 0 0); [congruence|]. intros i Hi.
  assert (Hx : ∀ (e : list Z), bytes_ok e → 0 ≤ nth i e 0 < 256).
  { intros e He. destruct (nth_in_or_default i e 0) as [Hin| ->]; [|lia].
    unfold bytes_ok in He. rewrite Forall_forall in He. apply He. by apply list_elem_of_In. }
  apply Z.bits_inj'. intros m Hm. destruct (Z.ltb_spec m 8).
  - specialize (Hb (i * 8 + Z.to_nat m)%nat ltac:(lia)). unfold bit_at in Hb.
    rewrite Nat.div_add_l, Nat.div_small, Nat.add_0_r in Hb by lia.
    rewrite Nat.add_comm, Nat.Div0.mod_add, Nat.mod_small, Z2Nat.id in Hb by lia. done.
  - by rewrite !testbit_byte_high by (auto || lia).
Qed.

(** ** Bitmaps spread over blocks

    Bit [g] of the bitmap whose first block is [start]. *)
Definition map_blk (start g : Z) : Z := start + g / BIT_CNT_PER_BLOCK.
Definition map_idx (g : Z) : nat := Z.to_nat (g mod BIT_CNT_PER_BLOCK).
Definition map_bit (disk : Z → list Z) (start g : Z) : bool :=
  bit_at (disk (map_blk start g)) (map_idx g).
(** The effect on the disk of setting or clearing that bit. *)
Definition map_set (start g : Z) : Z → list Z → list Z := λ k d,
  if decide (k = map_blk start g) then section_set (map_idx g / 64) (map_idx g mod 64) d else d.
Definition map_clear (start g : Z) : Z → list Z → list Z := λ k d,
  if decide (k = map_blk start g) then section_clear (map_idx g / 64) (map_idx g mod 64) d else d.

(** The geometry of a file system: the areas follow each other, on the root
    device, and the numbers of all blocks the map describes are block numbers. *)
Record sb_wf (sb : superblock) : Prop := {
  wf_dev : sb_dev sb = ROOTDEV;
  wf_imap : 1 < sb_imap sb;
  wf_inodes : sb_imap sb < sb_inodes sb;
  wf_bmap : sb_inodes sb < sb_bmap sb;
  wf_blocks : sb_bmap sb < sb_blocks sb;
  wf_top : sb_blocks sb + (sb_blocks sb - sb_bmap sb) * BIT_CNT_PER_BLOCK < 2 ^ 31;
}.
(** Number of blocks the block map describes. *)
Definition nblocks (sb : superblock) : Z := (sb_blocks sb - sb_bmap sb) * BIT_CNT_PER_BLOCK.
(** Block [n] of the data area is marked used. *)
Definition used (sb : superblock) (disk : Z → list Z) (n : Z) : bool :=
  map_bit disk (sb_bmap sb) (n - sb_blocks sb).

Lemma map_idx_bound g : (map_idx g < 8 * BSIZE)%nat.
Proof. unfold map_idx, BSIZE. change BIT_CNT_PER_BLOCK with 8192. pose proof (Z.mod_pos_bound g 8192 ltac:(lia)). lia. Qed.
Lemma map_idx_section g : (8 * (map_idx g / 64) + 8 ≤ BSIZE)%nat ∧ (map_idx g mod 64 < 64)%nat ∧
  (64 * (map_idx g / 64) + map_idx g mod 64 = map_idx g)%nat.
Proof.
  pose proof (map_idx_bound g) as H. revert H. unfold BSIZE. intros H.
  pose proof (Nat.div_mod_eq (map_idx g) 64). pose proof (Nat.mod_upper_bound (map_idx g) 64 ltac:(lia)). lia.
Qed.
Lemma map_blk_idx_inj start g g' : map_blk start g = map_blk start g' → map_idx g = map_idx g' → g = g'.
Proof.
  unfold map_blk, map_idx. change BIT_CNT_PER_BLOCK with 8192. intros.
  pose proof (Z.mod_pos_bound g 8192 ltac:(lia)). pose proof (Z.mod_pos_bound g' 8192 ltac:(lia)).
  pose proof (Z.div_mod g 8192 ltac:(lia)). pose proof (Z.div_mod g' 8192 ltac:(lia)). lia.
Qed.
Lemma map_blk_bound start g c : 0 ≤ g < c * BIT_CNT_PER_BLOCK → start ≤ map_blk start g < start + c.
Proof.
  unfold map_blk. change BIT_CNT_PER_BLOCK with 8192. intros.
  pose proof (Z.div_pos g 8192 ltac:(lia) ltac:(lia)).
  pose proof (Z.div_lt_upper_bound g 8192 c ltac:(lia) ltac:(lia)). lia.
Qed.
(** Setting or clearing a bit changes that bit only. *)
Lemma map_set_bit disk start g g' : is_block (disk (map_blk start g)) →
  map_bit (λ k, map_set start g k (disk k)) start g' =
  if decide (g' = g) then true else map_bit disk start g'.
Proof.
  intros Hb. destruct (map_idx_section g) as (H1 & H2 & H3). unfold map_bit, map_set.
  destruct (decide (map_blk start g' = map_blk start g)) as [E|E].
  - rewrite E, section_set_bit, H3 by done.
    destruct (decide (g' = g)) as [->|Hne]; [by rewrite decide_True|].
    rewrite decide_False; [done|]. intros Ei. by destruct Hne; eapply map_blk_idx_inj.
  - rewrite decide_False; [done|]. by intros ->.
Qed.
Lemma map_clear_bit disk start g g' : is_block (disk (map_blk start g)) →
  map_bit (λ k, map_clear start g k (disk k)) start g' =
  if decide (g' = g) then false else map_bit disk start g'.
Proof.
  intros Hb. destruct (map_idx_section g) as (H1 & H2 & H3). unfold map_bit, map_clear.
  destruct (decide (map_blk start g' = map_blk start g)) as [E|E].
  - rewrite E, section_clear_bit, H3 by done.
    destruct (decide (g' = g)) as [->|Hne]; [by rewrite decide_True|].
    rewrite decide_False; [done|]. intros Ei. by destruct Hne; eapply map_blk_idx_inj.
  - rewrite decide_False; [done|]. by intros ->.
Qed.
(** Clearing a bit that was set from clear restores the block. *)
Lemma map_clear_set start g k d : is_block d → (k = map_blk start g → bit_at d (map_idx g) = false) →
  map_clear start g k (map_set start g k d) = d.
Proof.
  intros Hd Hb. destruct (map_idx_section g) as (H1 & H2 & H3). unfold map_clear, map_set.
  destruct (decide (k = map_blk start g)) as [E|E]; [|done].
  pose proof (section_set_block (map_idx g / 64) (map_idx g mod 64) d Hd H1) as Hs.
  apply block_bits_eq; [by apply section_clear_block|done|]. intros i Hi.
  rewrite section_clear_bit, section_set_bit, H3 by done.
  repeat case_decide; subst; [symmetry; auto|done].
Qed.

(** ** Allocation and release of data blocks *)
Section fs_spec.
Context {S : Type} {IO : BlockIO S} (sb : superblock) (WF : sb_wf sb).
Implicit Types s : S.

(** No block of the area [lo, hi) is held, and a buffer is left. *)
Definition area_free (lo hi : Z) s : Prop := bio_ok s ∧ room 1 s ∧ ∀ n, lo ≤ n < hi → not_held s n.

Lemma area_free_step f lo hi s s' : io_step f s s' → area_free lo hi s → area_free lo hi s'.
Proof.
  intros St (H1 & H2 & H3). split; [apply St|]. split; [by eapply io_step_room|].
  intros n Hn. by eapply io_step_not_held, H3.
Qed.
Lemma area_bread lo hi n s : area_free lo hi s → 0 < lo → hi < 2 ^ 31 → lo ≤ n < hi →
  ∃ b s1, bread ROOTDEV n s = Ok b s1 ∧ owns b n (bio_disk s n) keep s s1 ∧ is_block (bio_disk s n) ∧
    bdata s1 b = bio_disk s n.
Proof.
  intros (H1 & H2 & H3) Hlo Hhi Hn. assert (blk n) by (unfold blk; lia).
  destruct (io_bread_owns s n) as (b & s1 & E & O); [done|done|lia|done|by apply H3|].
  exists b, s1. split; [done|]. split; [done|]. split; [by apply bio_disk_block|].
  by destruct (owns_data _ _ _ _ _ _ O).
Qed.

Lemma bits_per_block : BIT_CNT_PER_BLOCK = 8192.
Proof. reflexivity. Qed.
Lemma wf_ranges : 0 ≤ nblocks sb ∧ sb_blocks sb + nblocks sb < 2 ^ 31 ∧ sb_blocks sb < 2 ^ 31.
Proof. unfold nblocks. destruct WF as [? ? ? ? ? Ht]. rewrite bits_per_block in *. lia. Qed.

Lemma read_nth_bmap_eq i : 0 ≤ i < sb_blocks sb - sb_bmap sb →
  read_nth_bmap (IO:=IO) sb i = bread ROOTDEV (sb_bmap sb + i).
Proof.
  intros Hi. destruct WF as [Hd ? ? ? ? Ht]. rewrite bits_per_block in Ht.
  unfold read_nth_bmap, u32. rewrite !Z.mod_small, Hd by lia.
  destruct (Z.leb_spec (sb_blocks sb - sb_bmap sb) i); [lia|]. f_equal. lia.
Qed.
(** An index beyond the map stops the machine. *)
Lemma read_nth_bmap_out i s : sb_blocks sb - sb_bmap sb ≤ i →
  read_nth_bmap sb i s = Panic "read_nth_bmap: out of range" s.
Proof.
  intros Hi. destruct WF as [Hd ? ? ? ? Ht]. rewrite bits_per_block in Ht.
  unfold read_nth_bmap, u32. rewrite Z.mod_small by lia.
  destruct (Z.leb_spec (sb_blocks sb - sb_bmap sb) i); [done|lia].
Qed.

(** Bit [g] is bit [g - 8192 * i] of block [i] of its map. *)
Lemma map_at start i g : 0 ≤ i → i * 8192 ≤ g < (i + 1) * 8192 →
  map_blk start g = start + i ∧ map_idx g = Z.to_nat (g - i * 8192).
Proof.
  intros Hi Hg. unfold map_blk, map_idx. rewrite bits_per_block.
  rewrite <- (Z.div_unique g 8192 i (g - i * 8192)), <- (Z.mod_unique g 8192 i (g - i * 8192)) by lia.
  done.
Qed.

(** The loop that [balloc] and [ialloc] share, over the map blocks [rd i]; [res]
    is the number handed out. *)
Fixpoint map_alloc (rd : Z → M S nat) (msg : string) (res : Z → nat → nat → Z) (n : nat) (i : Z) : M S Z :=
  match n with
  | O => panic msg
  | Datatypes.S n =>
    let! b := rd i in
    let! d := gets (λ s, bdata s b) in
    let j := find_section (BSIZE / 8) 0 d in
    if Nat.eqb j (BSIZE / 8) then brelse b ;; map_alloc rd msg res n (i + 1) else
    match find_bit 64 0 (get_at 8 (8 * j) d) with
    | Some k =>
      modify (bset b (section_set j k d)) ;;
      bwrite b ;;
      brelse b ;;
      ret (res i j k)
    | None => map_alloc rd msg res n (i + 1)
    end
  end.

(** It takes the first clear bit of the map and sets it; [g] is its position. *)
Lemma map_alloc_spec rd msg res start cnt n i s :
  (∀ i, 0 ≤ i < cnt → rd i = bread ROOTDEV (start + i)) →
  0 < start → start + cnt < 2 ^ 31 → area_free start (start + cnt) s →
  0 ≤ i → i + Z.of_nat n = cnt →
  (∀ g, 0 ≤ g < i * 8192 → map_bit (bio_disk s) start g = true) →
  (∃ q j k s', map_alloc rd msg res n i s = Ok (res q j k) s' ∧
     let g := q * 8192 + Z.of_nat (64 * j + k) in
     0 ≤ q < cnt ∧ (j < 128)%nat ∧ (k < 64)%nat ∧ map_bit (bio_disk s) start g = false ∧
     (∀ g', 0 ≤ g' < g → map_bit (bio_disk s) start g' = true) ∧
     io_step (map_set start g) s s') ∨
  (∃ s', map_alloc rd msg res n i s = Panic msg s' ∧
     (∀ g, 0 ≤ g < cnt * 8192 → map_bit (bio_disk s) start g = true) ∧ io_step keep s s').
Proof.
  intros Hrd Hst Hcnt. revert i s. induction n as [|n IH]; intros i s Ha Hi Hn Hfull.
  { right. exists s. split; [done|]. split; [|apply io_step_refl, Ha].
    intros g Hg. apply Hfull. lia. }
  cbn [map_alloc]. rewrite Hrd by lia.
  destruct (area_bread _ _ (start + i) s Ha) as (b & s1 & E & O & Hblk & Hbd); [lia..|].
  run E. go. rewrite Hbd.
  destruct (scan_spec _ Hblk) as [[Hj Hall]|(Hj & k & Ek & Hk & Hclr & Hset)].
  - rewrite Hj, Nat.eqb_refl. destruct (owns_brelse _ _ _ _ _ _ O) as (s2 & E2 & St & _); [done|]. run E2.
    assert (Hdk : ∀ g, 0 ≤ g < cnt * 8192 → map_bit (bio_disk s2) start g = map_bit (bio_disk s) start g).
    { intros g Hg. unfold map_bit. rewrite (st_disk _ _ _ St); [done|].
      pose proof (map_blk_bound start g cnt ltac:(rewrite bits_per_block; lia)). unfold blk. lia. }
    destruct (IH (i + 1) s2) as [(q & j & k & s' & G1 & G2 & G3 & G4 & G5 & G6 & G7)|(s' & G1 & G2 & G3)].
    + by eapply area_free_step.
    + lia.
    + lia.
    + intros g Hg. rewrite Hdk by lia.
      destruct (decide (g < i * 8192)) as [|Hge]; [apply Hfull; lia|].
      destruct (map_at start i g) as [M1 M2]; [lia..|].
      unfold map_bit. rewrite M1, M2. apply Hall. unfold BSIZE. lia.
    + left. exists q, j, k, s'. split; [done|]. cbn zeta in *. rewrite <- Hdk by lia.
      split; [done|]. split; [done|]. split; [done|]. split; [done|].
      split; [|by eapply io_step_ext, io_step_trans; [|exact St|exact G7]].
      intros g' Hg'. rewrite <- Hdk by lia. by apply G6.
    + right. exists s'. split; [done|].
      split; [|by eapply io_step_ext, io_step_trans; [|exact St|exact G3]].
      intros g Hg. rewrite <- Hdk by done. by apply G2.
  - left. remember (find_section _ _ _) as j. rewrite (proj2 (Nat.eqb_neq j _)) by lia. rewrite Ek. go.
    change (BSIZE / 8)%nat with 128%nat in Hj.
    assert (Hj8 : (8 * j + 8 ≤ BSIZE)%nat) by (unfold BSIZE; lia).
    destruct (owns_rewrite _ _ _ _ _ _ _ O (section_set_block j k _ Hblk Hj8)) as (s2 & s3 & E2 & E3 & St).
    run E2. run E3. remember (i * 8192 + Z.of_nat (64 * j + k)) as g eqn:Eg.
    destruct (map_at start i g) as [M1 M2]; [lia..|].
    replace (Z.to_nat _) with (64 * j + k)%nat in M2 by lia.
    exists i, j, k, s3. rewrite <- Eg. split; [done|]. split; [lia|]. split; [done|]. split; [done|].
    split; [unfold map_bit; by rewrite M1, M2|]. split.
    + intros g' Hg'. destruct (decide (g' < i * 8192)) as [|Hge]; [apply Hfull; lia|].
      destruct (map_at start i g') as [N1 N2]; [lia..|].
      unfold map_bit. rewrite N1, N2. apply Hset. lia.
    + eapply io_step_ext, St. intros n' Hn'. unfold comp, wr, keep, map_set. rewrite M1, M2.
      case_decide as En; [|done]. subst n'.
      rewrite <- (Nat.div_unique (64 * j + k) 64 j k), <- (Nat.mod_unique (64 * j + k) 64 j k) by lia. done.
Qed.

Lemma balloc_loop_eq n i s : balloc_loop sb n i s =
  map_alloc (read_nth_bmap sb) "balloc: space exhausted"
    (λ i j k, u32 (i * BIT_CNT_PER_BLOCK + Z.of_nat j * 64 + Z.of_nat k + sb_blocks sb)) n i s.
Proof.
  revert i s. induction n as [|n IH]; intros i s; [done|]. cbn [balloc_loop map_alloc].
  unfold bind. destruct (read_nth_bmap sb i s) as [b s1|?|?|?|?]; cbn; try done.
  case_match; [destruct (brelse b s1); cbn; auto|]. case_match; [done|apply IH].
Qed.

Lemma balloc_spec s : area_free (sb_bmap sb) (sb_blocks sb) s →
  (∃ g s', balloc sb s = Ok (sb_blocks sb + g) s' ∧ 0 ≤ g < nblocks sb ∧
     map_bit (bio_disk s) (sb_bmap sb) g = false ∧
     (∀ g', 0 ≤ g' < g → map_bit (bio_disk s) (sb_bmap sb) g' = true) ∧
     io_step (map_set (sb_bmap sb) g) s s') ∨
  (∃ s', balloc sb s = Panic "balloc: space exhausted" s' ∧
     (∀ g, 0 ≤ g < nblocks sb → map_bit (bio_disk s) (sb_bmap sb) g = true) ∧ io_step keep s s').
Proof.
  intros Ha. pose proof WF as [? ? ? ? ? Ht]. rewrite bits_per_block in Ht.
  unfold balloc, nblocks. rewrite i32_id by lia. rewrite balloc_loop_eq, bits_per_block.
  destruct (map_alloc_spec (read_nth_bmap sb) "balloc: space exhausted"
    (λ i j k, u32 (i * BIT_CNT_PER_BLOCK + Z.of_nat j * 64 + Z.of_nat k + sb_blocks sb))
    (sb_bmap sb) (sb_blocks sb - sb_bmap sb) (Z.to_nat (sb_blocks sb - sb_bmap sb)) 0 s)
    as [(q & j & k & s' & E & Hq & Hj & Hk & Hr)|(s' & E & Hr)].
  - intros i Hi. by apply read_nth_bmap_eq.
  - lia.
  - lia.
  - replace (sb_bmap sb + (sb_blocks sb - sb_bmap sb)) with (sb_blocks sb) by lia. done.
  - done.
  - lia.
  - lia.
  - left. exists (q * 8192 + Z.of_nat (64 * j + k)), s'. cbn beta in E. rewrite bits_per_block in E.
    rewrite E, u32_id by nia. split; [f_equal; lia|]. split; [nia|done].
  - right. by exists s'.
Qed.

Lemma bfree_run s g : area_free (sb_bmap sb) (sb_blocks sb) s → 0 ≤ g < nblocks sb →
  if map_bit (bio_disk s) (sb_bmap sb) g
  then ∃ s', bfree sb (sb_blocks sb + g) s = Ok tt s' ∧ io_step (map_clear (sb_bmap sb) g) s s'
  else ∃ s', bfree sb (sb_blocks sb + g) s = Panic "bfree: double free" s'.
Proof.
  intros Ha Hg. pose proof wf_ranges as (W1 & W2 & W3). pose proof WF as [? ? ? ? ? Ht].
  pose proof (map_blk_bound (sb_bmap sb) g _ Hg) as Hb. unfold map_blk in Hb.
  unfold bfree. replace (sb_blocks sb + g - sb_blocks sb) with g by lia.
  assert (u32 g = g) as -> by (unfold u32; apply Z.mod_small; lia).
  fold (map_idx g). rewrite i32_id by lia.
  assert (u32 (g / BIT_CNT_PER_BLOCK) = g / BIT_CNT_PER_BLOCK) as -> by (unfold u32; apply Z.mod_small; lia).
  rewrite read_nth_bmap_eq by lia. fold (map_blk (sb_bmap sb) g) in *.
  destruct (area_bread _ _ (map_blk (sb_bmap sb) g) s Ha) as (b & s1 & E & O & Hblk & Hbd); [lia..|].
  run E. go. rewrite Hbd. destruct (map_idx_section g) as (G1 & G2 & G3).
  rewrite land_shiftl_0, section_bit, G3 by (lia || apply Hblk). unfold map_bit.
  destruct (bit_at _ _) eqn:Eb; cbn [negb]; [|by eexists]. go.
  destruct (owns_rewrite _ _ _ _ _ _ _ O (section_clear_block _ (map_idx g mod 64) _ Hblk G1)) as (s2 & s3 & E2 & E3 & St).
  run E2. exists s3. split; [done|]. eapply io_step_ext, St. intros k Hk.
  unfold comp, wr, keep, map_clear. by case_decide; subst.
Qed.

Lemma read_superblock_spec s : bio_ok s → room 1 s → not_held s 1 →
  ∃ s', read_superblock ROOTDEV s = Ok (sb_decode (bio_disk s 1)) s' ∧ io_step keep s s'.
Proof.
  intros Hok Hr Hn. unfold read_superblock.
  destruct (io_read_relse s 1) as (b & s1 & s2 & E1 & O & Eb & E2 & St); [done|by vm_compute|done..|].
  run E1. go. run E2. rewrite Eb. by exists s2.
Qed.
End fs_spec.
