(* ===== verification/Inode.v ===== *)
(** Inodes (kernel/fs/inode.h, kernel/fs/inode.c): the inode cache, the inode map
    and the index of the data blocks of a file, on any implementation of
    [BlockIO]. *)
From S2P Require Import Prelude Bytes Machine BlockIO Fs.

(** [enum ftype] and [struct dinode] of kernel/fs/fs.h.  [type] is read from the
    disk and can hold any value. *)
Definition UNUSE : Z := 0.
Definition REGULAR : Z := 1.
Definition DIRECTORY : Z := 2.
Definition CHAR : Z := 3.
Record dinode := MkDi {
  di_type : Z;
  di_dev : Z;
  di_nlink : Z;
  di_fsize : Z;
  di_iblock : list Z;
}.
Definition NIBLOCK : nat := NDIRECT + NINDIRECT.
#[global] Arguments NIBLOCK : simpl never.
(** [sizeof(struct dinode)]: four words and the index. *)
Definition SZDINODE : nat := 4 * (4 + NIBLOCK).
Definition DINODE_CNT_PER_BLOCK : Z := Z.of_nat (BSIZE / SZDINODE).
Definition IDX_CNT : nat := BSIZE / 4.
#[global] Arguments SZDINODE : simpl never.
#[global] Arguments DINODE_CNT_PER_BLOCK : simpl never.
#[global] Arguments IDX_CNT : simpl never.

(** The layout of [struct dinode] in memory and on disk. *)
Definition dinode_words (di : dinode) : list Z :=
  [di_type di; di_dev di; di_nlink di; di_fsize di] ++ di_iblock di.
Definition dinode_encode (di : dinode) : list Z := mjoin (le_split 4 <$> dinode_words di).
Definition dinode_decode (d : list Z) : dinode :=
  MkDi (get_at 4 0 d) (get_at 4 4 d) (get_at 4 8 d) (get_at 4 12 d)
    ((λ i, get_at 4 (16 + 4 * i) d) <$> seq 0 NIBLOCK).
Definition set_type (v : Z) (di : dinode) : dinode :=
  MkDi v (di_dev di) (di_nlink di) (di_fsize di) (di_iblock di).
Definition set_dev (v : Z) (di : dinode) : dinode :=
  MkDi (di_type di) v (di_nlink di) (di_fsize di) (di_iblock di).
Definition set_nlink (v : Z) (di : dinode) : dinode :=
  MkDi (di_type di) (di_dev di) v (di_fsize di) (di_iblock di).
Definition set_fsize (v : Z) (di : dinode) : dinode :=
  MkDi (di_type di) (di_dev di) (di_nlink di) v (di_iblock di).
Definition set_iblock (v : list Z) (di : dinode) : dinode :=
  MkDi (di_type di) (di_dev di) (di_nlink di) (di_fsize di) v.

(** [struct inode]: the spinlock of inode [i] is [L_inode i]; the superblocks do
    not change after [fsinit], so a pointer to one stands for its value. *)
Record inode := MkInode {
  i_slep : sleeplock;
  i_di : dinode;
  i_sb : option superblock;
  i_inum : Z;
  i_refc : Z;
}.
Definition set_slep (v : sleeplock) (x : inode) : inode :=
  MkInode v (i_di x) (i_sb x) (i_inum x) (i_refc x).
Definition set_di (f : dinode → dinode) (x : inode) : inode :=
  MkInode (i_slep x) (f (i_di x)) (i_sb x) (i_inum x) (i_refc x).
Definition set_irefc (v : Z) (x : inode) : inode :=
  MkInode (i_slep x) (i_di x) (i_sb x) (i_inum x) v.
Definition claim_inode (sb : superblock) (inum : Z) (x : inode) : inode :=
  MkInode (i_slep x) (i_di x) (Some sb) inum 1.
#[export] Instance superblock_eq_dec : EqDecision superblock.
Proof. solve_decision. Defined.

(** The statically zeroed [icache] that [init_icache] names the locks of. *)
Definition di0 : dinode := MkDi 0 0 0 0 (replicate NIBLOCK 0).
Definition inode0 : inode := MkInode sleep0 di0 None 0 0.
Definition init_icache : list inode := replicate NINODE inode0.

(** [iblock_cnt] of kernel/fs/inode.h: [u32] arithmetic, converted to [int]. *)
Definition iblock_cnt (di : dinode) : Z :=
  i32 (u32 (di_fsize di / Z.of_nat BSIZE -
            (if di_fsize di mod Z.of_nat BSIZE =? 0 then 0 else 1))).

Definition blockno_of_inode (sb : superblock) (inum : Z) : Z :=
  u32 (sb_inodes sb + inum / DINODE_CNT_PER_BLOCK).
Definition offset_of_inode (inum : Z) : Z := inum mod DINODE_CNT_PER_BLOCK.
Definition imap_blockno_of_inode (sb : superblock) (inum : Z) : Z :=
  u32 (sb_imap sb + inum / BIT_CNT_PER_BLOCK).
Definition imap_offset_of_inode (inum : Z) : Z := inum mod BIT_CNT_PER_BLOCK.

(** The loop of [idx_remove] that moves the entries of an index block down, from
    entry [k] with [n] left: the entry where it stops, and the block. *)
Fixpoint shift_idx (n k : nat) (d : list Z) : nat * list Z :=
  match n with
  | O => (k, d)
  | S n => if get_at 4 (4 * k) d =? 0 then (k, d)
           else shift_idx n (S k) (put_at 4 (4 * k) (get_at 4 (4 * (k + 1)) d) d)
  end.
(** [for (int j = j0; j < lim; ++j) iblock[j] = iblock[j + 1]], [n] steps left. *)
Fixpoint shift_iblock (n j : nat) (l : list Z) : option (list Z) :=
  match n with
  | O => Some l
  | S n => x ← l !! S j; shift_iblock n (S j) (<[j := x]> l)
  end.

Section inode.
Context {S : Type} {IO : BlockIO S}.

(** The block layer and the [inodes] of [icache]. *)
Definition ist : Type := S * list inode.
Implicit Types x : ist.

Definition lift {A} (m : M S A) : M ist A := zoom fst (λ s x, (s, x.2)) m.
Definition onmach {A} (m : M mach A) : M ist A := lift (zoom bmach bset_mach m).
Definition inode_at (i : nat) : M ist inode := deref (λ x, x.2 !! i).
Definition mod_inode (i : nat) (f : inode → inode) : M ist unit :=
  let! _ := inode_at i in modify (λ x, (x.1, alter f i x.2)).
Definition sb_of (i : nat) : M ist superblock :=
  let! a := inode_at i in deref (λ _, i_sb a).
Definition iblock_at (i : nat) (j : nat) : M ist Z :=
  let! a := inode_at i in deref (λ _, di_iblock (i_di a) !! j).
(** A store to [in->di.iblock[j]]. *)
Definition set_iblock_at (i j : nat) (v : Z) : M ist unit :=
  let! _ := iblock_at i j in mod_inode i (set_di (λ di, set_iblock (<[j := v]> (di_iblock di)) di)).
Definition data_of (b : nat) : M ist (list Z) := lift (gets (λ s, bdata s b)).

Definition sl_get (i : nat) (l : list inode) : option sleeplock := i_slep <$> l !! i.
Definition sl_put (i : nat) (v : sleeplock) (l : list inode) : list inode := alter (set_slep v) i l.
Definition on_slep {A} (m : M (mach * list inode) A) : M ist A :=
  zoom (λ x, (bmach x.1, x.2)) (λ p x, (bset_mach p.1 x.1, p.2)) m.
Definition sleep_get_inode (i : nat) : M ist unit :=
  on_slep (sleep_get (sl_get i) (sl_put i) (ChInodeLock i)).
Definition sleep_put_inode (i : nat) : M ist unit :=
  on_slep (sleep_put (sl_get i) (sl_put i) (ChInodeLock i)).

Definition iref (i : nat) : M ist unit :=
  onmach (spin_get (L_inode i)) ;;
  mod_inode i (λ a, set_irefc (u32 (i_refc a + 1)) a) ;;
  onmach (spin_put (L_inode i)).

(** [section] is dereferenced after [brelse], as in the code. *)
Definition iexist (sb : superblock) (inum : Z) : M ist bool :=
  let! b := lift (bread (sb_dev sb) (imap_blockno_of_inode sb inum)) in
  let k := imap_offset_of_inode inum in
  lift (brelse b) ;;
  let! d := data_of b in
  ret (negb (Z.land (get_at 1 (Z.to_nat (k / 8)) d) (Z.shiftl 1 (k mod 8)) =? 0)).

Definition iread (i : nat) : M ist unit :=
  sleep_get_inode i ;;
  let! a := inode_at i in
  let! sb := sb_of i in
  let! b := lift (bread (sb_dev sb) (blockno_of_inode sb (i_inum a))) in
  let! d := data_of b in
  let off := (SZDINODE * Z.to_nat (offset_of_inode (i_inum a)))%nat in
  mod_inode i (set_di (λ _, dinode_decode (take SZDINODE (drop off d)))) ;;
  lift (brelse b) ;;
  sleep_put_inode i.

Definition iupdate (i : nat) : M ist unit :=
  sleep_get_inode i ;;
  let! a := inode_at i in
  let! sb := sb_of i in
  let! b := lift (bread (sb_dev sb) (blockno_of_inode sb (i_inum a))) in
  let! d := data_of b in
  let off := (SZDINODE * Z.to_nat (offset_of_inode (i_inum a)))%nat in
  lift (modify (bset b (blit off (dinode_encode (i_di a)) d))) ;;
  lift (bwrite b) ;;
  lift (brelse b) ;;
  sleep_put_inode i.

(** The loop of [ialloc] over the map blocks: [n] left, the next one is [i]. *)
Fixpoint ialloc_loop (sb : superblock) (n : nat) (i : Z) : M S Z :=
  match n with
  | O => panic "ialloc: dinode exhausted"
  | Datatypes.S n =>
    let! b := read_nth_imap sb i in
    let! d := gets (λ s, bdata s b) in
    let j := find_section (BSIZE / 8) 0 d in
    if Nat.eqb j (BSIZE / 8) then brelse b ;; ialloc_loop sb n (i + 1) else
    match find_bit 64 0 (get_at 8 (8 * j) d) with
    | Some k =>
      modify (bset b (section_set j k d)) ;;
      bwrite b ;;
      brelse b ;;
      ret (u32 (i * BIT_CNT_PER_BLOCK + Z.of_nat j * 8 + Z.of_nat k))
    | None => ialloc_loop sb n (i + 1)
    end
  end.
Definition ialloc (sb : superblock) : M S Z :=
  ialloc_loop sb (Z.to_nat (i32 (sb_inodes sb - sb_imap sb))) 0.

(** The data blocks listed in the index block [b], from entry [j] with [n] left. *)
Fixpoint itrunc_idx (sb : superblock) (b : nat) (n j : nat) : M S unit :=
  match n with
  | O => ret tt
  | Datatypes.S n =>
    let! d := gets (λ s, bdata s b) in
    if get_at 4 (4 * j) d =? 0 then ret tt else
    let! bb := bread (sb_dev sb) (get_at 4 (4 * j) d) in
    bzero bb ;;
    brelse bb ;;
    let! d := gets (λ s, bdata s b) in
    bfree sb (get_at 4 (4 * j) d) ;;
    itrunc_idx sb b n (Datatypes.S j)
  end.
Fixpoint itrunc_loop (i : nat) (sb : superblock) (n j : nat) : M ist unit :=
  match n with
  | O => ret tt
  | Datatypes.S n =>
    let! e := iblock_at i j in
    if e =? 0 then ret tt else
    let! b := lift (bread (sb_dev sb) e) in
    lift (when (NDIRECT <=? j)%nat (itrunc_idx sb b IDX_CNT 0)) ;;
    lift (bzero b) ;;
    lift (brelse b) ;;
    lift (bfree sb e) ;;
    set_iblock_at i j 0 ;;
    itrunc_loop i sb n (Datatypes.S j)
  end.
Definition itrunc (i : nat) : M ist unit :=
  mod_inode i (set_di (set_fsize 0)) ;;
  let! sb := sb_of i in
  itrunc_loop i sb NIBLOCK 0.

Definition ifree (i : nat) : M ist unit :=
  itrunc i ;;
  mod_inode i (set_di (set_type UNUSE)) ;;
  iupdate i ;;
  let! a := inode_at i in
  let! sb := sb_of i in
  let! b := lift (read_nth_imap sb (u32 (imap_blockno_of_inode sb (i_inum a) - sb_imap sb))) in
  let k := imap_offset_of_inode (i_inum a) in
  let! d := data_of b in
  let off := Z.to_nat (k / 8) in
  lift (modify (bset b (put_at 1 off (Z.land (get_at 1 off d) (u8 (Z.lnot (Z.shiftl 1 (k mod 8))))) d))) ;;
  lift (bwrite b) ;;
  lift (brelse b).

(** The first loop of [iget], with [n] inodes left: an inode that is cached. *)
Fixpoint iget_hit (sb : superblock) (inum : Z) (n : nat) : M ist (option nat) :=
  match n with
  | O => ret None
  | Datatypes.S n' =>
    let i := (NINODE - n)%nat in
    onmach (spin_get (L_inode i)) ;;
    let! a := inode_at i in
    if bool_decide (i_sb a = Some sb) && (i_inum a =? inum) then
      mod_inode i (λ a, set_irefc (u32 (i_refc a + 1)) a) ;;
      onmach (spin_put (L_inode i)) ;;
      onmach (spin_put L_icache) ;;
      ret (Some i)
    else
      onmach (spin_put (L_inode i)) ;;
      iget_hit sb inum n'
  end.
(** The second loop: an inode nobody refers to. *)
Fixpoint iget_claim (sb : superblock) (inum : Z) (n : nat) : M ist (option nat) :=
  match n with
  | O => ret None
  | Datatypes.S n' =>
    let i := (NINODE - n)%nat in
    onmach (spin_get (L_inode i)) ;;
    let! a := inode_at i in
    if i_refc a =? 0 then
      mod_inode i (claim_inode sb inum) ;;
      onmach (spin_put (L_inode i)) ;;
      ret (Some i)
    else
      onmach (spin_put (L_inode i)) ;;
      iget_claim sb inum n'
  end.
Definition iget (sb : superblock) (inum : Z) : M ist (option nat) :=
  onmach (spin_get L_icache) ;;
  let! r := iget_hit sb inum NINODE in
  match r with
  | Some i => ret (Some i)
  | None =>
    onmach (spin_put L_icache) ;;
    let! e := iexist sb inum in
    if negb e then ret None else
    onmach (spin_get L_icache) ;;
    let! r := iget_claim sb inum NINODE in
    onmach (spin_put L_icache) ;;
    match r with
    | None => panic "iget: icache exhausted"
    | Some i => iread i ;; ret (Some i)
    end
  end.

Definition iput (i : nat) : M ist unit :=
  onmach (spin_get (L_inode i)) ;;
  mod_inode i (λ a, set_irefc (u32 (i_refc a - 1)) a) ;;
  onmach (spin_put (L_inode i)).

Definition data_block_get (i : nat) (n : Z) : M ist nat :=
  let! sb := sb_of i in
  if n <? Z.of_nat NDIRECT then
    let! e := iblock_at i (Z.to_nat n) in
    lift (bread (sb_dev sb) e)
  else
    let! e := iblock_at i (NDIRECT + Z.to_nat ((n - Z.of_nat NDIRECT) / Z.of_nat IDX_CNT)) in
    let! b := lift (bread (sb_dev sb) e) in
    let! d := data_of b in
    let blockno := get_at 4 (4 * Z.to_nat ((n - Z.of_nat NDIRECT) mod Z.of_nat IDX_CNT)) d in
    lift (brelse b) ;;
    lift (bread (sb_dev sb) blockno).

(** [sizeof(u32)] stands where the entries of an index block are meant. *)
Definition FILE_MAX_DATA_BLOCKNUM : Z := Z.of_nat NDIRECT + Z.of_nat NINDIRECT * 4.
Definition data_block_alloc (i : nat) : M ist nat :=
  let! a := inode_at i in
  let! sb := sb_of i in
  let curn := u32 (iblock_cnt (i_di a)) in
  if curn =? FILE_MAX_DATA_BLOCKNUM then panic "data_block_alloc: file too big" else
  let! blockno := lift (balloc sb) in
  (if curn <? Z.of_nat NDIRECT then set_iblock_at i (Z.to_nat curn) blockno
   else
     let curn := curn - Z.of_nat NDIRECT in
     let q := (NDIRECT + Z.to_nat (curn / Z.of_nat IDX_CNT))%nat in
     let r := Z.to_nat (curn mod Z.of_nat IDX_CNT) in
     let! b :=
       (if Nat.eqb r 0 then
          let! iblockno := lift (balloc sb) in
          set_iblock_at i q iblockno ;;
          let! b := lift (bread (sb_dev sb) iblockno) in
          let! d := data_of b in
          lift (modify (bset b (put_at 4 0 blockno d))) ;;
          ret b
        else
          let! e := iblock_at i q in
          let! b := lift (bread (sb_dev sb) e) in
          let! d := data_of b in
          lift (modify (bset b (put_at 4 (4 * r) blockno d))) ;;
          ret b) in
     lift (bwrite b) ;;
     lift (brelse b)) ;;
  lift (bread (sb_dev sb) blockno).

(** [for (int j = j0; j < lim; ++j) in->di.iblock[j] = in->di.iblock[j + 1]]. *)
Definition shift_index (i : nat) (j lim : Z) : M ist unit :=
  let! a := inode_at i in
  let! l := deref (λ _, shift_iblock (Z.to_nat (lim - j)) (Z.to_nat j) (di_iblock (i_di a))) in
  mod_inode i (set_di (set_iblock l)).

(** The loops over the index blocks of [idx_remove], from [iblock[j]] with [n]
    left; the first block is shifted from entry [k], the others from their start. *)
Fixpoint idx_shift (i : nat) (dev : Z) (n j k : nat) : M ist unit :=
  match n with
  | O => ret tt
  | Datatypes.S n =>
    let! e := iblock_at i j in
    if e =? 0 then ret tt else
    let! b := lift (bread dev e) in
    let! d := data_of b in
    let '(x, d1) := shift_idx (IDX_CNT - 1 - k) k d in
    lift (modify (bset b d1)) ;;
    (if get_at 4 (4 * x) d1 =? 0 then ret tt else
     let! e' := iblock_at i (Datatypes.S j) in
     if e' =? 0 then lift (modify (bset b (put_at 4 (4 * x) 0 d1))) else
     let! nb := lift (bread dev e') in
     lift (modify (bset b (put_at 4 (4 * x) (get_at 4 0 d1) d1))) ;;
     lift (brelse nb)) ;;
    lift (bwrite b) ;;
    lift (bzero b) ;;
    lift (brelse b) ;;
    idx_shift i dev n (Datatypes.S j) 0
  end.
Definition zero_data_block (dev e : Z) : M ist unit :=
  let! b := lift (bread dev e) in
  lift (bzero b) ;;
  lift (brelse b).
Definition idx_remove (i : nat) (n : Z) : M ist unit :=
  let! a := inode_at i in
  let! sb := sb_of i in
  let blockcnt := iblock_cnt (i_di a) in
  let dev := sb_dev sb in
  if blockcnt <? Z.of_nat NDIRECT then
    let! e := iblock_at i (Z.to_nat n) in
    zero_data_block dev e ;;
    shift_index i (i32 n) blockcnt
  else if n <? Z.of_nat NDIRECT then
    let! e := iblock_at i (Z.to_nat n) in
    zero_data_block dev e ;;
    shift_index i n (Z.of_nat NDIRECT - 1) ;;
    let! e := iblock_at i NDIRECT in
    let! b := lift (bread dev e) in
    let! d := data_of b in
    set_iblock_at i (NDIRECT - 1) (get_at 4 0 d) ;;
    lift (brelse b) ;;
    idx_shift i dev NINDIRECT NDIRECT 0
  else
    let q := Z.to_nat ((n - Z.of_nat NDIRECT) / Z.of_nat IDX_CNT) in
    let r := Z.to_nat ((n - Z.of_nat NDIRECT) mod Z.of_nat IDX_CNT) in
    idx_shift i dev (NINDIRECT - q) (NDIRECT + q) r.
End inode.

(** ** The layout of inodes on disk *)

Definition u32_ok (v : Z) : Prop := 0 ≤ v < 2 ^ 32.
(** The fields hold [u32] values and the index has its size. *)
Definition di_wf (di : dinode) : Prop := Forall u32_ok (dinode_words di) ∧ length (di_iblock di) = NIBLOCK.

Lemma words_cons w ws : mjoin (le_split 4 <$> w :: ws) = le_split 4 w ++ mjoin (le_split 4 <$> ws).
Proof. done. Qed.
Lemma length_words ws : length (mjoin (le_split 4 <$> ws)) = (4 * length ws)%nat.
Proof. induction ws as [|w ws IH]; [done|]. rewrite words_cons, length_app, length_le_split, IH. cbn. lia. Qed.
Lemma get_words ws i w : ws !! i = Some w → u32_ok w → get_at 4 (4 * i) (mjoin (le_split 4 <$> ws)) = w.
Proof.
  revert i. induction ws as [|w' ws IH]; intros [|i] E Hw; [done..| |].
  - injection E as <-. unfold get_at. rewrite words_cons.
    rewrite Nat.mul_0_r, drop_0, take_app_length' by (symmetry; apply length_le_split).
    rewrite le_combine_split. apply Z.mod_small, Hw.
  - rewrite <- (IH i E Hw). unfold get_at. rewrite words_cons.
    replace (4 * S i)%nat with (length (le_split 4 w') + 4 * i)%nat by (rewrite length_le_split; lia).
    by rewrite drop_app_add.
Qed.
Lemma length_encode di : length (di_iblock di) = NIBLOCK → length (dinode_encode di) = SZDINODE.
Proof. intros H. unfold dinode_encode. rewrite length_words. unfold dinode_words. rewrite length_app, H. done. Qed.
Lemma bytes_ok_encode di : bytes_ok (dinode_encode di).
Proof.
  unfold dinode_encode. induction (dinode_words di) as [|w ws IH]; [constructor|].
  apply bytes_ok_app. split; [apply bytes_ok_le_split|done].
Qed.

(** What [iupdate] stores is what [iread] loads. *)
Lemma decode_encode di : di_wf di → dinode_decode (dinode_encode di) = di.
Proof.
  intros [Hw Hl]. unfold dinode_decode, dinode_encode.
  assert (G : ∀ i w, dinode_words di !! i = Some w →
    get_at 4 (4 * i) (mjoin (le_split 4 <$> dinode_words di)) = w).
  { intros i w E. apply get_words; [done|]. by eapply (proj1 (Forall_lookup _ _)). }
  rewrite (G 0%nat _ eq_refl : get_at 4 0 _ = di_type di), (G 1%nat _ eq_refl : get_at 4 4 _ = di_dev di),
    (G 2%nat _ eq_refl : get_at 4 8 _ = di_nlink di), (G 3%nat _ eq_refl : get_at 4 12 _ = di_fsize di).
  assert ((λ i, get_at 4 (16 + 4 * i) (mjoin (le_split 4 <$> dinode_words di))) <$> seq 0 NIBLOCK =
    di_iblock di) as ->; [|by destruct di].
  apply list_eq_same_length with (n := NIBLOCK); [done|by rewrite length_fmap, length_seq|].
  intros i x y Hi Ex Ey. rewrite list_lookup_fmap, lookup_seq_lt in Ex by done. apply (inj Some) in Ex. subst x.
  replace (16 + 4 * (0 + i))%nat with (4 * (4 + i))%nat by lia. by apply G.
Qed.
Lemma decode_wf d : bytes_ok d → length d = SZDINODE → di_wf (dinode_decode d).
Proof.
  intros Hd Hl. assert (G : ∀ o, (o + 4 ≤ SZDINODE)%nat → u32_ok (get_at 4 o d)).
  { intros o Ho. apply (get_at_bound 4); [done|lia]. }
  assert (SZDINODE = 76%nat) as HZ by done. split; [|cbn; by rewrite length_fmap, length_seq].
  do 4 (constructor; [apply G; lia|]). apply Forall_fmap, Forall_forall. intros i Hi%elem_of_seq.
  cbn. apply G. change NIBLOCK with 15%nat in Hi. lia.
Qed.

(** The copy of inode [inum] on the disk. *)
Definition disk_inode (sb : superblock) (disk : Z → list Z) (inum : Z) : dinode :=
  dinode_decode (take SZDINODE (drop (SZDINODE * Z.to_nat (offset_of_inode inum))
    (disk (blockno_of_inode sb inum)))).
(** Number of inodes the inode area holds. *)
Definition ninodes (sb : superblock) : Z := (sb_bmap sb - sb_inodes sb) * DINODE_CNT_PER_BLOCK.
(** The change [iupdate] makes to the disk. *)
Definition wr_inode (sb : superblock) (inum : Z) (di : dinode) : Z → list Z → list Z := λ k d,
  if decide (k = blockno_of_inode sb inum)
  then blit (SZDINODE * Z.to_nat (offset_of_inode inum)) (dinode_encode di) d else d.

Lemma dinodes_per_block : DINODE_CNT_PER_BLOCK = 13 ∧ SZDINODE = 76%nat.
Proof. done. Qed.
Lemma offset_bound inum : (SZDINODE * Z.to_nat (offset_of_inode inum) + SZDINODE ≤ BSIZE)%nat ∧
  0 ≤ offset_of_inode inum < 13.
Proof.
  destruct dinodes_per_block as [H1 H2]. unfold offset_of_inode. rewrite H1, H2.
  pose proof (Z.mod_pos_bound inum 13 ltac:(lia)). unfold BSIZE. lia.
Qed.
Lemma blockno_bound sb inum : sb_wf sb → 0 ≤ inum < ninodes sb →
  blockno_of_inode sb inum = sb_inodes sb + inum / 13 ∧
  sb_inodes sb ≤ blockno_of_inode sb inum < sb_bmap sb.
Proof.
  intros [? ? ? ? ? Ht] Hi. destruct dinodes_per_block as [H1 _]. unfold ninodes in Hi. rewrite H1 in Hi.
  rewrite bits_per_block in Ht. unfold blockno_of_inode. rewrite H1.
  pose proof (Z.div_pos inum 13 ltac:(lia) ltac:(lia)).
  pose proof (Z.div_lt_upper_bound inum 13 (sb_bmap sb - sb_inodes sb) ltac:(lia) ltac:(lia)).
  rewrite u32_id by lia. lia.
Qed.
Lemma take_drop_blit_ne o o' (src d : list Z) : length src = SZDINODE → o ≠ o' →
  (SZDINODE * o + SZDINODE ≤ length d)%nat →
  take SZDINODE (drop (SZDINODE * o') (blit (SZDINODE * o) src d)) =
  take SZDINODE (drop (SZDINODE * o') d).
Proof.
  intros Hs Ho Hl. apply list_eq. intros i. destruct (decide (i < SZDINODE)%nat) as [Hi|Hi].
  - rewrite !lookup_take_lt, !lookup_drop by done. rewrite lookup_blit by (rewrite Hs; lia).
    rewrite Hs. rewrite decide_False; [done|]. destruct (decide (o < o')%nat); nia.
  - by rewrite !lookup_take_ge by lia.
Qed.
(** [iupdate] changes one inode of the disk. *)
Lemma wr_inode_get sb disk inum inum' di : sb_wf sb →
  0 ≤ inum < ninodes sb → 0 ≤ inum' < ninodes sb → di_wf di →
  is_block (disk (blockno_of_inode sb inum)) →
  disk_inode sb (λ k, wr_inode sb inum di k (disk k)) inum' =
  if decide (inum' = inum) then di else disk_inode sb disk inum'.
Proof.
  intros Hsb Hi Hi' Hdi [Hlen _]. destruct (offset_bound inum) as [Ho Ho2].
  pose proof (length_encode di (proj2 Hdi)) as Hle. unfold disk_inode, wr_inode.
  destruct (decide (inum' = inum)) as [->|Hne].
  - rewrite decide_True by done. rewrite <- Hle at 1. rewrite take_drop_blit by lia. by apply decode_encode.
  - case_decide as Eb; [|done]. f_equal. apply take_drop_blit_ne; [done| |by rewrite Eb, Hlen].
    destruct (offset_bound inum') as [_ Ho2'].
    destruct (blockno_bound sb inum Hsb Hi) as [B1 _], (blockno_bound sb inum' Hsb Hi') as [B2 _].
    rewrite B1, B2 in Eb. unfold offset_of_inode in *. destruct dinodes_per_block as [H1 _]. rewrite H1 in *.
    pose proof (Z.div_mod inum 13 ltac:(lia)). pose proof (Z.div_mod inum' 13 ltac:(lia)). lia.
Qed.

(** ** Stepping the lifted routines *)
Section steps.
Context {S : Type} {IO : BlockIO S}.
Implicit Types (s : S) (l : list inode).

Lemma lift_ok {A} (m : M S A) s l a s' : m s = Ok a s' → lift m (s, l) = Ok a (s', l).
Proof. intros E. unfold lift, zoom. cbn. by rewrite E. Qed.
Lemma lift_panic {A} (m : M S A) s l msg s' : m s = Panic msg s' → lift m (s, l) = Panic msg (s', l).
Proof. intros E. unfold lift, zoom. cbn. by rewrite E. Qed.
Lemma data_of_ok b s l d : bdata s b = d → data_of b (s, l) = Ok d (s, l).
Proof. by intros <-. Qed.
Lemma inode_at_ok i s l a : l !! i = Some a → inode_at i (s, l) = Ok a (s, l).
Proof. intros E. unfold inode_at, deref. cbn. by rewrite E. Qed.
Lemma mod_inode_ok i f s l a : l !! i = Some a →
  mod_inode i f (s, l) = Ok tt (s, <[i := f a]> l).
Proof.
  intros E. unfold mod_inode. run (inode_at_ok i s l a E). unfold modify. cbn.
  by rewrite (list_alter_insert _ _ _ _ E).
Qed.
Lemma sb_of_ok i s l a sb : l !! i = Some a → i_sb a = Some sb → sb_of i (s, l) = Ok sb (s, l).
Proof. intros E E2. unfold sb_of. run (inode_at_ok i s l a E). unfold deref. by rewrite E2. Qed.
Lemma iblock_at_ok i j s l a e : l !! i = Some a → di_iblock (i_di a) !! j = Some e →
  iblock_at i j (s, l) = Ok e (s, l).
Proof. intros E E2. unfold iblock_at. run (inode_at_ok i s l a E). unfold deref. by rewrite E2. Qed.
Lemma set_iblock_at_ok i j v s l a e : l !! i = Some a → di_iblock (i_di a) !! j = Some e →
  set_iblock_at i j v (s, l) =
  Ok tt (s, <[i := set_di (λ di, set_iblock (<[j := v]> (di_iblock di)) di) a]> l).
Proof.
  intros E E2. unfold set_iblock_at. run (iblock_at_ok i j s l a e E E2). by apply mod_inode_ok.
Qed.
Lemma onmach_ok {A} (k : M mach A) s l a m' : k (bmach s) = Ok a m' →
  onmach k (s, l) = Ok a (bset_mach m' s, l).
Proof. intros E. unfold onmach. apply lift_ok. unfold zoom. by rewrite E. Qed.

Lemma mach_step s m : bio_ok s → mach_frame (bmach s) m → io_step keep s (bset_mach m s).
Proof.
  intros Hok Hf. destruct (bset_mach_view s m) as (V1 & V2 & V3).
  split; [by apply bset_mach_ok|done|done|by rewrite bmach_set|]. intros k _. by rewrite V1.
Qed.
Lemma ok_quiet s : bio_ok s → quiet (bmach s).
Proof. intros Hok. by destruct (bio_ok_mach s Hok). Qed.

(** A critical section of one lock that changes one inode. *)
Lemma critical_ok lk i f s l a : bio_ok s → l !! i = Some a →
  ∃ s', (onmach (spin_get lk) ;; mod_inode i f ;; onmach (spin_put lk)) (s, l) =
    Ok tt (s', <[i := f a]> l) ∧ io_step keep s s'.
Proof.
  intros Hok E. pose proof (ok_quiet s Hok) as Hq.
  exists (bset_mach (touch (bmach s)) s). split; [|by apply mach_step; [|apply touch_frame]].
  run (onmach_ok (spin_get lk) s l tt _ (spin_get_free lk _ (quiet_free _ _ Hq))).
  run (mod_inode_ok i f (bset_mach (acq lk (bmach s)) s) l a E).
  rewrite (onmach_ok (spin_put lk) (bset_mach (acq lk (bmach s)) s) (<[i:=f a]> l) tt (touch (bmach s))).
  - by rewrite bset_mach_twice.
  - rewrite bmach_set, spin_put_held by apply acq_held. rewrite rel_acq; auto with mach.
Qed.

Lemma sleep_get_inode_ok i s l a : l !! i = Some a → i_slep a = sleep0 →
  sleep_get_inode i (s, l) =
  Ok tt (bset_mach (bmach s) s, <[i := set_slep (MkSleep true (mytask (bmach s))) a]> l).
Proof.
  intros E Es. unfold sleep_get_inode, on_slep, zoom. cbn [fst snd].
  rewrite sleep_get_free by (unfold sl_get; by rewrite E; cbn; rewrite Es). cbn. do 2 f_equal.
  unfold sl_put. rewrite (list_alter_insert _ _ _ _ E). rewrite (list_alter_insert _ _ _ (set_slep (MkSleep true None) a)).
  - by rewrite list_insert_insert_eq.
  - apply list_lookup_insert_eq. by eapply lookup_lt_Some.
Qed.
Lemma sleep_put_inode_ok i s l a : bio_ok s → l !! i = Some a →
  i_slep a = MkSleep true (mytask (bmach s)) →
  ∃ s', sleep_put_inode i (s, l) = Ok tt (s', <[i := set_slep sleep0 a]> l) ∧ io_step keep s s'.
Proof.
  intros Hok E Es.
  destruct (sleep_put_held (sl_get i) (sl_put i) (ChInodeLock i) (bmach s) l) as (m' & Ep & _ & Hf).
  { unfold sl_get. by rewrite E; cbn; rewrite Es. }
  { by apply bio_ok_mach. }
  exists (bset_mach m' s). split; [|by apply mach_step].
  unfold sleep_put_inode, on_slep, zoom. cbn [fst snd]. rewrite Ep. cbn.
  unfold sl_put. by rewrite (list_alter_insert _ _ _ _ E).
Qed.
End steps.

(** [runl H]: step a routine of the block layer. *)
Ltac runl H := rewrite ?bind_assoc; erewrite bind_ok; [|apply lift_ok; exact H]; cbn beta.

(** ** Inodes in memory and on disk *)
Section inode_spec.
Context {S : Type} {IO : BlockIO S} (sb : superblock) (WF : sb_wf sb).
Implicit Types (s : S) (l : list inode).

(** No block of the inode area is held. *)
Definition itable_free s : Prop := area_free (sb_inodes sb) (sb_bmap sb) s.
(** No block of the inode map is held. *)
Definition imap_free s : Prop := area_free (sb_imap sb) (sb_inodes sb) s.
(** Slot [i] of the cache holds an inode of [sb] that is not locked. *)
Definition slot_of l (i : nat) (a : inode) : Prop :=
  l !! i = Some a ∧ i_slep a = sleep0 ∧ i_sb a = Some sb.

Lemma area_sub lo hi lo' hi' s : area_free lo hi s → lo ≤ lo' → hi' ≤ hi → area_free lo' hi' s.
Proof. intros (H1 & H2 & H3) ? ?. split; [done|]. split; [done|]. intros n Hn. apply H3. lia. Qed.

Lemma iread_spec s l i a : slot_of l i a → 0 ≤ i_inum a < ninodes sb → itable_free s →
  ∃ s', iread i (s, l) =
    Ok tt (s', <[i := set_di (λ _, disk_inode sb (bio_disk s) (i_inum a)) a]> l) ∧ io_step keep s s'.
Proof.
  intros (E & Es & Esb) Hi Ha. pose proof Ha as (Hok & _ & _).
  pose proof WF as [Hd ? ? ? ? _]. destruct (wf_ranges sb WF) as (_ & _ & ?).
  destruct (blockno_bound sb (i_inum a) WF Hi) as [_ Hb]. pose proof (lookup_lt_Some _ _ _ E) as Hlt.
  unfold iread. run (sleep_get_inode_ok i s l a E Es).
  set (s0 := bset_mach _ s). set (a1 := set_slep _ a).
  assert (St0 : io_step keep s s0) by (apply mach_step; done).
  assert (E1 : <[i:=a1]> l !! i = Some a1) by (by apply list_lookup_insert_eq).
  run (inode_at_ok i s0 _ a1 E1). run (sb_of_ok i s0 _ a1 sb E1 Esb). rewrite Hd.
  pose proof (area_free_step _ _ _ _ _ St0 Ha) as Ha0.
  destruct (area_bread _ _ (blockno_of_inode sb (i_inum a)) s0 Ha0) as (b & s1 & Eb & O & Hblk & Hbd); [lia..|].
  runl Eb. run (data_of_ok b s1 (<[i:=a1]> l) _ Hbd).
  run (mod_inode_ok i (set_di (λ _, dinode_decode (take SZDINODE (drop
    (SZDINODE * Z.to_nat (offset_of_inode (i_inum a1))) (bio_disk s0 (blockno_of_inode sb (i_inum a)))))))
    s1 _ a1 E1).
  destruct (owns_brelse _ _ _ _ _ _ O) as (s2 & E2 & St & _); [done|]. runl E2.
  rewrite list_insert_insert_eq. set (a2 := set_di _ a1).
  destruct (sleep_put_inode_ok i s2 (<[i:=a2]> l) a2) as (s3 & E3 & St3).
  - apply St.
  - by apply list_lookup_insert_eq.
  - cbn. by rewrite (frame_mytask _ _ (st_mach _ _ _ St)), (frame_mytask _ _ (st_mach _ _ _ St0)).
  - rewrite E3, list_insert_insert_eq. exists s3. split.
    + unfold a2, a1, disk_inode. cbn. rewrite <- Es. do 2 f_equal.
      rewrite (st_disk _ _ _ St0) by (unfold blk; lia). by destruct a.
    + by eapply io_step_ext, io_step_trans, St3; [|eapply io_step_trans, St; exact St0].
Qed.

Lemma iupdate_spec s l i a : slot_of l i a → 0 ≤ i_inum a < ninodes sb → di_wf (i_di a) → itable_free s →
  ∃ s', iupdate i (s, l) = Ok tt (s', l) ∧ io_step (wr_inode sb (i_inum a) (i_di a)) s s'.
Proof.
  intros (E & Es & Esb) Hi Hdi Ha. pose proof Ha as (Hok & _ & _).
  pose proof WF as [Hd ? ? ? ? _]. destruct (wf_ranges sb WF) as (_ & _ & ?).
  destruct (blockno_bound sb (i_inum a) WF Hi) as [_ Hb]. pose proof (lookup_lt_Some _ _ _ E) as Hlt.
  unfold iupdate. run (sleep_get_inode_ok i s l a E Es).
  set (s0 := bset_mach _ s). set (a1 := set_slep _ a).
  assert (St0 : io_step keep s s0) by (apply mach_step; done).
  assert (E1 : <[i:=a1]> l !! i = Some a1) by (by apply list_lookup_insert_eq).
  run (inode_at_ok i s0 _ a1 E1). run (sb_of_ok i s0 _ a1 sb E1 Esb). rewrite Hd.
  pose proof (area_free_step _ _ _ _ _ St0 Ha) as Ha0.
  destruct (area_bread _ _ (blockno_of_inode sb (i_inum a)) s0 Ha0) as (b & s1 & Eb & O & Hblk & Hbd); [lia..|].
  runl Eb. run (data_of_ok b s1 (<[i:=a1]> l) _ Hbd).
  destruct (offset_bound (i_inum a)) as [Ho _]. pose proof (length_encode _ (proj2 Hdi)) as Hle.
  set (d' := blit (SZDINODE * Z.to_nat (offset_of_inode (i_inum a))) (dinode_encode (i_di a))
    (bio_disk s0 (blockno_of_inode sb (i_inum a)))).
  assert (Hd' : is_block d').
  { destruct Hblk as [Hl Hbk]. split; [unfold d'; rewrite length_blit; lia|].
    apply bytes_ok_blit; [apply bytes_ok_encode|done]. }
  destruct (owns_rewrite _ _ _ _ _ _ _ O Hd') as (s2 & s3 & E2 & E3 & St).
  run (lift_ok (modify (bset b d')) s1 (<[i:=a1]> l) tt (bset b d' s1) eq_refl).
  runl E2. runl E3.
  destruct (sleep_put_inode_ok i s3 (<[i:=a1]> l) a1) as (s4 & E4 & St4).
  - apply St.
  - done.
  - cbn. by rewrite (frame_mytask _ _ (st_mach _ _ _ St)), (frame_mytask _ _ (st_mach _ _ _ St0)).
  - rewrite E4, list_insert_insert_eq. exists s4. split.
    + rewrite list_insert_id; [done|]. rewrite E. f_equal. unfold a1. rewrite <- Es. by destruct a.
    + eapply io_step_ext, io_step_trans, St4; [|eapply io_step_trans, St; exact St0].
      intros k Hk. unfold comp, keep, wr, wr_inode, d'. case_decide as Ek; [|done]. subst k.
      by rewrite (st_disk _ _ _ St0).
Qed.

Lemma iexist_spec s l inum : 0 ≤ inum < (sb_inodes sb - sb_imap sb) * BIT_CNT_PER_BLOCK → imap_free s →
  ∃ s', iexist sb inum (s, l) = Ok (map_bit (bio_disk s) (sb_imap sb) inum) (s', l) ∧ io_step keep s s'.
Proof.
  intros Hi Ha. pose proof WF as [Hd ? ? ? ? Ht]. destruct (wf_ranges sb WF) as (_ & _ & ?).
  pose proof (map_blk_bound (sb_imap sb) inum _ Hi) as Hb.
  assert (imap_blockno_of_inode sb inum = map_blk (sb_imap sb) inum) as Eb.
  { unfold imap_blockno_of_inode, map_blk in *. rewrite u32_id; lia. }
  unfold iexist. rewrite Eb, Hd.
  destruct (area_bread _ _ (map_blk (sb_imap sb) inum) s Ha ltac:(lia) ltac:(lia) ltac:(lia)) as (b & s1 & E1 & O & Hblk & Hbd).
  runl E1. destruct (owns_brelse _ _ _ _ _ _ O) as (s2 & E2 & St & Hd2); [done|].
  runl E2. run (data_of_ok b s2 l _ Hd2). exists s2. split; [|done].
  unfold ret. f_equal. unfold map_bit, map_idx, imap_offset_of_inode.
  pose proof (Z.mod_pos_bound inum BIT_CNT_PER_BLOCK ltac:(done)) as Hk.
  set (k := inum mod BIT_CNT_PER_BLOCK) in *. pose proof (Z.mod_pos_bound k 8 ltac:(lia)).
  pose proof (Z.div_mod k 8 ltac:(lia)). pose proof (Z.div_pos k 8 ltac:(lia) ltac:(lia)).
  rewrite land_shiftl_0 by lia. rewrite negb_involutive.
  rewrite <- (Z2Nat.id (k mod 8)), testbit_get_at by (apply Hblk || lia). f_equal. lia.
Qed.

(** *** [iget] *)

Definition hit_at (inum : Z) l (i : nat) : bool :=
  match l !! i with
  | Some a => bool_decide (i_sb a = Some sb) && (i_inum a =? inum) | None => false end.
Definition free_at l (i : nat) : bool :=
  match l !! i with Some a => i_refc a =? 0 | None => false end.
Definition inc_ref (a : inode) : inode := set_irefc (u32 (i_refc a + 1)) a.

Lemma touch_acq lk m : quiet m → touch (acq lk m) = acq lk m.
Proof.
  intros [Hl _]. unfold touch, acq, set_cpu, push_intr. cbn. rewrite Hl. done.
Qed.
(** The lock of one inode inside the critical section of the cache. *)
Lemma nested_get m s l i : quiet m →
  onmach (spin_get (L_inode i)) (bset_mach (acq L_icache m) s, l) =
  Ok tt (bset_mach (acq (L_inode i) (acq L_icache m)) s, l).
Proof.
  intros Hq. erewrite onmach_ok; [by rewrite bset_mach_twice|]. rewrite bmach_set.
  apply spin_get_free. unfold lock_free. cbn. destruct Hq as [_ E]. by rewrite E, lookup_insert_ne.
Qed.
Lemma nested_put m s l i : quiet m →
  onmach (spin_put (L_inode i)) (bset_mach (acq (L_inode i) (acq L_icache m)) s, l) =
  Ok tt (bset_mach (acq L_icache m) s, l).
Proof.
  intros Hq. erewrite onmach_ok; [by rewrite bset_mach_twice|]. rewrite bmach_set.
  rewrite spin_put_held by apply acq_held. rewrite rel_acq; [by rewrite touch_acq|..].
  - apply acq_wf; [auto with mach|]. destruct Hq as [-> _]. lia.
  - unfold lock_free. cbn. destruct Hq as [_ E]. by rewrite E, lookup_insert_ne.
Qed.
Lemma outer_get m s l : quiet m →
  onmach (spin_get L_icache) (bset_mach m s, l) = Ok tt (bset_mach (acq L_icache m) s, l).
Proof.
  intros Hq. erewrite onmach_ok; [by rewrite bset_mach_twice|]. rewrite bmach_set.
  apply spin_get_free. auto with mach.
Qed.
Lemma outer_put m s l : quiet m →
  onmach (spin_put L_icache) (bset_mach (acq L_icache m) s, l) = Ok tt (bset_mach (touch m) s, l).
Proof.
  intros Hq. erewrite onmach_ok; [by rewrite bset_mach_twice|]. rewrite bmach_set.
  rewrite spin_put_held by apply acq_held. rewrite rel_acq; auto with mach.
Qed.

Lemma iget_hit_spec inum n m s l : quiet m → length l = NINODE → (n ≤ NINODE)%nat →
  iget_hit sb inum n (bset_mach (acq L_icache m) s, l) =
  match List.find (hit_at inum l) (seq (NINODE - n) n) with
  | Some i => Ok (Some i) (bset_mach (touch m) s, alter inc_ref i l)
  | None => Ok None (bset_mach (acq L_icache m) s, l)
  end.
Proof.
  intros Hq Hl. induction n as [|n IH]; intros Hn; [done|]. cbn [iget_hit seq List.find].
  set (i := (NINODE - Datatypes.S n)%nat) in *.
  destruct (lookup_lt_is_Some_2 l i) as [a Ea]; [lia|]. unfold hit_at at 1. rewrite Ea.
  run (nested_get m s l i Hq). run (inode_at_ok i (bset_mach (acq (L_inode i) (acq L_icache m)) s) l a Ea).
  destruct (bool_decide (i_sb a = Some sb) && (i_inum a =? inum)).
  - run (mod_inode_ok i (λ a, set_irefc (u32 (i_refc a + 1)) a)
      (bset_mach (acq (L_inode i) (acq L_icache m)) s) l a Ea).
    run (nested_put m s (<[i:=inc_ref a]> l) i Hq). run (outer_put m s (<[i:=inc_ref a]> l) Hq).
    by rewrite (list_alter_insert _ _ _ _ Ea).
  - run (nested_put m s l i Hq). rewrite IH by lia. by replace (Datatypes.S i) with (NINODE - n)%nat by lia.
Qed.
Lemma iget_claim_spec inum n m s l : quiet m → length l = NINODE → (n ≤ NINODE)%nat →
  iget_claim sb inum n (bset_mach (acq L_icache m) s, l) =
  match List.find (free_at l) (seq (NINODE - n) n) with
  | Some i => Ok (Some i) (bset_mach (acq L_icache m) s, alter (claim_inode sb inum) i l)
  | None => Ok None (bset_mach (acq L_icache m) s, l)
  end.
Proof.
  intros Hq Hl. induction n as [|n IH]; intros Hn; [done|]. cbn [iget_claim seq List.find].
  set (i := (NINODE - Datatypes.S n)%nat) in *.
  destruct (lookup_lt_is_Some_2 l i) as [a Ea]; [lia|]. unfold free_at at 1. rewrite Ea.
  run (nested_get m s l i Hq). run (inode_at_ok i (bset_mach (acq (L_inode i) (acq L_icache m)) s) l a Ea).
  destruct (i_refc a =? 0).
  - run (mod_inode_ok i (claim_inode sb inum) (bset_mach (acq (L_inode i) (acq L_icache m)) s) l a Ea).
    run (nested_put m s (<[i:=claim_inode sb inum a]> l) i Hq). by rewrite (list_alter_insert _ _ _ _ Ea).
  - run (nested_put m s l i Hq). rewrite IH by lia. by replace (Datatypes.S i) with (NINODE - n)%nat by lia.
Qed.

(** The cache: every slot unlocked, at most one slot per inode. *)
Record icache_inv l : Prop := {
  ic_len : length l = NINODE;
  ic_slot i a : l !! i = Some a → i_slep a = sleep0 ∧ length (di_iblock (i_di a)) = NIBLOCK ∧
    0 ≤ i_refc a < 2 ^ 32;
  ic_key i j a b : l !! i = Some a → l !! j = Some b → is_Some (i_sb a) →
    i_sb a = i_sb b → i_inum a = i_inum b → i = j;
}.

(** The outcome of [iget]: an inode that is cached gains a reference; otherwise
    one that is allocated on disk is loaded into the first slot nobody refers to,
    and [NULL] is returned for one that is not. *)
Definition iget_result (inum : Z) s l : option (option (nat * list inode)) :=
  match List.find (hit_at inum l) (seq 0 NINODE) with
  | Some i => Some (Some (i, alter inc_ref i l))
  | None =>
    if negb (map_bit (bio_disk s) (sb_imap sb) inum) then Some None else
    match List.find (free_at l) (seq 0 NINODE) with
    | None => None
    | Some i => Some (Some (i, alter (λ a, set_di (λ _, disk_inode sb (bio_disk s) inum)
                                             (claim_inode sb inum a)) i l))
    end
  end.

Lemma iget_spec inum s l : icache_inv l → 0 ≤ inum < ninodes sb →
  inum < (sb_inodes sb - sb_imap sb) * BIT_CNT_PER_BLOCK → imap_free s → itable_free s →
  match iget_result inum s l with
  | Some (Some (i, l')) => ∃ s', iget sb inum (s, l) = Ok (Some i) (s', l') ∧ io_step keep s s'
  | Some None => ∃ s', iget sb inum (s, l) = Ok None (s', l) ∧ io_step keep s s'
  | None => ∃ x, iget sb inum (s, l) = Panic "iget: icache exhausted" x
  end.
Proof.
  intros IC Hi Hi2 Hm Ht. pose proof Hm as (Hok & _ & _). pose proof (ok_quiet s Hok) as Hq.
  pose proof (ic_len _ IC) as Hl. unfold iget, iget_result.
  erewrite bind_ok; [|apply onmach_ok, spin_get_free; auto with mach]. cbn beta.
  pose proof (iget_hit_spec inum NINODE (bmach s) s l Hq Hl ltac:(lia)) as Eh.
  rewrite Nat.sub_diag in Eh.
  destruct (List.find (hit_at inum l) (seq 0 NINODE)) as [i|].
  { run Eh. eexists. split; [done|]. by apply mach_step; [|apply touch_frame]. }
  run Eh. run (outer_put (bmach s) s l Hq). set (s1 := bset_mach (touch (bmach s)) s).
  assert (St1 : io_step keep s s1) by (by apply mach_step; [|apply touch_frame]).
  destruct (iexist_spec s1 l inum) as (s2 & E2 & St2); [lia|by eapply area_free_step|]. run E2.
  assert (map_bit (bio_disk s1) (sb_imap sb) inum = map_bit (bio_disk s) (sb_imap sb) inum) as ->.
  { unfold map_bit. rewrite (st_disk _ _ _ St1); [done|]. destruct (wf_ranges sb WF) as (_ & _ & ?).
    pose proof WF as [_ ? ? ? ? _].
    pose proof (map_blk_bound (sb_imap sb) inum (sb_inodes sb - sb_imap sb) ltac:(lia)). unfold blk. lia. }
  pose proof (io_step_trans _ _ _ _ _ St1 St2) as St12.
  destruct (map_bit (bio_disk s) (sb_imap sb) inum); cbn [negb]; [|by exists s2].
  assert (Hq2 : quiet (bmach s2)) by (apply ok_quiet, St2).
  erewrite bind_ok; [|apply onmach_ok, spin_get_free; auto with mach]. cbn beta.
  pose proof (iget_claim_spec inum NINODE (bmach s2) s2 l Hq2 Hl ltac:(lia)) as Ec.
  rewrite Nat.sub_diag in Ec.
  destruct (List.find (free_at l) (seq 0 NINODE)) as [i|] eqn:Ef; run Ec.
  2: { run (outer_put (bmach s2) s2 l Hq2). by eexists. }
  apply find_some in Ef as [_ Ef]. unfold free_at in Ef. destruct (l !! i) as [a|] eqn:Ea; [|done].
  rewrite !(list_alter_insert _ _ _ _ Ea).
  run (outer_put (bmach s2) s2 (<[i:=claim_inode sb inum a]> l) Hq2).
  set (s3 := bset_mach (touch (bmach s2)) s2).
  assert (St3 : io_step keep s2 s3) by (by apply mach_step; [apply St2|apply touch_frame]).
  pose proof (io_step_trans _ _ _ _ _ St12 St3) as St13. pose proof (lookup_lt_Some _ _ _ Ea) as Hlt.
  destruct (iread_spec s3 (<[i:=claim_inode sb inum a]> l) i (claim_inode sb inum a)) as (s4 & E4 & St4).
  { split; [by apply list_lookup_insert_eq|]. split; [|done]. cbn. by destruct (ic_slot _ IC i a Ea). }
  { done. }
  { by eapply area_free_step. }
  run E4. rewrite list_insert_insert_eq. exists s4. split.
  - unfold ret. do 3 f_equal. cbn. unfold set_di, disk_inode. cbn. f_equal.
    rewrite (st_disk _ _ _ St13); [done|]. destruct (blockno_bound sb inum WF Hi) as [_ ?].
    destruct (wf_ranges sb WF) as (_ & _ & ?). pose proof WF as [_ ? ? ? ? _]. unfold blk. lia.
  - by eapply io_step_ext, io_step_trans, St4; [|exact St13].
Qed.

(** *** [ialloc] *)

Lemma read_nth_imap_eq i : 0 ≤ i < sb_inodes sb - sb_imap sb →
  read_nth_imap (IO:=IO) sb i = bread ROOTDEV (sb_imap sb + i).
Proof.
  intros Hi. pose proof WF as [Hd ? ? ? ? _]. destruct (wf_ranges sb WF) as (_ & _ & ?).
  unfold read_nth_imap. rewrite !u32_id, Hd by lia.
  destruct (Z.leb_spec (sb_inodes sb - sb_imap sb) i); [lia|]. f_equal. lia.
Qed.
Lemma ialloc_loop_eq n i s : ialloc_loop sb n i s =
  map_alloc (read_nth_imap sb) "ialloc: dinode exhausted"
    (λ i j k, u32 (i * BIT_CNT_PER_BLOCK + Z.of_nat j * 8 + Z.of_nat k)) n i s.
Proof.
  revert i s. induction n as [|n IH]; intros i s; [done|]. cbn [ialloc_loop map_alloc].
  unfold bind. destruct (read_nth_imap sb i s) as [b s1|?|?|?|?]; cbn; try done.
  case_match; [destruct (brelse b s1); cbn; auto|]. case_match; [done|apply IH].
Qed.
(** [ialloc] sets the first clear bit [g] of the map, and returns the number that
    counts the sections by eight instead of by sixty-four. *)
Definition ialloc_ret (g : Z) : Z := g / 8192 * 8192 + (g mod 8192) / 64 * 8 + g mod 64.
Lemma ialloc_spec s : imap_free s → let ninum := (sb_inodes sb - sb_imap sb) * 8192 in
  ninum < 2 ^ 31 →
  (∃ g s', ialloc sb s = Ok (ialloc_ret g) s' ∧ 0 ≤ g < ninum ∧
     map_bit (bio_disk s) (sb_imap sb) g = false ∧
     (∀ g', 0 ≤ g' < g → map_bit (bio_disk s) (sb_imap sb) g' = true) ∧
     io_step (map_set (sb_imap sb) g) s s') ∨
  (∃ s', ialloc sb s = Panic "ialloc: dinode exhausted" s' ∧
     (∀ g, 0 ≤ g < ninum → map_bit (bio_disk s) (sb_imap sb) g = true) ∧ io_step keep s s').
Proof.
  intros Ha ninum Hn. pose proof WF as [? ? ? ? ? _]. destruct (wf_ranges sb WF) as (_ & _ & ?).
  unfold ialloc. rewrite i32_id by lia. rewrite ialloc_loop_eq.
  destruct (map_alloc_spec (read_nth_imap sb) "ialloc: dinode exhausted"
    (λ i j k, u32 (i * BIT_CNT_PER_BLOCK + Z.of_nat j * 8 + Z.of_nat k))
    (sb_imap sb) (sb_inodes sb - sb_imap sb) (Z.to_nat (sb_inodes sb - sb_imap sb)) 0 s)
    as [(q & j & k & s' & E & Hq & Hj & Hk & Hr)|(s' & E & Hr)].
  - intros i Hi. by apply read_nth_imap_eq.
  - lia.
  - lia.
  - replace (sb_imap sb + (sb_inodes sb - sb_imap sb)) with (sb_inodes sb) by lia. done.
  - done.
  - lia.
  - lia.
  - left. exists (q * 8192 + Z.of_nat (64 * j + k)), s'. rewrite E, bits_per_block.
    unfold ialloc_ret.
    assert ((q * 8192 + Z.of_nat (64 * j + k)) / 8192 = q) as -> by (symmetry; apply Z.div_unique with (Z.of_nat (64 * j + k)); lia).
    assert ((q * 8192 + Z.of_nat (64 * j + k)) mod 8192 = Z.of_nat (64 * j + k)) as -> by (symmetry; apply Z.mod_unique with q; lia).
    assert ((q * 8192 + Z.of_nat (64 * j + k)) mod 64 = Z.of_nat k) as -> by (symmetry; apply Z.mod_unique with (q * 128 + Z.of_nat j); lia).
    assert (Z.of_nat (64 * j + k) / 64 = Z.of_nat j) as -> by (symmetry; apply Z.div_unique with (Z.of_nat k); lia).
    rewrite u32_id by lia. split; [done|]. split; [lia|done].
  - right. by exists s'.
Qed.

(** *** Freeing the blocks of a file *)

(** A block is cleared and its bit of the map too. *)
Definition block_gone (e : Z) : Z → list Z → list Z :=
  comp (map_clear (sb_bmap sb) (e - sb_blocks sb)) (wr e zero_block).
Fixpoint gone_all (bs : list Z) : Z → list Z → list Z :=
  match bs with [] => keep | e :: bs => comp (gone_all bs) (block_gone e) end.
Definition data_blk (e : Z) : Prop := sb_blocks sb ≤ e < sb_blocks sb + nblocks sb.
(** A data block that is in use and not held. *)
Definition freeable s (e : Z) : Prop :=
  data_blk e ∧ not_held s e ∧ used sb (bio_disk s) e = true.
(** No map block is held and [k] buffers are left. *)
Definition bmap_free (k : nat) s : Prop := area_free (sb_bmap sb) (sb_blocks sb) s ∧ room k s.

Lemma gone_all_app xs ys k d : gone_all (xs ++ ys) k d = gone_all ys k (gone_all xs k d).
Proof. revert d. induction xs as [|e xs IH]; intros d; [done|]. cbn. unfold comp. by rewrite IH. Qed.
Lemma data_blk_range e : data_blk e → 0 < e ∧ blk e ∧ sb_blocks sb ≤ e ∧
  sb_bmap sb ≤ map_blk (sb_bmap sb) (e - sb_blocks sb) < sb_blocks sb.
Proof.
  intros He. destruct (wf_ranges sb WF) as (? & ? & ?). pose proof WF as [_ ? ? ? ? _].
  unfold data_blk in He. pose proof (map_blk_bound (sb_bmap sb) (e - sb_blocks sb) (sb_blocks sb - sb_bmap sb)
    ltac:(unfold nblocks in *; lia)). unfold blk. lia.
Qed.
(** The two kinds of blocks a release touches. *)
Lemma gone_data e k d : data_blk e → sb_blocks sb ≤ k →
  block_gone e k d = if decide (k = e) then zero_block else d.
Proof.
  intros He Hk. destruct (data_blk_range e He) as (_ & _ & _ & ?). unfold block_gone, comp, map_clear, wr.
  by rewrite (decide_False (P:=k = _)) by lia.
Qed.
Lemma gone_map e k d : data_blk e → k < sb_blocks sb →
  block_gone e k d = map_clear (sb_bmap sb) (e - sb_blocks sb) k d.
Proof.
  intros He Hk. destruct (data_blk_range e He) as (_ & _ & ? & _). unfold block_gone, comp, wr.
  by rewrite (decide_False (P:=k = e)) by lia.
Qed.
Lemma gone_used disk e e' : data_blk e → data_blk e' → (∀ k, blk k → is_block (disk k)) →
  used sb (λ k, block_gone e k (disk k)) e' = if decide (e' = e) then false else used sb disk e'.
Proof.
  intros He He' Hd. destruct (data_blk_range e He) as (H1 & H2 & H3 & H4).
  destruct (data_blk_range e' He') as (_ & _ & _ & H4'). destruct (wf_ranges sb WF) as (_ & _ & ?).
  pose proof WF as [_ ? ? ? ? _].
  transitivity (map_bit (λ k, map_clear (sb_bmap sb) (e - sb_blocks sb) k (disk k)) (sb_bmap sb) (e' - sb_blocks sb)).
  - unfold used, map_bit. by rewrite gone_map by (done || lia).
  - rewrite map_clear_bit by (apply Hd; unfold blk; lia). unfold used. repeat case_decide; try done; lia.
Qed.

Lemma used_ext disk disk' e : data_blk e → (∀ k, blk k → disk k = disk' k) → used sb disk e = used sb disk' e.
Proof.
  intros He Hk. destruct (data_blk_range e He) as (_ & _ & _ & ?). destruct (wf_ranges sb WF) as (_ & _ & ?).
  pose proof WF as [_ ? ? ? ? _]. unfold used, map_bit. by rewrite Hk by (unfold blk; lia).
Qed.
Lemma freeable_gone s s' e e' : bio_ok s → io_step (block_gone e) s s' → data_blk e → e' ≠ e →
  freeable s e' → freeable s' e'.
Proof.
  intros Hok St He Hne (H1 & H2 & H3). split; [done|]. split; [by eapply io_step_not_held|].
  rewrite (used_ext _ (λ k, block_gone e k (bio_disk s k)) e' H1 (st_disk _ _ _ St)).
  rewrite gone_used; [by rewrite decide_False|done|done|]. intros k Hk. by apply bio_disk_block.
Qed.
Lemma freeable_keep s s' e : io_step keep s s' → freeable s e → freeable s' e.
Proof.
  intros St (H1 & H2 & H3). split; [done|]. split; [by eapply io_step_not_held|].
  rewrite <- H3. apply used_ext; [done|apply St].
Qed.

Lemma bmap_free_step f k s s' : io_step f s s' → bmap_free k s → bmap_free k s'.
Proof. intros St [H1 H2]. split; [by eapply area_free_step|by eapply io_step_room]. Qed.

(** The end of both loops: clear the held block, release it and free it. *)
Lemma clear_block s s1 b e d f : owns b e d f s s1 → bmap_free 1 s → data_blk e → f e (bio_disk s e) = d →
  used sb (λ k, f k (bio_disk s k)) e = true →
  ∃ s2 s3 s4, bzero b s1 = Ok tt s2 ∧ brelse b s2 = Ok tt s3 ∧ bfree sb e s3 = Ok tt s4 ∧
    io_step (comp (block_gone e) f) s s4.
Proof.
  intros O [Hb Hr] He Hd Hu. destruct (owns_bzero _ _ _ _ _ _ O) as (s2 & E2 & O2).
  destruct (owns_brelse _ _ _ _ _ _ O2) as (s3 & E3 & St3 & _).
  { unfold comp, wr. by rewrite decide_True. }
  pose proof (bfree_run sb WF s3 (e - sb_blocks sb)) as Hf.
  replace (sb_blocks sb + (e - sb_blocks sb)) with e in Hf by lia.
  assert (map_bit (bio_disk s3) (sb_bmap sb) (e - sb_blocks sb) = true) as Eb.
  { rewrite <- Hu. destruct (data_blk_range e He) as (? & ? & ? & ?). destruct (wf_ranges sb WF) as (_ & _ & ?).
    pose proof WF as [_ ? ? ? ? _]. unfold used, map_bit. rewrite (st_disk _ _ _ St3) by (unfold blk; lia).
    unfold comp, wr. by rewrite decide_False by lia. }
  rewrite Eb in Hf. destruct Hf as (s4 & E4 & St4).
  { by eapply area_free_step. }
  { unfold data_blk in He. lia. }
  exists s2, s3, s4. split; [done|]. split; [done|]. split; [done|].
  by eapply io_step_ext, io_step_trans, St4; [|exact St3].
Qed.

(** The blocks an index block lists, up to its first zero entry. *)
Fixpoint idx_entries (d : list Z) (n j : nat) : list Z :=
  match n with
  | O => []
  | Datatypes.S n => if get_at 4 (4 * j) d =? 0 then [] else get_at 4 (4 * j) d :: idx_entries d n (Datatypes.S j)
  end.

Lemma itrunc_idx_spec b e d n j s : bio_held s b = Some (e, d) → bmap_free 1 s →
  NoDup (idx_entries d n j) → Forall (freeable s) (idx_entries d n j) →
  ∃ s', itrunc_idx sb b n j s = Ok tt s' ∧ io_step (gone_all (idx_entries d n j)) s s'.
Proof.
  revert j s. induction n as [|n IH]; intros j s Hh Hb Hnd Hfr; cbn [itrunc_idx idx_entries] in *.
  { exists s. split; [done|]. apply io_step_refl, Hb. }
  pose proof Hb as [(Hok & _ & Hbm) Hr]. destruct (bio_held_data s b e d Hok Hh) as (Hbd & _).
  go. rewrite Hbd. destruct (get_at 4 (4 * j) d =? 0) eqn:E0.
  { exists s. split; [done|]. by apply io_step_refl. }
  remember (get_at 4 (4 * j) d) as x eqn:Ex. apply NoDup_cons in Hnd as [Hx Hnd].
  apply Forall_cons in Hfr as [Hfx Hfr]. pose proof Hfx as (Hdx & Hnx & Hux).
  destruct (data_blk_range x Hdx) as (P1 & P2 & P3 & P4). pose proof WF as [Hdev _ _ _ _ _]. rewrite Hdev.
  destruct (io_bread_owns s x) as (bb & s1 & E1 & O1); [done|done|lia|done|done|]. run E1.
  destruct (clear_block s s1 bb x _ keep O1 Hb Hdx eq_refl Hux) as (s2 & s3 & s4 & E2 & E3 & E4 & St).
  run E2. run E3. go.
  assert (St3 : bio_held s3 b = Some (e, d) ∧ bio_ok s3).
  { destruct (owns_bzero _ _ _ _ _ _ O1) as (s2' & E2' & O2). rewrite E2 in E2'. injection E2' as <-.
    destruct (owns_brelse _ _ _ _ _ _ O2) as (s3' & E3' & St3 & _).
    { unfold comp, wr. by rewrite decide_True. }
    rewrite E3 in E3'. injection E3' as <-. by rewrite (st_held _ _ _ St3); split; [|apply St3]. }
  destruct St3 as [Hh3 Hok3]. destruct (bio_held_data s3 b e d Hok3 Hh3) as (Hbd3 & _).
  rewrite Hbd3, <- Ex. run E4.
  destruct (IH (Datatypes.S j) s4) as (s5 & E5 & St5).
  - by rewrite (st_held _ _ _ St).
  - by eapply bmap_free_step.
  - done.
  - rewrite Forall_forall in Hfr |- *. intros y Hy.
    apply (freeable_gone s s4 x y Hok St Hdx); [by intros ->|by apply Hfr].
  - exists s5. split; [done|]. by eapply io_step_ext, io_step_trans, St5; [|exact St].
Qed.

(** The blocks of a file in the order [itrunc] frees them, from [iblock[j]] with
    [n] entries left. *)
Fixpoint file_blocks (disk : Z → list Z) (ib : list Z) (n j : nat) : list Z :=
  match n with
  | O => []
  | Datatypes.S n =>
    match ib !! j with
    | Some e => if e =? 0 then [] else
        (if (NDIRECT <=? j)%nat then idx_entries (disk e) IDX_CNT 0 else []) ++ e :: file_blocks disk ib n (Datatypes.S j)
    | None => []
    end
  end.
(** From entry [i] on, behind the first zero entry of the index there are only zeros. *)
Definition zeros_tail (i : nat) (ib : list Z) : Prop := ∀ j k, (i ≤ j)%nat → (j ≤ k)%nat →
  ib !! j = Some 0 → (k < length ib)%nat → ib !! k = Some 0.

Lemma gone_all_data bs k d : Forall data_blk bs → sb_blocks sb ≤ k →
  gone_all bs k d = if decide (k ∈ bs) then zero_block else d.
Proof.
  revert d. induction bs as [|e bs IH]; intros d Hb Hk; [by rewrite decide_False by set_solver|].
  apply Forall_cons in Hb as [He Hb]. cbn. unfold comp. rewrite gone_data, IH by done.
  destruct (decide (k ∈ bs)); [by rewrite decide_True by set_solver|].
  case_decide; [by rewrite decide_True by set_solver|by rewrite decide_False by set_solver].
Qed.
Lemma gone_all_block bs k d : is_block d → Forall data_blk bs → is_block (gone_all bs k d).
Proof.
  revert d. induction bs as [|e bs IH]; intros d Hd Hb; [done|]. apply Forall_cons in Hb as [He Hb].
  cbn. unfold comp. apply IH; [|done]. unfold block_gone, comp, wr, map_clear.
  destruct (map_idx_section (e - sb_blocks sb)) as (G1 & _).
  repeat case_decide; auto using zero_block_ok, section_clear_block.
Qed.
(** After the release exactly the listed blocks are unused. *)
Lemma gone_all_used disk bs e : Forall data_blk bs → data_blk e → (∀ k, blk k → is_block (disk k)) →
  used sb (λ k, gone_all bs k (disk k)) e = if decide (e ∈ bs) then false else used sb disk e.
Proof.
  revert disk. induction bs as [|x bs IH]; intros disk Hb He Hd; [by rewrite decide_False by set_solver|].
  apply Forall_cons in Hb as [Hx Hb]. cbn. unfold comp.
  rewrite (IH (λ k, block_gone x k (disk k))).
  - rewrite gone_used by done. destruct (decide (e ∈ bs)); [by rewrite decide_True by set_solver|].
    case_decide; [by rewrite decide_True by set_solver|by rewrite decide_False by set_solver].
  - done.
  - done.
  - intros k Hk. apply (gone_all_block [x]); auto.
Qed.
Lemma freeable_gone_all s s' bs e : bio_ok s → io_step (gone_all bs) s s' → Forall data_blk bs → e ∉ bs →
  freeable s e → freeable s' e.
Proof.
  intros Hok St Hb Hne (H1 & H2 & H3). split; [done|]. split; [by eapply io_step_not_held|].
  rewrite (used_ext _ (λ k, gone_all bs k (bio_disk s k)) e H1 (st_disk _ _ _ St)).
  rewrite gone_all_used; [by rewrite decide_False|done|done|]. intros k Hk. by apply bio_disk_block.
Qed.
Lemma file_blocks_ext disk disk' ib n j :
  (∀ e, e ∈ file_blocks disk ib n j → disk' e = disk e) → file_blocks disk' ib n j = file_blocks disk ib n j.
Proof.
  revert j. induction n as [|n IH]; intros j H; [done|]. cbn [file_blocks] in *.
  destruct (ib !! j) as [e|]; [|done]. destruct (e =? 0); [done|].
  rewrite IH, (H e); [done| |].
  - apply elem_of_app. right. by left.
  - intros x Hx. apply H, elem_of_app. right. by right.
Qed.

(** One step of [itrunc]: the block [e] with the blocks [xs] it lists. *)
Lemma itrunc_block s e (indirect : bool) : let xs := if indirect then idx_entries (bio_disk s e) IDX_CNT 0 else [] in
  bmap_free 2 s → NoDup (xs ++ [e]) → Forall (freeable s) (xs ++ [e]) →
  ∃ b s1 s2 s3 s4 s5, bread ROOTDEV e s = Ok b s1 ∧
    when indirect (itrunc_idx sb b IDX_CNT 0) s1 = Ok tt s2 ∧
    bzero b s2 = Ok tt s3 ∧ brelse b s3 = Ok tt s4 ∧ bfree sb e s4 = Ok tt s5 ∧
    io_step (gone_all (xs ++ [e])) s s5.
Proof.
  intros xs [Ha Hr] Hnd Hfr. pose proof Ha as (Hok & Hr1 & Hm).
  apply Forall_app in Hfr as [Hfx Hfe]. apply Forall_singleton in Hfe as (Hde & Hne & Hue).
  apply NoDup_app in Hnd as (Hnx & Hdisj & _).
  assert (He : e ∉ xs) by (intros He; by apply (Hdisj e He), list_elem_of_singleton).
  destruct (data_blk_range e Hde) as (P1 & P2 & P3 & P4).
  destruct (io_bread_owns s e) as (b & s1 & E1 & O1); [done|done|lia|done|done|].
  assert (Hb1 : bmap_free 1 s1).
  { pose proof (owns_room _ _ _ _ _ _ _ O1 Hr) as Hr'. split; [|done]. split; [apply O1|]. split; [done|].
    intros n Hn. eapply owns_not_held; [exact O1|lia|by apply Hm]. }
  assert (Hdx : Forall data_blk xs) by (eapply Forall_impl; [exact Hfx|]; by intros ? (? & _)).
  assert (Hfx1 : Forall (freeable s1) xs).
  { rewrite Forall_forall in Hfx |- *. intros y Hy. destruct (Hfx y Hy) as (Y1 & Y2 & Y3).
    split; [done|]. split; [eapply owns_not_held; [exact O1|by intros ->|done]|].
    rewrite <- Y3. apply used_ext; [done|]. apply O1. }
  assert (∃ s2, when indirect (itrunc_idx sb b IDX_CNT 0) s1 = Ok tt s2 ∧ io_step (gone_all xs) s1 s2)
    as (s2 & E2 & St2).
  { unfold xs in *. destruct indirect; cbn [when].
    - eapply itrunc_idx_spec; [by eapply owns_held|done..].
    - exists s1. split; [done|]. apply io_step_refl, O1. }
  pose proof (owns_step _ _ _ _ _ _ _ _ O1 St2) as O2.
  destruct (clear_block s s2 b e _ _ O2) as (s3 & s4 & s5 & E3 & E4 & E5 & St5).
  - split; [done|]. unfold room in *. lia.
  - done.
  - unfold comp, keep. rewrite gone_all_data by done. by rewrite decide_False.
  - unfold comp, keep. rewrite gone_all_used; [by rewrite decide_False|done|done|].
    intros k Hk. by apply bio_disk_block.
  - exists b, s1, s2, s3, s4, s5. split_and!; [done..|]. eapply io_step_ext, St5.
    intros k Hk. unfold comp, keep. by rewrite gone_all_app.
Qed.

Definition cut_iblock (j n : nat) (a : inode) : inode :=
  set_di (λ di, set_iblock (take j (di_iblock di) ++ replicate n 0) di) a.

Lemma file_blocks_cons disk ib n j e : ib !! j = Some e → e ≠ 0 →
  file_blocks disk ib (Datatypes.S n) j =
  ((if (NDIRECT <=? j)%nat then idx_entries (disk e) IDX_CNT 0 else []) ++ [e]) ++
  file_blocks disk ib n (Datatypes.S j).
Proof. intros E H0. cbn [file_blocks]. rewrite E, (proj2 (Z.eqb_neq _ _) H0), <- app_assoc. done. Qed.

Lemma zeros_tail_id ib j n : zeros_tail j ib → (j + n = length ib)%nat → ib !! j = Some 0 →
  take j ib ++ replicate n 0 = ib.
Proof.
  intros Hz Hl E. apply list_eq. intros k. destruct (decide (k < j)%nat).
  - by rewrite lookup_app_l, lookup_take_lt by (rewrite ?length_take; lia).
  - rewrite lookup_app_r by (rewrite length_take; lia). rewrite length_take, Nat.min_l by lia.
    destruct (decide (k < j + n)%nat).
    + rewrite lookup_replicate_2 by lia. symmetry. apply (Hz j k); [done|lia|done|lia].
    + rewrite lookup_ge_None_2 by (rewrite length_replicate; lia). symmetry. apply lookup_ge_None_2. lia.
Qed.
Lemma take_S_insert (ib : list Z) j e : ib !! j = Some e → take (Datatypes.S j) (<[j := 0]> ib) = take j ib ++ [0].
Proof.
  intros E. pose proof (lookup_lt_Some _ _ _ E). rewrite (take_S_r _ _ 0).
  - by rewrite take_insert_ge by lia.
  - by apply list_lookup_insert_eq.
Qed.
Lemma file_blocks_insert disk ib n j k : (j < k)%nat →
  file_blocks disk (<[j := 0]> ib) n k = file_blocks disk ib n k.
Proof.
  revert k. induction n as [|n IH]; intros k Hk; [done|]. cbn [file_blocks].
  rewrite list_lookup_insert_ne by lia. destruct (ib !! k) as [e|]; [|done]. destruct (e =? 0); [done|].
  by rewrite IH by lia.
Qed.

Lemma itrunc_loop_spec i n j s l a : slot_of l i a →
  let ib := di_iblock (i_di a) in
  (j + n = length ib)%nat → zeros_tail j ib → bmap_free 2 s →
  NoDup (file_blocks (bio_disk s) ib n j) → Forall (freeable s) (file_blocks (bio_disk s) ib n j) →
  ∃ s', itrunc_loop i sb n j (s, l) = Ok tt (s', <[i := cut_iblock j n a]> l) ∧
    io_step (gone_all (file_blocks (bio_disk s) ib n j)) s s'.
Proof.
  revert j s l a. induction n as [|n IH]; intros j s l a (Ei & Es & Esb) ib Hl Hz Hb Hnd Hfr.
  { exists s. split; [|apply io_step_refl, Hb]. cbn. rewrite list_insert_id; [done|].
    rewrite Ei. f_equal. unfold cut_iblock, set_di. cbn. fold ib.
    rewrite take_ge, app_nil_r by lia. unfold ib. by destruct a as [? []]. }
  destruct (lookup_lt_is_Some_2 ib j) as [e Ee]; [lia|]. cbn [itrunc_loop]. run (iblock_at_ok i j s l a e Ei Ee).
  destruct (Z.eqb_spec e 0) as [->|He].
  { exists s. cbn [file_blocks]. rewrite Ee. split; [|apply io_step_refl, Hb]. cbn.
    rewrite list_insert_id; [done|]. rewrite Ei. f_equal.
    change (cut_iblock j (Datatypes.S n) a) with (set_di (set_iblock (take j ib ++ replicate (Datatypes.S n) 0)) a).
    rewrite zeros_tail_id by done. unfold ib. by destruct a as [? []]. }
  rewrite (file_blocks_cons _ _ _ _ _ Ee He) in *. set (xs := _ ++ [e]) in *.
  apply NoDup_app in Hnd as (Hnx & Hdisj & Hnr). apply Forall_app in Hfr as [Hfx Hfr].
  destruct (itrunc_block s e (NDIRECT <=? j)%nat Hb Hnx Hfx)
    as (b & s1 & s2 & s3 & s4 & s5 & E1 & E2 & E3 & E4 & E5 & St). fold xs in St.
  pose proof WF as [Hdev _ _ _ _ _]. rewrite Hdev. runl E1. runl E2. runl E3. runl E4. runl E5.
  run (set_iblock_at_ok i j 0 s5 l a e Ei Ee). set (a1 := set_di _ a).
  pose proof (lookup_lt_Some _ _ _ Ei) as Hlt.
  assert (Hdx : Forall data_blk xs) by (eapply Forall_impl; [exact Hfx|]; by intros ? (? & _)).
  assert (Hfb : file_blocks (bio_disk s5) (<[j:=0]> ib) n (Datatypes.S j) = file_blocks (bio_disk s) ib n (Datatypes.S j)).
  { rewrite file_blocks_insert by lia. apply file_blocks_ext. intros y Hy.
    rewrite Forall_forall in Hfr. destruct (Hfr y Hy) as (Hy1 & _).
    destruct (data_blk_range y Hy1) as (_ & ? & ? & _). rewrite (st_disk _ _ _ St), gone_all_data by done.
    rewrite decide_False; [done|]. intros Hyx. by apply (Hdisj y Hyx). }
  destruct (IH (Datatypes.S j) s5 (<[i:=a1]> l) a1) as (s6 & E6 & St6).
  - by split; [apply list_lookup_insert_eq|].
  - cbn. rewrite length_insert. fold ib. lia.
  - cbn. fold ib. intros j' k Hj' Hk. rewrite length_insert, !list_lookup_insert_ne by lia. apply Hz; lia.
  - by eapply bmap_free_step.
  - cbn. fold ib. by rewrite Hfb.
  - cbn. fold ib. rewrite Hfb. rewrite Forall_forall in Hfr |- *. intros y Hy.
    eapply freeable_gone_all; [apply Hb|exact St|done| |by apply Hfr]. intros Hyx. by apply (Hdisj y Hyx).
  - exists s6. cbn in E6, St6. fold ib in St6. rewrite Hfb in St6. split.
    + rewrite E6, list_insert_insert_eq. do 3 f_equal. unfold cut_iblock, a1, set_di, set_iblock. cbn. fold ib.
      by rewrite (take_S_insert _ _ _ Ee), <- app_assoc.
    + eapply io_step_ext, io_step_trans, St6; [|exact St]. intros k Hk. unfold comp. by rewrite gone_all_app.
Qed.

(** Releasing a file: every block it owns is cleared and unused, every other
    block keeps its contents and its state. *)
Lemma itrunc_spec i s l a : slot_of l i a → let ib := di_iblock (i_di a) in
  length ib = NIBLOCK → zeros_tail 0 ib → bmap_free 2 s →
  let bs := file_blocks (bio_disk s) ib NIBLOCK 0 in
  NoDup bs → Forall (freeable s) bs →
  ∃ s', itrunc i (s, l) =
      Ok tt (s', <[i := set_di (λ di, set_iblock (replicate NIBLOCK 0) (set_fsize 0 di)) a]> l) ∧
    io_step (gone_all bs) s s'.
Proof.
  intros (Ei & Es & Esb) ib Hl Hz Hb bs Hnd Hfr. unfold itrunc. pose proof (lookup_lt_Some _ _ _ Ei) as Hlt.
  run (mod_inode_ok i (set_di (set_fsize 0)) s l a Ei). set (a1 := set_di _ a).
  assert (E1 : <[i:=a1]> l !! i = Some a1) by (by apply list_lookup_insert_eq).
  run (sb_of_ok i s _ a1 sb E1 Esb).
  destruct (itrunc_loop_spec i NIBLOCK 0 s (<[i:=a1]> l) a1) as (s' & E & St); [done|done|done|done|done|done|].
  exists s'. rewrite E, list_insert_insert_eq. done.
Qed.

(** *** The index of a file *)

(** The block that holds data block [n] of a file: a direct entry, or entry
    [(n - 12) mod 256] of index block [(n - 12) / 256]. *)
Definition index_block (ib : list Z) (n : Z) : option Z :=
  ib !! (NDIRECT + Z.to_nat ((n - Z.of_nat NDIRECT) / Z.of_nat IDX_CNT))%nat.
Definition index_slot (n : Z) : nat := Z.to_nat ((n - Z.of_nat NDIRECT) mod Z.of_nat IDX_CNT).
Definition file_block (disk : Z → list Z) (ib : list Z) (n : Z) : option Z :=
  if n <? Z.of_nat NDIRECT then ib !! Z.to_nat n
  else (λ e, get_at 4 (4 * index_slot n) (disk e)) <$> index_block ib n.
(** A block number [bread] accepts now. *)
Definition readable s (e : Z) : Prop := blk e ∧ e ≠ 0 ∧ not_held s e.

Lemma data_block_get_spec i n s l a e : slot_of l i a → 0 ≤ n → bio_ok s → room 1 s →
  file_block (bio_disk s) (di_iblock (i_di a)) n = Some e → readable s e →
  (Z.of_nat NDIRECT ≤ n → ∀ x, index_block (di_iblock (i_di a)) n = Some x → readable s x) →
  ∃ b s', data_block_get i n (s, l) = Ok b (s', l) ∧ owns b e (bio_disk s e) keep s s'.
Proof.
  intros (Ei & Es & Esb) Hn Hok Hr Hf (R1 & R2 & R3) Hx. unfold data_block_get, file_block in *.
  pose proof WF as [Hdev _ _ _ _ _]. run (sb_of_ok i s l a sb Ei Esb). rewrite Hdev.
  destruct (Z.ltb_spec n (Z.of_nat NDIRECT)).
  - run (iblock_at_ok i (Z.to_nat n) s l a e Ei Hf).
    destruct (io_bread_owns s e Hok R1 R2 Hr R3) as (b & s1 & E & O).
    exists b, s1. split; [by apply lift_ok|done].
  - destruct (index_block _ n) as [x|] eqn:Ex; [|done]. apply (inj Some) in Hf.
    destruct (Hx ltac:(lia) x eq_refl) as (X1 & X2 & X3). unfold index_block in Ex.
    run (iblock_at_ok i _ s l a x Ei Ex).
    destruct (io_read_relse s x Hok X1 X2 Hr X3) as (b & s1 & s2 & E1 & O1 & Eb & E2 & St).
    runl E1. run (data_of_ok b s1 l _ Eb). runl E2. fold (index_slot n). rewrite Hf.
    destruct (io_bread_owns s2 e) as (b' & s3 & E3 & O3);
      [apply St|done|done|by eapply io_step_room|by eapply io_step_not_held|].
    exists b', s3. split; [by apply lift_ok|].
    destruct O3 as [Q1 Q2 Q3 Q4 Q5 Q6]. split.
    + done.
    + by rewrite <- (st_held _ _ _ St).
    + intros b''. rewrite Q3, (st_held _ _ _ St). by rewrite (st_disk _ _ _ St).
    + by rewrite Q4, (st_nheld _ _ _ St).
    + etransitivity; [apply (st_mach _ _ _ St)|done].
    + intros k Hk. rewrite Q6, (st_disk _ _ _ St) by done. done.
Qed.

Lemma iref_spec i s l a : bio_ok s → l !! i = Some a →
  ∃ s', iref i (s, l) = Ok tt (s', <[i := inc_ref a]> l) ∧ io_step keep s s'.
Proof. apply (critical_ok (L_inode i) i inc_ref). Qed.
Lemma iput_spec i s l a : bio_ok s → l !! i = Some a →
  ∃ s', iput i (s, l) = Ok tt (s', <[i := set_irefc (u32 (i_refc a - 1)) a]> l) ∧ io_step keep s s'.
Proof. apply (critical_ok (L_inode i) i (λ a, set_irefc (u32 (i_refc a - 1)) a)). Qed.

(** *** [ifree] *)

(** [*section &= ~(1UL << (k % 8))] on the byte [k / 8]. *)
Definition byte_clear (k : Z) (d : list Z) : list Z :=
  put_at 1 (Z.to_nat (k / 8)) (Z.land (get_at 1 (Z.to_nat (k / 8)) d) (u8 (Z.lnot (Z.shiftl 1 (k mod 8))))) d.
Lemma testbit_clear8 w k m : 0 ≤ k < 8 → 0 ≤ m < 8 →
  Z.testbit (Z.land w (u8 (Z.lnot (Z.shiftl 1 k)))) m = if decide (m = k) then false else Z.testbit w m.
Proof.
  intros Hk Hm. unfold u8. rewrite Z.land_spec, Z.mod_pow2_bits_low, Z.lnot_spec by lia.
  rewrite Z.shiftl_1_l, Z.pow2_bits_eqb by lia.
  case_decide; [subst; by rewrite Z.eqb_refl, andb_false_r|].
  destruct (Z.eqb_spec k m); [lia|]. by rewrite andb_true_r.
Qed.
Lemma byte_clear_block k d : is_block d → 0 ≤ k < 8192 → is_block (byte_clear k d).
Proof.
  intros [Hl Hd] Hk. pose proof (Z.div_mod k 8 ltac:(lia)). pose proof (Z.mod_pos_bound k 8 ltac:(lia)).
  unfold BSIZE in Hl. split; [unfold byte_clear; rewrite length_put_at by lia; unfold BSIZE; lia|by apply bytes_ok_put_at].
Qed.
(** Clearing the bit in its byte is clearing it in its section. *)
Lemma byte_clear_section g d : is_block d →
  byte_clear (imap_offset_of_inode g) d = section_clear (map_idx g / 64) (map_idx g mod 64) d.
Proof.
  intros Hd. pose proof (Z.mod_pos_bound g 8192 ltac:(lia)) as Hk. unfold imap_offset_of_inode.
  destruct (map_idx_section g) as (G1 & G2 & G3). unfold map_idx in *. rewrite bits_per_block in *.
  set (k := g mod 8192) in *. pose proof (Z.div_mod k 8 ltac:(lia)) as Hdm.
  pose proof (Z.mod_pos_bound k 8 ltac:(lia)) as Hm.
  apply block_bits_eq; [by apply byte_clear_block|by apply section_clear_block|]. intros x Hx.
  rewrite section_clear_bit, G3 by done. destruct Hd as [Hl Hb]. unfold byte_clear.
  assert (Ho : (Z.to_nat (k / 8) + 1 ≤ BSIZE)%nat) by (unfold BSIZE; lia).
  rewrite bit_at_put_at by lia. case_decide as Hin; [|by rewrite decide_False by lia].
  rewrite testbit_clear8 by lia. rewrite testbit_get_at by (done || lia).
  replace (8 * Z.to_nat (k / 8) + (x - 8 * Z.to_nat (k / 8)))%nat with x by lia.
  repeat case_decide; try done; lia.
Qed.

Definition freed (a : inode) : inode :=
  set_di (λ di, set_type UNUSE (set_iblock (replicate NIBLOCK 0) (set_fsize 0 di))) a.
Lemma freed_wf a : di_wf (i_di a) → di_wf (i_di (freed a)).
Proof.
  intros [Hw Hl]. split; [|done]. unfold dinode_words in *. cbn in *.
  repeat (apply Forall_cons in Hw as [? Hw]). repeat (constructor; [by unfold u32_ok|]). constructor.
Qed.

(** A freed inode: its blocks are released, it is recorded as unused on the disk
    and its bit of the inode map is clear. *)
Lemma ifree_spec i s l a : slot_of l i a → let ib := di_iblock (i_di a) in
  di_wf (i_di a) → zeros_tail 0 ib → 0 ≤ i_inum a < ninodes sb →
  i_inum a < (sb_inodes sb - sb_imap sb) * 8192 →
  bmap_free 2 s → itable_free s → imap_free s →
  let bs := file_blocks (bio_disk s) ib NIBLOCK 0 in
  NoDup bs → Forall (freeable s) bs →
  ∃ s', ifree i (s, l) = Ok tt (s', <[i := freed a]> l) ∧
    io_step (comp (map_clear (sb_imap sb) (i_inum a))
               (comp (wr_inode sb (i_inum a) (i_di (freed a))) (gone_all bs))) s s'.
Proof.
  intros Hs ib Hw Hz Hi Hi2 Hb Ht Hm bs Hnd Hfr. pose proof Hs as (Ei & Es & Esb). unfold ifree.
  pose proof (lookup_lt_Some _ _ _ Ei) as Hlt. pose proof WF as [Hdev ? ? ? ? _].
  destruct (wf_ranges sb WF) as (_ & _ & ?).
  destruct (itrunc_spec i s l a Hs (proj2 Hw) Hz Hb Hnd Hfr) as (s1 & E1 & St1). run E1.
  set (a1 := set_di _ a). run (mod_inode_ok i (set_di (set_type UNUSE)) s1 (<[i:=a1]> l) a1
    ltac:(by apply list_lookup_insert_eq)).
  rewrite list_insert_insert_eq. change (set_di (set_type UNUSE) a1) with (freed a).
  assert (Ef : <[i:=freed a]> l !! i = Some (freed a)) by (by apply list_lookup_insert_eq).
  destruct (iupdate_spec s1 (<[i:=freed a]> l) i (freed a)) as (s2 & E2 & St2);
    [done|done|by apply freed_wf|by eapply area_free_step|].
  run E2. run (inode_at_ok i s2 _ _ Ef). run (sb_of_ok i s2 _ _ sb Ef Esb).
  pose proof (map_blk_bound (sb_imap sb) (i_inum a) (sb_inodes sb - sb_imap sb) ltac:(rewrite bits_per_block; lia)) as Hk.
  cbn [freed set_di i_inum]. unfold imap_blockno_of_inode. fold (map_blk (sb_imap sb) (i_inum a)).
  rewrite (u32_id (map_blk _ _)) by lia. rewrite u32_id by lia. rewrite read_nth_imap_eq by lia.
  replace (sb_imap sb + (map_blk (sb_imap sb) (i_inum a) - sb_imap sb)) with (map_blk (sb_imap sb) (i_inum a)) by lia.
  pose proof (io_step_trans _ _ _ _ _ St1 St2) as St12.
  destruct (area_bread (sb_imap sb) (sb_inodes sb) (map_blk (sb_imap sb) (i_inum a)) s2) as (b & s3 & E3 & O & Hblk & Hbd);
    [by eapply area_free_step|lia..|].
  runl E3. run (data_of_ok b s3 (<[i:=freed a]> l) _ Hbd). fold (byte_clear (imap_offset_of_inode (i_inum a)) (bio_disk s2 (map_blk (sb_imap sb) (i_inum a)))).
  rewrite byte_clear_section by done. destruct (map_idx_section (i_inum a)) as (G1 & _).
  destruct (owns_rewrite _ _ _ _ _ _ _ O (section_clear_block _ (map_idx (i_inum a) mod 64) _ Hblk G1)) as (s4 & s5 & E4 & E5 & St5).
  rewrite ?bind_assoc. erewrite bind_ok; [|apply lift_ok; reflexivity]. cbn beta.
  runl E4. rewrite (lift_ok _ _ _ _ _ E5). exists s5. split; [done|].
  eapply io_step_ext, io_step_trans, St5; [|exact St12].
  intros k Hkb. unfold comp, wr, keep, map_clear. case_decide as Ek; [|done]. subst k.
  by rewrite (st_disk _ _ _ St12).
Qed.

(** *** [data_block_alloc] *)

Lemma iblock_cnt_full di q : 0 ≤ q < 2 ^ 21 → di_fsize di = 1024 * q → u32 (iblock_cnt di) = q.
Proof.
  intros Hq E. unfold iblock_cnt. rewrite E. change (Z.of_nat BSIZE) with 1024.
  rewrite Z.mul_comm, Z.mod_mul, Z.div_mul by lia. cbn [Z.eqb]. rewrite Z.sub_0_r, (u32_id q) by lia.
  rewrite i32_id by lia. by rewrite u32_id by lia.
Qed.
(** No buffer holds a block that is not in use. *)
Definition unused_free s : Prop := ∀ e, data_blk e → used sb (bio_disk s) e = false → not_held s e.

(** [data_block_alloc] on a file of [q < 12] full blocks records an unused data
    block as the next direct block, marks it used and returns it locked; when no block
    is unused the machine stops. *)
Theorem data_block_alloc_direct i q s l a : slot_of l i a → 0 ≤ q < Z.of_nat NDIRECT →
  di_fsize (i_di a) = 1024 * q → length (di_iblock (i_di a)) = NIBLOCK →
  bmap_free 1 s → unused_free s →
  (∃ e b s', data_block_alloc i (s, l) =
      Ok b (s', <[i := set_di (λ di, set_iblock (<[Z.to_nat q := e]> (di_iblock di)) di) a]> l) ∧
     data_blk e ∧ used sb (bio_disk s) e = false ∧
     owns b e (bio_disk s e) (map_set (sb_bmap sb) (e - sb_blocks sb)) s s') ∨
  (∃ x, data_block_alloc i (s, l) = Panic "balloc: space exhausted" x).
Proof.
  intros (Ei & Es & Esb) Hq Hfs Hl [Hb Hr] Hun. change (Z.of_nat NDIRECT) with 12 in Hq. unfold data_block_alloc.
  run (inode_at_ok i s l a Ei). run (sb_of_ok i s l a sb Ei Esb).
  rewrite (iblock_cnt_full _ q) by (lia || done). change FILE_MAX_DATA_BLOCKNUM with 24. change (Z.of_nat NDIRECT) with 12.
  destruct (Z.eqb_spec q 24); [lia|].
  destruct (balloc_spec sb WF s Hb) as [(g & s1 & E1 & Hg & Hbit & _ & St)|(s1 & E1 & _)].
  2: { right. eexists. apply bind_panicked, lift_panic, E1. }
  left. runl E1. destruct (Z.ltb_spec q 12); [|lia].
  destruct (lookup_lt_is_Some_2 (di_iblock (i_di a)) (Z.to_nat q)) as [x Ex]; [rewrite Hl; unfold NIBLOCK, NDIRECT; lia|].
  run (set_iblock_at_ok i (Z.to_nat q) (sb_blocks sb + g) s1 l a x Ei Ex).
  assert (He : data_blk (sb_blocks sb + g)) by (unfold data_blk; lia).
  destruct (data_blk_range _ He) as (P1 & P2 & P3 & P4). pose proof WF as [Hdev _ _ _ _ _]. rewrite Hdev.
  assert (Hu : used sb (bio_disk s) (sb_blocks sb + g) = false).
  { unfold used. by replace (sb_blocks sb + g - sb_blocks sb) with g by lia. }
  destruct (io_bread_owns s1 (sb_blocks sb + g)) as (b & s2 & E2 & O); [apply St|done|lia|by eapply io_step_room| |].
  { eapply io_step_not_held; [exact St|]. by apply Hun. }
  exists (sb_blocks sb + g), b, s2. split; [by apply lift_ok|]. split; [done|]. split; [done|].
  replace (sb_blocks sb + g - sb_blocks sb) with g in * by lia.
  destruct O as [Q1 Q2 Q3 Q4 Q5 Q6]. split.
  - done.
  - by rewrite <- (st_held _ _ _ St).
  - intros b'. rewrite Q3, (st_held _ _ _ St), (st_disk _ _ _ St) by done. unfold map_set.
    by rewrite (decide_False (P:=_ = map_blk _ _)) by lia.
  - by rewrite Q4, (st_nheld _ _ _ St).
  - etransitivity; [apply (st_mach _ _ _ St)|done].
  - intros k Hk. rewrite Q6, (st_disk _ _ _ St) by done. done.
Qed.
(** A file of 24 full blocks cannot grow: the limit [data_block_alloc] checks
    counts four blocks for each index block, where an index block has 256 entries. *)
Theorem data_block_alloc_big i s l a : slot_of l i a → di_fsize (i_di a) = 1024 * 24 →
  data_block_alloc i (s, l) = Panic "data_block_alloc: file too big" (s, l).
Proof.
  intros (Ei & Es & Esb) Hfs. unfold data_block_alloc.
  run (inode_at_ok i s l a Ei). run (sb_of_ok i s l a sb Ei Esb).
  by rewrite (iblock_cnt_full _ 24) by (lia || done).
Qed.
(** A file whose only block is partly filled: the block count is [-1], and the entry
    used for the new block is outside the index. *)
Lemma data_block_alloc_partial i s l a : slot_of l i a → 0 < di_fsize (i_di a) < 1024 →
  length (di_iblock (i_di a)) = NIBLOCK → bmap_free 1 s →
  (∃ x, data_block_alloc i (s, l) = Fault x) ∨ (∃ x, data_block_alloc i (s, l) = Panic "balloc: space exhausted" x).
Proof.
  intros (Ei & Es & Esb) Hfs Hl [Hb Hr]. unfold data_block_alloc.
  run (inode_at_ok i s l a Ei). run (sb_of_ok i s l a sb Ei Esb).
  assert (Ec : u32 (iblock_cnt (i_di a)) = 2 ^ 32 - 1).
  { unfold iblock_cnt. change (Z.of_nat BSIZE) with 1024. rewrite Z.div_small, Z.mod_small by lia.
    destruct (Z.eqb_spec (di_fsize (i_di a)) 0); [lia|]. done. }
  rewrite Ec. change (2 ^ 32 - 1 =? FILE_MAX_DATA_BLOCKNUM) with false. cbn iota.
  destruct (balloc_spec sb WF s Hb) as [(g & s1 & E1 & _)|(s1 & E1 & _)].
  2: { right. eexists. apply bind_panicked, lift_panic, E1. }
  left. runl E1. change (2 ^ 32 - 1 <? Z.of_nat NDIRECT) with false. cbn iota zeta.
  change (Nat.eqb (Z.to_nat ((2 ^ 32 - 1 - Z.of_nat NDIRECT) mod Z.of_nat IDX_CNT)) 0) with false. cbn iota.
  exists (s1, l). rewrite !bind_assoc. unfold iblock_at. rewrite !bind_assoc. run (inode_at_ok i s1 l a Ei).
  unfold bind at 1, deref at 1. rewrite lookup_ge_None_2; [done|]. rewrite Hl.
  change (Z.of_nat NDIRECT) with 12. change (Z.of_nat IDX_CNT) with 256. change NIBLOCK with 15%nat. change NDIRECT with 12%nat.
  apply Nat2Z.inj_le. rewrite Nat2Z.inj_add, Z2Nat.id by done. done.
Qed.
End inode_spec.
