(* ===== verification/Dir.v ===== *)
(** Directories and path resolution (kernel/fs/dir.h, kernel/fs/dir.c).

    A directory block holds a count of its entries in its first 8 bytes and, from
    byte 32 on, 31 entries of 32 bytes: the inode number and the name.  Paths and
    names are byte arrays; reading or writing outside one is [None]. *)
From S2P Require Import Prelude Bytes CString Machine BlockIO Fs Inode.

Definition SLASH : Z := 47.
Definition DOT : Z := 46.
Definition SZDENTRY : nat := 32.
Definition DENTRY_MAXCNT_PER_BLOCK : nat := BSIZE / SZDENTRY - 1.
#[global] Arguments SZDENTRY : simpl never.
#[global] Arguments DENTRY_MAXCNT_PER_BLOCK : simpl never.

(** [struct dentry] number [j] of a directory block: [dt->inum] and [dt->name]. *)
Definition dt_inum (j : nat) (d : list Z) : Z := get_at 4 (SZDENTRY * j) d.
Definition dt_name (j : nat) (d : list Z) : list Z := take DLENGTH (drop (SZDENTRY * j + 4) d).
(** The count at the start of the block. *)
Definition dt_cnt (d : list Z) : Z := get_at 8 0 d.

(** [while ( *p != '/' && *p != '\0') ++p;]: the distance [p] moves. *)
Fixpoint comp_end (path : list Z) : option nat :=
  match path with
  | [] => None
  | c :: path => if (c =? SLASH) || (c =? 0) then Some O else S <$> comp_end path
  end.
(** [parse_path]: [Some None] is a null result.  [dname] sits behind [path] in
    one memory, so that a store past its end leaves the memory. *)
Definition parse_path (path dname : list Z) : option (option (list Z * list Z)) :=
  c ← path !! 0%nat;
  if c =? 0 then Some None else
  p ← comp_end path;
  m ← memset (length path) 0 DLENGTH (path ++ dname);
  e ← path !! p;
  if e =? SLASH then
    m ← strncpy (length path) 0 p m;
    Some (Some (drop (length path) m, drop (p + 1) path))
  else
    m ← strncpy (length path) 0 (p + 1) m;
    Some (Some (drop (length path) m, drop p path)).

(** [dentry_name_set] on the name at offset [off] of a block, [n] bytes left. *)
Fixpoint name_set_loop (n i off : nat) (src d : list Z) : option (list Z) :=
  match n with
  | O => Some d
  | S n =>
    v ← ld i src;
    d ← st (off + i) v d;
    if v =? 0 then Some d else name_set_loop n (S i) off src d
  end.
Definition dentry_name_set (off : nat) (src d : list Z) : option (list Z) :=
  name_set_loop DLENGTH 0 off src d.

(** [dentry_name_equal], [n] bytes left. *)
Fixpoint name_equal_loop (n i : nat) (s1 s2 : list Z) : option bool :=
  match n with
  | O => v ← ld i s2; Some (v =? 0)
  | S n =>
    a ← ld i s1;
    b ← ld i s2;
    if negb (a =? b) then Some false
    else if (a =? 0) && (b =? 0) then Some true
    else name_equal_loop n (S i) s1 s2
  end.
Definition dentry_name_equal (s1 s2 : list Z) : option bool := name_equal_loop DLENGTH 0 s1 s2.

(** The loop of [path_split]: the last separator [m] and the length [n]. *)
Fixpoint split_scan (path : list Z) (m : option nat) (n : nat) : option (option nat * nat) :=
  match path with
  | [] => None
  | c :: path => if c =? 0 then Some (m, n)
                 else split_scan path (if c =? SLASH then Some n else m) (S n)
  end.
(** [memcpy] of [src] to the start of the array [dst]. *)
Definition arr_copy (src dst : list Z) : option (list Z) :=
  if decide (length src ≤ length dst)%nat then Some (blit 0 src dst) else None.
Definition path_split (path parentpath filename : list Z) : option (list Z * list Z) :=
  '(m, n) ← split_scan path None 0;
  match m with
  | None => p ← st 0 DOT parentpath; f ← arr_copy (take n path) filename; Some (p, f)
  | Some m => p ← arr_copy (take m path) parentpath;
              f ← arr_copy (take (n - m - 1) (drop (m + 1) path)) filename; Some (p, f)
  end.

(** The loop of [dentry_find] and [dentry_del] over the entries of a block, from
    entry [j] with [n] left and [k] names seen: the entry with the name. *)
Fixpoint dir_scan (d name : list Z) (n j : nat) (k : Z) : option (option nat) :=
  match n with
  | O => Some None
  | S n =>
    if negb (k <? dt_cnt d) then Some None else
    same ← dentry_name_equal (dt_name j d) name;
    if (same : bool) then Some (Some j) else
    c ← ld 0 (dt_name j d);
    dir_scan d name n (S j) (if c =? 0 then k else k + 1)
  end.
(** The loop of [dentry_add]: the first entry without a name. *)
Fixpoint dir_slot (d : list Z) (n j : nat) : option nat :=
  match n with
  | O => None
  | S n => if get_at 1 (SZDENTRY * j + 4) d =? 0 then Some j else dir_slot d n (S j)
  end.
(** [dt->inum = inum; dentry_name_set(dt->name, name)]. *)
Definition dentry_put (j : nat) (inum : Z) (name d : list Z) : option (list Z) :=
  dentry_name_set (SZDENTRY * j + 4) name (put_at 4 (SZDENTRY * j) inum d).

Section dir.
Context {S : Type} {IO : BlockIO S}.

(** A null pointer is dereferenced. *)
Definition the {A} (o : option A) : M (@ist S) A := deref (λ _, o).

(** The loop of [dentry_find] over the blocks of [cur], from block [i] with [n]
    left: the inode found, which may be null. *)
Fixpoint find_blocks (cur : nat) (sb : superblock) (dname : list Z) (n : nat) (i : Z) :
    M (@ist S) (option (option nat)) :=
  match n with
  | O => ret None
  | Datatypes.S n =>
    let! b := data_block_get cur i in
    let! d := data_of b in
    let! r := the (dir_scan d dname DENTRY_MAXCNT_PER_BLOCK 1 0) in
    match r with
    | Some j =>
      iput cur ;;
      let! cur := iget sb (dt_inum j d) in
      lift (brelse b) ;;
      ret (Some cur)
    | None => lift (brelse b) ;; find_blocks cur sb dname n (i + 1)
    end
  end.
(** The loop over the components; [fuel] bounds their number. *)
Fixpoint find_loop (fuel : nat) (cur : option nat) (path dname : list Z) : M (@ist S) (option nat) :=
  match fuel with
  | O => fault
  | Datatypes.S fuel =>
    let! p := the (parse_path path dname) in
    match p with
    | None => ret cur
    | Some (dname, path) =>
      let! c := the cur in
      let! a := inode_at c in
      let! sb := sb_of c in
      let! r := find_blocks c sb dname (Z.to_nat (iblock_cnt (i_di a))) 0 in
      match r with
      | Some cur => find_loop fuel cur path dname
      | None => iput c ;; ret None
      end
    end
  end.
(** [rfs] is the root file system and [cwd] the inode of the working directory. *)
Definition dentry_find (rfs : superblock) (cwd : nat) (path dname : list Z) : M (@ist S) (option nat) :=
  let! c := the (path !! 0%nat) in
  if c =? SLASH then
    let! cur := iget rfs ROOTINUM in
    find_loop (length path) cur (drop 1 path) dname
  else
    let! w := inode_at cwd in
    let! sb := sb_of cwd in
    let! cur := iget sb (i_inum w) in
    find_loop (length path) cur path dname.

(** The loop of [dentry_add] over the blocks: whether the entry was stored. *)
Fixpoint add_blocks (dir : nat) (inum : Z) (name : list Z) (n : nat) (i : Z) : M (@ist S) bool :=
  match n with
  | O => ret false
  | Datatypes.S n =>
    let! b := data_block_get dir i in
    let! d := data_of b in
    if dt_cnt d =? Z.of_nat DENTRY_MAXCNT_PER_BLOCK then
      lift (brelse b) ;; add_blocks dir inum name n (i + 1)
    else
      match dir_slot d DENTRY_MAXCNT_PER_BLOCK 1 with
      | Some j =>
        let! d1 := the (dentry_put j inum name d) in
        lift (modify (bset b (put_at 8 0 (u64 (dt_cnt d1 + 1)) d1))) ;;
        lift (bwrite b) ;;
        lift (brelse b) ;;
        ret true
      | None => lift (brelse b) ;; add_blocks dir inum name n (i + 1)
      end
  end.
Definition dentry_add (dir : nat) (inum : Z) (name : list Z) : M (@ist S) unit :=
  let! a := inode_at dir in
  let! done := add_blocks dir inum name (Z.to_nat (iblock_cnt (i_di a))) 0 in
  if done then ret tt else
  let! b := data_block_alloc dir in
  let! d := data_of b in
  let! d1 := the (dentry_put 1 inum name (put_at 8 0 1 d)) in
  lift (modify (bset b d1)) ;;
  lift (bwrite b) ;;
  lift (brelse b) ;;
  mod_inode dir (set_di (λ di, set_fsize (u32 (di_fsize di + Z.of_nat BSIZE)) di)) ;;
  iupdate dir.

(** The loop of [dentry_del] over the blocks. *)
Fixpoint del_blocks (dir : nat) (name : list Z) (n : nat) (i : Z) : M (@ist S) unit :=
  match n with
  | O => ret tt
  | Datatypes.S n =>
    let! b := data_block_get dir i in
    let! d := data_of b in
    let! r := the (dir_scan d name DENTRY_MAXCNT_PER_BLOCK 1 0) in
    match r with
    | None => lift (brelse b) ;; del_blocks dir name n (i + 1)
    | Some j =>
      let d1 := put_at 8 (SZDENTRY * j + 4) 0 d in
      let d2 := put_at 8 0 (u64 (dt_cnt d1 - 1)) d1 in
      lift (modify (bset b d2)) ;;
      (if dt_cnt d2 =? 0 then
         idx_remove dir i ;;
         mod_inode dir (set_di (λ di, set_fsize (u32 (di_fsize di - Z.of_nat BSIZE)) di)) ;;
         iupdate dir ;;
         let! sb := sb_of dir in
         let! bn := lift (gets (λ s, bblockno s b)) in
         lift (bfree sb bn)
       else lift (bwrite b)) ;;
      lift (brelse b)
    end
  end.
Definition dentry_del (dir : nat) (name : list Z) : M (@ist S) unit :=
  let! a := inode_at dir in
  del_blocks dir name (Z.to_nat (iblock_cnt (i_di a))) 0.
End dir.

(** ** Names *)

(** The string in a name field: the bytes before the first zero. *)
Fixpoint name_of (s : list Z) : list Z :=
  match s with [] => [] | c :: s => if c =? 0 then [] else c :: name_of s end.
(** An array that holds the C string [w]. *)
Definition cstr (s w : list Z) : Prop := Forall (λ v, v ≠ 0) w ∧ ∃ r, s = w ++ 0 :: r.

Lemma cstr_lookup s w i : cstr s w → (i < length w)%nat → s !! i = w !! i.
Proof. intros [_ [r ->]] Hi. by rewrite lookup_app_l. Qed.
Lemma cstr_end s w : cstr s w → s !! length w = Some 0.
Proof. intros [_ [r ->]]. by rewrite lookup_app_r, Nat.sub_diag by lia. Qed.
Lemma name_of_cstr s w : cstr s w → name_of s = w.
Proof.
  intros [Hw [r ->]]. induction w as [|v w IH]; [done|]. apply Forall_cons in Hw as [Hv Hw]. cbn.
  rewrite (proj2 (Z.eqb_neq v 0) Hv). by rewrite IH.
Qed.
Lemma name_of_full s : Forall (λ v, v ≠ 0) s → name_of s = s.
Proof.
  induction s as [|v s IH]; intros Hs; [done|]. apply Forall_cons in Hs as [Hv Hs]. cbn.
  rewrite (proj2 (Z.eqb_neq v 0) Hv). by rewrite IH.
Qed.

Lemma name_equal_loop_spec n i s1 s2 w : length s1 = (i + n)%nat → cstr s2 w →
  (i ≤ length w)%nat → take i s1 = take i w →
  name_equal_loop n i s1 s2 = Some (bool_decide (name_of (drop i s1) = drop i w)).
Proof.
  revert i. induction n as [|n IH]; intros i Hl Hc Hi Ht; cbn [name_equal_loop]; unfold ld.
  - rewrite (drop_ge s1) by lia. cbn [name_of]. destruct (decide (i = length w)) as [->|].
    + rewrite (cstr_end _ _ Hc), drop_ge by lia. cbn. by rewrite bool_decide_eq_true_2.
    + rewrite (cstr_lookup _ _ _ Hc) by lia.
      destruct (lookup_lt_is_Some_2 w i) as [v Ev]; [lia|]. rewrite Ev. cbn.
      destruct Hc as [Hw _]. pose proof (proj1 (Forall_lookup _ _) Hw i v Ev) as Hv. cbn in Hv.
      rewrite (drop_S _ _ _ Ev). rewrite bool_decide_eq_false_2 by done. f_equal. by apply Z.eqb_neq.
  - destruct (lookup_lt_is_Some_2 s1 i) as [a Ea]; [lia|]. rewrite Ea. cbn. rewrite (drop_S _ _ _ Ea). cbn [name_of].
    destruct (decide (i = length w)) as [->|].
    + rewrite (cstr_end _ _ Hc). cbn. rewrite (drop_ge w) by lia. destruct (Z.eqb_spec a 0); cbn.
      * by rewrite bool_decide_eq_true_2.
      * by rewrite bool_decide_eq_false_2.
    + rewrite (cstr_lookup _ _ _ Hc) by lia.
      destruct (lookup_lt_is_Some_2 w i) as [v Ev]; [lia|]. rewrite Ev. cbn. rewrite (drop_S _ _ _ Ev).
      destruct Hc as [Hw Hr]. pose proof (proj1 (Forall_lookup _ _) Hw i v Ev) as Hv. cbn in Hv.
      destruct (Z.eqb_spec a v) as [->|Hav]; cbn [negb].
      * rewrite (proj2 (Z.eqb_neq v 0) Hv). cbn [andb]. rewrite IH.
        -- f_equal. apply bool_decide_ext. split; [by intros ->|by intros [= ->]].
        -- lia.
        -- done.
        -- lia.
        -- by rewrite (take_S_r _ _ _ Ea), (take_S_r _ _ _ Ev), Ht.
      * rewrite bool_decide_eq_false_2; [done|]. destruct (Z.eqb_spec a 0); [done|]. by intros [= ->].
Qed.
(** Two names are equal as strings. *)
Lemma dentry_name_equal_spec s1 s2 w : length s1 = DLENGTH → cstr s2 w →
  dentry_name_equal s1 s2 = Some (bool_decide (name_of s1 = w)).
Proof.
  intros Hl Hc. unfold dentry_name_equal. rewrite (name_equal_loop_spec _ _ _ _ w); [done|done|done|lia|done].
Qed.

(** The name a slot holds after [dentry_name_set]: the string, cut at 28 bytes. *)
Lemma name_set_loop_spec n i off src w d : cstr src w → (i ≤ length w)%nat → (off + i + n ≤ length d)%nat →
  ∃ d', name_set_loop n i off src d = Some d' ∧ length d' = length d ∧
    (∀ k, (k < off + i ∨ off + i + n ≤ k)%nat → d' !! k = d !! k) ∧
    name_of (slice (off + i) n d') = take n (drop i w).
Proof.
  revert i d. induction n as [|n IH]; intros i d Hc Hi Hd; cbn [name_set_loop].
  { exists d. unfold slice. done. }
  unfold ld. destruct (decide (i = length w)) as [->|].
  - rewrite (cstr_end _ _ Hc). cbn. rewrite CString.st_ok by lia. cbn. eexists. split; [done|].
    rewrite length_insert. split; [done|]. split; [intros k Hk; by rewrite list_lookup_insert_ne by lia|].
    rewrite (slice_first _ _ _ 0) by (apply list_lookup_insert_eq; lia). by rewrite drop_ge by lia.
  - rewrite (cstr_lookup _ _ _ Hc) by lia. destruct (lookup_lt_is_Some_2 w i) as [v Ev]; [lia|]. rewrite Ev. cbn.
    rewrite CString.st_ok by lia. cbn. destruct Hc as [Hw Hr].
    pose proof (proj1 (Forall_lookup _ _) Hw i v Ev) as Hv. cbn in Hv. rewrite (proj2 (Z.eqb_neq v 0) Hv).
    destruct (IH (S i) (<[(off + i)%nat:=v]> d)) as (d' & E & L & F & N); [done|lia|rewrite length_insert; lia|].
    exists d'. split; [done|]. rewrite length_insert in L. split; [done|]. split.
    { intros k Hk. rewrite F by lia. by rewrite list_lookup_insert_ne by lia. }
    rewrite (slice_first _ _ _ v).
    2: { rewrite F by lia. apply list_lookup_insert_eq. lia. }
    cbn. rewrite (proj2 (Z.eqb_neq v 0) Hv). replace (S (off + i)) with (off + S i)%nat by lia.
    rewrite N, (drop_S _ _ _ Ev). done.
Qed.

(** A directory entry that is stored is read back with its inode number and its
    name (cut at 28 bytes), and the bytes of the other entries of the block are
    unchanged. *)
Theorem dentry_put_spec j inum src w d : cstr src w → length d = BSIZE → (1 ≤ j ≤ DENTRY_MAXCNT_PER_BLOCK)%nat →
  u32_ok inum →
  ∃ d', dentry_put j inum src d = Some d' ∧ length d' = BSIZE ∧ dt_inum j d' = inum ∧
    name_of (dt_name j d') = take DLENGTH w ∧
    ∀ k, (k < SZDENTRY * j ∨ SZDENTRY * j + SZDENTRY ≤ k)%nat → d' !! k = d !! k.
Proof.
  intros Hc Hl Hj Hi. assert (Hb : (32 * j + 32 ≤ 1024)%nat) by (change DENTRY_MAXCNT_PER_BLOCK with 31%nat in Hj; lia).
  unfold dentry_put, dentry_name_set, SZDENTRY in *. set (d0 := put_at 4 (32 * j) inum d).
  assert (L0 : length d0 = BSIZE) by (unfold d0; rewrite length_put_at by (rewrite Hl; unfold BSIZE; lia); done).
  unfold BSIZE in *.
  destruct (name_set_loop_spec DLENGTH 0 (32 * j + 4) src w d0) as (d' & E & L & F & N);
    [done|lia|unfold DLENGTH; lia|].
  unfold DLENGTH in *. rewrite E. exists d'. split; [done|]. split; [lia|]. split.
  - unfold dt_inum, SZDENTRY. transitivity (get_at 4 (32 * j) d0).
    + apply get_at_ext. intros k Hk. apply F. lia.
    + unfold d0. rewrite get_put_same by lia. apply Z.mod_small. apply Hi.
  - split.
    + unfold dt_name, SZDENTRY, DLENGTH. replace (32 * j + 4 + 0)%nat with (32 * j + 4)%nat in N by lia. exact N.
    + intros k Hk. rewrite F by lia. unfold d0. rewrite lookup_put_at by lia. by rewrite decide_False by lia.
Qed.

(** ** Paths *)

Definition plain (c : list Z) : Prop := Forall (λ v, v ≠ SLASH ∧ v ≠ 0) c.

Lemma comp_end_spec c e r : plain c → e = SLASH ∨ e = 0 → comp_end (c ++ e :: r) = Some (length c).
Proof.
  intros Hc He. induction c as [|v c IH]; cbn.
  - by destruct He as [-> | ->].
  - apply Forall_cons in Hc as [[H1 H2] Hc]. rewrite (proj2 (Z.eqb_neq _ _) H1), (proj2 (Z.eqb_neq _ _) H2).
    cbn. by rewrite IH.
Qed.
Lemma plain_nonzero c : plain c → Forall (λ v, v ≠ 0) c.
Proof. intros H. eapply Forall_impl; [exact H|]. by intros v [_ ?]. Qed.

(** [strncpy] of the first [n] bytes of [path], none of them zero except maybe
    the last, into an array of zeros behind it. *)
Lemma strncpy_prefix n k (path m0 : list Z) : (k + n ≤ length path)%nat →
  Forall (λ v, v ≠ 0) (slice k n path) → 
  ∀ pre post, length post = n → 
  strncpy (length path + length pre) k n (path ++ pre ++ post ++ m0) =
  Some (path ++ pre ++ slice k n path ++ m0).
Proof.
  revert k. induction n as [|n IH]; intros k Hk Hz pre post Hp.
  { destruct post; [|done]. unfold slice. by rewrite take_0. }
  destruct post as [|x post]; [done|]. injection Hp as Hp.
  destruct (lookup_lt_is_Some_2 path k) as [v Ev]; [lia|]. rewrite (slice_first _ _ _ _ Ev) in *.
  apply Forall_cons in Hz as [Hv Hz]. cbn [strncpy]. unfold ld. rewrite lookup_app_l, Ev by lia. cbn.
  rewrite CString.st_ok by (rewrite !length_app; cbn; lia). cbn. rewrite (proj2 (Z.eqb_neq v 0) Hv).
  rewrite insert_app_r, (insert_app_r_alt pre) by lia. rewrite Nat.sub_diag. cbn. specialize (IH (S k) ltac:(lia) Hz (pre ++ [v]) post Hp).
  rewrite length_app in IH. cbn [length] in IH. rewrite <- !app_assoc in IH. cbn [app] in IH.
  replace (S (length path + length pre)) with (length path + (length pre + 1))%nat by lia. exact IH.
Qed.

(** A component that is followed by a separator, of at most 28 bytes. *)
Lemma parse_path_dir c r dname : plain c → (length c ≤ DLENGTH)%nat → length dname = DLENGTH →
  parse_path (c ++ SLASH :: r) dname = Some (Some (c ++ replicate (DLENGTH - length c) 0, r)).
Proof.
  intros Hc Hl Hd. unfold parse_path. set (path := c ++ SLASH :: r).
  assert (Hp : (length c < length path)%nat) by (unfold path; rewrite length_app; cbn; lia).
  assert (∃ x, path !! 0%nat = Some x ∧ x ≠ 0) as (x & Ex & Hx).
  { unfold path. destruct c as [|v c]; [by exists SLASH|]. exists v. apply Forall_cons in Hc as [[_ ?] _]. done. }
  rewrite Ex. cbn. rewrite (proj2 (Z.eqb_neq _ _) Hx). 
  assert (comp_end path = Some (length c)) as -> by (apply comp_end_spec; auto). cbn.
  rewrite memset_ok by (rewrite length_app, Hd; done). cbn.
  assert (path !! length c = Some SLASH) as -> by (unfold path; by rewrite lookup_app_r, Nat.sub_diag by lia).
  cbn. assert (blit (length path) (replicate DLENGTH (u8 0)) (path ++ dname) =
    path ++ [] ++ replicate (length c) 0 ++ replicate (DLENGTH - length c) 0) as ->.
  { unfold blit. rewrite take_app_length, length_replicate, (drop_ge (path ++ dname)), app_nil_r by (rewrite length_app; lia).
    cbn [app]. rewrite <- replicate_add. f_equal. change (u8 0) with 0. f_equal. lia. }
  assert (Hs : slice 0 (length c) path = c) by (unfold slice, path; by rewrite drop_0, take_app_length).
  pose proof (strncpy_prefix (length c) 0 path (replicate (DLENGTH - length c) 0) ltac:(lia)) as Hn.
  rewrite Hs in Hn. specialize (Hn (plain_nonzero _ Hc) [] (replicate (length c) 0) (length_replicate _ _)).
  rewrite Nat.add_0_r in Hn. rewrite Hn. cbn. rewrite drop_app_length. do 3 f_equal.
  unfold path. by rewrite <- drop_drop, drop_app_length.
Qed.

Lemma memset_dname (path dname : list Z) : length dname = DLENGTH →
  memset (length path) 0 DLENGTH (path ++ dname) = Some (path ++ replicate DLENGTH 0).
Proof.
  intros Hd. rewrite memset_ok by (rewrite length_app, Hd; done). unfold blit.
  rewrite take_app_length, length_replicate, (drop_ge (path ++ dname)), app_nil_r by (rewrite length_app; lia). done.
Qed.
(** The last component, of at most 27 bytes: it is copied with its terminator. *)
Lemma parse_path_last c r dname : plain c → c ≠ [] → (length c < DLENGTH)%nat → length dname = DLENGTH →
  parse_path (c ++ 0 :: r) dname = Some (Some (c ++ replicate (DLENGTH - length c) 0, 0 :: r)).
Proof.
  intros Hc Hne Hl Hd. unfold parse_path. set (path := c ++ 0 :: r).
  assert (Hp : (length c + 1 ≤ length path)%nat) by (unfold path; rewrite length_app; cbn; lia).
  assert (∃ x, path !! 0%nat = Some x ∧ x ≠ 0) as (x & Ex & Hx).
  { unfold path. destruct c as [|v c]; [done|]. exists v. apply Forall_cons in Hc as [[_ ?] _]. done. }
  rewrite Ex. cbn. rewrite (proj2 (Z.eqb_neq _ _) Hx).
  assert (comp_end path = Some (length c)) as -> by (apply comp_end_spec; auto). cbn.
  rewrite memset_dname by done. cbn.
  assert (path !! length c = Some 0) as -> by (unfold path; by rewrite lookup_app_r, Nat.sub_diag by lia).
  cbn. rewrite (strncpy_ok _ _ _ c).
  - cbn. do 3 f_equal; [|unfold path; by rewrite drop_app_length].
    assert (Hpd : padded (length c + 1) c = c ++ [0]).
    { unfold padded. rewrite take_app_add. by rewrite (Nat.add_1_r (length c)). }
    unfold blit. rewrite Hpd, take_app_length, drop_app_length. rewrite <- app_assoc. f_equal.
    rewrite drop_app_add, length_app, drop_replicate. cbn [length].
    change ([0] ++ ?x) with (replicate 1 0 ++ x). rewrite <- replicate_add. f_equal. lia.
  - split; [by apply plain_nonzero|]. unfold slice, path. rewrite drop_0, <- app_assoc. cbn [app].
    rewrite take_app_add. done.
  - lia.
  - rewrite length_app, length_replicate. lia.
Qed.
Lemma strncpy_overflow n k (path : list Z) : ∀ pre post, (length post < n)%nat →
  (k + length post < length path)%nat → Forall (λ v, v ≠ 0) (slice k (length post) path) →
  strncpy (length path + length pre) k n (path ++ pre ++ post) = None.
Proof.
  revert k. induction n as [|n IH]; intros k pre post Hn Hk Hz; [lia|].
  destruct (lookup_lt_is_Some_2 path k) as [v Ev]; [lia|].
  cbn [strncpy]. unfold ld. rewrite lookup_app_l, Ev by lia. cbn. unfold st. rewrite !length_app.
  destruct post as [|x post].
  { rewrite decide_False; [done|]. cbn. lia. }
  rewrite decide_True by (cbn; lia). cbn. cbn [length] in *. rewrite (slice_first _ _ _ _ Ev) in Hz.
  apply Forall_cons in Hz as [Hv Hz]. rewrite (proj2 (Z.eqb_neq v 0) Hv).
  rewrite insert_app_r, (insert_app_r_alt pre) by lia. rewrite Nat.sub_diag. cbn.
  specialize (IH (S k) (pre ++ [v]) post ltac:(lia) ltac:(lia) Hz).
  rewrite length_app, <- app_assoc in IH. cbn [length app] in IH.
  replace (S (length path + length pre)) with (length path + (length pre + 1))%nat by lia. exact IH.
Qed.
(** [parse_path] copies a last component of 28 bytes or more past the end of
    [dname]. *)
Theorem parse_path_long c r dname : plain c → (DLENGTH ≤ length c)%nat → length dname = DLENGTH →
  parse_path (c ++ 0 :: r) dname = None.
Proof.
  intros Hc Hl Hd. unfold parse_path. set (path := c ++ 0 :: r).
  assert (Hp : (length c + 1 ≤ length path)%nat) by (unfold path; rewrite length_app; cbn; lia).
  assert (∃ x, path !! 0%nat = Some x ∧ x ≠ 0) as (x & Ex & Hx).
  { unfold path. destruct c as [|v c]; [unfold DLENGTH in Hl; cbn in Hl; lia|]. exists v.
    apply Forall_cons in Hc as [[_ ?] _]. done. }
  rewrite Ex. cbn. rewrite (proj2 (Z.eqb_neq _ _) Hx).
  assert (comp_end path = Some (length c)) as -> by (apply comp_end_spec; auto). cbn.
  rewrite memset_dname by done. cbn.
  assert (path !! length c = Some 0) as -> by (unfold path; by rewrite lookup_app_r, Nat.sub_diag by lia).
  cbn. pose proof (strncpy_overflow (length c + 1) 0 path [] (replicate DLENGTH 0)) as Ho.
  rewrite length_replicate in Ho. cbn [length app] in Ho. rewrite Nat.add_0_r in Ho. rewrite Ho; [done|lia|lia|].
  apply Forall_lookup. intros i v. rewrite lookup_slice. case_decide; [|done].
  unfold path. rewrite lookup_app_l by lia. apply (Forall_lookup_1 _ _ _ _ (plain_nonzero _ Hc)).
Qed.

(** [path_split] cuts at the last separator. *)
Lemma split_scan_spec w r m n : Forall (λ v, v ≠ 0) w →
  split_scan (w ++ 0 :: r) m n =
  Some (foldl (λ '(m, n) c, (if c =? SLASH then Some n else m, S n)) (m, n) w).
Proof.
  intros Hw. revert m n. induction w as [|v w IH]; intros m n; [done|]. apply Forall_cons in Hw as [Hv Hw].
  cbn. rewrite (proj2 (Z.eqb_neq v 0) Hv). by rewrite IH.
Qed.
Lemma split_fold_plain f m n : Forall (λ v, v ≠ SLASH) f →
  foldl (λ '(m, n) c, (if c =? SLASH then Some n else m, S n)) (m, n) f = (m, (n + length f)%nat).
Proof.
  revert n. induction f as [|v f IH]; intros n Hf; cbn; [f_equal; lia|]. apply Forall_cons in Hf as [Hv Hf].
  rewrite (proj2 (Z.eqb_neq _ _) Hv), IH by done. f_equal. lia.
Qed.
Lemma split_fold_snd f m n :
  (foldl (λ '(m, n) c, (if c =? SLASH then Some n else m, S n)) (m, n) f).2 = (n + length f)%nat.
Proof. revert m n. induction f as [|v f IH]; intros m n; cbn; [lia|]. rewrite IH. lia. Qed.

Lemma arr_copy_ok src dst : (length src ≤ length dst)%nat → arr_copy src dst = Some (blit 0 src dst).
Proof. intros. unfold arr_copy. by rewrite decide_True. Qed.
(** [path_split] cuts a path at its last separator: the part before it is the
    parent path and the part behind it, which has no separator, is the file name. *)
Theorem path_split_dir a f r pp fn : Forall (λ v, v ≠ 0) a → plain f →
  (length a ≤ length pp)%nat → (length f ≤ length fn)%nat →
  path_split (a ++ SLASH :: f ++ 0 :: r) pp fn = Some (blit 0 a pp, blit 0 f fn).
Proof.
  intros Ha Hf Hp Hn. unfold path_split.
  replace (a ++ SLASH :: f ++ 0 :: r) with ((a ++ SLASH :: f) ++ 0 :: r) by (by rewrite <- app_assoc).
  rewrite split_scan_spec.
  2: { apply Forall_app. split; [done|]. constructor; [done|]. by apply plain_nonzero. }
  rewrite foldl_app. cbn [foldl].
  pose proof (split_fold_snd a None 0) as Hs. destruct (foldl _ _ a) as [m n]. cbn in Hs. subst n.
  cbn. rewrite split_fold_plain by (eapply Forall_impl; [exact Hf|]; by intros v [? _]). cbn.
  rewrite <- app_assoc. rewrite take_app_length, (arr_copy_ok a) by done. cbn.
  replace (S (length a + length f) - length a - 1)%nat with (length f) by lia.
  rewrite <- drop_drop, drop_app_length. cbn. rewrite drop_0, take_app_length. by rewrite arr_copy_ok.
Qed.
Lemma path_split_plain f r pp fn : plain f → (0 < length pp)%nat → (length f ≤ length fn)%nat →
  path_split (f ++ 0 :: r) pp fn = Some (<[0%nat := DOT]> pp, blit 0 f fn).
Proof.
  intros Hf Hp Hn. unfold path_split. rewrite split_scan_spec by (by apply plain_nonzero).
  rewrite split_fold_plain by (eapply Forall_impl; [exact Hf|]; by intros v [? _]). cbn.
  rewrite CString.st_ok by done. cbn. rewrite take_app_length. by rewrite arr_copy_ok.
Qed.

(** ** Looking a name up in a directory block *)

Definition live (d : list Z) (j : nat) : bool := negb (bool_decide (name_of (dt_name j d) = [])).
(** The count of a block is the number of its entries that have a name. *)
Definition dir_block_ok (d : list Z) : Prop :=
  length d = BSIZE ∧ dt_cnt d = Z.of_nat (countb (live d) (seq 1 DENTRY_MAXCNT_PER_BLOCK)).

Lemma dt_name_length d j : length d = BSIZE → (j ≤ DENTRY_MAXCNT_PER_BLOCK)%nat → length (dt_name j d) = DLENGTH.
Proof.
  intros Hl Hj. unfold dt_name. rewrite length_take, length_drop, Hl.
  change DENTRY_MAXCNT_PER_BLOCK with 31%nat in Hj. unfold SZDENTRY, DLENGTH, BSIZE. lia.
Qed.
Lemma live_first d j : length (dt_name j d) = DLENGTH → ∃ c, dt_name j d !! 0%nat = Some c ∧ live d j = negb (c =? 0).
Proof.
  intros Hl. unfold live. destruct (dt_name j d) as [|c s]; [done|]. exists c. split; [done|].
  cbn. destruct (c =? 0); [by rewrite bool_decide_eq_true_2|by rewrite bool_decide_eq_false_2].
Qed.
Lemma dir_scan_spec d name w n j k : length d = BSIZE → cstr name w → w ≠ [] →
  (j + n ≤ S DENTRY_MAXCNT_PER_BLOCK)%nat → k + Z.of_nat (countb (live d) (seq j n)) = dt_cnt d →
  dir_scan d name n j k = Some (List.find (λ j, bool_decide (name_of (dt_name j d) = w)) (seq j n)).
Proof.
  intros Hl Hc Hw. revert j k. induction n as [|n IH]; intros j k Hj Hk; [done|]. cbn [dir_scan seq List.find].
  cbn [seq countb] in Hk. pose proof (dt_name_length d j Hl ltac:(lia)) as Hn.
  destruct (live_first d j Hn) as (c & Ec & Hlive).
  destruct (Z.ltb_spec k (dt_cnt d)) as [Hlt|Hge]; cbn [negb].
  - rewrite (dentry_name_equal_spec _ _ w) by done. cbn.
    destruct (bool_decide _); [done|]. unfold ld. rewrite Ec. cbn. apply IH; [lia|].
    rewrite Hlive in Hk. destruct (c =? 0); cbn [negb] in Hk; lia.
  - (* every name was seen: none is left *)
    assert (countb (live d) (seq j (S n)) = 0%nat) as Hz.
    { cbn [seq countb]. destruct (live d j); lia. }
    symmetry. f_equal. transitivity (List.find (λ j, bool_decide (name_of (dt_name j d) = w)) (seq j (S n))); [done|].
    revert Hz. generalize (seq j (S n)). clear -Hw. intros l. induction l as [|x l IH]; [done|]. cbn.
    destruct (live d x) eqn:E; [done|]. intros Hz. rewrite bool_decide_eq_false_2; [by apply IH|].
    intros E2. unfold live in E. rewrite E2 in E. by rewrite bool_decide_eq_false_2 in E.
Qed.
(** In a well-formed block the scan finds the first entry with the name. *)
Lemma dir_scan_block d name w : dir_block_ok d → cstr name w → w ≠ [] →
  dir_scan d name DENTRY_MAXCNT_PER_BLOCK 1 0 =
  Some (List.find (λ j, bool_decide (name_of (dt_name j d) = w)) (seq 1 DENTRY_MAXCNT_PER_BLOCK)).
Proof. intros [Hl Hk] Hc Hw. apply dir_scan_spec; [done|done|done|lia|by rewrite Hk]. Qed.

(** ** Directories on disk *)
Section dir_spec.
Context {S : Type} {IO : BlockIO S} (sb : superblock) (WF : sb_wf sb).
Implicit Types (s : S) (l : list inode).

Lemma the_ok {A} (o : option A) v s l : o = Some v → the o (s, l) = Ok v (s, l).
Proof. intros ->. done. Qed.

Definition by_name (d w : list Z) (j : nat) : bool := bool_decide (name_of (dt_name j d) = w).
Definition block_find (d w : list Z) : option nat :=
  List.find (by_name d w) (seq 1 DENTRY_MAXCNT_PER_BLOCK).
(** The inode number the directory with index [ib] gives to name [w], searching
    [n] blocks from block [i]. *)
Fixpoint dir_lookup (disk : Z → list Z) (ib : list Z) (w : list Z) (n : nat) (i : Z) : option Z :=
  match n with
  | O => None
  | Datatypes.S n =>
    match file_block disk ib i with
    | Some e =>
      match block_find (disk e) w with
      | Some j => Some (dt_inum j (disk e))
      | None => dir_lookup disk ib w n (i + 1)
      end
    | None => None
    end
  end.
(** Blocks [i], ..., [i + n - 1] of a directory are data blocks with correct
    counts, and nobody holds them or their index blocks. *)
Definition dir_blocks_ok s (ib : list Z) (n : nat) (i : Z) : Prop :=
  ∀ k, i ≤ k < i + Z.of_nat n → ∃ e, file_block (bio_disk s) ib k = Some e ∧
    data_blk sb e ∧ not_held s e ∧ dir_block_ok (bio_disk s e) ∧
    (Z.of_nat NDIRECT ≤ k → ∀ x, index_block ib k = Some x → data_blk sb x ∧ not_held s x).

Lemma data_readable s e : data_blk sb e → not_held s e → readable s e.
Proof. intros He Hn. destruct (data_blk_range sb WF e He) as (? & ? & _). split_and!; [done|lia|done]. Qed.
Lemma file_block_step s s' ib k : io_step keep s s' →
  (Z.of_nat NDIRECT ≤ k → ∀ x, index_block ib k = Some x → data_blk sb x) →
  file_block (bio_disk s') ib k = file_block (bio_disk s) ib k.
Proof.
  intros St Hx. unfold file_block. destruct (Z.ltb_spec k (Z.of_nat NDIRECT)); [done|].
  destruct (index_block ib k) as [x|] eqn:Ex; [|done]. cbn.
  destruct (data_blk_range sb WF x (Hx ltac:(lia) x eq_refl)) as (_ & ? & _).
  by rewrite (st_disk _ _ _ St).
Qed.
Lemma dir_blocks_step s s' ib n i : io_step keep s s' → dir_blocks_ok s ib n i → dir_blocks_ok s' ib n i.
Proof.
  intros St H k Hk. destruct (H k Hk) as (e & E1 & E2 & E3 & E4 & E5). exists e.
  destruct (data_blk_range sb WF e E2) as (_ & ? & _).
  rewrite (file_block_step s s' ib k St (λ Hd x Hx, proj1 (E5 Hd x Hx))), (st_disk _ _ _ St) by done.
  split_and!; [done..|by eapply io_step_not_held|done|].
  intros Hd x Hx. destruct (E5 Hd x Hx). split; [done|by eapply io_step_not_held].
Qed.
Lemma dir_lookup_step s s' ib w n i : io_step keep s s' → dir_blocks_ok s ib n i →
  dir_lookup (bio_disk s') ib w n i = dir_lookup (bio_disk s) ib w n i.
Proof.
  intros St. revert i. induction n as [|n IH]; intros i H; [done|]. cbn [dir_lookup].
  destruct (H i ltac:(lia)) as (e & E1 & E2 & E3 & E4 & E5).
  destruct (data_blk_range sb WF e E2) as (_ & ? & _).
  rewrite (file_block_step s s' ib i St (λ Hd x Hx, proj1 (E5 Hd x Hx))), E1, (st_disk _ _ _ St) by done.
  unfold keep. rewrite IH; [done|]. intros k Hk. apply H. lia.
Qed.

Definition put_ref (a : inode) : inode := set_irefc (u32 (i_refc a - 1)) a.
Lemma icache_inv_refc l i a (f : Z → Z) : icache_inv l → l !! i = Some a → (∀ v, 0 ≤ f v < 2 ^ 32) →
  icache_inv (<[i := set_irefc (f (i_refc a)) a]> l).
Proof.
  intros [H1 H2 H3] Ea Hf. pose proof (lookup_lt_Some _ _ _ Ea) as Hlt.
  assert (G : ∀ j b, <[i := set_irefc (f (i_refc a)) a]> l !! j = Some b → ∃ b', l !! j = Some b' ∧
    i_sb b = i_sb b' ∧ i_inum b = i_inum b' ∧ i_slep b = i_slep b' ∧ i_di b = i_di b').
  { intros j b Hj. destruct (decide (i = j)) as [<-|].
    - rewrite list_lookup_insert_eq in Hj by done. injection Hj as <-. exists a. done.
    - rewrite list_lookup_insert_ne in Hj by done. by exists b. }
  split.
  - by rewrite length_insert.
  - intros j b Hj. destruct (decide (i = j)) as [<-|].
    + rewrite list_lookup_insert_eq in Hj by done. injection Hj as <-. cbn.
      destruct (H2 i a Ea) as (? & ? & ?). auto.
    + rewrite list_lookup_insert_ne in Hj by done. by apply H2 in Hj.
  - intros j k b c Hj Hk Hs Es En. destruct (G _ _ Hj) as (b' & Ej & Q1 & Q2 & _), (G _ _ Hk) as (c' & Ek & R1 & R2 & _).
    apply (H3 j k b' c'); [done|done|by rewrite <- Q1|congruence|congruence].
Qed.

(** One component of a path.  If the directory has no entry with the name, no
    inode is found and nothing changes; otherwise the reference to the directory is
    dropped and the inode of the entry is what [iget] delivers. *)
Lemma find_blocks_spec cur dname w n i s l a : icache_inv l → slot_of sb l cur a →
  cstr dname w → w ≠ [] → 0 ≤ i → dir_blocks_ok s (di_iblock (i_di a)) n i →
  room 2 s → imap_free sb s → itable_free sb s →
  (∀ inum, dir_lookup (bio_disk s) (di_iblock (i_di a)) w n i = Some inum →
     0 ≤ inum < ninodes sb ∧ inum < (sb_inodes sb - sb_imap sb) * BIT_CNT_PER_BLOCK) →
  let l1 := <[cur := put_ref a]> l in
  match dir_lookup (bio_disk s) (di_iblock (i_di a)) w n i with
  | None => ∃ s', find_blocks cur sb dname n i (s, l) = Ok None (s', l) ∧ io_step keep s s'
  | Some inum =>
    match iget_result sb inum s l1 with
    | Some (Some (k, l')) =>
        ∃ s', find_blocks cur sb dname n i (s, l) = Ok (Some (Some k)) (s', l') ∧ io_step keep s s'
    | Some None =>
        ∃ s', find_blocks cur sb dname n i (s, l) = Ok (Some None) (s', l1) ∧ io_step keep s s'
    | None => ∃ x, find_blocks cur sb dname n i (s, l) = Panic "iget: icache exhausted" x
    end
  end.
Proof.
  intros IC Hs Hc Hw. revert i s. induction n as [|n IH]; intros i s Hi Hdir Hr Hm Ht Hin l1.
  { exists s. split; [done|]. apply io_step_refl, Hm. }
  pose proof Hm as (Hok & _ & Hmh). pose proof Hs as (Ea & Esl & Esb).
  destruct (Hdir i ltac:(lia)) as (e & E1 & E2 & E3 & E4 & E5). cbn [dir_lookup find_blocks] in *. rewrite E1 in *.
  destruct (data_block_get_spec sb WF cur i s l a e Hs Hi Hok) as (b & s1 & Eb & O); [unfold room in *; lia|done| | |].
  { by apply data_readable. }
  { intros Hd x Hx. destruct (E5 Hd x Hx). by apply data_readable. }
  run Eb. destruct (owns_data _ _ _ _ _ _ O) as (Hbd & _ & Hblk & _).
  run (data_of_ok b s1 l _ Hbd). rewrite (dir_scan_block _ _ w) by done. go.
  run (the_ok _ _ s1 l (eq_refl (Some (block_find (bio_disk s e) w)))).
  destruct (block_find (bio_disk s e) w) as [j|] eqn:Ej.
  - set (inum := dt_inum j (bio_disk s e)) in *. destruct (Hin inum eq_refl) as [Hn1 Hn2].
    destruct (iput_spec cur s1 l a) as (s2 & E2' & St2); [apply O|done|]. run E2'. fold (put_ref a).
    pose proof (owns_step _ _ _ _ _ _ _ _ O St2) as O2.
    assert (IC1 : icache_inv l1) by (apply (icache_inv_refc l cur a (λ v, u32 (v - 1))); [done..|]; intros v; apply u32_bound).
    assert (Hfree : ∀ lo hi, hi ≤ sb_blocks sb → area_free lo hi s → area_free lo hi s2).
    { intros lo hi Hhi (F1 & F2 & F3). split; [apply O2|]. split; [by eapply owns_room|].
      intros k Hk. eapply owns_not_held; [exact O2| |by apply F3]. unfold data_blk in E2. lia. }
    pose proof WF as [_ ? ? ? ? _].
    pose proof (iget_spec sb WF inum s2 l1 IC1 Hn1 Hn2 
      (Hfree (sb_imap sb) (sb_inodes sb) ltac:(lia) Hm) (Hfree (sb_inodes sb) (sb_bmap sb) ltac:(lia) Ht)) as Hg.
    assert (iget_result sb inum s2 l1 = iget_result sb inum s l1) as Hres.
    { unfold iget_result, map_bit, disk_inode. destruct (wf_ranges sb WF) as (_ & _ & ?).
      pose proof (map_blk_bound (sb_imap sb) inum (sb_inodes sb - sb_imap sb) ltac:(lia)).
      destruct (blockno_bound sb inum WF Hn1) as [_ ?].
      by rewrite !(ow_disk _ _ _ _ _ _ O2) by (unfold blk; lia). }
    rewrite Hres in Hg. destruct (iget_result sb inum s l1) as [[[k l']|]|]; cbn zeta.
    + destruct Hg as (s3 & E3' & St3). run E3'. pose proof (owns_step _ _ _ _ _ _ _ _ O2 St3) as O3.
      destruct (owns_brelse _ _ _ _ _ _ O3) as (s4 & E4' & St4 & _); [done|]. runl E4'.
      exists s4. split; [done|]. eapply io_step_ext, St4. done.
    + destruct Hg as (s3 & E3' & St3). run E3'. pose proof (owns_step _ _ _ _ _ _ _ _ O2 St3) as O3.
      destruct (owns_brelse _ _ _ _ _ _ O3) as (s4 & E4' & St4 & _); [done|]. runl E4'.
      exists s4. split; [done|]. eapply io_step_ext, St4. done.
    + destruct Hg as (x & E3'). exists x. by apply bind_panicked.
  - destruct (owns_brelse _ _ _ _ _ _ O) as (s2 & E2' & St & _); [done|]. runl E2'.
    assert (Hdir' : dir_blocks_ok s (di_iblock (i_di a)) n (i + 1)) by (intros k Hk; apply Hdir; lia).
    specialize (IH (i + 1) s2 ltac:(lia) (dir_blocks_step _ _ _ _ _ St Hdir') (io_step_room _ _ _ _ St Hr)
      (area_free_step _ _ _ _ _ St Hm) (area_free_step _ _ _ _ _ St Ht)).
    rewrite (dir_lookup_step s s2) in IH by done. specialize (IH Hin). cbn zeta in IH.
    assert (Hres : ∀ inum, dir_lookup (bio_disk s) (di_iblock (i_di a)) w n (i + 1) = Some inum →
      iget_result sb inum s2 l1 = iget_result sb inum s l1).
    { intros inum Hl. destruct (Hin inum Hl) as [Hn1 Hn2].
      unfold iget_result, map_bit, disk_inode. destruct (wf_ranges sb WF) as (_ & _ & ?). pose proof WF as [_ ? ? ? ? _].
      pose proof (map_blk_bound (sb_imap sb) inum (sb_inodes sb - sb_imap sb) ltac:(lia)).
      destruct (blockno_bound sb inum WF Hn1) as [_ ?]. by rewrite !(st_disk _ _ _ St) by (unfold blk; lia). }
    destruct (dir_lookup _ _ _ n (i + 1)) as [inum|].
    + fold l1 in IH. rewrite (Hres inum eq_refl) in IH.
      destruct (iget_result sb inum s l1) as [[[k l']|]|]; [| |done].
      all: destruct IH as (s3 & E3' & St3); exists s3; split; [done|]; by eapply io_step_ext, io_step_trans, St3; [|exact St].
    + destruct IH as (s3 & E3' & St3). exists s3. split; [done|]. by eapply io_step_ext, io_step_trans, St3; [|exact St].
Qed.

Lemma block_find_range d w j : block_find d w = Some j → (1 ≤ j ≤ DENTRY_MAXCNT_PER_BLOCK)%nat ∧ name_of (dt_name j d) = w.
Proof.
  intros E. apply find_some in E as [Hi Hb]. apply in_seq in Hi. apply bool_decide_eq_true in Hb. split; [lia|done].
Qed.
(** [dentry_del] of the last name of a directory block stops the machine:
    [idx_remove] reads the block that [dentry_del] still holds. *)
Theorem dentry_del_last dir name w s l a e j : slot_of sb l dir a →
  0 < iblock_cnt (i_di a) < Z.of_nat NDIRECT → di_iblock (i_di a) !! 0%nat = Some e →
  bio_ok s → room 1 s → data_blk sb e → not_held s e → dir_block_ok (bio_disk s e) →
  cstr name w → w ≠ [] → block_find (bio_disk s e) w = Some j → dt_cnt (bio_disk s e) = 1 →
  ∃ x, dentry_del dir name (s, l) = Panic "sleep_get" x.
Proof.
  intros Hs Hcnt Ee Hok Hr He Hh Hd Hc Hw Hj H1. pose proof Hs as (Ea & Es & Esb).
  unfold dentry_del. run (inode_at_ok dir s l a Ea).
  destruct (Z.to_nat (iblock_cnt (i_di a))) as [|n] eqn:En; [lia|]. cbn [del_blocks].
  destruct (data_block_get_spec sb WF dir 0 s l a e Hs) as (b & s1 & Eb & O); [lia|done|done|done| |done|].
  { by apply data_readable. }
  run Eb. destruct (owns_data _ _ _ _ _ _ O) as (Hbd & _ & Hblk & _). run (data_of_ok b s1 l _ Hbd).
  rewrite (dir_scan_block _ _ w) by done.
  run (the_ok _ _ s1 l (eq_refl (Some (block_find (bio_disk s e) w)))). rewrite Hj.
  destruct (block_find_range _ _ _ Hj) as [Hj1 _]. change DENTRY_MAXCNT_PER_BLOCK with 31%nat in Hj1.
  set (d := bio_disk s e) in *. set (d1 := put_at 8 (SZDENTRY * j + 4) 0 d).
  set (d2 := put_at 8 0 (u64 (dt_cnt d1 - 1)) d1). destruct Hblk as [Hl Hb].
  assert (L1 : length d1 = BSIZE) by (unfold d1, SZDENTRY; rewrite length_put_at by (rewrite Hl; unfold BSIZE; lia); done).
  assert (Hd2 : is_block d2).
  { split; [unfold d2; rewrite length_put_at by (rewrite L1; unfold BSIZE; lia); done|].
    by apply bytes_ok_put_at, bytes_ok_put_at. }
  assert (C1 : dt_cnt d1 = 1).
  { rewrite <- H1. unfold dt_cnt, d1, SZDENTRY. apply get_put_ne; [rewrite Hl; unfold BSIZE; lia|lia]. }
  assert (C2 : dt_cnt d2 = 0).
  { unfold dt_cnt at 1, d2. rewrite get_put_same by (rewrite L1; unfold BSIZE; lia). by rewrite C1. }
  rewrite C2. cbn [Z.eqb]. rewrite ?bind_assoc. erewrite bind_ok; [|apply lift_ok; reflexivity]. cbn beta.
  pose proof (owns_bset _ _ _ _ _ _ _ O Hd2) as O2.
  destruct (bread_again (bset b d2 s1) b e d2) as (s3 & E3); [apply O2|by eapply owns_held|].
  exists (s3, l). rewrite ?bind_assoc. unfold idx_remove. rewrite ?bind_assoc.
  run (inode_at_ok dir (bset b d2 s1) l a Ea). run (sb_of_ok dir (bset b d2 s1) l a sb Ea Esb).
  destruct (Z.ltb_spec (iblock_cnt (i_di a)) (Z.of_nat NDIRECT)); [|lia]. rewrite ?bind_assoc.
  run (iblock_at_ok dir 0 (bset b d2 s1) l a e Ea Ee). unfold zero_data_block. rewrite ?bind_assoc.
  pose proof WF as [-> _ _ _ _ _]. apply bind_panicked, lift_panic, E3.
Qed.
End dir_spec.
