(* ===== verification/PageAlloc.v ===== *)
(** Physical pages (kernel/mem/alloc.h, kernel/mem/alloc.c).

    RAM is [NPAGE] pages from [PHY_MEMORY] on; [struct page] number [i] describes
    the page at [paddr_of i].  The free pages are linked in [pages_head], the pages
    of a task in the [page_head] of its [mm_struct]; both kinds of list thread the
    same [page_node] of the page. *)
From S2P Require Import Prelude Bytes ListNode Machine.

Definition NPAGE : nat := Z.to_nat (PHY_SIZE / PGSIZE).
#[global] Arguments NPAGE : simpl never.
Lemma NPAGE_Z : Z.of_nat NPAGE = 131072.
Proof. unfold NPAGE. rewrite Z2Nat.id by done. reflexivity. Qed.
Definition PGBYTES : nat := Z.to_nat PGSIZE.
#[global] Arguments PGBYTES : simpl never.

(** Addresses of list nodes: [pages_head], [phy_mem[i].page_node] and the
    [page_head] of the [mm_struct] of task [t]. *)
Inductive pnode := PagesHead | PageNode (i : nat) | TaskPages (t : nat).
#[export] Instance pnode_eq_dec : EqDecision pnode.
Proof. solve_decision. Defined.
#[export] Instance pnode_countable : Countable pnode.
Proof.
  apply (inj_countable'
    (λ k, match k with PagesHead => (0, 0) | PageNode i => (1, i) | TaskPages t => (2, t) end%nat)
    (λ c, match c with (0, _) => PagesHead | (1, i) => PageNode i | (_, t) => TaskPages t end%nat)).
  by intros [].
Defined.

(** [pg_inuse]: the pages whose [inuse] is set; [pg_data]: the bytes of the
    pages, zero where nothing was stored. *)
Record pmem := MkPm {
  pg_nodes : gmap pnode (list_node pnode);
  pg_inuse : gset nat;
  pg_data : gmap nat (list Z);
}.
Definition set_nodes (h : gmap pnode (list_node pnode)) (p : pmem) : pmem := MkPm h (pg_inuse p) (pg_data p).
Definition set_inuse (f : gset nat → gset nat) (p : pmem) : pmem := MkPm (pg_nodes p) (f (pg_inuse p)) (pg_data p).
Definition set_data (f : gmap nat (list Z) → gmap nat (list Z)) (p : pmem) : pmem :=
  MkPm (pg_nodes p) (pg_inuse p) (f (pg_data p)).
Definition zero_page : list Z := replicate PGBYTES 0.
#[global] Arguments zero_page : simpl never.
Definition page_data (p : pmem) (i : nat) : list Z := default zero_page (pg_data p !! i).

Definition paddr_of (i : nat) : Z := PHY_MEMORY + Z.of_nat i * PGSIZE.
(** [page(paddr)]: the index of the [struct page] in [phy_mem]. *)
Definition page (paddr : Z) : nat := Z.to_nat (u64 (paddr - PHY_MEMORY) / PGSIZE).

Definition PM : Type → Type := M (mach * pmem).
Definition nodes_op (f : gmap pnode (list_node pnode) → option (gmap pnode (list_node pnode))) : PM unit :=
  update (λ s, (λ h, (s.1, set_nodes h s.2)) <$> f (pg_nodes s.2)).
Definition inuse_op (f : gset nat → gset nat) : PM unit := modify (λ s, (s.1, set_inuse f s.2)).
Definition on_mach {A} (m : M mach A) : PM A := onm m.

(** The loop of [init_memory] with [n] pages left; [kend] is [(u64)end]. *)
Fixpoint init_loop (kend : Z) (n : nat) : PM unit :=
  match n with
  | O => ret tt
  | S n' =>
    let i := (NPAGE - n)%nat in
    (if paddr_of i <? align_up kend PGSIZE then inuse_op (union {[ i ]})
     else
       inuse_op (λ u, u ∖ {[ i ]}) ;;
       nodes_op (list_pushback PagesHead (PageNode i))) ;;
    init_loop kend n'
  end.
Definition init_memory (kend : Z) : PM unit := init_loop kend NPAGE.

(** [container_of(node, struct page, page_node)]. *)
Definition page_of_node (k : pnode) : option nat := match k with PageNode i => Some i | _ => None end.
Definition alloc_page : PM nat :=
  on_mach (spin_get L_mem) ;;
  let! first := deref (λ s, ld_next (pg_nodes s.2) (Some PagesHead)) in
  if bool_decide (first = Some PagesHead) then panic "alloc_page: memory exhausted" else
  let! i := deref (λ _, first ≫= page_of_node) in
  inuse_op (union {[ i ]}) ;;
  let! k := deref (λ _, first) in
  nodes_op (list_remove k) ;;
  on_mach (spin_put L_mem) ;;
  modify (λ s, (s.1, set_data (insert i zero_page) s.2)) ;;
  ret i.
Definition alloc_page_for_task (t : nat) : PM nat :=
  let! i := alloc_page in
  nodes_op (list_pushback (TaskPages t) (PageNode i)) ;;
  ret i.
Definition free_page (i : nat) : PM unit :=
  on_mach (spin_get L_mem) ;;
  let! u := gets (λ s, pg_inuse s.2) in
  if negb (bool_decide (i ∈ u)) then panic "free_page: double free page" else
  inuse_op (λ u, u ∖ {[ i ]}) ;;
  nodes_op (list_pushback PagesHead (PageNode i)) ;;
  on_mach (spin_put L_mem).
Definition free_page_for_task (i : nat) : PM unit :=
  nodes_op (list_remove (PageNode i)) ;;
  free_page i.

(** ** Invariant

    [fl] lists the free pages; [tl t] the pages of task [t].  A page is on the free
    list exactly when it is not in use, and is on at most one list. *)
Record pages_inv (fl : list nat) (tl : gmap nat (list nat)) (p : pmem) : Prop := {
  pi_free : dlist (pg_nodes p) PagesHead (PageNode <$> fl);
  pi_task t l : tl !! t = Some l → dlist (pg_nodes p) (TaskPages t) (PageNode <$> l);
  pi_inuse i : i ∈ fl ↔ (i < NPAGE)%nat ∧ i ∉ pg_inuse p;
  pi_used t l i : tl !! t = Some l → i ∈ l → (i < NPAGE)%nat ∧ i ∈ pg_inuse p;
  pi_disj t t' l l' i : tl !! t = Some l → tl !! t' = Some l' → i ∈ l → i ∈ l' → t = t';
  pi_nodes i : (i < NPAGE)%nat → is_Some (pg_nodes p !! PageNode i);
  pi_data i d : pg_data p !! i = Some d → length d = PGBYTES ∧ bytes_ok d;
}.

Lemma inuse_not_free fl tl p i : pages_inv fl tl p → (i < NPAGE)%nat → i ∉ fl → i ∈ pg_inuse p.
Proof.
  intros I Hi Hn. destruct (decide (i ∈ pg_inuse p)) as [|Hu]; [done|]. by destruct Hn; apply (pi_inuse _ _ _ I).
Qed.
Lemma zero_page_ok : length zero_page = PGBYTES ∧ bytes_ok zero_page.
Proof. split; [apply length_replicate|apply bytes_ok_replicate]. Qed.
Lemma page_data_ok fl tl p i : pages_inv fl tl p → length (page_data p i) = PGBYTES ∧ bytes_ok (page_data p i).
Proof.
  intros I. unfold page_data. destruct (pg_data p !! i) as [d|] eqn:E; [by apply (pi_data _ _ _ I i)|apply zero_page_ok].
Qed.
Lemma page_paddr i : (i < NPAGE)%nat → page (paddr_of i) = i.
Proof.
  intros Hi. pose proof NPAGE_Z as HN. unfold page, paddr_of, PHY_MEMORY, PGSIZE.
  replace (2147483648 + Z.of_nat i * 4096 - 2147483648) with (Z.of_nat i * 4096) by lia.
  rewrite u64_id, Z.div_mul by lia. lia.
Qed.
Lemma nodes_op_ok f m p h : f (pg_nodes p) = Some h → nodes_op f (m, p) = Ok tt (m, set_nodes h p).
Proof. intros E. unfold nodes_op, update. cbn. by rewrite E. Qed.
(** The lock of the allocator can be taken. *)
Definition mem_free (m : mach) : Prop := m_wf m ∧ lock_free m L_mem.
Lemma quiet_mem_free m : quiet m → mem_free m.
Proof. intros Hq. split; auto with mach. Qed.
#[export] Hint Resolve quiet_mem_free : mach.
Lemma pm_get m p : mem_free m → on_mach (spin_get L_mem) (m, p) = Ok tt (acq L_mem m, p).
Proof. intros Hq. unfold on_mach, onm, zoom. cbn [fst snd]. rewrite spin_get_free by apply Hq. done. Qed.
Lemma pm_put m p : mem_free m → on_mach (spin_put L_mem) (acq L_mem m, p) = Ok tt (touch m, p).
Proof.
  intros Hq. unfold on_mach, onm, zoom. cbn [fst snd]. rewrite spin_put_held by apply acq_held.
  by rewrite rel_acq by apply Hq.
Qed.

Lemma page_node_elem i (l : list nat) : PageNode i ∈ PageNode <$> l ↔ i ∈ l.
Proof. rewrite list_elem_of_fmap. split; [by intros (j & [= ->] & ?)|eauto]. Qed.
Lemma head_not_page k (l : list nat) : (∀ i, k ≠ PageNode i) → k ∉ PageNode <$> l.
Proof. intros Hk (i & -> & _)%list_elem_of_fmap. by eapply Hk. Qed.

(** Task lists are not affected by a change of the free list, and conversely. *)
Lemma task_list_frame fl tl p h i t l : pages_inv fl tl p →
  (∀ k, k ∉ PagesHead :: PageNode i :: (PageNode <$> fl) → h !! k = pg_nodes p !! k) →
  (∀ l, tl !! t = Some l → i ∉ l) →
  tl !! t = Some l → dlist h (TaskPages t) (PageNode <$> l).
Proof.
  intros I Hk Hi Hl. eapply dlist_frame, (pi_task _ _ _ I), Hl. intros k Hin. apply Hk.
  apply elem_of_cons in Hin as [->|Hin].
  - rewrite !not_elem_of_cons. split_and!; [done..|]. by apply head_not_page.
  - apply list_elem_of_fmap in Hin as (j & -> & Hj). rewrite !not_elem_of_cons. split_and!; [done| |].
    + intros [= ->]. by apply (Hi l Hl).
    + rewrite page_node_elem, (pi_inuse _ _ _ I). intros [_ Hu]. by apply Hu, (pi_used _ _ _ I t l).
Qed.

(** [alloc_page] on every branch: it takes the first free page and zeroes it, or
    stops the machine. *)
Lemma alloc_page_empty tl m p : pages_inv [] tl p → mem_free m →
  alloc_page (m, p) = Panic "alloc_page: memory exhausted" (acq L_mem m, p).
Proof.
  intros I Hq. unfold alloc_page. run (pm_get m p Hq). unfold bind at 1, deref at 1. cbn.
  rewrite (dlist_first _ _ _ (pi_free _ _ _ I)). cbn. done.
Qed.
Lemma alloc_page_spec i fl tl m p : pages_inv (i :: fl) tl p → mem_free m →
  ∃ p', alloc_page (m, p) = Ok i (touch m, p') ∧ pages_inv fl tl p' ∧ (i < NPAGE)%nat ∧
    i ∉ pg_inuse p ∧ pg_inuse p' = {[ i ]} ∪ pg_inuse p ∧
    page_data p' i = zero_page ∧ (∀ j, j ≠ i → page_data p' j = page_data p j) ∧
    (∀ t l, tl !! t = Some l → i ∉ l).
Proof.
  intros I Hq. destruct (proj1 (pi_inuse _ _ _ I i)) as [Hi Hu]; [by left|].
  assert (Ht : ∀ t l, tl !! t = Some l → i ∉ l).
  { intros t l Hl Hin. by apply Hu, (pi_used _ _ _ I t l). }
  destruct (list_remove_spec (pg_nodes p) PagesHead [] (PageNode i) (PageNode <$> fl)) as (h & Eh & Hd & _ & Hf & Hs);
    [apply (pi_free _ _ _ I)|].
  eexists. split.
  { unfold alloc_page. run (pm_get m p Hq). unfold bind at 1, deref at 1. cbn.
    rewrite (dlist_first _ _ _ (pi_free _ _ _ I)). cbn.
    rewrite bool_decide_eq_false_2 by done. unfold inuse_op. go.
    run (nodes_op_ok (list_remove (PageNode i)) (acq L_mem m) (set_inuse (union {[ i ]}) p) h Eh).
    run (pm_put m (set_nodes h (set_inuse (union {[ i ]}) p)) Hq). go. done. }
  pose proof (pi_free _ _ _ I) as [Hnd _]. apply NoDup_cons in Hnd as [_ Hnd]. apply NoDup_fmap_1, NoDup_cons in Hnd as [Hni Hnd].
  split.
  - split; cbn.
    + done.
    + intros t l Hl. eapply (task_list_frame (i :: fl) tl p h i); try done.
      * intros k Hk. apply Hf. cbn. set_solver.
      * intros l' Hl'. by apply (Ht t).
    + intros j. rewrite elem_of_union, elem_of_singleton. split.
      * intros Hj. destruct (proj1 (pi_inuse _ _ _ I j)) as [? ?]; [by right|]. split; [done|].
        intros [->|?]; done.
      * intros [H1 H2]. assert (Hj : j ∈ i :: fl) by (apply (pi_inuse _ _ _ I); tauto).
        apply elem_of_cons in Hj as [->|]; [tauto|done].
    + intros t l j Hl Hj. destruct (pi_used _ _ _ I t l j Hl Hj). set_solver.
    + apply (pi_disj _ _ _ I).
    + intros j Hj. by apply Hs, (pi_nodes _ _ _ I).
    + intros j d. destruct (decide (i = j)) as [<-|].
      * rewrite lookup_insert_eq. intros [= <-]. apply zero_page_ok.
      * rewrite lookup_insert_ne by done. apply (pi_data _ _ _ I).
  - split_and!; [done|done|done| | |done].
    + unfold page_data. cbn. by rewrite lookup_insert_eq.
    + intros j Hj. unfold page_data. cbn. by rewrite lookup_insert_ne.
Qed.

(** The pages [n] left the free list; the other pages keep their contents. *)
Definition took (n fl : list nat) (p : pmem) (fl' : list nat) (p' : pmem) : Prop :=
  fl = n ++ fl' ∧ pg_inuse p' = list_to_set n ∪ pg_inuse p ∧ ∀ j, j ∉ n → page_data p' j = page_data p j.
Lemma took_nil fl p : took [] fl p fl p.
Proof. split_and!; [done|set_solver|done]. Qed.

(** The pages of [tl] lists do not move when page [i], which is on none, is pushed
    on the free list. *)
Lemma free_page_double i fl tl m p : pages_inv fl tl p → mem_free m → i ∉ pg_inuse p →
  free_page i (m, p) = Panic "free_page: double free page" (acq L_mem m, p).
Proof.
  intros I Hq Hi. unfold free_page. run (pm_get m p Hq). go. cbn. by rewrite bool_decide_eq_false_2.
Qed.
Lemma free_page_spec i fl tl m p : pages_inv fl tl p → mem_free m → i ∈ pg_inuse p → (i < NPAGE)%nat →
  (∀ t l, tl !! t = Some l → i ∉ l) →
  ∃ p', free_page i (m, p) = Ok tt (touch m, p') ∧ pages_inv (fl ++ [i]) tl p' ∧
    pg_inuse p' = pg_inuse p ∖ {[ i ]} ∧ pg_data p' = pg_data p.
Proof.
  intros I Hq Hu Hi Ht. assert (Hfl : i ∉ fl) by (rewrite (pi_inuse _ _ _ I); tauto).
  destruct (list_pushback_spec (pg_nodes p) PagesHead (PageNode <$> fl) (PageNode i)) as (h & Eh & Hd & Hf & Hs).
  { apply (pi_free _ _ _ I). }
  { rewrite not_elem_of_cons, page_node_elem. done. }
  { by apply (pi_nodes _ _ _ I). }
  eexists. split.
  { unfold free_page. run (pm_get m p Hq). go. cbn [snd]. rewrite bool_decide_eq_true_2 by done. cbn [negb].
    unfold inuse_op. go. cbn [fst snd].
    run (nodes_op_ok (list_pushback PagesHead (PageNode i)) (acq L_mem m) (set_inuse (λ u, u ∖ {[ i ]}) p) h Eh).
    exact (pm_put m (set_nodes h (set_inuse (λ u, u ∖ {[ i ]}) p)) Hq). }
  split; [|done]. split; cbn.
  - by rewrite fmap_app.
  - intros t l Hl. eapply (task_list_frame fl tl p h i); try done. intros l'. apply Ht.
  - intros j. rewrite elem_of_app, list_elem_of_singleton, (pi_inuse _ _ _ I), elem_of_difference, elem_of_singleton.
    split; [intros [[? ?]| ->]; [split; [done|]; tauto|split; [done|]; tauto]|].
    intros [? Hn]. destruct (decide (j = i)); [by right|left]. split; [done|]. tauto.
  - intros t l j Hl Hj. destruct (pi_used _ _ _ I t l j Hl Hj). split; [done|].
    rewrite elem_of_difference, elem_of_singleton. split; [done|]. intros ->. by apply (Ht t l).
  - apply (pi_disj _ _ _ I).
  - intros j Hj. by apply Hs, (pi_nodes _ _ _ I).
  - apply (pi_data _ _ _ I).
Qed.

(** A page for task [t] joins the end of its list. *)
Lemma task_push_spec i fl tl t l p : pages_inv fl tl p → tl !! t = Some l → (i < NPAGE)%nat →
  i ∈ pg_inuse p → (∀ t l, tl !! t = Some l → i ∉ l) →
  ∃ h, list_pushback (TaskPages t) (PageNode i) (pg_nodes p) = Some h ∧
    pages_inv fl (<[t := l ++ [i]]> tl) (set_nodes h p).
Proof.
  intros I Hl Hi Hu Hn.
  destruct (list_pushback_spec (pg_nodes p) (TaskPages t) (PageNode <$> l) (PageNode i)) as (h & Eh & Hd & Hf & Hs).
  { by apply (pi_task _ _ _ I). }
  { rewrite not_elem_of_cons, page_node_elem. split; [done|by apply (Hn t)]. }
  { by apply (pi_nodes _ _ _ I). }
  exists h. split; [done|].
  assert (Hother : ∀ k, (∀ j, k = PageNode j → j ≠ i ∧ j ∉ l) → k ≠ TaskPages t → h !! k = pg_nodes p !! k).
  { intros k Hk Hkt. apply Hf. rewrite !not_elem_of_cons. split; [done|]. split.
    - intros ->. by destruct (Hk i eq_refl).
    - intros (j & -> & Hj)%list_elem_of_fmap. by destruct (Hk j eq_refl). }
  split; cbn.
  - eapply dlist_frame, (pi_free _ _ _ I). intros k [->|(j & -> & Hj)%list_elem_of_fmap]%elem_of_cons; apply Hother; try done.
    intros j' [= <-]. pose proof (proj1 (pi_inuse _ _ _ I j) Hj) as [_ Hju].
    split; [by intros ->|]. intros Hjl. by apply Hju, (pi_used _ _ _ I t l).
  - intros t' l' Hl'. destruct (decide (t = t')) as [<-|Hne].
    + rewrite lookup_insert_eq in Hl'. injection Hl' as <-. by rewrite fmap_app.
    + rewrite lookup_insert_ne in Hl' by done. eapply dlist_frame, (pi_task _ _ _ I), Hl'.
      intros k [->|(j & -> & Hj)%list_elem_of_fmap]%elem_of_cons; apply Hother; try done; [congruence|].
      intros j' [= <-]. split; [intros ->; by apply (Hn t' l')|]. intros Hjl.
      by apply Hne, (pi_disj _ _ _ I t t' l l' j).
  - apply (pi_inuse _ _ _ I).
  - intros t' l' j Hl' Hj. destruct (decide (t = t')) as [<-|Hne].
    + rewrite lookup_insert_eq in Hl'. injection Hl' as <-.
      apply elem_of_app in Hj as [Hj| ->%list_elem_of_singleton]; [by apply (pi_used _ _ _ I t l)|done].
    + rewrite lookup_insert_ne in Hl' by done. by apply (pi_used _ _ _ I t' l').
  - intros t1 t2 l1 l2 j. destruct (decide (t = t1)) as [<-|], (decide (t = t2)) as [<-|];
      rewrite ?lookup_insert_eq, ?lookup_insert_ne by done; try done.
    + intros [= <-] H2 [Hj| ->%list_elem_of_singleton]%elem_of_app Hj2; [by apply (pi_disj _ _ _ I t t2 l l2 j)|].
      by destruct (Hn t2 l2 H2).
    + intros H1 [= <-] Hj1 [Hj| ->%list_elem_of_singleton]%elem_of_app; [by apply (pi_disj _ _ _ I t1 t l1 l j)|].
      by destruct (Hn t1 l1 H1).
    + apply (pi_disj _ _ _ I).
  - intros j Hj. by apply Hs, (pi_nodes _ _ _ I).
  - apply (pi_data _ _ _ I).
Qed.

Lemma alloc_page_for_task_spec i fl tl t l m p : pages_inv (i :: fl) tl p → mem_free m → tl !! t = Some l →
  ∃ p', alloc_page_for_task t (m, p) = Ok i (touch m, p') ∧ pages_inv fl (<[t := l ++ [i]]> tl) p' ∧
    page_data p' i = zero_page ∧ took [i] (i :: fl) p fl p' ∧ (i < NPAGE)%nat ∧ i ∉ pg_inuse p.
Proof.
  intros I Hq Hl. destruct (alloc_page_spec i fl tl m p I Hq) as (p1 & E1 & I1 & Hi & Hni & Hu1 & Hz & Ho & Hn).
  destruct (task_push_spec i fl tl t l p1 I1 Hl Hi) as (h & Eh & I2); [rewrite Hu1; set_solver|done|].
  exists (set_nodes h p1). split; [|split_and!; [done..| |done|done]].
  2: { split_and!; [done|cbn; rewrite Hu1; set_solver|]. intros j Hj. apply Ho. set_solver. } unfold alloc_page_for_task. run E1.
  run (nodes_op_ok _ (touch m) p1 h Eh). done.
Qed.

Lemma task_remove_spec i fl tl t l1 l2 p : pages_inv fl tl p → tl !! t = Some (l1 ++ i :: l2) →
  ∃ h, list_remove (PageNode i) (pg_nodes p) = Some h ∧
    pages_inv fl (<[t := l1 ++ l2]> tl) (set_nodes h p).
Proof.
  intros I Hl. pose proof (pi_task _ _ _ I t _ Hl) as Hdl. rewrite fmap_app, fmap_cons in Hdl.
  pose proof Hdl as [Hnd _]. apply NoDup_cons in Hnd as [_ Hnd].
  destruct (list_remove_spec _ _ _ _ _ Hdl) as (h & Eh & Hd & _ & Hf & Hs). exists h. split; [done|].
  assert (Hother : ∀ k, (∀ j, k = PageNode j → j ∉ l1 ++ i :: l2) → k ≠ TaskPages t → h !! k = pg_nodes p !! k).
  { intros k Hk Hkt. apply Hf. rewrite not_elem_of_cons. split; [done|]. rewrite <- fmap_cons, <- fmap_app.
    intros (j & -> & Hj)%list_elem_of_fmap. by apply (Hk j). }
  assert (Hsub : ∀ t' l' j, <[t:=l1 ++ l2]> tl !! t' = Some l' → j ∈ l' → ∃ l0, tl !! t' = Some l0 ∧ j ∈ l0).
  { intros t' l' j Hl' Hj. destruct (decide (t = t')) as [<-|].
    - rewrite lookup_insert_eq in Hl'. injection Hl' as <-. eexists. split; [done|].
      rewrite elem_of_app in *. rewrite elem_of_cons. tauto.
    - rewrite lookup_insert_ne in Hl' by done. by exists l'. }
  split; cbn.
  - eapply dlist_frame, (pi_free _ _ _ I). intros k [->|(j & -> & Hj)%list_elem_of_fmap]%elem_of_cons; apply Hother; try done.
    intros j' [= <-] Hjl. pose proof (proj1 (pi_inuse _ _ _ I j) Hj) as [_ Hju]. by apply Hju, (pi_used _ _ _ I t _ j Hl).
  - intros t' l' Hl'. destruct (decide (t = t')) as [<-|Hne].
    + rewrite lookup_insert_eq in Hl'. injection Hl' as <-. by rewrite fmap_app.
    + rewrite lookup_insert_ne in Hl' by done. eapply dlist_frame, (pi_task _ _ _ I), Hl'.
      intros k [->|(j & -> & Hj)%list_elem_of_fmap]%elem_of_cons; apply Hother; try done; [congruence|].
      intros j' [= <-] Hjl. by apply Hne, (pi_disj _ _ _ I t t' _ l' j Hl Hl').
  - apply (pi_inuse _ _ _ I).
  - intros t' l' j Hl' Hj. destruct (Hsub t' l' j Hl' Hj) as (l0 & E0 & Hj0). by apply (pi_used _ _ _ I t' l0).
  - intros t1 t2 la lb j H1 H2 Hj1 Hj2. destruct (Hsub _ _ _ H1 Hj1) as (la' & ? & ?), (Hsub _ _ _ H2 Hj2) as (lb' & ? & ?).
    by apply (pi_disj _ _ _ I t1 t2 la' lb' j).
  - intros j Hj. by apply Hs, (pi_nodes _ _ _ I).
  - apply (pi_data _ _ _ I).
Qed.
Lemma free_page_for_task_spec i fl tl t l1 l2 m p : pages_inv fl tl p → mem_free m → tl !! t = Some (l1 ++ i :: l2) →
  ∃ p', free_page_for_task i (m, p) = Ok tt (touch m, p') ∧
    pages_inv (fl ++ [i]) (<[t := l1 ++ l2]> tl) p' ∧ pg_data p' = pg_data p ∧ pg_inuse p' = pg_inuse p ∖ {[ i ]}.
Proof.
  intros I Hq Hl. destruct (task_remove_spec i fl tl t l1 l2 p I Hl) as (h & Eh & I1).
  destruct (pi_used _ _ _ I t _ i Hl) as [Hi Hu]; [set_solver|].
  assert (Hn : i ∉ l1 ++ l2).
  { pose proof (pi_task _ _ _ I t _ Hl) as [Hnd _]. apply NoDup_cons in Hnd as [_ Hnd]. apply NoDup_fmap_1 in Hnd.
    apply NoDup_app in Hnd as (_ & H1 & H2). apply NoDup_cons in H2 as [H2 _].
    rewrite elem_of_app. intros [H3|H3]; [|done]. apply (H1 i H3). by left. }
  destruct (free_page_spec i fl _ m (set_nodes h p) I1 Hq Hu Hi) as (p' & E' & I' & Hu' & Hd).
  { intros t' l' Hl' Hin. destruct (decide (t = t')) as [<-|Hne].
    - rewrite lookup_insert_eq in Hl'. by injection Hl' as <-.
    - rewrite lookup_insert_ne in Hl' by done. apply Hne. eapply (pi_disj _ _ _ I t t'); [done..| |done]. set_solver. }
  exists p'. split; [|done]. unfold free_page_for_task. by run (nodes_op_ok (list_remove (PageNode i)) m p h Eh).
Qed.

(** ** [init_memory] *)

(** The state before it: [pages_head] is statically linked to itself and the
    page descriptors are zero. *)
Definition boot_pages : pmem :=
  MkPm (<[PagesHead := LNode (Some PagesHead) (Some PagesHead)]>
          (list_to_map ((λ i, (PageNode i, LNode None None)) <$> seq 0 NPAGE))) ∅ ∅.

#[global] Opaque NPAGE.
Lemma zero_nodes_lookup n i : (i < n)%nat →
  is_Some ((list_to_map ((λ i, (PageNode i, LNode None None)) <$> seq 0 n) : gmap pnode (list_node pnode)) !! PageNode i).
Proof.
  intros Hi. apply elem_of_dom. rewrite dom_list_to_map_L.
  apply elem_of_list_to_set. rewrite <- list_fmap_compose. apply list_elem_of_fmap. exists i. split; [done|].
  apply elem_of_seq. lia.
Qed.
Lemma boot_nodes i : (i < NPAGE)%nat → is_Some (pg_nodes boot_pages !! PageNode i).
Proof.
  intros Hi. unfold boot_pages. cbn [pg_nodes]. rewrite lookup_insert_ne by done. by apply zero_nodes_lookup.
Qed.
Lemma boot_head : dlist (pg_nodes boot_pages) PagesHead [].
Proof.
  split; [apply NoDup_singleton|]. unfold boot_pages. cbn [pg_nodes seg]. unfold link, nx, pv.
  rewrite lookup_insert_eq. split; reflexivity.
Qed.
(** Pages below [k] are reserved: the rest of the first [i] pages is free. *)
Record init_inv (k i : nat) (p : pmem) : Prop := {
  ii_free : dlist (pg_nodes p) PagesHead (PageNode <$> seq k (i - k));
  ii_inuse j : j ∈ pg_inuse p ↔ (j < i)%nat ∧ (j < k)%nat;
  ii_nodes j : (j < NPAGE)%nat → is_Some (pg_nodes p !! PageNode j);
  ii_data : pg_data p = ∅;
}.
Lemma init_loop_spec kend k n m p : align_up kend PGSIZE = paddr_of k → (n ≤ NPAGE)%nat →
  init_inv k (NPAGE - n) p →
  ∃ p', init_loop kend n (m, p) = Ok tt (m, p') ∧ init_inv k NPAGE p'.
Proof.
  intros Hk. revert p. induction n as [|n IH]; intros p Hn I.
  { exists p. by rewrite Nat.sub_0_r in I. }
  cbn [init_loop]. set (i := (NPAGE - S n)%nat) in *. rewrite Hk.
  replace (paddr_of i <? paddr_of k) with (i <? k)%nat.
  2: { unfold paddr_of, PGSIZE. destruct (Nat.ltb_spec i k), (Z.ltb_spec (PHY_MEMORY + Z.of_nat i * 4096) (PHY_MEMORY + Z.of_nat k * 4096)); lia. }
  assert (Ei : (NPAGE - n)%nat = S i) by lia. destruct I as [I1 I2 I3 I4].
  destruct (Nat.ltb_spec i k).
  - unfold inuse_op. go. cbn [fst snd]. apply IH; [lia|]. rewrite Ei. split; cbn; [|..|done|done].
    + replace (S i - k)%nat with (i - k)%nat by lia. done.
    + intros j. rewrite elem_of_union, elem_of_singleton, I2. lia.
  - destruct (list_pushback_spec (pg_nodes p) PagesHead (PageNode <$> seq k (i - k)) (PageNode i)) as (h & Eh & Hd & Hf & Hs).
    { done. }
    { rewrite not_elem_of_cons, page_node_elem, elem_of_seq. split; [done|lia]. }
    { apply I3. lia. }
    unfold inuse_op. go. cbn [fst snd].
    run (nodes_op_ok (list_pushback PagesHead (PageNode i)) m (set_inuse (λ u, u ∖ {[ i ]}) p) h Eh).
    apply IH; [lia|]. rewrite Ei. split; cbn.
    + replace (S i - k)%nat with (i - k + 1)%nat by lia. rewrite seq_app, fmap_app. cbn.
      by replace (k + (i - k))%nat with i by lia.
    + intros j. rewrite elem_of_difference, elem_of_singleton, I2. lia.
    + intros j Hj. by apply Hs, I3.
    + done.
Qed.
(** After [init_memory] every page from the end of the kernel on is free. *)
Lemma init_memory_spec kend k m : align_up kend PGSIZE = paddr_of k → (k ≤ NPAGE)%nat →
  ∃ p', init_memory kend (m, boot_pages) = Ok tt (m, p') ∧ pages_inv (seq k (NPAGE - k)) ∅ p'.
Proof.
  intros Hk Hkn. destruct (init_loop_spec kend k NPAGE m boot_pages Hk) as (p' & E & [I1 I2 I3 I4]); [done| |].
  - rewrite Nat.sub_diag. split.
    + apply boot_head.
    + intros j. cbn [boot_pages pg_inuse]. rewrite elem_of_empty. lia.
    + apply boot_nodes.
    + reflexivity.
  - exists p'. split; [exact E|]. split.
    + exact I1.
    + intros t l Hl. rewrite lookup_empty in Hl. discriminate Hl.
    + intros i. rewrite elem_of_seq, I2. lia.
    + intros t l i Hl. rewrite lookup_empty in Hl. discriminate Hl.
    + intros t t' l l' i Hl. rewrite lookup_empty in Hl. discriminate Hl.
    + exact I3.
    + intros i d Hd. rewrite I4, lookup_empty in Hd. discriminate Hd.
Qed.
