(* ===== verification/Vm.v ===== *)
(** Virtual memory (kernel/mem/vm.h, kernel/mem/vm.c): the three-level page
    tables of a RISC-V Sv39 machine, walked and edited in physical memory, and the
    copies between kernel and user memory. *)
From S2P Require Import Prelude Bytes ListNode Machine PageAlloc.

Definition PTE_V : Z := 1.
Definition PTE_R : Z := 2.
Definition PTE_W : Z := 4.
Definition PTE_X : Z := 8.
Definition PTE_U : Z := 16.
Definition PTE_RWX : Z := Z.lor (Z.lor PTE_R PTE_W) PTE_X.
Definition S_PAGE : Z := 0.
Definition M_PAGE : Z := 1.
Definition G_PAGE : Z := 2.

(** [va_level(va, level)]. *)
Definition va_level (va : Z) (level : nat) : Z :=
  Z.land (Z.shiftr (Z.shiftr va 12) (9 * Z.of_nat level)) 0x1FF.
(** [((pa >> 12) << 10) | PTE_V] and [( *pte >> 10) << 12]. *)
Definition pte_of (pa : Z) : Z := Z.lor (Z.shiftl (Z.shiftr pa 12) 10) PTE_V.
Definition pa_of_pte (pte : Z) : Z := u64 (Z.shiftl (Z.shiftr pte 10) 12).

(** A [pte_t] of physical memory: only RAM can be accessed. *)
Definition ram_page (a : Z) : option nat :=
  if (PHY_MEMORY <=? a) && (a <? PHY_TOP) then Some (page a) else None.
Definition page_off (a : Z) : nat := Z.to_nat (a mod PGSIZE).
Definition ld64 (a : Z) : PM Z :=
  deref (λ s, i ← ram_page a; Some (get_at 8 (page_off a) (page_data s.2 i))).
Definition put_page (i : nat) (d : list Z) (p : pmem) : pmem := set_data (insert i d) p.
Definition st64 (a v : Z) : PM unit :=
  update (λ s, i ← ram_page a; Some (s.1, put_page i (put_at 8 (page_off a) v (page_data s.2 i)) s.2)).

(** The loop of [do_vmmap] over the levels, from [level] down. *)
Fixpoint map_levels (level : nat) (cur va pa attr gra : Z) (ut : option nat) : PM unit :=
  let pte := u64 (cur + 8 * va_level va level) in
  if Z.of_nat level =? gra then st64 pte (Z.lor (pte_of pa) attr)
  else
    let! v := ld64 pte in
    (if Z.land v PTE_V =? 0 then
       let! i := alloc_page in
       match ut with
       | Some t => nodes_op (list_pushback (TaskPages t) (PageNode i))
       | None => ret tt
       end ;;
       st64 pte (pte_of (paddr_of i))
     else ret tt) ;;
    let! v := ld64 pte in
    match level with
    | O => ret tt
    | S level => map_levels level (pa_of_pte v) va pa attr gra ut
    end.
(** [for (; va < bound; va += delta, pa += delta)]. *)
Fixpoint map_loop (fuel : nat) (ptb va pa bound delta attr gra : Z) (ut : option nat) : PM unit :=
  if va <? bound then
    match fuel with
    | O => fault
    | S fuel =>
      map_levels 2 ptb va pa attr gra ut ;;
      map_loop fuel ptb (u64 (va + delta)) (u64 (pa + delta)) bound delta attr gra ut
    end
  else ret tt.
Definition do_vmmap (ptb va pa size attr gra : Z) (ut : option nat) : PM unit :=
  if negb (va mod PGSIZE =? 0) || negb (pa mod PGSIZE =? 0) then panic "do_vmmap: not aligned" else
  if (VA_TOP <? u64 (va + size)) || (PHY_TOP <? u64 (pa + size)) then panic "do_vmmap: out of range" else
  let! delta :=
    (if gra =? S_PAGE then ret PGSIZE
     else if gra =? M_PAGE then ret MPGSIZE
     else if gra =? G_PAGE then ret GPGSIZE
     else panic "do_vmmap: unknown gra") in
  let bound := align_up (u64 (va + size)) delta in
  map_loop (Z.to_nat (bound / delta)) ptb va pa bound delta attr gra ut.
Definition svmmap (ptb va pa size attr : Z) (ut : option nat) : PM unit :=
  do_vmmap ptb va pa size attr S_PAGE ut.
Definition mvmmap (ptb va pa size attr : Z) : PM unit :=
  do_vmmap ptb va pa size attr M_PAGE None.

(** The loops of [vmunmap]. *)
Fixpoint unmap_levels (level : nat) (cur va : Z) : PM unit :=
  let pte := u64 (cur + 8 * va_level va level) in
  let! v := ld64 pte in
  if Z.land v PTE_V =? 0 then ret tt else
  match level with
  | O => st64 pte 0
  | S level => unmap_levels level (pa_of_pte v) va
  end.
Fixpoint unmap_loop (fuel : nat) (ptb va bound : Z) : PM unit :=
  if va <? bound then
    match fuel with
    | O => fault
    | S fuel => unmap_levels 2 ptb va ;; unmap_loop fuel ptb (u64 (va + PGSIZE)) bound
    end
  else ret tt.
Definition vmunmap (ptb va size : Z) : PM unit :=
  if negb (va mod PGSIZE =? 0) then panic "vmunmap: not aligned" else
  if VA_TOP <? u64 (va + size) then panic "vmunmap: out of range" else
  let bound := align_up (u64 (va + size)) PGSIZE in
  unmap_loop (Z.to_nat (bound / PGSIZE)) ptb va bound.

(** [get_pte]: the address of the leaf entry. *)
Fixpoint pte_levels (level : nat) (cur va : Z) : PM (option Z) :=
  let pte := u64 (cur + 8 * va_level va level) in
  let! v := ld64 pte in
  if Z.land v PTE_V =? 0 then ret None else
  if negb (Z.land v PTE_RWX =? 0) then ret (Some pte) else
  match level with
  | O => ret None
  | S level => pte_levels level (pa_of_pte v) va
  end.
Definition get_pte (ptb va : Z) : PM (option Z) := pte_levels 2 ptb va.
(** [va_to_pa]: the physical address, and the entry stored through [p] when the
    address is mapped. *)
Definition va_to_pa (ptb va : Z) : PM (Z * option Z) :=
  let! pte := get_pte ptb va in
  match pte with
  | None => ret (0, None)
  | Some pte =>
    let! v := ld64 pte in
    if Z.land v PTE_RWX =? 0 then ret (0, None) else
    let ppn := Z.land (Z.shiftr v 10) (Z.shiftl 1 44 - 1) in
    ret (Z.lor (u64 (Z.shiftl ppn 12)) (Z.land va (PGSIZE - 1)), Some pte)
  end.

(** [copy_to_user] and [copy_from_user] in the address space of page table [ptb];
    [data] are the bytes at [ksrc].  [kill] ends the running task. *)
Section copy.
Context (kill : PM unit) (ptb : Z).

Definition user_len (u pend : Z) : Z := u32 (cmin (u64 (align_up (u64 (u + 1)) PGSIZE - u)) pend).
(** [memcpy] to and from [len] bytes at physical address [pa]. *)
Definition st_bytes (pa : Z) (data : list Z) : PM unit :=
  update (λ s, i ← ram_page pa;
    if decide (page_off pa + length data ≤ PGBYTES)%nat
    then Some (s.1, put_page i (blit (page_off pa) data (page_data s.2 i)) s.2) else None).
Definition ld_bytes (pa : Z) (len : nat) : PM (list Z) :=
  deref (λ s, i ← ram_page pa;
    if decide (page_off pa + len ≤ PGBYTES)%nat
    then Some (take len (drop (page_off pa) (page_data s.2 i))) else None).
Definition check_user (perm : Z) (r : Z * option Z) : PM unit :=
  if r.1 =? 0 then kill else
  let! pte := deref (λ _, r.2) in
  let! v := ld64 pte in
  when (negb (Z.land v (Z.lor perm PTE_U) =? Z.lor perm PTE_U)) kill.
Fixpoint copy_to_user (fuel : nat) (ud : Z) (data : list Z) : PM unit :=
  match data with
  | [] => ret tt
  | _ :: _ =>
    match fuel with
    | O => fault
    | S fuel =>
      let len := Z.to_nat (user_len ud (Z.of_nat (length data))) in
      let! r := va_to_pa ptb ud in
      check_user PTE_W r ;;
      st_bytes r.1 (take len data) ;;
      copy_to_user fuel (u64 (ud + Z.of_nat len)) (drop len data)
    end
  end.
Fixpoint copy_from_user (fuel : nat) (us : Z) (bytes : nat) : PM (list Z) :=
  match bytes with
  | O => ret []
  | S _ =>
    match fuel with
    | O => fault
    | S fuel =>
      let len := Z.to_nat (user_len us (Z.of_nat bytes)) in
      let! r := va_to_pa ptb us in
      check_user PTE_R r ;;
      let! d := ld_bytes r.1 len in
      let! rest := copy_from_user fuel (u64 (us + Z.of_nat len)) (bytes - len) in
      ret (d ++ rest)
    end
  end.

(** [argstr] (kernel/syscall/syscall.c): the string at the physical address of
    [uaddr], copied to an array of [MAX_PATH_LENGTH] zeros; [None] when it does not
    fit.  [strlen] runs through physical memory, [n] pages left. *)
Fixpoint zero_at (d : list Z) : option nat :=
  match d with [] => None | v :: d => if v =? 0 then Some O else S <$> zero_at d end.
Fixpoint phys_str (n i off : nat) (p : pmem) : option (list Z) :=
  match n with
  | O => None
  | S n =>
    let d := drop off (page_data p i) in
    match zero_at d with
    | Some k => Some (take k d)
    | None => app d <$> phys_str n (S i) 0 p
    end
  end.
Definition argstr (uaddr : Z) : PM (option (list Z)) :=
  let! r := va_to_pa ptb uaddr in
  check_user PTE_R r ;;
  let! w := deref (λ s, i ← ram_page r.1; phys_str (NPAGE - i) i (page_off r.1) s.2) in
  ret (if decide (Z.of_nat (length w) + 1 > Z.of_nat MAX_PATH_LENGTH) then None
       else Some (blit 0 w (replicate MAX_PATH_LENGTH 0))).
End copy.

(** ** Entries of table pages *)

Definition entry (p : pmem) (i : nat) (k : Z) : Z := get_at 8 (Z.to_nat (8 * k)) (page_data p i).
Definition put_entry (i : nat) (k v : Z) (p : pmem) : pmem :=
  put_page i (put_at 8 (Z.to_nat (8 * k)) v (page_data p i)) p.
Definition idx (k : Z) : Prop := 0 ≤ k < 512.
(** All pages have their size. *)
Definition mem_ok (p : pmem) : Prop := ∀ i, length (page_data p i) = PGBYTES ∧ bytes_ok (page_data p i).

Lemma inv_mem_ok fl tl p : pages_inv fl tl p → mem_ok p.
Proof. intros I i. by eapply page_data_ok. Qed.
Lemma va_level_idx va l : idx (va_level va l).
Proof.
  unfold va_level, idx. change 0x1FF with (Z.ones 9). rewrite Z.land_ones by lia.
  apply Z.mod_pos_bound. lia.
Qed.
Lemma pte_addr i k : (i < NPAGE)%nat → idx k →
  u64 (paddr_of i + 8 * k) = paddr_of i + 8 * k ∧
  ram_page (paddr_of i + 8 * k) = Some i ∧ page_off (paddr_of i + 8 * k) = Z.to_nat (8 * k).
Proof.
  intros Hi Hk. unfold idx in Hk. pose proof NPAGE_Z as HN. unfold paddr_of, ram_page, page, page_off, PHY_MEMORY, PHY_TOP, PGSIZE.
  rewrite u64_id by lia. split; [done|].
  replace (PHY_MEMORY + PHY_SIZE) with 0xA0000000 by reflexivity.
  destruct (Z.leb_spec 0x80000000 (0x80000000 + Z.of_nat i * 4096 + 8 * k)); [|lia].
  destruct (Z.ltb_spec (0x80000000 + Z.of_nat i * 4096 + 8 * k) 0xA0000000); [|lia]. cbn [andb]. split.
  - f_equal. rewrite u64_id by lia. rewrite <- (Z.div_unique _ 4096 (Z.of_nat i) (8 * k)) by lia. lia.
  - f_equal. rewrite <- (Z.mod_unique _ 4096 (524288 + Z.of_nat i) (8 * k)) by lia. done.
Qed.
Lemma ld64_entry i k m p : (i < NPAGE)%nat → idx k →
  ld64 (u64 (paddr_of i + 8 * k)) (m, p) = Ok (entry p i k) (m, p).
Proof.
  intros Hi Hk. destruct (pte_addr i k Hi Hk) as (E1 & E2 & E3). rewrite E1.
  unfold ld64, deref. rewrite E2. cbn. by rewrite E3.
Qed.
Lemma st64_entry i k v m p : (i < NPAGE)%nat → idx k →
  st64 (u64 (paddr_of i + 8 * k)) v (m, p) = Ok tt (m, put_entry i k v p).
Proof.
  intros Hi Hk. destruct (pte_addr i k Hi Hk) as (E1 & E2 & E3). rewrite E1.
  unfold st64, update. rewrite E2. cbn. by rewrite E3.
Qed.
Lemma page_data_put i d p j : page_data (put_page i d p) j = if decide (j = i) then d else page_data p j.
Proof.
  unfold page_data, put_page. cbn. case_decide; [subst; by rewrite lookup_insert_eq|by rewrite lookup_insert_ne].
Qed.
Lemma entry_put i k v p j k' : mem_ok p → idx k → idx k' → 0 ≤ v < 2 ^ 64 →
  entry (put_entry i k v p) j k' = if decide (j = i ∧ k' = k) then v else entry p j k'.
Proof.
  intros Hm Hk Hk' Hv. unfold idx in *. unfold entry, put_entry. rewrite page_data_put.
  destruct (Hm i) as [Hl _]. change PGBYTES with 4096%nat in Hl.
  destruct (decide (j = i)) as [->|]; [|by rewrite decide_False by tauto].
  destruct (decide (k' = k)) as [->|].
  - rewrite decide_True by done. rewrite get_put_same by lia. apply Z.mod_small. done.
  - rewrite decide_False by tauto. apply get_put_ne; lia.
Qed.
Lemma mem_ok_put i d p : mem_ok p → length d = PGBYTES → bytes_ok d → mem_ok (put_page i d p).
Proof. intros Hm Hl Hd j. rewrite page_data_put. case_decide; [done|apply Hm]. Qed.
Lemma pages_inv_put fl tl i d p : pages_inv fl tl p → length d = PGBYTES → bytes_ok d →
  pages_inv fl tl (put_page i d p).
Proof.
  intros [I1 I2 I3 I4 I5 I6 I7] Hl Hd. split; try done. intros j d'. cbn.
  destruct (decide (i = j)) as [<-|]; [rewrite lookup_insert_eq; by intros [= <-]|].
  rewrite lookup_insert_ne by done. apply I7.
Qed.
Lemma pages_inv_entry fl tl i k v p : pages_inv fl tl p → idx k → pages_inv fl tl (put_entry i k v p).
Proof.
  intros I Hk. destruct (page_data_ok _ _ _ i I) as [Hl Hb]. apply pages_inv_put; [done| |by apply bytes_ok_put_at].
  change PGBYTES with 4096%nat in *. unfold idx in Hk. rewrite length_put_at; lia.
Qed.
Lemma entry_bound p i k : mem_ok p → idx k → 0 ≤ entry p i k < 2 ^ 64.
Proof.
  intros Hm Hk. destruct (Hm i) as [Hl Hb]. change PGBYTES with 4096%nat in Hl. unfold idx in Hk.
  apply (get_at_bound 8); [done|lia].
Qed.
Lemma entry_zero p i k : page_data p i = zero_page → idx k → entry p i k = 0.
Proof.
  intros Hz Hk. unfold entry, get_at. rewrite Hz. unfold zero_page. rewrite drop_replicate, take_replicate.
  induction (_ `min` _)%nat as [|n IH]; [done|]. cbn. rewrite IH. done.
Qed.

(** ** Encodings of entries *)

Lemma flags_lt : 0 ≤ PTE_V < 2 ^ 10 ∧ 0 ≤ PTE_RWX < 2 ^ 10.
Proof. unfold PTE_V. change PTE_RWX with 14. lia. Qed.
(** An entry with page frame number [q] and flags [r]. *)
Lemma pte_of_frame q : pte_of (q * 2 ^ 12) = q * 2 ^ 10 + 1.
Proof.
  unfold pte_of, PTE_V. rewrite <- (Z.add_0_r (q * 2 ^ 12)), shiftr_mul_pow2, Z.shiftl_mul_pow2 by lia.
  apply lor_mul_pow2; lia.
Qed.
Lemma leaf_of_frame q attr : 0 ≤ attr < 2 ^ 10 → Z.lor (pte_of (q * 2 ^ 12)) attr = q * 2 ^ 10 + Z.lor 1 attr.
Proof.
  intros Ha. rewrite pte_of_frame, <- (lor_mul_pow2 q 1 10), <- Z.lor_assoc by lia. apply lor_mul_pow2; [lia|].
  split; [apply Z.lor_nonneg; lia|]. destruct (decide (attr = 0)) as [->|]; [by vm_compute|].
  apply Z.log2_lt_pow2.
  - assert (0 ≤ Z.lor 1 attr) by (apply Z.lor_nonneg; lia). assert (Z.lor 1 attr ≠ 0); [|lia].
    intros [? _]%Z.lor_eq_0_iff. lia.
  - rewrite Z.log2_lor by lia. apply Z.max_lub_lt; [by cbn|]. apply Z.log2_lt_pow2; lia.
Qed.
Lemma pa_of_frame q r : 0 ≤ q < 2 ^ 44 → 0 ≤ r < 2 ^ 10 → pa_of_pte (q * 2 ^ 10 + r) = q * 2 ^ 12.
Proof.
  intros Hq Hr. unfold pa_of_pte. rewrite shiftr_mul_pow2, Z.shiftl_mul_pow2 by lia. apply u64_id. lia.
Qed.
Lemma paddr_frame i : paddr_of i = (2 ^ 19 + Z.of_nat i) * 2 ^ 12.
Proof. unfold paddr_of, PHY_MEMORY, PGSIZE. lia. Qed.

Lemma table_pte i : (i < NPAGE)%nat → let v := pte_of (paddr_of i) in
  0 ≤ v < 2 ^ 64 ∧ Z.land v PTE_V = 1 ∧ Z.land v PTE_RWX = 0 ∧ pa_of_pte v = paddr_of i.
Proof.
  intros Hi v. pose proof NPAGE_Z as HN. unfold v. rewrite paddr_frame, pte_of_frame.
  destruct flags_lt as [F1 F2].
  rewrite (land_mul_pow2 _ 1 PTE_V 10), (land_mul_pow2 _ 1 PTE_RWX 10) by (lia || done).
  split; [lia|]. split; [done|]. split; [done|].
  apply pa_of_frame; lia.
Qed.

(** ** The tree of table pages

    [pt] maps a path of indices from the root to the page of the table there:
    [[]] is the root, [[a]] a middle table, [[a; b]] a table of leaf entries.
    Every table page has one place in the tree, an entry of a table above the
    leaves that leads nowhere is invalid, and all pages of the tree are in use. *)
Record pt_inv (root : nat) (pt : gmap (list Z) nat) (p : pmem) : Prop := {
  pt_root : pt !! [] = Some root;
  pt_page x i : pt !! x = Some i → (i < NPAGE)%nat ∧ i ∈ pg_inuse p;
  pt_inj x y i : pt !! x = Some i → pt !! y = Some i → x = y;
  pt_path x k j : pt !! (x ++ [k]) = Some j → (length x ≤ 1)%nat ∧ idx k ∧ is_Some (pt !! x);
  pt_child x k i j : pt !! x = Some i → pt !! (x ++ [k]) = Some j → entry p i k = pte_of (paddr_of j);
  pt_none x k i : pt !! x = Some i → (length x ≤ 1)%nat → idx k → pt !! (x ++ [k]) = None →
    Z.land (entry p i k) PTE_V = 0;
}.
(** The leaf entry for the indices [a], [b], [c]. *)
Definition leaf (pt : gmap (list Z) nat) (p : pmem) (a b c : Z) : Z :=
  match pt !! [a; b] with Some i => entry p i c | None => 0 end.

Lemma path_snoc (x y : list Z) k k' : x ++ [k] = y ++ [k'] → x = y ∧ k = k'.
Proof. apply app_inj_tail. Qed.

(** A new table below entry [k] of the table at [x]. *)
Lemma pt_extend root pt p p1 p2 x k i j : pt_inv root pt p → mem_ok p1 →
  pt !! x = Some i → (length x ≤ 1)%nat → idx k → pt !! (x ++ [k]) = None →
  (j < NPAGE)%nat → j ∉ pg_inuse p → pg_inuse p1 = {[ j ]} ∪ pg_inuse p → page_data p1 j = zero_page →
  (∀ n, n ≠ j → page_data p1 n = page_data p n) →
  p2 = put_entry i k (pte_of (paddr_of j)) p1 →
  pt_inv root (<[x ++ [k] := j]> pt) p2 ∧
  (∀ a b c, idx c → leaf (<[x ++ [k] := j]> pt) p2 a b c = leaf pt p a b c).
Proof.
  intros P Hm Hx Hlen Hk Hnone Hj Hju Hu Hz Ho ->. destruct (table_pte j Hj) as (Hv & _).
  assert (Hfresh : ∀ y, pt !! y ≠ Some j) by (intros y Hy; by apply Hju, (pt_page _ _ _ P y)).
  assert (He : ∀ n k', n ≠ j → idx k' → entry (put_entry i k (pte_of (paddr_of j)) p1) n k' =
    if decide (n = i ∧ k' = k) then pte_of (paddr_of j) else entry p n k').
  { intros n k' Hn Hk'. rewrite entry_put by done. case_decide; [done|]. unfold entry. by rewrite Ho. }
  assert (Hij : i ≠ j) by (intros ->; by apply (Hfresh x)).
  assert (Hez : ∀ k', idx k' → entry (put_entry i k (pte_of (paddr_of j)) p1) j k' = 0).
  { intros k' Hk'. rewrite entry_put by done. rewrite decide_False by naive_solver. by apply entry_zero. }
  assert (Hsub : ∀ k', pt !! ((x ++ [k]) ++ [k']) = None).
  { intros k'. destruct (pt !! ((x ++ [k]) ++ [k'])) eqn:E; [|done].
    destruct (pt_path _ _ _ P _ _ _ E) as (_ & _ & [? ?]). congruence. }
  split.
  - split.
    + rewrite lookup_insert_ne by (by destruct x). apply P.
    + intros y n. destruct (decide (y = x ++ [k])) as [->|Hy].
      * rewrite lookup_insert_eq. intros [= <-]. split; [done|]. cbn. rewrite Hu. set_solver.
      * rewrite lookup_insert_ne by done. intros Hn. destruct (pt_page _ _ _ P y n Hn). split; [done|]. cbn. rewrite Hu. set_solver.
    + intros y z n. destruct (decide (y = x ++ [k])) as [->|Hy], (decide (z = x ++ [k])) as [->|Hzn];
        rewrite ?lookup_insert_eq, ?lookup_insert_ne by done; [done| | |apply (pt_inj _ _ _ P)].
      * intros [= <-] Hn. by destruct (Hfresh z).
      * intros Hn [= <-]. by destruct (Hfresh y).
    + intros y k' n. destruct (decide (y ++ [k'] = x ++ [k])) as [E|Hy].
      * apply path_snoc in E as [-> ->]. rewrite lookup_insert_eq. intros _. split; [done|]. split; [done|].
        rewrite lookup_insert_ne; [by eexists|]. intros E. apply (f_equal length) in E. rewrite length_app in E. cbn in E. lia.
      * rewrite lookup_insert_ne by done. intros Hn. destruct (pt_path _ _ _ P _ _ _ Hn) as (? & ? & [m Hm']).
        split; [done|]. split; [done|]. destruct (decide (y = x ++ [k])) as [->|]; [rewrite lookup_insert_eq; by eexists|].
        rewrite lookup_insert_ne by done. by eexists.
    + intros y k' n n'. destruct (decide (y ++ [k'] = x ++ [k])) as [E|Hy].
      * apply path_snoc in E as [-> ->]. rewrite lookup_insert_eq, lookup_insert_ne.
        2: { intros E. apply (f_equal length) in E. rewrite length_app in E. cbn in E. lia. }
        intros Hn [= <-]. assert (n = i) as -> by congruence. rewrite He by done. by rewrite decide_True.
      * rewrite (lookup_insert_ne _ _ (y ++ [k'])) by done. destruct (decide (y = x ++ [k])) as [->|].
        { rewrite Hsub. done. }
        rewrite lookup_insert_ne by done. intros Hn Hn'. destruct (pt_path _ _ _ P _ _ _ Hn') as (_ & Hk' & _).
        rewrite He; [|by intros ->; apply (Hfresh y)|done].
        rewrite decide_False; [by apply (pt_child _ _ _ P y)|]. intros [-> ->].
        destruct Hy. f_equal. by apply (pt_inj _ _ _ P y x i).
    + intros y k' n. destruct (decide (y = x ++ [k])) as [->|].
      * rewrite lookup_insert_eq. intros [= <-] _ Hk' _. by rewrite Hez.
      * rewrite lookup_insert_ne by done. intros Hn Hl Hk'. destruct (decide (y ++ [k'] = x ++ [k])) as [E|Hy].
        { rewrite E, lookup_insert_eq. done. }
        rewrite lookup_insert_ne by done. intros Hnone'. rewrite He; [|by intros ->; apply (Hfresh y)|done].
        rewrite decide_False; [by apply (pt_none _ _ _ P y)|]. intros [-> ->].
        destruct Hy. f_equal. by apply (pt_inj _ _ _ P y x i).
  - intros a b c Hc. unfold leaf. destruct (decide ([a; b] = x ++ [k])) as [E|Hab].
    + rewrite E, lookup_insert_eq, Hnone. by apply Hez.
    + rewrite lookup_insert_ne by done. destruct (pt !! [a; b]) as [u|] eqn:En; [|done].
      rewrite He; [|by intros ->; apply (Hfresh [a; b])|done]. rewrite decide_False; [done|]. intros [-> ->].
      pose proof (pt_inj _ _ _ P _ _ _ En Hx) as <-. cbn in Hlen. lia.
Qed.

(** A store to a leaf entry. *)
Lemma pt_leaf_store root pt p a b i k v : pt_inv root pt p → mem_ok p → pt !! [a; b] = Some i → idx k →
  0 ≤ v < 2 ^ 64 →
  pt_inv root pt (put_entry i k v p) ∧
  (∀ a' b' c, idx c → leaf pt (put_entry i k v p) a' b' c =
     if decide (a' = a ∧ b' = b ∧ c = k) then v else leaf pt p a' b' c).
Proof.
  intros P Hm Hi Hk Hv.
  assert (He : ∀ y n k', pt !! y = Some n → y ≠ [a; b] → idx k' → entry (put_entry i k v p) n k' = entry p n k').
  { intros y n k' Hy Hne Hk'. rewrite entry_put by done. rewrite decide_False; [done|]. intros [-> _].
    by apply Hne, (pt_inj _ _ _ P y [a; b] i). }
  split.
  - split; try apply P.
    + intros y k' n n' Hy Hn'. destruct (pt_path _ _ _ P _ _ _ Hn') as (Hl & Hk' & _).
      rewrite (He y); [by apply (pt_child _ _ _ P y)|done| |done]. intros ->. cbn in Hl. lia.
    + intros y k' n Hy Hl Hk' Hn. rewrite (He y); [by apply (pt_none _ _ _ P y)|done| |done]. intros ->. cbn in Hl. lia.
  - intros a' b' c Hc. unfold leaf. destruct (decide ([a'; b'] = [a; b])) as [E|Hne].
    + injection E as -> ->. rewrite Hi, entry_put by done. repeat case_decide; tauto || done.
    + rewrite decide_False by naive_solver. destruct (pt !! [a'; b']) as [n|] eqn:En; [|done]. by rewrite (He [a'; b']).
Qed.

(** Page [n] is in use and holds no table. *)
Definition plain_page (pt : gmap (list Z) nat) (p : pmem) (n : nat) : Prop :=
  n ∈ pg_inuse p ∧ ∀ y, pt !! y ≠ Some n.
(** The state of an address space: its tables and the lists of pages. *)
Record vm_ok (fl : list nat) (tl : gmap nat (list nat)) (root : nat) (pt : gmap (list Z) nat)
    (s : mach * pmem) : Prop := {
  vo_pages : pages_inv fl tl s.2;
  vo_tree : pt_inv root pt s.2;
  vo_quiet : quiet s.1;
}.
Definition owner_ok (ut : option nat) (tl : gmap nat (list nat)) : Prop :=
  match ut with Some t => is_Some (tl !! t) | None => True end.
(** Task [ut] gets the pages [n]. *)
Definition give (ut : option nat) (n : list nat) (tl : gmap nat (list nat)) : gmap nat (list nat) :=
  match ut with Some t => alter (λ l, l ++ n) t tl | None => tl end.
(** What mapping a page may change besides the leaf entries: it takes at most [k]
    free pages for tables, which join the list of the owner, and leaves every other
    page in use as it is. *)
Record vm_step (k : nat) (ut : option nat) (fl : list nat) (tl : gmap nat (list nat)) (pt : gmap (list Z) nat)
    (s : mach * pmem) (fl' : list nat) (tl' : gmap nat (list nat)) (pt' : gmap (list Z) nat) (s' : mach * pmem) : Prop := {
  vs_new : ∃ n, fl = n ++ fl' ∧ tl' = give ut n tl ∧ pg_inuse s'.2 = list_to_set n ∪ pg_inuse s.2 ∧
    (∀ y i, pt' !! y = Some i → pt !! y = Some i ∨ i ∈ n);
  vs_free : (length fl ≤ length fl' + k)%nat;
  vs_owner : owner_ok ut tl';
  vs_frame : mach_frame s.1 s'.1;
  vs_plain n : plain_page pt s.2 n → plain_page pt' s'.2 n ∧ page_data s'.2 n = page_data s.2 n;
}.

Lemma pt_inv_nodes root pt p h : pt_inv root pt p → pt_inv root pt (set_nodes h p).
Proof. intros P. split; apply P. Qed.

Lemma give_nil ut tl : give ut [] tl = tl.
Proof. destruct ut as [t|]; [|done]. cbn. apply map_eq. intros i. destruct (decide (t = i)) as [<-|].
  - rewrite lookup_alter_eq. destruct (tl !! t); cbn; by rewrite ?app_nil_r.
  - by rewrite lookup_alter_ne.
Qed.
Lemma vm_step_refl k ut fl tl pt s : owner_ok ut tl → vm_step k ut fl tl pt s fl tl pt s.
Proof.
  intros Ho. split; [|lia|done..]. exists []. rewrite give_nil. split_and!; [done|done|set_solver|by left].
Qed.
Lemma give_give ut n n' tl : give ut n' (give ut n tl) = give ut (n ++ n') tl.
Proof. destruct ut as [t|]; [|done]. cbn. apply map_eq. intros i. destruct (decide (t = i)) as [<-|].
  - rewrite !lookup_alter_eq. destruct (tl !! t); cbn; by rewrite ?app_assoc.
  - by rewrite !lookup_alter_ne.
Qed.
Lemma give_push t l i tl : tl !! t = Some l → <[t := l ++ [i]]> tl = give (Some t) [i] tl.
Proof.
  intros E. cbn. apply map_eq. intros k. destruct (decide (t = k)) as [<-|].
  - by rewrite lookup_insert_eq, lookup_alter_eq, E.
  - by rewrite lookup_insert_ne, lookup_alter_ne.
Qed.
(** One level of the walk of [do_vmmap] above the leaves. *)
Lemma level_step lv x i va pa attr ut fl tl root pt m p (k := va_level va (S lv)) :
  vm_ok fl tl root pt (m, p) → pt !! x = Some i → (lv ≤ 1)%nat → length x = (1 - lv)%nat →
  fl ≠ [] → owner_ok ut tl →
  ∃ fl' tl' pt' s' j,
    map_levels (S lv) (paddr_of i) va pa attr 0 ut (m, p) = map_levels lv (paddr_of j) va pa attr 0 ut s' ∧
    vm_ok fl' tl' root pt' s' ∧ pt' !! (x ++ [k]) = Some j ∧
    (∀ a b c, idx c → leaf pt' s'.2 a b c = leaf pt p a b c) ∧ vm_step 1 ut fl tl pt (m, p) fl' tl' pt' s'.
Proof.
  intros [I P Hq] Hx Hlv Hlen Hfl Hown. cbn [fst snd] in *. pose proof (va_level_idx va (S lv)) as Hk. fold k in Hk.
  destruct (pt_page _ _ _ P x i Hx) as [Hi Hiu]. cbn [map_levels]. fold k.
  destruct (Z.eqb_spec (Z.of_nat (S lv)) 0) as [|_]; [lia|]. run (ld64_entry i k m p Hi Hk).
  destruct (pt !! (x ++ [k])) as [j|] eqn:Ej.
  - destruct (pt_page _ _ _ P _ _ Ej) as [Hj _]. destruct (table_pte j Hj) as (Hv & Hvv & _ & Hpa).
    rewrite (pt_child _ _ _ P x k i j Hx Ej), Hvv. cbn [Z.eqb]. go. run (ld64_entry i k m p Hi Hk).
    rewrite (pt_child _ _ _ P x k i j Hx Ej), Hpa.
    exists fl, tl, pt, (m, p), j. split; [done|]. split; [done|]. split; [done|]. split; [done|].
    by apply vm_step_refl.
  - rewrite (pt_none _ _ _ P x k i Hx ltac:(lia) Hk Ej). cbn [Z.eqb].
    destruct fl as [|j fl]; [done|].
    destruct (alloc_page_spec j fl tl m p I (quiet_mem_free _ Hq)) as (p1 & E1 & I1 & Hj & Hju & Hu1 & Hz & Ho & Hnl). run E1.
    assert (∃ p2 tl2, (match ut with Some t => nodes_op (list_pushback (TaskPages t) (PageNode j)) | None => ret tt end)
        (touch m, p1) = Ok tt (touch m, p2) ∧ pages_inv fl tl2 p2 ∧ owner_ok ut tl2 ∧ tl2 = give ut [j] tl ∧
        pg_inuse p2 = pg_inuse p1 ∧ pg_data p2 = pg_data p1) as (p2 & tl2 & E2 & I2 & Hown2 & Eg & Hu2 & Hd2).
    { destruct ut as [t|]; [|by exists p1, tl]. destruct Hown as [l Hl].
      destruct (task_push_spec j fl tl t l p1 I1 Hl Hj) as (h & Eh & I2); [rewrite Hu1; set_solver|done|].
      exists (set_nodes h p1), (<[t := l ++ [j]]> tl). split; [by apply nodes_op_ok|]. split; [done|].
      split; [cbn; rewrite lookup_insert_eq; by eexists|]. split; [by apply give_push|done]. }
    run E2. destruct (table_pte j Hj) as (Hv & Hvv & _ & Hpa).
    run (st64_entry i k (pte_of (paddr_of j)) (touch m) p2 Hi Hk). set (p3 := put_entry i k (pte_of (paddr_of j)) p2).
    assert (Hpd : ∀ n, page_data p2 n = page_data p1 n) by (intros n; unfold page_data; by rewrite Hd2).
    pose proof (inv_mem_ok _ _ _ I2) as Hm2.
    destruct (pt_extend root pt p p2 p3 x k i j) as [P3 L3]; try done; try lia.
    { by rewrite Hu2, Hu1. } { by rewrite Hpd. } { intros n Hn. by rewrite Hpd, Ho. }
    rewrite ?bind_assoc. rewrite (bind_ok _ _ _ _ _ (ld64_entry i k (touch m) p3 Hi Hk)).
    assert (entry p3 i k = pte_of (paddr_of j)) as -> by (unfold p3; rewrite entry_put by done; by rewrite decide_True).
    rewrite Hpa. exists fl, tl2, (<[x ++ [k] := j]> pt), (touch m, p3), j. split; [done|].
    split; [split; [by apply pages_inv_entry|done|auto with mach]|].
    split; [apply lookup_insert_eq|]. split; [done|]. split; [|cbn; lia|done|auto with mach|].
    { exists [j]. split_and!; [done|done|cbn; rewrite Hu2, Hu1; set_solver|]. intros y i'.
      destruct (decide (y = x ++ [k])) as [->|]; [rewrite lookup_insert_eq; intros [= <-]; right; by left|].
      rewrite lookup_insert_ne by done. by left. }
    intros n [Hn1 Hn2]. cbn in Hn1. assert (n ≠ j) by (intros ->; done). assert (n ≠ i) by (intros ->; by apply (Hn2 x)).
    cbn. split.
    + split; [cbn; rewrite Hu2, Hu1; set_solver|]. intros y.
      destruct (decide (y = x ++ [k])) as [->|]; [rewrite lookup_insert_eq; congruence|].
      rewrite lookup_insert_ne by done. apply Hn2.
    + unfold p3, put_entry. rewrite page_data_put, decide_False by done. by rewrite Hpd, Ho.
Qed.

Lemma vm_step_trans k1 k2 ut fl tl pt s fl1 tl1 pt1 s1 fl2 tl2 pt2 s2 :
  vm_step k1 ut fl tl pt s fl1 tl1 pt1 s1 → vm_step k2 ut fl1 tl1 pt1 s1 fl2 tl2 pt2 s2 →
  vm_step (k1 + k2) ut fl tl pt s fl2 tl2 pt2 s2.
Proof.
  intros [(n1 & -> & -> & U1 & N1) A1 A2 A3 A4] [(n2 & -> & -> & U2 & N2) B1 B2 B3 B4]. split; [|lia|done|by etransitivity|].
  { exists (n1 ++ n2). rewrite <- app_assoc, give_give, U2, U1, list_to_set_app_L. split_and!; [done|done|set_solver|].
    intros y i [Hy|Hy]%N2; [|set_solver]. apply N1 in Hy. set_solver. }
  intros n Hn. destruct (A4 n Hn) as [Hn1 E1]. destruct (B4 n Hn1) as [Hn2 E2]. split; [done|congruence].
Qed.

(** ** Translation *)

(** The leaf entry of an address. *)
Definition trans (pt : gmap (list Z) nat) (p : pmem) (va : Z) : Z :=
  leaf pt p (va_level va 2) (va_level va 1) (va_level va 0).
Definition vaddr (va : Z) : Prop := 0 ≤ va < 2 ^ 39.

Lemma va_level_eq va l : va_level va l = va / 2 ^ 12 / 2 ^ (9 * Z.of_nat l) mod 2 ^ 9.
Proof.
  unfold va_level. change 0x1FF with (Z.ones 9). rewrite Z.land_ones, !Z.shiftr_div_pow2 by lia. done.
Qed.
(** Two addresses with the same indices are in the same page. *)
Lemma levels_inj va va' : vaddr va → vaddr va' →
  (va_level va 2 = va_level va' 2 ∧ va_level va 1 = va_level va' 1 ∧ va_level va 0 = va_level va' 0) ↔
  va / 2 ^ 12 = va' / 2 ^ 12.
Proof.
  intros Hv Hv'. split; [|intros E; by rewrite !va_level_eq, E]. rewrite !va_level_eq.
  assert (B : ∀ v, vaddr v → 0 ≤ v / 2 ^ 12 < 2 ^ 27).
  { intros v [? ?]. split; [apply Z.div_pos; lia|apply Z.div_lt_upper_bound; lia]. }
  pose proof (B va Hv). pose proof (B va' Hv').
  generalize dependent (va / 2 ^ 12). intros q Hq. generalize dependent (va' / 2 ^ 12). intros q' Hq'.
  change (2 ^ (9 * Z.of_nat 2)) with (512 * 512). change (2 ^ (9 * Z.of_nat 1)) with 512.
  change (2 ^ (9 * Z.of_nat 0)) with 1. change (2 ^ 9) with 512. rewrite !Z.div_1_r, <- !Z.div_div by lia.
  intros (E2 & E1 & E0).
  pose proof (Z.div_mod q 512 ltac:(lia)). pose proof (Z.div_mod q' 512 ltac:(lia)).
  pose proof (Z.div_mod (q / 512) 512 ltac:(lia)). pose proof (Z.div_mod (q' / 512) 512 ltac:(lia)).
  assert (S : ∀ v, 0 ≤ v < 2 ^ 27 → 0 ≤ v / 512 / 512 < 512).
  { intros v ?. rewrite Z.div_div by lia. split; [apply Z.div_pos; lia|apply Z.div_lt_upper_bound; lia]. }
  rewrite (Z.mod_small (q / 512 / 512)), (Z.mod_small (q' / 512 / 512)) in E2 by auto. lia.
Qed.

(** One page of [do_vmmap] at the granularity of 4 KB. *)
Lemma map_page va pa attr ut fl tl root pt s (v := Z.lor (pte_of pa) attr) :
  vm_ok fl tl root pt s → (2 ≤ length fl)%nat → owner_ok ut tl → vaddr va → 0 ≤ v < 2 ^ 64 →
  ∃ fl' tl' pt' s', map_levels 2 (paddr_of root) va pa attr 0 ut s = Ok tt s' ∧
    vm_ok fl' tl' root pt' s' ∧ vm_step 2 ut fl tl pt s fl' tl' pt' s' ∧
    (∀ va', vaddr va' → trans pt' s'.2 va' =
       if decide (va' / 2 ^ 12 = va / 2 ^ 12) then v else trans pt s.2 va').
Proof.
  destruct s as [m p]. intros V Hfl Hown Hva Hv.
  destruct (level_step 1 [] root va pa attr ut fl tl root pt m p V) as (fl1 & tl1 & pt1 & [m1 p1] & j1 & E1 & V1 & Hj1 & L1 & S1);
    [apply V|lia|done|intros ->; cbn in Hfl; lia|done|].
  assert (Hfl1 : (1 ≤ length fl1)%nat) by (pose proof (vs_free _ _ _ _ _ _ _ _ _ _ S1); lia).
  destruct (level_step 0 [va_level va 2] j1 va pa attr ut fl1 tl1 root pt1 m1 p1 V1)
    as (fl2 & tl2 & pt2 & [m2 p2] & j & E2 & V2 & Hj & L2 & S2); [done|lia|done|intros ->; cbn in Hfl1; lia|apply S1|].
  pose proof (va_level_idx va 0) as Hk. destruct V2 as [I2 P2 Hq2]. cbn [fst snd] in *.
  destruct (pt_page _ _ _ P2 _ _ Hj) as [Hjn Hju].
  destruct (pt_leaf_store root pt2 p2 (va_level va 2) (va_level va 1) j (va_level va 0) v) as [P3 L3];
    [done|by eapply inv_mem_ok|done|done|done|].
  exists fl2, tl2, pt2, (m2, put_entry j (va_level va 0) v p2). split.
  { rewrite E1, E2. cbn [map_levels]. cbn [Z.of_nat Z.eqb]. by apply st64_entry. }
  split; [split; [by apply pages_inv_entry|done|done]|]. split.
  - pose proof (vm_step_trans _ _ _ _ _ _ _ _ _ _ _ _ _ _ _ S1 S2) as [T0 T1 T2 T3 T4]. split; [done..|].
    intros n Hn. destruct (T4 n Hn) as [[H1 H2] Hd]. split; [done|]. cbn.
    unfold put_entry. rewrite page_data_put, decide_False; [done|]. intros ->. by apply (H2 [va_level va 2; va_level va 1]).
  - intros va' Hva'. unfold trans. cbn [snd]. rewrite L3 by apply va_level_idx.
    pose proof (levels_inj va' va Hva' Hva) as Hl. destruct (decide (va' / 2 ^ 12 = va / 2 ^ 12)) as [E|E].
    + rewrite decide_True; [done|]. tauto.
    + rewrite decide_False by tauto. rewrite L2, L1 by apply va_level_idx. done.
Qed.

(** The pages [va, va + 4096 n) mapped to [pa, pa + 4096 n). *)
Definition in_range (va n va' : Z) : Prop := va / 2 ^ 12 ≤ va' / 2 ^ 12 < va / 2 ^ 12 + n.
#[export] Instance in_range_dec va n va' : Decision (in_range va n va').
Proof. unfold in_range. apply _. Defined.
Definition mapped_pte (va pa attr va' : Z) : Z :=
  Z.lor (pte_of (pa + (va' / 2 ^ 12 - va / 2 ^ 12) * 2 ^ 12)) attr.

Lemma leaf_bound q attr : 0 ≤ q < 2 ^ 44 → 0 ≤ attr < 2 ^ 10 →
  0 ≤ Z.lor (pte_of (q * 2 ^ 12)) attr < 2 ^ 64 ∧ 0 ≤ Z.lor 1 attr < 2 ^ 10.
Proof.
  intros Hq Ha. rewrite leaf_of_frame by done.
  assert (0 ≤ Z.lor 1 attr < 2 ^ 10); [|lia]. split; [apply Z.lor_nonneg; lia|].
  destruct (decide (attr = 0)) as [->|]; [by vm_compute|]. apply Z.log2_lt_pow2.
  - assert (0 ≤ Z.lor 1 attr) by (apply Z.lor_nonneg; lia). assert (Z.lor 1 attr ≠ 0); [|lia].
    intros [? _]%Z.lor_eq_0_iff. lia.
  - rewrite Z.log2_lor by lia. apply Z.max_lub_lt; [by cbn|]. apply Z.log2_lt_pow2; lia.
Qed.

Lemma map_loop_spec n fuel qa qp attr ut fl tl root pt s (va := qa * 2 ^ 12) (pa := qp * 2 ^ 12) :
  vm_ok fl tl root pt s → (2 * n ≤ length fl)%nat → owner_ok ut tl → (n ≤ fuel)%nat →
  0 ≤ qa → qa + Z.of_nat n ≤ 2 ^ 26 → 0 ≤ qp → qp + Z.of_nat n ≤ 2 ^ 40 → 0 ≤ attr < 2 ^ 10 →
  ∃ fl' tl' pt' s',
    map_loop fuel (paddr_of root) va pa ((qa + Z.of_nat n) * 2 ^ 12) PGSIZE attr 0 ut s = Ok tt s' ∧
    vm_ok fl' tl' root pt' s' ∧ vm_step (2 * n) ut fl tl pt s fl' tl' pt' s' ∧
    (∀ va', vaddr va' → trans pt' s'.2 va' =
       if decide (in_range va (Z.of_nat n) va') then mapped_pte va pa attr va' else trans pt s.2 va').
Proof.
  revert fuel qa qp fl tl pt s va pa. induction n as [|n IH]; intros fuel qa qp fl tl pt s va pa V Hfl Hown Hfu Hqa Hqa' Hqp Hqp' Ha.
  { exists fl, tl, pt, s. rewrite Nat2Z.inj_0, Z.add_0_r.
    split; [destruct fuel; cbn [map_loop]; by rewrite Z.ltb_irrefl|]. split; [done|]. split; [by apply vm_step_refl|].
    intros va' _. rewrite decide_False; [done|]. unfold in_range. lia. }
  destruct fuel as [|fuel]; [lia|]. cbn [map_loop]. unfold va, pa in *.
  destruct (Z.ltb_spec (qa * 2 ^ 12) ((qa + Z.of_nat (S n)) * 2 ^ 12)); [|lia].
  assert (Hva : vaddr (qa * 2 ^ 12)) by (unfold vaddr; lia).
  destruct (map_page (qa * 2 ^ 12) (qp * 2 ^ 12) attr ut fl tl root pt s) as (fl1 & tl1 & pt1 & s1 & E1 & V1 & S1 & T1);
    [done|lia|done|done|apply leaf_bound; lia|].
  run E1. unfold PGSIZE. replace (qa * 2 ^ 12 + 4096) with ((qa + 1) * 2 ^ 12) by lia.
  replace (qp * 2 ^ 12 + 4096) with ((qp + 1) * 2 ^ 12) by lia. rewrite !u64_id by lia.
  destruct (IH fuel (qa + 1) (qp + 1) fl1 tl1 pt1 s1) as (fl2 & tl2 & pt2 & s2 & E2 & V2 & S2 & T2);
    [done|pose proof (vs_free _ _ _ _ _ _ _ _ _ _ S1); lia|apply S1|lia|lia|lia|lia|lia|done|].
  exists fl2, tl2, pt2, s2. replace (qa + Z.of_nat (S n)) with (qa + 1 + Z.of_nat n) by lia.
  split; [exact E2|]. split; [done|]. split.
  { replace (2 * S n)%nat with (2 + 2 * n)%nat by lia. by eapply vm_step_trans. }
  intros va' Hva'. rewrite T2, T1 by done. clear -Hqa.
  pose proof (Z.div_mul qa (2 ^ 12) ltac:(lia)) as D1. pose proof (Z.div_mul (qa + 1) (2 ^ 12) ltac:(lia)) as D2.
  unfold mapped_pte. repeat case_decide; unfold in_range in *; rewrite ?D1, ?D2 in *; try lia; try done.
  - do 2 f_equal. lia.
  - replace (va' / 2 ^ 12) with qa by lia. do 2 f_equal. lia.
Qed.

(** [svmmap] maps every page of the range and no other. *)
Lemma svmmap_spec qa qp size attr ut fl tl root pt s (va := qa * 2 ^ 12) (pa := qp * 2 ^ 12)
    (n := (size + 4095) / 4096) :
  vm_ok fl tl root pt s → (2 * Z.to_nat n ≤ length fl)%nat → owner_ok ut tl →
  0 ≤ qa → 0 ≤ size → va + size ≤ VA_TOP → 0 ≤ qp → pa + size ≤ PHY_TOP → 0 ≤ attr < 2 ^ 10 →
  ∃ fl' tl' pt' s',
    svmmap (paddr_of root) va pa size attr ut s = Ok tt s' ∧
    vm_ok fl' tl' root pt' s' ∧ vm_step (2 * Z.to_nat n) ut fl tl pt s fl' tl' pt' s' ∧
    (∀ va', vaddr va' → trans pt' s'.2 va' =
       if decide (in_range va n va') then mapped_pte va pa attr va' else trans pt s.2 va').
Proof.
  intros V Hfl Hown Hqa Hsz Hva Hqp Hpa Ha. unfold VA_TOP in Hva. change PHY_TOP with 0xA0000000 in Hpa.
  unfold va, pa in *. assert (Hn : 0 ≤ n) by (apply Z.div_pos; lia).
  assert (Hn1 : 4096 * n ≤ size + 4095) by (apply (Z.mul_div_le (size + 4095) 4096); lia).
  unfold svmmap, do_vmmap. change (2 ^ 12) with PGSIZE. rewrite !Z.mod_mul by done. cbn [Z.eqb negb orb].
  unfold PGSIZE. rewrite !u64_id by lia. unfold VA_TOP. change PHY_TOP with 0xA0000000.
  destruct (Z.ltb_spec 0x4000000000 (qa * 4096 + size)); [lia|].
  destruct (Z.ltb_spec 0xA0000000 (qp * 4096 + size)); [lia|]. cbn [orb]. change (S_PAGE =? S_PAGE) with true. cbv iota. go.
  assert (align_up (qa * 4096 + size) 4096 = (qa + Z.of_nat (Z.to_nat n)) * 4096) as ->.
  { change 4096 with (2 ^ 12). rewrite align_up_eq by lia. rewrite Z2Nat.id by done. f_equal.
    unfold n. replace (qa * 2 ^ 12 + size + 2 ^ 12 - 1) with (qa * 4096 + (size + 4095)) by lia.
    change (2 ^ 12) with 4096. rewrite Z.div_add_l by lia. done. }
  rewrite Z.div_mul by lia. change PGSIZE with 4096.
  destruct (map_loop_spec (Z.to_nat n) (Z.to_nat (qa + Z.of_nat (Z.to_nat n))) qa qp attr ut fl tl root pt s)
    as (fl' & tl' & pt' & s' & E & V' & S' & T'); [done|done|done|lia|lia|lia|lia|lia|done|].
  exists fl', tl', pt', s'. rewrite Z2Nat.id in T' by done. split; [exact E|]. done.
Qed.

(** An entry that maps a page. *)
Definition maps (v : Z) : bool := negb (Z.land v PTE_V =? 0) && negb (Z.land v PTE_RWX =? 0).
Definition frame_pa (v va : Z) : Z :=
  Z.lor (u64 (Z.shiftl (Z.land (Z.shiftr v 10) (Z.shiftl 1 44 - 1)) 12)) (Z.land va (PGSIZE - 1)).

(** The walk of [get_pte] below an existing table. *)
Lemma pte_level lv x i va root pt m p (k := va_level va (S lv)) : pt_inv root pt p → pt !! x = Some i →
  (lv ≤ 1)%nat → length x = (1 - lv)%nat →
  pte_levels (S lv) (paddr_of i) va (m, p) =
  match pt !! (x ++ [k]) with
  | Some j => pte_levels lv (paddr_of j) va (m, p)
  | None => Ok None (m, p)
  end.
Proof.
  intros P Hx Hlv Hl. pose proof (va_level_idx va (S lv)) as Hk. fold k in Hk.
  destruct (pt_page _ _ _ P x i Hx) as [Hi _]. cbn [pte_levels]. fold k. run (ld64_entry i k m p Hi Hk).
  destruct (pt !! (x ++ [k])) as [j|] eqn:Ej.
  - destruct (pt_page _ _ _ P _ _ Ej) as [Hj _]. destruct (table_pte j Hj) as (_ & Hvv & Hrwx & Hpa).
    rewrite (pt_child _ _ _ P x k i j Hx Ej), Hvv, Hrwx, Hpa. done.
  - by rewrite (pt_none _ _ _ P x k i Hx ltac:(lia) Hk Ej).
Qed.
(** [get_pte] finds the leaf entry of the address when it maps a page. *)
Lemma get_pte_spec va root pt m p : pt_inv root pt p →
  ∃ r, get_pte (paddr_of root) va (m, p) = Ok r (m, p) ∧
    if maps (trans pt p va)
    then ∃ a, r = Some a ∧ ld64 a (m, p) = Ok (trans pt p va) (m, p)
    else r = None.
Proof.
  intros P. unfold get_pte, trans, leaf.
  rewrite (pte_level 1 [] root va root pt m p P (pt_root _ _ _ P)) by (cbn; lia). cbn [app].
  destruct (pt !! [va_level va 2]) as [j|] eqn:E1.
  2: { exists None. split; [done|]. destruct (pt !! [va_level va 2; va_level va 1]) eqn:E2; [|done].
       apply (pt_path _ _ _ P [va_level va 2] (va_level va 1)) in E2 as (_ & _ & [? ?]). congruence. }
  rewrite (pte_level 0 [va_level va 2] j va root pt m p P E1) by (cbn; lia). cbn [app].
  destruct (pt !! [va_level va 2; va_level va 1]) as [i|] eqn:E2; [|by exists None].
  destruct (pt_page _ _ _ P _ _ E2) as [Hi _]. pose proof (va_level_idx va 0) as Hk.
  cbn [pte_levels]. run (ld64_entry i (va_level va 0) m p Hi Hk). set (v := entry p i (va_level va 0)).
  unfold maps. destruct (Z.land v PTE_V =? 0); cbn [negb andb]; [by exists None|].
  destruct (Z.land v PTE_RWX =? 0); cbn [negb]; [by exists None|].
  eexists. split; [done|]. eexists. split; [done|]. by apply ld64_entry.
Qed.
Lemma va_to_pa_spec va root pt m p : pt_inv root pt p →
  ∃ r, va_to_pa (paddr_of root) va (m, p) = Ok r (m, p) ∧
    if maps (trans pt p va)
    then r.1 = frame_pa (trans pt p va) va ∧
         ∃ a, r.2 = Some a ∧ ld64 a (m, p) = Ok (trans pt p va) (m, p)
    else r = (0, None).
Proof.
  intros P. destruct (get_pte_spec va root pt m p P) as (r & E & Hr). unfold va_to_pa. run E.
  destruct (maps (trans pt p va)) eqn:Em.
  - destruct Hr as (a & -> & Ea). run Ea. apply andb_true_iff in Em as [_ Em].
    destruct (Z.land (trans pt p va) PTE_RWX =? 0); [done|]. eexists. split; [done|]. split; [done|]. by exists a.
  - subst r. by eexists.
Qed.

Lemma lor_rwx attr : Z.land attr PTE_RWX ≠ 0 → Z.land (Z.lor 1 attr) PTE_RWX ≠ 0 ∧ Z.land (Z.lor 1 attr) PTE_V ≠ 0.
Proof.
  intros Ha. rewrite !Z.land_lor_distr_l. split.
  - intros [_ ?]%Z.lor_eq_0_iff. done.
  - intros [? _]%Z.lor_eq_0_iff. done.
Qed.
(** The entries [svmmap] writes translate the page to its frame. *)
Lemma mapped_frame qa qp attr va' : 0 ≤ attr < 2 ^ 10 → Z.land attr PTE_RWX ≠ 0 →
  0 ≤ qp + (va' / 2 ^ 12 - qa) < 2 ^ 44 →
  let v := mapped_pte (qa * 2 ^ 12) (qp * 2 ^ 12) attr va' in
  maps v = true ∧ frame_pa v va' = qp * 2 ^ 12 + (va' - qa * 2 ^ 12).
Proof.
  intros Ha Hrwx Hq v. unfold v, mapped_pte. rewrite (Z.div_mul qa) by lia.
  replace (qp * 2 ^ 12 + (va' / 2 ^ 12 - qa) * 2 ^ 12) with ((qp + (va' / 2 ^ 12 - qa)) * 2 ^ 12) by lia.
  rewrite leaf_of_frame by done. destruct (leaf_bound _ attr Hq Ha) as [_ Hlo].
  destruct (lor_rwx attr Hrwx) as [R1 R2]. destruct flags_lt as [F1 F2].
  set (q := qp + (va' / 2 ^ 12 - qa)) in *. split.
  - unfold maps. rewrite (land_mul_pow2 _ _ PTE_V 10), (land_mul_pow2 _ _ PTE_RWX 10) by (lia || done).
    by rewrite (proj2 (Z.eqb_neq _ _) R1), (proj2 (Z.eqb_neq _ _) R2).
  - unfold frame_pa. rewrite shiftr_mul_pow2 by lia. change (Z.shiftl 1 44 - 1) with (Z.ones 44).
    rewrite Z.land_ones, (Z.mod_small q), Z.shiftl_mul_pow2, u64_id by lia.
    change (PGSIZE - 1) with (Z.ones 12). rewrite Z.land_ones by lia.
    pose proof (Z.mod_pos_bound va' (2 ^ 12) ltac:(lia)). rewrite lor_mul_pow2 by lia.
    pose proof (Z.div_mod va' (2 ^ 12) ltac:(lia)). unfold q. lia.
Qed.

(** *** [vmunmap] *)
Lemma unmap_level lv x i va root pt m p (k := va_level va (S lv)) : pt_inv root pt p → pt !! x = Some i →
  (lv ≤ 1)%nat → length x = (1 - lv)%nat →
  unmap_levels (S lv) (paddr_of i) va (m, p) =
  match pt !! (x ++ [k]) with
  | Some j => unmap_levels lv (paddr_of j) va (m, p)
  | None => Ok tt (m, p)
  end.
Proof.
  intros P Hx Hlv Hl. pose proof (va_level_idx va (S lv)) as Hk. fold k in Hk.
  destruct (pt_page _ _ _ P x i Hx) as [Hi _]. cbn [unmap_levels]. fold k. run (ld64_entry i k m p Hi Hk).
  destruct (pt !! (x ++ [k])) as [j|] eqn:Ej.
  - destruct (pt_page _ _ _ P _ _ Ej) as [Hj _]. destruct (table_pte j Hj) as (_ & Hvv & Hrwx & Hpa).
    rewrite (pt_child _ _ _ P x k i j Hx Ej), Hvv, Hpa. done.
  - by rewrite (pt_none _ _ _ P x k i Hx ltac:(lia) Hk Ej).
Qed.
Lemma unmap_page va fl tl root pt s : vm_ok fl tl root pt s → vaddr va →
  ∃ s', unmap_levels 2 (paddr_of root) va s = Ok tt s' ∧ vm_ok fl tl root pt s' ∧ s'.1 = s.1 ∧
    pg_inuse s'.2 = pg_inuse s.2 ∧
    (∀ n, plain_page pt s.2 n → page_data s'.2 n = page_data s.2 n) ∧
    maps (trans pt s'.2 va) = false ∧
    (∀ va', vaddr va' → va' / 2 ^ 12 ≠ va / 2 ^ 12 → trans pt s'.2 va' = trans pt s.2 va').
Proof.
  destruct s as [m p]. intros [I P Hq] Hva. cbn [fst snd] in *.
  assert (Hkeep : maps (trans pt p va) = false → ∃ s', Ok tt (m, p) = @Ok (mach * pmem) unit tt s' ∧ vm_ok fl tl root pt s' ∧
    s'.1 = m ∧ pg_inuse s'.2 = pg_inuse p ∧ (∀ n, plain_page pt p n → page_data s'.2 n = page_data p n) ∧
    maps (trans pt s'.2 va) = false ∧
    (∀ va', vaddr va' → va' / 2 ^ 12 ≠ va / 2 ^ 12 → trans pt s'.2 va' = trans pt p va')).
  { intros Hm. exists (m, p). done. }
  rewrite (unmap_level 1 [] root va root pt m p P (pt_root _ _ _ P)) by (cbn; lia). cbn [app].
  destruct (pt !! [va_level va 2]) as [j|] eqn:E1.
  2: { apply Hkeep. unfold trans, leaf. destruct (pt !! [va_level va 2; va_level va 1]) eqn:E2; [|done].
       apply (pt_path _ _ _ P [va_level va 2] (va_level va 1)) in E2 as (_ & _ & [? ?]). congruence. }
  rewrite (unmap_level 0 [va_level va 2] j va root pt m p P E1) by (cbn; lia). cbn [app].
  destruct (pt !! [va_level va 2; va_level va 1]) as [i|] eqn:E2.
  2: { apply Hkeep. unfold trans, leaf. by rewrite E2. }
  destruct (pt_page _ _ _ P _ _ E2) as [Hi _]. pose proof (va_level_idx va 0) as Hk.
  cbn [unmap_levels]. run (ld64_entry i (va_level va 0) m p Hi Hk).
  destruct (Z.land (entry p i (va_level va 0)) PTE_V =? 0) eqn:EV.
  { apply Hkeep. unfold trans, leaf, maps. rewrite E2, EV. done. }
  rewrite st64_entry by done. eexists. split; [done|].
  destruct (pt_leaf_store root pt p (va_level va 2) (va_level va 1) i (va_level va 0) 0) as [P3 L3];
    [done|by eapply inv_mem_ok|done|done|lia|].
  split; [split; [by apply pages_inv_entry|done|done]|]. split; [done|]. split; [done|]. cbn [snd]. split.
  - intros n [_ Hn]. unfold put_entry. rewrite page_data_put, decide_False; [done|]. intros ->. by apply (Hn [va_level va 2; va_level va 1]).
  - split.
    + unfold trans. rewrite L3 by done. by rewrite decide_True.
    + intros va' Hva' Hne. unfold trans. rewrite L3 by apply va_level_idx. rewrite decide_False; [done|].
      intros Hx. by apply Hne, levels_inj.
Qed.

Lemma unmap_loop_spec n fuel qa fl tl root pt s (va := qa * 2 ^ 12) :
  vm_ok fl tl root pt s → (n ≤ fuel)%nat → 0 ≤ qa → qa + Z.of_nat n ≤ 2 ^ 26 →
  ∃ s', unmap_loop fuel (paddr_of root) va ((qa + Z.of_nat n) * 2 ^ 12) s = Ok tt s' ∧ vm_ok fl tl root pt s' ∧
    s'.1 = s.1 ∧ pg_inuse s'.2 = pg_inuse s.2 ∧
    (∀ n, plain_page pt s.2 n → page_data s'.2 n = page_data s.2 n) ∧
    (∀ va', vaddr va' → if decide (in_range va (Z.of_nat n) va') then maps (trans pt s'.2 va') = false
                        else trans pt s'.2 va' = trans pt s.2 va').
Proof.
  revert fuel qa s va. induction n as [|n IH]; intros fuel qa s va V Hfu Hqa Hqa'.
  { exists s. rewrite Nat2Z.inj_0, Z.add_0_r.
    split; [destruct fuel; cbn [unmap_loop]; by rewrite Z.ltb_irrefl|]. split_and!; try done.
    intros va' _. rewrite decide_False; [done|]. unfold in_range. lia. }
  destruct fuel as [|fuel]; [lia|]. cbn [unmap_loop]. unfold va in *.
  destruct (Z.ltb_spec (qa * 2 ^ 12) ((qa + Z.of_nat (S n)) * 2 ^ 12)); [|lia].
  destruct (unmap_page (qa * 2 ^ 12) fl tl root pt s V) as (s1 & E1 & V1 & Em & Eu & Hd & Hgone & Hkeep); [unfold vaddr; lia|].
  run E1. unfold PGSIZE. replace (qa * 2 ^ 12 + 4096) with ((qa + 1) * 2 ^ 12) by lia. rewrite u64_id by lia.
  destruct (IH fuel (qa + 1) s1) as (s2 & E2 & V2 & Em2 & Eu2 & Hd2 & T2); [done|lia|lia|lia|].
  exists s2. replace (qa + Z.of_nat (S n)) with (qa + 1 + Z.of_nat n) by lia.
  split; [exact E2|]. split; [done|]. split; [congruence|]. split; [congruence|]. split.
  { intros k Hk. rewrite Hd2, Hd; [done..|]. destruct Hk as [? ?]. split; [by rewrite Eu|done]. }
  intros va' Hva'. specialize (T2 va' Hva').
  pose proof (Z.div_mul qa (2 ^ 12) ltac:(lia)) as D1. pose proof (Z.div_mul (qa + 1) (2 ^ 12) ltac:(lia)) as D2.
  repeat case_decide; unfold in_range in *; rewrite ?D1, ?D2 in *; try lia; try done.
  - assert (va' / 2 ^ 12 = qa * 2 ^ 12 / 2 ^ 12) as E by lia. rewrite T2.
    unfold trans in *. rewrite !va_level_eq, E, <- !va_level_eq. exact Hgone.
  - rewrite T2. apply Hkeep; [done|lia].
Qed.
(** [vmunmap] unmaps every page of the range and no other. *)
Lemma vmunmap_spec qa size fl tl root pt s (va := qa * 2 ^ 12) (n := (size + 4095) / 4096) :
  vm_ok fl tl root pt s → 0 ≤ qa → 0 ≤ size → va + size ≤ VA_TOP →
  ∃ s', vmunmap (paddr_of root) va size s = Ok tt s' ∧ vm_ok fl tl root pt s' ∧
    (∀ n, plain_page pt s.2 n → page_data s'.2 n = page_data s.2 n) ∧
    (∀ va', vaddr va' → if decide (in_range va n va') then maps (trans pt s'.2 va') = false
                        else trans pt s'.2 va' = trans pt s.2 va').
Proof.
  intros V Hqa Hsz Hva. unfold VA_TOP in Hva. unfold va in *. assert (Hn : 0 ≤ n) by (apply Z.div_pos; lia).
  assert (Hn1 : 4096 * n ≤ size + 4095) by (apply (Z.mul_div_le (size + 4095) 4096); lia).
  unfold vmunmap. change (2 ^ 12) with PGSIZE. rewrite !Z.mod_mul by done. cbn [Z.eqb negb].
  unfold PGSIZE. rewrite !u64_id by lia. unfold VA_TOP.
  destruct (Z.ltb_spec 0x4000000000 (qa * 4096 + size)); [lia|].
  assert (align_up (qa * 4096 + size) 4096 = (qa + Z.of_nat (Z.to_nat n)) * 4096) as ->.
  { change 4096 with (2 ^ 12). rewrite align_up_eq by lia. rewrite Z2Nat.id by done. f_equal.
    unfold n. replace (qa * 2 ^ 12 + size + 2 ^ 12 - 1) with (qa * 4096 + (size + 4095)) by lia.
    change (2 ^ 12) with 4096. rewrite Z.div_add_l by lia. done. }
  rewrite Z.div_mul by lia.
  destruct (unmap_loop_spec (Z.to_nat n) (Z.to_nat (qa + Z.of_nat (Z.to_nat n))) qa fl tl root pt s)
    as (s' & E & V' & _ & _ & Hd & T); [done|lia|lia|lia|].
  exists s'. rewrite Z2Nat.id in T by done. split; [exact E|]. done.
Qed.

(** A zero page is a table without entries. *)
Lemma fresh_root i fl tl m p : pages_inv fl tl p → (i < NPAGE)%nat → i ∈ pg_inuse p → page_data p i = zero_page →
  quiet m → vm_ok fl tl i {[ [] := i ]} (m, p) ∧ ∀ va, trans {[ [] := i ]} p va = 0.
Proof.
  intros I Hi Hu Hz Hq. split; [|intros va; unfold trans, leaf; by rewrite lookup_singleton_ne].
  split; [done| |done]. cbn [snd]. split.
  - apply lookup_singleton_eq.
  - by intros x j [<- <-]%lookup_singleton_Some.
  - by intros x y j [<- _]%lookup_singleton_Some [<- _]%lookup_singleton_Some.
  - intros x k j [E _]%lookup_singleton_Some. by destruct x.
  - intros x k j j' _ [E _]%lookup_singleton_Some. by destruct x.
  - intros x k j [<- <-]%lookup_singleton_Some _ Hk _. by rewrite entry_zero.
Qed.
