(* ===== verification/Pipe.v ===== *)
(** Pipes (kernel/fs/pipe.h, kernel/fs/pipe.c): ring buffers of 64 bytes with free
    running [u32] counters, protected by a spinlock, with sleeping readers and
    writers.

    A call that must wait ends in [sleep]; the definitions return where it was
    ([inl]), and the code after [sleep] is a definition of its own. *)
From S2P Require Import Prelude Bytes Machine.

Definition PIPE_SIZE : nat := 64.
Definition NPIPE : nat := 8.
#[global] Arguments PIPE_SIZE : simpl never.
#[global] Arguments NPIPE : simpl never.

(** [struct pipe]; the lock of pipe [i] is [L_pipe i]. *)
Record pipe := MkPipe {
  nread : Z;
  nwrite : Z;
  prefc : Z;
  pbuf : list Z;
}.
Definition set_prefc (v : Z) (p : pipe) : pipe := MkPipe (nread p) (nwrite p) v (pbuf p).
Definition set_nread (v : Z) (p : pipe) : pipe := MkPipe v (nwrite p) (prefc p) (pbuf p).
Definition write_chunk (start : nat) (d : list Z) (p : pipe) : pipe :=
  MkPipe (nread p) (u32 (nwrite p + Z.of_nat (length d))) (prefc p) (blit start d (pbuf p)).

Definition pipe_isempty (p : pipe) : bool := nread p =? nwrite p.
Definition pipe_readable_size (p : pipe) : Z := u32 (nwrite p - nread p).
Definition pipe_writable_size (p : pipe) : Z := u32 (Z.of_nat PIPE_SIZE - u32 (nwrite p - nread p)).

(** User memory as the kernel sees it: [copy_from_user] and [copy_to_user]; the
    task is killed ([None]) when the address is not accessible. *)
Class UserMem (U : Type) := {
  copy_in : Z → nat → U → option (list Z);
  copy_out : Z → list Z → U → option U;
  (** the byte at a user address *)
  ubyte : U → Z → option Z;
  copy_in_ok u va n : (∀ k, 0 ≤ k < Z.of_nat n → is_Some (ubyte u (va + k))) →
    ∃ d, copy_in va n u = Some d ∧ length d = n ∧
      ∀ k, (k < n)%nat → ubyte u (va + Z.of_nat k) = d !! k;
  copy_out_ok u va d : (∀ k, 0 ≤ k < Z.of_nat (length d) → is_Some (ubyte u (va + k))) →
    ∃ u', copy_out va d u = Some u' ∧
      ∀ a, ubyte u' a = if decide (va ≤ a < va + Z.of_nat (length d))
                        then d !! Z.to_nat (a - va) else ubyte u a;
}.

Section pipe.
Context {U : Type} {UM : UserMem U}.

(** The pipes of [pipecache] and the memory of the running task. *)
Definition pst : Type := mach * (list pipe * U).
Definition onp {A} (m : M mach A) : M pst A := onm m.
Definition pipe_at (i : nat) : M pst pipe := deref (λ s, s.2.1 !! i).
Definition mod_pipe (i : nat) (f : pipe → pipe) : M pst unit :=
  let! _ := pipe_at i in modify (λ s, (s.1, (alter f i s.2.1, s.2.2))).

(** An access to user memory that ends the task when it is not possible. *)
Definition or_kill {A} (f : pst → option (A * pst)) : M pst A := λ s,
  match f s with Some (a, s') => Ok a s' | None => Switch s end.
Definition to_user (va : Z) (d : list Z) : M pst unit :=
  or_kill (λ s, (λ u, (tt, (s.1, (s.2.1, u)))) <$> copy_out va d s.2.2).
Definition from_user (va : Z) (n : nat) : M pst (list Z) :=
  or_kill (λ s, (λ d, (d, s)) <$> copy_in va n s.2.2).

Definition pipeget (i : nat) : M pst unit :=
  onp (spin_get (L_pipe i)) ;;
  mod_pipe i (λ p, set_prefc (i8 (prefc p + 1)) p) ;;
  onp (spin_put (L_pipe i)).
Definition pipeclose (i : nat) : M pst unit :=
  onp (spin_get (L_pipe i)) ;;
  let! p := pipe_at i in
  if prefc p =? 0 then panic "pipeclose: refc=0" else
  mod_pipe i (λ p, set_prefc (i8 (prefc p - 1)) p) ;;
  onp (spin_put (L_pipe i)).
(** The loop of [pipealloc], [n] pipes left. *)
Fixpoint pipealloc_loop (n : nat) : M pst nat :=
  match n with
  | O => panic "pipealloc: exhausted"
  | S n' =>
    let i := (NPIPE - n)%nat in
    onp (spin_get (L_pipe i)) ;;
    let! p := pipe_at i in
    if prefc p =? 0 then
      mod_pipe i (λ p, MkPipe 0 0 2 (pbuf p)) ;;
      onp (spin_put (L_pipe i)) ;;
      onp (spin_put L_pipecache) ;;
      ret i
    else
      onp (spin_put (L_pipe i)) ;;
      pipealloc_loop n'
  end.
Definition pipealloc : M pst nat :=
  onp (spin_get L_pipecache) ;;
  pipealloc_loop NPIPE.

(** [while (bytes > 0)] of [piperead]. *)
Fixpoint read_loop (fuel : nat) (i : nat) (udst start bytes total : Z) : M pst unit :=
  if bytes >? 0 then
    match fuel with
    | O => fault
    | S fuel =>
      let count := cmin bytes (u32 (Z.of_nat PIPE_SIZE - start)) in
      let! p := pipe_at i in
      to_user (udst + total) (take (Z.to_nat count) (drop (Z.to_nat start) (pbuf p))) ;;
      mod_pipe i (λ p, set_nread (u32 (nread p + count)) p) ;;
      read_loop fuel i udst (u32 (start + count) mod Z.of_nat PIPE_SIZE) (u32 (bytes - count)) (u32 (total + count))
    end
  else ret tt.
(** [piperead] from the test of its first loop on: [inl] when it went to sleep. *)
Definition piperead_body (i : nat) (udst len : Z) : M pst (unit + Z) :=
  let! p := pipe_at i in
  if pipe_isempty p then
    onp (sleep_enter (ChPipeRead i) (Some (L_pipe i))) ;; ret (inl tt)
  else
    let bytes := cmin len (pipe_readable_size p) in
    read_loop PIPE_SIZE i udst (nread p mod Z.of_nat PIPE_SIZE) bytes 0 ;;
    onp (wakeup (ChPipeWrite i)) ;;
    onp (spin_put (L_pipe i)) ;;
    ret (inr bytes).
Definition piperead (i : nat) (udst len : Z) : M pst (unit + Z) :=
  onp (spin_get (L_pipe i)) ;; piperead_body i udst len.
Definition piperead_resume (i : nat) (udst len : Z) : M pst (unit + Z) :=
  onp (sleep_resume (Some (L_pipe i))) ;; piperead_body i udst len.

(** [while (total_written < len)] of [pipewrite]: [inl] is the count written when
    it went to sleep. *)
Fixpoint write_loop (fuel : nat) (i : nat) (usrc len total : Z) : M pst (Z + Z) :=
  if total <? len then
    let! p := pipe_at i in
    let writable := pipe_writable_size p in
    if writable =? 0 then
      onp (wakeup (ChPipeRead i)) ;;
      onp (sleep_enter (ChPipeWrite i) (Some (L_pipe i))) ;;
      ret (inl total)
    else
      match fuel with
      | O => fault
      | S fuel =>
        let start := nwrite p mod Z.of_nat PIPE_SIZE in
        let count := cmin (cmin (u32 (len - total)) writable) (u32 (Z.of_nat PIPE_SIZE - start)) in
        let! d := from_user (usrc + total) (Z.to_nat count) in
        mod_pipe i (write_chunk (Z.to_nat start) d) ;;
        write_loop fuel i usrc len (u32 (total + count))
      end
  else
    onp (wakeup (ChPipeRead i)) ;;
    onp (spin_put (L_pipe i)) ;;
    ret (inr len).
Definition pipewrite (i : nat) (usrc len : Z) : M pst (Z + Z) :=
  onp (spin_get (L_pipe i)) ;; write_loop (S PIPE_SIZE) i usrc len 0.
Definition pipewrite_resume (i : nat) (usrc len total : Z) : M pst (Z + Z) :=
  onp (sleep_resume (Some (L_pipe i))) ;; write_loop (S PIPE_SIZE) i usrc len total.
End pipe.

(** ** The queue in the ring *)

(** The [n] bytes of a ring from position [s] on. *)
Definition ring (s n : nat) (buf : list Z) : list Z :=
  (λ k, nth ((s + k) mod PIPE_SIZE) buf 0) <$> seq 0 n.
Definition pos (n : Z) : nat := Z.to_nat (n mod Z.of_nat PIPE_SIZE).
Definition pipe_len (p : pipe) : nat := Z.to_nat (u32 (nwrite p - nread p)).
(** The bytes written and not yet read. *)
Definition contents (p : pipe) : list Z := ring (pos (nread p)) (pipe_len p) (pbuf p).
Record pipe_wf (p : pipe) : Prop := {
  pw_buf : length (pbuf p) = PIPE_SIZE;
  pw_len : (pipe_len p ≤ PIPE_SIZE)%nat;
  pw_read : 0 ≤ nread p < 2 ^ 32;
  pw_write : 0 ≤ nwrite p < 2 ^ 32;
}.

Lemma pos_lt n : (pos n < PIPE_SIZE)%nat.
Proof. unfold pos. pose proof (Z.mod_pos_bound n (Z.of_nat PIPE_SIZE) ltac:(done)). lia. Qed.
(** The counters may wrap: their size is a multiple of the size of the ring. *)
Lemma pos_add n k : pos (u32 (n + Z.of_nat k)) = ((pos n + k) mod PIPE_SIZE)%nat.
Proof.
  unfold pos, u32. change (Z.of_nat PIPE_SIZE) with 64. rewrite Z.mod_mod_divide by (by exists (2 ^ 26)).
  pose proof (Z.mod_pos_bound n 64 ltac:(lia)) as Hb. rewrite Z.add_mod by lia.
  apply Nat2Z.inj. rewrite Nat2Z.inj_mod, Nat2Z.inj_add, !Z2Nat.id by (try apply Z.mod_pos_bound; lia).
  change (Z.of_nat PIPE_SIZE) with 64. by rewrite Zplus_mod_idemp_r.
Qed.
Lemma length_ring s n buf : length (ring s n buf) = n.
Proof. unfold ring. by rewrite length_fmap, length_seq. Qed.
Lemma ring_mod s n buf : ring (s mod PIPE_SIZE) n buf = ring s n buf.
Proof. unfold ring. apply list_fmap_ext. intros i k _. by rewrite Nat.Div0.add_mod_idemp_l. Qed.
Lemma ring_app s a b buf : ring s (a + b) buf = ring s a buf ++ ring ((s + a) mod PIPE_SIZE) b buf.
Proof.
  rewrite ring_mod. unfold ring. rewrite seq_app, fmap_app. f_equal. cbn [Nat.add].
  rewrite <- (Nat.add_0_r a) at 1. rewrite <- (fmap_add_seq a 0 b), <- list_fmap_compose. apply list_fmap_ext. intros i k _. cbn.
  by rewrite Nat.add_assoc.
Qed.
(** A stretch that does not wrap is a slice of the buffer. *)
Lemma ring_slice s n buf : (s + n ≤ PIPE_SIZE)%nat → length buf = PIPE_SIZE → ring s n buf = take n (drop s buf).
Proof.
  intros H Hl. apply list_eq. intros i. unfold ring. rewrite list_lookup_fmap. destruct (decide (i < n)%nat).
  - rewrite lookup_seq_lt, lookup_take_lt, lookup_drop by done. cbn. rewrite Nat.mod_small by lia.
    rewrite nth_lookup. destruct (lookup_lt_is_Some_2 buf (s + i)) as [v ->]; [lia|done].
  - rewrite lookup_ge_None_2 by (rewrite length_seq; lia). by rewrite lookup_take_ge by lia.
Qed.
(** Storing behind the queue appends to it. *)
Lemma ring_store s n d buf : length buf = PIPE_SIZE → (n + length d ≤ PIPE_SIZE)%nat →
  let w := ((s + n) mod PIPE_SIZE)%nat in (w + length d ≤ PIPE_SIZE)%nat →
  ring s (n + length d) (blit w d buf) = ring s n buf ++ d.
Proof.
  intros Hl Hn w Hw. assert (Hlb : length (blit w d buf) = PIPE_SIZE) by (rewrite length_blit; lia).
  rewrite ring_app. fold w. f_equal.
  - unfold ring. apply list_fmap_ext. intros i k Hk. apply lookup_seq in Hk as [-> Hi]. cbn.
    rewrite !nth_lookup, lookup_blit by lia. rewrite decide_False; [done|]. intros Hr. unfold w in *.
    change PIPE_SIZE with 64%nat in *.
    pose proof (Nat.div_mod_eq (s + n) 64). pose proof (Nat.div_mod_eq (s + i) 64).
    pose proof (Nat.mod_upper_bound (s + n) 64 ltac:(lia)). pose proof (Nat.mod_upper_bound (s + i) 64 ltac:(lia)). lia.
  - rewrite ring_slice by done. by rewrite take_drop_blit by lia.
Qed.
Lemma contents_len p : length (contents p) = pipe_len p.
Proof. apply length_ring. Qed.

(** Taking [k] bytes from the front. *)
Lemma contents_read p k : pipe_wf p → (k ≤ pipe_len p)%nat →
  let p' := set_nread (u32 (nread p + Z.of_nat k)) p in
  pipe_wf p' ∧ contents p' = drop k (contents p) ∧ take k (contents p) = ring (pos (nread p)) k (pbuf p).
Proof.
  intros [W1 W2 W3 W4] Hk p'. assert (Hlen : pipe_len p' = (pipe_len p - k)%nat).
  { unfold pipe_len in *. cbn. assert (u32 (nwrite p - u32 (nread p + Z.of_nat k)) = u32 (nwrite p - nread p) - Z.of_nat k) as ->; [|lia].
    pose proof (u32_bound (nwrite p - nread p)). unfold u32 in *.
    rewrite Zminus_mod_idemp_r. replace (nwrite p - (nread p + Z.of_nat k)) with (nwrite p - nread p - Z.of_nat k) by lia.
    rewrite <- Zminus_mod_idemp_l. apply Z.mod_small. lia. }
  split; [split; cbn; [done|lia|apply u32_bound|done]|].
  assert (E : contents p = ring (pos (nread p)) k (pbuf p) ++ contents p').
  { unfold contents. rewrite Hlen. cbn [nread pbuf p' set_nread]. rewrite pos_add, <- ring_app. f_equal. lia. }
  split; rewrite E; [by rewrite drop_app_length' by (by rewrite length_ring)|by rewrite take_app_length' by (by rewrite length_ring)].
Qed.
(** Storing a chunk at the end. *)
Lemma contents_write p d : pipe_wf p → (pipe_len p + length d ≤ PIPE_SIZE)%nat →
  (pos (nwrite p) + length d ≤ PIPE_SIZE)%nat →
  pipe_wf (write_chunk (pos (nwrite p)) d p) ∧
  contents (write_chunk (pos (nwrite p)) d p) = contents p ++ d.
Proof.
  intros [W1 W2 W3 W4] Hn Hw. change PIPE_SIZE with 64%nat in *.
  assert (Hpos : pos (nwrite p) = ((pos (nread p) + pipe_len p) mod PIPE_SIZE)%nat).
  { rewrite <- pos_add. f_equal. unfold pipe_len. rewrite Z2Nat.id by apply u32_bound. unfold u32.
    rewrite Zplus_mod_idemp_r. replace (nread p + (nwrite p - nread p)) with (nwrite p) by lia. symmetry. by apply Z.mod_small. }
  assert (Hlen : pipe_len (write_chunk (pos (nwrite p)) d p) = (pipe_len p + length d)%nat).
  { unfold pipe_len in *. cbn. assert (u32 (u32 (nwrite p + Z.of_nat (length d)) - nread p) = u32 (nwrite p - nread p) + Z.of_nat (length d)) as ->.
    2: { pose proof (u32_bound (nwrite p - nread p)). lia. }
    pose proof (u32_bound (nwrite p - nread p)). unfold u32 in *. rewrite Zminus_mod_idemp_l.
    replace (nwrite p + Z.of_nat (length d) - nread p) with (nwrite p - nread p + Z.of_nat (length d)) by lia.
    rewrite <- Zplus_mod_idemp_l. apply Z.mod_small. lia. }
  split.
  - split; cbn; [rewrite length_blit; unfold PIPE_SIZE; lia|unfold PIPE_SIZE; lia|done|apply u32_bound].
  - unfold contents at 1. rewrite Hlen. cbn [nread pbuf write_chunk]. rewrite Hpos. apply ring_store; [done|done|]. by rewrite <- Hpos.
Qed.

(** ** The loops *)
Section pipe_spec.
Context {U : Type} {UM : UserMem U}.
Implicit Types (m : mach) (ps : list pipe) (u : U).

Lemma pipe_at_ok i m ps u p : ps !! i = Some p → pipe_at i (m, (ps, u)) = Ok p (m, (ps, u)).
Proof. intros E. unfold pipe_at, deref. cbn. by rewrite E. Qed.
Lemma mod_pipe_ok i f m ps u p : ps !! i = Some p → mod_pipe i f (m, (ps, u)) = Ok tt (m, (<[i := f p]> ps, u)).
Proof.
  intros E. unfold mod_pipe. run (pipe_at_ok i m ps u p E). unfold modify. cbn.
  by rewrite (list_alter_insert _ _ _ _ E).
Qed.
Lemma onp_ok {A} (k : M mach A) m (x : list pipe * U) a m' : k m = Ok a m' → onp k (m, x) = Ok a (m', x).
Proof. intros E. unfold onp, onm, zoom. cbn [fst snd]. by rewrite E. Qed.

(** [u'] is [u] with [d] stored at [va]. *)
Definition stored_at (u u' : U) (va : Z) (d : list Z) : Prop :=
  ∀ a, ubyte u' a = if decide (va ≤ a < va + Z.of_nat (length d)) then d !! Z.to_nat (a - va) else ubyte u a.
Definition accessible (u : U) (va : Z) (n : nat) : Prop := ∀ k, 0 ≤ k < Z.of_nat n → is_Some (ubyte u (va + k)).

Lemma stored_app u u1 u2 va d1 d2 : stored_at u u1 va d1 → stored_at u1 u2 (va + Z.of_nat (length d1)) d2 →
  stored_at u u2 va (d1 ++ d2).
Proof.
  intros H1 H2 a. rewrite H2, length_app, Nat2Z.inj_add. destruct (decide (va ≤ a < va + Z.of_nat (length d1))).
  - rewrite decide_False by lia. rewrite H1, !decide_True by lia. by rewrite lookup_app_l by lia.
  - destruct (decide (va + Z.of_nat (length d1) ≤ a < va + Z.of_nat (length d1) + Z.of_nat (length d2))).
    + rewrite decide_True by lia. rewrite lookup_app_r by lia. f_equal. lia.
    + rewrite H1, !decide_False by lia. done.
Qed.
Lemma stored_accessible u u' va d va' n : stored_at u u' va d → accessible u va' n → accessible u' va' n.
Proof.
  intros H Ha k Hk. rewrite H. case_decide; [|by apply Ha]. apply lookup_lt_is_Some_2. lia.
Qed.
Lemma accessible_sub u va n va' n' : accessible u va n → va ≤ va' → va' + Z.of_nat n' ≤ va + Z.of_nat n → accessible u va' n'.
Proof. intros H ? ? k Hk. replace (va' + k) with (va + (va' + k - va)) by lia. apply H. lia. Qed.

Lemma to_user_ok u va d m ps : accessible u va (length d) →
  ∃ u', to_user va d (m, (ps, u)) = Ok tt (m, (ps, u')) ∧ stored_at u u' va d.
Proof.
  intros H. destruct (copy_out_ok u va d H) as (u' & E & Hs). exists u'. split; [|done].
  unfold to_user, or_kill. cbn. by rewrite E.
Qed.
Lemma set_nread_id p : pipe_wf p → set_nread (u32 (nread p + Z.of_nat 0)) p = p.
Proof. intros W. rewrite Z.add_0_r, u32_id by apply W. by destruct p. Qed.
Lemma stored_nil u va p : stored_at u u va (take 0 (contents p)).
Proof. intros a. rewrite take_0. cbn. by rewrite decide_False by lia. Qed.
(** The copying loop of [piperead] takes the front of the queue. *)
Lemma read_loop_spec fuel b i udst total m ps u p : ps !! i = Some p → pipe_wf p → (b ≤ pipe_len p)%nat →
  (b ≤ fuel)%nat → 0 ≤ total → total + Z.of_nat b ≤ Z.of_nat PIPE_SIZE → accessible u (udst + total) b →
  ∃ u', read_loop fuel i udst (Z.of_nat (pos (nread p))) (Z.of_nat b) total (m, (ps, u)) =
      Ok tt (m, (<[i := set_nread (u32 (nread p + Z.of_nat b)) p]> ps, u')) ∧
    stored_at u u' (udst + total) (take b (contents p)).
Proof.
  revert b total ps u p. induction fuel as [|fuel IH]; intros b total ps u p Hi W Hb Hf Ht Htb Ha.
  { assert (b = 0)%nat as -> by lia. exists u. split; [|apply stored_nil]. rewrite (set_nread_id p W), list_insert_id by done.
    done. }
  destruct b as [|b'] eqn:Eb.
  { exists u. split; [|apply stored_nil]. rewrite (set_nread_id p W), list_insert_id by done.
    done. }
  rewrite <- Eb in *. assert (Hb0 : (0 < b)%nat) by lia. clear Eb b'. cbn [read_loop].
  destruct (Z.of_nat b >? 0) eqn:E0; [|lia].
  pose proof (pos_lt (nread p)) as Hpos. pose proof W as [W1 W2 W3 W4]. change PIPE_SIZE with 64%nat in *.
  change (Z.of_nat 64) with 64 in *. rewrite (u32_id (64 - _)) by lia.
  set (c := (Nat.min b (64 - pos (nread p)))%nat).
  assert (cmin (Z.of_nat b) (64 - Z.of_nat (pos (nread p))) = Z.of_nat c) as ->.
  { rewrite cmin_min. unfold c. lia. }
  run (pipe_at_ok i m ps u p Hi). rewrite !Nat2Z.id.
  destruct (contents_read p c W) as (W' & Ec & Etk); [lia|]. rewrite ring_slice in Etk by (unfold PIPE_SIZE; lia || done).
  rewrite <- Etk. assert (Hlc : length (take c (contents p)) = c) by (rewrite length_take, contents_len; lia).
  destruct (to_user_ok u (udst + total) (take c (contents p)) m ps) as (u1 & E1 & Hs1).
  { rewrite Hlc. eapply accessible_sub; [exact Ha|lia|lia]. }
  run E1. run (mod_pipe_ok i (λ p, set_nread (u32 (nread p + Z.of_nat c)) p) m ps u1 p Hi).
  set (p1 := set_nread (u32 (nread p + Z.of_nat c)) p) in *.
  rewrite (u32_id (Z.of_nat (pos (nread p)) + Z.of_nat c)), (u32_id (Z.of_nat b - Z.of_nat c)), (u32_id (total + Z.of_nat c)) by lia.
  assert ((Z.of_nat (pos (nread p)) + Z.of_nat c) mod 64 = Z.of_nat (pos (nread p1))) as ->.
  { unfold p1. cbn [nread set_nread]. rewrite pos_add, Nat2Z.inj_mod, Nat2Z.inj_add. done. }
  replace (Z.of_nat b - Z.of_nat c) with (Z.of_nat (b - c)) by lia.
  pose proof (lookup_lt_Some _ _ _ Hi) as Hlt.
  assert (Hlen1 : pipe_len p1 = (pipe_len p - c)%nat) by (rewrite <- !contents_len, Ec, length_drop; done).
  destruct (IH (b - c)%nat (total + Z.of_nat c) (<[i:=p1]> ps) u1 p1) as (u2 & E2 & Hs2);
    [by apply list_lookup_insert_eq|done|lia|lia|lia|lia| |].
  { eapply stored_accessible; [exact Hs1|]. eapply accessible_sub; [exact Ha|lia|lia]. }
  exists u2. split.
  - rewrite E2, list_insert_insert_eq. do 4 f_equal. unfold p1, set_nread. cbn. f_equal.
    unfold u32. rewrite Zplus_mod_idemp_l. f_equal. lia.
  - replace (take b (contents p)) with (take c (contents p) ++ take (b - c) (contents p1)).
    + eapply stored_app; [exact Hs1|]. rewrite Hlc.
      by replace (udst + total + Z.of_nat c) with (udst + (total + Z.of_nat c)) by lia.
    + rewrite Ec. symmetry. apply take_split. lia.
Qed.

(** The user buffer at [va] holds [d]. *)
Definition holds (u : U) (va : Z) (d : list Z) : Prop :=
  ∀ k, (k < length d)%nat → ubyte u (va + Z.of_nat k) = d !! k.
Lemma from_user_ok u va d m ps n total : holds u va d → (total + n ≤ length d)%nat →
  from_user (va + Z.of_nat total) n (m, (ps, u)) = Ok (take n (drop total d)) (m, (ps, u)).
Proof.
  intros H Hn. destruct (copy_in_ok u (va + Z.of_nat total) n) as (d' & E & Hl & Hk).
  { intros k Hk. replace (va + Z.of_nat total + k) with (va + Z.of_nat (total + Z.to_nat k)) by lia.
    rewrite H by lia. apply lookup_lt_is_Some_2. lia. }
  unfold from_user, or_kill. cbn. rewrite E. cbn. f_equal. apply list_eq. intros k.
  destruct (decide (k < n)%nat).
  - rewrite <- Hk, lookup_take_lt, lookup_drop by done. rewrite <- H by lia. f_equal. lia.
  - rewrite lookup_take_ge by lia. apply lookup_ge_None_2. lia.
Qed.

(** [pipewrite] appends as much as fits; when not everything does it goes to sleep
    with the queue full, having released the lock. *)
Lemma write_loop_spec fuel i usrc D total t m ps u p : ps !! i = Some p → pipe_wf p →
  (PIPE_SIZE - pipe_len p ≤ fuel)%nat → holds u usrc D → (total ≤ length D)%nat → Z.of_nat (length D) < 2 ^ 32 →
  can_sleep m → mytask m = Some t → (t < NPROC)%nat →
  let free := (PIPE_SIZE - pipe_len p)%nat in
  ∃ m' p', pipe_wf p' ∧
    if decide (length D - total ≤ free)%nat
    then write_loop fuel i usrc (Z.of_nat (length D)) (Z.of_nat total) (acq (L_pipe i) m, (ps, u)) =
           Ok (inr (Z.of_nat (length D))) (m', (<[i := p']> ps, u)) ∧
         contents p' = contents p ++ drop total D ∧ can_sleep m'
    else write_loop fuel i usrc (Z.of_nat (length D)) (Z.of_nat total) (acq (L_pipe i) m, (ps, u)) =
           Ok (inl (Z.of_nat (total + free))) (m', (<[i := p']> ps, u)) ∧
         contents p' = contents p ++ take free (drop total D) ∧ pipe_len p' = PIPE_SIZE ∧
         m_tasks m' !! t = Some (MkTsk SLEEP (Some (ChPipeWrite i))) ∧ m_spin m' !! L_pipe i = None.
Proof.
  revert total ps p. induction fuel as [|fuel IH]; intros total ps p Hi W Hf Hd Ht HD Hm Hmy Htn free.
  all: cbn [write_loop]; destruct (Z.ltb_spec (Z.of_nat total) (Z.of_nat (length D))) as [Hlt|Hge].
  2,4: destruct (wakeup_critical (ChPipeRead i) (L_pipe i) m Hm ltac:(done)) as (ts & Ew & _ & Hm1);
    exists (touch (set_tasks (λ _, ts) m)), p; split; [done|]; rewrite decide_True by lia;
    run (onp_ok _ _ (ps, u) _ _ Ew);
    erewrite bind_ok; [|apply onp_ok; rewrite spin_put_held by apply acq_held; rewrite rel_acq;
      [reflexivity|apply quiet_wf, Hm1|apply quiet_free, Hm1]]; cbn beta;
    rewrite list_insert_id, drop_ge, app_nil_r by (done || lia); split_and!; [done|done|by apply (frame_can_sleep _ _ (touch_frame _))].
  all: run (pipe_at_ok i (acq (L_pipe i) m) ps u p Hi); pose proof W as [W1 W2 W3 W4];
    assert (Hw : pipe_writable_size p = Z.of_nat free) by (unfold pipe_writable_size, free, pipe_len in *;
      pose proof (u32_bound (nwrite p - nread p)); change PIPE_SIZE with 64%nat in *; rewrite u32_id; lia);
    rewrite Hw; destruct (Z.eqb_spec (Z.of_nat free) 0) as [E0|E0].
  1,3: destruct (wakeup_critical (ChPipeRead i) (L_pipe i) m Hm ltac:(done)) as (ts & Ew & _ & Hm1);
    destruct (sleep_enter_spec (ChPipeWrite i) (L_pipe i) _ t Hm1 Hmy Htn ltac:(done)) as (m2 & Es & Hts & Hsp & _);
    exists m2, p; split; [done|]; rewrite decide_False by lia;
    run (onp_ok _ _ (ps, u) _ _ Ew); run (onp_ok _ _ (ps, u) _ _ Es);
    rewrite list_insert_id by done; replace free with 0%nat by lia;
    rewrite Nat.add_0_r, take_0, app_nil_r; split_and!;
    [done|done|unfold free in *; lia|rewrite Hts; apply list_lookup_insert_eq; destruct Hm1 as (_ & _ & ->); done
    |rewrite Hsp; by apply lookup_singleton_ne].
  { unfold free in *. lia. }
  rewrite (u32_id (Z.of_nat (length D) - Z.of_nat total)) by lia.
  assert (Hpos : nwrite p mod Z.of_nat PIPE_SIZE = Z.of_nat (pos (nwrite p))).
  { unfold pos. rewrite Z2Nat.id; [done|]. by apply Z.mod_pos_bound. }
  pose proof (pos_lt (nwrite p)) as Hpl. rewrite Hpos, Nat2Z.id. change PIPE_SIZE with 64%nat in *. change (Z.of_nat 64) with 64 in *.
  rewrite (u32_id (64 - _)) by lia.
  set (c := (Nat.min (Nat.min (length D - total) free) (64 - pos (nwrite p)))%nat).
  assert (cmin (cmin (Z.of_nat (length D) - Z.of_nat total) (Z.of_nat free)) (64 - Z.of_nat (pos (nwrite p))) = Z.of_nat c) as ->.
  { rewrite !cmin_min. unfold c. lia. }
  rewrite Nat2Z.id. run (from_user_ok u usrc D (acq (L_pipe i) m) ps c total Hd ltac:(lia)).
  set (d := take c (drop total D)). assert (Hld : length d = c) by (unfold d; rewrite length_take, length_drop; lia).
  run (mod_pipe_ok i (write_chunk (pos (nwrite p)) d) (acq (L_pipe i) m) ps u p Hi).
  destruct (contents_write p d W) as [W' Ec]; [unfold free, PIPE_SIZE in *; lia|unfold PIPE_SIZE; lia|].
  set (p1 := write_chunk (pos (nwrite p)) d p) in *.
  assert (Hl1 : pipe_len p1 = (pipe_len p + c)%nat) by (rewrite <- !contents_len, Ec, length_app, Hld; done).
  rewrite u32_id by lia. replace (Z.of_nat total + Z.of_nat c) with (Z.of_nat (total + c)) by lia.
  destruct (IH (total + c)%nat (<[i:=p1]> ps) p1) as (m' & p' & Wp & Hr);
    [apply list_lookup_insert_eq; by eapply lookup_lt_Some|done|lia|done|lia|done|done|done|done|].
  exists m', p'. split; [done|]. rewrite Hl1 in Hr. fold free in Hr.
  replace (64 - (pipe_len p + c))%nat with (free - c)%nat in Hr by (unfold free; lia).
  assert (Hsplit : ∀ n, (c ≤ n)%nat → take n (drop total D) = d ++ take (n - c) (drop (total + c) D)).
  { intros n Hn. unfold d. rewrite <- drop_drop. by apply take_split. }
  destruct (decide (length D - (total + c) ≤ free - c)%nat) as [Hfin|Hnf].
  - rewrite decide_True by lia. rewrite list_insert_insert_eq in Hr. destruct Hr as (E & C & Hc). split; [exact E|].
    split; [|done]. rewrite C, Ec, <- app_assoc. f_equal.
    rewrite <- (take_ge (drop total D) (length D)) by (rewrite length_drop; lia).
    rewrite (Hsplit (length D)) by lia. rewrite take_ge; [done|]. rewrite length_drop. lia.
  - rewrite decide_False by lia. rewrite list_insert_insert_eq in Hr. destruct Hr as (E & C & Hlen & Hts & Hsp).
    replace (total + c + (free - c))%nat with (total + free)%nat in E by lia. split; [exact E|].
    split; [|done]. by rewrite C, Ec, <- app_assoc, (Hsplit free) by lia.
Qed.

(** [piperead] on both branches: it sleeps on an empty pipe, and delivers the front
    of the queue otherwise. *)
Lemma piperead_body_spec i udst len t m ps u p : ps !! i = Some p → pipe_wf p → 0 ≤ len →
  can_sleep m → mytask m = Some t → (t < NPROC)%nat →
  let n := Nat.min (Z.to_nat len) (pipe_len p) in accessible u udst n →
  if decide (pipe_len p = 0%nat)
  then ∃ m', piperead_body i udst len (acq (L_pipe i) m, (ps, u)) = Ok (inl tt) (m', (ps, u)) ∧
         m_tasks m' !! t = Some (MkTsk SLEEP (Some (ChPipeRead i))) ∧ m_spin m' !! L_pipe i = None
  else ∃ m' u' p', piperead_body i udst len (acq (L_pipe i) m, (ps, u)) =
           Ok (inr (Z.of_nat n)) (m', (<[i := p']> ps, u')) ∧ pipe_wf p' ∧
         stored_at u u' udst (take n (contents p)) ∧ contents p' = drop n (contents p) ∧ can_sleep m'.
Proof.
  intros Hi W Hlen Hm Hmy Htn n Ha. pose proof W as [W1 W2 W3 W4]. unfold piperead_body.
  run (pipe_at_ok i (acq (L_pipe i) m) ps u p Hi).
  assert (Hemp : pipe_isempty p = bool_decide (pipe_len p = 0%nat)).
  { unfold pipe_isempty, pipe_len. pose proof (u32_bound (nwrite p - nread p)) as Hb. unfold u32 in *.
    destruct (Z.eqb_spec (nread p) (nwrite p)) as [E|E]; symmetry.
    - apply bool_decide_eq_true. by rewrite E, Z.sub_diag.
    - apply bool_decide_eq_false. intros H0. assert ((nwrite p - nread p) mod 2 ^ 32 = 0) as Hz by lia.
      apply Z.mod_divide in Hz as [z Hz]; [|done]. lia. }
  rewrite Hemp. destruct (decide (pipe_len p = 0%nat)) as [E|E].
  - rewrite bool_decide_eq_true_2 by done.
    destruct (sleep_enter_spec (ChPipeRead i) (L_pipe i) m t Hm Hmy Htn ltac:(done)) as (m2 & Es & Hts & Hsp & _).
    exists m2. run (onp_ok _ _ (ps, u) _ _ Es). split; [done|]. split.
    + rewrite Hts. apply list_lookup_insert_eq. destruct Hm as (_ & _ & ->). done.
    + rewrite Hsp. by apply lookup_singleton_ne.
  - rewrite bool_decide_eq_false_2 by done.
    assert (cmin len (pipe_readable_size p) = Z.of_nat n) as ->.
    { rewrite cmin_min. unfold pipe_readable_size, n, pipe_len in *. pose proof (u32_bound (nwrite p - nread p)). lia. }
    assert (Hpos : nread p mod Z.of_nat PIPE_SIZE = Z.of_nat (pos (nread p))).
    { unfold pos. rewrite Z2Nat.id; [done|]. by apply Z.mod_pos_bound. }
    rewrite Hpos. destruct (contents_read p n W) as (W' & Ec & _); [lia|].
    destruct (read_loop_spec PIPE_SIZE n i udst 0 (acq (L_pipe i) m) ps u p Hi W) as (u' & Er & Hs);
      [lia|lia|lia|lia|by rewrite Z.add_0_r|].
    rewrite Z.add_0_r in Hs. run Er. set (p' := set_nread _ p) in *.
    destruct (wakeup_critical (ChPipeWrite i) (L_pipe i) m Hm ltac:(done)) as (ts & Ew & _ & Hm1).
    run (onp_ok _ _ (<[i:=p']> ps, u') _ _ Ew).
    erewrite bind_ok; [|apply onp_ok; rewrite spin_put_held by apply acq_held; rewrite rel_acq;
      [reflexivity|apply quiet_wf, Hm1|apply quiet_free, Hm1]]. cbn beta.
    eexists _, u', p'. split; [done|]. split; [done|]. split; [done|]. split; [done|].
    by apply (frame_can_sleep _ _ (touch_frame _)).
Qed.

(** ** Any interleaving of readers and writers

    A step is one run of a reader or a writer of pipe [i] from the moment it has
    the lock until it returns or sleeps; [w] are the bytes of the user buffer it
    consumed and [r] the bytes it delivered. *)
Inductive pipe_step (i : nat) : list pipe → list Z → list Z → list pipe → Prop :=
| step_write m t ps u usrc D total res m' ps' u' :
    can_sleep m → mytask m = Some t → (t < NPROC)%nat →
    holds u usrc D → (total ≤ length D)%nat → Z.of_nat (length D) < 2 ^ 32 →
    write_loop (S PIPE_SIZE) i usrc (Z.of_nat (length D)) (Z.of_nat total) (acq (L_pipe i) m, (ps, u)) =
      Ok res (m', (ps', u')) →
    pipe_step i ps
      (match res with inl k => take (Z.to_nat k - total) (drop total D) | inr _ => drop total D end) [] ps'
| step_read m t ps u udst len res m' ps' u' got :
    can_sleep m → mytask m = Some t → (t < NPROC)%nat → 0 ≤ len →
    accessible u udst (Nat.min (Z.to_nat len) PIPE_SIZE) →
    piperead_body i udst len (acq (L_pipe i) m, (ps, u)) = Ok res (m', (ps', u')) →
    Z.of_nat (length got) = match res with inl _ => 0 | inr n => n end → holds u' udst got →
    pipe_step i ps [] got ps'.
Inductive pipe_steps (i : nat) : list pipe → list Z → list Z → list pipe → Prop :=
| steps_nil ps : pipe_steps i ps [] [] ps
| steps_cons ps1 ps2 ps3 w1 r1 w2 r2 :
    pipe_step i ps1 w1 r1 ps2 → pipe_steps i ps2 w2 r2 ps3 → pipe_steps i ps1 (w1 ++ w2) (r1 ++ r2) ps3.

Lemma stored_holds u u' va d : stored_at u u' va d → holds u' va d.
Proof. intros H k Hk. rewrite H, decide_True by lia. f_equal. lia. Qed.
Lemma holds_inj u va d d' : holds u va d → holds u va d' → length d = length d' → d = d'.
Proof.
  intros H H' Hl. apply list_eq. intros k. destruct (decide (k < length d)%nat).
  - rewrite <- H, <- H' by lia. done.
  - by rewrite !lookup_ge_None_2 by lia.
Qed.
Lemma pipe_step_fifo i ps w r ps' p : pipe_step i ps w r ps' → ps !! i = Some p → pipe_wf p →
  ∃ p', ps' !! i = Some p' ∧ pipe_wf p' ∧ contents p ++ w = r ++ contents p'.
Proof.
  intros St Hi W. pose proof (lookup_lt_Some _ _ _ Hi) as Hlt.
  destruct St as [m t ps u usrc D total res m' ps' u' Hm Hmy Htn Hd Ht HD E|m t ps u udst len res m' ps' u' got Hm Hmy Htn Hlen Ha E Hg Hh].
  - destruct (write_loop_spec (S PIPE_SIZE) i usrc D total t m ps u p Hi W) as (m1 & p1 & W1 & Hr); [lia|done..|].
    case_decide as Hc; destruct Hr as (E1 & C1 & Hr); rewrite E in E1; injection E1 as -> -> -> ->; exists p1;
      (split; [by apply list_lookup_insert_eq|]); (split; [done|]); cbn [app]; rewrite C1; [done|].
    do 2 f_equal. rewrite Nat2Z.id. lia.
  - pose proof (piperead_body_spec i udst len t m ps u p Hi W Hlen Hm Hmy Htn) as Hr. cbn zeta in Hr.
    specialize (Hr ltac:(eapply accessible_sub; [exact Ha|lia|pose proof (pw_len _ W); lia])).
    case_decide as Hc.
    + destruct Hr as (m1 & E1 & _). rewrite E in E1. injection E1 as -> -> -> ->. exists p.
      split; [done|]. split; [done|]. destruct got; [|done]. by rewrite app_nil_r.
    + destruct Hr as (m1 & u1 & p1 & E1 & W1 & Hs & C1 & _). rewrite E in E1. injection E1 as -> -> -> ->. exists p1.
      split; [by apply list_lookup_insert_eq|]. split; [done|]. rewrite app_nil_r, C1.
      assert (got = take (Nat.min (Z.to_nat len) (pipe_len p)) (contents p)) as ->; [|by rewrite take_drop].
      eapply holds_inj; [exact Hh|by eapply stored_holds|]. rewrite length_take, contents_len. lia.
Qed.
Lemma pipe_steps_fifo i ps w r ps' p : pipe_steps i ps w r ps' → ps !! i = Some p → pipe_wf p →
  ∃ p', ps' !! i = Some p' ∧ pipe_wf p' ∧ contents p ++ w = r ++ contents p'.
Proof.
  intros St. revert p. induction St as [ps|ps1 ps2 ps3 w1 r1 w2 r2 S1 _ IH]; intros p Hi W.
  { exists p. split; [done|]. split; [done|]. by rewrite app_nil_r. }
  destruct (pipe_step_fifo i ps1 w1 r1 ps2 p S1 Hi W) as (p1 & Hi1 & W1 & E1).
  destruct (IH p1 Hi1 W1) as (p2 & Hi2 & W2 & E2). exists p2. split; [done|]. split; [done|].
  by rewrite app_assoc, E1, <- app_assoc, E2, app_assoc.
Qed.

(** *** [pipealloc] *)

(** The pipes before [j] are in use and [j] is not. *)
Definition first_free (ps : list pipe) (j : nat) (p : pipe) : Prop :=
  ps !! j = Some p ∧ prefc p = 0 ∧ ∀ k p, (k < j)%nat → ps !! k = Some p → prefc p ≠ 0.
Lemma nested_pipe_lock i m : quiet m → let mc := acq L_pipecache m in
  m_wf mc ∧ lock_free mc (L_pipe i) ∧ touch mc = mc.
Proof.
  intros Hq mc. pose proof Hq as [Hl He].
  split_and!; [apply acq_wf; [auto with mach|lia]| |apply touch_inside; unfold mc; rewrite acq_level by done; lia].
  unfold lock_free, mc. cbn. by rewrite He, insert_empty, lookup_singleton_ne.
Qed.
Lemma pipealloc_loop_spec n j m ps u p : quiet m → length ps = NPIPE → (n ≤ NPIPE)%nat → (NPIPE - n ≤ j)%nat →
  first_free ps j p →
  pipealloc_loop n (acq L_pipecache m, (ps, u)) = Ok j (touch m, (<[j := MkPipe 0 0 2 (pbuf p)]> ps, u)).
Proof.
  intros Hq Hl Hn Hj (Ep & Hz & Hused). pose proof (lookup_lt_Some _ _ _ Ep) as Hlt. revert Hn Hj.
  induction n as [|n IH]; intros Hn Hj; [lia|]. cbn [pipealloc_loop]. set (i := (NPIPE - S n)%nat) in *.
  destruct (nested_pipe_lock i m Hq) as (Hw & Hf & Ht). set (mc := acq L_pipecache m) in *.
  destruct (lookup_lt_is_Some_2 ps i) as [p1 Ei]; [lia|].
  run (onp_ok _ mc (ps, u) _ _ (spin_get_free (L_pipe i) mc Hf)). run (pipe_at_ok i (acq (L_pipe i) mc) ps u p1 Ei).
  assert (Erel : ∀ ps', onp (spin_put (L_pipe i)) (acq (L_pipe i) mc, (ps', u)) = Ok tt (mc, (ps', u))).
  { intros ps'. apply onp_ok. rewrite spin_put_held by apply acq_held. by rewrite rel_acq, Ht by done. }
  destruct (decide (i = j)) as [Eij|Hne].
  - assert (p1 = p) as -> by (rewrite Eij in Ei; congruence). destruct (Z.eqb_spec (prefc p) 0) as [_|Hr].
    2: done.
    run (mod_pipe_ok i (λ p, MkPipe 0 0 2 (pbuf p)) (acq (L_pipe i) mc) ps u p Ei). run (Erel (<[i := MkPipe 0 0 2 (pbuf p)]> ps)).
    rewrite Eij. erewrite bind_ok; [done|]. apply onp_ok. unfold mc. rewrite spin_put_held by apply acq_held.
    by rewrite rel_acq by auto with mach.
  - destruct (Z.eqb_spec (prefc p1) 0) as [Hz1|_]; [exfalso; by apply (Hused i p1); [lia|..]|].
    run (Erel ps). apply IH; lia.
Qed.
Lemma pipealloc_spec j m ps u p : quiet m → length ps = NPIPE → first_free ps j p →
  pipealloc (m, (ps, u)) = Ok j (touch m, (<[j := MkPipe 0 0 2 (pbuf p)]> ps, u)).
Proof.
  intros Hq Hl Hf. unfold pipealloc. run (onp_ok _ m (ps, u) _ _ (spin_get_free L_pipecache m ltac:(auto with mach))).
  apply pipealloc_loop_spec; (done || lia).
Qed.
End pipe_spec.
