(* ===== verification/Slot.v ===== *)
(** Object slots (kernel/mem/slot.c): the allocator the macro [slot_define]
    generates for [struct vma], [struct mm_struct], [struct fs_struct] and
    [struct file].

    A slot owns a page, cut into [N] chunks of an object, the slot it belongs to
    and a flag.  A page that [alloc_page] hands out is zero, so all its chunks are
    [chunk0]; a pointer to an object is its page and its index there. *)
From S2P Require Import Prelude Bytes ListNode Machine PageAlloc.

Record chunk (T : Type) := MkChunk { c_obj : T; c_belong : option nat; c_inuse : bool }.
Arguments MkChunk {T} _ _ _.
Arguments c_obj {T} _.
Arguments c_belong {T} _.
Arguments c_inuse {T} _.
(** [struct name]: [s_slot] is the page of the chunks. *)
Record slot := MkSlot { s_refc : Z; s_slot : option nat; s_next : option nat }.
Definition NSLOT_DEFAULT : nat := 3.
Definition optr : Type := nat * nat.

Section slot.
(** [kind] names the locks, [N] is [PGSIZE / sizeof(struct chunk)], [zero] the
    object in a zero page. *)
Context {T : Type} (kind : slot_kind) (N : nat) (zero : T).

Record slots := MkSlots {
  sl_slots : list slot;
  sl_chunks : gmap optr (chunk T);
}.
Definition chunk0 : chunk T := MkChunk zero None false.
Definition chunk_of (st : slots) (o : optr) : chunk T := default chunk0 (sl_chunks st !! o).
Definition put_slot (k : nat) (v : slot) (st : slots) : slots := MkSlots (<[k := v]> (sl_slots st)) (sl_chunks st).
Definition put_chunk (o : optr) (c : chunk T) (st : slots) : slots := MkSlots (sl_slots st) (<[o := c]> (sl_chunks st)).
(** The chunks of a page that was zeroed. *)
Definition zero_chunks (q : nat) (st : slots) : slots :=
  MkSlots (sl_slots st) (filter (λ oc, oc.1.1 ≠ q) (sl_chunks st)).

Definition SM : Type → Type := M ((mach * pmem) * slots).
Definition on_pm {A} (m : PM A) : SM A := zoom fst (λ p s, (p, s.2)) m.
Definition on_lock {A} (m : M mach A) : SM A := on_pm (on_mach m).
Definition slot_at (k : nat) : SM slot := deref (λ s, sl_slots s.2 !! k).
Definition mod_slots (f : slots → slots) : SM unit := modify (λ s, (s.1, f s.2)).

(** [for (int i = 0; i < N; ++i) if (cur->slot[i].inuse == false)], [n] left. *)
Fixpoint free_chunk (q n : nat) (st : slots) : option nat :=
  match n with
  | O => None
  | S n' => let i := (N - n)%nat in if c_inuse (chunk_of st (q, i)) then free_chunk q n' st else Some i
  end.
(** [alloc_##name]: the part of the loop body behind the page of the slot; [next]
    goes on with the loop. *)
Definition alloc_in (k : nat) (next : option nat → SM optr) : SM optr :=
  let! sl := slot_at k in
  if s_refc sl =? Z.of_nat N then
    on_lock (spin_put (L_slot kind k)) ;;
    next (s_next sl)
  else
    let! q := deref (λ _, s_slot sl) in
    let! st := gets snd in
    match free_chunk q N st with
    | Some i =>
      mod_slots (λ st, put_slot k (MkSlot (u32 (s_refc sl + 1)) (s_slot sl) (s_next sl))
        (put_chunk (q, i) (MkChunk (c_obj (chunk_of st (q, i))) (Some k) true) st)) ;;
      on_lock (spin_put (L_slot kind k)) ;;
      ret (q, i)
    | None =>
      on_lock (spin_put (L_slot kind k)) ;;
      next (Some k)
    end.
(** [alloc_##name]; the fuel bounds the slots visited. *)
Fixpoint alloc_loop (fuel : nat) (cur : option nat) : SM optr :=
  match cur with
  | None => panic "slot exhausted"
  | Some k =>
    match fuel with
    | O => (λ s, Spin s)
    | S fuel =>
      on_lock (spin_get (L_slot kind k)) ;;
      let! sl := slot_at k in
      (if s_refc sl =? 0 then
         let! q := on_pm alloc_page in
         mod_slots (λ st, put_slot k (MkSlot (s_refc sl) (Some q) (s_next sl)) (zero_chunks q st))
       else ret tt) ;;
      alloc_in k (alloc_loop fuel)
    end
  end.
Definition alloc_slot : SM optr := alloc_loop (S NSLOT_DEFAULT) (Some 0%nat).
(** [free_##name]. *)
Definition free_slot (o : optr) : SM unit :=
  let! st := gets snd in
  let! k := deref (λ _, c_belong (chunk_of st o)) in
  on_lock (spin_get (L_slot kind k)) ;;
  mod_slots (λ st, put_chunk o (MkChunk (c_obj (chunk_of st o)) (c_belong (chunk_of st o)) false) st) ;;
  let! sl := slot_at k in
  let refc := u32 (s_refc sl - 1) in
  mod_slots (put_slot k (MkSlot refc (s_slot sl) (s_next sl))) ;;
  (if refc =? 0 then
     let! q := deref (λ _, s_slot sl) in
     on_pm (free_page (page (paddr_of q))) ;;
     mod_slots (put_slot k (MkSlot refc None (s_next sl)))
   else ret tt) ;;
  on_lock (spin_put (L_slot kind k)).
(** [init_##name] on the statically zeroed slots. *)
Definition init_slots : slots :=
  MkSlots ((λ i, MkSlot 0 None (if decide (i < NSLOT_DEFAULT - 1)%nat then Some (S i) else None)) <$>
    seq 0 NSLOT_DEFAULT) ∅.
End slot.
Arguments slots : clear implicits.

(** ** Invariant

    Every slot either has no page and no object, or owns a page that no other slot
    and no task owns and counts the chunks in use there. *)
Section slot_spec.
Context {T : Type} (kind : slot_kind) (N : nat) (zero : T) (HN : (0 < N < 4096)%nat).
Implicit Types (st : slots T) (sl : slot) (o : optr).

Definition flags st (q : nat) : list bool := (λ i, c_inuse (chunk_of zero st (q, i))) <$> seq 0 N.
Definition n_inuse st (q : nat) : nat := countb (λ b : bool, b) (flags st q).
Definition page_ok (tl : gmap nat (list nat)) (p : pmem) (q : nat) : Prop :=
  (q < NPAGE)%nat ∧ q ∈ pg_inuse p ∧ ∀ t l, tl !! t = Some l → q ∉ l.
Definition slot_ok tl p st (k : nat) sl : Prop :=
  match s_slot sl with
  | None => s_refc sl = 0
  | Some q => page_ok tl p q ∧ 0 < s_refc sl ∧ s_refc sl = Z.of_nat (n_inuse st q) ∧
      ∀ i, (i < N)%nat → c_inuse (chunk_of zero st (q, i)) = true → c_belong (chunk_of zero st (q, i)) = Some k
  end.
Record slots_inv (tl : gmap nat (list nat)) (p : pmem) st : Prop := {
  sv_len : length (sl_slots st) = NSLOT_DEFAULT;
  sv_next k sl : sl_slots st !! k = Some sl →
    s_next sl = if decide (k < NSLOT_DEFAULT - 1)%nat then Some (S k) else None;
  sv_slot k sl : sl_slots st !! k = Some sl → slot_ok tl p st k sl;
  sv_disj k k' sl sl' q : sl_slots st !! k = Some sl → sl_slots st !! k' = Some sl' →
    s_slot sl = Some q → s_slot sl' = Some q → k = k';
}.
(** The objects handed out and not yet returned. *)
Definition live st o : Prop := ∃ k sl, sl_slots st !! k = Some sl ∧ s_slot sl = Some o.1 ∧
  (o.2 < N)%nat ∧ c_inuse (chunk_of zero st o) = true.
(** Every slot is full. *)
Definition slots_full st : Prop := ∀ k sl, sl_slots st !! k = Some sl → s_refc sl = Z.of_nat N.

Lemma flags_lookup st q i : (i < N)%nat → flags st q !! i = Some (c_inuse (chunk_of zero st (q, i))).
Proof. intros Hi. unfold flags. by rewrite list_lookup_fmap, lookup_seq_lt by done. Qed.
Lemma length_flags st q : length (flags st q) = N.
Proof. unfold flags. by rewrite length_fmap, length_seq. Qed.
Lemma n_inuse_le st q : (n_inuse st q ≤ N)%nat.
Proof. pose proof (countb_le (λ b : bool, b) (flags st q)) as H. by rewrite length_flags in H. Qed.
Lemma chunk_put_eq st o c : chunk_of zero (put_chunk o c st) o = c.
Proof. unfold chunk_of, put_chunk. cbn. by rewrite lookup_insert_eq. Qed.
Lemma chunk_put_ne st o o' c : o ≠ o' → chunk_of zero (put_chunk o c st) o' = chunk_of zero st o'.
Proof. intros H. unfold chunk_of, put_chunk. cbn. by rewrite lookup_insert_ne. Qed.
Lemma n_inuse_ext st st' q : (∀ i, (i < N)%nat → chunk_of zero st' (q, i) = chunk_of zero st (q, i)) →
  n_inuse st' q = n_inuse st q.
Proof.
  intros H. unfold n_inuse, flags. f_equal. apply list_fmap_ext. intros k i Hi.
  apply lookup_seq in Hi as [-> Hk]. by rewrite H.
Qed.
Lemma n_inuse_put st q i c : (i < N)%nat →
  (n_inuse (put_chunk (q, i) c st) q + (if c_inuse (chunk_of zero st (q, i)) then 1 else 0) =
   n_inuse st q + (if c_inuse c then 1 else 0))%nat.
Proof.
  intros Hi. pose proof (countb_insert (λ b : bool, b) _ i _ (c_inuse c) (flags_lookup st q i Hi)) as H.
  cbn beta in H. unfold n_inuse. rewrite <- H. do 2 f_equal. apply list_eq. intros j. destruct (decide (j < N)%nat) as [Hj|Hj].
  - rewrite flags_lookup by done. destruct (decide (i = j)) as [<-|Hne].
    + rewrite list_lookup_insert_eq by (by rewrite length_flags). by rewrite chunk_put_eq.
    + rewrite list_lookup_insert_ne, flags_lookup by done. rewrite chunk_put_ne by congruence. done.
  - rewrite !lookup_ge_None_2; [done|rewrite length_insert|]; rewrite length_flags; lia.
Qed.
Lemma free_chunk_spec st q n : (n ≤ N)%nat → (∀ i, (i < N - n)%nat → c_inuse (chunk_of zero st (q, i)) = true) →
  (n_inuse st q < N)%nat →
  ∃ i, free_chunk N zero q n st = Some i ∧ (i < N)%nat ∧ c_inuse (chunk_of zero st (q, i)) = false.
Proof.
  intros Hn Hb Hc. induction n as [|n IH].
  - destruct (countb_lt_exists (λ b : bool, b) (flags st q)) as (i & x & E & Hx); [by rewrite length_flags|].
    pose proof (lookup_lt_Some _ _ _ E) as Hi. rewrite length_flags in Hi. rewrite flags_lookup in E by done.
    injection E as E. rewrite Hb in E by lia. by subst x.
  - cbn [free_chunk]. destruct (c_inuse _) eqn:E; [|exists (N - S n)%nat; split_and!; [done|lia|done]].
    apply IH; [lia|]. intros i Hi. destruct (decide (i = N - S n)%nat) as [->|]; [done|]. apply Hb. lia.
Qed.

(** A change of slot [k] and of the chunks of its page [q]. *)
Record slot_change (k q : nat) st st' sl sl' : Prop := {
  ch_old : sl_slots st !! k = Some sl;
  ch_new : sl_slots st' = <[k := sl']> (sl_slots st);
  ch_next : s_next sl' = s_next sl;
  ch_chunks o : o.1 ≠ q → chunk_of zero st' o = chunk_of zero st o;
  ch_only k' sl'' : k' ≠ k → sl_slots st !! k' = Some sl'' → s_slot sl'' ≠ Some q;
  ch_page : s_slot sl = None ∨ s_slot sl = Some q;
  ch_page' : s_slot sl' = None ∨ s_slot sl' = Some q;
}.
Lemma slot_change_other k q st st' sl sl' k' : slot_change k q st st' sl sl' → k' ≠ k →
  sl_slots st' !! k' = sl_slots st !! k'.
Proof. intros C Hk. by rewrite (ch_new _ _ _ _ _ _ C), list_lookup_insert_ne. Qed.
Lemma slot_change_self k q st st' sl sl' : slot_change k q st st' sl sl' → sl_slots st' !! k = Some sl'.
Proof. intros C. rewrite (ch_new _ _ _ _ _ _ C), list_lookup_insert_eq; [done|]. eapply lookup_lt_Some, (ch_old _ _ _ _ _ _ C). Qed.
Lemma slot_change_inv tl p p' k q st st' sl sl' : slots_inv tl p st → slot_change k q st st' sl sl' →
  (∀ q', q' ≠ q → page_ok tl p q' → page_ok tl p' q') → slot_ok tl p' st' k sl' → slots_inv tl p' st'.
Proof.
  intros I C Hp Hk. pose proof (slot_change_self _ _ _ _ _ _ C) as Es.
  assert (Eo : ∀ k', k' ≠ k → sl_slots st' !! k' = sl_slots st !! k') by (intros; by eapply slot_change_other). pose proof C as [Co Cn Cx Cc Cu Cp Cp']. split.
  - rewrite Cn, length_insert. apply I.
  - intros j sl1 Hj. destruct (decide (j = k)) as [->|Hne].
    + rewrite Es in Hj. injection Hj as <-. rewrite Cx. by apply (sv_next _ _ _ I).
    + rewrite Eo in Hj by done. by apply (sv_next _ _ _ I).
  - intros j sl1 Hj. destruct (decide (j = k)) as [->|Hne]; [by rewrite Es in Hj; injection Hj as <-|].
    rewrite Eo in Hj by done. pose proof (sv_slot _ _ _ I j sl1 Hj) as Ho. pose proof (Cu j sl1 Hne Hj) as Hq. unfold slot_ok in *.
    destruct (s_slot sl1) as [q1|]; [|done]. assert (Hq1 : q1 ≠ q) by congruence.
    destruct Ho as (H1 & H2 & H3 & H4). split; [by apply Hp|]. split; [done|].
    rewrite (n_inuse_ext st st') by (intros; by apply Cc). split; [done|]. intros i Hi. rewrite Cc by done. by apply H4.
  - intros j j' sl1 sl2 q1 Hj Hj' Q1 Q2.
    destruct (decide (j = k)) as [->|Hne], (decide (j' = k)) as [->|Hne']; [done| | |].
    + rewrite Es in Hj. injection Hj as <-. rewrite Eo in Hj' by done. destruct (Cu j' sl2 Hne' Hj'). destruct Cp'; congruence.
    + rewrite Es in Hj'. injection Hj' as <-. rewrite Eo in Hj by done. destruct (Cu j sl1 Hne Hj). destruct Cp'; congruence.
    + rewrite Eo in Hj, Hj' by done. by apply (sv_disj _ _ _ I j j' sl1 sl2 q1).
Qed.
Lemma slot_change_live k q st st' sl sl' o : slot_change k q st st' sl sl' → o.1 ≠ q → live st' o ↔ live st o.
Proof.
  intros C Ho. pose proof (slot_change_self _ _ _ _ _ _ C) as Es. pose proof C as [Co Cn Cx Cc Cu Cp Cp'].
  unfold live. rewrite Cc by done. split; intros (j & sl1 & Hj & Hq & Hl).
  - destruct (decide (j = k)) as [->|Hne]; [rewrite Es in Hj; injection Hj as <-; destruct Cp'; congruence|].
    rewrite (slot_change_other _ _ _ _ _ _ _ C) in Hj by done. eauto.
  - destruct (decide (j = k)) as [->|Hne]; [rewrite Co in Hj; injection Hj as <-; destruct Cp; congruence|].
    exists j, sl1. by rewrite (slot_change_other _ _ _ _ _ _ _ C).
Qed.

(** *** [alloc_##name] *)

Lemma slot_lock_get m p st k : quiet m →
  on_lock (spin_get (L_slot kind k)) ((m, p), st) = Ok tt ((acq (L_slot kind k) m, p), st).
Proof.
  intros Hq. unfold on_lock, on_pm, on_mach, onm, zoom. cbn [fst snd].
  by rewrite spin_get_free by auto with mach.
Qed.
Lemma slot_lock_put m p st k : quiet m →
  on_lock (spin_put (L_slot kind k)) ((acq (L_slot kind k) m, p), st) = Ok tt ((touch m, p), st).
Proof.
  intros Hq. unfold on_lock, on_pm, on_mach, onm, zoom. cbn [fst snd].
  rewrite spin_put_held by apply acq_held. by rewrite rel_acq by auto with mach.
Qed.
Lemma slot_mem_free m k : quiet m → mem_free (acq (L_slot kind k) m).
Proof.
  intros Hq. pose proof Hq as [Hl He]. split; [apply acq_wf; [auto with mach|lia]|].
  unfold lock_free, acq. cbn. by rewrite He, insert_empty, lookup_singleton_ne.
Qed.
(** Taking a chunk of the page [q] of slot [k]. *)
Definition taken (k q i : nat) sl st : slots T :=
  put_slot k (MkSlot (s_refc sl + 1) (Some q) (s_next sl))
    (put_chunk (q, i) (MkChunk (c_obj (chunk_of zero st (q, i))) (Some k) true) st).
Lemma alloc_in_take m p st k sl q next : quiet m → sl_slots st !! k = Some sl → s_slot sl = Some q →
  s_refc sl = Z.of_nat (n_inuse st q) → s_refc sl < Z.of_nat N →
  ∃ i, (i < N)%nat ∧ c_inuse (chunk_of zero st (q, i)) = false ∧
    alloc_in kind N zero k next ((acq (L_slot kind k) m, p), st) = Ok (q, i) ((touch m, p), taken k q i sl st).
Proof.
  intros Hq E Es Er Hr. destruct (free_chunk_spec st q N) as (i & Ef & Hi & Hf); [done|lia|lia|].
  exists i. split_and!; [done..|]. unfold alloc_in, slot_at. rewrite (bind_deref _ _ _ sl) by done.
  destruct (Z.eqb_spec (s_refc sl) (Z.of_nat N)); [lia|]. rewrite Es. go. cbn [snd]. rewrite Ef.
  unfold mod_slots. go. rewrite u32_id by lia. cbn [fst snd]. fold (taken k q i sl st).
  run (slot_lock_put m p (taken k q i sl st) k Hq). done.
Qed.
Lemma alloc_in_full m p st k sl next : quiet m → sl_slots st !! k = Some sl → s_refc sl = Z.of_nat N →
  alloc_in kind N zero k next ((acq (L_slot kind k) m, p), st) = next (s_next sl) ((touch m, p), st).
Proof.
  intros Hq E Er. unfold alloc_in, slot_at. rewrite (bind_deref _ _ _ sl) by done.
  rewrite Er, Z.eqb_refl. by run (slot_lock_put m p st k Hq).
Qed.

(** Object [o] becomes live; the other live objects and their contents stay. *)
Definition new_object o st st' : Prop := ¬ live st o ∧ live st' o ∧
  ∀ o', o' ≠ o → (live st' o' ↔ live st o') ∧ (live st o' → c_obj (chunk_of zero st' o') = c_obj (chunk_of zero st o')).

Lemma chunk_put_slot k sl st o : chunk_of zero (put_slot k sl st) o = chunk_of zero st o.
Proof. done. Qed.
Lemma chunk_zero_eq q st i : chunk_of zero (zero_chunks q st) (q, i) = chunk0 zero.
Proof.
  unfold chunk_of, zero_chunks. cbn. rewrite map_lookup_filter_None_2; [done|]. right. intros c _ H. by apply H.
Qed.
Lemma chunk_zero_ne q st o : o.1 ≠ q → chunk_of zero (zero_chunks q st) o = chunk_of zero st o.
Proof.
  intros Ho. unfold chunk_of, zero_chunks. cbn. rewrite map_lookup_filter.
  destruct (sl_chunks st !! o); [|done]. cbn. by rewrite option_guard_True.
Qed.
(** Both ways to take a chunk give a new object: from the page the slot has, and
    from a page it has just received. *)
Lemma taken_new tl p p' k q i sl st st1 sl1 : slots_inv tl p st →
  slot_change k q st (taken k q i sl1 st1) sl (MkSlot (s_refc sl1 + 1) (Some q) (s_next sl1)) →
  (∀ q', q' ≠ q → page_ok tl p q' → page_ok tl p' q') → page_ok tl p' q → (i < N)%nat →
  c_inuse (chunk_of zero st1 (q, i)) = false → s_refc sl1 = Z.of_nat (n_inuse st1 q) →
  (∀ j, (j < N)%nat → c_inuse (chunk_of zero st1 (q, j)) = true → c_belong (chunk_of zero st1 (q, j)) = Some k) →
  (∀ j, s_slot sl = Some q → chunk_of zero st1 (q, j) = chunk_of zero st (q, j)) →
  (∀ j, s_slot sl = None → c_inuse (chunk_of zero st1 (q, j)) = false) →
  slots_inv tl p' (taken k q i sl1 st1) ∧ new_object (q, i) st (taken k q i sl1 st1).
Proof.
  intros I C Hp Hpq Hi Hf Hr Hb Hsame Hfresh. pose proof C as [Co Cn Cx Cc Cu Cp Cp'].
  assert (Hown : ∀ o, o.1 = q → live st o → s_slot sl = Some q).
  { intros o Ho (j & sl2 & Hj & Hq & _). destruct (decide (j = k)) as [->|Hne]; [congruence|].
    destruct (Cu j sl2 Hne Hj). congruence. }
  assert (Hput : ∀ j, j ≠ i → chunk_of zero (taken k q i sl1 st1) (q, j) = chunk_of zero st1 (q, j)).
  { intros j Hj. unfold taken. rewrite chunk_put_slot, chunk_put_ne by congruence. done. }
  split; [eapply slot_change_inv; [exact I|exact C|done|]|split_and!].
  - split; [done|]. cbn [s_refc]. split; [lia|]. split.
    + pose proof (n_inuse_put st1 q i (MkChunk (c_obj (chunk_of zero st1 (q, i))) (Some k) true) Hi) as E.
      rewrite Hf in E. unfold n_inuse, flags, taken, chunk_of in *. cbn in *. lia.
    + intros j Hj. destruct (decide (j = i)) as [->|Hne].
      * intros _. unfold taken. by rewrite chunk_put_slot, chunk_put_eq.
      * rewrite Hput by done. by apply Hb.
  - intros Hl. pose proof (Hown (q, i) eq_refl Hl) as Es. destruct Hl as (_ & _ & _ & _ & _ & Hl). rewrite Hsame in Hf by done. cbn in *. congruence.
  - exists k. eexists. split; [by apply (slot_change_self _ _ _ _ _ _ C)|]. split; [done|]. split; [done|].
    unfold taken. by rewrite chunk_put_slot, chunk_put_eq.
  - intros [q' j] Ho. destruct (decide (q' = q)) as [->|Hq].
    + assert (Hj : j ≠ i) by congruence. unfold live at 1. cbn [fst snd]. rewrite Hput by done. split.
      * split.
        -- intros (_ & _ & _ & _ & Hj2 & Hl). destruct (s_slot sl) as [q0|] eqn:Es.
           ++ assert (q0 = q) as -> by (destruct Cp; congruence). rewrite Hsame in Hl by done. by exists k, sl.
           ++ rewrite Hfresh in Hl by done. done.
        -- intros Hl. pose proof (Hown (q, j) eq_refl Hl) as Es. destruct Hl as (_ & _ & _ & _ & Hj2 & Hl). rewrite Hsame by done.
           exists k. eexists. split; [by apply (slot_change_self _ _ _ _ _ _ C)|]. done.
      * intros Hl. by rewrite Hsame by (by apply (Hown (q, j) eq_refl)).
    + split; [by eapply slot_change_live|]. intros _. by rewrite (Cc (q', j) Hq).
Qed.

Definition cursor (k : nat) : option nat := if decide (k < NSLOT_DEFAULT)%nat then Some k else None.
Lemma next_cursor tl p st k sl : slots_inv tl p st → sl_slots st !! k = Some sl → s_next sl = cursor (S k).
Proof.
  intros I E. rewrite (sv_next _ _ _ I k sl E). unfold cursor.
  destruct (decide (k < NSLOT_DEFAULT - 1)%nat), (decide (S k < NSLOT_DEFAULT)%nat); [done|lia..|done].
Qed.
Lemma sv_only tl p st k sl q : slots_inv tl p st → sl_slots st !! k = Some sl → s_slot sl = Some q →
  ∀ k' sl', k' ≠ k → sl_slots st !! k' = Some sl' → s_slot sl' ≠ Some q.
Proof. intros I E Es k' sl' Hne E' Es'. by apply Hne, (sv_disj _ _ _ I k' k sl' sl q). Qed.
(** The objects the slots count. *)
Definition refs st : Z := foldr (λ sl n, s_refc sl + n) 0 (sl_slots st).
Lemma refs_insert k sl sl' st st' : sl_slots st !! k = Some sl → sl_slots st' = <[k := sl']> (sl_slots st) →
  refs st' = refs st - s_refc sl + s_refc sl'.
Proof.
  intros E E'. unfold refs. rewrite E'. clear E'. revert k E. induction (sl_slots st) as [|x l IH]; intros [|k] E; try done.
  - injection E as ->. cbn. lia.
  - change (<[S k:=sl']> (x :: l)) with (x :: <[k:=sl']> l). cbn [foldr]. rewrite (IH k E). lia.
Qed.
Lemma refs_full tl p st : slots_inv tl p st → slots_full st → refs st = Z.of_nat (NSLOT_DEFAULT * N).
Proof.
  intros I Hf. pose proof (sv_len _ _ _ I) as Hl. unfold refs, slots_full in *. rewrite <- Hl. clear I Hl.
  induction (sl_slots st) as [|x l IH]; [done|]. cbn. rewrite (Hf 0%nat x eq_refl), IH by (intros k sl E; by apply (Hf (S k))). lia.
Qed.
(** A slot that owns a page has a live object there. *)
Lemma slot_live tl p st k sl q : slots_inv tl p st → sl_slots st !! k = Some sl → s_slot sl = Some q → ∃ i, live st (q, i).
Proof.
  intros I E Es. pose proof (sv_slot _ _ _ I k sl E) as Ho. unfold slot_ok in Ho. rewrite Es in Ho. destruct Ho as (_ & H1 & H2 & _).
  destruct (countb_exists (λ b : bool, b) (flags st q)) as (i & x & Ei & Hx); [unfold n_inuse in H2; lia|].
  pose proof (lookup_lt_Some _ _ _ Ei) as Hi. rewrite length_flags in Hi. rewrite flags_lookup in Ei by done. injection Ei as <-.
  exists i, k, sl. done.
Qed.
Definition alloc_ok fl tl p (r : outcome ((mach * pmem) * slots T) optr) m st : Prop :=
  ∃ o p' st' fl', r = Ok o ((touch m, p'), st') ∧ pages_inv fl' tl p' ∧ slots_inv tl p' st' ∧ new_object o st st' ∧
    refs st' = refs st + 1 ∧ ∃ n, (length n ≤ 1)%nat ∧ took n fl p fl' p' ∧ (o.1 ∈ n ∨ ∃ i, live st (o.1, i)).

(** A slot that has a free chunk. *)
Lemma alloc_part fuel k m p st sl q fl tl : quiet m → slots_inv tl p st → pages_inv fl tl p →
  sl_slots st !! k = Some sl → s_slot sl = Some q → s_refc sl ≠ Z.of_nat N →
  alloc_ok fl tl p (alloc_loop kind N zero (S fuel) (Some k) ((m, p), st)) m st.
Proof.
  intros Hq I Ip E Es Hn. pose proof (sv_slot _ _ _ I k sl E) as Ho. unfold slot_ok in Ho. rewrite Es in Ho.
  destruct Ho as (Ho1 & Ho2 & Ho3 & Ho4). pose proof (n_inuse_le st q).
  destruct (alloc_in_take m p st k sl q (alloc_loop kind N zero fuel) Hq E Es Ho3 ltac:(lia)) as (i & Hi & Hf & Et).
  cbn [alloc_loop]. run (slot_lock_get m p st k Hq). unfold slot_at at 1. rewrite (bind_deref _ _ _ sl) by done.
  destruct (Z.eqb_spec (s_refc sl) 0); [lia|]. go.
  destruct (taken_new tl p p k q i sl st st sl) as [I' Hnew]; try done.
  { split; try done; [|by eapply sv_only|by right|by right]. intros [q' j] Hq'. unfold taken.
    rewrite chunk_put_slot, chunk_put_ne; [done|]. cbn in Hq'. congruence. }
  { congruence. }
  exists (q, i), p, (taken k q i sl st), fl. split_and!; [done..| |].
  { rewrite (refs_insert k sl (MkSlot (s_refc sl + 1) (Some q) (s_next sl)) st) by done. cbn. lia. }
  exists []. split; [cbn; lia|]. split; [apply took_nil|]. right. by eapply slot_live.
Qed.
(** A slot without a page. *)
Lemma alloc_fresh fuel k m p st sl q fl tl : quiet m → slots_inv tl p st → pages_inv (q :: fl) tl p →
  sl_slots st !! k = Some sl → s_slot sl = None →
  alloc_ok (q :: fl) tl p (alloc_loop kind N zero (S fuel) (Some k) ((m, p), st)) m st.
Proof.
  intros Hq I Ip E Es. pose proof (sv_slot _ _ _ I k sl E) as Hr. unfold slot_ok in Hr. rewrite Es in Hr.
  destruct (alloc_page_spec q fl tl (acq (L_slot kind k) m) p Ip (slot_mem_free m k Hq))
    as (p' & Ea & Ip' & Hqn & Hu & Hu' & _ & Hdo & Ht).
  rewrite touch_inside in Ea by (rewrite acq_level by done; lia).
  cbn [alloc_loop]. run (slot_lock_get m p st k Hq). unfold slot_at at 1. rewrite (bind_deref _ _ _ sl) by done.
  rewrite Hr. cbn [Z.eqb].
  assert (Eap : on_pm alloc_page ((acq (L_slot kind k) m, p), st) = Ok q ((acq (L_slot kind k) m, p'), st)).
  { unfold on_pm, zoom. cbn [fst snd]. by rewrite Ea. }
  run Eap. unfold mod_slots at 1. go. cbn [fst snd].
  set (sl1 := MkSlot 0 (Some q) (s_next sl)). set (st1 := put_slot k sl1 (zero_chunks q st)).
  assert (Hz : ∀ j, chunk_of zero st1 (q, j) = chunk0 zero) by (intros j; apply chunk_zero_eq).
  assert (Hn : n_inuse st1 q = 0%nat).
  { unfold n_inuse, flags. erewrite list_fmap_ext by (intros; rewrite Hz; reflexivity).
    clear. cbn. induction (seq 0 N) as [|j l IH]; [done|exact IH]. }
  pose proof (lookup_lt_Some _ _ _ E) as Hlt.
  destruct (alloc_in_take m p' st1 k sl1 q (alloc_loop kind N zero fuel) Hq) as (i & Hi & Hf & Et);
    [by apply list_lookup_insert_eq|done|by rewrite Hn|cbn; lia|].
  assert (Hnew : ∀ k' sl', sl_slots st !! k' = Some sl' → s_slot sl' ≠ Some q).
  { intros k' sl' E' Es'. pose proof (sv_slot _ _ _ I k' sl' E') as Ho. unfold slot_ok in Ho. rewrite Es' in Ho.
    by apply Hu, Ho. }
  destruct (taken_new tl p p' k q i sl st st1 sl1) as [I' Hob]; try done.
  { split; try done; [by unfold taken, st1; cbn; rewrite list_insert_insert_eq| | |by left|by right].
    - intros [q' j] Hq'. unfold taken, st1. rewrite chunk_put_slot, chunk_put_ne by (cbn in Hq'; congruence).
      by rewrite chunk_put_slot, chunk_zero_ne.
    - intros k' sl' _. apply Hnew. }
  { intros q' _ (H1 & H2 & H3). split_and!; [done| |done]. rewrite Hu'. set_solver. }
  { split_and!; [done| |done]. rewrite Hu'. set_solver. }
  { by rewrite Hn. } { intros j _. by rewrite Hz. } { intros j Es'. congruence. } { intros j _. by rewrite Hz. }
  exists (q, i), p', (taken k q i sl1 st1), fl. split_and!; [done..| |].
  { rewrite (refs_insert k sl (MkSlot (0 + 1) (Some q) (s_next sl)) st); [cbn; lia|done|].
    unfold taken, st1. cbn. by rewrite list_insert_insert_eq. }
  exists [q]. split; [done|]. split; [|left; by left]. split_and!; [done|rewrite Hu'; set_solver|].
  intros j Hj. apply Hdo. set_solver.
Qed.
Lemma alloc_loop_spec fuel k m p st fl tl : quiet m → slots_inv tl p st → pages_inv fl tl p →
  (NSLOT_DEFAULT ≤ k + fuel)%nat → (∀ j sl, (j < k)%nat → sl_slots st !! j = Some sl → s_refc sl = Z.of_nat N) →
  let r := alloc_loop kind N zero fuel (cursor k) ((m, p), st) in
  alloc_ok fl tl p r m st ∨ (slots_full st ∧ ∃ x, r = Panic "slot exhausted" x) ∨
  (fl = [] ∧ ∃ x, r = Panic "alloc_page: memory exhausted" x).
Proof.
  revert k m. induction fuel as [|fuel IH]; intros k m Hq I Ip Hk Hfull r; unfold r, cursor;
    destruct (decide (k < NSLOT_DEFAULT)%nat) as [Hlt|Hge]; [lia| | |].
  1,3: right; left; split; [|by eexists]; intros j sl E; apply (Hfull j sl); [|done];
    apply lookup_lt_Some in E; rewrite (sv_len _ _ _ I) in E; lia.
  destruct (lookup_lt_is_Some_2 (sl_slots st) k) as [sl E]; [by rewrite (sv_len _ _ _ I)|].
  destruct (s_slot sl) as [q|] eqn:Es.
  - destruct (decide (s_refc sl = Z.of_nat N)) as [Ef|Hf]; [|by left; eapply alloc_part].
    assert (El : alloc_loop kind N zero (S fuel) (Some k) ((m, p), st) = alloc_loop kind N zero fuel (cursor (S k)) ((touch m, p), st)).
    { cbn [alloc_loop]. run (slot_lock_get m p st k Hq). unfold slot_at at 1. rewrite (bind_deref _ _ _ sl) by done.
      destruct (Z.eqb_spec (s_refc sl) 0); [lia|]. go. rewrite (alloc_in_full m p st k sl) by done.
      by rewrite (next_cursor _ _ _ _ _ I E). }
    rewrite El. destruct (IH (S k) (touch m)) as [Ha|Hr]; [by apply quiet_touch|done|done|lia| |left|by right].
    2: { unfold alloc_ok in *. by rewrite touch_touch in Ha. }
    intros j sl' Hj Ej.
    destruct (decide (j = k)) as [->|]; [congruence|]. apply (Hfull j sl'); [lia|done].
  - destruct fl as [|q fl]; [|by left; eapply alloc_fresh]. right; right. split; [done|].
    pose proof (sv_slot _ _ _ I k sl E) as Hr. unfold slot_ok in Hr. rewrite Es in Hr.
    cbn [alloc_loop]. run (slot_lock_get m p st k Hq). unfold slot_at at 1. rewrite (bind_deref _ _ _ sl) by done.
    rewrite Hr. cbn [Z.eqb]. eexists. rewrite bind_assoc. apply bind_panicked. unfold on_pm, zoom. cbn [fst snd].
    by rewrite (alloc_page_empty tl _ p Ip (slot_mem_free m k Hq)).
Qed.
(** [alloc_##name] hands out an object that was not live, and fails only when all
    slots are full or a new page is needed and no page is free. *)
Lemma alloc_slot_spec m p st fl tl : quiet m → slots_inv tl p st → pages_inv fl tl p →
  let r := alloc_slot kind N zero ((m, p), st) in
  alloc_ok fl tl p r m st ∨ (slots_full st ∧ ∃ x, r = Panic "slot exhausted" x) ∨
  (fl = [] ∧ ∃ x, r = Panic "alloc_page: memory exhausted" x).
Proof. intros Hq I Ip. by apply (alloc_loop_spec (S NSLOT_DEFAULT) 0); [..|lia|lia]. Qed.

(** *** [free_##name] *)

(** Object [o] is no longer live; the other objects and their contents stay. *)
Definition dead_object o st st' : Prop := live st o ∧ ¬ live st' o ∧
  ∀ o', o' ≠ o → (live st' o' ↔ live st o') ∧ (live st o' → c_obj (chunk_of zero st' o') = c_obj (chunk_of zero st o')).
(** Putting back chunk [i] of the page of slot [k]. *)
Definition put_back (k q i : nat) sl st : slots T :=
  put_slot k (MkSlot (s_refc sl - 1) (if s_refc sl - 1 =? 0 then None else s_slot sl) (s_next sl))
    (put_chunk (q, i) (MkChunk (c_obj (chunk_of zero st (q, i))) (c_belong (chunk_of zero st (q, i))) false) st).
Lemma n_inuse_zero st q i : n_inuse st q = 0%nat → (i < N)%nat → c_inuse (chunk_of zero st (q, i)) = false.
Proof.
  intros Hn Hi. destruct (c_inuse _) eqn:E; [|done].
  pose proof (countb_pos (λ b : bool, b) _ i _ (flags_lookup st q i Hi) E). unfold n_inuse in Hn. lia.
Qed.
Lemma put_back_spec tl p p' k q i sl st : slots_inv tl p st → sl_slots st !! k = Some sl → s_slot sl = Some q →
  (i < N)%nat → c_inuse (chunk_of zero st (q, i)) = true →
  (∀ q', q' ≠ q → page_ok tl p q' → page_ok tl p' q') → (s_refc sl - 1 ≠ 0 → page_ok tl p' q) →
  slots_inv tl p' (put_back k q i sl st) ∧ dead_object (q, i) st (put_back k q i sl st).
Proof.
  intros I E Es Hi Hl Hp Hpq. pose proof (sv_slot _ _ _ I k sl E) as Ho. unfold slot_ok in Ho. rewrite Es in Ho.
  destruct Ho as (Ho1 & Ho2 & Ho3 & Ho4). set (st' := put_back k q i sl st).
  set (sl' := MkSlot (s_refc sl - 1) (if s_refc sl - 1 =? 0 then None else s_slot sl) (s_next sl)).
  assert (C : slot_change k q st st' sl sl').
  { split; try done; [|by eapply sv_only|by right|].
    - intros [q' j] Hq'. unfold st', put_back. rewrite chunk_put_slot, chunk_put_ne by (cbn in Hq'; congruence). done.
    - unfold sl'. cbn. destruct (_ =? 0); [by left|by right]. }
  assert (Hput : ∀ j, j ≠ i → chunk_of zero st' (q, j) = chunk_of zero st (q, j)).
  { intros j Hj. unfold st', put_back. rewrite chunk_put_slot, chunk_put_ne by congruence. done. }
  assert (Hi' : c_inuse (chunk_of zero st' (q, i)) = false) by (unfold st', put_back; by rewrite chunk_put_slot, chunk_put_eq).
  assert (Hn : Z.of_nat (n_inuse st' q) = s_refc sl - 1).
  { pose proof (n_inuse_put st q i (MkChunk (c_obj (chunk_of zero st (q, i))) (c_belong (chunk_of zero st (q, i))) false) Hi) as En.
    rewrite Hl in En. unfold st', n_inuse, flags, put_back, chunk_of in *. cbn in *. lia. }
  split; [eapply slot_change_inv; [exact I|exact C|done|]|split_and!].
  - unfold slot_ok, sl'. cbn [s_slot s_refc]. destruct (Z.eqb_spec (s_refc sl - 1) 0) as [Hz|Hz]; [done|]. rewrite Es.
    split; [by apply Hpq|]. split; [lia|]. split; [by rewrite Hn|]. intros j Hj. destruct (decide (j = i)) as [->|Hne].
    + by rewrite Hi'.
    + rewrite Hput by done. by apply Ho4.
  - by exists k, sl.
  - intros (j & sl2 & _ & _ & _ & Hl2). congruence.
  - intros [q' j] Hne. destruct (decide (q' = q)) as [->|Hq].
    + assert (Hj : j ≠ i) by congruence. rewrite Hput by done. split; [|done]. split.
      * intros (_ & _ & _ & _ & Hj2 & Hl2). cbn in *. rewrite Hput in Hl2 by done. by exists k, sl.
      * intros (_ & _ & _ & _ & Hj2 & Hl2). cbn in *. exists k, sl'. cbn [fst snd]. rewrite Hput by done.
        split; [by apply (slot_change_self _ _ _ _ _ _ C)|]. split; [|done].
        unfold sl'. cbn. destruct (Z.eqb_spec (s_refc sl - 1) 0) as [Hz|Hz]; [|done].
        rewrite <- (Hput j Hj), (n_inuse_zero st' q j) in Hl2; [done|lia|done].
    + split; [by eapply slot_change_live|]. intros _. by rewrite (ch_chunks _ _ _ _ _ _ C (q', j) Hq).
Qed.
Lemma refs_put_back k q i sl st : sl_slots st !! k = Some sl → refs (put_back k q i sl st) = refs st - 1.
Proof. intros E. rewrite (refs_insert k sl _ st (put_back k q i sl st) E eq_refl). cbn. lia. Qed.
(** [free_##name] takes back a live object; the page of a slot whose last object it
    was is freed. *)
Lemma free_slot_spec m p st fl tl o : quiet m → slots_inv tl p st → pages_inv fl tl p → live st o →
  ∃ p' st' fl', free_slot kind zero o ((m, p), st) = Ok tt ((touch m, p'), st') ∧ pages_inv fl' tl p' ∧
    slots_inv tl p' st' ∧ dead_object o st st' ∧
    fl' = (if decide (n_inuse st o.1 = 1)%nat then fl ++ [o.1] else fl) ∧
    pg_inuse p' = (if decide (n_inuse st o.1 = 1)%nat then pg_inuse p ∖ {[ o.1 ]} else pg_inuse p) ∧
    pg_data p' = pg_data p ∧ refs st' = refs st - 1.
Proof.
  destruct o as [q i]. intros Hq I Ip (k & sl & E & Es & Hi & Hl). cbn [fst snd] in *.
  pose proof (sv_slot _ _ _ I k sl E) as Ho. unfold slot_ok in Ho. rewrite Es in Ho.
  destruct Ho as (Ho1 & Ho2 & Ho3 & Ho4). pose proof (n_inuse_le st q).
  pose proof (lookup_lt_Some _ _ _ E) as Hlt. unfold free_slot. go. cbn [snd]. rewrite (Ho4 i Hi Hl). go.
  run (slot_lock_get m p st k Hq). unfold mod_slots at 1. go. cbn [fst snd].
  unfold slot_at at 1. rewrite (bind_deref _ _ _ sl) by done. unfold mod_slots at 1. go. cbn [fst snd].
  rewrite u32_id by lia. destruct (Z.eqb_spec (s_refc sl - 1) 0) as [Hz|Hz].
  - rewrite Es. go. rewrite page_paddr by apply Ho1.
    destruct (free_page_spec q fl tl (acq (L_slot kind k) m) p Ip (slot_mem_free m k Hq)) as (p' & Ef & Ip' & Hu & Hdt);
      [apply Ho1..|]. rewrite touch_inside in Ef by (rewrite acq_level by done; lia).
    match goal with |- context [bind (on_pm _) _ (_, ?s)] => set (st1 := s) end.
    assert (Efp : on_pm (free_page q) ((acq (L_slot kind k) m, p), st1) = Ok tt ((acq (L_slot kind k) m, p'), st1)).
    { unfold on_pm, zoom. cbn [fst snd]. by rewrite Ef. }
    run Efp. unfold mod_slots. go. cbn [fst snd].
    destruct (put_back_spec tl p p' k q i sl st I E Es Hi Hl) as [I' Hd]; [|done|].
    { intros q' Hne (H1 & H2 & H3). split_and!; [done| |done]. rewrite Hu. set_solver. }
    exists p', (put_back k q i sl st), (fl ++ [q]). rewrite !decide_True by lia.
    split; [|split_and!; [done..|by eapply refs_put_back]].
    rewrite slot_lock_put by done. do 2 f_equal. unfold put_back, st1, put_slot. cbn. rewrite list_insert_insert_eq.
    by rewrite (proj2 (Z.eqb_eq _ _) Hz).
  - go. destruct (put_back_spec tl p p k q i sl st I E Es Hi Hl) as [I' Hd]; [done|done|].
    exists p, (put_back k q i sl st), fl. rewrite !decide_False by lia.
    split; [|split_and!; [done..|by eapply refs_put_back]].
    rewrite slot_lock_put by done. do 2 f_equal. unfold put_back, put_slot. cbn.
    by rewrite (proj2 (Z.eqb_neq _ _) Hz).
Qed.
Lemma init_slots_inv tl p : slots_inv tl p init_slots.
Proof.
  assert (Hs : ∀ k sl, sl_slots (init_slots (T:=T)) !! k = Some sl →
    sl = MkSlot 0 None (if decide (k < NSLOT_DEFAULT - 1)%nat then Some (S k) else None)).
  { intros k sl E. unfold init_slots in E. cbn [sl_slots] in E. rewrite list_lookup_fmap in E.
    destruct (seq 0 NSLOT_DEFAULT !! k) as [j|] eqn:Ej; [|done]. apply lookup_seq in Ej as [-> _]. by injection E as <-. }
  split; [done| | |].
  - intros k sl ->%Hs. done.
  - intros k sl ->%Hs. done.
  - intros k k' sl sl' q ->%Hs. done.
Qed.

(** Storing an object does not change which objects are live. *)
Definition store_obj o (v : T) st : slots T :=
  put_chunk o (MkChunk v (c_belong (chunk_of zero st o)) (c_inuse (chunk_of zero st o))) st.
Lemma store_obj_same o v st o' : c_inuse (chunk_of zero (store_obj o v st) o') = c_inuse (chunk_of zero st o') ∧
  c_belong (chunk_of zero (store_obj o v st) o') = c_belong (chunk_of zero st o') ∧
  c_obj (chunk_of zero (store_obj o v st) o') = if decide (o = o') then v else c_obj (chunk_of zero st o').
Proof.
  unfold store_obj. destruct (decide (o = o')) as [<-|Hne]; [by rewrite chunk_put_eq|by rewrite chunk_put_ne].
Qed.
Lemma store_obj_live o v st o' : live (store_obj o v st) o' ↔ live st o'.
Proof. unfold live. destruct (store_obj_same o v st o') as (-> & _). done. Qed.
Lemma store_obj_inv tl p o v st : slots_inv tl p st → slots_inv tl p (store_obj o v st).
Proof.
  intros [I1 I2 I3 I4]. split; [done|done| |done]. intros k sl E. specialize (I3 k sl E). unfold slot_ok in *.
  destruct (s_slot sl) as [q|]; [|done]. destruct I3 as (H1 & H2 & H3 & H4). split; [done|]. split; [done|]. split.
  - rewrite H3. f_equal. unfold n_inuse, flags. f_equal. apply list_fmap_ext. intros _ i _. symmetry. apply store_obj_same.
  - intros i Hi. destruct (store_obj_same o v st (q, i)) as (-> & -> & _). by apply H4.
Qed.
End slot_spec.
