(* ===== verification/File.v ===== *)
(** Open files (kernel/fs/file.h, kernel/fs/file.c): the reference counts of
    [struct file] and reading, writing and seeking in the data of an inode. *)
From S2P Require Import Prelude Bytes Machine BlockIO Fs Inode PageAlloc Slot Pipe.

(** [enum mode] and [enum type] of [struct file]. *)
Definition O_RDONLY : Z := 1.
Definition O_WRONLY : Z := 2.
Definition O_RDWR : Z := 4.
Definition O_CREAT : Z := 8.
Definition O_APPEND : Z := 16.
Inductive file_type := NONE | PIPE | INODE | DEVICE.
#[export] Instance file_type_eq_dec : EqDecision file_type.
Proof. solve_decision. Defined.
(** [struct file]; [f_obj] is the pointer of the union, an inode or a pipe. *)
Record file := MkFile {
  f_mode : Z;
  f_type : file_type;
  f_refc : Z;
  f_off : Z;
  f_obj : option nat;
}.
Definition file0 : file := MkFile 0 NONE 0 0 None.
Definition set_refc (v : Z) (f : file) : file := MkFile (f_mode f) (f_type f) v (f_off f) (f_obj f).
Definition set_off (v : Z) (f : file) : file := MkFile (f_mode f) (f_type f) (f_refc f) v (f_obj f).
(** [PGSIZE / sizeof(struct chunk_file_slot)]: 48 bytes of [struct file], a
    pointer and a flag. *)
Definition NFILE_CHUNK : nat := 64.
#[global] Arguments NFILE_CHUNK : simpl never.
Definition SEEK_SET : Z := 0.
Definition SEEK_CUR : Z := 1.

Section file.
Context {S : Type} {IO : BlockIO S} {U : Type} {UM : UserMem U}.

(** Inodes over the block layer, the slots of files in physical memory, the pipes
    and the memory of the running task. *)
Definition kst : Type := @ist S * ((pmem * slots file) * (list pipe * U)).
Definition on_ist {A} (m : M (@ist S) A) : M kst A := zoom fst (λ i x, (i, x.2)) m.
Definition on_slots {A} (m : SM (T:=file) A) : M kst A :=
  zoom (λ x, ((bmach x.1.1, x.2.1.1), x.2.1.2))
    (λ s x, ((bset_mach s.1.1 x.1.1, x.1.2), ((s.1.2, s.2), x.2.2))) m.
Definition on_pipe {A} (m : M (@pst U) A) : M kst A :=
  zoom (λ x, (bmach x.1.1, x.2.2)) (λ s x, ((bset_mach s.1 x.1.1, x.1.2), (x.2.1, s.2))) m.
Definition file_at (f : optr) : M kst file := gets (λ x, c_obj (chunk_of file0 x.2.1.2 f)).
Definition put_file (f : optr) (v : file) : M kst unit :=
  modify (λ x, (x.1, ((x.2.1.1, put_chunk f (MkChunk v (c_belong (chunk_of file0 x.2.1.2 f))
                                          (c_inuse (chunk_of file0 x.2.1.2 f))) x.2.1.2), x.2.2))).
Definition L_of (f : optr) : lockid := L_file (encode_nat f).

Definition alloc_file_slot : M kst optr := on_slots (alloc_slot FileSlot NFILE_CHUNK file0).
Definition free_file_slot (f : optr) : M kst unit := on_slots (free_slot FileSlot file0 f).

Definition falloc : M kst optr :=
  let! f := alloc_file_slot in
  let! v := file_at f in
  put_file f (MkFile (f_mode v) (f_type v) 1 0 (f_obj v)) ;;
  ret f.
Definition fdup (f : optr) : M kst unit :=
  on_ist (onmach (spin_get (L_of f))) ;;
  let! v := file_at f in
  if f_refc v <? 1 then panic "fdup: ref<1" else
  put_file f (set_refc (u32 (f_refc v + 1)) v) ;;
  on_ist (onmach (spin_put (L_of f))).
Definition fclose (f : optr) : M kst unit :=
  on_ist (onmach (spin_get (L_of f))) ;;
  let! v := file_at f in
  if f_refc v =? 0 then panic "fclose: ref=0" else
  let refc := u32 (f_refc v - 1) in
  put_file f (set_refc refc v) ;;
  if refc =? 0 then
    match f_type v, f_obj v with
    | (INODE | DEVICE), Some i => on_ist (iput i)
    | PIPE, Some i => on_pipe (pipeclose i)
    | _, _ => ret tt
    end ;;
    on_ist (onmach (spin_put (L_of f))) ;;
    free_file_slot f
  else on_ist (onmach (spin_put (L_of f))).

(** [fseek]: the comparisons of [min] and [max] between [u32] and [int] operands
    are unsigned. *)
Definition fseek (f : optr) (off whence : Z) : M kst Z :=
  let! v := file_at f in
  let r := f_off v in
  (if bool_decide (f_type v = INODE) then
     if whence =? SEEK_CUR then
       if off >? 0 then
         let! i := deref (λ _, f_obj v) in
         let! a := on_ist (inode_at i) in
         put_file f (set_off (cmin (u32 (r + off)) (di_fsize (i_di a))) v)
       else put_file f (set_off (u32 (r - cmin r (u32 (- off)))) v)
     else if whence =? SEEK_SET then
       let! i := deref (λ _, f_obj v) in
       let! a := on_ist (inode_at i) in
       put_file f (set_off (cmin (di_fsize (i_di a)) (u32 (cmax 0 off))) v)
     else ret tt
   else ret tt) ;;
  ret r.

(** [blockno_of_data]: an index outside [iblock] or outside the index block is an
    access outside the object. *)
Definition blockno_of_data (i : nat) (off : Z) : M (@ist S) Z :=
  if off <? Z.of_nat (BSIZE * NDIRECT) then iblock_at i (Z.to_nat (off / Z.of_nat BSIZE))
  else
    let q := (off - Z.of_nat (BSIZE * NDIRECT)) / Z.of_nat IDX_CNT in
    let! sb := sb_of i in
    let! e := iblock_at i (Z.to_nat q + NDIRECT) in
    let! b := lift (bread (sb_dev sb) e) in
    let k := u32 (off / Z.of_nat BSIZE - Z.of_nat NDIRECT - q * Z.of_nat IDX_CNT) in
    let! d := data_of b in
    if k <? Z.of_nat IDX_CNT then
      lift (brelse b) ;;
      ret (get_at 4 (4 * Z.to_nat k) d)
    else fault.

(** The loop of [fread]: [dst] is the user address, or [None] when the
    destination is kernel memory; the bytes delivered are returned. *)
Fixpoint fread_loop (fuel : nat) (i : nat) (dev : Z) (dst : option Z) (pcur pend done : Z) : M kst (list Z) :=
  if pend =? 0 then ret []
  else
    match fuel with
    | O => fault
    | Datatypes.S fuel =>
      let len := cmin (u32 (Z.of_nat BSIZE - pcur mod Z.of_nat BSIZE)) pend in
      let! bn := on_ist (blockno_of_data i pcur) in
      let! b := on_ist (lift (bread dev bn)) in
      let! d := on_ist (data_of b) in
      let chunk := take (Z.to_nat len) (drop (Z.to_nat (pcur mod Z.of_nat BSIZE)) d) in
      match dst with
      | Some va => on_pipe (to_user (va + done) chunk)
      | None => ret tt
      end ;;
      on_ist (lift (brelse b)) ;;
      let! rest := fread_loop fuel i dev dst (u32 (pcur + len)) (u32 (pend - len)) (u32 (done + len)) in
      ret (chunk ++ rest)
    end.
Definition fread (f : optr) (dst : option Z) (bytes : Z) : M kst (Z * list Z) :=
  let! v := file_at f in
  let! i := deref (λ _, f_obj v) in
  let! a := on_ist (inode_at i) in
  let! sb := on_ist (sb_of i) in
  let pend := cmin bytes (u32 (di_fsize (i_di a) - f_off v)) in
  let! d := fread_loop (Z.to_nat pend) i (sb_dev sb) dst (f_off v) pend 0 in
  let! v := file_at f in
  put_file f (set_off (u32 (f_off v + Z.of_nat (length d))) v) ;;
  ret (Z.of_nat (length d), d).

(** The loops of [fwrite]: growing the file, and storing. [src] gives the bytes
    of the buffer: user memory, or the kernel bytes. *)
Definition src_bytes (src : Z + list Z) (done : Z) (len : nat) : M kst (list Z) :=
  match src with
  | inl va => on_pipe (from_user (va + done) len)
  | inr d => ret (take len (drop (Z.to_nat done) d))
  end.
Fixpoint grow_loop (fuel : nat) (i : nat) (free bytes : Z) : M kst unit :=
  if free <? bytes then
    match fuel with
    | O => fault
    | Datatypes.S fuel =>
      let! b := on_ist (data_block_alloc i) in
      on_ist (lift (brelse b)) ;;
      grow_loop fuel i (u32 (free + Z.of_nat BSIZE)) bytes
    end
  else ret tt.
Fixpoint fwrite_loop (fuel : nat) (i : nat) (dev : Z) (src : Z + list Z) (pcur pend done : Z) : M kst Z :=
  if pend =? 0 then ret done
  else
    match fuel with
    | O => fault
    | Datatypes.S fuel =>
      let len := cmin (u32 (Z.of_nat BSIZE - pcur mod Z.of_nat BSIZE)) pend in
      let! bn := on_ist (blockno_of_data i pcur) in
      let! b := on_ist (lift (bread dev bn)) in
      let! chunk := src_bytes src done (Z.to_nat len) in
      let! d := on_ist (data_of b) in
      on_ist (lift (modify (bset b (blit (Z.to_nat (pcur mod Z.of_nat BSIZE)) chunk d)))) ;;
      on_ist (lift (bwrite b)) ;;
      on_ist (lift (brelse b)) ;;
      fwrite_loop fuel i dev src (u32 (pcur + len)) (u32 (pend - len)) (u32 (done + len))
    end.
Definition fwrite (f : optr) (src : Z + list Z) (bytes : Z) : M kst Z :=
  let! v := file_at f in
  let! i := deref (λ _, f_obj v) in
  let! a := on_ist (inode_at i) in
  let! sb := on_ist (sb_of i) in
  let pcur := f_off v in
  grow_loop (Z.to_nat bytes) i (u32 (di_fsize (i_di a) - pcur)) bytes ;;
  let! done := fwrite_loop (Z.to_nat bytes) i (sb_dev sb) src pcur bytes 0 in
  let! v := file_at f in
  put_file f (set_off (u32 (f_off v + done)) v) ;;
  on_ist (mod_inode i (set_di (λ di, set_fsize (u32 (di_fsize di + done)) di))) ;;
  on_ist (iupdate i) ;;
  ret done.
End file.

(** ** Reading and writing the direct blocks of a file *)
Section file_spec.
Context {S : Type} {IO : BlockIO S} {U : Type} {UM : UserMem U} (sb : superblock) (WF : sb_wf sb).
Implicit Types (s : S) (l : list inode) (x : (pmem * slots file) * (list pipe * U)).

Lemma on_ist_ok {A} (m : M (@ist S) A) i x a i' : m i = Ok a i' → on_ist m (i, x) = Ok a (i', x).
Proof. intros E. unfold on_ist, zoom. cbn [fst]. by rewrite E. Qed.
Lemma on_ist_fault {A} (m : M (@ist S) A) i x i' : m i = Fault i' → on_ist m (i, x) = Fault (i', x).
Proof. intros E. unfold on_ist, zoom. cbn [fst]. by rewrite E. Qed.
Lemma bind_faulted {T A B} (m : M T A) (f : A → M T B) t t' : m t = Fault t' → bind m f t = Fault t'.
Proof. intros E. unfold bind. by rewrite E. Qed.

(** Size of the part of a file that direct blocks hold. *)
Definition DIRECT_BYTES : Z := 12288.
(** Byte [p] of the file with index [ib]. *)
Definition file_byte (disk : Z → list Z) (ib : list Z) (p : Z) : option Z :=
  e ← ib !! Z.to_nat (p / 1024); disk e !! Z.to_nat (p mod 1024).
(** The blocks for the bytes [lo, hi) are data blocks nobody holds. *)
Definition blocks_ok s (ib : list Z) (lo hi : Z) : Prop :=
  ∀ p, lo ≤ p < hi → ∃ e, ib !! Z.to_nat (p / 1024) = Some e ∧ data_blk sb e ∧ not_held s e.

Lemma blockno_direct i p s l a e : l !! i = Some a → 0 ≤ p < DIRECT_BYTES →
  di_iblock (i_di a) !! Z.to_nat (p / 1024) = Some e →
  blockno_of_data i p (s, l) = Ok e (s, l).
Proof.
  intros Ea Hp He. unfold blockno_of_data. change (Z.of_nat (BSIZE * NDIRECT)) with 12288.
  change (Z.of_nat BSIZE) with 1024. unfold DIRECT_BYTES in Hp.
  destruct (Z.ltb_spec p 12288); [|lia]. by eapply iblock_at_ok.
Qed.
(** [blockno_of_data] of every offset from 13056 on is an access outside the
    index of the inode: the offset behind the direct blocks is divided by the number
    of entries of an index block, not by the bytes the block covers. *)
Theorem blockno_beyond i p s l a : slot_of sb l i a → length (di_iblock (i_di a)) = NIBLOCK →
  DIRECT_BYTES + 3 * 256 ≤ p < 2 ^ 32 → blockno_of_data i p (s, l) = Fault (s, l).
Proof.
  intros (Ea & _ & Esb) Hl Hp. unfold DIRECT_BYTES in Hp. unfold blockno_of_data.
  change (Z.of_nat (BSIZE * NDIRECT)) with 12288. destruct (Z.ltb_spec p 12288); [lia|].
  run (sb_of_ok i s l a sb Ea Esb). apply bind_faulted. unfold iblock_at.
  run (inode_at_ok i s l a Ea). unfold deref. rewrite lookup_ge_None_2; [done|]. rewrite Hl.
  change (Z.of_nat IDX_CNT) with 256. change NIBLOCK with 15%nat. change NDIRECT with 12%nat.
  assert (3 ≤ (p - 12288) / 256) by (apply Z.div_le_lower_bound; lia). lia.
Qed.

Lemma blocks_ok_step f s s' ib lo hi : io_step f s s' → blocks_ok s ib lo hi → blocks_ok s' ib lo hi.
Proof.
  intros St H p Hp. destruct (H p Hp) as (e & E1 & E2 & E3). exists e. split_and!; [done..|by eapply io_step_not_held].
Qed.
Lemma file_byte_step s s' ib p : io_step keep s s' → (∀ e, ib !! Z.to_nat (p / 1024) = Some e → data_blk sb e) →
  file_byte (bio_disk s') ib p = file_byte (bio_disk s) ib p.
Proof.
  intros St He. unfold file_byte. destruct (ib !! Z.to_nat (p / 1024)) as [e|]; [|done]. cbn.
  destruct (data_blk_range sb WF e (He e eq_refl)) as (_ & ? & _). by rewrite (st_disk _ _ _ St).
Qed.

(** The arithmetic of one round of the loops. *)
Lemma round_len pcur n : 0 ≤ pcur → 0 < n → let len := cmin (u32 (1024 - pcur mod 1024)) n in
  0 < len ≤ n ∧ len ≤ 1024 ∧ pcur mod 1024 + len ≤ 1024 ∧
  (∀ k, 0 ≤ k < len → (pcur + k) / 1024 = pcur / 1024 ∧ (pcur + k) mod 1024 = pcur mod 1024 + k).
Proof.
  intros Hp Hn len. pose proof (Z.mod_pos_bound pcur 1024 ltac:(lia)) as Hb.
  unfold len. rewrite u32_id, cmin_min by lia. split; [lia|]. split; [lia|]. split; [lia|]. intros k Hk.
  pose proof (Z.div_mod pcur 1024 ltac:(lia)). split.
  - symmetry. apply Z.div_unique with (pcur mod 1024 + k); lia.
  - symmetry. apply Z.mod_unique with (pcur / 1024); lia.
Qed.

(** The copying loop of [fread] into kernel memory delivers the bytes of the file. *)
Lemma fread_loop_spec fuel i pcur n done s l x a : slot_of sb l i a → let ib := di_iblock (i_di a) in
  0 ≤ pcur → 0 ≤ n → pcur + n ≤ DIRECT_BYTES → 0 ≤ done → done + n < 2 ^ 32 → n ≤ Z.of_nat fuel →
  bio_ok s → room 1 s → blocks_ok s ib pcur (pcur + n) →
  ∃ s' d, fread_loop fuel i ROOTDEV None pcur n done ((s, l), x) = Ok d ((s', l), x) ∧ io_step keep s s' ∧
    Z.of_nat (length d) = n ∧ ∀ k, 0 ≤ k < n → d !! Z.to_nat k = file_byte (bio_disk s) ib (pcur + k).
Proof.
  revert pcur n done s. induction fuel as [|fuel IH]; intros pcur n done s Hs ib Hp Hn Hpn Hd Hdn Hf Hok Hr Hb;
    cbn [fread_loop]; destruct (Z.eqb_spec n 0) as [->|Hn0].
  1,3: exists s, []; split; [done|]; split; [by apply io_step_refl|]; split; [done|]; lia.
  { lia. }
  pose proof Hs as (Ea & Es & Esb). change (Z.of_nat BSIZE) with 1024. unfold DIRECT_BYTES in *.
  destruct (round_len pcur n Hp ltac:(lia)) as (L1 & L2 & L3 & L4). set (len := cmin _ n) in *.
  destruct (Hb pcur ltac:(lia)) as (e & Ee & He & Hh). destruct (data_blk_range sb WF e He) as (B1 & B2 & _).
  run (on_ist_ok _ _ x _ _ (blockno_direct i pcur s l a e Ea ltac:(unfold DIRECT_BYTES; lia) Ee)).
  destruct (io_read_relse s e Hok B2 ltac:(lia) Hr Hh) as (b & s1 & s2 & E1 & O & Ebd & E2 & St).
  run (on_ist_ok _ _ x _ _ (lift_ok _ s l _ _ E1)). run (on_ist_ok _ _ x _ _ (data_of_ok b s1 l _ Ebd)). go.
  run (on_ist_ok _ _ x _ _ (lift_ok _ s1 l _ _ E2)).
  rewrite !u32_id by lia. pose proof (bio_disk_block s e Hok B2) as [Hlen _].
  set (chunk := take (Z.to_nat len) (drop (Z.to_nat (pcur mod 1024)) (bio_disk s e))).
  pose proof (Z.mod_pos_bound pcur 1024 ltac:(lia)) as Hm.
  assert (Hlc : length chunk = Z.to_nat len) by (unfold chunk; rewrite length_take, length_drop, Hlen; unfold BSIZE; lia).
  destruct (IH (pcur + len) (n - len) (done + len) s2 Hs) as (s3 & d & E3 & St3 & Hl & Hd3);
    [lia|lia|lia|lia|lia|lia|apply St|by eapply io_step_room| |].
  { intros p Hp'. eapply blocks_ok_step; [exact St|exact Hb|lia]. }
  run E3. exists s3, (chunk ++ d). split; [done|].
  split; [by eapply io_step_ext, io_step_trans, St3; [|exact St]|].
  split; [rewrite length_app, Hlc; lia|]. intros k Hk. destruct (decide (k < len)) as [Hkl|Hkl].
  - rewrite lookup_app_l by lia. unfold chunk. rewrite lookup_take_lt, lookup_drop by lia.
    destruct (L4 k ltac:(lia)) as [D1 D2]. unfold file_byte. rewrite D1, D2. fold ib in Ee. rewrite Ee. cbn. f_equal. lia.
  - rewrite lookup_app_r by lia. rewrite Hlc. replace (Z.to_nat k - Z.to_nat len)%nat with (Z.to_nat (k - len)) by lia.
    rewrite Hd3 by lia. rewrite (file_byte_step s s2); [f_equal; lia|done|].
    intros e' He'. destruct (Hb (pcur + len + (k - len)) ltac:(lia)) as (e'' & Q1 & Q2 & _).
    assert (Some e' = Some e'') as [= ->] by (rewrite <- He', <- Q1; done). done.
Qed.

Definition the_file x (f : optr) : file := c_obj (chunk_of file0 x.1.2 f).
Definition with_file x (f : optr) (v : file) : (pmem * slots file) * (list pipe * U) :=
  ((x.1.1, put_chunk f (MkChunk v (c_belong (chunk_of file0 x.1.2 f)) (c_inuse (chunk_of file0 x.1.2 f))) x.1.2), x.2).
Lemma file_at_ok f (i : @ist S) x : file_at f (i, x) = Ok (the_file x f) (i, x).
Proof. done. Qed.
Lemma put_file_ok f v (i : @ist S) x : put_file f v (i, x) = Ok tt (i, with_file x f v).
Proof. done. Qed.
Lemma the_with_file x f v : the_file (with_file x f v) f = v.
Proof. unfold the_file, with_file, chunk_of, put_chunk. cbn. by rewrite lookup_insert_eq. Qed.

(** [fread] into kernel memory: the bytes of the file from the offset on, as many as
    asked for and left, and the offset moves behind them. *)
Lemma fread_run f i bytes s l x a : slot_of sb l i a → let v := the_file x f in let ib := di_iblock (i_di a) in
  let n := Z.min bytes (di_fsize (i_di a) - f_off v) in
  f_obj v = Some i → 0 ≤ f_off v ≤ di_fsize (i_di a) → di_fsize (i_di a) < 2 ^ 32 → f_off v + n ≤ DIRECT_BYTES →
  0 ≤ bytes < 2 ^ 32 → bio_ok s → room 1 s → blocks_ok s ib (f_off v) (f_off v + n) →
  ∃ s' d, fread f None bytes ((s, l), x) = Ok (n, d) ((s', l), with_file x f (set_off (f_off v + n) v)) ∧
    io_step keep s s' ∧ Z.of_nat (length d) = n ∧
    ∀ k, 0 ≤ k < n → d !! Z.to_nat k = file_byte (bio_disk s) ib (f_off v + k).
Proof.
  intros Hs v ib n Hobj Hoff Hsz Hn Hby Hok Hr Hb. pose proof Hs as (Ea & Es & Esb). pose proof WF as [Hdev _ _ _ _ _].
  unfold DIRECT_BYTES in *. unfold fread. run (file_at_ok f (s, l) x). fold v. rewrite Hobj. go.
  run (on_ist_ok _ _ x _ _ (inode_at_ok i s l a Ea)). run (on_ist_ok _ _ x _ _ (sb_of_ok i s l a sb Ea Esb)).
  rewrite Hdev, (u32_id (di_fsize (i_di a) - f_off v)), cmin_min by lia. fold n.
  destruct (fread_loop_spec (Z.to_nat n) i (f_off v) n 0 s l x a Hs) as (s' & d & E & St & Hl & Hd);
    [lia|lia|unfold DIRECT_BYTES; lia|lia|lia|lia|done|done|done|].
  run E. run (file_at_ok f (s', l) x). fold v. rewrite Hl, u32_id by lia.
  run (put_file_ok f (set_off (f_off v + n) v) (s', l) x). exists s', d. done.
Qed.
(** [fread] of a file held by direct blocks returns as many bytes as asked for
    and left behind the offset, these are the bytes of the file's blocks from the
    offset on, the offset moves behind them and the disk does not change. *)
Theorem fread_spec f i bytes s l x a : slot_of sb l i a → let v := the_file x f in let ib := di_iblock (i_di a) in
  f_obj v = Some i → 0 ≤ f_off v ≤ di_fsize (i_di a) → di_fsize (i_di a) ≤ DIRECT_BYTES →
  0 ≤ bytes < 2 ^ 32 → bio_ok s → room 1 s → blocks_ok s ib 0 (di_fsize (i_di a)) →
  let n := Z.min bytes (di_fsize (i_di a) - f_off v) in
  ∃ s' d, fread f None bytes ((s, l), x) = Ok (n, d) ((s', l), with_file x f (set_off (f_off v + n) v)) ∧
    io_step keep s s' ∧ Z.of_nat (length d) = n ∧
    ∀ k, 0 ≤ k < n → d !! Z.to_nat k = file_byte (bio_disk s) ib (f_off v + k).
Proof.
  intros Hs v ib Hobj Hoff Hsz Hby Hok Hr Hb n. unfold DIRECT_BYTES in *.
  apply (fread_run f i bytes s l x a); try done; [lia|fold v; unfold DIRECT_BYTES; lia|]. intros p Hp. apply Hb. fold v in Hp. lia.
Qed.

(** ** Writing *)

(** The direct entries of an index are different blocks. *)
Definition direct_inj (ib : list Z) : Prop := ∀ j j' e, (j < NDIRECT)%nat → (j' < NDIRECT)%nat →
  ib !! j = Some e → ib !! j' = Some e → data_blk sb e → j = j'.
(** [g] stores [d] at position [p0] of the file and changes no other block. *)
Definition writes_at (ib : list Z) (p0 : Z) (d : list Z) (disk disk' : Z → list Z) : Prop :=
  (∀ p, 0 ≤ p < DIRECT_BYTES → (∀ e, ib !! Z.to_nat (p / 1024) = Some e → data_blk sb e) →
     file_byte disk' ib p =
     if decide (p0 ≤ p < p0 + Z.of_nat (length d)) then d !! Z.to_nat (p - p0) else file_byte disk ib p) ∧
  (∀ k, blk k → (∀ p, p0 ≤ p < p0 + Z.of_nat (length d) → ib !! Z.to_nat (p / 1024) ≠ Some k) → disk' k = disk k).

Lemma writes_at_nil ib p0 disk : writes_at ib p0 [] disk disk.
Proof. split; [|done]. intros p _ _. cbn. by rewrite decide_False by lia. Qed.
Lemma writes_at_app ib p0 d1 d2 disk disk1 disk2 : writes_at ib p0 d1 disk disk1 →
  writes_at ib (p0 + Z.of_nat (length d1)) d2 disk1 disk2 → writes_at ib p0 (d1 ++ d2) disk disk2.
Proof.
  intros [A1 A2] [B1 B2]. split.
  - intros p Hp He. rewrite B1, length_app by done. case_decide as C2.
    + rewrite decide_True by lia. rewrite lookup_app_r by lia. f_equal. lia.
    + rewrite A1 by done. case_decide as C1.
      * rewrite decide_True by lia. by rewrite lookup_app_l by lia.
      * by rewrite decide_False by lia.
  - intros k Hk Hn. rewrite length_app in Hn. rewrite B2, A2; [done|done| |done|].
    + intros p Hp. apply Hn. lia.
    + intros p Hp. apply Hn. lia.
Qed.
Lemma div_inj_range p q : 0 ≤ p → 0 ≤ q → Z.to_nat (p / 1024) = Z.to_nat (q / 1024) → p / 1024 = q / 1024.
Proof.
  intros Hp Hq E. pose proof (Z.div_pos p 1024 ltac:(lia) ltac:(lia)). pose proof (Z.div_pos q 1024 ltac:(lia) ltac:(lia)). lia.
Qed.
Lemma direct_index p : 0 ≤ p < 12288 → (Z.to_nat (p / 1024) < NDIRECT)%nat.
Proof.
  intros Hp. pose proof (Z.div_lt_upper_bound p 1024 12 ltac:(lia) ltac:(lia)).
  pose proof (Z.div_pos p 1024 ltac:(lia) ltac:(lia)). change NDIRECT with 12%nat. lia.
Qed.
(** One round: [d] into one block. *)
Lemma writes_at_block ib p0 d e disk disk' : direct_inj ib → 0 ≤ p0 → p0 < DIRECT_BYTES → d ≠ [] →
  p0 mod 1024 + Z.of_nat (length d) ≤ 1024 → ib !! Z.to_nat (p0 / 1024) = Some e → data_blk sb e →
  is_block (disk e) →
  (∀ k, blk k → disk' k = if decide (k = e) then blit (Z.to_nat (p0 mod 1024)) d (disk e) else disk k) →
  writes_at ib p0 d disk disk'.
Proof.
  intros Hinj Hp0 Hp1 Hd Hl He Hde [Hlen _] Hk. unfold DIRECT_BYTES in *.
  pose proof (Z.mod_pos_bound p0 1024 ltac:(lia)) as Hm. pose proof (Z.div_mod p0 1024 ltac:(lia)) as Hdm.
  assert (Hld : (0 < length d)%nat) by (destruct d; [done|cbn; lia]).
  destruct (data_blk_range sb WF e Hde) as (_ & Hbe & _). split.
  - intros p Hp Hpe. unfold file_byte. destruct (ib !! Z.to_nat (p / 1024)) as [e'|] eqn:Ee'; cbn.
    + pose proof (Hpe e' eq_refl) as Hde'. destruct (data_blk_range sb WF e' Hde') as (_ & Hbe' & _).
      rewrite Hk by done. pose proof (Z.mod_pos_bound p 1024 ltac:(lia)). pose proof (Z.div_mod p 1024 ltac:(lia)).
      destruct (decide (e' = e)) as [->|Hne].
      * assert (p / 1024 = p0 / 1024) as Eq.
        { apply div_inj_range; [lia|lia|]. apply (Hinj _ _ e); [by apply direct_index..|done|done|done]. }
        rewrite lookup_blit by (rewrite Hlen; unfold BSIZE; lia).
        destruct (decide (p0 ≤ p < p0 + Z.of_nat (length d))).
        -- rewrite decide_True by lia. f_equal. lia.
        -- by rewrite decide_False by lia.
      * rewrite decide_False; [done|]. intros Hr. apply Hne.
        assert (p / 1024 = p0 / 1024) as Eq by (symmetry; apply Z.div_unique with (p - p0 + p0 mod 1024); lia).
        rewrite Eq in Ee'. congruence.
    + rewrite decide_False; [done|]. intros Hr.
      assert (p / 1024 = p0 / 1024) as Eq by (symmetry; apply Z.div_unique with (p - p0 + p0 mod 1024); lia).
      rewrite Eq in Ee'. congruence.
  - intros k Hbk Hn. rewrite Hk by done. rewrite decide_False; [done|]. intros ->. by apply (Hn p0 ltac:(lia)).
Qed.

(** The storing loop of [fwrite] from kernel memory. *)
Lemma fwrite_loop_spec fuel i pcur n done data s l x a : slot_of sb l i a → let ib := di_iblock (i_di a) in
  direct_inj ib → 0 ≤ pcur → 0 ≤ n → pcur + n ≤ DIRECT_BYTES → 0 ≤ done → done + n = Z.of_nat (length data) →
  done + n < 2 ^ 32 → n ≤ Z.of_nat fuel → bytes_ok data → bio_ok s → room 1 s → blocks_ok s ib pcur (pcur + n) →
  ∃ s' g, fwrite_loop fuel i ROOTDEV (inr data) pcur n done ((s, l), x) = Ok (done + n) ((s', l), x) ∧
    io_step g s s' ∧ writes_at ib pcur (drop (Z.to_nat done) data) (bio_disk s) (bio_disk s').
Proof.
  revert pcur n done s. induction fuel as [|fuel IH]; intros pcur n done s Hs ib Hinj Hp Hn Hpn Hd Hdn Hdm Hf Hby Hok Hr Hb;
    cbn [fwrite_loop]; destruct (Z.eqb_spec n 0) as [->|Hn0].
  1,3: exists s, keep; split; [unfold ret; do 2 f_equal; lia|]; split; [by apply io_step_refl|];
    rewrite drop_ge by lia; apply writes_at_nil.
  { lia. }
  pose proof Hs as (Ea & Es & Esb). change (Z.of_nat BSIZE) with 1024. unfold DIRECT_BYTES in *.
  destruct (round_len pcur n Hp ltac:(lia)) as (L1 & L2 & L3 & L4). set (len := cmin _ n) in *.
  destruct (Hb pcur ltac:(lia)) as (e & Ee & He & Hh). destruct (data_blk_range sb WF e He) as (B1 & B2 & _).
  run (on_ist_ok _ _ x _ _ (blockno_direct i pcur s l a e Ea ltac:(unfold DIRECT_BYTES; lia) Ee)).
  destruct (io_bread_owns s e Hok B2 ltac:(lia) Hr Hh) as (b & s1 & E1 & O).
  run (on_ist_ok _ _ x _ _ (lift_ok _ s l _ _ E1)). cbn [src_bytes]. go.
  destruct (owns_data _ _ _ _ _ _ O) as (Hbd & _ & Hblk & _). run (on_ist_ok _ _ x _ _ (data_of_ok b s1 l _ Hbd)).
  set (chunk := take (Z.to_nat len) (drop (Z.to_nat done) data)).
  assert (Hlc : length chunk = Z.to_nat len) by (unfold chunk; rewrite length_take, length_drop; lia).
  pose proof (Z.mod_pos_bound pcur 1024 ltac:(lia)) as Hm. pose proof Hblk as [Hlen Hbb].
  set (d' := blit (Z.to_nat (pcur mod 1024)) chunk (bio_disk s e)).
  assert (Hd' : is_block d').
  { split; [unfold d'; rewrite length_blit; rewrite Hlen; unfold BSIZE; lia|].
    apply bytes_ok_blit; [by apply bytes_ok_take, bytes_ok_drop|done]. }
  run (on_ist_ok _ _ x _ _ (lift_ok (modify (bset b d')) s1 l tt (bset b d' s1) eq_refl)).
  destruct (owns_rewrite _ _ _ _ _ _ _ O Hd') as (s2 & s3 & E2 & E3 & St).
  run (on_ist_ok _ _ x _ _ (lift_ok _ _ l _ _ E2)). run (on_ist_ok _ _ x _ _ (lift_ok _ _ l _ _ E3)).
  rewrite !u32_id by lia.
  destruct (IH (pcur + len) (n - len) (done + len) s3 Hs) as (s4 & g & E4 & St4 & Hw);
    [done|lia|lia|lia|lia|lia|lia|lia|done|apply St|by eapply io_step_room| |].
  { intros p Hp'. eapply blocks_ok_step; [exact St|exact Hb|lia]. }
  eexists s4, _. split; [etransitivity; [exact E4|f_equal; lia]|].
  split; [eapply io_step_trans; [exact St|exact St4]|].
  replace (drop (Z.to_nat done) data) with (chunk ++ drop (Z.to_nat (done + len)) data).
  - eapply writes_at_app; [|rewrite Hlc, Z2Nat.id by lia; exact Hw].
    eapply (writes_at_block ib pcur chunk e); try done.
    + unfold DIRECT_BYTES. lia.
    + intros Hc. rewrite Hc in Hlc. cbn in Hlc. lia.
    + rewrite Hlc. lia.
    + intros k Hk. rewrite (st_disk _ _ _ St) by done. unfold comp, keep, wr. done.
  - unfold chunk. rewrite Z2Nat.inj_add, <- drop_drop by lia. apply take_drop.
Qed.

Lemma set_fsize_wf v di : di_wf di → u32_ok v → di_wf (set_fsize v di).
Proof.
  intros [Hw Hl] Hv. split; [|done]. unfold dinode_words in *. cbn in *.
  apply Forall_cons in Hw as [H1 Hw]. apply Forall_cons in Hw as [H2 Hw]. apply Forall_cons in Hw as [H3 Hw].
  apply Forall_cons in Hw as [H4 Hw]. by do 4 (apply Forall_cons; split; [done|]).
Qed.
Lemma itable_blocks_ok s : itable_free sb s → bio_ok s.
Proof. by intros (? & _). Qed.

(** Overwriting bytes inside a file: the bytes are stored in place and no block is
    allocated, and the recorded size grows by the number of bytes written. *)
Lemma fwrite_over f i data s l x a : slot_of sb l i a → let v := the_file x f in let ib := di_iblock (i_di a) in
  let n := Z.of_nat (length data) in
  f_obj v = Some i → 0 ≤ f_off v → f_off v + n ≤ di_fsize (i_di a) → di_fsize (i_di a) ≤ DIRECT_BYTES →
  bytes_ok data → di_wf (i_di a) → 0 ≤ i_inum a < ninodes sb → direct_inj ib →
  itable_free sb s → blocks_ok s ib 0 (di_fsize (i_di a)) →
  ∃ s' g, fwrite f (inr data) n ((s, l), x) =
      Ok n ((s', <[i := set_di (set_fsize (di_fsize (i_di a) + n)) a]> l), with_file x f (set_off (f_off v + n) v)) ∧
    io_step g s s' ∧ ∃ disk1, writes_at ib (f_off v) data (bio_disk s) disk1 ∧
    ∀ k, blk k → bio_disk s' k = wr_inode sb (i_inum a) (set_fsize (di_fsize (i_di a) + n) (i_di a)) k (disk1 k).
Proof.
  intros Hs v ib n Hobj Hoff Hsz Hds Hby Hdi Hin Hinj Ht Hb. pose proof Hs as (Ea & Es & Esb).
  pose proof WF as [Hdev ? ? ? ? _]. destruct (wf_ranges sb WF) as (_ & _ & ?).
  pose proof Ht as (Hok & Hr & Hth). unfold DIRECT_BYTES in *. unfold fwrite.
  run (file_at_ok f (s, l) x). fold v. rewrite Hobj. go.
  run (on_ist_ok _ _ x _ _ (inode_at_ok i s l a Ea)). run (on_ist_ok _ _ x _ _ (sb_of_ok i s l a sb Ea Esb)).
  rewrite Hdev, u32_id by lia.
  assert (Eg : grow_loop (U:=U) (Z.to_nat n) i (di_fsize (i_di a) - f_off v) n ((s, l), x) = Ok tt ((s, l), x)).
  { destruct (Z.to_nat n); cbn [grow_loop]; (destruct (Z.ltb_spec (di_fsize (i_di a) - f_off v) n); [lia|done]). }
  run Eg.
  destruct (fwrite_loop_spec (Z.to_nat n) i (f_off v) n 0 data s l x a Hs) as (s1 & g & E1 & St1 & Hw);
    [done|lia|lia|unfold DIRECT_BYTES; lia|lia|lia|lia|lia|done|done|done| |].
  { intros p Hp. apply Hb. lia. }
  run E1. rewrite Z.add_0_l. run (file_at_ok f (s1, l) x). fold v. rewrite u32_id by lia.
  run (put_file_ok f (set_off (f_off v + n) v) (s1, l) x).
  set (x' := with_file _ _ _). set (a' := set_di (set_fsize (di_fsize (i_di a) + n)) a).
  assert (Em : mod_inode i (set_di (λ di, set_fsize (u32 (di_fsize di + n)) di)) (s1, l) = Ok tt (s1, <[i:=a']> l)).
  { rewrite (mod_inode_ok i _ s1 l a Ea). do 3 f_equal. unfold a', set_di. f_equal. by rewrite u32_id by lia. }
  run (on_ist_ok _ _ x' _ _ Em). pose proof (lookup_lt_Some _ _ _ Ea) as Hlt.
  destruct (iupdate_spec sb WF s1 (<[i:=a']> l) i a') as (s2 & E2 & St2).
  { split; [by apply list_lookup_insert_eq|done]. } { done. }
  { apply set_fsize_wf; [done|]. unfold u32_ok. lia. } { by eapply area_free_step. }
  run (on_ist_ok _ _ x' _ _ E2). eexists s2, _. split; [done|]. split; [eapply io_step_trans; [exact St1|exact St2]|].
  exists (bio_disk s1). by split; [rewrite Z2Nat.inj_0, drop_0 in Hw|apply (st_disk _ _ _ St2)].
Qed.
(** Appending to a file whose only block is partly filled never succeeds: the
    block count is off by one and wraps, and the index entry used lies outside the
    inode, unless the disk is full, which stops the machine before. *)
Theorem fwrite_append_partial f i src n s l x a : slot_of sb l i a → let v := the_file x f in
  f_obj v = Some i → 0 < di_fsize (i_di a) < 1024 → f_off v = di_fsize (i_di a) → 0 < n < 2 ^ 32 →
  length (di_iblock (i_di a)) = NIBLOCK → bmap_free sb 1 s →
  (∃ y, fwrite f src n ((s, l), x) = Fault y) ∨
  (∃ y, fwrite f src n ((s, l), x) = Panic "balloc: space exhausted" y).
Proof.
  intros Hs v Hobj Hfs Hoff Hn Hl Hb. pose proof Hs as (Ea & Es & Esb). unfold fwrite.
  run (file_at_ok f (s, l) x). fold v. rewrite Hobj. go.
  run (on_ist_ok _ _ x _ _ (inode_at_ok i s l a Ea)). run (on_ist_ok _ _ x _ _ (sb_of_ok i s l a sb Ea Esb)).
  rewrite Hoff, Z.sub_diag. change (u32 0) with 0.
  destruct (Z.to_nat n) as [|k] eqn:Ek; [lia|]. cbn [grow_loop]. destruct (Z.ltb_spec 0 n); [|lia].
  rewrite !bind_assoc.
  destruct (data_block_alloc_partial sb WF i s l a Hs Hfs Hl Hb) as [[[s1 l1] E]|[[s1 l1] E]].
  - left. eexists. apply bind_faulted, on_ist_fault, E.
  - right. eexists. apply bind_panicked. unfold on_ist, zoom. cbn [fst]. by rewrite E.
Qed.
End file_spec.

(** ** Allocating a file *)
Section falloc_spec.
Context {S : Type} {IO : BlockIO S} {U : Type} {UM : UserMem U}.
Implicit Types (s : S) (l : list inode) (y : list pipe * U) (st : slots file).

(** [st'] has the new file [f] with one user; the other files are as in [st]. *)
Definition new_file (f : optr) st st' : Prop :=
  ¬ live NFILE_CHUNK file0 st f ∧ live NFILE_CHUNK file0 st' f ∧
  f_refc (c_obj (chunk_of file0 st' f)) = 1 ∧ f_off (c_obj (chunk_of file0 st' f)) = 0 ∧
  ∀ o, o ≠ f → (live NFILE_CHUNK file0 st' o ↔ live NFILE_CHUNK file0 st o) ∧
    (live NFILE_CHUNK file0 st o → c_obj (chunk_of file0 st' o) = c_obj (chunk_of file0 st o)).
Definition files_ok (tl : gmap nat (list nat)) (p : pmem) st : Prop :=
  slots_inv NFILE_CHUNK file0 tl p st ∧ ∃ fl, pages_inv fl tl p.

Lemma falloc_spec s l p st y tl : quiet (bmach s) → files_ok tl p st →
  (∃ f p' st', falloc ((s, l), ((p, st), y)) = Ok f ((bset_mach (touch (bmach s)) s, l), ((p', st'), y)) ∧
    files_ok tl p' st' ∧ new_file f st st') ∨
  (∃ msg z, falloc ((s, l), ((p, st), y)) = Panic msg z).
Proof.
  intros Hq [I [fl Ip]]. unfold falloc, alloc_file_slot.
  destruct (alloc_slot_spec FileSlot NFILE_CHUNK file0 ltac:(unfold NFILE_CHUNK; lia) (bmach s) p st fl tl Hq I Ip)
    as [(f & p' & st' & fl' & E & Ip' & I' & (H1 & H2 & H3) & _)|[[_ [z E]]|[_ [z E]]]].
  2,3: right; do 2 eexists; apply bind_panicked; unfold on_slots, zoom; cbn [fst snd]; by rewrite E.
  left. assert (Es : on_slots (U:=U) (alloc_slot FileSlot NFILE_CHUNK file0) ((s, l), ((p, st), y)) =
    Ok f ((bset_mach (touch (bmach s)) s, l), ((p', st'), y))) by (unfold on_slots, zoom; cbn [fst snd]; by rewrite E).
  run Es. unfold file_at, put_file. go. cbn [fst snd].
  set (v := c_obj (chunk_of file0 st' f)). set (v' := MkFile (f_mode v) (f_type v) 1 0 (f_obj v)).
  exists f, p', (store_obj file0 f v' st'). split; [done|].
  assert (Hv : ∀ o, c_obj (chunk_of file0 (store_obj file0 f v' st') o) = if decide (f = o) then v' else c_obj (chunk_of file0 st' o))
    by (intros o; apply store_obj_same).
  split; [split; [by apply store_obj_inv|by exists fl']|]. unfold new_file. rewrite !store_obj_live, Hv, decide_True by done.
  split_and!; [done..|]. intros o Ho. rewrite store_obj_live, Hv, decide_False by done. by apply H3.
Qed.
End falloc_spec.
