(* ===== verification/Printf.v ===== *)
(** Console output of the kernel (kernel/util/printf.c, [uart_put_syn] of
    kernel/dev/uart.c): number conversion and the format loop of [print].

    The state is the machine with its locks and the bytes the UART has sent.  The
    loop that polls the line status register ends when the device is ready; it
    leaves no trace in this state.  [mem] is the memory that holds the format and
    the string arguments. *)
From S2P Require Import Prelude Bytes CString Machine.

(** [struct var_para]: the registers a1..a7 and the index of the next one. *)
Record var_para := MkVp { vp_a : list Z; vp_i : Z }.
Definition digits : list Z := [48; 49; 50; 51; 52; 53; 54; 55; 56; 57; 65; 66; 67; 68; 69; 70].
Definition NBUF : nat := 21.

Definition PR : Type → Type := M (mach * list Z).
Definition uart_put_syn (c : Z) : PR unit :=
  onm (spin_get L_tx) ;;
  modify (λ s, (s.1, s.2 ++ [u8 c])) ;;
  onm (spin_put L_tx).
Definition fetch_para (vp : var_para) : PR (Z * var_para) :=
  let! v := deref (λ _, vp_a vp !! Z.to_nat (vp_i vp)) in
  ret (v, MkVp (vp_a vp) (u8 (vp_i vp + 1))).

(** [while (num > 0) { buf[i++] = digits[num % ns]; num /= ns; }] *)
Fixpoint digit_loop (fuel : nat) (ns num : Z) (i : nat) (buf : list Z) : option (nat * list Z) :=
  if 0 <? num then
    match fuel with
    | O => None
    | S fuel =>
      c ← digits !! Z.to_nat (num mod ns);
      buf ← st i c buf;
      digit_loop fuel ns (num / ns) (S i) buf
    end
  else Some (i, buf).
(** [while (i--) uart_put_syn(buf[i]);] *)
Fixpoint put_loop (i : nat) (buf : list Z) : PR unit :=
  match i with
  | O => ret tt
  | S i => let! c := deref (λ _, buf !! i) in uart_put_syn c ;; put_loop i buf
  end.
Definition NUM_FUEL : nat := 64.
Definition printuint (ns : Z) (vp : var_para) : PR var_para :=
  let! (num, vp) := fetch_para vp in
  if num =? 0 then uart_put_syn 48 ;; ret vp
  else
    let! (i, buf) := deref (λ _, digit_loop NUM_FUEL ns num 0 (replicate NBUF 0)) in
    put_loop i buf ;;
    ret vp.
(** [-num] of the least [long] is taken to wrap around. *)
Definition printint (ns : Z) (vp : var_para) : PR var_para :=
  let! (v, vp) := fetch_para vp in
  let num := i64 v in
  when (num <? 0) (uart_put_syn 45) ;;
  if num =? 0 then uart_put_syn 48 ;; ret vp
  else
    let num := if num <? 0 then i64 (- num) else num in
    let! (i, buf) := deref (λ _, digit_loop NUM_FUEL ns num 0 (replicate NBUF 0)) in
    put_loop i buf ;;
    ret vp.

Section print.
Context (mem : list Z).

Fixpoint printstr_loop (fuel ch : nat) : PR unit :=
  match fuel with
  | O => fault
  | S fuel =>
    let! c := deref (λ _, ld ch mem) in
    if c =? 0 then ret tt
    else uart_put_syn c ;; printstr_loop fuel (S ch)
  end.
Definition printstr (ch : nat) : PR unit := printstr_loop (S (length mem)) ch.
(** The constant string ["0x"]. *)
Definition print0x : PR unit := uart_put_syn 48 ;; uart_put_syn 120.

(** The [switch] on the conversion character: [None] when it is no conversion. *)
Definition convert (c : Z) (vp : var_para) : option (PR var_para) :=
  if c =? 100 then Some (printint 10 vp)
  else if c =? 117 then Some (printuint 10 vp)
  else if c =? 120 then Some (print0x ;; printuint 16 vp)
  else if c =? 115 then Some (
    let! (v, vp) := fetch_para vp in
    printstr (Z.to_nat v) ;;
    ret vp)
  else None.
Fixpoint print_loop (fuel fmt : nat) (vp : var_para) : PR unit :=
  match fuel with
  | O => fault
  | S fuel =>
    let! c := deref (λ _, ld fmt mem) in
    if c =? 0 then ret tt
    else if c =? 37 then
      let! c' := deref (λ _, ld (S fmt) mem) in
      match convert c' vp with
      | Some m => let! vp := m in print_loop fuel (S (S fmt)) vp
      | None => uart_put_syn c ;; print_loop fuel (S fmt) vp
      end
    else uart_put_syn c ;; print_loop fuel (S fmt) vp
  end.
Definition print (fmt : nat) (args : list Z) : PR unit :=
  onm (spin_get L_pr) ;;
  print_loop (S (length mem)) fmt (MkVp args 0) ;;
  onm (spin_put L_pr).
(** [panic] prints and does not return: the lock stays taken. *)
Definition panic_print (fmt : nat) (args : list Z) : PR unit :=
  onm (spin_get L_pr) ;;
  uart_put_syn 10 ;; uart_put_syn 10 ;;
  uart_put_syn 112 ;; uart_put_syn 97 ;; uart_put_syn 110 ;; uart_put_syn 105 ;; uart_put_syn 99 ;;
  uart_put_syn 58 ;; uart_put_syn 32 ;;
  print_loop (S (length mem)) fmt (MkVp args 0) ;;
  uart_put_syn 10 ;;
  (λ s, Spin s).

End print.

(** ** Reference: numerals and rendering *)

Definition digit (v : Z) : Z := default 0 (digits !! Z.to_nat v).
(** The numeral of [n] in base [ns], most significant digit first. *)
Fixpoint numeral (fuel : nat) (ns n : Z) : list Z :=
  match fuel with
  | O => []
  | S fuel => if 0 <? n then numeral fuel ns (n / ns) ++ [digit (n mod ns)] else []
  end.
Definition show_u (ns n : Z) : list Z := if n =? 0 then [48] else numeral NUM_FUEL ns n.
Definition show_d (v : Z) : list Z := if i64 v <? 0 then 45 :: show_u 10 (- i64 v) else show_u 10 (i64 v).
(** Reading a numeral back. *)
Definition digit_val (c : Z) : Z := if c <? 65 then c - 48 else c - 55.
Definition read_num (ns : Z) (ds : list Z) : Z := foldl (λ a c, a * ns + digit_val c) 0 ds.
(** What a format prints: [strs] gives the string at an address. *)
Fixpoint render (strs : Z → option (list Z)) (w : list Z) (args : list Z) : option (list Z) :=
  match w with
  | [] => Some []
  | c :: w1 =>
    let plain := (c ::.) <$> render strs w1 args in
    if c =? 37 then
      match w1 with
      | [] => plain
      | c' :: w2 =>
        let conv (f : Z → option (list Z)) :=
          match args with [] => None | a :: args => d ← f a; app d <$> render strs w2 args end in
        if c' =? 100 then conv (λ a, Some (show_d a))
        else if c' =? 117 then conv (λ a, Some (show_u 10 a))
        else if c' =? 120 then conv (λ a, Some (48 :: 120 :: show_u 16 a))
        else if c' =? 115 then conv strs
        else plain
      end
    else plain
  end.

Lemma digit_lookup v : 0 ≤ v < 16 → digits !! Z.to_nat v = Some (digit v).
Proof.
  intros Hv. unfold digit. destruct (lookup_lt_is_Some_2 digits (Z.to_nat v)) as [c E]; [cbn; lia|]. by rewrite E.
Qed.
Lemma digit_val_digit v : 0 ≤ v < 16 → digit_val (digit v) = v.
Proof.
  intros Hv. assert (Hf : forallb (λ v, digit_val (digit v) =? v) (seqZ 0 16) = true) by reflexivity.
  apply Z.eqb_eq. apply (proj1 (forallb_forall _ _) Hf v). apply list_elem_of_In, elem_of_seqZ. lia.
Qed.

(** Digits of a number are read back as the number. *)
Lemma read_numeral fuel ns n : 2 ≤ ns ≤ 16 → 0 ≤ n < ns ^ Z.of_nat fuel → read_num ns (numeral fuel ns n) = n.
Proof.
  intros Hns. revert n. induction fuel as [|fuel IH]; intros n Hn; [cbn in *; lia|]. cbn [numeral].
  destruct (Z.ltb_spec 0 n); [|cbn; lia]. unfold read_num. rewrite foldl_app. cbn [foldl].
  change (foldl (λ a c, a * ns + digit_val c) 0 (numeral fuel ns (n / ns))) with (read_num ns (numeral fuel ns (n / ns))).
  rewrite IH.
  - pose proof (Z.mod_pos_bound n ns ltac:(lia)). rewrite digit_val_digit by lia. pose proof (Z.div_mod n ns ltac:(lia)). lia.
  - split; [apply Z.div_pos; lia|]. apply Z.div_lt_upper_bound; [lia|].
    rewrite Nat2Z.inj_succ, Z.pow_succ_r in Hn by lia. lia.
Qed.
Lemma numeral_length fuel ns n k : 2 ≤ ns → 0 ≤ n < ns ^ Z.of_nat k → (length (numeral fuel ns n) ≤ k)%nat.
Proof.
  intros Hns. revert n k. induction fuel as [|fuel IH]; intros n k Hn; [cbn; lia|]. cbn [numeral].
  destruct (Z.ltb_spec 0 n); [|cbn; lia]. rewrite length_app. cbn [length].
  destruct k as [|k]; [cbn in Hn; lia|]. rewrite Nat2Z.inj_succ, Z.pow_succ_r in Hn by lia.
  enough (length (numeral fuel ns (n / ns)) ≤ k)%nat by lia. apply IH.
  split; [apply Z.div_pos; lia|]. apply Z.div_lt_upper_bound; lia.
Qed.

(** The loop stores the digits of [num] in reverse, behind the first [i] bytes. *)
Lemma digit_loop_spec fuel ns num i buf : 2 ≤ ns ≤ 16 → 0 ≤ num < ns ^ Z.of_nat fuel →
  (i + length (numeral fuel ns num) ≤ length buf)%nat →
  ∃ buf', digit_loop fuel ns num i buf = Some ((i + length (numeral fuel ns num))%nat, buf') ∧
    take (i + length (numeral fuel ns num)) buf' = take i buf ++ reverse (numeral fuel ns num).
Proof.
  intros Hns. revert num i buf. induction fuel as [|fuel IH]; intros num i buf Hn Hl; cbn [digit_loop numeral] in *.
  - destruct (Z.ltb_spec 0 num); [cbn in Hn; lia|]. exists buf. by rewrite Nat.add_0_r, app_nil_r.
  - destruct (Z.ltb_spec 0 num); [|exists buf; cbn; by rewrite Nat.add_0_r, app_nil_r].
    rewrite length_app in *. cbn [length] in *. pose proof (Z.mod_pos_bound num ns ltac:(lia)).
    rewrite digit_lookup by lia. cbn [mbind option_bind]. rewrite st_ok by lia. cbn [mbind option_bind].
    destruct (IH (num / ns) (S i) (<[i := digit (num mod ns)]> buf)) as (buf' & E & Ht).
    + split; [apply Z.div_pos; lia|]. apply Z.div_lt_upper_bound; [lia|].
      rewrite Nat2Z.inj_succ, Z.pow_succ_r in Hn by lia. lia.
    + rewrite length_insert. lia.
    + exists buf'. rewrite E. replace (S i + length (numeral fuel ns (num / ns)))%nat with (i + (length (numeral fuel ns (num / ns)) + 1))%nat in * by lia.
      split; [done|]. rewrite Ht, reverse_snoc.
      rewrite (take_S_r _ i (digit (num mod ns))) by (by apply list_lookup_insert_eq; lia).
      by rewrite take_insert_ge, <- app_assoc by lia.
Qed.

(** ** Output *)

(** The UART can be used inside a critical section. *)
Definition tx_ok (m : mach) : Prop := m_wf m ∧ lock_free m L_tx ∧ touch m = m.
(** [r] sends the bytes [d] and returns [a]. *)
Definition prints {A} (r : PR A) (m : mach) (d : list Z) (a : A) : Prop :=
  ∀ o, r (m, o) = Ok a (m, o ++ d).

Section output.
Context (m : mach) (Hm : tx_ok m).

Lemma prints_ret {A} (a : A) : prints (ret a) m [] a.
Proof. intros o. by rewrite app_nil_r. Qed.
Lemma prints_bind {A B} (r : PR A) (f : A → PR B) d1 d2 a b :
  prints r m d1 a → prints (f a) m d2 b → prints (bind r f) m (d1 ++ d2) b.
Proof. intros H1 H2 o. run (H1 o). by rewrite H2, app_assoc. Qed.
Lemma prints_deref {A B} (x : option A) a (f : A → PR B) d b :
  x = Some a → prints (f a) m d b → prints (bind (deref (λ _, x)) f) m d b.
Proof. intros -> H o. by rewrite bind_deref_const. Qed.
Lemma prints_put c : 0 ≤ c < 256 → prints (uart_put_syn c) m [c] tt.
Proof.
  intros Hc o. destruct Hm as (Hw & Hf & Ht). unfold uart_put_syn.
  unfold bind at 1, onm, zoom. cbn [fst snd]. rewrite spin_get_free by done. go. cbn [fst snd].
  rewrite spin_put_held by apply acq_held. rewrite rel_acq by done. by rewrite Ht, u8_small.
Qed.
Lemma prints_put_loop i buf : (i ≤ length buf)%nat → bytes_ok (take i buf) →
  prints (put_loop i buf) m (reverse (take i buf)) tt.
Proof.
  induction i as [|i IH]; intros Hi Hb; cbn [put_loop]; [apply prints_ret|].
  destruct (lookup_lt_is_Some_2 buf i) as [c E]; [lia|]. rewrite (take_S_r _ _ _ E) in Hb |- *.
  apply bytes_ok_app in Hb as [Hb Hc]. apply Forall_cons in Hc as [Hc _]. rewrite reverse_snoc.
  eapply prints_deref; [done|]. change (c :: reverse (take i buf)) with ([c] ++ reverse (take i buf)).
  eapply prints_bind; [by apply prints_put|]. apply IH; [lia|done].
Qed.
Lemma digit_byte v : 0 ≤ digit v < 256.
Proof.
  unfold digit. destruct (digits !! Z.to_nat v) as [c|] eqn:E; [|cbn; lia]. cbn.
  assert (Hd : bytes_ok digits) by (repeat constructor; lia). by apply (proj1 (Forall_lookup _ _) Hd (Z.to_nat v)).
Qed.
Lemma numeral_bytes fuel ns n : bytes_ok (numeral fuel ns n).
Proof.
  revert n. induction fuel as [|fuel IH]; intros n; cbn; [constructor|]. destruct (0 <? n); [|constructor].
  apply bytes_ok_app. split; [apply IH|]. constructor; [apply digit_byte|constructor].
Qed.
(** The numeral of any 64-bit number fits the buffer. *)
Lemma prints_number ns n (vp : var_para) : 10 ≤ ns ≤ 16 → 0 ≤ n < 2 ^ 64 →
  prints (let! (i, buf) := deref (λ _, digit_loop NUM_FUEL ns n 0 (replicate NBUF 0)) in put_loop i buf ;; ret vp)
    m (numeral NUM_FUEL ns n) vp.
Proof.
  intros Hns Hn. assert (2 ^ 64 ≤ ns ^ Z.of_nat 20).
  { etransitivity; [|apply Z.pow_le_mono_l; split; [|apply Hns]; lia]. by vm_compute. }
  assert (ns ^ Z.of_nat 20 ≤ ns ^ Z.of_nat NUM_FUEL) by (apply Z.pow_le_mono_r; unfold NUM_FUEL; lia).
  pose proof (numeral_length NUM_FUEL ns n 20 ltac:(lia) ltac:(lia)) as Hl.
  destruct (digit_loop_spec NUM_FUEL ns n 0 (replicate NBUF 0)) as (buf & E & Ht);
    [lia|lia|rewrite length_replicate; unfold NBUF; lia|].
  cbn [Nat.add] in *. rewrite take_0 in Ht. cbn [app] in Ht.
  rewrite <- (app_nil_r (numeral _ _ _)). eapply prints_deref; [exact E|]. eapply prints_bind; [|apply prints_ret].
  pose proof (f_equal length Ht) as Hlb. rewrite length_take, length_reverse in Hlb.
  rewrite <- (reverse_involutive (numeral NUM_FUEL ns n)). rewrite <- Ht at 2. rewrite reverse_involutive.
  apply prints_put_loop; [lia|]. rewrite Ht. unfold bytes_ok. rewrite Forall_reverse. apply numeral_bytes.
Qed.
(** [printuint] and [printint] send the numeral of the next argument. *)
Definition nth_arg (vp : var_para) (v : Z) : Prop :=
  0 ≤ vp_i vp < 255 ∧ vp_a vp !! Z.to_nat (vp_i vp) = Some v ∧ 0 ≤ v < 2 ^ 64.
Definition vp_next (vp : var_para) : var_para := MkVp (vp_a vp) (vp_i vp + 1).
Lemma prints_fetch {A} (f : Z * var_para → PR A) vp v d a : nth_arg vp v →
  prints (f (v, vp_next vp)) m d a → prints (bind (fetch_para vp) f) m d a.
Proof.
  intros (Hi & E & _) H o. unfold fetch_para. rewrite bind_assoc, (bind_deref _ _ _ v) by done. go.
  rewrite u8_small by lia. apply H.
Qed.
Lemma prints_uint ns vp v : 10 ≤ ns ≤ 16 → nth_arg vp v → prints (printuint ns vp) m (show_u ns v) (vp_next vp).
Proof.
  intros Hns Hv. eapply prints_fetch; [done|]. destruct Hv as (_ & _ & Hv). unfold show_u. cbn beta iota.
  destruct (Z.eqb_spec v 0); [|by apply prints_number].
  rewrite <- (app_nil_r [48]). eapply prints_bind; [apply prints_put; lia|apply prints_ret].
Qed.
Lemma i64_range v : - 2 ^ 63 ≤ i64 v < 2 ^ 63.
Proof. unfold i64, swrap. pose proof (Z.mod_pos_bound (v + 2 ^ (64 - 1)) (2 ^ 64)). lia. Qed.
Lemma i64_id z : - 2 ^ 63 ≤ z < 2 ^ 63 → i64 z = z.
Proof. intros. unfold i64, swrap. rewrite Z.mod_small; lia. Qed.
Lemma prints_int vp v : nth_arg vp v → i64 v ≠ - 2 ^ 63 → prints (printint 10 vp) m (show_d v) (vp_next vp).
Proof.
  intros Hv Hmin. eapply prints_fetch; [done|]. pose proof (i64_range v) as Hr. unfold show_d, show_u. cbn beta iota zeta.
  destruct (Z.ltb_spec (i64 v) 0) as [Hn|Hn]; unfold when; cbn iota.
  - destruct (Z.eqb_spec (i64 v) 0); [lia|]. destruct (Z.eqb_spec (- i64 v) 0); [lia|]. rewrite i64_id by lia.
    change (45 :: ?l) with ([45] ++ l). eapply prints_bind; [apply prints_put; lia|]. apply prints_number; lia.
  - change (prints (bind (ret tt) ?f) m ?d ?a) with (prints (f tt) m d a). destruct (Z.eqb_spec (i64 v) 0).
    + rewrite <- (app_nil_r [48]). eapply prints_bind; [apply prints_put; lia|apply prints_ret].
    + apply prints_number; lia.
Qed.
(** The least [long] is printed as a sign without digits. *)
Lemma prints_int_min vp v : nth_arg vp v → i64 v = - 2 ^ 63 → prints (printint 10 vp) m [45] (vp_next vp).
Proof.
  intros Hv Hmin. eapply prints_fetch; [done|]. cbn beta iota zeta. rewrite Hmin.
  change (prints (bind (uart_put_syn 45) (λ _, bind (deref (λ _, Some (0%nat, replicate NBUF 0))) (λ '(i, buf), put_loop i buf ;; ret (vp_next vp)))) m [45] (vp_next vp)).
  rewrite <- (app_nil_r [45]). eapply prints_bind; [apply prints_put; lia|]. eapply prints_deref; [done|].
  rewrite <- (app_nil_r []). eapply prints_bind; [|apply prints_ret]. apply prints_ret.
Qed.
End output.

(** ** The format loop *)
Section format.
Context (mem : list Z) (Hmem : bytes_ok mem) (strs : Z → option (list Z)).
Hypothesis strs_ok : ∀ a w, strs a = Some w → 0 ≤ a ∧ cstr_at (Z.to_nat a) w mem.
Context (m : mach) (Hm : tx_ok m).

Lemma cstr_byte p c w : cstr_at p (c :: w) mem → 0 ≤ c < 256.
Proof. intros (E & _)%cstr_at_cons. by apply (proj1 (Forall_lookup _ _) Hmem p). Qed.
Lemma cstr_length p w : cstr_at p w mem → (p + length w < length mem)%nat.
Proof.
  intros H. eapply lookup_lt_Some, (cstr_at_lookup _ _ _ _ 0 H). by rewrite lookup_app_r, Nat.sub_diag by lia.
Qed.
Lemma prints_str_loop fuel p w : cstr_at p w mem → (length w < fuel)%nat →
  prints (printstr_loop mem fuel p) m w tt.
Proof.
  revert p w. induction fuel as [|fuel IH]; intros p w Hw Hf; [lia|]. cbn [printstr_loop]. destruct w as [|c w].
  - eapply prints_deref; [by apply cstr_at_nil|]. apply prints_ret.
  - pose proof (cstr_byte _ _ _ Hw). apply cstr_at_cons in Hw as (E & Hc & Hw).
    eapply prints_deref; [exact E|]. rewrite (proj2 (Z.eqb_neq _ _) Hc).
    change (c :: w) with ([c] ++ w). eapply prints_bind; [by apply prints_put|]. apply IH; [done|cbn in Hf; lia].
Qed.
Lemma prints_str a w : strs a = Some w → prints (printstr mem (Z.to_nat a)) m w tt.
Proof. intros [_ Hw]%strs_ok. apply prints_str_loop; [done|]. apply cstr_length in Hw. lia. Qed.

(** The arguments that are left; there are at most seven, from registers, and the
    least [long] is not among them. *)
Definition args_of (vp : var_para) : list Z := drop (Z.to_nat (vp_i vp)) (vp_a vp).
Definition args_ok (args : list Z) : Prop :=
  (length args ≤ 7)%nat ∧ Forall (λ v, 0 ≤ v < 2 ^ 64 ∧ i64 v ≠ - 2 ^ 63) args.

Lemma args_nth vp a l : 0 ≤ vp_i vp → args_ok (vp_a vp) → args_of vp = a :: l →
  nth_arg vp a ∧ i64 a ≠ - 2 ^ 63 ∧ args_of (vp_next vp) = l ∧ 0 ≤ vp_i (vp_next vp) ∧ vp_a (vp_next vp) = vp_a vp.
Proof.
  intros Hi [Hl Hf] E. unfold args_of in *. assert (Ea : vp_a vp !! Z.to_nat (vp_i vp) = Some a).
  { by rewrite <- (Nat.add_0_r (Z.to_nat (vp_i vp))), <- lookup_drop, E. }
  pose proof (lookup_lt_Some _ _ _ Ea). destruct (proj1 (Forall_lookup _ _) Hf _ _ Ea).
  split_and!; [split_and!; (done || lia)|done| |cbn; lia|done].
  cbn [vp_next vp_i vp_a]. rewrite Z2Nat.inj_add by lia. by rewrite <- drop_drop, E.
Qed.
Lemma render_conv c vp w1 d : 0 ≤ vp_i vp → args_ok (vp_a vp) → ∀ f,
  match args_of vp with [] => None | a :: args => d ← f a; app d <$> render strs w1 args end = Some d →
  (∀ a d1, f a = Some d1 → nth_arg vp a → i64 a ≠ - 2 ^ 63 →
     ∃ r, convert mem c vp = Some r ∧ prints r m d1 (vp_next vp)) →
  ∃ r d1 d2, convert mem c vp = Some r ∧ prints r m d1 (vp_next vp) ∧ d = d1 ++ d2 ∧
    render strs w1 (args_of (vp_next vp)) = Some d2 ∧ 0 ≤ vp_i (vp_next vp) ∧ args_ok (vp_a (vp_next vp)).
Proof.
  intros Hi Ha f E Hf. destruct (args_of vp) as [|a l] eqn:El; [done|].
  destruct (args_nth vp a l Hi Ha El) as (H1 & H2 & H3 & H4 & H5).
  destruct (f a) as [d1|] eqn:Ed; [|done]. cbn in E. destruct (Hf a d1 Ed H1 H2) as (r & Er & Hr).
  destruct (render strs w1 l) as [d2|] eqn:Er2; [|done]. injection E as <-.
  exists r, d1, d2. rewrite H3, H5. done.
Qed.

(** The loop sends what the reference renders. *)
Lemma prints_loop fuel fmt w vp d : cstr_at fmt w mem → (length w < fuel)%nat → 0 ≤ vp_i vp → args_ok (vp_a vp) →
  render strs w (args_of vp) = Some d → prints (print_loop mem fuel fmt vp) m d tt.
Proof.
  revert fmt w vp d. induction fuel as [|fuel IH]; intros fmt w vp d Hw Hf Hi Ha Hr; [lia|]. cbn [print_loop].
  destruct w as [|c w].
  { injection Hr as <-. eapply prints_deref; [by apply cstr_at_nil|]. apply prints_ret. }
  cbn [render] in Hr. pose proof (cstr_byte _ _ _ Hw). apply cstr_at_cons in Hw as (E & Hc & Hw). cbn [length] in Hf.
  eapply prints_deref; [exact E|]. rewrite (proj2 (Z.eqb_neq _ _) Hc).
  assert (Hplain : (c ::.) <$> render strs w (args_of vp) = Some d →
    prints (uart_put_syn c ;; print_loop mem fuel (S fmt) vp) m d tt).
  { destruct (render strs w (args_of vp)) as [d'|] eqn:Er; [|done]. intros [= <-].
    change (c :: d') with ([c] ++ d'). eapply prints_bind; [by apply prints_put|]. eapply IH; [done|lia|done|done|done]. }
  destruct (Z.eqb_spec c 37) as [->|Hc37]; [|by apply Hplain]. destruct w as [|c' w].
  { eapply prints_deref; [by apply cstr_at_nil|]. by apply Hplain. }
  pose proof Hw as (E' & _ & Hw')%cstr_at_cons. eapply prints_deref; [exact E'|].
  assert (Hconv : (∃ r d1 d2, convert mem c' vp = Some r ∧ prints r m d1 (vp_next vp) ∧ d = d1 ++ d2 ∧
      render strs w (args_of (vp_next vp)) = Some d2 ∧ 0 ≤ vp_i (vp_next vp) ∧ args_ok (vp_a (vp_next vp))) →
    prints match convert mem c' vp with
           | Some r => let! vp := r in print_loop mem fuel (S (S fmt)) vp
           | None => uart_put_syn 37 ;; print_loop mem fuel (S fmt) vp end m d tt).
  { intros (r & d1 & d2 & -> & H1 & -> & H2 & H3 & H4). eapply prints_bind; [exact H1|].
    eapply IH; [done|cbn in Hf; lia|done|done|done]. }
  destruct (Z.eqb_spec c' 100) as [->|]; [apply Hconv; eapply render_conv; [done|done|exact Hr|]|].
  { intros a d1 [= <-] Hn Hmin. eexists. split; [done|]. by apply prints_int. }
  destruct (Z.eqb_spec c' 117) as [->|]; [apply Hconv; eapply render_conv; [done|done|exact Hr|]|].
  { intros a d1 [= <-] Hn Hmin. eexists. split; [done|]. by apply prints_uint; [|lia|]. }
  destruct (Z.eqb_spec c' 120) as [->|]; [apply Hconv; eapply render_conv; [done|done|exact Hr|]|].
  { intros a d1 [= <-] Hn Hmin. eexists. split; [done|]. change (48 :: 120 :: ?l) with (([48] ++ [120]) ++ l).
    eapply prints_bind; [|by apply prints_uint; [|lia|]]. eapply prints_bind; apply prints_put; (done || lia). }
  destruct (Z.eqb_spec c' 115) as [->|]; [apply Hconv; eapply render_conv; [done|done|exact Hr|]|].
  { intros a d1 Hs Hn Hmin. eexists. split; [done|]. eapply prints_fetch; [exact Hn|]. cbn beta iota.
    rewrite <- (app_nil_r d1). eapply prints_bind; [by apply prints_str|apply prints_ret]. }
  unfold convert. rewrite !(proj2 (Z.eqb_neq _ _)) by done. by apply Hplain.
Qed.
End format.

(** A context in which [print] can run: the locks it takes are free. *)
Definition can_print (m : mach) : Prop :=
  m_wf m ∧ spinlevel (m_cpu m) < 240 ∧ lock_free m L_pr ∧ lock_free m L_tx.
Lemma quiet_can_print m : quiet m → can_print m.
Proof. intros Hq. split_and!; [auto with mach|destruct Hq; lia|auto with mach..]. Qed.
(** [print] sends what its loop sends inside the critical section. *)
Lemma print_within mem fmt args m o d : can_print m →
  (∀ mm, tx_ok mm → prints (print_loop mem (S (length mem)) fmt (MkVp args 0)) mm d tt) →
  print mem fmt args (m, o) = Ok tt (touch m, o ++ d).
Proof.
  intros (Hw & Hl & Hpr & Htx) H. unfold print. unfold bind at 1, onm, zoom. cbn [fst snd].
  rewrite spin_get_free by done.
  assert (Hm : tx_ok (acq L_pr m)).
  { split_and!; [by apply acq_wf| |].
    - unfold lock_free. cbn. by rewrite lookup_insert_ne.
    - apply touch_inside. cbn. destruct Hw as [Hlv _]. rewrite u8_small by lia. lia. }
  run (H _ Hm o). cbn [fst snd]. rewrite spin_put_held by apply acq_held. by rewrite rel_acq.
Qed.
Lemma print_with mem fmt args m o d : quiet m →
  (∀ mm, tx_ok mm → prints (print_loop mem (S (length mem)) fmt (MkVp args 0)) mm d tt) →
  print mem fmt args (m, o) = Ok tt (touch m, o ++ d).
Proof. intros Hq. apply print_within. by apply quiet_can_print. Qed.
(** [print] sends what the reference renders, and gives the lock back. *)
Lemma print_run mem strs fmt w args m o d : bytes_ok mem →
  (∀ a w, strs a = Some w → 0 ≤ a ∧ cstr_at (Z.to_nat a) w mem) → quiet m → cstr_at fmt w mem → args_ok args →
  render strs w args = Some d → print mem fmt args (m, o) = Ok tt (touch m, o ++ d).
Proof.
  intros Hmem Hs Hq Hw Ha Hr. apply print_with; [done|]. intros mm Hm. pose proof (cstr_length mem fmt w Hw).
  apply (prints_loop mem Hmem strs Hs mm Hm (S (length mem)) fmt w (MkVp args 0) d Hw); [lia|cbn; lia|done|done].
Qed.
