(* ===== verification/Uart.v ===== *)
(** Buffered output to the UART: [uart_write] of kernel/dev/uart.c and [console_write] of
    kernel/dev/console.c.

    The state is the machine, the static buffer of [uart_write], the bytes sent, the
    next values of the line status bit and the memory of the running task.  A call that
    sleeps returns where it was ([Some]); the buffer stays as the next caller leaves it. *)
From S2P Require Import Prelude Bytes CString Machine Pipe.

Definition UBUF : nat := 32.
#[global] Arguments UBUF : simpl never.
(** [u_lsr] holds the readings of [LSR_W] to come; the line is ready behind them. *)
Record ust := MkUst { u_buf : list Z; u_out : list Z; u_lsr : list bool }.
(** The locals of a call that sleeps: [ustr], [len], [size] and [i]. *)
Record uwait := MkUwait { uw_str : Z; uw_len : Z; uw_size : nat; uw_i : nat }.

Section uart.
Context {U : Type} {UM : UserMem U}.

Definition ustate : Type := mach * (ust * U).
Definition UR : Type → Type := M ustate.
Definition onu {A} (m : M mach A) : UR A := onm m.
Definition mod_u (f : ust → ust) : UR unit := modify (λ s : ustate, (s.1, (f s.2.1, s.2.2))).
(** [r_reg(LSR) & LSR_W] *)
Definition line_ready : UR bool := λ s,
  match u_lsr s.2.1 with
  | [] => Ok true s
  | b :: l => Ok b (s.1, (MkUst (u_buf s.2.1) (u_out s.2.1) l, s.2.2))
  end.
(** [w_reg(THR, c)] *)
Definition emit (c : Z) : UR unit := mod_u (λ u, MkUst (u_buf u) (u_out u ++ [c]) (u_lsr u)).
(** [copy_from_user(buf, ustr, size)] *)
Definition fill (ustr : Z) (size : nat) : UR unit := λ s,
  match copy_in ustr size s.2.2 with
  | Some d => mod_u (λ u, MkUst (blit 0 d (u_buf u)) (u_out u) (u_lsr u)) s
  | None => Switch s
  end.

(** [for (int i = i; i < i + n; ++i)]: [Some i] when it sleeps at byte [i]. *)
Fixpoint send (n i : nat) : UR (option nat) :=
  match n with
  | O => ret None
  | S n' =>
    let! w := line_ready in
    if (w : bool) then
      let! c := deref (λ s : ustate, u_buf s.2.1 !! i) in
      emit c ;; send n' (S i)
    else onu (sleep_enter ChUart (Some L_tx)) ;; ret (Some i)
  end.
(** [while (len)]; a round sends at least one byte. *)
Fixpoint uart_chunks (fuel : nat) (ustr len : Z) : UR (option uwait) :=
  if len =? 0 then onu (spin_put L_tx) ;; ret None else
  match fuel with
  | O => fault
  | S fuel =>
    let size := cmin len (Z.of_nat UBUF) in
    fill ustr (Z.to_nat size) ;;
    let! r := send (Z.to_nat size) 0 in
    match r with
    | Some i => ret (Some (MkUwait ustr len (Z.to_nat size) i))
    | None => uart_chunks fuel (ustr + size) (u32 (len - size))
    end
  end.
Definition chunk_fuel (len : Z) : nat := S (Z.to_nat (len / Z.of_nat UBUF)).
Definition uart_write (ustr len : Z) : UR (option uwait) :=
  onu (spin_get L_tx) ;; uart_chunks (chunk_fuel len) ustr len.
(** [uart_write] behind a [sleep]. *)
Definition uart_continue (w : uwait) : UR (option uwait) :=
  let! r := send (uw_size w - uw_i w) (uw_i w) in
  match r with
  | Some i => ret (Some (MkUwait (uw_str w) (uw_len w) (uw_size w) i))
  | None =>
    let len := u32 (uw_len w - Z.of_nat (uw_size w)) in
    uart_chunks (chunk_fuel len) (uw_str w + Z.of_nat (uw_size w)) len
  end.
Definition uart_write_resume (w : uwait) : UR (option uwait) :=
  onu (sleep_resume (Some L_tx)) ;; uart_continue w.
(** [console_write]: the result when [uart_write] returned. *)
Definition console_write (usrc len : Z) : UR (option Z) :=
  let! r := uart_write usrc len in
  match r with None => ret (Some len) | Some _ => ret None end.
End uart.

(** ** What is sent *)

Section sent.
Context {U : Type} {UM : UserMem U}.
Implicit Types (u : U) (m : mach).

Lemma fill_ok u va d m us : holds u va d → (length d ≤ length (u_buf us))%nat →
  fill va (length d) (m, (us, u)) = Ok tt (m, (MkUst (d ++ drop (length d) (u_buf us)) (u_out us) (u_lsr us), u)).
Proof.
  intros H Hl. destruct (copy_in_ok u va (length d)) as (d' & E & Hd & Hk).
  { intros k Hk. replace k with (Z.of_nat (Z.to_nat k)) by lia. rewrite H by lia. apply lookup_lt_is_Some_2. lia. }
  assert (d' = d) as ->.
  { apply list_eq. intros k. destruct (decide (k < length d)%nat) as [Hlt|]; [by rewrite <- Hk, H|]. by rewrite !lookup_ge_None_2 by lia. }
  unfold fill. cbn [snd]. rewrite E. done.
Qed.
Lemma send_spec n i t m us u : can_sleep m → mytask m = Some t → (t < NPROC)%nat → (i + n ≤ length (u_buf us))%nat →
  ∃ k lsr, let us' := MkUst (u_buf us) (u_out us ++ take k (drop i (u_buf us))) lsr in
    (k = n ∧ send n i (acq L_tx m, (us, u)) = Ok None (acq L_tx m, (us', u)) ∧ (u_lsr us = [] → lsr = [])) ∨
    ((k < n)%nat ∧ u_lsr us ≠ [] ∧ ∃ m', send n i (acq L_tx m, (us, u)) = Ok (Some (i + k)%nat) (m', (us', u))).
Proof.
  intros Hm Ht Htn. revert i us. induction n as [|n IH]; intros i us Hi.
  { exists 0%nat, (u_lsr us). left. rewrite take_0, app_nil_r. by destruct us. }
  destruct (lookup_lt_is_Some_2 (u_buf us) i) as [c Ec]; [lia|].
  assert (Hgo : ∀ l, (u_lsr us = [] → l = []) → ∃ k lsr, let us' := MkUst (u_buf us) (u_out us ++ take k (drop i (u_buf us))) lsr in
    (k = S n ∧ (emit c ;; send n (S i)) (acq L_tx m, (MkUst (u_buf us) (u_out us) l, u)) = Ok None (acq L_tx m, (us', u)) ∧ (u_lsr us = [] → lsr = [])) ∨
    ((k < S n)%nat ∧ l ≠ [] ∧ ∃ m', (emit c ;; send n (S i)) (acq L_tx m, (MkUst (u_buf us) (u_out us) l, u)) = Ok (Some (i + k)%nat) (m', (us', u)))).
  { intros l Hl. destruct (IH (S i) (MkUst (u_buf us) (u_out us ++ [c]) l)) as (k & lsr & H); [cbn; lia|]. cbn in H. exists (S k), lsr. cbn zeta.
    assert (E : (u_out us ++ [c]) ++ take k (drop (S i) (u_buf us)) = u_out us ++ take (S k) (drop i (u_buf us))).
    { rewrite (drop_S _ _ _ Ec). cbn. by rewrite <- app_assoc. }
    rewrite E in H. destruct H as [(-> & H & Hn)|(Hk & Hn & m' & H)]; [left|right].
    - split; [done|]. split; [exact H|]. intros He. by apply Hn, Hl.
    - split; [lia|]. split; [done|]. exists m'. replace (i + S k)%nat with (S i + k)%nat by lia. exact H. }
  destruct (u_lsr us) as [|[] l] eqn:El.
  - destruct (Hgo [] (λ _, eq_refl)) as (k & lsr & H). exists k, lsr.
    assert (E : send (S n) i (acq L_tx m, (us, u)) = (emit c ;; send n (S i)) (acq L_tx m, (MkUst (u_buf us) (u_out us) [], u))).
    { cbn [send]. unfold line_ready, bind at 1. cbn [fst snd]. rewrite El. rewrite (bind_deref _ _ _ c) by done. rewrite <- El. by destruct us. }
    rewrite E. destruct H as [H|(_ & ? & _)]; [by left|done].
  - destruct (Hgo l) as (k & lsr & H); [done|]. exists k, lsr. cbn zeta in *.
    assert (E : send (S n) i (acq L_tx m, (us, u)) = (emit c ;; send n (S i)) (acq L_tx m, (MkUst (u_buf us) (u_out us) l, u))).
    { cbn [send]. unfold line_ready, bind at 1. cbn [fst snd]. rewrite El. by rewrite (bind_deref _ _ _ c) by done. }
    rewrite E. destruct H as [(H1 & H2 & _)|(H1 & _ & H3)]; [left|right]; done.
  - destruct (sleep_enter_spec ChUart L_tx m t Hm Ht Htn) as (m' & E & _); [done|].
    exists 0%nat, l. right. split; [lia|]. split; [done|]. exists m'. cbn [send]. unfold line_ready, bind at 1. cbn [fst snd]. rewrite El.
    unfold onu, onm, zoom, bind. cbn [fst snd]. rewrite E. cbn.
    rewrite take_0, app_nil_r, Nat.add_0_r. done.
Qed.

(** A call that writes [D] sleeps in the piece behind the first [q] bytes: the static
    buffer holds that piece, and what was sent is behind [o]. *)
Definition uart_at (o D : list Z) (usrc : Z) (us : ust) (w : uwait) : Prop :=
  ∃ q, let n := Nat.min UBUF (length D - q) in
    (q ≤ length D)%nat ∧ w = MkUwait (usrc + Z.of_nat q) (Z.of_nat (length D - q)) n (uw_i w) ∧ (uw_i w < n)%nat ∧
    take n (u_buf us) = take n (drop q D) ∧ u_out us = o ++ take (q + uw_i w) D.
(** What a run of [uart_write] leaves: it has sent all of [D], or it sleeps. *)
Definition uart_ran (o D : list Z) (usrc : Z) (lsr : list bool) (r : option uwait) (us : ust) : Prop :=
  length (u_buf us) = UBUF ∧
  match r with None => u_out us = o ++ D ∧ (lsr = [] → u_lsr us = []) | Some w => uart_at o D usrc us w ∧ lsr ≠ [] end.

Lemma fuel_enough (D : list Z) q : (q ≤ length D)%nat → (length D - q ≤ UBUF * chunk_fuel (Z.of_nat (length D - q)))%nat.
Proof.
  intros Hq. unfold chunk_fuel, UBUF. pose proof (Z.div_mod (Z.of_nat (length D - q)) 32) as H.
  pose proof (Z.mod_pos_bound (Z.of_nat (length D - q)) 32). change (Z.of_nat 32) with 32. lia.
Qed.

Section writer.
Context (u : U) (usrc : Z) (D o : list Z) (HD : holds u usrc D) (Hlen : Z.of_nat (length D) < 2 ^ 32).
Context (m : mach) (t : nat) (Hm : can_sleep m) (Ht : mytask m = Some t) (Htn : (t < NPROC)%nat).

Lemma holds_piece q n : (q + n ≤ length D)%nat → holds u (usrc + Z.of_nat q) (take n (drop q D)).
Proof.
  intros Hq k Hk. rewrite length_take, length_drop in Hk. rewrite lookup_take_lt, lookup_drop by lia.
  replace (usrc + Z.of_nat q + Z.of_nat k) with (usrc + Z.of_nat (q + k)) by lia. apply HD. lia.
Qed.
Lemma chunks_spec fuel q us : (q ≤ length D)%nat → (length D - q ≤ UBUF * fuel)%nat → length (u_buf us) = UBUF →
  u_out us = o ++ take q D →
  ∃ r m' us', uart_chunks fuel (usrc + Z.of_nat q) (Z.of_nat (length D - q)) (acq L_tx m, (us, u)) = Ok r (m', (us', u)) ∧
    uart_ran o D usrc (u_lsr us) r us'.
Proof.
  revert q us. induction fuel as [|fuel IH]; intros q us Hq Hf Hb Ho; cbn [uart_chunks];
    destruct (Z.eqb_spec (Z.of_nat (length D - q)) 0) as [E0|E0]; try lia.
  1,2: exists None, (touch m), us; split; [|split; [done|split; [by rewrite Ho, take_ge by lia|done]]];
    unfold onu, onm, zoom, bind; cbn [fst snd]; rewrite spin_put_held by apply acq_held; rewrite rel_acq by (auto with mach || apply quiet_wf, Hm || apply quiet_free, Hm); done.
  set (n := Nat.min UBUF (length D - q)).
  assert (En : Z.to_nat (cmin (Z.of_nat (length D - q)) (Z.of_nat UBUF)) = n) by (rewrite cmin_min; unfold n; lia).
  assert (Hd : length (take n (drop q D)) = n) by (rewrite length_take, length_drop; unfold n; lia).
  rewrite En. pose proof (fill_ok u (usrc + Z.of_nat q) (take n (drop q D)) (acq L_tx m) us (holds_piece q n ltac:(unfold n; lia))) as Hfill.
  rewrite Hd in Hfill. run (Hfill ltac:(unfold n; lia)). clear Hfill. set (us1 := MkUst _ _ _).
  assert (Hb1 : length (u_buf us1) = UBUF) by (cbn; rewrite length_app, Hd, length_drop; unfold n; lia).
  assert (Ht1 : ∀ k, (k ≤ n)%nat → take k (drop 0 (u_buf us1)) = take k (drop q D)).
  { intros k Hk. rewrite drop_0. cbn. rewrite take_app_le by lia. rewrite take_take. f_equal. lia. }
  assert (Hout : ∀ k, (k ≤ n)%nat → u_out us1 ++ take k (drop 0 (u_buf us1)) = o ++ take (q + k) D).
  { intros k Hk. rewrite Ht1 by done. cbn. rewrite Ho, <- app_assoc. f_equal. rewrite (take_split q (q + k)) by lia.
    f_equal. f_equal. lia. }
  destruct (send_spec n 0 t m us1 u Hm Ht Htn) as (k & lsr & [(-> & E & Hl)|(Hk & Hl & m' & E)]); [unfold n; lia| |]; run E.
  - destruct (IH (q + n)%nat (MkUst (u_buf us1) (u_out us1 ++ take n (drop 0 (u_buf us1))) lsr)) as (r & m' & us' & E' & Hr1 & Hr2);
      [unfold n; lia|unfold n, UBUF in *; lia|done|by apply Hout|].
    exists r, m', us'. split.
    + rewrite <- E'. f_equal; [lia|]. rewrite cmin_min. rewrite u32_id by lia. lia.
    + split; [done|]. cbn [u_lsr] in Hr2. destruct r; [destruct Hr2 as [? Hne]; split; [done|]; intros He; by apply Hne, Hl|].
      destruct Hr2 as [? He]. split; [done|]. intros He2. by apply He, Hl.
  - exists (Some (MkUwait (usrc + Z.of_nat q) (Z.of_nat (length D - q)) n k)), m', (MkUst (u_buf us1) (u_out us1 ++ take k (drop 0 (u_buf us1))) lsr).
    split; [done|]. split; [done|]. split; [|done]. exists q. cbn zeta. fold n. split_and!; [done|done|done| |apply (Hout k); lia].
    rewrite <- (Ht1 n) by done. by rewrite drop_0.
Qed.
Lemma continue_spec us w : uart_at o D usrc us w → length (u_buf us) = UBUF →
  ∃ r m' us', uart_continue w (acq L_tx m, (us, u)) = Ok r (m', (us', u)) ∧ uart_ran o D usrc (u_lsr us) r us'.
Proof.
  intros (q & Hq & Hw & Hi & Hbuf & Ho) Hb. set (n := Nat.min UBUF (length D - q)) in *. set (i := uw_i w) in *.
  assert (Hout : ∀ k, (i + k ≤ n)%nat → u_out us ++ take k (drop i (u_buf us)) = o ++ take (q + (i + k)) D).
  { intros k Hk. rewrite Ho, <- app_assoc. f_equal. rewrite (take_split (q + i) (q + (i + k))) by lia. f_equal.
    replace (q + (i + k) - (q + i))%nat with k by lia. replace (drop (q + i) D) with (drop i (drop q D)) by (by rewrite drop_drop).
    rewrite (take_drop_commute (u_buf us)), (take_drop_commute (drop q D)). f_equal. apply (f_equal (take (i + k))) in Hbuf. by rewrite !take_take, !Nat.min_l in Hbuf by lia. }
  unfold uart_continue. rewrite Hw. cbn [uw_size uw_i uw_len uw_str].
  destruct (send_spec (n - i) i t m us u Hm Ht Htn) as (k & lsr & [(-> & E & Hl)|(Hk & Hl & m' & E)]); [unfold n; lia| |]; run E.
  - assert (E2 : u32 (Z.of_nat (length D - q) - Z.of_nat n) = Z.of_nat (length D - (q + n))) by (rewrite u32_id; unfold n; lia).
    rewrite E2. replace (usrc + Z.of_nat q + Z.of_nat n) with (usrc + Z.of_nat (q + n)) by lia.
    destruct (chunks_spec (chunk_fuel (Z.of_nat (length D - (q + n)))) (q + n) (MkUst (u_buf us) (u_out us ++ take (n - i) (drop i (u_buf us))) lsr))
      as (r & m' & us' & E' & Hr1 & Hr2); [unfold n; lia|apply fuel_enough; unfold n; lia|done| |].
    { cbn. rewrite Hout by lia. do 2 f_equal. lia. }
    exists r, m', us'. split; [done|]. split; [done|]. cbn [u_lsr] in Hr2. destruct r; [destruct Hr2 as [? Hne]; split; [done|]; intros He; by apply Hne, Hl|].
    destruct Hr2 as [? He]. split; [done|]. intros He2. by apply He, Hl.
  - eexists _, m', _. split; [done|]. split; [done|]. split; [|done]. exists q. cbn zeta. fold n.
    split_and!; [done|done|cbn; lia|done|cbn; apply Hout; lia].
Qed.
End writer.

(** The runs of one call while no other task writes: [m] is the machine each time it gets
    the lock, [lsr] the line status it finds. *)
Inductive alone (u : U) (usrc : Z) (D o : list Z) : option uwait → ust → Prop :=
| al_start m t us r m' us' : can_sleep m → mytask m = Some t → (t < NPROC)%nat → length (u_buf us) = UBUF → u_out us = o →
    uart_chunks (chunk_fuel (Z.of_nat (length D))) usrc (Z.of_nat (length D)) (acq L_tx m, (us, u)) = Ok r (m', (us', u)) →
    alone u usrc D o r us'
| al_cont w us m t lsr r m' us' : alone u usrc D o (Some w) us → can_sleep m → mytask m = Some t → (t < NPROC)%nat →
    uart_continue w (acq L_tx m, (MkUst (u_buf us) (u_out us) lsr, u)) = Ok r (m', (us', u)) → alone u usrc D o r us'.
Lemma alone_ran u usrc D o r us : holds u usrc D → Z.of_nat (length D) < 2 ^ 32 → alone u usrc D o r us → ∃ lsr, uart_ran o D usrc lsr r us.
Proof.
  intros HD Hl H. induction H as [m t us r m' us' Hm Ht Htn Hb Ho E|w us m t lsr r m' us' _ (lsr0 & Hb & Ha & _) Hm Ht Htn E].
  - destruct (chunks_spec u usrc D o HD Hl m t Hm Ht Htn (chunk_fuel (Z.of_nat (length D))) 0 us) as (r1 & m1 & us1 & E1 & Hr); [lia| |done| |].
    + pose proof (fuel_enough D 0 ltac:(lia)) as H. rewrite Nat.sub_0_r in H. by rewrite Nat.sub_0_r.
    + by rewrite take_0, app_nil_r.
    + rewrite Z.add_0_r, Nat.sub_0_r, E in E1. injection E1 as -> -> ->. by exists (u_lsr us).
  - destruct (continue_spec u usrc D o HD Hl m t Hm Ht Htn (MkUst (u_buf us) (u_out us) lsr) w) as (r1 & m1 & us1 & E1 & Hr); [done..|].
    rewrite E in E1. injection E1 as -> -> ->. by exists lsr.
Qed.

(** C36: a call of [uart_write] that no other call overlaps sends the bytes of the user
    in order, however often it sleeps for the line; at any time it has sent a prefix,
    and once the line is ready it sends the rest and returns. *)
Theorem uart_write_sends u usrc D o r us : holds u usrc D → Z.of_nat (length D) < 2 ^ 32 → alone u usrc D o r us →
  match r with
  | None => u_out us = o ++ D
  | Some w => (∃ k, u_out us = o ++ take k D) ∧
      ∀ m t, can_sleep m → mytask m = Some t → (t < NPROC)%nat →
        ∃ m' us', uart_continue w (acq L_tx m, (MkUst (u_buf us) (u_out us) [], u)) = Ok None (m', (us', u)) ∧ u_out us' = o ++ D
  end.
Proof.
  intros HD Hl H. destruct (alone_ran _ _ _ _ _ _ HD Hl H) as (lsr & Hb & Hr). destruct r as [w|]; [|by destruct Hr].
  destruct Hr as [Ha _]. split; [destruct Ha as (q & _ & _ & _ & _ & Ho); by eexists|]. intros m t Hm Ht Htn.
  destruct (continue_spec u usrc D o HD Hl m t Hm Ht Htn (MkUst (u_buf us) (u_out us) []) w) as (r1 & m1 & us1 & E1 & _ & Hr1); [done..|].
  destruct r1; [by destruct Hr1|]. destruct Hr1 as [Ho _]. by exists m1, us1.
Qed.

(** *** Two calls at a time *)

Lemma one_piece u va d m us : holds u va d → (0 < length d ≤ UBUF)%nat → length (u_buf us) = UBUF →
  uart_chunks (chunk_fuel (Z.of_nat (length d))) va (Z.of_nat (length d)) (m, (us, u)) =
    (let! r := send (length d) 0 in
     match r with
     | Some i => ret (Some (MkUwait va (Z.of_nat (length d)) (length d) i))
     | None => uart_chunks (Z.to_nat (Z.of_nat (length d) / Z.of_nat UBUF)) (va + Z.of_nat (length d)) 0
     end) (m, (MkUst (d ++ drop (length d) (u_buf us)) (u_out us) (u_lsr us), u)).
Proof.
  intros Hd Hl Hb. unfold chunk_fuel. cbn [uart_chunks]. rewrite (proj2 (Z.eqb_neq _ _)) by lia.
  rewrite cmin_min, Z.min_l by lia. rewrite Nat2Z.id, Z.sub_diag. run (fill_ok u va d m us Hd ltac:(lia)). done.
Qed.
Lemma no_piece fuel va m us u : quiet m → uart_chunks fuel va 0 (acq L_tx m, (us, u)) = Ok None (touch m, (us, u)).
Proof.
  intros Hq. assert (onu (spin_put L_tx) (acq L_tx m, (us, u)) = Ok tt (touch m, (us, u))) as E.
  { unfold onu, onm, zoom. cbn [fst snd]. rewrite spin_put_held by apply acq_held. by rewrite rel_acq by auto with mach. }
  destruct fuel; cbn [uart_chunks Z.eqb]; by run E.
Qed.

(** The static buffer of [uart_write] is not protected over its [sleep]: when a
    second task writes as many bytes while the first one sleeps for the line before its
    first byte, the bytes of the second are sent twice and those of the first never. *)
Theorem uart_write_race u1 u2 va vb a b m1 t1 m2 t2 m3 t3 us : holds u1 va a → holds u2 vb b → length a = length b →
  (0 < length a ≤ UBUF)%nat → length (u_buf us) = UBUF → u_lsr us = [false] →
  can_sleep m1 → mytask m1 = Some t1 → (t1 < NPROC)%nat → can_sleep m2 → mytask m2 = Some t2 → (t2 < NPROC)%nat →
  can_sleep m3 → mytask m3 = Some t3 → (t3 < NPROC)%nat →
  ∃ w m1' us1 m2' us2 m3' us3,
    uart_chunks (chunk_fuel (Z.of_nat (length a))) va (Z.of_nat (length a)) (acq L_tx m1, (us, u1)) = Ok (Some w) (m1', (us1, u1)) ∧
    uart_chunks (chunk_fuel (Z.of_nat (length b))) vb (Z.of_nat (length b)) (acq L_tx m2, (us1, u2)) = Ok None (m2', (us2, u2)) ∧
    uart_continue w (acq L_tx m3, (us2, u1)) = Ok None (m3', (us3, u1)) ∧ u_out us3 = u_out us ++ b ++ b.
Proof.
  intros Ha Hb Hab Hl Hbuf Hlsr Hm1 Ht1 Htn1 Hm2 Ht2 Htn2 Hm3 Ht3 Htn3.
  assert (Hlen : ∀ d : list Z, length d = length a → length (d ++ drop (length d) (u_buf us)) = UBUF)
    by (intros d Hd; rewrite length_app, length_drop; lia).
  destruct (sleep_enter_spec ChUart L_tx m1 t1 Hm1 Ht1 Htn1) as (m1' & E1 & _); [done|].
  set (us1 := MkUst (a ++ drop (length a) (u_buf us)) (u_out us) []).
  destruct (send_spec (length b) 0 t2 m2 (MkUst (b ++ drop (length b) (u_buf us1)) (u_out us) []) u2 Hm2 Ht2 Htn2)
    as (k & lsr & [(-> & E2 & Hlr)|(_ & ? & _)]); [cbn; rewrite length_app; lia| |done].
  rewrite (Hlr eq_refl) in E2. cbn [u_buf u_out] in E2. rewrite drop_0, take_app_length in E2.
  set (us2 := MkUst (b ++ drop (length b) (u_buf us1)) (u_out us ++ b) []) in E2.
  destruct (send_spec (length a) 0 t3 m3 us2 u1 Hm3 Ht3 Htn3) as (k3 & lsr3 & [(-> & E3 & _)|(_ & ? & _)]);
    [cbn; rewrite length_app; lia| |done].
  set (us3 := MkUst _ _ lsr3) in E3.
  exists (MkUwait va (Z.of_nat (length a)) (length a) 0), m1', us1, (touch m2), us2, (touch m3), us3. split_and!.
  - rewrite one_piece by done. rewrite Hlsr. destruct (length a) as [|n] eqn:En; [lia|]. cbn [send]. unfold line_ready, bind. cbn [fst snd u_lsr].
    unfold onu, onm, zoom. cbn [fst snd]. rewrite E1. done.
  - rewrite one_piece; [|done|lia|by apply Hlen]. run E2. apply no_piece, Hm2.
  - unfold uart_continue. cbn [uw_size uw_i uw_len uw_str]. rewrite Nat.sub_0_r. run E3. rewrite Z.sub_diag. apply no_piece, Hm3.
  - cbn. rewrite drop_0, Hab, take_app_length, <- app_assoc. done.
Qed.
End sent.
