(* ===== verification/Console.v ===== *)
(** The terminal (kernel/dev/console.c, and [uart_get], [do_uart_irq] of
    kernel/dev/uart.c): a ring of 128 bytes that the keyboard interrupt fills and edits
    and [console_read] empties, and a buffer that collects escape sequences.

    The state is the machine, [con], the bytes the UART has sent and the memory of the
    running task.  [mem] holds the format strings; [Strs] gives their addresses. *)
From S2P Require Import Prelude Bytes CString Machine Sched Printf Pipe.

Definition CONSOLE_BUFFER_SIZE : nat := 128.
#[global] Arguments CONSOLE_BUFFER_SIZE : simpl never.
Abbreviation CBS := (Z.of_nat CONSOLE_BUFFER_SIZE).

(** The structure [con]; its lock is [L_console]. *)
Record con := MkCon {
  c_r : Z;
  c_w : Z;
  c_buf : list Z;
  c_tb : list Z;
  c_tflag : bool;
  c_i : Z;
}.
Definition set_cr (v : Z) (c : con) : con := MkCon v (c_w c) (c_buf c) (c_tb c) (c_tflag c) (c_i c).
Definition set_cw (v : Z) (c : con) : con := MkCon (c_r c) v (c_buf c) (c_tb c) (c_tflag c) (c_i c).
Definition set_cbuf (v : list Z) (c : con) : con := MkCon (c_r c) (c_w c) v (c_tb c) (c_tflag c) (c_i c).
Definition set_ctb (v : list Z) (c : con) : con := MkCon (c_r c) (c_w c) (c_buf c) v (c_tflag c) (c_i c).
Definition set_ctflag (v : bool) (c : con) : con := MkCon (c_r c) (c_w c) (c_buf c) (c_tb c) v (c_i c).
Definition set_ci (v : Z) (c : con) : con := MkCon (c_r c) (c_w c) (c_buf c) (c_tb c) (c_tflag c) v.
Definition console_readable_len (c : con) : Z := (c_w c - c_r c + CBS) mod CBS.
Definition console_isfull (c : con) : bool := (c_w c + 1) mod CBS =? c_r c.
Definition console_isempty (c : con) : bool := c_w c =? c_r c.
(** Zero initialised. *)
Definition con0 : con := MkCon 0 0 (replicate CONSOLE_BUFFER_SIZE 0) (replicate 8 0) false 0.

(** An element of a C array; a negative or too large index is an error. *)
Definition zat (l : list Z) (i : Z) : option Z := if i <? 0 then None else l !! Z.to_nat i.
Definition zst (i v : Z) (l : list Z) : option (list Z) := if i <? 0 then None else st (Z.to_nat i) v l.

(** The addresses of the format strings and state names. *)
Record Strs := MkStrs { s_full : nat; s_head : nat; s_row : nat; s_ready : nat; s_run : nat; s_sleep : nat }.
(** What [dump_all_task] prints of a task: [pid], [tid] and [tname]. *)
Record tinfo := MkTinfo { ti_pid : Z; ti_tid : Z; ti_name : Z }.

Section console.
Context {U : Type} {UM : UserMem U} (mem : list Z) (strs : Strs).

Definition cst : Type := mach * (con * (list Z * U)).
Definition CM : Type → Type := M cst.
Definition oncm {A} (m : M mach A) : CM A := onm m.
(** Run an output routine. *)
Definition onpr {A} (m : PR A) : CM A :=
  zoom (λ s : cst, (s.1, s.2.2.1)) (λ p s, (p.1, (s.2.1, (p.2, s.2.2.2)))) m.
Definition mod_con (f : con → con) : CM unit := modify (λ s : cst, (s.1, (f s.2.1, s.2.2))).
Definition upd_con (f : con → option con) : CM unit := update (λ s : cst, (λ c, (s.1, (c, s.2.2))) <$> f s.2.1).
Definition con_out (va : Z) (d : list Z) : CM unit := λ s,
  match copy_out va d s.2.2.2 with Some u => Ok tt (s.1, (s.2.1, (s.2.2.1, u))) | None => Switch s end.

Definition reset_tb (c : con) : con := set_ci 0 (set_ctflag false (set_ctb (replicate 8 0) c)).
Definition clean_console : CM unit :=
  mod_con reset_tb ;;
  mod_con (λ c, set_cbuf (replicate CONSOLE_BUFFER_SIZE 0) (set_cw 0 (set_cr 0 c))) ;;
  onpr (uart_put_syn 27) ;;
  onpr (uart_put_syn 99).
Definition try_transfer : CM unit :=
  let! c := deref (λ s : cst, zat (c_tb s.2.1) (c_i s.2.1 - 1)) in
  if c =? 79 then ret tt
  else if (c =? 126) || (c =? 7) || (c =? 92) then mod_con reset_tb
  else if ((97 <=? c) && (c <=? 122)) || ((65 <=? c) && (c <=? 90)) then mod_con reset_tb
  else ret tt.
(** [con.tb[con.i++] = ch] *)
Definition push_tb (ch : Z) : CM unit :=
  upd_con (λ c, (λ tb, set_ci (u8 (c_i c + 1)) (set_ctb tb c)) <$> zst (c_i c) ch (c_tb c)).
Definition console_putc (ch : Z) : CM unit :=
  oncm (spin_get L_console) ;;
  let! c := gets (λ s : cst, s.2.1) in
  (if negb (c_tflag c) then
     if ch =? 8 then
       let! p := deref (λ _, zat (c_buf c) (c_w c - 1)) in
       when (negb (p =? 10) && negb (c_w c =? c_r c))
         (mod_con (set_cw ((c_w c - 1 + CBS) mod CBS)) ;; onpr (uart_put_syn ch))
     else if ch =? 27 then
       mod_con (set_ctflag true) ;; push_tb 27
     else if negb (console_isfull c) then
       upd_con (λ c, (λ b, set_cbuf b c) <$> zst (c_w c) ch (c_buf c)) ;;
       mod_con (set_cw ((c_w c + 1) mod CBS)) ;;
       onpr (uart_put_syn ch)
     else onpr (print mem (s_full strs) [])
   else push_tb ch ;; try_transfer) ;;
  oncm (spin_put L_console).

Definition dump_one (i : nat) (ti : tinfo) : CM unit :=
  oncm (spin_get (L_task i)) ;;
  let! t := oncm (task_at i) in
  when (bool_decide (tstate t = READY) || bool_decide (tstate t = RUN) || bool_decide (tstate t = SLEEP))
    (onpr (print mem (s_row strs) [ti_pid ti; ti_tid ti;
       Z.of_nat (if bool_decide (tstate t = READY) then s_ready strs
                 else if bool_decide (tstate t = RUN) then s_run strs else s_sleep strs); ti_name ti])) ;;
  oncm (spin_put (L_task i)).
Fixpoint dump_loop (i : nat) (l : list tinfo) : CM unit :=
  match l with [] => ret tt | ti :: l => dump_one i ti ;; dump_loop (S i) l end.
Definition dump_all_task (l : list tinfo) : CM unit :=
  onpr (print mem (s_head strs) []) ;;
  dump_loop 0 l.

Definition do_console_irq (tasks : list tinfo) (ch : Z) : CM unit :=
  if ch =? 27 then console_putc 27
  else if ch =? 127 then console_putc 8 ;; console_putc 32 ;; console_putc 8
  else if (ch =? 13) || (ch =? 10) then console_putc 10 ;; oncm (wakeup ChConsole)
  else if (32 <=? ch) && (ch <=? 126) then console_putc ch
  else if ch =? 14 then clean_console ;; onpr (uart_put_syn 36) ;; onpr (uart_put_syn 62)
  else if ch =? 16 then dump_all_task tasks
  else if ch =? 4 then console_putc 4 ;; oncm (wakeup ChConsole)
  else ret tt.
(** [do_uart_irq]: [writable] is the line status bit, [got] the byte received if there is
    one ([uart_get]; -1 is 255 as a [char]). *)
Definition do_uart_irq (tasks : list tinfo) (writable : bool) (got : option Z) : CM unit :=
  when writable (oncm (wakeup ChUart)) ;;
  let ch := default 255 got in
  when (negb (ch =? 255)) (do_console_irq tasks ch).

(** [len] bytes of [con.buf] from [start] on; the buffer ends at [CONSOLE_BUFFER_SIZE]. *)
Definition buf_bytes (c : con) (start len : Z) : option (list Z) :=
  if start + len <=? CBS then Some (take (Z.to_nat len) (drop (Z.to_nat start) (c_buf c))) else None.
(** [console_read] from the test of its loop on: [inl] when it went to sleep. *)
Definition console_read_body (udst len : Z) : CM (unit + Z) :=
  let! c := gets (λ s : cst, s.2.1) in
  if console_isempty c then
    oncm (sleep_enter ChConsole (Some L_console)) ;; ret (inl tt)
  else
    let len := cmin len (console_readable_len c) in
    (if c_r c <? c_w c then
       let! d := deref (λ _, buf_bytes c (c_r c) len) in
       con_out udst d
     else
       let lslice1 := u32 (CBS - c_r c) in
       let lslice2 := u32 (len - lslice1) in
       let! d1 := deref (λ _, buf_bytes c (c_r c) lslice1) in
       con_out udst d1 ;;
       let! d2 := deref (λ _, buf_bytes c 0 lslice2) in
       con_out (udst + lslice1) d2) ;;
    mod_con (set_cr (u32 (c_r c + len) mod CBS)) ;;
    oncm (spin_put L_console) ;;
    ret (inr len).
Definition console_read (udst len : Z) : CM (unit + Z) :=
  oncm (spin_get L_console) ;; console_read_body udst len.
Definition console_read_resume (udst len : Z) : CM (unit + Z) :=
  oncm (sleep_resume (Some L_console)) ;; console_read_body udst len.
End console.

(** ** The ring as the text typed and not read yet *)

Record con_wf (c : con) : Prop := {
  cw_r : 0 ≤ c_r c < CBS;
  cw_w : 0 ≤ c_w c < CBS;
  cw_buf : length (c_buf c) = CONSOLE_BUFFER_SIZE;
}.
Definition qlen (c : con) : nat := Z.to_nat (console_readable_len c).
Definition cidx (c : con) (k : nat) : nat := Z.to_nat ((c_r c + Z.of_nat k) mod CBS).
Definition pending (c : con) : list Z := (λ k, c_buf c !!! cidx c k) <$> seq 0 (qlen c).

Lemma CBS_128 : CBS = 128.
Proof. done. Qed.
Lemma pending_len c : length (pending c) = qlen c.
Proof. unfold pending. by rewrite length_fmap, length_seq. Qed.
Lemma pending_at c k : (k < qlen c)%nat → pending c !! k = Some (c_buf c !!! cidx c k).
Proof. intros Hk. unfold pending. rewrite list_lookup_fmap, lookup_seq_lt by done. done. Qed.
(** The length, by cases. *)
Lemma readable_cases c : con_wf c → console_readable_len c = if decide (c_r c ≤ c_w c) then c_w c - c_r c else c_w c - c_r c + 128.
Proof.
  intros [Hr Hw _]. rewrite CBS_128 in *. unfold console_readable_len. rewrite CBS_128. case_decide.
  - rewrite <- (Z.mod_add _ (-1)) by lia. rewrite Z.mod_small; lia.
  - apply Z.mod_small. lia.
Qed.
Lemma qlen_lt c : con_wf c → (qlen c < CONSOLE_BUFFER_SIZE)%nat.
Proof. intros W. unfold qlen. rewrite (readable_cases c W). destruct W. rewrite CBS_128 in *. unfold CONSOLE_BUFFER_SIZE. case_decide; lia. Qed.
Lemma cidx_lt c k : (cidx c k < CONSOLE_BUFFER_SIZE)%nat.
Proof. unfold cidx. pose proof (Z.mod_pos_bound (c_r c + Z.of_nat k) CBS). rewrite CBS_128 in *. unfold CONSOLE_BUFFER_SIZE. lia. Qed.
Lemma cidx_end c : con_wf c → cidx c (qlen c) = Z.to_nat (c_w c).
Proof.
  intros W. unfold cidx, qlen. rewrite (readable_cases c W). destruct W as [Hr Hw _]. rewrite CBS_128 in *. f_equal. case_decide.
  - rewrite Z2Nat.id, Z.mod_small; lia.
  - rewrite Z2Nat.id by lia. rewrite <- (Z.mod_add _ (-1)) by lia. rewrite Z.mod_small; lia.
Qed.
Lemma cidx_inj c j k : (j < k)%nat → (k < j + CONSOLE_BUFFER_SIZE)%nat → cidx c j ≠ cidx c k.
Proof.
  intros Hjk Hlt E. unfold cidx in E. rewrite CBS_128 in E. apply (f_equal Z.of_nat) in E.
  rewrite !Z2Nat.id in E by (apply Z.mod_pos_bound; lia). unfold CONSOLE_BUFFER_SIZE in Hlt.
  pose proof (Z.div_mod (c_r c + Z.of_nat j) 128). pose proof (Z.div_mod (c_r c + Z.of_nat k) 128). lia.
Qed.
Lemma full_len c : con_wf c → console_isfull c = true ↔ qlen c = 127%nat.
Proof.
  intros W. unfold console_isfull, qlen. rewrite (readable_cases c W). destruct W as [Hr Hw _]. rewrite CBS_128 in *.
  rewrite Z.eqb_eq. destruct (decide (c_w c = 127)) as [->|].
  - change ((127 + 1) mod 128) with 0. case_decide; lia.
  - rewrite Z.mod_small by lia. case_decide; lia.
Qed.
Lemma empty_len c : con_wf c → console_isempty c = true ↔ qlen c = 0%nat.
Proof.
  intros W. unfold console_isempty, qlen. rewrite (readable_cases c W). destruct W as [Hr Hw _]. rewrite CBS_128 in *.
  rewrite Z.eqb_eq. case_decide; lia.
Qed.

(** The ring with one more byte. *)
Definition typed (ch : Z) (c : con) : con :=
  set_cw ((c_w c + 1) mod CBS) (set_cbuf (<[Z.to_nat (c_w c) := ch]> (c_buf c)) c).
Lemma typed_wf ch c : con_wf c → con_wf (typed ch c).
Proof. intros [Hr Hw Hb]. split; cbn; [done|apply Z.mod_pos_bound; rewrite CBS_128; lia|by rewrite length_insert]. Qed.
Lemma typed_len ch c : con_wf c → (qlen c < 127)%nat → qlen (typed ch c) = S (qlen c).
Proof.
  intros W. pose proof (typed_wf ch c W) as W'. unfold qlen. rewrite (readable_cases c W), (readable_cases _ W'). cbn.
  destruct W as [Hr Hw _]. rewrite CBS_128 in *. destruct (decide (c_w c = 127)) as [->|].
  - change ((127 + 1) mod 128) with 0. repeat case_decide; lia.
  - rewrite Z.mod_small by lia. repeat case_decide; lia.
Qed.
Lemma typed_pending ch c : con_wf c → (qlen c < 127)%nat → pending (typed ch c) = pending c ++ [ch].
Proof.
  intros W Hq. unfold pending at 1. rewrite (typed_len ch c W Hq), seq_S, fmap_app. cbn [fmap list_fmap].
  change (cidx (typed ch c)) with (cidx c). cbn [c_buf typed set_cw set_cbuf]. f_equal.
  - apply list_fmap_ext. intros i k Hk. apply lookup_seq in Hk as [-> Hk]. cbn. rewrite <- (cidx_end c W).
    rewrite list_lookup_total_insert_ne; [done|]. intros E. symmetry in E. revert E. apply cidx_inj; [done|]. unfold CONSOLE_BUFFER_SIZE. lia.
  - f_equal. cbn. rewrite (cidx_end c W). apply list_lookup_total_insert_eq. rewrite (cw_buf c W). destruct W as [_ Hw _]. lia.
Qed.
(** The ring without its last byte. *)
Definition erased (c : con) : con := set_cw ((c_w c - 1 + CBS) mod CBS) c.
Lemma erased_wf c : con_wf c → con_wf (erased c).
Proof. intros [Hr Hw Hb]. split; cbn; [done|apply Z.mod_pos_bound; rewrite CBS_128; lia|done]. Qed.
Lemma erased_len c : con_wf c → qlen c ≠ 0%nat → qlen c = S (qlen (erased c)).
Proof.
  intros W. pose proof (erased_wf c W) as W'. unfold qlen. rewrite (readable_cases c W), (readable_cases _ W'). cbn.
  destruct W as [Hr Hw _]. rewrite CBS_128 in *. destruct (decide (c_w c = 0)) as [->|].
  - change ((0 - 1 + 128) mod 128) with 127. repeat case_decide; lia.
  - replace ((c_w c - 1 + 128) mod 128) with (c_w c - 1); [repeat case_decide; lia|].
    rewrite <- (Z.mod_add _ (-1)) by lia. rewrite Z.mod_small; lia.
Qed.
Lemma erased_pending c : con_wf c → qlen c ≠ 0%nat → pending c = pending (erased c) ++ [c_buf c !!! cidx c (qlen (erased c))].
Proof. intros W Hq. unfold pending at 1. rewrite (erased_len c W Hq), seq_S, fmap_app. done. Qed.
(** [con.buf[con.w - 1]] is the last byte. *)
Lemma last_byte c : con_wf c → qlen c ≠ 0%nat → 1 ≤ c_w c → cidx c (qlen (erased c)) = Z.to_nat (c_w c - 1).
Proof.
  intros W Hq H1. pose proof (cidx_end _ (erased_wf c W)) as E. change (cidx (erased c)) with (cidx c) in E. rewrite E.
  cbn. destruct W as [Hr Hw _]. rewrite CBS_128 in *. f_equal. rewrite <- (Z.mod_add _ (-1)) by lia. rewrite Z.mod_small; lia.
Qed.

(** ** Key presses *)

(** The specification: a line editor on the text typed and not read yet. *)
Definition add (x : Z) (q : list Z) : list Z := if (length q <? 127)%nat then q ++ [x] else q.
Definition erase (q : list Z) : list Z :=
  match last q with Some x => if x =? 10 then q else take (length q - 1) q | None => q end.
Definition edit (ch : Z) (q : list Z) : list Z :=
  if ch =? 127 then erase q
  else if (ch =? 13) || (ch =? 10) then add 10 q
  else if (32 <=? ch) && (ch <=? 126) then add ch q
  else if ch =? 14 then []
  else if ch =? 4 then add 4 q
  else q.
(** The line editor with escape sequences: the number of bytes collected of one (0: none
    has begun) and the text.  A key in a sequence is swallowed; the erase key is three
    bytes. *)
Definition ends_escape (ch : Z) : bool :=
  negb (ch =? 79) && ((ch =? 126) || (ch =? 7) || (ch =? 92) || ((97 <=? ch) && (ch <=? 122)) || ((65 <=? ch) && (ch <=? 90))).
Definition press (ch : Z) (s : Z * list Z) : Z * list Z :=
  let '(e, q) := s in
  if e =? 0 then if ch =? 27 then (1, q) else (0, edit ch q)
  else if ch =? 14 then (0, [])
  else if ch =? 127 then (e + 3, q)
  else if (ch =? 13) || (ch =? 10) || (ch =? 4) || (ch =? 27) then (e + 1, q)
  else if (32 <=? ch) && (ch <=? 126) then (if ends_escape ch then 0 else e + 1, q)
  else (e, q).
Lemma erase_snoc q x : erase (q ++ [x]) = if x =? 10 then q ++ [x] else q.
Proof.
  unfold erase. rewrite last_snoc, length_app. cbn [length]. rewrite Nat.add_sub, take_app_length. done.
Qed.
(** The key erases with the sequence backspace, space, backspace. *)
Lemma erase_key q : (length q ≤ 127)%nat → erase (add 32 (erase q)) = erase q.
Proof.
  intros Hl. unfold add. destruct (Nat.ltb_spec (length (erase q)) 127) as [H|H]; [by rewrite erase_snoc|].
  destruct q as [|x q] using rev_ind; [done|]. clear IHq. rewrite erase_snoc in *. destruct (Z.eqb_spec x 10) as [->|]; [by rewrite erase_snoc|].
  rewrite length_app in Hl. cbn in Hl. lia.
Qed.

Definition rub (c : con) : con :=
  if decide (qlen c = 0%nat) then c else if c_buf c !!! Z.to_nat (c_w c - 1) =? 10 then c else erased c.
Lemma rub_wf c : con_wf c → con_wf (rub c).
Proof. intros W. unfold rub. case_decide; [done|]. destruct (_ =? 10); [done|]. by apply erased_wf. Qed.
Lemma rub_pending c : con_wf c → 1 ≤ c_w c → pending (rub c) = erase (pending c).
Proof.
  intros W H1. unfold rub. case_decide as Hq.
  - assert (pending c = []) as -> by (apply length_zero_iff_nil; by rewrite pending_len). done.
  - rewrite (erased_pending c W Hq), erase_snoc, (last_byte c W Hq H1). destruct (_ =? 10); [|done].
    by rewrite (erased_pending c W Hq), (last_byte c W Hq H1).
Qed.

(** The state of the terminal when it has collected [e] bytes of an escape sequence. *)
Record con_ok (e : Z) (c : con) : Prop := {
  ck_wf : con_wf c;
  ck_tb : length (c_tb c) = 8%nat;
  ck_i : c_i c = e;
  ck_flag : c_tflag c = negb (e =? 0);
  ck_e : 0 ≤ e ≤ 8;
}.
Lemma con_ok_wf e c c' : con_ok e c → con_wf c' → c_tb c' = c_tb c → c_i c' = c_i c → c_tflag c' = c_tflag c → con_ok e c'.
Proof. intros [K1 K2 K3 K4 K5] W E1 E2 E3. split; [done|by rewrite E1|by rewrite E2|by rewrite E3|done]. Qed.
Lemma rub_ok e c : con_ok e c → con_ok e (rub c).
Proof.
  intros K. apply (con_ok_wf e c); [done|by apply rub_wf, K|..]; unfold rub; case_decide; [done| |done| |done|]; by destruct (_ =? 10).
Qed.

Section keys.
Context {U : Type} {UM : UserMem U} (mem : list Z) (strs : Strs) (full_msg : list Z).
(** The message for a full buffer is a string of the memory without conversions. *)
Context (Hmem : bytes_ok mem) (Hfull : cstr_at (s_full strs) full_msg mem) (Hren : render (λ _, None) full_msg [] = Some full_msg).
Implicit Types (m : mach) (c : con) (o : list Z) (u : U).

Lemma con_inside m : quiet m → can_print (acq L_console m) ∧ touch (acq L_console m) = acq L_console m.
Proof.
  intros Hq. split; [|apply touch_inside; rewrite acq_level by done; lia].
  split_and!; [apply acq_wf; [auto with mach|destruct Hq; lia]|rewrite acq_level by done; lia|..];
    unfold lock_free; cbn; destruct Hq as [_ ->]; by rewrite insert_empty, lookup_singleton_ne.
Qed.
Lemma put_inside m c o u ch : quiet m → 0 ≤ ch < 256 →
  onpr (uart_put_syn ch) (acq L_console m, (c, (o, u))) = Ok tt (acq L_console m, (c, (o ++ [ch], u))).
Proof.
  intros Hq Hc. destruct (con_inside m Hq) as [(Hw & _ & _ & Htx) Ht].
  pose proof (prints_put (acq L_console m) ltac:(by split_and!) ch Hc o) as E. unfold onpr, zoom. cbn [fst snd]. by rewrite E.
Qed.
Lemma get_console {A} m (x : con * (list Z * U)) (k : unit → CM A) : quiet m →
  bind (oncm (spin_get L_console)) k (m, x) = k tt (acq L_console m, x).
Proof. intros Hq. unfold bind, oncm, onm, zoom. cbn [fst]. by rewrite spin_get_free by auto with mach. Qed.
Lemma put_console m (x : con * (list Z * U)) : quiet m → oncm (spin_put L_console) (acq L_console m, x) = Ok tt (touch m, x).
Proof. intros Hq. unfold oncm, onm, zoom. cbn [fst]. rewrite spin_put_held by apply acq_held. by rewrite rel_acq by auto with mach. Qed.

Lemma putc_typed m c o u ch : quiet m → con_wf c → c_tflag c = false → 0 ≤ ch < 256 → ch ≠ 8 → ch ≠ 27 → (qlen c < 127)%nat →
  console_putc mem strs ch (m, (c, (o, u))) = Ok tt (touch m, (typed ch c, (o ++ [ch], u))).
Proof.
  intros Hq W Ht Hc H8 H27 Hl. unfold console_putc. rewrite get_console by done. go. cbn [fst snd]. rewrite Ht. cbn [negb].
  rewrite (proj2 (Z.eqb_neq _ _) H8), (proj2 (Z.eqb_neq _ _) H27).
  assert (console_isfull c = false) as -> by (apply not_true_iff_false; rewrite (full_len c W); lia). cbn [negb].
  unfold upd_con. go. rewrite (bind_update _ _ _ (acq L_console m, (set_cbuf (<[Z.to_nat (c_w c) := ch]> (c_buf c)) c, (o, u)))).
  2: { cbn. unfold zst, st. destruct W as [_ Hw Hb]. destruct (Z.ltb_spec (c_w c) 0); [lia|]. rewrite decide_True by (rewrite Hb; lia). done. }
  unfold mod_con. go. cbn [fst snd]. run (put_inside m (typed ch c) o u ch Hq Hc). by apply put_console.
Qed.
Lemma putc_full m c o u ch : quiet m → con_wf c → c_tflag c = false → ch ≠ 8 → ch ≠ 27 → qlen c = 127%nat →
  console_putc mem strs ch (m, (c, (o, u))) = Ok tt (touch m, (c, (o ++ full_msg, u))).
Proof.
  intros Hq W Ht H8 H27 Hl. unfold console_putc. rewrite get_console by done. go. cbn [fst snd]. rewrite Ht. cbn [negb].
  rewrite (proj2 (Z.eqb_neq _ _) H8), (proj2 (Z.eqb_neq _ _) H27), (proj2 (full_len c W) Hl). cbn [negb].
  destruct (con_inside m Hq) as [Hcp Htt].
  assert (E : onpr (print mem (s_full strs) []) (acq L_console m, (c, (o, u))) = Ok tt (acq L_console m, (c, (o ++ full_msg, u)))).
  { unfold onpr, zoom. cbn [fst snd]. erewrite print_within; [by rewrite Htt|done|]. intros mm Hmm. pose proof (cstr_length mem _ _ Hfull).
    apply (prints_loop mem Hmem (λ _, None) ltac:(done) mm Hmm (S (length mem)) (s_full strs) full_msg (MkVp [] 0) full_msg Hfull);
      [lia|cbn; lia|split; [cbn; lia|constructor]|done]. }
  run E. by apply put_console.
Qed.

Definition added (ch : Z) (c : con) : con := if decide (qlen c < 127)%nat then typed ch c else c.
Lemma added_wf ch c : con_wf c → con_wf (added ch c).
Proof. intros W. unfold added. case_decide; [by apply typed_wf|done]. Qed.
Lemma added_ok e ch c : con_ok e c → con_ok e (added ch c).
Proof. intros K. apply (con_ok_wf e c); [done|by apply added_wf, K|..]; unfold added; by case_decide. Qed.
Lemma added_pending ch c : con_wf c → pending (added ch c) = add ch (pending c).
Proof.
  intros W. unfold added, add. rewrite pending_len. case_decide as H.
  - rewrite (proj2 (Nat.ltb_lt _ _) H). by apply typed_pending.
  - by rewrite (proj2 (Nat.ltb_ge _ _)) by lia.
Qed.
Lemma putc_add m c o u ch : quiet m → con_wf c → c_tflag c = false → 0 ≤ ch < 256 → ch ≠ 8 → ch ≠ 27 →
  ∃ o', console_putc mem strs ch (m, (c, (o, u))) = Ok tt (touch m, (added ch c, (o', u))).
Proof.
  intros Hq W Ht Hc H8 H27. unfold added. case_decide as Hl; [eexists; by apply putc_typed|].
  pose proof (qlen_lt c W) as Hlt. unfold CONSOLE_BUFFER_SIZE in Hlt. eexists. apply putc_full; [done..|lia].
Qed.
Lemma putc_rub m c o u : quiet m → con_wf c → c_tflag c = false → 1 ≤ c_w c →
  ∃ o', console_putc mem strs 8 (m, (c, (o, u))) = Ok tt (touch m, (rub c, (o', u))).
Proof.
  intros Hq W Ht H1. unfold console_putc. rewrite get_console by done. go. cbn [fst snd]. rewrite Ht. cbn [negb Z.eqb Pos.eqb].
  assert (Hb : zat (c_buf c) (c_w c - 1) = Some (c_buf c !!! Z.to_nat (c_w c - 1))).
  { unfold zat. destruct (Z.ltb_spec (c_w c - 1) 0); [lia|]. apply list_lookup_lookup_total_lt. rewrite (cw_buf c W). destruct W as [_ Hw _]. lia. }
  rewrite bind_assoc, (bind_deref _ _ _ _) by exact Hb. unfold rub, when.
  destruct (decide (qlen c = 0%nat)) as [H0|H0].
  - assert (c_w c =? c_r c = true) as -> by (by apply (empty_len c W)). rewrite andb_false_r. go. exists o. by apply put_console.
  - assert (c_w c =? c_r c = false) as -> by (apply not_true_iff_false; intros E; by apply (empty_len c W) in E).
    destruct (_ =? 10); cbn [negb andb].
    + go. exists o. by apply put_console.
    + unfold mod_con. go. cbn [fst snd]. rewrite bind_assoc || idtac. run (put_inside m (erased c) o u 8 Hq ltac:(lia)).
      eexists. by apply put_console.
Qed.
Lemma putc_rub_ok m c o u s' : quiet m → con_wf c → c_tflag c = false →
  console_putc mem strs 8 (m, (c, (o, u))) = Ok tt s' → 1 ≤ c_w c ∧ ∃ o', s' = (touch m, (rub c, (o', u))).
Proof.
  intros Hq W Ht E. assert (H1 : 1 ≤ c_w c).
  { destruct (decide (1 ≤ c_w c)) as [|Hw]; [done|]. exfalso. destruct W as [_ Hw0 _]. assert (c_w c = 0) as E0 by lia.
    unfold console_putc in E. rewrite get_console in E by done. revert E. go. cbn [fst snd]. rewrite Ht. cbn [negb Z.eqb Pos.eqb].
    rewrite bind_assoc, E0. done. }
  split; [done|]. destruct (putc_rub m c o u Hq W Ht H1) as [o' E']. rewrite E in E'. injection E' as ->. by exists o'.
Qed.
Lemma rub_w c : con_wf c → 1 ≤ c_w c → c_tflag (rub c) = c_tflag c ∧
  (rub c = c ∨ ((qlen (rub c) < 127)%nat ∧ c_w (rub c) = c_w c - 1)).
Proof.
  intros W H1. unfold rub. case_decide as Hq; [by auto|]. destruct (_ =? 10); [by auto|]. split; [done|]. right.
  pose proof (erased_len c W Hq). pose proof (qlen_lt c W). unfold CONSOLE_BUFFER_SIZE in *. split; [lia|]. cbn.
  destruct W as [_ Hw _]. rewrite CBS_128 in *. rewrite <- (Z.mod_add _ (-1)) by lia. rewrite Z.mod_small; lia.
Qed.
Lemma rub_key_ok m c o u s' : quiet m → con_ok 0 c →
  (console_putc mem strs 8 ;; console_putc mem strs 32 ;; console_putc mem strs 8) (m, (c, (o, u))) = Ok tt s' →
  ∃ o', s' = (touch m, (rub (added 32 (rub c)), (o', u))) ∧ con_ok 0 s'.2.1 ∧ pending s'.2.1 = erase (pending c).
Proof.
  intros Hq K E. pose proof (ck_wf _ _ K) as W. pose proof (ck_flag _ _ K) as Ht. cbn in Ht.
  apply bind_ok_inv in E as ([] & s1 & E1 & E). destruct (putc_rub_ok _ _ _ _ _ Hq W Ht E1) as (Hw & o1 & ->).
  destruct (rub_w c W Hw) as [Ht1 _]. pose proof (rub_wf c W) as W1. pose proof (added_wf 32 _ W1) as W2.
  destruct (putc_add (touch m) (rub c) o1 u 32) as [o2 E2]; [by auto with mach|done|congruence|lia|done|done|].
  apply bind_ok_inv in E as ([] & s2 & E2' & E). rewrite E2 in E2'. injection E2' as <-.
  assert (Ht2 : c_tflag (added 32 (rub c)) = false) by (unfold added; case_decide; cbn; congruence).
  destruct (putc_rub_ok (touch (touch m)) _ _ _ _ (quiet_touch _ (quiet_touch _ Hq)) W2 Ht2 E) as (Hw2 & o3 & ->).
  exists o3. rewrite !touch_touch. split; [done|]. cbn [fst snd]. split; [by apply rub_ok, added_ok, rub_ok|].
  rewrite rub_pending, added_pending, rub_pending by done. apply erase_key. rewrite pending_len.
  pose proof (qlen_lt c W). unfold CONSOLE_BUFFER_SIZE in *. lia.
Qed.
Lemma rub_key m c o u : quiet m → con_ok 0 c → 1 ≤ c_w c ≤ 126 →
  ∃ c' o', (console_putc mem strs 8 ;; console_putc mem strs 32 ;; console_putc mem strs 8) (m, (c, (o, u))) = Ok tt (touch m, (c', (o', u))) ∧
    con_ok 0 c' ∧ pending c' = erase (pending c).
Proof.
  intros Hq K Hw. pose proof (ck_wf _ _ K) as W. pose proof (ck_flag _ _ K) as Ht. cbn in Ht. destruct (rub_w c W ltac:(lia)) as [Ht1 Hw1]. pose proof (rub_wf c W) as W1.
  destruct (putc_rub m c o u Hq W Ht ltac:(lia)) as [o1 E1].
  destruct (putc_add (touch m) (rub c) o1 u 32) as [o2 E2]; [by auto with mach|done|congruence|lia|done|done|].
  assert (Ht2 : c_tflag (added 32 (rub c)) = false) by (unfold added; case_decide; cbn; congruence).
  assert (Hw2 : 1 ≤ c_w (added 32 (rub c))).
  { unfold added. destruct Hw1 as [->|[Hl Hw1]].
    - case_decide; [|lia]. cbn. rewrite CBS_128, Z.mod_small by lia. lia.
    - rewrite decide_True by done. cbn. rewrite CBS_128, Hw1, Z.mod_small by lia. lia. }
  destruct (putc_rub (touch (touch m)) (added 32 (rub c)) o2 u) as [o3 E3]; [by auto with mach|by apply added_wf|done|done|].
  assert (E : (console_putc mem strs 8 ;; console_putc mem strs 32 ;; console_putc mem strs 8) (m, (c, (o, u))) =
    Ok tt (touch m, (rub (added 32 (rub c)), (o3, u)))) by (run E1; run E2; by rewrite E3, !touch_touch).
  destruct (rub_key_ok m c o u _ Hq K E) as (o4 & E4 & H). injection E4 as <-. exists (rub (added 32 (rub c))), o3. by split.
Qed.

(** A byte of an escape sequence. *)
Definition escaped (ch : Z) (c : con) : con :=
  if ends_escape ch then reset_tb (set_ci (c_i c + 1) (set_ctb (<[Z.to_nat (c_i c) := ch]> (c_tb c)) c))
  else set_ci (c_i c + 1) (set_ctb (<[Z.to_nat (c_i c) := ch]> (c_tb c)) c).
Lemma try_transfer_spec m c o u ch i : 0 ≤ i < 8 → length (c_tb c) = 8%nat →
  try_transfer (m, (set_ci (i + 1) (set_ctb (<[Z.to_nat i := ch]> (c_tb c)) c), (o, u))) =
  Ok tt (m, (if ends_escape ch then reset_tb (set_ci (i + 1) (set_ctb (<[Z.to_nat i := ch]> (c_tb c)) c))
             else set_ci (i + 1) (set_ctb (<[Z.to_nat i := ch]> (c_tb c)) c), (o, u))).
Proof.
  intros Hi Hl. unfold try_transfer. rewrite (bind_deref _ _ _ ch).
  2: { cbn. unfold zat. rewrite (proj2 (Z.ltb_ge _ _)) by lia. rewrite Z.add_simpl_r. apply list_lookup_insert_eq. lia. }
  unfold ends_escape. destruct (ch =? 79); [done|]. cbn [negb andb].
  by destruct (ch =? 126), (ch =? 7), (ch =? 92), ((97 <=? ch) && (ch <=? 122)), ((65 <=? ch) && (ch <=? 90)).
Qed.
Lemma putc_esc_ok m c o u ch s' : quiet m → c_tflag c = true → 0 ≤ c_i c → length (c_tb c) = 8%nat →
  console_putc mem strs ch (m, (c, (o, u))) = Ok tt s' → c_i c < 8 ∧ s' = (touch m, (escaped ch c, (o, u))).
Proof.
  intros Hq Ht Hi Hl. unfold console_putc. rewrite get_console by done. go. cbn [fst snd]. rewrite Ht. cbn [negb].
  unfold push_tb, upd_con. rewrite bind_assoc. destruct (Z.ltb_spec (c_i c) 8) as [Hlt|Hge].
  - rewrite (bind_update _ _ _ (acq L_console m, (set_ci (c_i c + 1) (set_ctb (<[Z.to_nat (c_i c) := ch]> (c_tb c)) c), (o, u)))).
    2: { cbn. unfold zst, st. rewrite (proj2 (Z.ltb_ge _ _)) by lia. rewrite decide_True by lia. cbn. by rewrite u8_small by lia. }
    run (try_transfer_spec (acq L_console m) c o u ch (c_i c) ltac:(lia) Hl). rewrite put_console by done. by intros [= <-].
  - unfold bind at 1, update. cbn [fst snd]. unfold zst, st. rewrite (proj2 (Z.ltb_ge _ _)) by lia. by rewrite decide_False by lia.
Qed.

Lemma put_outside m c o u ch : quiet m → 0 ≤ ch < 256 →
  onpr (uart_put_syn ch) (m, (c, (o, u))) = Ok tt (touch m, (c, (o ++ [ch], u))).
Proof.
  intros Hq Hc. unfold onpr, zoom, uart_put_syn. cbn [fst snd]. unfold bind at 1, onm, zoom. cbn [fst snd].
  rewrite spin_get_free by auto with mach. go. cbn [fst snd]. rewrite spin_put_held by apply acq_held.
  rewrite rel_acq by auto with mach. by rewrite u8_small.
Qed.
(** The key that clears the terminal. *)
Lemma clean_key m c o u : quiet m → length (c_tb c) = 8%nat →
  ∃ c' o', (clean_console ;; onpr (uart_put_syn 36) ;; onpr (uart_put_syn 62)) (m, (c, (o, u))) = Ok tt (touch m, (c', (o', u))) ∧
    con_ok 0 c' ∧ pending c' = [].
Proof.
  intros Hq Hb. unfold clean_console, mod_con. go. cbn [fst snd]. set (c1 := set_cbuf _ _).
  run (put_outside m c1 o u 27 Hq ltac:(lia)).
  run (put_outside (touch m) c1 (o ++ [27]) u 99 ltac:(auto with mach) ltac:(lia)).
  run (put_outside (touch (touch m)) c1 ((o ++ [27]) ++ [99]) u 36 ltac:(auto with mach) ltac:(lia)).
  rewrite put_outside by (auto with mach || lia). rewrite !touch_touch. eexists c1, _. split; [done|].
  split; [|done]. split; [|done|done|done|cbn; lia]. split; cbn; [rewrite CBS_128; lia..|apply length_replicate].
Qed.
(** The keys that edit the text: the start of an escape sequence and the task dump are
    apart; erasing reads the byte before the write position. *)
Definition key_ok (c : con) (ch : Z) : Prop := 0 ≤ ch < 256 ∧ ch ≠ 27 ∧ ch ≠ 16 ∧ (ch = 127 → 1 ≤ c_w c ≤ 126).
Definition wakes (ch : Z) : bool := (ch =? 13) || (ch =? 10) || (ch =? 4).
Lemma key_spec tasks m c o u ch : quiet m → length (m_tasks m) = NPROC → con_ok 0 c → key_ok c ch →
  ∃ m' c' o', do_console_irq mem strs tasks ch (m, (c, (o, u))) = Ok tt (m', (c', (o', u))) ∧
    con_ok 0 c' ∧ pending c' = edit ch (pending c) ∧ quiet m' ∧
    m_tasks m' = if wakes ch then imap (wake_at ChConsole (mytask m)) (m_tasks m) else m_tasks m.
Proof.
  intros Hq Hl K (Hc & H27 & H16 & H127). pose proof (ck_wf _ _ K) as W. pose proof (ck_flag _ _ K) as Ht. cbn in Ht. unfold do_console_irq, edit, wakes.
  assert (Hadd : ∀ x, 0 ≤ x < 256 → x ≠ 8 → x ≠ 27 → ∃ m' o',
    (console_putc mem strs x ;; oncm (wakeup ChConsole)) (m, (c, (o, u))) = Ok tt (m', (added x c, (o', u))) ∧ quiet m' ∧
    m_tasks m' = imap (wake_at ChConsole (mytask m)) (m_tasks m)).
  { intros x Hx H8 H27'. destruct (putc_add m c o u x Hq W Ht Hx H8 H27') as [o' E].
    destruct (wakeup_quiet ChConsole (touch m)) as (m' & Ew & Hf & Hts); [auto with mach|done|]. exists m', o'. run E.
    unfold oncm, onm, zoom. cbn [fst]. rewrite Ew. split; [done|]. split; [|done]. apply (frame_quiet _ _ Hf). auto with mach. }
  assert (Hin : ∀ x, con_ok 0 (added x c) ∧ pending (added x c) = add x (pending c)).
  { intros x. split; [by apply added_ok|by apply added_pending]. }
  rewrite (proj2 (Z.eqb_neq _ _) H27), (proj2 (Z.eqb_neq _ _) H16). destruct (Z.eqb_spec ch 127) as [->|N127].
  { destruct (rub_key m c o u Hq K (H127 eq_refl)) as (c' & o' & E & H1 & H2). exists (touch m), c', o'. split_and!; auto with mach. }
  destruct ((ch =? 13) || (ch =? 10)) eqn:En.
  { destruct (Hadd 10) as (m' & o' & E & Hq' & Hts); [lia..|]. exists m', (added 10 c), o'. by destruct (Hin 10) as (? & ?). }
  destruct ((32 <=? ch) && (ch <=? 126)) eqn:Ep.
  { apply andb_true_iff in Ep as [Hp1%Z.leb_le Hp2%Z.leb_le]. destruct (putc_add m c o u ch Hq W Ht) as [o' E]; [lia..|].
    exists (touch m), (added ch c), o'. destruct (Hin ch) as (? & ?). rewrite (proj2 (Z.eqb_neq ch 4)) by lia. split_and!; auto with mach. }
  destruct (Z.eqb_spec ch 14) as [->|N14].
  { destruct (clean_key m c o u Hq (ck_tb _ _ K)) as (c1 & o' & E & Kc & Ep'). exists (touch m), c1, o'. split_and!; auto with mach. }
  destruct (Z.eqb_spec ch 4) as [->|N4].
  { destruct (Hadd 4) as (m' & o' & E & Hq' & Hts); [lia..|]. exists m', (added 4 c), o'. by destruct (Hin 4) as (? & ?). }
  exists m, c, o. by split_and!.
Qed.

(** What leaves the terminal and the user's memory alone. *)
Definition keeps_con {A} (f : M (@cst U) A) : Prop := ∀ s a s', f s = Ok a s' → s'.2.1 = s.2.1 ∧ s'.2.2.2 = s.2.2.2.
Lemma keeps_ret {A} (a : A) : keeps_con (ret a).
Proof. by intros s b s' [= _ ->]. Qed.
Lemma keeps_bind {A B} (f : M (@cst U) A) (g : A → M (@cst U) B) : keeps_con f → (∀ a, keeps_con (g a)) → keeps_con (bind f g).
Proof.
  intros Hf Hg s b s' (a & s1 & E1 & E2)%bind_ok_inv. destruct (Hf _ _ _ E1) as [H1 H2], (Hg _ _ _ _ E2) as [H3 H4]. split; congruence.
Qed.
Lemma keeps_when b (f : M (@cst U) unit) : keeps_con f → keeps_con (when b f).
Proof. intros Hf. destruct b; [done|apply keeps_ret]. Qed.
Lemma keeps_oncm {A} (f : M mach A) : keeps_con (oncm f).
Proof. intros s a s' E. unfold oncm, onm, zoom in E. destruct (f s.1); try discriminate E. by injection E as _ <-. Qed.
Lemma keeps_onpr {A} (f : PR A) : keeps_con (onpr f).
Proof. intros s a s' E. unfold onpr, zoom in E. destruct (f _); try discriminate E. by injection E as _ <-. Qed.
Lemma dump_keeps i l : keeps_con (dump_loop mem strs i l).
Proof.
  revert i. induction l as [|ti l IH]; intros i; [apply keeps_ret|]. cbn [dump_loop]. apply keeps_bind; [|intros _; apply IH].
  unfold dump_one. repeat (apply keeps_bind; [|intros ?]); [apply keeps_oncm..| |apply keeps_oncm]. apply keeps_when, keeps_onpr.
Qed.

(** *** Any key *)

Lemma escaped_ok e ch c : con_ok e c → 0 < e < 8 → con_ok (if ends_escape ch then 0 else e + 1) (escaped ch c) ∧ pending (escaped ch c) = pending c.
Proof.
  intros [[K1 K1' K1''] K2 K3 K4 K5] He. rewrite (proj2 (Z.eqb_neq e 0)) in K4 by lia. unfold escaped.
  destruct (ends_escape ch); (split; [|done]); split; cbn; try done; [by rewrite length_insert|by rewrite K3| |lia].
  by rewrite (proj2 (Z.eqb_neq (e + 1) 0)) by lia.
Qed.
Lemma putc_esc m c o u ch e s' : quiet m → con_ok e c → 0 < e → console_putc mem strs ch (m, (c, (o, u))) = Ok tt s' →
  ∃ c', s' = (touch m, (c', (o, u))) ∧ con_ok (if ends_escape ch then 0 else e + 1) c' ∧ pending c' = pending c.
Proof.
  intros Hq K He E. pose proof K as [K1 K2 K3 K4 K5]. rewrite (proj2 (Z.eqb_neq e 0)) in K4 by lia.
  destruct (putc_esc_ok m c o u ch s' Hq K4) as [Hlt ->]; [lia|done|done|]. exists (escaped ch c). split; [done|].
  apply escaped_ok; [done|lia].
Qed.
(** The first byte of a sequence. *)
Lemma putc_start m c o u s' : quiet m → con_ok 0 c → console_putc mem strs 27 (m, (c, (o, u))) = Ok tt s' →
  ∃ c', s' = (touch m, (c', (o, u))) ∧ con_ok 1 c' ∧ pending c' = pending c.
Proof.
  intros Hq [[K1 K1' K1''] K2 K3 K4 K5]. unfold console_putc. rewrite get_console by done. go. cbn [fst snd]. rewrite K4. cbn [negb Z.eqb Pos.eqb].
  unfold mod_con, push_tb, upd_con. go. cbn [fst snd]. set (c1 := set_ci 1 (set_ctb (<[0%nat := 27]> (c_tb c)) (set_ctflag true c))).
  rewrite (bind_update _ _ _ (acq L_console m, (c1, (o, u)))).
  2: { cbn. rewrite K3. unfold zst, st. cbn. rewrite decide_True by lia. done. }
  rewrite put_console by done. intros [= <-]. exists c1. split; [done|]. split; [|done]. split; cbn; [by split|by rewrite length_insert|done..|lia].
Qed.
Lemma wakeup_con (s' s : @cst U) : oncm (wakeup ChConsole) s = Ok tt s' → s'.2 = s.2.
Proof. intros E. unfold oncm, onm, zoom in E. destruct (wakeup ChConsole s.1); try discriminate E. by injection E as _ <-. Qed.
(** The effect of any key of which the handler returns. *)
Definition pressed (ch : Z) (e : Z) (c c' : con) : Prop :=
  con_ok (press ch (e, pending c)).1 c' ∧ pending c' = (press ch (e, pending c)).2.
Lemma press_esc tasks m c o u ch e s' : quiet m → con_ok e c → 0 < e → 0 ≤ ch < 256 →
  do_console_irq mem strs tasks ch (m, (c, (o, u))) = Ok tt s' → pressed ch e c s'.2.1.
Proof.
  intros Hq K He Hc. assert (Hone : ∀ x s1, console_putc mem strs x (m, (c, (o, u))) = Ok tt s1 →
    con_ok (if ends_escape x then 0 else e + 1) s1.2.1 ∧ pending s1.2.1 = pending c).
  { intros x s1 E. by destruct (putc_esc m c o u x e s1 Hq K He E) as (c' & -> & ? & ?). }
  assert (Hwake : ∀ x, (console_putc mem strs x ;; oncm (wakeup ChConsole)) (m, (c, (o, u))) = Ok tt s' →
    con_ok (if ends_escape x then 0 else e + 1) s'.2.1 ∧ pending s'.2.1 = pending c).
  { intros x ([] & s1 & E1 & E2)%bind_ok_inv. rewrite (wakeup_con _ _ E2). by apply (Hone x). }
  unfold pressed, press, do_console_irq. rewrite (proj2 (Z.eqb_neq e 0)) by lia.
  destruct (Z.eqb_spec ch 27) as [->|N27]; [apply (Hone 27)|].
  destruct (Z.eqb_spec ch 127) as [->|N127].
  { intros ([] & s1 & E1 & E)%bind_ok_inv. apply bind_ok_inv in E as ([] & s2 & E2 & E3).
    destruct (putc_esc m c o u 8 e s1 Hq K He E1) as (c1 & -> & K1 & P1). cbn in K1.
    destruct (putc_esc _ c1 o u 32 (e + 1) s2 (quiet_touch _ Hq) K1 ltac:(lia) E2) as (c2 & -> & K2 & P2). cbn in K2.
    destruct (putc_esc _ c2 o u 8 (e + 1 + 1) s' (quiet_touch _ (quiet_touch _ Hq)) K2 ltac:(lia) E3) as (c3 & -> & K3 & P3). cbn in K3.
    cbn [fst snd Z.eqb Pos.eqb]. replace (e + 3) with (e + 1 + 1 + 1) by lia. split; [done|congruence]. }
  destruct ((ch =? 13) || (ch =? 10)) eqn:En.
  { intros E. apply (Hwake 10) in E. replace (ch =? 14) with false; [done|]. symmetry. apply Z.eqb_neq. intros ->. discriminate En. }
  cbn [orb]. destruct (Z.eqb_spec ch 14) as [->|N14].
  { cbn [Z.leb Z.compare Pos.compare Pos.compare_cont andb]. destruct (clean_key m c o u Hq (ck_tb _ _ K)) as (c' & o' & E' & K' & P').
    intros E. rewrite E' in E. by injection E as <-. }
  destruct (Z.eqb_spec ch 4) as [->|N4]; [apply (Hwake 4)|]. cbn [orb].
  destruct ((32 <=? ch) && (ch <=? 126)); [apply (Hone ch)|].
  destruct (Z.eqb_spec ch 16) as [->|N16]; [|by intros [= <-]].
  intros E. unfold dump_all_task in E. apply keeps_bind in E as [-> _]; [done|apply keeps_onpr|]. intros _. apply dump_keeps.
Qed.
Lemma press_spec tasks m c o u ch e s' : quiet m → length (m_tasks m) = NPROC → con_ok e c → 0 ≤ ch < 256 →
  do_console_irq mem strs tasks ch (m, (c, (o, u))) = Ok tt s' → pressed ch e c s'.2.1.
Proof.
  intros Hq Hl K Hc E. destruct (decide (0 < e)) as [He|He]; [by eapply press_esc|]. assert (e = 0) as -> by (destruct K; lia).
  unfold pressed, press. cbn [Z.eqb]. destruct (Z.eqb_spec ch 27) as [->|N27].
  { by destruct (putc_start m c o u s' Hq K E) as (c' & -> & ? & ?). }
  destruct (decide (ch = 16)) as [->|N16].
  { unfold do_console_irq in E. cbn [Z.eqb Pos.eqb orb andb Z.leb Z.compare Pos.compare Pos.compare_cont] in E.
    unfold dump_all_task in E. apply keeps_bind in E as [-> _]; [done|apply keeps_onpr|]. intros _. apply dump_keeps. }
  destruct (decide (ch = 127)) as [->|N127].
  { destruct (rub_key_ok m c o u s' Hq K E) as (o' & _ & K' & P'). by split. }
  destruct (key_spec tasks m c o u ch Hq Hl K) as (m' & c' & o' & E' & K' & P' & _); [split_and!; lia|].
  rewrite E in E'. injection E' as ->. by split.
Qed.
End keys.

(** ** Reading *)

Lemma pending_flat c : con_wf c → c_r c ≤ c_w c → pending c = take (Z.to_nat (c_w c - c_r c)) (drop (Z.to_nat (c_r c)) (c_buf c)).
Proof.
  intros W Hrw. pose proof (readable_cases c W) as E. rewrite decide_True in E by done. destruct W as [Hr Hw Hb]. rewrite CBS_128 in *.
  unfold CONSOLE_BUFFER_SIZE in Hb. apply list_eq. intros k. destruct (decide (k < qlen c)%nat) as [Hk|Hk].
  - rewrite (pending_at c k Hk). unfold qlen in Hk. rewrite E in Hk. rewrite lookup_take_lt, lookup_drop by lia.
    unfold cidx. rewrite CBS_128, Z.mod_small by lia. replace (Z.to_nat (c_r c + Z.of_nat k)) with (Z.to_nat (c_r c) + k)%nat by lia.
    symmetry. apply list_lookup_lookup_total_lt. lia.
  - rewrite !lookup_ge_None_2; [done|rewrite length_take, length_drop; unfold qlen in Hk; lia|rewrite pending_len; lia].
Qed.
Lemma pending_wrapped c : con_wf c → c_w c < c_r c → pending c = drop (Z.to_nat (c_r c)) (c_buf c) ++ take (Z.to_nat (c_w c)) (c_buf c).
Proof.
  intros W Hrw. pose proof (readable_cases c W) as E. rewrite decide_False in E by lia. destruct W as [Hr Hw Hb]. rewrite CBS_128 in *.
  unfold CONSOLE_BUFFER_SIZE in Hb. apply list_eq. intros k. destruct (decide (k < qlen c)%nat) as [Hk|Hk].
  - rewrite (pending_at c k Hk). unfold qlen in Hk. rewrite E in Hk. unfold cidx. rewrite CBS_128.
    destruct (decide (k < 128 - Z.to_nat (c_r c))%nat) as [H|H].
    + rewrite lookup_app_l, lookup_drop by (rewrite length_drop; lia). rewrite Z.mod_small by lia.
      replace (Z.to_nat (c_r c + Z.of_nat k)) with (Z.to_nat (c_r c) + k)%nat by lia. symmetry. apply list_lookup_lookup_total_lt. lia.
    + rewrite lookup_app_r by (rewrite length_drop; lia). rewrite length_drop, lookup_take_lt by lia.
      rewrite <- (Z.mod_add _ (-1)) by lia. rewrite Z.mod_small by lia.
      replace (Z.to_nat (c_r c + Z.of_nat k + -1 * 128)) with (k - (length (c_buf c) - Z.to_nat (c_r c)))%nat by lia.
      symmetry. apply list_lookup_lookup_total_lt. lia.
  - rewrite !lookup_ge_None_2; [done|rewrite length_app, length_take, length_drop; unfold qlen in Hk; lia|rewrite pending_len; lia].
Qed.
Definition consumed (n : nat) (c : con) : con := set_cr ((c_r c + Z.of_nat n) mod CBS) c.
Lemma consumed_wf n c : con_wf c → con_wf (consumed n c).
Proof. intros [Hr Hw Hb]. split; cbn; [apply Z.mod_pos_bound; rewrite CBS_128; lia|done|done]. Qed.
Lemma consumed_len n c : con_wf c → (n ≤ qlen c)%nat → qlen (consumed n c) = (qlen c - n)%nat.
Proof.
  intros W. pose proof (consumed_wf n c W) as W'. unfold qlen. rewrite (readable_cases c W), (readable_cases _ W'). cbn.
  destruct W as [Hr Hw _]. rewrite CBS_128 in *. intros Hn. destruct (decide (c_r c + Z.of_nat n < 128)).
  - rewrite Z.mod_small by lia. repeat case_decide; lia.
  - replace ((c_r c + Z.of_nat n) mod 128) with (c_r c + Z.of_nat n - 128); [repeat case_decide; lia|].
    rewrite <- (Z.mod_add _ (-1)) by lia. rewrite Z.mod_small; [lia|]. case_decide; lia.
Qed.
Lemma consumed_pending n c : con_wf c → (n ≤ qlen c)%nat → pending (consumed n c) = drop n (pending c).
Proof.
  intros W Hn. apply list_eq. intros k. rewrite lookup_drop. destruct (decide (k < qlen (consumed n c))%nat) as [Hk|Hk].
  - rewrite (pending_at _ k Hk), (pending_at c) by (rewrite consumed_len in Hk by done; lia). cbn [c_buf consumed set_cr].
    do 2 f_equal. unfold cidx. cbn. rewrite Zplus_mod_idemp_l. f_equal. f_equal. lia.
  - rewrite !lookup_ge_None_2; [done|rewrite pending_len|rewrite pending_len; lia]. rewrite consumed_len in Hk by done. lia.
Qed.

Section reading.
Context {U : Type} {UM : UserMem U}.
Implicit Types (m : mach) (c : con) (o : list Z) (u : U).

Lemma con_out_ok u va d m c o : accessible u va (length d) →
  ∃ u', con_out va d (m, (c, (o, u))) = Ok tt (m, (c, (o, u'))) ∧ stored_at u u' va d.
Proof.
  intros H. destruct (copy_out_ok u va d H) as (u' & E & Hs). exists u'. split; [|done]. unfold con_out. cbn [snd]. by rewrite E.
Qed.
Lemma buf_bytes_ok c start n : (start + n ≤ CONSOLE_BUFFER_SIZE)%nat →
  buf_bytes c (Z.of_nat start) (Z.of_nat n) = Some (take n (drop start (c_buf c))).
Proof. intros H. unfold buf_bytes. rewrite (proj2 (Z.leb_le _ _)) by lia. by rewrite !Nat2Z.id. Qed.

(** The copies of [console_read] deliver the front of the text. *)
Lemma read_copies c u udst m o (n : nat) : con_wf c → (n ≤ qlen c)%nat → (0 < qlen c)%nat → (c_w c < c_r c → (128 - Z.to_nat (c_r c) ≤ n)%nat) →
  accessible u udst n →
  ∃ u', (if c_r c <? c_w c then let! d := deref (λ _, buf_bytes c (c_r c) (Z.of_nat n)) in con_out udst d
     else let lslice1 := u32 (CBS - c_r c) in let lslice2 := u32 (Z.of_nat n - lslice1) in
       let! d1 := deref (λ _, buf_bytes c (c_r c) lslice1) in con_out udst d1 ;;
       let! d2 := deref (λ _, buf_bytes c 0 lslice2) in con_out (udst + lslice1) d2) (m, (c, (o, u))) = Ok tt (m, (c, (o, u'))) ∧
    stored_at u u' udst (take n (pending c)).
Proof.
  intros W Hn Hq0 Hwrap Ha. pose proof (qlen_lt c W) as Hql. pose proof (readable_cases c W) as E. pose proof W as [Hr Hw Hb]. rewrite CBS_128 in *.
  unfold qlen in *. unfold CONSOLE_BUFFER_SIZE in Hb, Hql. destruct (Z.ltb_spec (c_r c) (c_w c)) as [Hrw|Hrw].
  - rewrite decide_True in E by lia. rewrite E in *.
    assert (Eb : buf_bytes c (c_r c) (Z.of_nat n) = Some (take n (drop (Z.to_nat (c_r c)) (c_buf c)))).
    { rewrite <- (buf_bytes_ok c (Z.to_nat (c_r c)) n) by (unfold CONSOLE_BUFFER_SIZE; lia). f_equal. lia. }
    rewrite Eb, bind_deref_const. assert (Ep : take n (pending c) = take n (drop (Z.to_nat (c_r c)) (c_buf c))).
    { rewrite (pending_flat c W), take_take by lia. f_equal. lia. }
    rewrite Ep. apply con_out_ok. rewrite length_take, length_drop. replace (n `min` _)%nat with n by lia. done.
  - assert (c_r c ≠ c_w c) by (intros Heq; rewrite decide_True in E by lia; lia). rewrite decide_False in E by lia. rewrite E in *.
    specialize (Hwrap ltac:(lia)). set (l1 := (128 - Z.to_nat (c_r c))%nat) in *.
    assert (E1 : u32 (128 - c_r c) = Z.of_nat l1) by (rewrite u32_id; unfold l1; lia).
    assert (E2 : u32 (Z.of_nat n - Z.of_nat l1) = Z.of_nat (n - l1)) by (rewrite u32_id; unfold l1; lia).
    cbn zeta. rewrite E1, E2.
    assert (Eb1 : buf_bytes c (c_r c) (Z.of_nat l1) = Some (drop (Z.to_nat (c_r c)) (c_buf c))).
    { rewrite <- (take_ge (drop (Z.to_nat (c_r c)) (c_buf c)) l1) by (rewrite length_drop; unfold l1; lia).
      rewrite <- (buf_bytes_ok c (Z.to_nat (c_r c)) l1) by (unfold CONSOLE_BUFFER_SIZE, l1; lia). f_equal. lia. }
    assert (Eb2 : buf_bytes c 0 (Z.of_nat (n - l1)) = Some (take (n - l1) (c_buf c))).
    { exact (buf_bytes_ok c 0 (n - l1) ltac:(unfold CONSOLE_BUFFER_SIZE; lia)). }
    assert (Hl1 : length (drop (Z.to_nat (c_r c)) (c_buf c)) = l1) by (rewrite length_drop; unfold l1; lia).
    rewrite Eb1, bind_deref_const. destruct (con_out_ok u udst (drop (Z.to_nat (c_r c)) (c_buf c)) m c o) as (u1 & Eo1 & Hs1).
    { rewrite Hl1. eapply accessible_sub; [exact Ha|lia|lia]. }
    run Eo1. rewrite Eb2, bind_deref_const.
    destruct (con_out_ok u1 (udst + Z.of_nat l1) (take (n - l1) (c_buf c)) m c o) as (u2 & Eo2 & Hs2).
    { eapply stored_accessible; [exact Hs1|]. eapply accessible_sub; [exact Ha|lia|]. rewrite length_take. lia. }
    exists u2. split; [done|]. rewrite (pending_wrapped c W) by lia. rewrite take_app, Hl1.
    rewrite (take_ge (drop _ _) n) by (rewrite Hl1; lia). rewrite take_take. replace ((n - l1) `min` _)%nat with (n - l1)%nat by lia.
    eapply stored_app; [exact Hs1|]. by rewrite Hl1.
Qed.
Lemma read_spec c u udst len m t o : con_wf c → can_sleep m → mytask m = Some t → (t < NPROC)%nat → 0 ≤ len < 2 ^ 32 →
  let n := Nat.min (Z.to_nat len) (qlen c) in
  (c_w c < c_r c → 128 - c_r c ≤ len) → accessible u udst n →
  if decide (qlen c = 0%nat)
  then ∃ m', console_read_body udst len (acq L_console m, (c, (o, u))) = Ok (inl tt) (m', (c, (o, u)))
  else ∃ u', console_read_body udst len (acq L_console m, (c, (o, u))) =
      Ok (inr (Z.of_nat n)) (touch m, (consumed n c, (o, u'))) ∧ stored_at u u' udst (take n (pending c)).
Proof.
  intros W Hm Ht Htn Hlen n Hwrap Ha. unfold console_read_body. go. cbn [fst snd]. pose proof (readable_cases c W) as E.
  destruct (decide (qlen c = 0%nat)) as [H0|H0].
  - rewrite (proj2 (empty_len c W) H0). destruct (sleep_enter_spec ChConsole L_console m t Hm Ht Htn) as (m' & Es & _); [done|].
    exists m'. unfold oncm, onm, zoom, bind. cbn [fst snd]. by rewrite Es.
  - assert (console_isempty c = false) as -> by (apply not_true_iff_false; by rewrite (empty_len c W)).
    pose proof W as [Hr Hw _]. rewrite CBS_128 in *. assert (En : cmin len (console_readable_len c) = Z.of_nat n).
    { rewrite cmin_min. unfold n, qlen in *. rewrite E in *. case_decide; lia. }
    rewrite En. destruct (read_copies c u udst (acq L_console m) o n W) as (u' & Ec & Hs); [unfold n; lia|lia| |done|].
    { intros Hlt. unfold n, qlen. rewrite E. rewrite decide_False by lia. specialize (Hwrap Hlt). lia. }
    exists u'. split; [|done]. run Ec. unfold mod_con. go. cbn [fst snd].
    assert (u32 (c_r c + Z.of_nat n) = c_r c + Z.of_nat n) as ->.
    { apply u32_id. pose proof (qlen_lt c W). unfold CONSOLE_BUFFER_SIZE in *. unfold n. lia. }
    change (set_cr _ c) with (consumed n c). unfold bind. rewrite (put_console m) by apply Hm. done.
Qed.
(** A wrapped text and a request for less than its first part. *)
Lemma short_second c len : con_wf c → c_w c < c_r c → 0 ≤ len < 128 - c_r c → buf_bytes c 0 (u32 (len - (128 - c_r c))) = None.
Proof.
  intros W Hrw Hlen. pose proof W as [Hr Hw Hb]. rewrite CBS_128 in *. unfold buf_bytes, u32.
  rewrite CBS_128, <- (Z.mod_add _ 1), Z.mod_small by lia.
  destruct (Z.leb_spec (0 + (len - (128 - c_r c) + 1 * 2 ^ 32)) 128); [lia|done].
Qed.
Lemma read_short_fails c u udst len m o res s' : con_wf c → c_w c < c_r c → 0 ≤ len < 128 - c_r c →
  console_read_body udst len (acq L_console m, (c, (o, u))) ≠ Ok res s'.
Proof.
  intros W Hrw Hlen. unfold console_read_body. go. cbn [fst snd]. pose proof (readable_cases c W) as E. rewrite decide_False in E by lia.
  pose proof W as [Hr Hw Hb]. pose proof (short_second c len W Hrw Hlen) as Es. rewrite CBS_128 in *.
  unfold console_isempty. rewrite (proj2 (Z.eqb_neq _ _)) by lia.
  rewrite (proj2 (Z.ltb_ge _ _)) by lia. rewrite E, cmin_min, Z.min_l by lia. rewrite (u32_id (128 - c_r c)) by lia.
  intros ([] & s1 & E1 & _)%bind_ok_inv. apply bind_ok_inv in E1 as (d & s2 & _ & E1). apply bind_ok_inv in E1 as ([] & s3 & _ & E1).
  apply bind_ok_inv in E1 as (d2 & s4 & E1 & _). unfold deref in E1. by rewrite Es in E1.
Qed.
Lemma read_short c u udst len m o u' : con_wf c → c_w c < c_r c → 0 < len < 128 - c_r c →
  con_out udst (drop (Z.to_nat (c_r c)) (c_buf c)) (acq L_console m, (c, (o, u))) = Ok tt (acq L_console m, (c, (o, u'))) →
  console_read_body udst len (acq L_console m, (c, (o, u))) = Fault (acq L_console m, (c, (o, u'))).
Proof.
  intros W Hrw Hlen Eo. unfold console_read_body. go. cbn [fst snd]. pose proof (readable_cases c W) as E. rewrite decide_False in E by lia.
  pose proof W as [Hr Hw Hb]. rewrite CBS_128 in *. unfold console_isempty. rewrite (proj2 (Z.eqb_neq _ _)) by lia.
  rewrite (proj2 (Z.ltb_ge _ _)) by lia. rewrite E, cmin_min, Z.min_l by lia. rewrite (u32_id (128 - c_r c)) by lia.
  assert (Eb1 : buf_bytes c (c_r c) (128 - c_r c) = Some (drop (Z.to_nat (c_r c)) (c_buf c))).
  { unfold buf_bytes. rewrite CBS_128, (proj2 (Z.leb_le _ _)) by lia. rewrite take_ge; [done|]. rewrite length_drop, Hb. unfold CONSOLE_BUFFER_SIZE. lia. }
  pose proof (short_second c len W Hrw ltac:(lia)) as Eb2.
  rewrite Eb1, bind_assoc, bind_deref_const. run Eo. unfold bind at 1, deref. by rewrite Eb2.
Qed.
End reading.
