(* ===== verification/Sysfs.v ===== *)
(** The file system calls (kernel/syscall/sysfs.c) on the descriptor table of the
    running task ([struct fs_struct] of kernel/task/task.h).

    A system call takes the user registers it reads as arguments; [argstr] fetches
    path arguments through the page table [ptb] of the task.  A call that blocks
    ends in [Switch].  [rfs] is the root file system and [devsw] the table of
    device operations. *)
From S2P Require Import Prelude Bytes Machine BlockIO Fs Inode Dir PageAlloc Vm Pipe Slot File.

(** [struct fs_struct]. *)
Record fs_struct := MkFs { fs_files : list (option optr); fs_fdx : Z; fs_cwd : option nat }.
Definition fs0 : fs_struct := MkFs (replicate NFILE None) 0 None.
Definition set_files (v : list (option optr)) (fs : fs_struct) : fs_struct := MkFs v (fs_fdx fs) (fs_cwd fs).
Definition set_fdx (v : Z) (fs : fs_struct) : fs_struct := MkFs (fs_files fs) v (fs_cwd fs).
Definition set_cwd (v : option nat) (fs : fs_struct) : fs_struct := MkFs (fs_files fs) (fs_fdx fs) v.
(** [mode & flag] as a condition. *)
Definition has (mode flag : Z) : bool := negb (Z.land mode flag =? 0).
(** [files[fd]] with [int fd]; [None] is outside the array. *)
Definition file_slot (fd : Z) (fs : fs_struct) : option (option optr) :=
  if fd <? 0 then None else fs_files fs !! Z.to_nat fd.

(** [move_fdi]: the loop from entry [i] on. *)
Fixpoint fdi_loop (l : list (option optr)) (i : Z) : option Z :=
  match l with
  | [] => None
  | None :: _ => Some i
  | Some _ :: l => fdi_loop l (i + 1)
  end.
Definition move_fdi (fs : fs_struct) : fs_struct :=
  match fdi_loop (drop (Z.to_nat (fs_fdx fs)) (fs_files fs)) (fs_fdx fs) with
  | Some i => set_fdx i fs
  | None => fs
  end.

Section sysfs.
Context {S : Type} {IO : BlockIO S} {U : Type} {UM : UserMem U}.
(** [struct dev_op]. *)
Record dev_op := MkDev { d_read : Z → Z → M (@kst S U) Z; d_write : Z → Z → M (@kst S U) Z; d_valid : bool }.
Context (rfs : superblock) (devsw : list dev_op) (ptb : Z).

Definition sst : Type := @kst S U * fs_struct.
Definition on_k {A} (m : M (@kst S U) A) : M sst A := zoom fst (λ k s, (k, s.2)) m.
Definition on_i {A} (m : M (@ist S) A) : M sst A := on_k (on_ist m).
Definition on_p {A} (m : M (@pst U) A) : M sst A := on_k (on_pipe m).
Definition on_mem {A} (m : PM A) : M sst A :=
  on_k (zoom (λ x, (bmach x.1.1, x.2.1.1))
          (λ s x, ((bset_mach s.1 x.1.1, x.1.2), ((s.2, x.2.1.2), x.2.2))) m).
Definition fs_get : M sst fs_struct := gets snd.
Definition fs_mod (f : fs_struct → fs_struct) : M sst unit := modify (λ s, (s.1, f s.2)).
Definition file_of (fd : Z) : M sst (option optr) := deref (λ s, file_slot fd s.2).
(** [files[fdx] = f] and [move_fdi]. *)
Definition put_fd (f : optr) : M sst unit :=
  update (λ s, if decide (Z.to_nat (fs_fdx s.2) < length (fs_files s.2))%nat
    then Some (s.1, set_files (<[Z.to_nat (fs_fdx s.2) := Some f]> (fs_files s.2)) s.2) else None).
Definition fetch_path (a : Z) : M sst (option (list Z)) := on_mem (argstr (λ s, Switch s) ptb a).
Definition lookup_path (path : list Z) : M sst (option nat) :=
  let! fs := fs_get in
  let! c := deref (λ _, if decide (path !! 0%nat = Some SLASH) then Some (default 0%nat (fs_cwd fs)) else fs_cwd fs) in
  on_i (dentry_find rfs c path (replicate DLENGTH 0)).
Definition split (path : list Z) (nlen : nat) : M sst (list Z * list Z) :=
  deref (λ _, path_split path (replicate MAX_PATH_LENGTH 0) (replicate nlen 0)).

(** The [switch] of [create] on the type of the new file: false is an early return. *)
Definition create_type (new parent : nat) (type dev : Z) : M sst bool :=
  let! n := on_i (inode_at new) in
  let! p := on_i (inode_at parent) in
  if type =? REGULAR then on_i (mod_inode new (set_di (set_type REGULAR))) ;; ret true
  else if type =? DIRECTORY then
    on_i (mod_inode new (set_di (set_type DIRECTORY))) ;;
    on_i (dentry_add new (i_inum n) [DOT; 0]) ;;
    on_i (dentry_add new (i_inum p) [DOT; DOT; 0]) ;;
    on_i (mod_inode parent (set_di (λ di, set_nlink (u32 (di_nlink di + 1)) di))) ;;
    ret true
  else if type =? CHAR then
    let! d := deref (λ _, devsw !! Z.to_nat (u32 dev)) in
    if d_valid d then
      on_i (mod_inode new (set_di (λ di, set_type CHAR (set_dev (u32 dev) di)))) ;;
      ret true
    else ret false
  else ret false.
Definition create (path : list Z) (type dev : Z) : M sst Z :=
  let! old := lookup_path path in
  match old with
  | Some i => on_i (iput i) ;; ret (-1)
  | None =>
    let! (parentpath, filename) := split path DLENGTH in
    let! parent := lookup_path parentpath in
    match parent with
    | None => ret (-1)
    | Some parent =>
      let! sb := on_i (sb_of parent) in
      let! inum := on_i (lift (ialloc sb)) in
      let! new := on_i (iget sb inum) in
      let! new := deref (λ _, new) in
      on_i (mod_inode new (set_di (set_nlink 1))) ;;
      let! ok := create_type new parent type dev in
      if (ok : bool) then
        on_i (iupdate new) ;;
        on_i (iput new) ;;
        let! n := on_i (inode_at new) in
        on_i (dentry_add parent (i_inum n) filename) ;;
        on_i (iput parent) ;;
        ret 0
      else ret 0
    end
  end.

(** A pipe operation that went to sleep does not return here. *)
Definition pipe_done {A} (r : A + Z) : M sst Z :=
  match r with inl _ => (λ s, Switch s) | inr n => ret n end.
(** The device of an open device file. *)
Definition device_of (v : file) : M sst dev_op :=
  let! i := deref (λ _, f_obj v) in
  let! a := on_i (inode_at i) in
  deref (λ _, devsw !! Z.to_nat (di_dev (i_di a))).
Definition sys_read (a0 a1 a2 : Z) : M sst Z :=
  let len := u32 a2 in
  let! f := file_of (i32 a0) in
  match f with
  | None => ret (-1)
  | Some f =>
    let! v := on_k (file_at f) in
    if negb (has (f_mode v) O_RDONLY) && negb (has (f_mode v) O_RDWR) then ret (-1) else
    match f_type v with
    | NONE => ret (-1)
    | DEVICE => let! d := device_of v in on_k (d_read d a1 len)
    | INODE => let! r := on_k (fread f (Some a1) len) in ret r.1
    | PIPE => let! p := deref (λ _, f_obj v) in let! r := on_p (piperead p a1 len) in pipe_done r
    end
  end.
Definition sys_write (a0 a1 a2 : Z) : M sst Z :=
  let len := u32 a2 in
  let! f := file_of (i32 a0) in
  match f with
  | None => ret (-1)
  | Some f =>
    let! v := on_k (file_at f) in
    if negb (has (f_mode v) O_WRONLY) && negb (has (f_mode v) O_RDWR) then ret (-1) else
    match f_type v with
    | NONE => ret (-1)
    | DEVICE => let! d := device_of v in on_k (d_write d a1 len)
    | INODE => on_k (fwrite f (inl a1) len)
    | PIPE => let! p := deref (λ _, f_obj v) in let! r := on_p (pipewrite p a1 len) in pipe_done r
    end
  end.
Definition sys_lseek (a0 a1 : Z) : M sst Z :=
  let! f := file_of (i32 a0) in
  match f with
  | None => ret (-1)
  | Some f =>
    let! v := on_k (file_at f) in
    if bool_decide (f_type v ≠ INODE) then ret (-1)
    else on_k (fseek f (i32 a1) SEEK_CUR)
  end.
Definition sys_mknod (a0 a1 : Z) : M sst Z :=
  if a0 =? 0 then ret (-1) else
  let! path := fetch_path a0 in
  match path with None => ret (-1) | Some path => create path CHAR a1 end.
(** [sys_open] from the inode on. *)
Definition open_inode (i : nat) (mode : Z) : M sst Z :=
  let! a := on_i (inode_at i) in
  if di_type (i_di a) =? DIRECTORY then on_i (iput i) ;; ret (-1) else
  (if negb (has mode O_APPEND) && (has mode O_WRONLY || has mode O_RDWR) then
     on_i (itrunc i) ;; on_i (iupdate i)
   else ret tt) ;;
  let! f := on_k falloc in
  let! a := on_i (inode_at i) in
  let! v := on_k (file_at f) in
  on_k (put_file f (MkFile mode (if di_type (i_di a) =? CHAR then DEVICE else INODE) (f_refc v)
          (if has mode O_APPEND then di_fsize (i_di a) else 0) (Some i))) ;;
  let! fs := fs_get in
  put_fd f ;;
  fs_mod move_fdi ;;
  ret (fs_fdx fs).
Definition sys_open (a0 a1 : Z) : M sst Z :=
  if a0 =? 0 then ret (-1) else
  let! path := fetch_path a0 in
  match path with
  | None => ret (-1)
  | Some path =>
    let mode := i32 a1 in
    if has mode O_RDONLY && has mode O_WRONLY && negb (has mode O_RDWR) then ret (-1) else
    let! i := lookup_path path in
    match i with
    | Some i => open_inode i mode
    | None =>
      if has mode O_CREAT then
        let! r := create path REGULAR (-1) in
        if r <? 0 then ret r else
        let! i := lookup_path path in
        let! i := deref (λ _, i) in
        open_inode i mode
      else ret (-1)
    end
  end.
Definition sys_dup (a0 : Z) : M sst Z :=
  let! f := file_of (i32 a0) in
  match f with
  | None => ret (-1)
  | Some f =>
    let! fs := fs_get in
    on_k (fdup f) ;;
    put_fd f ;;
    fs_mod move_fdi ;;
    ret (fs_fdx fs)
  end.
(** [min(fd, fdx)] compares an [int] that is an index of the table with a [u32]. *)
Definition sys_close (a0 : Z) : M sst Z :=
  let fd := i32 a0 in
  let! f := file_of fd in
  match f with
  | None => ret (-1)
  | Some f =>
    on_k (fclose f) ;;
    fs_mod (λ fs, set_fdx (cmin fd (fs_fdx fs)) (set_files (<[Z.to_nat fd := None]> (fs_files fs)) fs)) ;;
    ret 0
  end.
Definition sys_link (a0 a1 : Z) : M sst Z :=
  if (a0 =? 0) || (a1 =? 0) then ret (-1) else
  let! oldpath := fetch_path a0 in
  match oldpath with None => ret (-1) | Some oldpath =>
  let! newpath := fetch_path a1 in
  match newpath with None => ret (-1) | Some newpath =>
  let! i := lookup_path newpath in
  match i with Some i => on_i (iput i) ;; ret (-1) | None =>
  let! i := lookup_path oldpath in
  match i with None => ret (-1) | Some i =>
  let! a := on_i (inode_at i) in
  if negb (di_type (i_di a) =? REGULAR) then on_i (iput i) ;; ret (-1) else
  on_i (mod_inode i (set_di (λ di, set_nlink (u32 (di_nlink di + 1)) di))) ;;
  on_i (iupdate i) ;;
  on_i (iput i) ;;
  let! (ppath, name) := split newpath DLENGTH in
  let! p := lookup_path ppath in
  let! p := deref (λ _, p) in
  on_i (dentry_add p (i_inum a) name) ;;
  on_i (iput p) ;;
  ret 0
  end end end end.
Definition sys_unlink (a0 : Z) : M sst Z :=
  if a0 =? 0 then ret (-1) else
  let! path := fetch_path a0 in
  match path with None => ret (-1) | Some path =>
  let! i := lookup_path path in
  match i with None => ret (-1) | Some i =>
  let! a := on_i (inode_at i) in
  if negb (di_type (i_di a) =? REGULAR) then on_i (iput i) ;; ret (-1) else
  on_i (mod_inode i (set_di (λ di, set_nlink (u32 (di_nlink di - 1)) di))) ;;
  let! a := on_i (inode_at i) in
  (if di_nlink (i_di a) =? 0 then on_i (ifree i) else on_i (iupdate i)) ;;
  on_i (iput i) ;;
  let! (ppath, name) := split path DLENGTH in
  let! p := lookup_path ppath in
  let! p := deref (λ _, p) in
  on_i (dentry_del p name) ;;
  on_i (iupdate p) ;;
  on_i (iput p) ;;
  ret 0
  end end.
Definition sys_mkdir (a0 : Z) : M sst Z :=
  if a0 =? 0 then ret (-1) else
  let! path := fetch_path a0 in
  match path with None => ret (-1) | Some path => create path DIRECTORY (-1) end.
Definition sys_rmdir (a0 : Z) : M sst Z :=
  if a0 =? 0 then ret (-1) else
  let! path := fetch_path a0 in
  match path with None => ret (-1) | Some path =>
  let! c := lookup_path path in
  match c with None => ret (-1) | Some c =>
  let! a := on_i (inode_at c) in
  if negb (di_type (i_di a) =? DIRECTORY) then ret (-1) else
  let! sb := on_i (sb_of c) in
  let! e := on_i (iblock_at c 0) in
  let! b := on_i (lift (bread (sb_dev sb) e)) in
  let! d := on_i (data_of b) in
  if negb (dt_cnt d =? 2) then on_i (lift (brelse b)) ;; ret (-1) else
  on_i (lift (brelse b)) ;;
  on_i (iput c) ;;
  let! (pdir, name) := split path MAX_PATH_LENGTH in
  let! p := lookup_path pdir in
  let! p := deref (λ _, p) in
  on_i (dentry_del p name) ;;
  on_i (mod_inode p (set_di (λ di, set_nlink (u32 (di_nlink di - 1)) di))) ;;
  on_i (iupdate p) ;;
  on_i (iput p) ;;
  ret 0
  end end.
Definition sys_chdir (a0 : Z) : M sst Z :=
  if a0 =? 0 then ret (-1) else
  let! path := fetch_path a0 in
  match path with None => ret (-1) | Some path =>
  let! i := lookup_path path in
  match i with None => ret (-1) | Some i =>
  let! cwd := deref (λ s, fs_cwd s.2) in
  on_i (iput cwd) ;;
  fs_mod (set_cwd (Some i)) ;;
  ret 0
  end end.
Definition set_pipe_file (f : optr) (mode : Z) (p : nat) : M (@kst S U) unit :=
  let! v := file_at f in put_file f (MkFile mode PIPE (f_refc v) (f_off v) (Some p)).
Definition sys_pipe (a0 : Z) : M sst Z :=
  if a0 =? 0 then ret (-1) else
  let! p := on_p pipealloc in
  let! rf := on_k falloc in
  let! wf := on_k falloc in
  on_k (set_pipe_file rf O_RDONLY p) ;;
  on_k (set_pipe_file wf O_WRONLY p) ;;
  put_fd rf ;;
  let! fs := fs_get in
  on_p (to_user a0 (le_split 4 (fs_fdx fs))) ;;
  fs_mod move_fdi ;;
  put_fd rf ;;
  let! fs := fs_get in
  on_p (to_user (a0 + 4) (le_split 4 (fs_fdx fs))) ;;
  fs_mod move_fdi ;;
  ret 0.
End sysfs.

(** ** The descriptor table *)

(** Every entry is taken. *)
Definition fd_full (fs : fs_struct) : Prop := ∀ j, fs_files fs !! j ≠ Some None.
(** [fdx] is the least free descriptor, while there is one. *)
Record fd_inv (fs : fs_struct) : Prop := {
  fd_len : length (fs_files fs) = NFILE;
  fd_range : 0 ≤ fs_fdx fs < Z.of_nat NFILE;
  fd_least j : (j < Z.to_nat (fs_fdx fs))%nat → fs_files fs !! j ≠ Some None;
  fd_free : fs_files fs !! Z.to_nat (fs_fdx fs) = Some None ∨ fd_full fs;
}.
(** [files[fdx] = f; move_fdi]. *)
Definition fd_put (f : optr) (fs : fs_struct) : fs_struct :=
  move_fdi (set_files (<[Z.to_nat (fs_fdx fs) := Some f]> (fs_files fs)) fs).
Definition fd_clear (fd : Z) (fs : fs_struct) : fs_struct :=
  set_fdx (cmin fd (fs_fdx fs)) (set_files (<[Z.to_nat fd := None]> (fs_files fs)) fs).

Lemma fs0_inv : fd_inv fs0.
Proof. split; [done|by split|cbn; lia|by left]. Qed.
Lemma fdi_loop_spec l i : match fdi_loop l i with
  | Some k => i ≤ k ∧ l !! Z.to_nat (k - i) = Some None ∧ ∀ j, (j < Z.to_nat (k - i))%nat → l !! j ≠ Some None
  | None => ∀ j, l !! j ≠ Some None
  end.
Proof.
  revert i. induction l as [|[f|] l IH]; intros i; cbn [fdi_loop]; [done| |].
  - specialize (IH (i + 1)). destruct (fdi_loop l (i + 1)) as [k|].
    + destruct IH as (H1 & H2 & H3). replace (Z.to_nat (k - i)) with (S (Z.to_nat (k - (i + 1)))) by lia.
      split; [lia|]. split; [done|]. intros [|j] Hj; [done|]. apply H3. lia.
    + intros [|j]; [done|]. apply IH.
  - rewrite Z.sub_diag. split; [lia|]. split; [done|]. cbn. lia.
Qed.
(** [move_fdi] goes to the next free entry. *)
Lemma move_fdi_inv fs : length (fs_files fs) = NFILE → 0 ≤ fs_fdx fs < Z.of_nat NFILE →
  (∀ j, (j < Z.to_nat (fs_fdx fs))%nat → fs_files fs !! j ≠ Some None) → fd_inv (move_fdi fs).
Proof.
  intros Hl Hr Hlt. unfold move_fdi.
  pose proof (fdi_loop_spec (drop (Z.to_nat (fs_fdx fs)) (fs_files fs)) (fs_fdx fs)) as H.
  destruct (fdi_loop _ _) as [k|].
  - destruct H as (H1 & H2 & H3). rewrite lookup_drop in H2. replace (_ + _)%nat with (Z.to_nat k) in H2 by lia.
    pose proof (lookup_lt_Some _ _ _ H2). split; cbn [set_fdx fs_files fs_fdx]; [done|lia| |by left].
    intros j Hj. destruct (decide (j < Z.to_nat (fs_fdx fs))%nat); [by apply Hlt|].
    specialize (H3 (j - Z.to_nat (fs_fdx fs))%nat ltac:(lia)). rewrite lookup_drop in H3.
    by replace (Z.to_nat (fs_fdx fs) + (j - Z.to_nat (fs_fdx fs)))%nat with j in H3 by lia.
  - assert (Hf : fd_full fs).
    { intros j. destruct (decide (j < Z.to_nat (fs_fdx fs))%nat); [by apply Hlt|].
      specialize (H (j - Z.to_nat (fs_fdx fs))%nat). rewrite lookup_drop in H.
      by replace (Z.to_nat (fs_fdx fs) + (j - Z.to_nat (fs_fdx fs)))%nat with j in H by lia. }
    split; [done|done|done|by right].
Qed.
Lemma move_fdi_files fs : fs_files (move_fdi fs) = fs_files fs.
Proof. unfold move_fdi. by destruct (fdi_loop _ _). Qed.
Lemma fd_put_spec f fs : fd_inv fs → fd_inv (fd_put f fs) ∧
  fs_files (fd_put f fs) = <[Z.to_nat (fs_fdx fs) := Some f]> (fs_files fs) ∧ fs_cwd (fd_put f fs) = fs_cwd fs.
Proof.
  intros [H1 H2 H3 H4]. unfold fd_put. rewrite move_fdi_files. split_and!; [|done|].
  - apply move_fdi_inv; cbn [set_files fs_files fs_fdx]; [by rewrite length_insert|done|].
    intros j Hj. rewrite list_lookup_insert_ne by lia. by apply H3.
  - unfold move_fdi. by destruct (fdi_loop _ _).
Qed.
Lemma fd_clear_inv fd fs f : fd_inv fs → file_slot fd fs = Some (Some f) →
  fs_files fs !! Z.to_nat (fs_fdx fs) = Some None ∨ fd ≤ fs_fdx fs → fd_inv (fd_clear fd fs).
Proof.
  intros [H1 H2 H3 H4] E Hc. unfold file_slot in E. destruct (Z.ltb_spec fd 0); [done|].
  pose proof (lookup_lt_Some _ _ _ E) as Hlt. unfold fd_clear. rewrite cmin_min.
  split; cbn [set_files set_fdx fs_files fs_fdx]; [by rewrite length_insert|lia| |].
  - intros j Hj. rewrite list_lookup_insert_ne by lia. apply H3. lia.
  - left. destruct (decide (Z.to_nat (Z.min fd (fs_fdx fs)) = Z.to_nat fd)) as [->|Hne]; [by apply list_lookup_insert_eq|].
    rewrite list_lookup_insert_ne by lia. replace (Z.min fd (fs_fdx fs)) with (fs_fdx fs) by lia.
    destruct Hc as [?|?]; [done|lia].
Qed.
(** In a full table a descriptor above [fdx] is closed: [fdx] stays on an entry in
    use, and the next file replaces it. *)
Lemma fd_clear_full fd fs f : fd_inv fs → fd_full fs → file_slot fd fs = Some (Some f) → fs_fdx fs < fd →
  let fs' := fd_clear fd fs in fs_fdx fs' = fs_fdx fs ∧ fs_files fs' !! Z.to_nat fd = Some None ∧
  ∃ g, fs_files fs' !! Z.to_nat (fs_fdx fs') = Some (Some g).
Proof.
  intros [H1 H2 H3 H4] Hf E Hlt fs'. unfold file_slot in E. destruct (Z.ltb_spec fd 0); [done|].
  pose proof (lookup_lt_Some _ _ _ E) as Hfd. unfold fs', fd_clear. rewrite cmin_min, Z.min_r by lia.
  cbn [set_files set_fdx fs_files fs_fdx]. split; [done|]. split; [by apply list_lookup_insert_eq|].
  rewrite list_lookup_insert_ne by lia. destruct (lookup_lt_is_Some_2 (fs_files fs) (Z.to_nat (fs_fdx fs))) as [[g|] Eg]; [lia|by exists g|].
  by destruct (Hf (Z.to_nat (fs_fdx fs))).
Qed.

(** ** The calls *)
Section sysfs_spec.
Context {S : Type} {IO : BlockIO S} {U : Type} {UM : UserMem U}.
Context (rfs : superblock) (devsw : list (@dev_op S U)) (ptb : Z).
Implicit Types (fs : fs_struct) (k : @kst S U) (s : S) (l : list inode) (x : (pmem * slots file) * (list pipe * U)) (st : slots file).

Lemma on_k_ok {A} (m : M (@kst S U) A) k fs a k' : m k = Ok a k' → on_k m (k, fs) = Ok a (k', fs).
Proof. intros E. unfold on_k, zoom. cbn [fst]. by rewrite E. Qed.
Lemma file_of_ok fd fs k f : file_slot fd fs = Some f → file_of fd (k, fs) = Ok f (k, fs).
Proof. intros E. unfold file_of, deref. cbn [snd]. by rewrite E. Qed.
Lemma put_fd_ok f k fs : fd_inv fs →
  put_fd f (k, fs) = Ok tt (k, set_files (<[Z.to_nat (fs_fdx fs) := Some f]> (fs_files fs)) fs).
Proof. intros [H1 H2 _ _]. unfold put_fd, update. cbn [snd fst]. rewrite decide_True; [done|]. lia. Qed.

(** A descriptor outside the table is used as an index. *)
Lemma file_of_range fd fs k : fd_inv fs → fd < 0 ∨ Z.of_nat NFILE ≤ fd → file_of fd (k, fs) = Fault (k, fs).
Proof.
  intros [H1 _ _ _] Hr. unfold file_of, deref, file_slot. cbn [snd].
  destruct (Z.ltb_spec fd 0); [done|]. rewrite lookup_ge_None_2; [done|lia].
Qed.
(** [sys_read] does not check the descriptor: one outside the table is used as an
    index and reads outside the array of files. *)
Theorem sys_read_range a0 a1 a2 fs k : fd_inv fs → i32 a0 < 0 ∨ Z.of_nat NFILE ≤ i32 a0 →
  sys_read devsw a0 a1 a2 (k, fs) = Fault (k, fs).
Proof. intros I Hr. unfold sys_read. apply bind_faulted. by apply file_of_range. Qed.

(** [fdup] counts one more user of the file. *)
Lemma fdup_spec f s l x : quiet (bmach s) → 1 ≤ f_refc (the_file x f) < 2 ^ 32 - 1 →
  fdup f ((s, l), x) =
    Ok tt ((bset_mach (touch (bmach s)) s, l), with_file x f (set_refc (f_refc (the_file x f) + 1) (the_file x f))).
Proof.
  intros Hq Hr. unfold fdup.
  assert (Eg : on_ist (U:=U) (onmach (spin_get (L_of f))) ((s, l), x) = Ok tt ((bset_mach (acq (L_of f) (bmach s)) s, l), x)).
  { apply on_ist_ok. unfold onmach, lift, zoom. cbn [fst snd]. by rewrite spin_get_free by auto with mach. }
  run Eg. run (file_at_ok (U:=U) f (bset_mach (acq (L_of f) (bmach s)) s, l) x).
  destruct (Z.ltb_spec (f_refc (the_file x f)) 1); [lia|]. rewrite u32_id by lia.
  run (put_file_ok (U:=U) f (set_refc (f_refc (the_file x f) + 1) (the_file x f)) (bset_mach (acq (L_of f) (bmach s)) s, l) x).
  apply on_ist_ok. unfold onmach, lift, zoom. cbn [fst snd]. rewrite bmach_set.
  rewrite spin_put_held by apply acq_held. rewrite rel_acq by auto with mach. by rewrite bset_mach_twice.
Qed.

(** [sys_dup] of an open descriptor returns the least free descriptor, which then
    names the same file, whose reference count grows by one; the invariant of the
    table is kept. *)
Theorem sys_dup_spec a0 f s l x fs : fd_inv fs → ¬ fd_full fs → file_slot (i32 a0) fs = Some (Some f) →
  quiet (bmach s) → 1 ≤ f_refc (the_file x f) < 2 ^ 32 - 1 →
  ∃ s', sys_dup a0 (((s, l), x), fs) =
    Ok (fs_fdx fs) (((s', l), with_file x f (set_refc (f_refc (the_file x f) + 1) (the_file x f))), fd_put f fs) ∧
    file_slot (fs_fdx fs) fs = Some None ∧ (∀ j, 0 ≤ j < fs_fdx fs → file_slot j fs ≠ Some None) ∧
    file_slot (fs_fdx fs) (fd_put f fs) = Some (Some f) ∧ fd_inv (fd_put f fs).
Proof.
  intros I Hnf E Hq Hr. pose proof I as [H1 H2 H3 H4]. exists (bset_mach (touch (bmach s)) s).
  destruct (fd_put_spec f fs I) as (I' & Ef & _). split; [|split_and!; [| | |done]].
  - unfold sys_dup. run (file_of_ok _ _ (((s, l), x)) _ E). unfold fs_get. go. cbn [snd].
    run (on_k_ok _ _ fs _ _ (fdup_spec f s l x Hq Hr)). run (put_fd_ok f (((bset_mach (touch (bmach s)) s, l),
      with_file x f (set_refc (f_refc (the_file x f) + 1) (the_file x f)))) fs I). unfold fs_mod. go. done.
  - unfold file_slot. destruct (Z.ltb_spec (fs_fdx fs) 0); [lia|]. by destruct H4.
  - intros j Hj. unfold file_slot. destruct (Z.ltb_spec j 0); [lia|]. apply H3. lia.
  - unfold file_slot. destruct (Z.ltb_spec (fs_fdx fs) 0); [lia|]. rewrite Ef. apply list_lookup_insert_eq. lia.
Qed.

(** *** [sys_pipe] *)

Lemma on_p_ok {A} (m : M (@pst U) A) s l (z : pmem * slots file) ps u fs a m' ps' u' : m (bmach s, (ps, u)) = Ok a (m', (ps', u')) →
  on_p m (((s, l), (z, (ps, u))), fs) = Ok a (((bset_mach m' s, l), (z, (ps', u'))), fs).
Proof. intros E. unfold on_p, on_k, on_pipe, zoom. cbn [fst snd]. by rewrite E. Qed.
Lemma set_pipe_file_ok f mode j (i : @ist S) p st (y : list pipe * U) :
  set_pipe_file f mode j (i, ((p, st), y)) =
    Ok tt (i, ((p, store_obj file0 f (MkFile mode PIPE (f_refc (c_obj (chunk_of file0 st f)))
                                       (f_off (c_obj (chunk_of file0 st f))) (Some j)) st), y)).
Proof. done. Qed.
(** The state behind the two files of a pipe. *)
Definition pipe_files (rf wf : optr) (j : nat) st : Prop :=
  (∃ v, c_obj (chunk_of file0 st rf) = v ∧ f_mode v = O_RDONLY ∧ f_type v = PIPE ∧ f_obj v = Some j) ∧
  (∃ v, c_obj (chunk_of file0 st wf) = v ∧ f_mode v = O_WRONLY ∧ f_type v = PIPE ∧ f_obj v = Some j).
Lemma pipe_files_spec rf wf j st : rf ≠ wf → ∀ v w,
  let st1 := store_obj file0 rf (MkFile O_RDONLY PIPE (f_refc v) (f_off v) (Some j)) st in
  pipe_files rf wf j (store_obj file0 wf (MkFile O_WRONLY PIPE (f_refc w) (f_off w) (Some j)) st1).
Proof.
  intros Hne v w st1. split; eexists.
  - split; [reflexivity|]. destruct (store_obj_same file0 wf (MkFile O_WRONLY PIPE (f_refc w) (f_off w) (Some j)) st1 rf) as (_ & _ & ->).
    rewrite decide_False by done. unfold st1.
    destruct (store_obj_same file0 rf (MkFile O_RDONLY PIPE (f_refc v) (f_off v) (Some j)) st rf) as (_ & _ & ->).
    by rewrite decide_True.
  - split; [reflexivity|]. destruct (store_obj_same file0 wf (MkFile O_WRONLY PIPE (f_refc w) (f_off w) (Some j)) st1 wf) as (_ & _ & ->).
    by rewrite decide_True.
Qed.
Lemma file_slot_put f fs fd g : fd_inv fs → file_slot fd (fd_put f fs) = Some (Some g) → g = f ∨ file_slot fd fs = Some (Some g).
Proof.
  intros I. destruct (fd_put_spec f fs I) as (_ & E & _). unfold file_slot. rewrite E. destruct (fd <? 0); [done|].
  destruct (decide (Z.to_nat fd = Z.to_nat (fs_fdx fs))) as [->|Hne].
  - rewrite list_lookup_insert_eq; [intros [= ->]; by left|]. rewrite (fd_len _ I). pose proof (fd_range _ I). lia.
  - rewrite list_lookup_insert_ne by done. by right.
Qed.

(** Both descriptors of a new pipe name the reading end; no descriptor names the
    writing end. *)
Lemma sys_pipe_spec a0 s l p st ps u tl fs j q : a0 ≠ 0 → quiet (bmach s) → files_ok tl p st → fd_inv fs →
  (∀ f, ¬ fd_full (fd_put f fs)) → (∀ fd f, file_slot fd fs = Some (Some f) → live NFILE_CHUNK file0 st f) →
  length ps = NPIPE → first_free ps j q → accessible u a0 8 →
  (∃ rf wf s' p' st' u', let fs' := fd_put rf (fd_put rf fs) in
    sys_pipe a0 (((s, l), ((p, st), (ps, u))), fs) =
      Ok 0 (((s', l), ((p', st'), (<[j := MkPipe 0 0 2 (pbuf q)]> ps, u'))), fs') ∧
    pipe_files rf wf j st' ∧ file_slot (fs_fdx fs) fs' = Some (Some rf) ∧
    file_slot (fs_fdx (fd_put rf fs)) fs' = Some (Some rf) ∧ fs_fdx fs ≠ fs_fdx (fd_put rf fs) ∧
    ∀ fd, file_slot fd fs' ≠ Some (Some wf)) ∨
  (∃ msg z, sys_pipe a0 (((s, l), ((p, st), (ps, u))), fs) = Panic msg z).
Proof.
  intros Ha Hq If Ifd Hnf Hlive Hl Hj Hu. unfold sys_pipe. rewrite (proj2 (Z.eqb_neq _ _) Ha).
  run (on_p_ok _ s l (p, st) ps u fs _ _ _ _ (pipealloc_spec j (bmach s) ps u q Hq Hl Hj)).
  set (s1 := bset_mach (touch (bmach s)) s). assert (Es1 : bmach s1 = touch (bmach s)) by apply bmach_set.
  assert (Q1 : quiet (bmach s1)) by (rewrite Es1; by apply quiet_touch).
  assert (Et1 : bset_mach (touch (bmach s1)) s1 = s1) by (rewrite Es1, touch_touch; apply bset_mach_twice).
  assert (Em1 : bset_mach (bmach s1) s1 = s1) by (rewrite Es1; apply bset_mach_twice).
  set (ps' := <[j := _]> ps).
  destruct (falloc_spec s1 l p st (ps', u) tl Q1 If) as [(rf & p1 & st1 & E1 & If1 & N1)|(msg & z & E1)].
  2: { right. do 2 eexists. apply bind_panicked. unfold on_k, zoom. cbn [fst snd]. by rewrite E1. }
  rewrite Et1 in E1. run (on_k_ok _ _ fs _ _ E1).
  destruct (falloc_spec s1 l p1 st1 (ps', u) tl Q1 If1) as [(wf & p2 & st2 & E2 & If2 & N2)|(msg & z & E2)].
  2: { right. do 2 eexists. apply bind_panicked. unfold on_k, zoom. cbn [fst snd]. by rewrite E2. }
  rewrite Et1 in E2. run (on_k_ok _ _ fs _ _ E2). left.
  destruct N1 as (D1 & L1 & _ & _ & O1), N2 as (D2 & _).
  assert (Hne : rf ≠ wf) by (by intros ->).
  run (on_k_ok _ _ fs _ _ (set_pipe_file_ok rf O_RDONLY j (s1, l) p2 st2 (ps', u))).
  set (st3 := store_obj file0 rf _ st2).
  run (on_k_ok _ _ fs _ _ (set_pipe_file_ok wf O_WRONLY j (s1, l) p2 st3 (ps', u))).
  set (st4 := store_obj file0 wf _ st3).
  run (put_fd_ok rf (((s1, l), ((p2, st4), (ps', u)))) fs Ifd). unfold fs_get. go. cbn [snd set_files fs_fdx].
  destruct (to_user_ok u a0 (le_split 4 (fs_fdx fs)) (bmach s1) ps') as (u1 & E3 & S3).
  { rewrite length_le_split. eapply accessible_sub; [exact Hu|lia|lia]. }
  run (on_p_ok _ s1 l (p2, st4) ps' u (set_files (<[Z.to_nat (fs_fdx fs) := Some rf]> (fs_files fs)) fs) _ _ _ _ E3).
  rewrite Em1. unfold fs_mod. go. cbn [fst snd]. fold (fd_put rf fs).
  destruct (fd_put_spec rf fs Ifd) as (I1 & F1 & _).
  run (put_fd_ok rf (((s1, l), ((p2, st4), (ps', u1)))) (fd_put rf fs) I1). go. cbn [snd set_files fs_fdx].
  destruct (to_user_ok u1 (a0 + 4) (le_split 4 (fs_fdx (fd_put rf fs))) (bmach s1) ps') as (u2 & E4 & S4).
  { rewrite length_le_split. eapply stored_accessible; [exact S3|]. eapply accessible_sub; [exact Hu|lia|lia]. }
  run (on_p_ok _ s1 l (p2, st4) ps' u1 (set_files (<[Z.to_nat (fs_fdx (fd_put rf fs)) := Some rf]> (fs_files (fd_put rf fs)))
     (fd_put rf fs)) _ _ _ _ E4). rewrite Em1. go. cbn [fst snd]. fold (fd_put rf (fd_put rf fs)).
  exists rf, wf, s1, p2, st4, u2. split; [done|]. split; [by apply pipe_files_spec|].
  destruct (fd_put_spec rf (fd_put rf fs) I1) as (I2 & F2 & _).
  pose proof (fd_range _ Ifd). pose proof (fd_range _ I1). pose proof (fd_len _ Ifd). pose proof (fd_len _ I1).
  assert (Hfree : fs_files (fd_put rf fs) !! Z.to_nat (fs_fdx (fd_put rf fs)) = Some None).
  { destruct (fd_free _ I1) as [?|Hf]; [done|]. by destruct (Hnf rf). }
  assert (Hx : fs_fdx fs ≠ fs_fdx (fd_put rf fs)).
  { intros Ex. rewrite <- Ex, F1, list_lookup_insert_eq in Hfree by lia. done. }
  split_and!.
  - unfold file_slot. destruct (Z.ltb_spec (fs_fdx fs) 0); [lia|].
    rewrite F2, list_lookup_insert_ne by lia. rewrite F1. apply list_lookup_insert_eq. lia.
  - unfold file_slot. destruct (Z.ltb_spec (fs_fdx (fd_put rf fs)) 0); [lia|]. rewrite F2. apply list_lookup_insert_eq. lia.
  - done.
  - intros fd Hfd. apply file_slot_put in Hfd as [->|Hfd]; [done| |done]. apply file_slot_put in Hfd as [->|Hfd]; [done| |done].
    apply Hlive in Hfd. apply D2. apply O1; [|done]. intros ->. by apply D1.
Qed.
(** Writing to a descriptor of a file opened for reading fails. *)
Lemma sys_write_readonly a0 a1 a2 k fs f : file_slot (i32 a0) fs = Some (Some f) → f_mode (c_obj (chunk_of file0 k.2.1.2 f)) = O_RDONLY →
  sys_write devsw a0 a1 a2 (k, fs) = Ok (-1) (k, fs).
Proof.
  intros E Em. unfold sys_write. run (file_of_ok (i32 a0) fs k _ E).
  assert (Ek : file_at f k = Ok (c_obj (chunk_of file0 k.2.1.2 f)) k) by done. run (on_k_ok _ _ fs _ _ Ek). rewrite Em. done.
Qed.
End sysfs_spec.

(** ** The calls on the descriptor table *)

(** The calls of [syscall_table] on files, with the registers they read. *)
Inductive fs_call :=
| C_read (a0 a1 a2 : Z) | C_write (a0 a1 a2 : Z) | C_lseek (a0 a1 : Z) | C_mknod (a0 a1 : Z) | C_open (a0 a1 : Z)
| C_dup (a0 : Z) | C_close (a0 : Z) | C_link (a0 a1 : Z) | C_unlink (a0 : Z) | C_mkdir (a0 : Z) | C_rmdir (a0 : Z)
| C_chdir (a0 : Z) | C_pipe (a0 : Z).

Section calls.
Context {S : Type} {IO : BlockIO S} {U : Type} {UM : UserMem U}.
Context (rfs : superblock) (devsw : list (@dev_op S U)) (ptb : Z).

Definition run_call (c : fs_call) : M (@sst S U) Z :=
  match c with
  | C_read a0 a1 a2 => sys_read devsw a0 a1 a2
  | C_write a0 a1 a2 => sys_write devsw a0 a1 a2
  | C_lseek a0 a1 => sys_lseek a0 a1
  | C_mknod a0 a1 => sys_mknod rfs devsw ptb a0 a1
  | C_open a0 a1 => sys_open rfs devsw ptb a0 a1
  | C_dup a0 => sys_dup a0
  | C_close a0 => sys_close a0
  | C_link a0 a1 => sys_link rfs ptb a0 a1
  | C_unlink a0 => sys_unlink rfs ptb a0
  | C_mkdir a0 => sys_mkdir rfs devsw ptb a0
  | C_rmdir a0 => sys_rmdir rfs ptb a0
  | C_chdir a0 => sys_chdir rfs ptb a0
  | C_pipe a0 => sys_pipe a0
  end.

(** What leaves the table as it is. *)
Definition keeps_fs {A} (f : M (@sst S U) A) : Prop := ∀ s a s', f s = Ok a s' → s'.2 = s.2.
Lemma fs_ret {A} (a : A) : keeps_fs (ret a).
Proof. by intros s b s' [= _ ->]. Qed.
Lemma fs_bind {A B} (f : M (@sst S U) A) (g : A → M (@sst S U) B) : keeps_fs f → (∀ a, keeps_fs (g a)) → keeps_fs (bind f g).
Proof. intros Hf Hg s b s' (a & s1 & E1 & E2)%bind_ok_inv. by rewrite (Hg _ _ _ _ E2), (Hf _ _ _ E1). Qed.
Lemma fs_on_k {A} (f : M (@kst S U) A) : keeps_fs (on_k f).
Proof. intros s a s' E. unfold on_k, zoom in E. destruct (f s.1); try discriminate E. by injection E as _ <-. Qed.
Lemma fs_deref {A} (g : @sst S U → option A) : keeps_fs (deref g).
Proof. intros s a s' E. unfold deref in E. destruct (g s); try discriminate E. by injection E as _ <-. Qed.
Lemma fs_gets {A} (g : @sst S U → A) : keeps_fs (gets g).
Proof. by intros s b s' [= _ ->]. Qed.
Lemma fs_switch {A} : keeps_fs (λ s, Switch s : outcome (@sst S U) A).
Proof. by intros s a s' E. Qed.
Ltac keeps_fs_tac := repeat first
  [ apply fs_bind; [|intros ?] | apply fs_on_k | apply fs_ret | apply fs_deref | apply fs_gets | apply fs_switch | case_match ].
Lemma fs_lookup path : keeps_fs (lookup_path rfs path).
Proof. unfold lookup_path, fs_get, on_i. keeps_fs_tac. Qed.
Lemma fs_fetch a : keeps_fs (fetch_path ptb a).
Proof. apply fs_on_k. Qed.
Lemma fs_split path n : keeps_fs (split path n).
Proof. apply fs_deref. Qed.
Lemma fs_create_type new parent type dev : keeps_fs (create_type devsw new parent type dev).
Proof. unfold create_type, on_i. keeps_fs_tac. Qed.
Ltac keeps_call := repeat first
  [ apply fs_bind; [|intros ?] | apply fs_on_k | apply fs_ret | apply fs_lookup | apply fs_fetch | apply fs_split | apply fs_create_type
  | apply fs_deref | apply fs_gets | apply fs_switch | case_match ].
Lemma fs_create path type dev : keeps_fs (create rfs devsw path type dev).
Proof. unfold create, on_i. keeps_call. Qed.

(** [files[fdx] = f; move_fdi] happened, and the old [fdx] is the result; or the call
    failed. *)
Definition took_fd (fs : fs_struct) (r : Z) (fs' : fs_struct) : Prop :=
  (r < 0 ∧ fs' = fs) ∨ (r = fs_fdx fs ∧ ∃ f, fs' = fd_put f fs).
Lemma put_fd_inv f (s : @sst S U) s' : put_fd f s = Ok tt s' → s'.2 = set_files (<[Z.to_nat (fs_fdx s.2) := Some f]> (fs_files s.2)) s.2.
Proof. unfold put_fd, update. case_decide; [|done]. by intros [= <-]. Qed.
(** The end of [sys_open] and [sys_dup]. *)
Lemma take_fd f (s : @sst S U) r s' : (let! fs := fs_get in put_fd f ;; fs_mod move_fdi ;; ret (fs_fdx fs)) s = Ok r s' →
  r = fs_fdx s.2 ∧ s'.2 = fd_put f s.2.
Proof.
  intros (fs & s1 & E1 & E)%bind_ok_inv. injection E1 as <- <-. apply bind_ok_inv in E as ([] & s2 & E2 & E).
  apply put_fd_inv in E2. unfold fs_mod in E. apply bind_ok_inv in E as ([] & s3 & E3 & E). injection E3 as <-. injection E as <- <-.
  cbn [snd]. by rewrite E2.
Qed.
(** Like [bind_ok_inv], through a part that keeps the table. *)
Lemma bind_keeps {A B} (f : M (@sst S U) A) (g : A → M (@sst S U) B) s b s' : keeps_fs f → bind f g s = Ok b s' →
  ∃ a s1, s1.2 = s.2 ∧ g a s1 = Ok b s'.
Proof. intros Hf (a & s1 & E1 & E2)%bind_ok_inv. exists a, s1. by rewrite (Hf _ _ _ E1). Qed.
Lemma open_inode_fd i mode (s s' : @sst S U) r : open_inode i mode s = Ok r s' → took_fd s.2 r s'.2.
Proof.
  unfold open_inode. intros (a & s1 & Es & E)%bind_keeps; [|apply fs_on_k]. rewrite <- Es. clear Es.
  destruct (di_type (i_di a) =? DIRECTORY).
  { left. apply bind_ok_inv in E as (? & s2 & E1 & E). injection E as <- <-. by rewrite (fs_on_k _ _ _ _ E1). }
  apply bind_keeps in E as (? & s2 & Es & E); [|unfold on_i; keeps_fs_tac]. rewrite <- Es. clear Es.
  apply bind_keeps in E as (f & s3 & Es & E); [|apply fs_on_k]. rewrite <- Es. clear Es.
  apply bind_keeps in E as (? & s4 & Es & E); [|apply fs_on_k]. rewrite <- Es. clear Es.
  apply bind_keeps in E as (? & s5 & Es & E); [|apply fs_on_k]. rewrite <- Es. clear Es.
  apply bind_keeps in E as (? & s6 & Es & E); [|apply fs_on_k]. rewrite <- Es. clear Es.
  apply take_fd in E as [-> ->]. right. split; [done|]. by exists f.
Qed.
Lemma sys_open_fd a0 a1 (s s' : @sst S U) r : sys_open rfs devsw ptb a0 a1 s = Ok r s' → took_fd s.2 r s'.2.
Proof.
  unfold sys_open. destruct (a0 =? 0); [intros [= <- <-]; by left|].
  intros ([path|] & s1 & Es & E)%bind_keeps; [|injection E as <- <-; left; by rewrite Es|apply fs_fetch]. rewrite <- Es. clear Es.
  destruct (_ && _ && _); [injection E as <- <-; by left|].
  apply bind_keeps in E as ([i|] & s2 & Es & E); [| |apply fs_lookup]; rewrite <- Es; clear Es; [by apply open_inode_fd in E|].
  destruct (has (i32 a1) O_CREAT); [|injection E as <- <-; by left].
  apply bind_keeps in E as (r1 & s3 & Es & E); [|apply fs_create]. rewrite <- Es. clear Es.
  destruct (Z.ltb_spec r1 0); [injection E as <- <-; by left|].
  apply bind_keeps in E as (i & s4 & Es & E); [|apply fs_lookup]. rewrite <- Es. clear Es.
  apply bind_keeps in E as (j & s5 & Es & E); [|apply fs_deref]. rewrite <- Es. by apply open_inode_fd in E.
Qed.
Lemma sys_dup_fd a0 (s s' : @sst S U) r : sys_dup a0 s = Ok r s' → took_fd s.2 r s'.2.
Proof.
  unfold sys_dup. intros ([f|] & s1 & Es & E)%bind_keeps; [|injection E as <- <-; left; by rewrite Es|apply fs_deref]. rewrite <- Es. clear Es.
  apply bind_ok_inv in E as (fs & s2 & E1 & E). injection E1 as <- <-.
  apply bind_keeps in E as (? & s3 & Es & E); [|apply fs_on_k].
  assert (E' : (let! fs := fs_get in put_fd f ;; fs_mod move_fdi ;; ret (fs_fdx fs)) s3 = Ok r s') by (cbn; rewrite Es; exact E).
  apply take_fd in E' as [-> ->]. rewrite <- Es. right. split; [done|]. by exists f.
Qed.
Lemma sys_close_fd a0 (s s' : @sst S U) r : sys_close a0 s = Ok r s' →
  (r < 0 ∧ s'.2 = s.2) ∨ (r = 0 ∧ ∃ f, file_slot (i32 a0) s.2 = Some (Some f) ∧ s'.2 = fd_clear (i32 a0) s.2).
Proof.
  unfold sys_close. intros (o & s1 & E1 & E)%bind_ok_inv. unfold file_of, deref in E1.
  destruct (file_slot (i32 a0) s.2) as [o'|] eqn:Ef; [|done]. injection E1 as -> <-. destruct o as [f|]; [|injection E as <- <-; by left].
  right. apply bind_keeps in E as (? & s2 & Es & E); [|apply fs_on_k]. unfold fs_mod in E.
  apply bind_ok_inv in E as (? & s3 & E3 & E). injection E3 as _ <-. injection E as <- <-. split; [done|]. exists f. split; [done|].
  cbn [snd]. by rewrite Es.
Qed.
Lemma sys_pipe_fd a0 (s s' : @sst S U) r : sys_pipe a0 s = Ok r s' → s'.2 = s.2 ∨ ∃ f, s'.2 = fd_put f (fd_put f s.2).
Proof.
  unfold sys_pipe. destruct (a0 =? 0); [intros [= _ <-]; by left|]. unfold on_p.
  intros (p & s1 & Es & E)%bind_keeps; [|apply fs_on_k]. rewrite <- Es. clear Es.
  apply bind_keeps in E as (f & s2 & Es & E); [|apply fs_on_k]. rewrite <- Es. clear Es.
  apply bind_keeps in E as (? & s3 & Es & E); [|apply fs_on_k]. rewrite <- Es. clear Es.
  apply bind_keeps in E as (? & s4 & Es & E); [|apply fs_on_k]. rewrite <- Es. clear Es.
  apply bind_keeps in E as (? & s5 & Es & E); [|apply fs_on_k]. rewrite <- Es. clear Es.
  apply bind_ok_inv in E as ([] & s6 & E6 & E). apply put_fd_inv in E6.
  apply bind_keeps in E as (? & s7 & Es & E); [|apply fs_gets]. rewrite <- Es in E6. clear Es.
  apply bind_keeps in E as (? & s8 & Es & E); [|apply fs_on_k]. rewrite <- Es in E6. clear Es.
  apply bind_ok_inv in E as (? & s9 & E9 & E). injection E9 as _ <-.
  apply bind_ok_inv in E as ([] & sa & Ea & E). apply put_fd_inv in Ea. cbn [snd] in Ea. rewrite E6 in Ea.
  apply bind_keeps in E as (? & sb & Es & E); [|apply fs_gets]. rewrite <- Es in Ea. clear Es.
  apply bind_keeps in E as (? & sc & Es & E); [|apply fs_on_k]. rewrite <- Es in Ea. clear Es.
  apply bind_ok_inv in E as (? & sd & Ed & E). injection Ed as _ <-. injection E as _ <-. right. exists f. cbn [snd]. by rewrite Ea.
Qed.
Lemma sys_chdir_fd a0 (s s' : @sst S U) r : sys_chdir rfs ptb a0 s = Ok r s' → fs_files s'.2 = fs_files s.2 ∧ fs_fdx s'.2 = fs_fdx s.2.
Proof.
  unfold sys_chdir. destruct (a0 =? 0); [by intros [= _ <-]|].
  intros ([path|] & s1 & Es & E)%bind_keeps; [|injection E as <- <-; by rewrite Es|apply fs_fetch]. rewrite <- Es. clear Es.
  apply bind_keeps in E as ([i|] & s2 & Es & E); [| |apply fs_lookup]; rewrite <- Es; clear Es; [|by injection E as <- <-].
  apply bind_keeps in E as (cwd & s3 & Es & E); [|apply fs_deref]. rewrite <- Es. clear Es.
  apply bind_keeps in E as (? & s4 & Es & E); [|apply fs_on_k]. rewrite <- Es. clear Es.
  apply bind_ok_inv in E as (? & s5 & E5 & E). injection E5 as _ <-. by injection E as <- <-.
Qed.
(** What a call does to the table. *)
Definition call_effect (c : fs_call) (fs : fs_struct) (r : Z) (fs' : fs_struct) : Prop :=
  match c with
  | C_open _ _ | C_dup _ => took_fd fs r fs'
  | C_close a0 => (r < 0 ∧ fs' = fs) ∨ (r = 0 ∧ ∃ f, file_slot (i32 a0) fs = Some (Some f) ∧ fs' = fd_clear (i32 a0) fs)
  | C_pipe _ => fs' = fs ∨ ∃ f, fs' = fd_put f (fd_put f fs)
  | _ => fs_files fs' = fs_files fs ∧ fs_fdx fs' = fs_fdx fs
  end.
Lemma run_call_effect c (s s' : @sst S U) r : run_call c s = Ok r s' → call_effect c s.2 r s'.2.
Proof.
  assert (Hk : keeps_fs (run_call c) → run_call c s = Ok r s' → fs_files s'.2 = fs_files s.2 ∧ fs_fdx s'.2 = fs_fdx s.2).
  { intros H E. by rewrite (H _ _ _ E). }
  destruct c; cbn [call_effect]; [apply Hk|apply Hk|apply Hk|apply Hk|idtac|idtac|idtac|apply Hk|apply Hk|apply Hk|apply Hk|idtac|idtac]; cbn [run_call].
  - unfold sys_read, device_of, on_i, on_p, pipe_done. keeps_call.
  - unfold sys_write, device_of, on_i, on_p, pipe_done. keeps_call.
  - unfold sys_lseek. keeps_call.
  - unfold sys_mknod. destruct (a0 =? 0); [apply fs_ret|]. apply fs_bind; [apply fs_fetch|]. intros [path|]; [apply fs_create|apply fs_ret].
  - apply sys_open_fd.
  - apply sys_dup_fd.
  - apply sys_close_fd.
  - unfold sys_link, on_i. keeps_call.
  - unfold sys_unlink, on_i. keeps_call.
  - unfold sys_mkdir. destruct (a0 =? 0); [apply fs_ret|]. apply fs_bind; [apply fs_fetch|]. intros [path|]; [apply fs_create|apply fs_ret].
  - unfold sys_rmdir, on_i. keeps_call.
  - apply sys_chdir_fd.
  - apply sys_pipe_fd.
Qed.
End calls.
(** The invariant of the table for two tables with the same files and [fdx]. *)
Lemma fd_inv_eq fs fs' : fs_files fs' = fs_files fs → fs_fdx fs' = fs_fdx fs → fd_inv fs → fd_inv fs'.
Proof. intros E1 E2 [H1 H2 H3 H4]. split; unfold fd_full in *; by rewrite ?E1, ?E2. Qed.
Lemma fd_put_full f fs : fd_inv fs → fd_full fs → fd_full (fd_put f fs).
Proof.
  intros I Hf j. destruct (fd_put_spec f fs I) as (_ & -> & _). destruct (decide (j = Z.to_nat (fs_fdx fs))) as [->|Hne].
  - rewrite list_lookup_insert_eq; [done|]. rewrite (fd_len _ I). pose proof (fd_range _ I). lia.
  - rewrite list_lookup_insert_ne by done. apply Hf.
Qed.
