(* ===== verification/Tid.v ===== *)
(** Task identifiers (kernel/task/task.c): the bit map [tidmap]. *)
From S2P Require Import Prelude Machine.

(** [tidmap] has [1 + NPROC / sizeof(u32) / 8] words; [sizeof(u32)] is 4. *)
Definition NTIDW : nat := 1 + NPROC / 4 / 8.
Definition tidmap0 : list Z := replicate NTIDW 0.
Definition FULL : Z := 0xFFFFFFFF.

Definition TM : Type → Type := M (mach * list Z).
Definition word_at (i : nat) : TM Z := deref (λ s, s.2 !! i).
Definition put_word (i : nat) (v : Z) : TM unit := modify (λ s, (s.1, <[i := v]> s.2)).
(** [1U << j] *)
Definition bit (j : Z) : Z := u32 (Z.shiftl 1 j).

Definition free_tid (tid : Z) : TM unit :=
  onm (spin_get L_ti) ;;
  let i := Z.to_nat ((tid - 1) / 4) in
  let! w := word_at i in
  put_word i (Z.land w (u32 (Z.lnot (bit ((tid - 1) mod 4))))) ;;
  onm (spin_put L_ti).
(** The first loop of [alloc_tid]: the index where it stops. *)
Fixpoint tid_word (l : list Z) (i : nat) : nat :=
  match l with
  | [] => i
  | w :: l => if negb (w =? FULL) then i else tid_word l (S i)
  end.
(** The second loop, [n] bits left: the first clear bit. *)
Fixpoint tid_bit (w : Z) (n : nat) : option Z :=
  match n with
  | O => None
  | S n' => let j := 32 - Z.of_nat n in if Z.land w (bit j) =? 0 then Some j else tid_bit w n'
  end.
(** The result is not initialised when no bit is clear. *)
Definition alloc_tid : TM Z :=
  onm (spin_get L_ti) ;;
  let! i := gets (λ s, tid_word s.2 0) in
  let! w := word_at i in
  let! j := deref (λ _, tid_bit w 32) in
  put_word i (Z.lor w (bit j)) ;;
  onm (spin_put L_ti) ;;
  ret (u16 (Z.of_nat i * 4 + j + 1)).

(** ** Bits *)

Lemma bit_spec j k : 0 ≤ j < 32 → 0 ≤ k → Z.testbit (bit j) k = bool_decide (k = j).
Proof.
  intros Hj Hk. unfold bit. assert (2 ^ j < 2 ^ 32) by (apply Z.pow_lt_mono_r; lia).
  rewrite Z.shiftl_1_l, u32_id by (split; [apply Z.pow_nonneg|]; lia).
  rewrite Z.pow2_bits_eqb by lia. destruct (Z.eqb_spec j k), (bool_decide_reflect (k = j)); (done || lia).
Qed.
Lemma land_bit w j : 0 ≤ j < 32 → (Z.land w (bit j) =? 0) = negb (Z.testbit w j).
Proof.
  intros Hj. destruct (Z.eqb_spec (Z.land w (bit j)) 0) as [E|E].
  - pose proof (f_equal (λ z, Z.testbit z j) E) as H. cbn in H. rewrite Z.land_spec, bit_spec, Z.bits_0 in H by lia.
    rewrite bool_decide_eq_true_2 in H by done. rewrite andb_true_r in H. by rewrite H.
  - destruct (Z.testbit w j) eqn:Ew; [done|]. destruct E. apply Z.bits_inj'. intros k Hk.
    rewrite Z.land_spec, bit_spec, Z.bits_0 by lia. case_bool_decide as Hkj; [subst k; by rewrite Ew|by rewrite andb_false_r].
Qed.
(** The loop finds the least clear bit. *)
Lemma tid_bit_spec w n : (n ≤ 32)%nat → match tid_bit w n with
  | Some j => 32 - Z.of_nat n ≤ j < 32 ∧ Z.testbit w j = false ∧ ∀ k, 32 - Z.of_nat n ≤ k < j → Z.testbit w k = true
  | None => ∀ k, 32 - Z.of_nat n ≤ k < 32 → Z.testbit w k = true
  end.
Proof.
  induction n as [|n IH]; intros Hn; cbn [tid_bit]; [lia|]. set (j0 := 32 - Z.of_nat (S n)).
  rewrite land_bit by lia. destruct (Z.testbit w j0) eqn:E; cbn [negb].
  - specialize (IH ltac:(lia)). assert (Hs : ∀ k, j0 ≤ k → k = j0 ∨ 32 - Z.of_nat n ≤ k) by (intros; lia).
    destruct (tid_bit w n) as [j|].
    + destruct IH as (H1 & H2 & H3). split; [lia|]. split; [done|]. intros k Hk. destruct (Hs k) as [->|]; [lia|done|]. apply H3. lia.
    + intros k Hk. destruct (Hs k) as [->|]; [lia|done|]. apply IH. lia.
  - split; [lia|]. split; [done|]. lia.
Qed.
Lemma full_bits w : 0 ≤ w < 2 ^ 32 → (∀ k, 0 ≤ k < 32 → Z.testbit w k = true) → w = FULL.
Proof.
  intros Hw Hb. change FULL with (Z.ones 32). apply Z.bits_inj'. intros k Hk. destruct (Z.ltb_spec k 32).
  - rewrite Z.ones_spec_low by lia. by apply Hb.
  - rewrite Z.ones_spec_high by lia. rewrite <- (Z.mod_small w (2 ^ 32)) by lia. by apply Z.mod_pow2_bits_high.
Qed.
Lemma tid_word_spec l i : let r := tid_word l i in (i ≤ r ≤ i + length l)%nat ∧
  (∀ k w, (k < r - i)%nat → l !! k = Some w → w = FULL) ∧
  ((r < i + length l)%nat → ∃ w, l !! (r - i)%nat = Some w ∧ w ≠ FULL).
Proof.
  revert i. induction l as [|w l IH]; intros i; cbn [tid_word length]; [split_and!; [lia|lia|lia|lia]|].
  destruct (Z.eqb_spec w FULL) as [->|Hw]; cbn [negb].
  - destruct (IH (S i)) as (H1 & H2 & H3). set (r := tid_word l (S i)) in *. split; [lia|]. split.
    + intros [|k] w Hk E; [by injection E as <-|]. apply (H2 k w); [lia|done].
    + intros Hr. destruct H3 as (w & E & Hw); [lia|]. exists w. by replace (r - i)%nat with (S (r - S i)) by lia.
  - rewrite Nat.sub_diag. split; [lia|]. split; [lia|]. intros _. by exists w.
Qed.

(** [alloc_tid] marks the first clear bit; bit [j] of word [i] is identifier
    [4 * i + j + 1]. *)
Lemma alloc_tid_spec m l : quiet m → Forall (λ w, 0 ≤ w < 2 ^ 32) l → (length l < 100)%nat → (∃ k w, l !! k = Some w ∧ w ≠ FULL) →
  ∃ i w j, alloc_tid (m, l) = Ok (4 * Z.of_nat i + j + 1) (touch m, <[i := Z.lor w (bit j)]> l) ∧
    l !! i = Some w ∧ 0 ≤ j < 32 ∧ Z.testbit w j = false ∧
    (∀ k, 0 ≤ k < j → Z.testbit w k = true) ∧ (∀ k w, (k < i)%nat → l !! k = Some w → w = FULL).
Proof.
  intros Hq Hw Hl (k0 & w0 & E0 & Hw0). destruct (tid_word_spec l 0) as (H1 & H2 & H3). rewrite Nat.sub_0_r in *.
  set (i := tid_word l 0) in *. pose proof (lookup_lt_Some _ _ _ E0) as Hk0.
  destruct H3 as (w & E & Hwf); [destruct (decide (i < 0 + length l)%nat); [done|]; destruct Hw0; apply (H2 k0); [lia|done]|].
  pose proof (tid_bit_spec w 32 ltac:(lia)) as Hb. destruct (tid_bit w 32) as [j|] eqn:Ej.
  2: { destruct Hwf. apply full_bits; [by apply (proj1 (Forall_lookup _ _) Hw i)|]. intros k Hk. apply Hb. lia. }
  destruct Hb as (B1 & B2 & B3). exists i, w, j. split; [|split_and!; [done|lia..|done| |done]].
  - unfold alloc_tid. unfold bind at 1, onm, zoom. cbn [fst snd]. rewrite spin_get_free by auto with mach.
    go. cbn [snd]. fold i. unfold word_at at 1. rewrite (bind_deref _ _ _ w) by done. rewrite Ej. go.
    unfold put_word. go. cbn [fst snd]. unfold bind. cbn [fst snd]. rewrite spin_put_held by apply acq_held.
    rewrite rel_acq by auto with mach. unfold ret, u16. f_equal. rewrite Z.mod_small by lia. lia.
  - intros k Hk. apply B3. lia.
Qed.
(** [free_tid] clears bit [(tid - 1) mod 4] of word [(tid - 1) / 4]. *)
Lemma free_tid_spec m l tid w : quiet m → 1 ≤ tid → l !! Z.to_nat ((tid - 1) / 4) = Some w →
  free_tid tid (m, l) = Ok tt (touch m,
    <[Z.to_nat ((tid - 1) / 4) := Z.land w (u32 (Z.lnot (bit ((tid - 1) mod 4))))]> l).
Proof.
  intros Hq Ht E. unfold free_tid. unfold bind at 1, onm, zoom. cbn [fst snd]. rewrite spin_get_free by auto with mach.
  unfold word_at. rewrite (bind_deref _ _ _ w) by done. unfold put_word. go. cbn [fst snd].
  rewrite spin_put_held by apply acq_held. by rewrite rel_acq by auto with mach.
Qed.
(** Clearing and setting the same bit of a word. *)
Lemma clear_bit w j k : 0 ≤ j < 32 → 0 ≤ k < 32 →
  Z.testbit (Z.land w (u32 (Z.lnot (bit j)))) k = Z.testbit w k && negb (bool_decide (k = j)).
Proof.
  intros Hj Hk. rewrite Z.land_spec. f_equal. unfold u32. rewrite Z.mod_pow2_bits_low, Z.lnot_spec, bit_spec by lia. done.
Qed.
