(* ===== verification/UserCopy.v ===== *)
(** [copy_to_user] and [copy_from_user] of kernel/mem/vm.c implement the user
    memory the pipes and files are written against: the class [UserMem]. *)
From S2P Require Import Prelude Bytes Machine PageAlloc Vm Pipe.

Section user.
(** The address space: the root page and the tree of the table pages.  [m] is the
    machine the copies run on; they do not change it. *)
Context (root : nat) (pt : gmap (list Z) nat) (m : mach).

Definition PTE_UW : Z := Z.lor PTE_W PTE_U.
Definition PTE_UR : Z := Z.lor PTE_R PTE_U.
Definition user_ok (v : Z) : bool :=
  maps v && (Z.land v PTE_UW =? PTE_UW) && (Z.land v PTE_UR =? PTE_UR).
(** The page of physical memory behind a user address that can be read and written. *)
Definition uframe (p : pmem) (va : Z) : option nat :=
  if decide (vaddr va) then
    if user_ok (trans pt p va) then ram_page (frame_pa (trans pt p va) va) else None
  else None.
Definition pages_sized (p : pmem) : Prop := ∀ i, length (page_data p i) = PGBYTES.
(** The tables are well formed, no table is mapped for the user, and no page is
    mapped at two addresses. *)
Record uspace_ok (p : pmem) : Prop := {
  us_tree : pt_inv root pt p;
  us_mem : pages_sized p;
  us_plain va i y : uframe p va = Some i → pt !! y ≠ Some i;
  us_inj va va' i : uframe p va = Some i → uframe p va' = Some i → va / 4096 = va' / 4096;
}.
Definition user_byte (p : pmem) (va : Z) : option Z :=
  i ← uframe p va; page_data p i !! Z.to_nat (va mod 4096).

(** ** Addresses *)

Lemma frame_pa_eq v va : ∃ q, 0 ≤ q < 2 ^ 44 ∧ frame_pa v va = q * 4096 + va mod 4096.
Proof.
  unfold frame_pa. change (Z.shiftl 1 44 - 1) with (Z.ones 44). rewrite Z.land_ones by lia.
  set (q := Z.shiftr v 10 mod 2 ^ 44). pose proof (Z.mod_pos_bound (Z.shiftr v 10) (2 ^ 44) ltac:(lia)) as Hq. fold q in Hq.
  exists q. split; [done|]. rewrite Z.shiftl_mul_pow2, u64_id by lia. change (PGSIZE - 1) with (Z.ones 12).
  rewrite Z.land_ones by lia. pose proof (Z.mod_pos_bound va (2 ^ 12) ltac:(lia)). by rewrite lor_mul_pow2 by lia.
Qed.
Lemma trans_page p va va' : va / 4096 = va' / 4096 → trans pt p va' = trans pt p va.
Proof. intros E. unfold trans. rewrite !va_level_eq. change (2 ^ 12) with 4096. by rewrite E. Qed.
Lemma frame_pa_page v va va' : va / 4096 = va' / 4096 → frame_pa v va' = frame_pa v va - va mod 4096 + va' mod 4096.
Proof.
  intros E. unfold frame_pa. change (PGSIZE - 1) with (Z.ones 12). rewrite !Z.land_ones by lia. change (2 ^ 12) with 4096.
  change (Z.shiftl 1 44 - 1) with (Z.ones 44). rewrite Z.land_ones by lia. set (q := Z.shiftr v 10 mod 2 ^ 44).
  pose proof (Z.mod_pos_bound (Z.shiftr v 10) (2 ^ 44) ltac:(lia)) as Hq. fold q in Hq.
  rewrite Z.shiftl_mul_pow2, u64_id by lia.
  pose proof (Z.mod_pos_bound va 4096 ltac:(lia)). pose proof (Z.mod_pos_bound va' 4096 ltac:(lia)).
  rewrite !lor_mul_pow2 by lia. lia.
Qed.
(** Where an accessible byte is. *)
Lemma uframe_addr p va i : uframe p va = Some i → vaddr va ∧ user_ok (trans pt p va) = true ∧ (i < NPAGE)%nat ∧
  frame_pa (trans pt p va) va = paddr_of i + va mod 4096.
Proof.
  unfold uframe. destruct (decide (vaddr va)) as [Hv|]; [|done]. destruct (user_ok _) eqn:Eu; [|done].
  destruct (frame_pa_eq (trans pt p va) va) as (q & Hq & ->). unfold ram_page.
  destruct (Z.leb_spec PHY_MEMORY (q * 4096 + va mod 4096)) as [H1|]; [|done].
  destruct (Z.ltb_spec (q * 4096 + va mod 4096) PHY_TOP) as [H2|]; [|done]. intros [= <-].
  pose proof (Z.mod_pos_bound va 4096 ltac:(lia)). pose proof NPAGE_Z as HN. change PHY_TOP with 0xA0000000 in H2. unfold PHY_MEMORY in *.
  unfold page, paddr_of, PHY_MEMORY, PGSIZE. rewrite u64_id by lia.
  assert ((q * 4096 + va mod 4096 - 2147483648) / 4096 = q - 524288) as ->.
  { symmetry. apply Z.div_unique with (va mod 4096); lia. }
  split; [done|]. split; [done|]. split; lia.
Qed.
Lemma ram_page_paddr i off : (i < NPAGE)%nat → 0 ≤ off < 4096 →
  ram_page (paddr_of i + off) = Some i ∧ page_off (paddr_of i + off) = Z.to_nat off.
Proof.
  intros Hi Ho. pose proof NPAGE_Z as HN. unfold ram_page, page_off, paddr_of, page, PHY_MEMORY, PGSIZE. change PHY_TOP with 0xA0000000.
  destruct (Z.leb_spec 2147483648 (2147483648 + Z.of_nat i * 4096 + off)); [|lia].
  destruct (Z.ltb_spec (2147483648 + Z.of_nat i * 4096 + off) 0xA0000000); [|lia]. cbn [andb]. split.
  - f_equal. rewrite u64_id by lia. rewrite <- (Z.div_unique _ 4096 (Z.of_nat i) off) by lia. lia.
  - f_equal. rewrite <- (Z.mod_unique _ 4096 (524288 + Z.of_nat i) off) by lia. done.
Qed.
Lemma uframe_page p va va' i : uframe p va = Some i → vaddr va' → va / 4096 = va' / 4096 → uframe p va' = Some i.
Proof.
  intros H Hv' E. destruct (uframe_addr p va i H) as (Hv & Hu & Hi & Ea). unfold uframe. rewrite decide_True by done.
  rewrite (trans_page p va va') by done. rewrite Hu. rewrite (frame_pa_page _ va va'), Ea by done.
  replace (paddr_of i + va mod 4096 - va mod 4096 + va' mod 4096) with (paddr_of i + va' mod 4096) by lia.
  apply ram_page_paddr; [done|]. apply Z.mod_pos_bound. lia.
Qed.
Lemma user_byte_some p va : pages_sized p → is_Some (user_byte p va) ↔ is_Some (uframe p va).
Proof.
  intros Hm. unfold user_byte. destruct (uframe p va) as [i|]; cbn; [|by split; intros [? ?]].
  split; [by eauto|]. intros _. apply lookup_lt_is_Some_2. rewrite Hm. change PGBYTES with 4096%nat.
  pose proof (Z.mod_pos_bound va 4096 ltac:(lia)). lia.
Qed.
(** The length of a round: to the end of the page or of the data. *)
Lemma user_len_eq va n : vaddr va → 0 < n → user_len va n = Z.min (4096 - va mod 4096) n.
Proof.
  intros Hv Hn. unfold vaddr in Hv. unfold user_len. change PGSIZE with (2 ^ 12). rewrite (u64_id (va + 1)) by lia.
  rewrite align_up_eq by lia. change (2 ^ 12) with 4096. replace (va + 1 + 4096 - 1) with (va + 1 * 4096) by lia.
  rewrite Z.div_add by lia. pose proof (Z.div_mod va 4096 ltac:(lia)). pose proof (Z.mod_pos_bound va 4096 ltac:(lia)).
  rewrite u64_id, cmin_min by lia. rewrite u32_id by lia. f_equal; lia.
Qed.

(** The test of the two copies succeeds on an accessible page. *)
Lemma check_user_ok kill perm p va i : uspace_ok p → uframe p va = Some i → perm = PTE_W ∨ perm = PTE_R →
  ∃ r, va_to_pa (paddr_of root) va (m, p) = Ok r (m, p) ∧ check_user kill perm r (m, p) = Ok tt (m, p) ∧
    r.1 = paddr_of i + va mod 4096.
Proof.
  intros [P _ _ _] H Hperm. destruct (uframe_addr p va i H) as (Hv & Hu & Hi & Ea).
  destruct (va_to_pa_spec va root pt m p P) as (r & E & Hr). exists r. split; [done|].
  unfold user_ok in Hu. apply andb_true_iff in Hu as [Hu Hur]. apply andb_true_iff in Hu as [Hm Huw].
  rewrite Hm in Hr. destruct Hr as (E1 & a & E2 & Ela). split; [|by rewrite E1, Ea].
  unfold check_user. rewrite E1, Ea. destruct (Z.eqb_spec (paddr_of i + va mod 4096) 0) as [Hz|_].
  { pose proof (Z.mod_pos_bound va 4096 ltac:(lia)). unfold paddr_of, PHY_MEMORY, PGSIZE in Hz. lia. }
  rewrite E2. go. run Ela. destruct Hperm as [-> | ->]; fold PTE_UW PTE_UR; by rewrite ?Huw, ?Hur.
Qed.
(** One round from [va]: its length, its page, and the bytes of it. *)
Lemma user_round p va n i : uspace_ok p → (0 < n)%nat → uframe p va = Some i →
  let len := Z.to_nat (user_len va (Z.of_nat n)) in
  (0 < len ≤ n)%nat ∧ (Z.to_nat (va mod 4096) + len ≤ 4096)%nat ∧
  (∀ k, (k < len)%nat → vaddr (va + Z.of_nat k) → uframe p (va + Z.of_nat k) = Some i) ∧
  (∀ k, (k < len)%nat → (va + Z.of_nat k) / 4096 = va / 4096 ∧ Z.to_nat ((va + Z.of_nat k) mod 4096) = (Z.to_nat (va mod 4096) + k)%nat).
Proof.
  intros U Hn H len. destruct (uframe_addr p va i H) as (Hv & _). pose proof (Z.mod_pos_bound va 4096 ltac:(lia)) as Hm.
  unfold len. rewrite user_len_eq by (done || lia).
  assert (Hk : ∀ k, (k < Z.to_nat (Z.min (4096 - va mod 4096) (Z.of_nat n)))%nat →
    (va + Z.of_nat k) / 4096 = va / 4096 ∧ Z.to_nat ((va + Z.of_nat k) mod 4096) = (Z.to_nat (va mod 4096) + k)%nat).
  { intros k Hk. pose proof (Z.div_mod va 4096 ltac:(lia)). split.
    - symmetry. apply Z.div_unique with (va mod 4096 + Z.of_nat k); lia.
    - rewrite <- (Z.mod_unique (va + Z.of_nat k) 4096 (va / 4096) (va mod 4096 + Z.of_nat k)) by lia. lia. }
  split; [lia|]. split; [lia|]. split; [|done]. intros k Hkl Hva. eapply uframe_page; [exact H|done|]. symmetry. by apply Hk.
Qed.
Definition readable (p : pmem) (va : Z) (n : nat) : Prop :=
  ∀ k, 0 ≤ k < Z.of_nat n → is_Some (user_byte p (va + k)).
Lemma readable_frame p va n k : pages_sized p → readable p va n → (k < n)%nat → ∃ i, uframe p (va + Z.of_nat k) = Some i.
Proof. intros Hm H Hk. apply (user_byte_some p _ Hm). apply H. lia. Qed.
Lemma readable_drop p va n len : readable p va n → (len ≤ n)%nat → readable p (va + Z.of_nat len) (n - len).
Proof. intros H Hl k Hk. rewrite <- Z.add_assoc. apply H. lia. Qed.

Lemma copy_from_user_spec kill fuel va n p : uspace_ok p → (n ≤ fuel)%nat → readable p va n →
  ∃ d, copy_from_user kill (paddr_of root) fuel va n (m, p) = Ok d (m, p) ∧ length d = n ∧
    ∀ k, (k < n)%nat → d !! k = user_byte p (va + Z.of_nat k).
Proof.
  intros U. pose proof U as [_ Hmem _ _]. revert va n. induction fuel as [|fuel IH]; intros va n Hf Hr.
  { assert (n = 0%nat) as -> by lia. exists []. split; [done|]. split; [done|]. lia. }
  destruct n as [|n0]; [exists []; split; [done|]; split; [done|]; lia|]. cbn [copy_from_user]. set (n := S n0) in *.
  destruct (readable_frame p va n 0 Hmem Hr) as [i Hi]; [lia|]. rewrite Z.add_0_r in Hi.
  destruct (user_round p va n i U ltac:(lia) Hi) as (L1 & L2 & L3 & L4). set (len := Z.to_nat (user_len va (Z.of_nat n))) in *.
  destruct (check_user_ok kill PTE_R p va i U Hi) as (r & E1 & E2 & E3); [by right|].
  destruct (uframe_addr p va i Hi) as (Hv & _ & HiN & _). pose proof (Z.mod_pos_bound va 4096 ltac:(lia)) as Hmb.
  destruct (ram_page_paddr i (va mod 4096) HiN Hmb) as [R1 R2].
  assert (Eld : ld_bytes r.1 len (m, p) = Ok (take len (drop (Z.to_nat (va mod 4096)) (page_data p i))) (m, p)).
  { unfold ld_bytes, deref. rewrite E3, R1. cbn. rewrite R2, decide_True; [done|]. change PGBYTES with 4096%nat. lia. }
  run E1. run E2. run Eld.
  assert (Hu : (n - len)%nat = 0%nat ∨ u64 (va + Z.of_nat len) = va + Z.of_nat len).
  { destruct (decide (len < n)%nat); [right|left; lia].
    destruct (readable_frame p va n len Hmem Hr) as [i' Hi']; [lia|]. apply uframe_addr in Hi' as (Hv' & _).
    unfold vaddr in Hv'. apply u64_id. lia. }
  assert (Hrest : ∃ d, copy_from_user kill (paddr_of root) fuel (u64 (va + Z.of_nat len)) (n - len) (m, p) = Ok d (m, p) ∧
    length d = (n - len)%nat ∧ ∀ k, (k < n - len)%nat → d !! k = user_byte p (va + Z.of_nat len + Z.of_nat k)).
  { destruct Hu as [->|Hu]; [exists []; destruct fuel; (split; [done|]; split; [done|]; lia)|]. rewrite Hu.
    apply IH; [lia|]. by apply readable_drop; [|lia]. }
  destruct Hrest as (d & Ed & Hl & Hd). run Ed. pose proof (Hmem i) as Hpl. change PGBYTES with 4096%nat in Hpl.
  eexists. split; [done|]. split; [rewrite length_app, length_take, length_drop; lia|]. intros k Hk.
  destruct (decide (k < len)%nat) as [Hkl|Hkl].
  - rewrite lookup_app_l by (rewrite length_take, length_drop; lia). rewrite lookup_take_lt, lookup_drop by done.
    destruct (readable_frame p va n k Hmem Hr Hk) as [i' Hi']. pose proof (uframe_addr _ _ _ Hi') as (Hv' & _).
    unfold user_byte. rewrite L3 by done. cbn. by destruct (L4 k Hkl) as [_ ->].
  - rewrite lookup_app_r; rewrite length_take, length_drop; [|lia]. rewrite Nat.min_l by lia. rewrite Hd by lia. f_equal. lia.
Qed.

(** *** [copy_to_user] *)

(** A store to a page that holds no table. *)
Lemma trans_put p i d va : (∀ y, pt !! y ≠ Some i) → trans pt (put_page i d p) va = trans pt p va.
Proof.
  intros Hi. unfold trans, leaf. destruct (pt !! _) as [j|] eqn:E; [|done]. unfold entry. rewrite page_data_put.
  by rewrite decide_False by (intros ->; by apply (Hi [va_level va 2; va_level va 1])).
Qed.
Lemma uframe_put p i d va : (∀ y, pt !! y ≠ Some i) → uframe (put_page i d p) va = uframe p va.
Proof. intros Hi. unfold uframe. by rewrite trans_put. Qed.
Lemma uspace_put p i d : uspace_ok p → (∀ y, pt !! y ≠ Some i) → length d = PGBYTES → uspace_ok (put_page i d p).
Proof.
  intros [P Hm Hp Hi] Hn Hd.
  assert (He : ∀ x j k, pt !! x = Some j → entry (put_page i d p) j k = entry p j k).
  { intros x j k Hx. unfold entry. rewrite page_data_put, decide_False; [done|]. intros ->. by apply (Hn x). }
  split.
  - destruct P as [P1 P2 P3 P4 P5 P6]. split; [done..| |].
    + intros x k j j' Hx Hj. rewrite (He x) by done. by eapply P5.
    + intros x k j Hx Hl Hk Hj. rewrite (He x) by done. by eapply P6.
  - intros j. rewrite page_data_put. case_decide; [done|apply Hm].
  - intros va j y. rewrite uframe_put by done. apply Hp.
  - intros va va' j. rewrite !uframe_put by done. apply Hi.
Qed.
(** One round stores its bytes and no other user byte changes. *)
Lemma user_store p va i chunk (p' := put_page i (blit (Z.to_nat (va mod 4096)) chunk (page_data p i)) p) :
  uspace_ok p → uframe p va = Some i → (Z.to_nat (va mod 4096) + length chunk ≤ 4096)%nat →
  (∀ k, (k < length chunk)%nat → vaddr (va + Z.of_nat k)) →
  uspace_ok p' ∧ ∀ a, user_byte p' a = if decide (va ≤ a < va + Z.of_nat (length chunk))
                                        then chunk !! Z.to_nat (a - va) else user_byte p a.
Proof.
  intros U Hi Hl Hv. pose proof U as [P Hm Hp Hj]. pose proof (Hm i) as Hpl. change PGBYTES with 4096%nat in Hpl.
  pose proof (Z.mod_pos_bound va 4096 ltac:(lia)). pose proof (Z.div_mod va 4096 ltac:(lia)). split.
  { apply uspace_put; [done|by intros y; eapply Hp|]. rewrite length_blit; rewrite Hpl; [done|lia]. }
  intros a. pose proof (Z.mod_pos_bound a 4096 ltac:(lia)). pose proof (Z.div_mod a 4096 ltac:(lia)).
  unfold user_byte, p'. rewrite uframe_put by (intros y; eapply Hp, Hi). case_decide as Hr.
  - assert (a / 4096 = va / 4096) as Ea by (symmetry; apply Z.div_unique with (va mod 4096 + (a - va)); lia).
    assert (Hva : vaddr a). { replace a with (va + Z.of_nat (Z.to_nat (a - va))) by lia. apply Hv. lia. }
    rewrite (uframe_page p va a i Hi Hva) by done. cbn. rewrite page_data_put, decide_True by done.
    rewrite lookup_blit by (rewrite Hpl; lia). rewrite decide_True by lia. f_equal. lia.
  - destruct (uframe p a) as [j|] eqn:Ej; [|done]. cbn. rewrite page_data_put. case_decide as Hji; [|done]. subst j.
    pose proof (Hj _ _ _ Ej Hi) as Ea. rewrite lookup_blit by (rewrite Hpl; lia). by rewrite decide_False by lia.
Qed.
Lemma copy_to_user_spec kill fuel va d p : uspace_ok p → (length d ≤ fuel)%nat → readable p va (length d) →
  ∃ p', copy_to_user kill (paddr_of root) fuel va d (m, p) = Ok tt (m, p') ∧ uspace_ok p' ∧
    ∀ a, user_byte p' a = if decide (va ≤ a < va + Z.of_nat (length d)) then d !! Z.to_nat (a - va) else user_byte p a.
Proof.
  revert va d p. induction fuel as [|fuel IH]; intros va d p U Hf Hr; destruct d as [|v0 d0].
  1,3: exists p; split; [done|]; split; [done|]; intros a; cbn; by rewrite decide_False by lia.
  { cbn in Hf. lia. }
  cbn [copy_to_user]. set (d := v0 :: d0) in *. pose proof U as [_ Hmem _ _]. assert (Hn : (0 < length d)%nat) by (cbn; lia).
  destruct (readable_frame p va (length d) 0 Hmem Hr Hn) as [i Hi]. rewrite Z.add_0_r in Hi.
  destruct (user_round p va (length d) i U Hn Hi) as (L1 & L2 & L3 & L4). set (len := Z.to_nat (user_len va (Z.of_nat (length d)))) in *.
  destruct (check_user_ok kill PTE_W p va i U Hi) as (r & E1 & E2 & E3); [by left|].
  destruct (uframe_addr p va i Hi) as (Hv & _ & HiN & _). pose proof (Z.mod_pos_bound va 4096 ltac:(lia)) as Hmb.
  destruct (ram_page_paddr i (va mod 4096) HiN Hmb) as [R1 R2].
  assert (Hlt : length (take len d) = len) by (rewrite length_take; lia).
  set (p1 := put_page i (blit (Z.to_nat (va mod 4096)) (take len d) (page_data p i)) p).
  assert (Est : st_bytes r.1 (take len d) (m, p) = Ok tt (m, p1)).
  { unfold st_bytes, update. rewrite E3, R1. cbn. rewrite R2, Hlt, decide_True; [done|]. change PGBYTES with 4096%nat. lia. }
  run E1. run E2. run Est.
  destruct (user_store p va i (take len d) U Hi) as [U1 B1]; [by rewrite Hlt| |].
  { intros k Hk. rewrite Hlt in Hk. destruct (readable_frame p va (length d) k Hmem Hr ltac:(lia)) as [i' Hi'].
    by apply uframe_addr in Hi' as (? & _). }
  fold p1 in U1, B1. rewrite Hlt in B1.
  assert (Hr1 : readable p1 (va + Z.of_nat len) (length (drop len d))).
  { rewrite length_drop. intros k Hk. rewrite B1, decide_False by lia. rewrite <- Z.add_assoc. apply Hr. lia. }
  assert (Hrest : ∃ p', copy_to_user kill (paddr_of root) fuel (u64 (va + Z.of_nat len)) (drop len d) (m, p1) = Ok tt (m, p') ∧
    uspace_ok p' ∧ ∀ a, user_byte p' a = if decide (va + Z.of_nat len ≤ a < va + Z.of_nat (length d))
                                        then d !! Z.to_nat (a - va) else user_byte p1 a).
  { destruct (decide (len < length d)%nat) as [Hl|Hl].
    - destruct (readable_frame p va (length d) len Hmem Hr Hl) as [i' Hi']. apply uframe_addr in Hi' as (Hv' & _).
      unfold vaddr in Hv'. rewrite u64_id by lia.
      destruct (IH (va + Z.of_nat len) (drop len d) p1 U1) as (p' & E & U' & B); [rewrite length_drop; lia|done|].
      exists p'. split; [done|]. split; [done|]. intros a. rewrite B, length_drop. repeat case_decide; try lia; try done.
      rewrite lookup_drop. f_equal. lia.
    - rewrite drop_ge by lia. exists p1. split; [by destruct fuel|]. split; [done|]. intros a. by rewrite decide_False by lia. }
  destruct Hrest as (p' & E & U' & B). exists p'. split; [exact E|]. split; [done|]. intros a. rewrite B, B1.
  repeat case_decide; try lia; try done. by rewrite lookup_take_lt by lia.
Qed.

(** ** The interface *)

(** Memory in which the user's address space is well formed. *)
Record uspace := MkUspace { us_pm : pmem; us_ok : uspace_ok us_pm }.
Lemma readable_forall p va n : Forall (λ k, is_Some (user_byte p (va + k))) (seqZ 0 (Z.of_nat n)) ↔ readable p va n.
Proof.
  rewrite Forall_forall. unfold readable. split; intros H k Hk; apply H; [apply elem_of_seqZ|apply elem_of_seqZ in Hk]; lia.
Qed.
#[local] Instance readable_dec p va n : Decision (readable p va n).
Proof.
  refine (cast_if (decide (Forall (λ k, is_Some (user_byte p (va + k))) (seqZ 0 (Z.of_nat n)))));
    by rewrite <- readable_forall.
Defined.
(** The task is killed when the range is not accessible. *)
Definition killed : PM unit := λ s, Switch s.
Definition run_out (va : Z) (d : list Z) (p : pmem) : outcome (mach * pmem) unit :=
  copy_to_user killed (paddr_of root) (length d) va d (m, p).
Lemma run_out_ok va d p x s : uspace_ok p → readable p va (length d) → run_out va d p = Ok x s → uspace_ok s.2.
Proof.
  intros U Hr E. destruct (copy_to_user_spec killed (length d) va d p U ltac:(lia) Hr) as (p' & E' & U' & _).
  unfold run_out in E. rewrite E' in E. by injection E as <- <-.
Qed.
Definition space_out (va : Z) (d : list Z) (u : uspace) : option uspace :=
  match decide (readable (us_pm u) va (length d)) with
  | left Hr =>
    match run_out va d (us_pm u) as r return run_out va d (us_pm u) = r → option uspace with
    | Ok x s => λ E, Some (MkUspace s.2 (run_out_ok va d (us_pm u) x s (us_ok u) Hr E))
    | _ => λ _, None
    end eq_refl
  | right _ => None
  end.
Definition space_in (va : Z) (n : nat) (u : uspace) : option (list Z) :=
  match copy_from_user killed (paddr_of root) n va n (m, us_pm u) with Ok d _ => Some d | _ => None end.

Lemma space_out_spec va d u : readable (us_pm u) va (length d) →
  ∃ u', space_out va d u = Some u' ∧ ∀ a, user_byte (us_pm u') a =
    if decide (va ≤ a < va + Z.of_nat (length d)) then d !! Z.to_nat (a - va) else user_byte (us_pm u) a.
Proof.
  intros Hr. destruct (copy_to_user_spec killed (length d) va d (us_pm u) (us_ok u) ltac:(lia) Hr) as (p' & E & U' & B).
  unfold space_out. destruct (decide (readable _ _ _)) as [Hr'|]; [|done].
  generalize (run_out_ok va d (us_pm u)). unfold run_out. rewrite E. intros f. eexists. split; [reflexivity|]. exact B.
Qed.
#[export] Instance user_space : UserMem uspace.
Proof.
  refine {| copy_in := space_in; copy_out := space_out; ubyte := λ u a, user_byte (us_pm u) a |}.
  - intros u va n Hr. destruct (copy_from_user_spec killed n va n (us_pm u) (us_ok u) ltac:(lia) Hr) as (d & E & Hl & Hd).
    exists d. unfold space_in. rewrite E. split; [done|]. split; [done|]. intros k Hk. symmetry. by apply Hd.
  - intros u va d Hr. by apply space_out_spec.
Defined.
End user.
