(* ===== verification/TaskMem.v ===== *)
(** The memory of a task (kernel/mem/vm.h, kernel/mem/vm.c: [task_vmmap],
    [copy_pagetable]; kernel/task/task.c: [task_mm_init], [clean_mm_source],
    [reset_vma]; kernel/syscall/sysmem.c: [sys_alloc], [sys_free]).

    The [mm_struct] of a task holds two lists: the pages the task owns and the
    [struct vma] records of what its page table maps.  The heads of both lists are
    named by the task, a [struct vma] by its slot object. *)
From S2P Require Import Prelude Bytes ListNode Machine PageAlloc Vm Slot.

Inductive vma_type := STACK | HEAP | TEXT | DATA.
#[export] Instance vma_type_eq_dec : EqDecision vma_type.
Proof. solve_decision. Defined.
(** [struct vma] behind its [node], and the zero object. *)
Record vma := MkVma { v_va : Z; v_pa : Z; v_size : Z; v_type : vma_type; v_attr : Z }.
Definition vma0 : vma := MkVma 0 0 0 STACK 0.
(** [struct mm_struct] behind its list heads. *)
Record mm_struct := MkMm { next_heap : Z }.
Definition mm0 : mm_struct := MkMm 0.
(** [PGSIZE / sizeof(struct chunk)] for the two kinds of objects. *)
Definition NVMA_CHUNK : nat := 64.
Definition NMM_CHUNK : nat := 73.
#[global] Arguments NVMA_CHUNK : simpl never.
#[global] Arguments NMM_CHUNK : simpl never.

(** The addresses of list nodes: [t->mm_struct->vma_head] and [v->node]. *)
Inductive vnode := VmaHead (t : nat) | VmaNode (o : optr).
#[export] Instance vnode_eq_dec : EqDecision vnode.
Proof. solve_decision. Defined.
#[export] Instance vnode_countable : Countable vnode.
Proof.
  apply (inj_countable' (λ k, match k with VmaHead t => inl t | VmaNode o => inr o end)
    (λ c, match c with inl t => VmaHead t | inr o => VmaNode o end)).
  by intros [].
Defined.

(** The fields of [struct task] that concern its memory. *)
Record tmem := MkTmem { t_mm : option optr; t_pagetable : Z; t_ustack : Z; t_kstack : Z }.
Record tms := MkTms {
  ts_pm : mach * pmem;
  ts_vmas : slots vma;
  ts_mms : slots mm_struct;
  ts_nodes : gmap vnode (list_node vnode);
  ts_tasks : list tmem;
}.
Definition TM : Type → Type := M tms.

Definition set_pm (p : mach * pmem) (s : tms) : tms := MkTms p (ts_vmas s) (ts_mms s) (ts_nodes s) (ts_tasks s).
Definition on_page {A} (m : PM A) : TM A := zoom ts_pm set_pm m.
Definition alloc_vma_slot : TM optr :=
  zoom (λ s, (ts_pm s, ts_vmas s)) (λ x s, MkTms x.1 x.2 (ts_mms s) (ts_nodes s) (ts_tasks s)) (alloc_slot VmaSlot NVMA_CHUNK vma0).
Definition free_vma_slot (o : optr) : TM unit :=
  zoom (λ s, (ts_pm s, ts_vmas s)) (λ x s, MkTms x.1 x.2 (ts_mms s) (ts_nodes s) (ts_tasks s)) (free_slot VmaSlot vma0 o).
Definition alloc_mm_struct_slot : TM optr :=
  zoom (λ s, (ts_pm s, ts_mms s)) (λ x s, MkTms x.1 (ts_vmas s) x.2 (ts_nodes s) (ts_tasks s)) (alloc_slot MmStructSlot NMM_CHUNK mm0).
Definition free_mm_struct_slot (o : optr) : TM unit :=
  zoom (λ s, (ts_pm s, ts_mms s)) (λ x s, MkTms x.1 (ts_vmas s) x.2 (ts_nodes s) (ts_tasks s)) (free_slot MmStructSlot mm0 o).

Definition set_vmas (f : slots vma → slots vma) (s : tms) : tms :=
  MkTms (ts_pm s) (f (ts_vmas s)) (ts_mms s) (ts_nodes s) (ts_tasks s).
Definition set_mms (f : slots mm_struct → slots mm_struct) (s : tms) : tms :=
  MkTms (ts_pm s) (ts_vmas s) (f (ts_mms s)) (ts_nodes s) (ts_tasks s).
Definition set_tasks_mem (f : list tmem → list tmem) (s : tms) : tms :=
  MkTms (ts_pm s) (ts_vmas s) (ts_mms s) (ts_nodes s) (f (ts_tasks s)).
Definition set_vnodes (h : gmap vnode (list_node vnode)) (s : tms) : tms :=
  MkTms (ts_pm s) (ts_vmas s) (ts_mms s) h (ts_tasks s).
Definition vma_val (s : tms) (o : optr) : vma := c_obj (chunk_of vma0 (ts_vmas s) o).
Definition mm_val (s : tms) (o : optr) : mm_struct := c_obj (chunk_of mm0 (ts_mms s) o).

Definition task_mem (t : nat) : TM tmem := deref (λ s, ts_tasks s !! t).
Definition set_task_mem (t : nat) (f : tmem → tmem) : TM unit :=
  update (λ s, tm ← ts_tasks s !! t; Some (set_tasks_mem (insert t (f tm)) s)).
(** [t->mm_struct], dereferenced. *)
Definition mm_of (t : nat) : TM optr := let! tm := task_mem t in deref (λ _, t_mm tm).
(** The storage of a node is the object it is in: it is there from its allocation. *)
Definition own_node {K} `{Countable K} (k : K) (h : gmap K (list_node K)) : gmap K (list_node K) :=
  match h !! k with Some _ => h | None => <[k := LNode None None]> h end.
Definition vnodes_op (f : gmap vnode (list_node vnode) → option (gmap vnode (list_node vnode))) : TM unit :=
  update (λ s, (λ h, set_vnodes h s) <$> f (ts_nodes s)).
(** [container_of(node, struct vma, node)]. *)
Definition vma_of_node (k : vnode) : option optr := match k with VmaNode o => Some o | VmaHead _ => None end.

Definition task_vmmap (t : nat) (va pa size attr : Z) (type : vma_type) : TM unit :=
  let! v := alloc_vma_slot in
  modify (set_vmas (store_obj vma0 v (MkVma va pa size type attr))) ;;
  let! _ := mm_of t in
  vnodes_op (λ h, list_pushback (VmaHead t) (VmaNode v) (own_node (VmaNode v) h)) ;;
  let! tm := task_mem t in
  on_page (svmmap (t_pagetable tm) va pa size attr (Some t)).

(** A loop over a list of [mm_struct] visits at most the nodes there are. *)
Definition list_fuel (s : tms) : nat := S (size (ts_nodes s)).
(** [memcpy(dst, src, PGSIZE)] between physical addresses. *)
Definition memcpy_page (dst src : Z) : PM unit :=
  let! d := ld_bytes src PGBYTES in
  st_bytes dst d.
Fixpoint copy_loop (fuel : nat) (c p : nat) (node : option vnode) : TM unit :=
  if bool_decide (node = Some (VmaHead p)) then ret tt else
  match fuel with
  | O => (λ s, Spin s)
  | S fuel =>
    let! o := deref (λ _, node ≫= vma_of_node) in
    let! pvm := gets (λ s, vma_val s o) in
    let! page := on_page (alloc_page_for_task c) in
    on_page (memcpy_page (paddr_of page) (v_pa pvm)) ;;
    task_vmmap c (v_va pvm) (paddr_of page) (v_size pvm) (v_attr pvm) (v_type pvm) ;;
    let! node := deref (λ s, ld_next (ts_nodes s) node) in
    copy_loop fuel c p node
  end.
Definition copy_pagetable (c p : nat) : TM unit :=
  let! _ := mm_of p in
  let! node := deref (λ s, ld_next (ts_nodes s) (Some (VmaHead p))) in
  let! fuel := gets list_fuel in
  copy_loop fuel c p node.

(** [trampoline] is the address the linker gives to the trampoline page,
    [kernel_satp] the value [init_page] left. *)
Section init.
Context (trampoline kernel_satp : Z).

(** [task_mm_init], up to the page table and the user stack pointer. *)
Definition mm_begin (t : nat) (p : option nat) : TM unit :=
  let! tm := alloc_mm_struct_slot in
  let! pm := (match p with Some p => let! x := task_mem p in ret (t_mm x) | None => ret None end) in
  set_task_mem t (λ x, MkTmem (Some tm) (t_pagetable x) (t_ustack x) (t_kstack x)) ;;
  vnodes_op (λ h, list_init (VmaHead t) (own_node (VmaHead t) h)) ;;
  on_page (nodes_op (λ h, list_init (TaskPages t) (own_node (TaskPages t) h))) ;;
  let! heap := (match p with
    | Some _ => let! pm := deref (λ _, pm) in gets (λ s, next_heap (mm_val s pm))
    | None => ret 0 end) in
  modify (set_mms (store_obj mm0 tm (MkMm heap))) ;;
  let! page := on_page (alloc_page_for_task t) in
  set_task_mem t (λ x, MkTmem (t_mm x) (paddr_of page) (USTACK + PGSIZE) (t_kstack x)).
(** The memory of the parent or a new stack. *)
Definition mm_fill (t : nat) (p : option nat) : TM unit :=
  match p with
  | Some p => copy_pagetable t p
  | None =>
    let! page := on_page (alloc_page_for_task t) in
    task_vmmap t USTACK (paddr_of page) PGSIZE (Z.lor (Z.lor PTE_R PTE_W) PTE_U) STACK
  end.
(** The kernel stack, the trap frame and the trampoline. *)
Definition mm_end (t : nat) : TM unit :=
  let! page := on_page (alloc_page_for_task t) in
  set_task_mem t (λ x, MkTmem (t_mm x) (t_pagetable x) (t_ustack x) (paddr_of page + PGSIZE)) ;;
  let! page := on_page (alloc_page_for_task t) in
  on_page (st64 (paddr_of page) kernel_satp) ;;
  let! tm := task_mem t in
  on_page (svmmap (t_pagetable tm) TRAPFRAME (paddr_of page) PGSIZE PTE_R (Some t)) ;;
  let! tm := task_mem t in
  on_page (svmmap (t_pagetable tm) TRAMPOLINE trampoline PGSIZE (Z.lor PTE_X PTE_R) None).
Definition task_mm_init (t : nat) (p : option nat) : TM unit :=
  mm_begin t p ;;
  mm_fill t p ;;
  mm_end t.
End init.

(** The two loops of [clean_mm_source]. *)
Fixpoint clean_pages (fuel : nat) (t : nat) (node : option pnode) : TM unit :=
  if bool_decide (node = Some (TaskPages t)) then ret tt else
  match fuel with
  | O => (λ s, Spin s)
  | S fuel =>
    let! p := deref (λ _, node ≫= page_of_node) in
    let! node := deref (λ s, ld_next (pg_nodes (ts_pm s).2) node) in
    on_page (free_page_for_task p) ;;
    clean_pages fuel t node
  end.
(** The loop of [clean_mm_source], [reset_vma] and [sys_free] over the records:
    those for which [sel] holds are removed and freed. *)
Fixpoint drop_vmas (sel : vma → bool) (fuel : nat) (t : nat) (node : option vnode) : TM unit :=
  if bool_decide (node = Some (VmaHead t)) then ret tt else
  match fuel with
  | O => (λ s, Spin s)
  | S fuel =>
    let! o := deref (λ _, node ≫= vma_of_node) in
    let! node := deref (λ s, ld_next (ts_nodes s) node) in
    let! v := gets (λ s, vma_val s o) in
    when (sel v) (vnodes_op (list_remove (VmaNode o)) ;; free_vma_slot o) ;;
    drop_vmas sel fuel t node
  end.
Definition drop_list (sel : vma → bool) (t : nat) : TM unit :=
  let! _ := mm_of t in
  let! node := deref (λ s, ld_next (ts_nodes s) (Some (VmaHead t))) in
  let! fuel := gets list_fuel in
  drop_vmas sel fuel t node.
Definition clean_mm_source (t : nat) : TM unit :=
  let! _ := mm_of t in
  let! node := deref (λ s, ld_next (pg_nodes (ts_pm s).2) (Some (TaskPages t))) in
  clean_pages (S NPAGE) t node ;;
  drop_list (λ _, true) t ;;
  let! mm := mm_of t in
  free_mm_struct_slot mm.
Definition reset_vma (t : nat) : TM unit := drop_list (λ v, negb (bool_decide (v_type v = STACK))) t.

Definition mytask_mem : TM nat := deref (λ s, mytask (ts_pm s).1).
Definition sys_alloc : TM Z :=
  let! t := mytask_mem in
  let! mm := mm_of t in
  let! heap := gets (λ s, next_heap (mm_val s mm)) in
  if heap =? USTACK then ret 0 else
  let! p := on_page (alloc_page_for_task t) in
  task_vmmap t heap (paddr_of p) PGSIZE (Z.lor (Z.lor PTE_U PTE_W) PTE_R) HEAP ;;
  let! r := gets (λ s, next_heap (mm_val s mm)) in
  modify (λ s, set_mms (store_obj mm0 mm (MkMm (u64 (next_heap (mm_val s mm) + PGSIZE)))) s) ;;
  ret r.
Definition sys_free (a0 : Z) : TM Z :=
  if a0 =? 0 then ret (-1) else
  if negb (a0 mod PGSIZE =? 0) then ret (-1) else
  let! t := mytask_mem in
  drop_list (λ v, bool_decide (v_type v = HEAP) && (v_pa v =? a0)) t ;;
  ret (-1).
