(* ===== verification/TaskSpace.v ===== *)
(** The address spaces of the tasks: what the operations of [TaskMem] on the memory
    of one task do to it, and that they leave the other tasks alone.

    [tasks_inv] says that the records, tables and lists of every task are sound; the
    table pages of a task are among the pages it owns, so that two tasks share
    neither tables nor memory. *)
From S2P Require Import Prelude Bytes ListNode Machine PageAlloc Vm Slot UserCopy TaskMem.

(** ** Memory that only grows *)

(** The pages [n] left the free list, those of [nt] for task [t]. *)
Record mgrow (t : nat) (n nt fl : list nat) (tl : gmap nat (list nat)) (p : pmem) (fl' : list nat)
    (tl' : gmap nat (list nat)) (p' : pmem) : Prop := {
  mg_free : fl = n ++ fl';
  mg_list : tl' = give (Some t) nt tl;
  mg_sub i : i ∈ nt → i ∈ n;
  mg_inuse : pg_inuse p' = list_to_set n ∪ pg_inuse p;
}.
Lemma mgrow_trans t n1 n2 m1 m2 fl tl p fl1 tl1 p1 fl2 tl2 p2 : mgrow t n1 m1 fl tl p fl1 tl1 p1 →
  mgrow t n2 m2 fl1 tl1 p1 fl2 tl2 p2 → mgrow t (n1 ++ n2) (m1 ++ m2) fl tl p fl2 tl2 p2.
Proof.
  intros [-> -> S1 U1] [-> -> S2 U2]. split; [by rewrite app_assoc|by rewrite give_give|set_solver|].
  rewrite U2, U1, list_to_set_app_L. set_solver.
Qed.
Lemma mgrow_refl t fl tl p p' : pg_inuse p' = pg_inuse p → mgrow t [] [] fl tl p fl tl p'.
Proof. intros E. split; [done|by rewrite give_nil|done|rewrite E; set_solver]. Qed.
Lemma give_lookup t n tl t' : give (Some t) n tl !! t' = if decide (t = t') then (λ l, l ++ n) <$> tl !! t' else tl !! t'.
Proof. cbn. destruct (decide (t = t')) as [<-|]; [by rewrite lookup_alter_eq|by rewrite lookup_alter_ne]. Qed.
Lemma mgrow_page_ok t n nt fl tl p fl' tl' p' q : pages_inv fl tl p → mgrow t n nt fl tl p fl' tl' p' →
  page_ok tl p q → page_ok tl' p' q.
Proof.
  intros I [-> -> Hs Hu] (H1 & H2 & H3). split_and!; [done|rewrite Hu; set_solver|]. intros t' l. rewrite give_lookup.
  case_decide; [subst t'|apply H3]. destruct (tl !! t) as [l0|] eqn:E; [|done]. intros [= <-]. rewrite elem_of_app.
  intros [Hq|Hq]; [by apply (H3 _ _ E)|]. apply Hs in Hq. destruct (proj1 (pi_inuse _ _ _ I q)); [set_solver|done].
Qed.
(** The pages of the slots are still theirs. *)
Lemma slots_inv_sub {T} (N : nat) (zero : T) tl p tl' p' st :
  (∀ k sl q, sl_slots st !! k = Some sl → s_slot sl = Some q → page_ok tl p q → page_ok tl' p' q) →
  slots_inv N zero tl p st → slots_inv N zero tl' p' st.
Proof.
  intros Hp [I1 I2 I3 I4]. split; [done|done| |done]. intros k sl E. specialize (I3 k sl E). unfold slot_ok in *.
  destruct (s_slot sl) as [q|] eqn:Es; [|done]. destruct I3 as (? & ?). split; [by eapply Hp|done].
Qed.
Lemma slots_inv_pages {T} (N : nat) (zero : T) tl p tl' p' st : (∀ q, page_ok tl p q → page_ok tl' p' q) →
  slots_inv N zero tl p st → slots_inv N zero tl' p' st.
Proof. intros Hp. apply slots_inv_sub. intros k sl q _ _. apply Hp. Qed.
(** Tables none of which was written. *)
Lemma pt_inv_same root pt p p' : pt_inv root pt p →
  (∀ y i, pt !! y = Some i → page_data p' i = page_data p i ∧ i ∈ pg_inuse p') →
  pt_inv root pt p' ∧ ∀ va, trans pt p' va = trans pt p va.
Proof.
  intros P Hd. assert (He : ∀ y i k, pt !! y = Some i → entry p' i k = entry p i k).
  { intros y i k Hy. unfold entry. by rewrite (proj1 (Hd y i Hy)). }
  split; [split; try apply P|].
  - intros y i Hy. split; [by apply (pt_page _ _ _ P y)|by apply (Hd y)].
  - intros y k i j Hy Hj. rewrite (He y) by done. by apply (pt_child _ _ _ P y).
  - intros y k i Hy Hl Hk Hn. rewrite (He y) by done. by apply (pt_none _ _ _ P y).
  - intros va. unfold trans, leaf. destruct (pt !! _) as [i|] eqn:E; [|done]. by eapply He.
Qed.

(** ** Address spaces *)

Record space := MkSpace { sp_root : nat; sp_pt : gmap (list Z) nat; sp_vmas : list optr }.
Definition pmem_of (s : tms) : pmem := (ts_pm s).2.
Definition mach_of (s : tms) : mach := (ts_pm s).1.
Definition mm_ptr (s : tms) (t : nat) : option optr := ts_tasks s !! t ≫= t_mm.
Definition vma_live (s : tms) (o : optr) : Prop := live NVMA_CHUNK vma0 (ts_vmas s) o.
Definition mm_live (s : tms) (o : optr) : Prop := live NMM_CHUNK mm0 (ts_mms s) o.
(** Page [i] is on the list of task [t]. *)
Definition owns (tl : gmap nat (list nat)) (t i : nat) : Prop := ∃ l, tl !! t = Some l ∧ i ∈ l.

Record space_ok (tl : gmap nat (list nat)) (s : tms) (t : nat) (a : space) : Prop := {
  so_ptb : t_pagetable <$> ts_tasks s !! t = Some (paddr_of (sp_root a));
  so_mm : ∃ o, mm_ptr s t = Some o ∧ mm_live s o;
  so_tree : pt_inv (sp_root a) (sp_pt a) (pmem_of s);
  so_list : dlist (ts_nodes s) (VmaHead t) (VmaNode <$> sp_vmas a);
  so_live o : o ∈ sp_vmas a → vma_live s o;
  so_owned y i : sp_pt a !! y = Some i → owns tl t i;
  so_pages : is_Some (tl !! t);
}.
Record tasks_inv (A : gmap nat space) (fl : list nat) (tl : gmap nat (list nat)) (s : tms) : Prop := {
  ti_pages : pages_inv fl tl (pmem_of s);
  ti_vmas : slots_inv NVMA_CHUNK vma0 tl (pmem_of s) (ts_vmas s);
  ti_mms : slots_inv NMM_CHUNK mm0 tl (pmem_of s) (ts_mms s);
  ti_quiet : quiet (mach_of s);
  ti_space t a : A !! t = Some a → space_ok tl s t a;
  ti_disj t t' a a' o : A !! t = Some a → A !! t' = Some a' → o ∈ sp_vmas a → o ∈ sp_vmas a' → t = t';
  ti_mm t t' o : is_Some (A !! t) → is_Some (A !! t') → mm_ptr s t = Some o → mm_ptr s t' = Some o → t = t';
  ti_sep o o' : vma_live s o → mm_live s o' → o.1 ≠ o'.1;
}.

Lemma owns_inj fl tl p t t' i : pages_inv fl tl p → owns tl t i → owns tl t' i → t = t'.
Proof. intros I (l & E & H) (l' & E' & H'). by eapply (pi_disj _ _ _ I). Qed.
Lemma owns_page fl tl p t i : pages_inv fl tl p → owns tl t i → (i < NPAGE)%nat ∧ i ∈ pg_inuse p.
Proof. intros I (l & E & H). by eapply (pi_used _ _ _ I). Qed.
Lemma owns_give tl t t' n i : owns tl t' i → owns (give (Some t) n tl) t' i.
Proof.
  intros (l & E & H). unfold owns. rewrite give_lookup. case_decide; [|by exists l].
  exists (l ++ n). rewrite E. split; [done|]. set_solver.
Qed.
Lemma owns_new tl t n i : is_Some (tl !! t) → i ∈ n → owns (give (Some t) n tl) t i.
Proof. intros [l E] H. exists (l ++ n). rewrite give_lookup, decide_True, E by done. split; [done|]. set_solver. Qed.
Lemma give_some tl t t' n : is_Some (tl !! t') → is_Some (give (Some t) n tl !! t').
Proof. intros [l E]. rewrite give_lookup, E. case_decide; by eexists. Qed.

(** The pointers in the record of a task. *)
Definition tkey (x : tmem) : option optr * Z := (t_mm x, t_pagetable x).
(** What a step for the memory of task [t] leaves alone: it takes at most [k] pages
    and creates [j] records. *)
Record tframe (t k : nat) (j : Z) (fl : list nat) (tl : gmap nat (list nat)) (pt : gmap (list Z) nat) (s : tms)
    (fl' : list nat) (tl' : gmap nat (list nat)) (pt' : gmap (list Z) nat) (s' : tms) : Prop := {
  tf_grow : ∃ n nt, (length n ≤ k)%nat ∧ mgrow t n nt fl tl (pmem_of s) fl' tl' (pmem_of s') ∧
    ∀ y i, pt' !! y = Some i → pt !! y = Some i ∨ i ∈ nt;
  tf_mach : mach_frame (mach_of s) (mach_of s');
  tf_tasks t' : tkey <$> ts_tasks s' !! t' = tkey <$> ts_tasks s !! t';
  tf_mms : ts_mms s' = ts_mms s;
  tf_refs : refs (ts_vmas s') = refs (ts_vmas s) + j;
  tf_vma o : vma_live s o → vma_live s' o ∧ vma_val s' o = vma_val s o;
  tf_plain i : plain_page pt (pmem_of s) i → plain_page pt' (pmem_of s') i ∧ page_data (pmem_of s') i = page_data (pmem_of s) i;
}.
Lemma tframe_trans t k1 k2 j1 j2 fl tl pt s fl1 tl1 pt1 s1 fl2 tl2 pt2 s2 :
  tframe t k1 j1 fl tl pt s fl1 tl1 pt1 s1 → tframe t k2 j2 fl1 tl1 pt1 s1 fl2 tl2 pt2 s2 →
  tframe t (k1 + k2) (j1 + j2) fl tl pt s fl2 tl2 pt2 s2.
Proof.
  intros [(n1 & m1 & L1 & G1 & P1) A2 A3 A4 A5 A6 A7] [(n2 & m2 & L2 & G2 & P2) B2 B3 B4 B5 B6 B7].
  split; [|by etransitivity|intros t'; by rewrite B3, A3|congruence|lia| |].
  - exists (n1 ++ n2), (m1 ++ m2). rewrite length_app. split; [lia|]. split; [by eapply mgrow_trans|].
    intros y i [Hy|Hy]%P2; [|set_solver]. apply P1 in Hy. set_solver.
  - intros o Ho. destruct (A6 o Ho) as [H1 H2], (B6 o (proj1 (A6 o Ho))) as [H3 H4]. split; [done|congruence].
  - intros i Hi. destruct (A7 i Hi) as [H1 H2], (B7 i (proj1 (A7 i Hi))) as [H3 H4]. split; [done|congruence].
Qed.
Lemma tframe_refl t fl tl pt s : tframe t 0 0 fl tl pt s fl tl pt s.
Proof.
  split; try done; [|lia]. exists [], []. split; [done|]. split; [by apply mgrow_refl|by left].
Qed.
Lemma tframe_weaken t k k' j fl tl pt s fl' tl' pt' s' : (k ≤ k')%nat → tframe t k j fl tl pt s fl' tl' pt' s' →
  tframe t k' j fl tl pt s fl' tl' pt' s'.
Proof. intros Hk [(n & nt & L & G & P) ? ? ? ? ? ?]. split; try done. exists n, nt. split; [lia|done]. Qed.
Lemma tf_free t k j fl tl pt s fl' tl' pt' s' : tframe t k j fl tl pt s fl' tl' pt' s' → (length fl ≤ length fl' + k)%nat.
Proof. intros [(n & nt & L & [-> _ _ _] & _) _ _ _ _ _ _]. rewrite length_app. lia. Qed.
Lemma tf_owns t k j fl tl pt s fl' tl' pt' s' t' i : tframe t k j fl tl pt s fl' tl' pt' s' → owns tl t' i → owns tl' t' i.
Proof. intros [(n & nt & L & [_ -> _ _] & _) _ _ _ _ _ _]. apply owns_give. Qed.

(** A page of a task is plain for the tables of the others. *)
Lemma other_plain A fl tl s t a t' i : tasks_inv A fl tl s → A !! t = Some a → t' ≠ t → owns tl t' i →
  plain_page (sp_pt a) (pmem_of s) i.
Proof.
  intros I Ha Hne Ho. split; [by apply (owns_page _ _ _ _ _ (ti_pages _ _ _ _ I) Ho)|]. intros y Hy.
  apply Hne. eapply owns_inj; [apply I|done|]. by apply (so_owned _ _ _ _ (ti_space _ _ _ _ I t a Ha) y).
Qed.
(** A step of task [t] keeps what the other tasks have. *)
Lemma tasks_inv_next A fl tl s t a k j fl' tl' pt' vs' s' :
  tasks_inv A fl tl s → A !! t = Some a → tframe t k j fl tl (sp_pt a) s fl' tl' pt' s' →
  pages_inv fl' tl' (pmem_of s') → slots_inv NVMA_CHUNK vma0 tl' (pmem_of s') (ts_vmas s') →
  pt_inv (sp_root a) pt' (pmem_of s') → dlist (ts_nodes s') (VmaHead t) (VmaNode <$> vs') →
  (∀ o, o ∈ vs' → vma_live s' o ∧ (o ∈ sp_vmas a ∨ ¬ vma_live s o)) →
  (∀ k, k ≠ VmaHead t → (∀ o, k = VmaNode o → vma_live s o ∧ o ∉ sp_vmas a) → ts_nodes s' !! k = ts_nodes s !! k) →
  (∀ o o', vma_live s' o → mm_live s o' → o.1 ≠ o'.1) →
  tasks_inv (<[t := MkSpace (sp_root a) pt' vs']> A) fl' tl' s'.
Proof.
  intros I Ha F Ip' Iv' P' D' Hvs Hn Hsep. pose proof F as [(n & nt & _ & G & Pn) Fm Ft Fmm _ Fv Fp].
  assert (Hptr : ∀ t', mm_ptr s' t' = mm_ptr s t' ∧ t_pagetable <$> ts_tasks s' !! t' = t_pagetable <$> ts_tasks s !! t').
  { intros t'. specialize (Ft t'). unfold mm_ptr. destruct (ts_tasks s' !! t'), (ts_tasks s !! t'); cbn in *; try done.
    injection Ft as -> ->. done. }
  assert (Hpt : ∀ t', t_pagetable <$> ts_tasks s' !! t' = t_pagetable <$> ts_tasks s !! t') by (intros; apply Hptr).
  assert (Hptr' : ∀ t', mm_ptr s' t' = mm_ptr s t') by (intros; apply Hptr). clear Hptr. rename Hptr' into Hptr.
  assert (Hml : ∀ o, mm_live s' o ↔ mm_live s o) by (intros o; unfold mm_live; by rewrite Fmm).
  assert (Hold : ∀ t' a' o, t' ≠ t → A !! t' = Some a' → o ∈ sp_vmas a' → vma_live s o ∧ o ∉ sp_vmas a).
  { intros t' a' o Hne Ha' Ho. split; [by apply (so_live _ _ _ _ (ti_space _ _ _ _ I t' a' Ha'))|].
    intros Ho'. by apply Hne, (ti_disj _ _ _ _ I t' t a' a o). }
  pose proof (ti_space _ _ _ _ I t a Ha) as So. split; try done.
  - rewrite Fmm. eapply slots_inv_pages, (ti_mms _ _ _ _ I). intros q. eapply mgrow_page_ok; [apply I|done].
  - by eapply frame_quiet, (ti_quiet _ _ _ _ I).
  - intros t' a'. destruct (decide (t = t')) as [<-|Hne].
    + rewrite lookup_insert_eq. intros [= <-]. split; cbn [sp_root sp_pt sp_vmas]; try done.
      * rewrite Hpt. apply So.
      * destruct (so_mm _ _ _ _ So) as (o & H1 & H2). exists o. rewrite Hptr, Hml. done.
      * intros o Ho. by apply Hvs.
      * intros y i Hy. rewrite (mg_list _ _ _ _ _ _ _ _ _ G). apply Pn in Hy as [Hy|Hy].
        -- apply owns_give. by apply (so_owned _ _ _ _ So y).
        -- apply owns_new; [apply So|done].
      * rewrite (mg_list _ _ _ _ _ _ _ _ _ G). apply give_some, So.
    + rewrite lookup_insert_ne by done. intros Ha'. pose proof (ti_space _ _ _ _ I t' a' Ha') as So'. split.
      * rewrite Hpt. apply So'.
      * destruct (so_mm _ _ _ _ So') as (o & H1 & H2). exists o. rewrite Hptr, Hml. done.
      * eapply pt_inv_same; [apply So'|]. intros y i Hy.
        destruct (Fp i) as [Hpl Hd]; [|split; [done|apply Hpl]].
        eapply (other_plain A fl tl s t a t'); try done. by apply (so_owned _ _ _ _ So' y).
      * eapply dlist_frame, (so_list _ _ _ _ So'). intros k' [->|(o & -> & Ho)%list_elem_of_fmap]%elem_of_cons; apply Hn; try done.
        { congruence. } intros o' [= <-]. by apply (Hold t' a').
      * intros o Ho. apply Fv. by apply (Hold t' a').
      * intros y i Hy. eapply tf_owns; [done|]. by apply (so_owned _ _ _ _ So' y).
      * rewrite (mg_list _ _ _ _ _ _ _ _ _ G). apply give_some, So'.
  - intros t1 t2 a1 a2 o. destruct (decide (t = t1)) as [<-|H1], (decide (t = t2)) as [<-|H2];
      rewrite ?lookup_insert_eq, ?lookup_insert_ne by done; [done| | |apply (ti_disj _ _ _ _ I)].
    + intros [= <-] Ha2 Ho Ho2. destruct (Hold t2 a2 o) as [? ?]; [done..|]. destruct (Hvs o Ho) as [_ [?|?]]; done.
    + intros Ha1 [= <-] Ho1 Ho. destruct (Hold t1 a1 o) as [? ?]; [done..|]. destruct (Hvs o Ho) as [_ [?|?]]; done.
  - intros t1 t2 o H1 H2. rewrite !Hptr.
    assert (Hs : ∀ x, is_Some (<[t := MkSpace (sp_root a) pt' vs']> A !! x) → is_Some (A !! x)).
    { intros x. destruct (decide (t = x)) as [<-|]; [by eauto|by rewrite lookup_insert_ne]. }
    apply (ti_mm _ _ _ _ I); by apply Hs.
  - intros o o' Ho Ho'. apply (Hsep o o' Ho). by apply Hml.
Qed.

(** ** Steps of one task *)

Lemma on_page_ok {B} (m : PM B) s b x : m (ts_pm s) = Ok b x → on_page m s = Ok b (set_pm x s).
Proof. intros E. unfold on_page, zoom. by rewrite E. Qed.
Lemma on_page_tasks {B} (m : PM B) b s s' : on_page m s = Ok b s' → ts_tasks s' = ts_tasks s.
Proof. unfold on_page, zoom. destruct (m (ts_pm s)); try done. by intros [= _ <-]. Qed.

(** [alloc_page_for_task]. *)
Lemma task_page_step A i fl tl s t a : tasks_inv A (i :: fl) tl s → A !! t = Some a →
  let tl' := give (Some t) [i] tl in
  ∃ s', on_page (alloc_page_for_task t) s = Ok i s' ∧ tasks_inv A fl tl' s' ∧
    tframe t 1 0 (i :: fl) tl (sp_pt a) s fl tl' (sp_pt a) s' ∧ ts_vmas s' = ts_vmas s ∧ ts_nodes s' = ts_nodes s ∧
    page_data (pmem_of s') i = zero_page ∧ plain_page (sp_pt a) (pmem_of s') i ∧ owns tl' t i ∧
    i ∉ pg_inuse (pmem_of s) ∧ ∀ va, trans (sp_pt a) (pmem_of s') va = trans (sp_pt a) (pmem_of s) va.
Proof.
  intros I Ha tl'. pose proof (ti_space _ _ _ _ I t a Ha) as So. destruct (so_pages _ _ _ _ So) as [l Hl].
  destruct s as [[m p] vs ms ns ts]. pose proof (ti_pages _ _ _ _ I) as Ip. pose proof (ti_quiet _ _ _ _ I) as Hq. unfold pmem_of, mach_of in *. cbn in Ip, Hq.
  destruct (alloc_page_for_task_spec i fl tl t l m p Ip (quiet_mem_free _ Hq) Hl) as (p' & E & Ip' & Hz & (_ & Hu & Hd) & Hi & Hni).
  rewrite (give_push _ _ _ _ Hl) in Ip'. fold tl' in Ip'. set (s := MkTms (m, p) vs ms ns ts) in *.
  set (s' := set_pm (touch m, p') s).
  assert (Hd' : ∀ n, n ∈ pg_inuse p → page_data p' n = page_data p n ∧ n ∈ pg_inuse p').
  { intros n Hn. split; [apply Hd; rewrite list_elem_of_singleton; by intros ->|rewrite Hu; set_solver]. }
  assert (Hnt : ∀ y, sp_pt a !! y ≠ Some i).
  { intros y Hy. by apply Hni, (pt_page _ _ _ (so_tree _ _ _ _ So) y). }
  destruct (pt_inv_same _ _ _ p' (so_tree _ _ _ _ So)) as [P' T'].
  { intros y n Hy. apply Hd'. by apply (pt_page _ _ _ (so_tree _ _ _ _ So) y). }
  assert (G : mgrow t [i] [i] (i :: fl) tl p fl tl' p') by (by split).
  assert (F : tframe t 1 0 (i :: fl) tl (sp_pt a) s fl tl' (sp_pt a) s').
  { split; try done; [|cbn; lia|].
    - exists [i], [i]. split; [done|]. split; [done|]. by left.
    - intros n [Hn Hy]. destruct (Hd' n Hn). done. }
  exists s'. split; [by apply on_page_ok|]. split.
  { replace A with (<[t := MkSpace (sp_root a) (sp_pt a) (sp_vmas a)]> A).
    2: { apply insert_id. by destruct a. }
    eapply tasks_inv_next; try done.
    - eapply slots_inv_pages, (ti_vmas _ _ _ _ I). intros q. by eapply mgrow_page_ok.
    - apply So.
    - intros o Ho. split; [by apply (so_live _ _ _ _ So)|by left].
    - apply I. }
  split_and!; try done; [split; [cbn; rewrite Hu; set_solver|done]|]. apply owns_new; [by eexists|by left].
Qed.

(** A store to a page of the task that holds no table. *)
Lemma task_fill A fl tl s t a i d : tasks_inv A fl tl s → A !! t = Some a → owns tl t i →
  (∀ y, sp_pt a !! y ≠ Some i) → length d = PGBYTES → bytes_ok d →
  let s' := set_pm (mach_of s, put_page i d (pmem_of s)) s in
  tasks_inv A fl tl s' ∧ ∀ va, trans (sp_pt a) (pmem_of s') va = trans (sp_pt a) (pmem_of s) va.
Proof.
  intros I Ha Ho Hy Hl Hb s'.
  assert (Hsame : ∀ t' a' y n, A !! t' = Some a' → sp_pt a' !! y = Some n →
    page_data (pmem_of s') n = page_data (pmem_of s) n ∧ n ∈ pg_inuse (pmem_of s')).
  { intros t' a' y n Ha' Hn. unfold s', pmem_of. cbn. rewrite page_data_put.
    pose proof (ti_space _ _ _ _ I t' a' Ha') as So'. split; [|by apply (pt_page _ _ _ (so_tree _ _ _ _ So') y)].
    rewrite decide_False; [done|]. intros ->. destruct (decide (t' = t)) as [->|Hne]; [apply (Hy y); congruence|].
    apply Hne. eapply owns_inj; [apply I| |done]. by apply (so_owned _ _ _ _ So' y). }
  split; [|by apply (pt_inv_same (sp_root a) _ _ _ (so_tree _ _ _ _ (ti_space _ _ _ _ I t a Ha))); intros; eapply Hsame].
  destruct I as [I1 I2 I3 I4 I5 I6 I7 I8]. split; try done.
  - by apply pages_inv_put.
  - by eapply slots_inv_pages, I2.
  - by eapply slots_inv_pages, I3.
  - intros t' a' Ha'. pose proof (I5 t' a' Ha') as [? ? Tr ? ? ? ?]. split; try done.
    apply (pt_inv_same _ _ _ _ Tr). intros. by eapply Hsame.
Qed.
Lemma tframe_fill t k j fl tl pt s fl' tl' pt' s' i d : tframe t k j fl tl pt s fl' tl' pt' s' →
  i ∉ pg_inuse (pmem_of s) → tframe t k j fl tl pt s fl' tl' pt' (set_pm (mach_of s', put_page i d (pmem_of s')) s').
Proof.
  intros [(n & nt & L & [G1 G2 G3 G4] & P) ? ? ? ? ? Fp] Hi. split; try done.
  - exists n, nt. split; [done|]. split; [|done]. by split.
  - intros n' Hn. unfold pmem_of at 2. cbn. rewrite page_data_put. destruct (Fp n' Hn) as [Hp Hd].
    rewrite decide_False; [done|]. intros ->. by apply Hi, Hn.
Qed.

(** [svmmap] for the table of the task. *)
Lemma task_svmmap_step A fl tl s t a qa qp attr ut : tasks_inv A fl tl s → A !! t = Some a →
  (2 ≤ length fl)%nat → 0 ≤ qa → qa * 2 ^ 12 + PGSIZE ≤ VA_TOP → 0 ≤ qp → qp * 2 ^ 12 + PGSIZE ≤ PHY_TOP → 0 ≤ attr < 2 ^ 10 →
  ut = Some t →
  ∃ s' fl' tl' pt', on_page (svmmap (paddr_of (sp_root a)) (qa * 2 ^ 12) (qp * 2 ^ 12) PGSIZE attr ut) s = Ok tt s' ∧
    tasks_inv (<[t := MkSpace (sp_root a) pt' (sp_vmas a)]> A) fl' tl' s' ∧ tframe t 2 0 fl tl (sp_pt a) s fl' tl' pt' s' ∧
    ts_vmas s' = ts_vmas s ∧ ts_nodes s' = ts_nodes s ∧
    ∀ va', vaddr va' → trans pt' (pmem_of s') va' =
      if decide (in_range (qa * 2 ^ 12) 1 va') then mapped_pte (qa * 2 ^ 12) (qp * 2 ^ 12) attr va'
      else trans (sp_pt a) (pmem_of s) va'.
Proof.
  intros I Ha Hfl Hqa Hva Hqp Hpa Hattr ->. pose proof (ti_space _ _ _ _ I t a Ha) as So.
  assert (V : vm_ok fl tl (sp_root a) (sp_pt a) (ts_pm s)) by (split; [apply I|apply So|apply I]).
  destruct (svmmap_spec qa qp PGSIZE attr (Some t) fl tl (sp_root a) (sp_pt a) (ts_pm s) V)
    as (fl' & tl' & pt' & x & E & V' & [(n & -> & -> & Hu & Hn) Hk _ Hm Hp] & T); try done; [apply So|].
  change ((PGSIZE + 4095) / 4096) with 1 in *. change (2 * Z.to_nat 1)%nat with 2%nat in *.
  set (s' := set_pm x s). exists s', fl', (give (Some t) n tl), pt'. split; [by apply on_page_ok|].
  assert (G : mgrow t n n (n ++ fl') tl (pmem_of s) fl' (give (Some t) n tl) (pmem_of s')) by (by split).
  assert (F : tframe t 2 0 (n ++ fl') tl (sp_pt a) s fl' (give (Some t) n tl) pt' s').
  { split; try done; [|cbn; lia]. exists n, n. rewrite length_app in Hk. split; [lia|]. done. }
  split; [|done]. eapply tasks_inv_next; try done; try apply V'.
  - eapply slots_inv_pages, (ti_vmas _ _ _ _ I). intros q. eapply mgrow_page_ok; [apply I|done].
  - apply So.
  - intros o Ho. split; [by apply (so_live _ _ _ _ So)|by left].
  - apply I.
Qed.

Lemma own_node_spec {K} `{Countable K} (k : K) (h : gmap K (list_node K)) :
  is_Some (own_node k h !! k) ∧ (∀ k', k' ≠ k → own_node k h !! k' = h !! k') ∧ (∀ k', is_Some (h !! k') → own_node k h !! k' = h !! k').
Proof.
  unfold own_node. destruct (h !! k) as [n|] eqn:E; [split; [by eexists|done]|]. rewrite lookup_insert_eq. split_and!; [by eexists| |].
  - intros k' Hk. by rewrite lookup_insert_ne.
  - intros k' Hk. rewrite lookup_insert_ne; [done|]. intros ->. rewrite E in Hk. by destruct Hk.
Qed.

(** The part of [task_vmmap] before [svmmap]: a new record at the end of the list. *)
Lemma task_record_step A fl tl s t a v : tasks_inv A fl tl s → A !! t = Some a → fl ≠ [] →
  refs (ts_vmas s) < Z.of_nat (NSLOT_DEFAULT * NVMA_CHUNK) →
  ∃ o s' fl', (∀ (k : unit → TM unit),
      (let! o := alloc_vma_slot in
       modify (set_vmas (store_obj vma0 o v)) ;;
       let! _ := mm_of t in
       vnodes_op (λ h, list_pushback (VmaHead t) (VmaNode o) (own_node (VmaNode o) h)) ;; k tt) s = k tt s') ∧
    tasks_inv (<[t := MkSpace (sp_root a) (sp_pt a) (sp_vmas a ++ [o])]> A) fl' tl s' ∧
    tframe t 1 1 fl tl (sp_pt a) s fl' tl (sp_pt a) s' ∧ ¬ vma_live s o ∧ vma_val s' o = v ∧
    ∀ va, trans (sp_pt a) (pmem_of s') va = trans (sp_pt a) (pmem_of s) va.
Proof.
  intros I Ha Hfl Hr. pose proof (ti_space _ _ _ _ I t a Ha) as So. destruct s as [[m p] vs ms ns ts].
  set (s := MkTms (m, p) vs ms ns ts) in *. pose proof (ti_pages _ _ _ _ I) as Ip. pose proof (ti_quiet _ _ _ _ I) as Hq.
  destruct (alloc_slot_spec VmaSlot NVMA_CHUNK vma0 ltac:(unfold NVMA_CHUNK; lia) m p vs fl tl Hq (ti_vmas _ _ _ _ I) Ip)
    as [(o & p' & vs1 & fl' & E & Ip' & Iv' & (Hn1 & Hn2 & Hn3) & Hrefs & n & Hlen & (Efl & Hu & Hd) & Hpg)|[[Hf _]|[Hf _]]];
    [|change (ts_vmas s) with vs in Hr; rewrite (refs_full NVMA_CHUNK vma0 ltac:(unfold NVMA_CHUNK; lia) tl p vs (ti_vmas _ _ _ _ I) Hf) in Hr; lia|done].
  destruct (so_mm _ _ _ _ So) as (mm & Emm & Hmm). unfold mm_ptr in Emm. cbn in Emm.
  destruct (ts !! t) as [tm|] eqn:Etm; [|done]. cbn in Emm.
  destruct (own_node_spec (VmaNode o) ns) as (O1 & O2 & O3).
  assert (Hov : o ∉ sp_vmas a) by (intros Ho; by apply Hn1, (so_live _ _ _ _ So)).
  assert (Hnl : VmaNode o ∉ VmaHead t :: (VmaNode <$> sp_vmas a)).
  { rewrite not_elem_of_cons. split; [done|]. by intros (? & [= ->] & ?)%list_elem_of_fmap. }
  destruct (list_pushback_spec (own_node (VmaNode o) ns) (VmaHead t) (VmaNode <$> sp_vmas a) (VmaNode o)) as (h & Eh & Hdl & Hfr & _).
  { eapply dlist_frame, (so_list _ _ _ _ So). intros k Hk. apply O3. by eapply dlist_elem, Hk; apply (so_list _ _ _ _ So). }
  { done. } { done. }
  set (s' := MkTms (touch m, p') (store_obj vma0 o v vs1) ms h ts). exists o, s', fl'. split.
  { intros k. assert (Ea : alloc_vma_slot s = Ok o (MkTms (touch m, p') vs1 ms ns ts))
      by (unfold alloc_vma_slot, zoom; cbn [ts_pm ts_vmas s]; by rewrite E).
    run Ea. go. unfold mm_of, task_mem. go. rewrite (bind_deref _ _ _ tm) by done. cbn [set_vmas ts_pm ts_mms ts_nodes ts_tasks ts_vmas].
    rewrite Emm. go. unfold vnodes_op. erewrite bind_update; [done|]. cbn. by rewrite Eh. }
  assert (Hlive : ∀ o', vma_live s' o' ↔ live NVMA_CHUNK vma0 vs1 o') by (intros o'; apply store_obj_live).
  assert (Hval : ∀ o', vma_val s' o' = if decide (o = o') then v else c_obj (chunk_of vma0 vs1 o')) by (intros; apply store_obj_same).
  assert (Hfree : ∀ i, i ∈ n → i ∉ pg_inuse p). { intros i Hi. apply (pi_inuse _ _ _ Ip). rewrite Efl. set_solver. }
  assert (Hd' : ∀ i, i ∈ pg_inuse p → page_data p' i = page_data p i ∧ i ∈ pg_inuse p').
  { intros i Hi. split; [apply Hd; intros Hin; by apply (Hfree i)|rewrite Hu; set_solver]. }
  destruct (pt_inv_same _ _ _ p' (so_tree _ _ _ _ So)) as [P' T'].
  { intros y i Hy. apply Hd'. by apply (pt_page _ _ _ (so_tree _ _ _ _ So) y). }
  assert (G : mgrow t n [] fl tl p fl' tl p') by (split; [done|by rewrite give_nil|set_solver|done]).
  assert (Hold : ∀ o', vma_live s o' → o' ≠ o) by (intros o' Ho' ->; done).
  assert (F : tframe t 1 1 fl tl (sp_pt a) s fl' tl (sp_pt a) s').
  { split; try done.
    - exists n, []. split; [done|]. split; [done|]. by left.
    - intros o' Ho'. rewrite Hlive, Hval, decide_False by (intros ->; done).
      destruct (Hn3 o' (Hold o' Ho')) as [H1 H2]. split; [by apply H1|]. by apply H2.
    - intros i [Hi Hy]. destruct (Hd' i Hi). done. }
  split; [|split_and!; [done|done|by rewrite Hval, decide_True|done]].
  eapply tasks_inv_next; try done.
  - by apply store_obj_inv.
  - by rewrite fmap_app.
  - intros o' [Ho'| ->%list_elem_of_singleton]%elem_of_app.
    + split; [apply (tf_vma _ _ _ _ _ _ _ _ _ _ _ F); by apply (so_live _ _ _ _ So)|by left].
    + split; [by apply Hlive|by right].
  - intros k Hk1 Hk2. cbn. rewrite Hfr, O2; [done|..].
    + intros ->. by destruct (Hk2 o eq_refl).
    + rewrite !not_elem_of_cons. split_and!; [done|intros ->; by destruct (Hk2 o eq_refl)|].
      intros (o' & -> & Ho')%list_elem_of_fmap. by destruct (Hk2 o' eq_refl).
  - intros o1 o2 H1 H2. destruct (decide (o1 = o)) as [->|Hne].
    + destruct Hpg as [Hpg|[i Hpg]].
      * intros E2. rewrite E2 in Hpg. apply (Hfree _ Hpg). destruct H2 as (k & sl & Es & Eq & _).
        pose proof (sv_slot _ _ _ _ _ (ti_mms _ _ _ _ I) k sl Es) as Hsl. unfold slot_ok in Hsl. rewrite Eq in Hsl. apply Hsl.
      * by apply (ti_sep _ _ _ _ I (o.1, i) o2).
    + apply (ti_sep _ _ _ _ I o1 o2); [|done]. apply Hlive in H1. by apply (Hn3 o1 Hne).
Qed.

(** ** [task_vmmap] and [copy_pagetable] *)

(** The leaf entries a record stands for, over entries [f]; later records win. *)
Definition vstep (v : vma) (f : Z → Z) (va : Z) : Z :=
  if decide (in_range (v_va v) 1 va) then mapped_pte (v_va v) (v_pa v) (v_attr v) va else f va.
Definition vtrans (l : list vma) (f : Z → Z) : Z → Z := foldl (λ f v, vstep v f) f l.
Lemma vtrans_ext l f g va : f va = g va → vtrans l f va = vtrans l g va.
Proof. revert f g. induction l as [|v l IH]; intros f g E; [done|]. apply IH. unfold vstep. by rewrite E. Qed.
Lemma vtrans_app l1 l2 f : vtrans (l1 ++ l2) f = vtrans l2 (vtrans l1 f).
Proof. apply foldl_app. Qed.

(** The arguments of [task_vmmap] for one page. *)
Definition page_args (qa : Z) (i : nat) (attr : Z) : Prop :=
  0 ≤ qa ∧ qa * 2 ^ 12 + PGSIZE ≤ TRAPFRAME ∧ (i < NPAGE)%nat ∧ 0 ≤ attr < 2 ^ 10.
Lemma task_vmmap_step A fl tl s t a qa i attr ty : tasks_inv A fl tl s → A !! t = Some a →
  (3 ≤ length fl)%nat → refs (ts_vmas s) < Z.of_nat (NSLOT_DEFAULT * NVMA_CHUNK) → page_args qa i attr →
  let v := MkVma (qa * 2 ^ 12) (paddr_of i) PGSIZE ty attr in
  ∃ o s' fl' tl' pt', task_vmmap t (qa * 2 ^ 12) (paddr_of i) PGSIZE attr ty s = Ok tt s' ∧
    tasks_inv (<[t := MkSpace (sp_root a) pt' (sp_vmas a ++ [o])]> A) fl' tl' s' ∧
    tframe t 3 1 fl tl (sp_pt a) s fl' tl' pt' s' ∧ ¬ vma_live s o ∧ vma_val s' o = v ∧
    ∀ va, vaddr va → trans pt' (pmem_of s') va = vstep v (trans (sp_pt a) (pmem_of s)) va.
Proof.
  intros I Ha Hfl Hr (Hqa & Hva & Hi & Hattr) v.
  destruct (task_record_step A fl tl s t a v I Ha) as (o & s1 & fl1 & E1 & I1 & F1 & Hnl & Hv & T1); [intros ->; cbn in Hfl; lia|done|].
  set (a1 := MkSpace (sp_root a) (sp_pt a) (sp_vmas a ++ [o])) in *. pose proof (tf_free _ _ _ _ _ _ _ _ _ _ _ F1).
  pose proof (ti_space _ _ _ _ I1 t a1 ltac:(apply lookup_insert_eq)) as So1.
  destruct (task_svmmap_step _ fl1 tl s1 t a1 qa (2 ^ 19 + Z.of_nat i) attr (Some t) I1) as (s2 & fl2 & tl2 & pt2 & E2 & I2 & F2 & Ev & _ & T2);
    [apply lookup_insert_eq|lia|done|unfold TRAPFRAME, TRAMPOLINE, PGSIZE in *; lia|lia| |done|done|].
  { pose proof NPAGE_Z. change PHY_TOP with 0xA0000000. unfold PGSIZE. lia. }
  rewrite <- paddr_frame in E2, T2. rewrite insert_insert_eq in I2. change (1 + 0) with 1.
  exists o, s2, fl2, tl2, pt2. split_and!; [|done|exact (tframe_trans _ _ _ _ _ _ _ _ _ _ _ _ _ _ _ _ _ F1 F2)|done|unfold vma_val; by rewrite Ev|].
  - unfold task_vmmap. etransitivity; [apply (E1 (λ _, let! tm := task_mem t in on_page (svmmap (t_pagetable tm) _ _ _ _ _)))|].
    pose proof (so_ptb _ _ _ _ So1) as Hp. unfold task_mem.
    destruct (ts_tasks s1 !! t) as [tm|] eqn:Etm; [|done]. injection Hp as Hp. rewrite (bind_deref _ _ _ tm) by done.
    by rewrite Hp.
  - intros va Hvd. rewrite T2, T1 by done. done.
Qed.

(** Record [o] is a page of task [t] that holds no table. *)
Definition vma_good (tl : gmap nat (list nat)) (s : tms) (t : nat) (pt : gmap (list Z) nat) (o : optr) (i : nat) : Prop :=
  ∃ qa attr ty, vma_val s o = MkVma (qa * 2 ^ 12) (paddr_of i) PGSIZE ty attr ∧ page_args qa i attr ∧
    Z.land attr PTE_RWX ≠ 0 ∧ owns tl t i ∧ ∀ y, pt !! y ≠ Some i.
(** Record [o'] of the child maps a new page with the contents the page of record
    [o] had, at the same address and with the same rights. *)
Definition vma_copy (s s' : tms) (o o' : optr) : Prop :=
  ∃ va ty attr i i', vma_val s o = MkVma va (paddr_of i) PGSIZE ty attr ∧
    vma_val s' o' = MkVma va (paddr_of i') PGSIZE ty attr ∧ (i < NPAGE)%nat ∧ (i' < NPAGE)%nat ∧ 
    i ∈ pg_inuse (pmem_of s) ∧ i' ∉ pg_inuse (pmem_of s) ∧ page_data (pmem_of s') i' = page_data (pmem_of s) i.

(** [memcpy] of a page. *)
Lemma memcpy_page_spec i j m p : (i < NPAGE)%nat → (j < NPAGE)%nat → mem_ok p →
  memcpy_page (paddr_of j) (paddr_of i) (m, p) = Ok tt (m, put_page j (page_data p i) p).
Proof.
  intros Hi Hj Hm. unfold memcpy_page, ld_bytes, st_bytes.
  assert (Hpo : ∀ k, (k < NPAGE)%nat → ram_page (paddr_of k) = Some k ∧ page_off (paddr_of k) = 0%nat).
  { intros k Hk. destruct (pte_addr k 0 Hk) as (_ & E1 & E2); [unfold idx; lia|]. rewrite Z.add_0_r in *. done. }
  destruct (Hpo i Hi) as [E1 E2], (Hpo j Hj) as [E3 E4]. destruct (Hm i) as [Hl _], (Hm j) as [Hl' _].
  rewrite (bind_deref _ _ _ (page_data p i)).
  2: { rewrite E1, E2. cbn. rewrite drop_0, firstn_all2 by lia. by rewrite decide_True by lia. }
  unfold update. rewrite E3, E4. cbn [mbind option_bind]. rewrite decide_True by (rewrite Hl; done). cbn [fst snd]. do 3 f_equal.
  unfold blit. cbn [take app Nat.add]. rewrite Hl, drop_ge by lia. by rewrite app_nil_r.
Qed.

Lemma vma_good_frame t k j fl tl pt s fl' tl' pt' s' t' qt qt' o i : tframe t k j fl tl pt s fl' tl' pt' s' →
  vma_live s o → vma_good tl s t' qt o i → (∀ y, qt' !! y ≠ Some i) → vma_good tl' s' t' qt' o i.
Proof.
  intros F Ho (qa & attr & ty & Ev & Hargs & Hr & Hown & _) Hy. exists qa, attr, ty.
  rewrite (proj2 (tf_vma _ _ _ _ _ _ _ _ _ _ _ F o Ho)). split_and!; try done; [apply Hargs..|]. by eapply tf_owns.
Qed.
(** One round of the loop. *)
Lemma copy_round A fl tl s c p a b o i (g : TM unit) : tasks_inv A fl tl s → A !! c = Some a → A !! p = Some b → c ≠ p →
  o ∈ sp_vmas b → vma_good tl s p (sp_pt b) o i → (4 ≤ length fl)%nat → refs (ts_vmas s) < Z.of_nat (NSLOT_DEFAULT * NVMA_CHUNK) →
  ∃ o' s' fl' tl' pt',
    (let! pvm := gets (λ s, vma_val s o) in
     let! page := on_page (alloc_page_for_task c) in
     on_page (memcpy_page (paddr_of page) (v_pa pvm)) ;;
     task_vmmap c (v_va pvm) (paddr_of page) (v_size pvm) (v_attr pvm) (v_type pvm) ;; g) s = g s' ∧
    tasks_inv (<[c := MkSpace (sp_root a) pt' (sp_vmas a ++ [o'])]> A) fl' tl' s' ∧
    tframe c 4 1 fl tl (sp_pt a) s fl' tl' pt' s' ∧ vma_copy s s' o o' ∧ (∃ i', vma_good tl' s' c pt' o' i' ∧ i' ∈ pg_inuse (pmem_of s')) ∧
    (∀ va, vaddr va → trans pt' (pmem_of s') va = vstep (vma_val s' o') (trans (sp_pt a) (pmem_of s)) va).
Proof.
  intros I Ha Hb Hne Ho Hg Hfl Hr. destruct Hg as (qa & attr & ty & Ev & Hargs & Hrw & Hown & Hy).
  pose proof Hargs as (_ & _ & Hi & _). destruct fl as [|j fl]; [cbn in Hfl; lia|].
  destruct (task_page_step A j fl tl s c a I Ha) as (s1 & E1 & I1 & F1 & Ev1 & En1 & Hz & Hp1 & Hj & Hju & T1).
  pose proof (owns_page _ _ _ _ _ (ti_pages _ _ _ _ I1) Hj) as [Hjn _].
  assert (Hlo : vma_live s o) by (by apply (so_live _ _ _ _ (ti_space _ _ _ _ I p b Hb))).
  pose proof (other_plain A (j :: fl) tl s c a p i I Ha (not_eq_sym Hne) Hown) as Hip.
  destruct (tf_plain _ _ _ _ _ _ _ _ _ _ _ F1 i Hip) as [_ Hd1].
  set (d := page_data (pmem_of s) i) in *.
  destruct (page_data_ok _ _ _ i (ti_pages _ _ _ _ I)) as [Hdl Hdb]. fold d in Hdl, Hdb.
  destruct (task_fill A fl _ s1 c a j d I1 Ha Hj (proj2 Hp1) Hdl Hdb) as [I2 T2].
  set (s2 := set_pm (mach_of s1, put_page j d (pmem_of s1)) s1) in *.
  pose proof (tframe_fill _ _ _ _ _ _ _ _ _ _ _ j d F1 Hju) as F2. fold s2 in F2.
  assert (E2 : on_page (memcpy_page (paddr_of j) (paddr_of i)) s1 = Ok tt s2).
  { apply on_page_ok. pose proof (memcpy_page_spec i j (mach_of s1) (pmem_of s1) Hi Hjn (inv_mem_ok _ _ _ (ti_pages _ _ _ _ I1))) as E.
    rewrite Hd1 in E. rewrite (surjective_pairing (ts_pm s1)). exact E. }
  destruct Hargs as (Hq1 & Hq2 & _ & Hq3).
  destruct (task_vmmap_step A fl _ s2 c a qa j attr ty I2 Ha) as (o' & s3 & fl3 & tl3 & pt3 & E3 & I3 & F3 & Hnl & Hv3 & T3).
  { cbn in Hfl. lia. } { rewrite (tf_refs _ _ _ _ _ _ _ _ _ _ _ F2). lia. } { done. }
  assert (Hpj : plain_page (sp_pt a) (pmem_of s2) j) by apply Hp1.
  destruct (tf_plain _ _ _ _ _ _ _ _ _ _ _ F3 j Hpj) as [Hp3 Hd3].
  pose proof (tframe_trans _ _ _ _ _ _ _ _ _ _ _ _ _ _ _ _ _ F2 F3) as F.
  exists o', s3, fl3, tl3, pt3. split; [|split; [done|split; [exact F|split; [|split]]]].
  - go. rewrite Ev. cbn [v_va v_pa v_size v_attr v_type]. run E1. run E2. by run E3.
  - exists (qa * 2 ^ 12), ty, attr, i, j. split_and!; try done; [apply Hip|]. rewrite Hd3. unfold s2, pmem_of at 1. cbn.
    by rewrite page_data_put, decide_True.
  - exists j. split; [|apply Hp3]. exists qa, attr, ty. split_and!; try done; [apply (tf_owns _ _ _ _ _ _ _ _ _ _ _ _ _ F3 Hj)|apply Hp3].
  - intros va Hva. rewrite Hv3, T3 by done. unfold vstep. rewrite T2, T1. done.
Qed.
Lemma vma_copy_frame k j fl tl pt s fl' tl' pt' s1 s' t o o' : tframe t k j fl tl pt s1 fl' tl' pt' s' →
  vma_live s1 o' → (∀ i, vma_val s1 o' = MkVma (v_va (vma_val s1 o')) (paddr_of i) PGSIZE (v_type (vma_val s1 o')) (v_attr (vma_val s1 o')) →
    (i < NPAGE)%nat → plain_page pt (pmem_of s1) i) → vma_copy s s1 o o' → vma_copy s s' o o'.
Proof.
  intros F Hl Hp (va & ty & attr & i & i' & E1 & E2 & H1 & H2 & H3 & H4 & H5). exists va, ty, attr, i, i'.
  destruct (tf_vma _ _ _ _ _ _ _ _ _ _ _ F o' Hl) as [_ Ev]. rewrite Ev. split_and!; try done.
  rewrite <- H5. apply (tf_plain _ _ _ _ _ _ _ _ _ _ _ F). apply Hp; [|done]. by rewrite E2.
Qed.
(** The copy of a record that was there before a step is a copy of it from the state
    before the step. *)
Lemma vma_copy_start k j fl tl pt s fl' tl' pt' s1 s' t o o' : tframe t k j fl tl pt s fl' tl' pt' s1 →
  vma_live s o → (∀ i, v_pa (vma_val s o) = paddr_of i → (i < NPAGE)%nat → plain_page pt (pmem_of s) i) →
  vma_copy s1 s' o o' → vma_copy s s' o o'.
Proof.
  intros F Hl Hp (va & ty & attr & i & i' & E1 & E2 & H1 & H2 & H3 & H4 & H5). exists va, ty, attr, i, i'.
  destruct (tf_vma _ _ _ _ _ _ _ _ _ _ _ F o Hl) as [_ Ev]. rewrite Ev in E1.
  destruct (tf_grow _ _ _ _ _ _ _ _ _ _ _ F) as (n & nt & _ & G & _).
  destruct (Hp i) as [Hi Hy]; [by rewrite E1|done|]. destruct (tf_plain _ _ _ _ _ _ _ _ _ _ _ F i) as [_ Hd]; [done|].
  split_and!; try done; [|congruence]. intros Hin. apply H4. rewrite (mg_inuse _ _ _ _ _ _ _ _ _ G). set_solver.
Qed.
Lemma Forall2_impl_in {X Y} (R Q : X → Y → Prop) l k : Forall2 R l k → (∀ x y, x ∈ l → y ∈ k → R x y → Q x y) → Forall2 Q l k.
Proof. induction 1; intros HQ; constructor; [apply HQ; set_solver|]. apply IHForall2. intros. apply HQ; set_solver. Qed.
Lemma paddr_inj i j : paddr_of i = paddr_of j → i = j.
Proof. unfold paddr_of, PGSIZE. lia. Qed.

Lemma copy_loop_spec c p b rest : c ≠ p → ∀ pre A fl tl s a fuel,
  tasks_inv A fl tl s → A !! c = Some a → A !! p = Some b → sp_vmas b = pre ++ rest →
  (∀ o, o ∈ rest → ∃ i, vma_good tl s p (sp_pt b) o i) → (length rest ≤ fuel)%nat → (4 * length rest ≤ length fl)%nat →
  refs (ts_vmas s) + Z.of_nat (length rest) ≤ Z.of_nat (NSLOT_DEFAULT * NVMA_CHUNK) →
  ∃ s' fl' tl' pt' os, copy_loop fuel c p (Some (default (VmaHead p) (hd_error (VmaNode <$> rest)))) s = Ok tt s' ∧
    tasks_inv (<[c := MkSpace (sp_root a) pt' (sp_vmas a ++ os)]> A) fl' tl' s' ∧
    tframe c (4 * length rest) (Z.of_nat (length rest)) fl tl (sp_pt a) s fl' tl' pt' s' ∧
    Forall2 (vma_copy s s') rest os ∧ (∀ o, o ∈ os → ∃ i, vma_good tl' s' c pt' o i) ∧
    (∀ va, vaddr va → trans pt' (pmem_of s') va = vtrans (vma_val s' <$> os) (trans (sp_pt a) (pmem_of s)) va).
Proof.
  intros Hne. induction rest as [|o rest IH]; intros pre A fl tl s a fuel I Ha Hb Hvs Hg Hfu Hfl Hr.
  { exists s, fl, tl, (sp_pt a), []. rewrite app_nil_r. split; [destruct fuel; cbn [copy_loop fmap list_fmap hd_error default]; by rewrite bool_decide_eq_true_2|].
    split; [by rewrite insert_id by (by destruct a)|]. split; [apply tframe_refl|]. split; [constructor|].
    split; [|done]. intros o Ho. by apply elem_of_nil in Ho. }
  destruct fuel as [|fuel]; [cbn in Hfu; lia|]. cbn [copy_loop fmap list_fmap hd_error default].
  rewrite bool_decide_eq_false_2 by done. go.
  destruct (Hg o) as [i Hgo]; [by left|]. assert (Hob : o ∈ sp_vmas b) by (rewrite Hvs; set_solver).
  cbn [length] in *.
  destruct (copy_round A fl tl s c p a b o i (let! node := deref (λ s, ld_next (ts_nodes s) (Some (VmaNode o))) in copy_loop fuel c p node)
    I Ha Hb Hne Hob Hgo) as (o' & s1 & fl1 & tl1 & pt1 & E1 & I1 & F1 & C1 & (i' & G1 & U1) & T1); [lia|lia|].
  cbn [mbind option_bind vma_of_node]. go. setoid_rewrite E1. clear E1.
  set (a1 := MkSpace (sp_root a) pt1 (sp_vmas a ++ [o'])) in *. set (A1 := <[c := a1]> A) in *.
  assert (Hb1 : A1 !! p = Some b) by (by unfold A1; rewrite lookup_insert_ne).
  assert (Hn1 : ld_next (ts_nodes s1) (Some (VmaNode o)) = Some (Some (default (VmaHead p) (hd_error (VmaNode <$> rest))))).
  { pose proof (so_list _ _ _ _ (ti_space _ _ _ _ I1 p b Hb1)) as D. rewrite Hvs, fmap_app in D. by eapply dlist_next. }
  rewrite (bind_deref s1 (λ s, ld_next (ts_nodes s) (Some (VmaNode o))) _ _ Hn1).
  assert (Hlv : ∀ x, x ∈ sp_vmas b → vma_live s x) by apply (so_live _ _ _ _ (ti_space _ _ _ _ I p b Hb)).
  assert (Ha1 : A1 !! c = Some a1) by apply lookup_insert_eq.
  pose proof (tf_free _ _ _ _ _ _ _ _ _ _ _ F1) as Hfree. pose proof (tf_refs _ _ _ _ _ _ _ _ _ _ _ F1) as Hrefs.
  destruct (IH (pre ++ [o]) A1 fl1 tl1 s1 a1 fuel I1 Ha1 Hb1) as (s2 & fl2 & tl2 & pt2 & os & E2 & I2 & F2 & C2 & G2 & T2).
  { by rewrite <- app_assoc. }
  { intros x Hx. destruct (Hg x) as [ix Hgx]; [by right|]. exists ix. eapply vma_good_frame; [exact F1| |done|by destruct Hgx as (? & ? & ? & _ & _ & _ & _ & Hpx)].
    apply Hlv. rewrite Hvs. set_solver. }
  { lia. } { lia. } { lia. }
  exists s2, fl2, tl2, pt2, (o' :: os). split; [done|]. unfold A1 in I2. rewrite insert_insert_eq in I2. cbn [sp_vmas sp_root a1] in I2.
  rewrite <- app_assoc in I2. split; [done|].
  assert (Hl1 : vma_live s1 o').
  { apply (so_live _ _ _ _ (ti_space _ _ _ _ I1 c a1 Ha1)). unfold a1. cbn. set_solver. }
  pose proof G1 as (qa1 & at1 & ty1 & Ev1 & _ & _ & _ & Hpt1).
  destruct (tf_vma _ _ _ _ _ _ _ _ _ _ _ F2 o' Hl1) as [_ Ev2].
  destruct (tf_plain _ _ _ _ _ _ _ _ _ _ _ F2 i') as [Hpl2 _]; [by split|].
  split; [|split; [|split]].
  - replace (4 * S (length rest))%nat with (4 + 4 * length rest)%nat by lia. replace (Z.of_nat (S (length rest))) with (1 + Z.of_nat (length rest)) by lia.
    exact (tframe_trans _ _ _ _ _ _ _ _ _ _ _ _ _ _ _ _ _ F1 F2).
  - constructor.
    + eapply vma_copy_frame; [exact F2|done| |done]. intros k Ek _. rewrite Ev1 in Ek. injection Ek as Ek.
      apply paddr_inj in Ek as <-. done.
    + eapply Forall2_impl_in; [exact C2|]. intros x y Hx Hy Hxy. assert (x ∈ sp_vmas b) by (rewrite Hvs; set_solver).
      eapply vma_copy_start; [exact F1|by apply Hlv| |done]. intros k Ek _. destruct (Hg x) as [ix Hgx]; [by right|].
      destruct Hgx as (qx & atx & tyx & Evx & _ & _ & Hox & _). rewrite Evx in Ek. cbn in Ek. apply paddr_inj in Ek as <-.
      by eapply (other_plain A fl tl s c a p ix I Ha (not_eq_sym Hne)).
  - intros x [->|Hx]%elem_of_cons; [|by apply G2]. exists i'. eapply vma_good_frame; [exact F2|done|done|]. apply Hpl2.
  - intros va Hva. rewrite T2 by done. cbn [fmap list_fmap]. change (vtrans (?v :: ?l) ?f) with (vtrans l (vstep v f)). 
    apply vtrans_ext. unfold a1. cbn [sp_pt]. by rewrite T1, Ev2.
Qed.

(** A list has no more nodes than there are. *)
Lemma dlist_size `{Countable K} (h : gmap K (list_node K)) head l : dlist h head l → (length l < S (size h))%nat.
Proof.
  intros D. pose proof D as [Hnd _]. apply NoDup_cons in Hnd as [_ Hnd]. rewrite <- size_dom. apply Nat.lt_succ_r.
  rewrite <- (size_list_to_set (C:=gset K) l Hnd). apply subseteq_size. intros k Hk%elem_of_list_to_set. apply elem_of_dom.
  eapply dlist_elem; [done|by right].
Qed.
Lemma copy_pagetable_spec c p A fl tl s a b : c ≠ p → tasks_inv A fl tl s → A !! c = Some a → A !! p = Some b →
  let n := length (sp_vmas b) in
  (∀ o, o ∈ sp_vmas b → ∃ i, vma_good tl s p (sp_pt b) o i) → (4 * n ≤ length fl)%nat →
  refs (ts_vmas s) + Z.of_nat n ≤ Z.of_nat (NSLOT_DEFAULT * NVMA_CHUNK) →
  ∃ s' fl' tl' pt' os, copy_pagetable c p s = Ok tt s' ∧
    tasks_inv (<[c := MkSpace (sp_root a) pt' (sp_vmas a ++ os)]> A) fl' tl' s' ∧
    tframe c (4 * n) (Z.of_nat n) fl tl (sp_pt a) s fl' tl' pt' s' ∧
    Forall2 (vma_copy s s') (sp_vmas b) os ∧ (∀ o, o ∈ os → ∃ i, vma_good tl' s' c pt' o i) ∧
    (∀ va, vaddr va → trans pt' (pmem_of s') va = vtrans (vma_val s' <$> os) (trans (sp_pt a) (pmem_of s)) va).
Proof.
  intros Hne I Ha Hb n Hg Hfl Hr. pose proof (ti_space _ _ _ _ I p b Hb) as So. pose proof (so_list _ _ _ _ So) as D.
  destruct (so_mm _ _ _ _ So) as (mm & Emm & _). unfold mm_ptr in Emm. destruct (ts_tasks s !! p) as [tm|] eqn:Etm; [|done]. cbn in Emm.
  unfold copy_pagetable, mm_of, task_mem. go. rewrite (bind_deref _ _ _ tm) by done. rewrite Emm. go.
  rewrite (bind_deref s (λ s, ld_next (ts_nodes s) (Some (VmaHead p))) _ _ (dlist_first _ _ _ D)). go.
  apply (copy_loop_spec c p b (sp_vmas b) Hne [] A fl tl s a (list_fuel s)); try done. unfold list_fuel.
  pose proof (dlist_size _ _ _ D) as Hs. rewrite length_fmap in Hs. lia.
Qed.

(** ** What a task sees *)

(** The page and the byte behind an address, with the rights. *)
Definition pte_frame (x va : Z) : option nat := if maps x then ram_page (frame_pa x va) else None.
Definition pte_view (p : pmem) (x va : Z) : option (Z * Z) :=
  i ← pte_frame x va; b ← page_data p i !! Z.to_nat (va mod 4096); Some (b, x mod 2 ^ 10).
Definition mem_frame (s : tms) (a : space) (va : Z) : option nat := pte_frame (trans (sp_pt a) (pmem_of s) va) va.
Definition mem_view (s : tms) (a : space) (va : Z) : option (Z * Z) :=
  pte_view (pmem_of s) (trans (sp_pt a) (pmem_of s) va) va.
(** User addresses lie below the trap frame. *)
Definition uaddr (va : Z) : Prop := 0 ≤ va < TRAPFRAME.
(** The table of the task maps what its records say. *)
Record mem_desc (tl : gmap nat (list nat)) (s : tms) (t : nat) (a : space) : Prop := {
  md_good o : o ∈ sp_vmas a → ∃ i, vma_good tl s t (sp_pt a) o i;
  md_trans va : uaddr va → trans (sp_pt a) (pmem_of s) va = vtrans (vma_val s <$> sp_vmas a) (λ _, 0) va;
}.

Lemma uaddr_vaddr va : uaddr va → vaddr va.
Proof. unfold uaddr, vaddr, TRAPFRAME, TRAMPOLINE, VA_TOP, PGSIZE. lia. Qed.
Lemma pte_mapped qa i attr va : page_args qa i attr → Z.land attr PTE_RWX ≠ 0 → in_range (qa * 2 ^ 12) 1 va →
  let x := mapped_pte (qa * 2 ^ 12) (paddr_of i) attr va in pte_frame x va = Some i ∧ x mod 2 ^ 10 = Z.lor 1 attr.
Proof.
  intros (Hqa & Hva & Hi & Hat) Hrw Hr x. pose proof NPAGE_Z as HN. unfold in_range in Hr. rewrite Z.div_mul in Hr by lia.
  unfold x. rewrite paddr_frame.
  destruct (mapped_frame qa (2 ^ 19 + Z.of_nat i) attr va Hat Hrw) as [H1 H2]; [lia|]. split.
  - unfold pte_frame. rewrite H1, H2, <- paddr_frame. pose proof (Z.div_mod va 4096 ltac:(lia)) as Hdm. change (2 ^ 12) with 4096 in *.
    replace (paddr_of i + (va - qa * 4096)) with (paddr_of i + va mod 4096) by lia.
    apply ram_page_paddr; [done|]. apply Z.mod_pos_bound. lia.
  - unfold mapped_pte. rewrite Z.div_mul by lia. replace (va / 2 ^ 12 - qa) with 0 by lia. rewrite Z.mul_0_l, Z.add_0_r.
    rewrite leaf_of_frame by done. destruct (leaf_bound (2 ^ 19 + Z.of_nat i) attr) as [_ Hb]; [lia|done|].
    rewrite Z.add_comm, Z.mod_add by lia. by apply Z.mod_small.
Qed.
(** An address that the records map belongs to a page of one of them. *)
Lemma vtrans_case l va : vtrans l (λ _, 0) va = 0 ∨
  ∃ v, v ∈ l ∧ in_range (v_va v) 1 va ∧ vtrans l (λ _, 0) va = mapped_pte (v_va v) (v_pa v) (v_attr v) va.
Proof.
  induction l as [|v l IH] using rev_ind; [by left|]. rewrite vtrans_app. cbn. unfold vstep.
  case_decide; [right; exists v; set_solver|]. destruct IH as [->|(w & Hw & Hw2 & ->)]; [by left|right; exists w; set_solver].
Qed.
Lemma pte_frame_0 va : pte_frame 0 va = None.
Proof. done. Qed.
Lemma desc_frame tl s t a va i : mem_desc tl s t a → uaddr va → mem_frame s a va = Some i →
  owns tl t i ∧ ∀ y, sp_pt a !! y ≠ Some i.
Proof.
  intros D Hva. unfold mem_frame. rewrite (md_trans _ _ _ _ D va Hva).
  destruct (vtrans_case (vma_val s <$> sp_vmas a) va) as [->|(v & (o & -> & Ho)%list_elem_of_fmap & Hr & ->)]; [by rewrite pte_frame_0|].
  destruct (md_good _ _ _ _ D o Ho) as (j & qa & attr & ty & Ev & Hargs & Hrw & Hown & Hy). rewrite Ev in *. cbn in *.
  rewrite (proj1 (pte_mapped qa j attr va Hargs Hrw Hr)). by intros [= <-].
Qed.
(** The child sees what the parent sees. *)
Lemma vtrans_copy tl s s' t pt l os va f g : (∀ o, o ∈ l → ∃ i, vma_good tl s t pt o i) → Forall2 (vma_copy s s') l os →
  pte_view (pmem_of s') (g va) va = pte_view (pmem_of s) (f va) va →
  pte_view (pmem_of s') (vtrans (vma_val s' <$> os) g va) va = pte_view (pmem_of s) (vtrans (vma_val s <$> l) f va) va.
Proof.
  intros Hg C. revert f g. induction C as [|o o' l os Ho C IH]; intros f g Efg; [done|].
  apply IH; [intros; apply Hg; by right|]. destruct (Hg o) as (j & qa & attr & ty & Ev & Hargs & Hrw & _); [by left|].
  destruct Ho as (va0 & ty0 & at0 & i & i' & E1 & E2 & H1 & H2 & _ & _ & Hd). rewrite Ev in E1. injection E1 as <- Ej <- <-.
  apply paddr_inj in Ej as ->. unfold vstep. rewrite Ev, E2. cbn [v_va v_pa v_attr]. case_decide as Hr; [|done].
  assert (Hargs' : page_args qa i' attr) by (destruct Hargs as (? & ? & ? & ?); done).
  destruct (pte_mapped qa i attr va Hargs Hrw Hr) as [F1 M1], (pte_mapped qa i' attr va Hargs' Hrw Hr) as [F2 M2].
  unfold pte_view. rewrite F1, F2, M1, M2. cbn. by rewrite Hd.
Qed.

(** Between two states task [t] keeps its pages and records. *)
Record keeps (tl : gmap nat (list nat)) (s : tms) (tl' : gmap nat (list nat)) (s' : tms) (t : nat) (a : space) : Prop := {
  kp_page i : owns tl t i → owns tl' t i ∧ page_data (pmem_of s') i = page_data (pmem_of s) i;
  kp_vma o : o ∈ sp_vmas a → vma_val s' o = vma_val s o;
}.
Lemma keeps_trans tl s tl1 s1 tl2 s2 t a : keeps tl s tl1 s1 t a → keeps tl1 s1 tl2 s2 t a → keeps tl s tl2 s2 t a.
Proof.
  intros [A1 A2] [B1 B2]. split.
  - intros i Hi. destruct (A1 i Hi) as [H1 H2], (B1 i (proj1 (A1 i Hi))) as [H3 H4]. split; [done|congruence].
  - intros o Ho. by rewrite B2, A2.
Qed.
Lemma tframe_keeps A fl tl s t a k j fl' tl' pt' s' t' b : tasks_inv A fl tl s → A !! t = Some a → A !! t' = Some b →
  t' ≠ t → tframe t k j fl tl (sp_pt a) s fl' tl' pt' s' → keeps tl s tl' s' t' b.
Proof.
  intros I Ha Hb Hne F. split.
  - intros i Hi. split; [by eapply tf_owns|]. apply (tf_plain _ _ _ _ _ _ _ _ _ _ _ F). by eapply other_plain.
  - intros o Ho. apply (tf_vma _ _ _ _ _ _ _ _ _ _ _ F). by apply (so_live _ _ _ _ (ti_space _ _ _ _ I t' b Hb)).
Qed.
(** Then it sees the same memory. *)
Lemma keeps_view fl tl s tl' s' t a : pages_inv fl tl (pmem_of s) → space_ok tl s t a → mem_desc tl s t a → keeps tl s tl' s' t a →
  mem_desc tl' s' t a ∧ ∀ va, uaddr va → mem_frame s' a va = mem_frame s a va ∧ mem_view s' a va = mem_view s a va.
Proof.
  intros Ip So D [K1 K2].
  assert (T : ∀ va, trans (sp_pt a) (pmem_of s') va = trans (sp_pt a) (pmem_of s) va).
  { intros va. unfold trans, leaf. destruct (sp_pt a !! _) as [i|] eqn:E; [|done]. unfold entry.
    by rewrite (proj2 (K1 i (so_owned _ _ _ _ So _ i E))). }
  split; [split|].
  - intros o Ho. destruct (md_good _ _ _ _ D o Ho) as (i & qa & attr & ty & Ev & ? & ? & Hown & ?). exists i, qa, attr, ty.
    rewrite K2 by done. split_and!; try done. by apply K1.
  - intros va Hva. rewrite T, (md_trans _ _ _ _ D va Hva). f_equal. apply list_fmap_ext. intros k o Ho. symmetry. apply K2.
    by eapply list_elem_of_lookup_2.
  - intros va Hva. unfold mem_frame, mem_view, pte_view. rewrite T. split; [done|].
    destruct (pte_frame _ va) as [i|] eqn:E; [|done]. cbn.
    by rewrite (proj2 (K1 i (proj1 (desc_frame tl s t a va i D Hva E)))).
Qed.

(** ** A new address space *)
Lemma pages_inv_new fl tl p t : pages_inv fl tl p → tl !! t = None →
  ∃ h, list_init (TaskPages t) (own_node (TaskPages t) (pg_nodes p)) = Some h ∧ pages_inv fl (<[t := []]> tl) (set_nodes h p).
Proof.
  intros I Ht. destruct (own_node_spec (TaskPages t) (pg_nodes p)) as (O1 & O2 & O3).
  destruct (list_init_spec (TaskPages t) (own_node (TaskPages t) (pg_nodes p)) O1) as (h & Eh & Hd & Hf & Hs).
  exists h. split; [done|]. assert (Hk : ∀ k, k ≠ TaskPages t → h !! k = pg_nodes p !! k) by (intros k Hk; by rewrite Hf, O2).
  assert (Hlook : ∀ t' l, <[t := []]> tl !! t' = Some l → (t' = t ∧ l = []) ∨ (t' ≠ t ∧ tl !! t' = Some l)).
  { intros t' l. destruct (decide (t = t')) as [<-|]; [rewrite lookup_insert_eq; intros [= <-]; by left|].
    rewrite lookup_insert_ne by done. by right. }
  destruct I as [I1 I2 I3 I4 I5 I6 I7]. split; try done.
  - eapply dlist_frame, I1. intros k [->|(j & -> & _)%list_elem_of_fmap]%elem_of_cons; by apply Hk.
  - intros t' l [[-> ->]|[Hne Hl]]%Hlook; [done|]. eapply dlist_frame, (I2 _ _ Hl). intros k [->|(j & -> & _)%list_elem_of_fmap]%elem_of_cons; apply Hk; [congruence|done].
  - intros t' l i [[-> ->]|[Hne Hl]]%Hlook Hi; [by apply elem_of_nil in Hi|by eapply I4].
  - intros t1 t2 l1 l2 i [[-> ->]|[H1 H1']]%Hlook [[-> ->]|[H2 H2']]%Hlook Hi Hi2.
    + done.
    + by apply elem_of_nil in Hi.
    + by apply elem_of_nil in Hi2.
    + by eapply I5.
  - intros i Hi. cbn. rewrite Hk by done. by apply I6.
Qed.

Definition mm_heap (s : tms) (t : nat) : option Z := (λ o, next_heap (mm_val s o)) <$> mm_ptr s t.
(** A state in which task [c] got a space beside those of [A]. *)
Lemma tasks_inv_add A fl tl s c a fl' tl' s' : tasks_inv A fl tl s → A !! c = None →
  pages_inv fl' tl' (pmem_of s') → slots_inv NVMA_CHUNK vma0 tl' (pmem_of s') (ts_vmas s') →
  slots_inv NMM_CHUNK mm0 tl' (pmem_of s') (ts_mms s') → quiet (mach_of s') → ts_vmas s' = ts_vmas s →
  (∀ t, t ≠ c → ts_tasks s' !! t = ts_tasks s !! t ∧ tl' !! t = tl !! t) →
  (∀ k, k ≠ VmaHead c → ts_nodes s' !! k = ts_nodes s !! k) →
  (∀ o, mm_live s o → mm_live s' o ∧ mm_ptr s' c ≠ Some o) →
  (∀ i, i ∈ pg_inuse (pmem_of s) → page_data (pmem_of s') i = page_data (pmem_of s) i ∧ i ∈ pg_inuse (pmem_of s')) →
  (∀ o o', vma_live s o → mm_live s' o' → o.1 ≠ o'.1) → sp_vmas a = [] → space_ok tl' s' c a →
  tasks_inv (<[c := a]> A) fl' tl' s' ∧ ∀ t b, A !! t = Some b → keeps tl s tl' s' t b.
Proof.
  intros I Hc Ip' Iv' Im' Hq' Ev Ht Hn Hmm Hd Hsep Hvs So'.
  assert (Hne : ∀ t b, A !! t = Some b → t ≠ c) by (intros t b Hb ->; congruence).
  assert (Hptr : ∀ t, t ≠ c → mm_ptr s' t = mm_ptr s t) by (intros t H; unfold mm_ptr; by rewrite (proj1 (Ht t H))).
  assert (Hown : ∀ t i, t ≠ c → owns tl t i → owns tl' t i) by (intros t i H; unfold owns; by rewrite (proj2 (Ht t H))).
  assert (Hpg : ∀ t i, owns tl t i → page_data (pmem_of s') i = page_data (pmem_of s) i ∧ i ∈ pg_inuse (pmem_of s')).
  { intros t i Hi. apply Hd. by apply (owns_page _ _ _ _ _ (ti_pages _ _ _ _ I) Hi). }
  assert (Hlook : ∀ t b, <[c := a]> A !! t = Some b → (t = c ∧ b = a) ∨ (t ≠ c ∧ A !! t = Some b)).
  { intros t b. destruct (decide (c = t)) as [<-|]; [rewrite lookup_insert_eq; intros [= <-]; by left|].
    rewrite lookup_insert_ne by done. by right. }
  split; [split; try done|].
  - intros t b [[-> ->]|[H Hb]]%Hlook; [done|]. pose proof (ti_space _ _ _ _ I t b Hb) as So. split.
    + rewrite (proj1 (Ht t H)). apply So.
    + destruct (so_mm _ _ _ _ So) as (o & H1 & H2). exists o. rewrite Hptr by done. split; [done|by apply Hmm].
    + eapply pt_inv_same; [apply So|]. intros y i Hy. by eapply Hpg, (so_owned _ _ _ _ So y).
    + eapply dlist_frame, (so_list _ _ _ _ So). intros k [->|(o & -> & _)%list_elem_of_fmap]%elem_of_cons; apply Hn; [congruence|done].
    + intros o Ho. unfold vma_live. rewrite Ev. by apply (so_live _ _ _ _ So).
    + intros y i Hy. by apply Hown, (so_owned _ _ _ _ So y).
    + rewrite (proj2 (Ht t H)). apply So.
  - intros t t' b b' o [[-> ->]|[H Hb]]%Hlook [[-> ->]|[H' Hb']]%Hlook.
    + done.
    + rewrite Hvs. by intros ?%elem_of_nil.
    + rewrite Hvs. by intros ? ?%elem_of_nil.
    + by apply (ti_disj _ _ _ _ I).
  - intros t t' o [b Hb] [b' Hb']. apply Hlook in Hb as [[-> ->]|[H Hb]]; apply Hlook in Hb' as [[-> ->]|[H' Hb']].
    + done.
    + rewrite (Hptr t') by done. intros E1 E2. destruct (so_mm _ _ _ _ (ti_space _ _ _ _ I t' b' Hb')) as (o' & E & Hl).
      destruct (proj2 (Hmm o' Hl)). congruence.
    + rewrite (Hptr t) by done. intros E1 E2. destruct (so_mm _ _ _ _ (ti_space _ _ _ _ I t b Hb)) as (o' & E & Hl).
      destruct (proj2 (Hmm o' Hl)). congruence.
    + rewrite !Hptr by done. by apply (ti_mm _ _ _ _ I).
  - intros o o'. unfold vma_live at 1. rewrite Ev. apply Hsep.
  - intros t b Hb. split; [|intros o _; unfold vma_val; by rewrite Ev].
    intros i Hi. split; [by apply Hown; [eapply Hne|]|by eapply Hpg].
Qed.

Lemma set_task_mem_ok t f s tm : ts_tasks s !! t = Some tm →
  set_task_mem t f s = Ok tt (set_tasks_mem (insert t (f tm)) s).
Proof. intros E. unfold set_task_mem, update. by rewrite E. Qed.
(** The value of [next_heap] a new task starts with. *)
Definition heap_start (s : tms) (po : option nat) : Z := match po with Some p => default 0 (mm_heap s p) | None => 0 end.
Definition parent_ok (A : gmap nat space) (c : nat) (po : option nat) : Prop :=
  match po with Some p => is_Some (A !! p) ∧ p ≠ c | None => True end.

Lemma mm_begin_spec A fl tl s c po : tasks_inv A fl tl s → A !! c = None → tl !! c = None → (c < length (ts_tasks s))%nat →
  parent_ok A c po → (2 ≤ length fl)%nat → refs (ts_mms s) < Z.of_nat (NSLOT_DEFAULT * NMM_CHUNK) →
  ∃ s' fl' i, mm_begin c po s = Ok tt s' ∧ let a := MkSpace i {[ [] := i ]} [] in let tl' := <[c := [i]]> tl in
    tasks_inv (<[c := a]> A) fl' tl' s' ∧ (∀ t b, A !! t = Some b → keeps tl s tl' s' t b) ∧
    (length fl ≤ length fl' + 2)%nat ∧ ts_vmas s' = ts_vmas s ∧ mach_frame (mach_of s) (mach_of s') ∧
    (∀ va, trans (sp_pt a) (pmem_of s') va = 0) ∧ mm_heap s' c = Some (heap_start s po) ∧
    (∀ t, is_Some (A !! t) → mm_heap s' t = mm_heap s t) ∧ length (ts_tasks s') = length (ts_tasks s) ∧
    (t_ustack <$> ts_tasks s' !! c = Some (USTACK + PGSIZE)) ∧ refs (ts_mms s') = refs (ts_mms s) + 1.
Proof.
  intros I Hc Htl Hlt Hpar Hfl Hr. destruct s as [[m p] vs ms ns ts]. set (s := MkTms (m, p) vs ms ns ts) in *.
  change (ts_mms s) with ms in Hr. change (ts_tasks s) with ts in Hlt.
  pose proof (ti_pages _ _ _ _ I) as Ip. pose proof (ti_quiet _ _ _ _ I) as Hq. unfold pmem_of, mach_of in Ip, Hq. cbn in Ip, Hq.
  destruct (alloc_slot_spec MmStructSlot NMM_CHUNK mm0 ltac:(unfold NMM_CHUNK; lia) m p ms fl tl Hq (ti_mms _ _ _ _ I) Ip)
    as [(o & p1 & ms1 & fl1 & E & Ip1 & Im1 & (Hn1 & Hn2 & Hn3) & Hrefs & n & Hlen & (Efl & Hu1 & Hd1) & Hpg)|[[Hf _]|[Hf _]]];
    [|rewrite (refs_full NMM_CHUNK mm0 ltac:(unfold NMM_CHUNK; lia) tl p ms (ti_mms _ _ _ _ I) Hf) in Hr; lia|subst; cbn in Hfl; lia].
  destruct (lookup_lt_is_Some_2 ts c Hlt) as [tm0 Etm].
  destruct (own_node_spec (VmaHead c) ns) as (O1 & O2 & _).
  destruct (list_init_spec (VmaHead c) (own_node (VmaHead c) ns) O1) as (hv & Ehv & Hdv & Hfv & _).
  destruct (pages_inv_new fl1 tl p1 c Ip1 Htl) as (hp & Ehp & Ip2). set (p2 := set_nodes hp p1) in *.
  destruct fl1 as [|i fl2]; [rewrite Efl in Hfl; rewrite app_nil_r in Hfl; lia|].
  destruct (alloc_page_for_task_spec i fl2 _ c [] (touch m) p2 Ip2 (quiet_mem_free _ (quiet_touch _ Hq))) as (p3 & E3 & Ip3 & Hz & (_ & Hu3 & Hd3) & Hi & Hni);
    [apply lookup_insert_eq|]. rewrite insert_insert_eq in Ip3. cbn [app] in Ip3. rewrite touch_touch in E3.
  set (heap := heap_start s po). set (st3 := store_obj mm0 o (MkMm heap) ms1).
  set (ts' := <[c := MkTmem (Some o) (paddr_of i) (USTACK + PGSIZE) (t_kstack tm0)]> ts).
  set (s' := MkTms (touch m, p3) vs st3 hv ts').
  assert (Hlive : ∀ o', mm_live s' o' ↔ live NMM_CHUNK mm0 ms1 o') by (intros; apply store_obj_live).
  assert (Hold : ∀ o', mm_live s o' → o' ≠ o) by (intros o' H ->; done).
  assert (Hmval : ∀ o', mm_live s o' → mm_val s' o' = mm_val s o').
  { intros o' Ho'. unfold mm_val, s', st3. cbn [ts_mms]. destruct (store_obj_same mm0 o (MkMm heap) ms1 o') as (_ & _ & ->).
    pose proof (Hold o' Ho'). rewrite decide_False by done. by apply Hn3. }
  assert (Hheap : ∀ t, is_Some (A !! t) → t ≠ c → mm_heap s' t = mm_heap s t).
  { intros t [b Hb] Hne. unfold mm_heap. assert (mm_ptr s' t = mm_ptr s t) as ->.
    { unfold mm_ptr, s', ts'. cbn [ts_tasks]. by rewrite list_lookup_insert_ne. }
    destruct (so_mm _ _ _ _ (ti_space _ _ _ _ I t b Hb)) as (o' & -> & Hl). cbn. by rewrite Hmval. }
  assert (Hheap1 : ∀ x s2, ts_mms s2 = ms1 → po = Some x → is_Some (mm_ptr s x) ∧ ∀ ox, mm_ptr s x = Some ox → next_heap (mm_val s2 ox) = heap).
  { intros x s2 E2 ->. destruct Hpar as [[b Hb] _]. destruct (so_mm _ _ _ _ (ti_space _ _ _ _ I x b Hb)) as (ox & Ex & Hl). split; [by eexists|].
    intros ? [= <-]%(eq_trans (eq_sym Ex)). unfold heap, heap_start, mm_heap. rewrite Ex. cbn. f_equal. unfold mm_val. rewrite E2.
    apply Hn3; [by apply Hold|done]. }
  exists s', fl2, i. split.
  { unfold mm_begin. assert (Ea : alloc_mm_struct_slot s = Ok o (MkTms (touch m, p1) vs ms1 ns ts))
      by (unfold alloc_mm_struct_slot, zoom; cbn [ts_pm ts_mms s]; by rewrite E).
    run Ea. set (pm := match po with Some x => mm_ptr s x | None => None end).
    set (s1 := MkTms (touch m, p1) vs ms1 ns ts).
    assert (Epm : (match po with Some x => let! y := task_mem x in ret (t_mm y) | None => ret None end) s1 = Ok pm s1).
    { destruct po as [x|]; [|done]. destruct (Hheap1 x s1 eq_refl eq_refl) as [[ox Hox] _]. unfold mm_ptr in Hox. cbn [ts_tasks s] in Hox.
      unfold task_mem, pm, mm_ptr. cbn [ts_tasks s]. destruct (ts !! x) as [y|] eqn:Ey; [|done]. by rewrite (bind_deref _ _ _ y). }
    run Epm. run (set_task_mem_ok c (λ x, MkTmem (Some o) (t_pagetable x) (t_ustack x) (t_kstack x)) s1 tm0 Etm).
    unfold vnodes_op. erewrite bind_update by (cbn; by rewrite Ehv). cbn [set_vnodes set_tasks_mem ts_pm ts_vmas ts_mms ts_tasks s1].
    match goal with |- bind (on_page _) _ ?x = _ => set (s2 := x) end.
    run (on_page_ok (nodes_op (λ h, list_init (TaskPages c) (own_node (TaskPages c) h))) s2 tt (touch m, p2) (nodes_op_ok _ _ _ _ Ehp)).
    assert (Eh : (match po with Some _ => let! pm := deref (λ _, pm) in gets (λ s, next_heap (mm_val s pm)) | None => ret 0 end) (set_pm (touch m, p2) s2) = Ok heap (set_pm (touch m, p2) s2)).
    { unfold pm. destruct po as [x|] eqn:Epo; [|done]. destruct (Hheap1 x (set_pm (touch m, p2) s2) eq_refl eq_refl) as [[ox Hox] Hv].
      rewrite Hox. go. unfold gets. by rewrite (Hv ox Hox). }
    run Eh. go. match goal with |- bind (on_page _) _ ?x = _ => set (s4 := x) end.
    run (on_page_ok (alloc_page_for_task c) s4 i (touch m, p3) E3).
    erewrite set_task_mem_ok by (cbn; by apply list_lookup_insert_eq).
    unfold s', s4, s2, set_tasks_mem, set_mms, set_pm, ts'. cbn. by rewrite list_insert_insert_eq. }
  cbn zeta. assert (Hptrc : mm_ptr s' c = Some o) by (unfold mm_ptr, s', ts'; cbn [ts_tasks]; by rewrite list_lookup_insert_eq).
  assert (Hfree1 : ∀ j, j ∈ n → j ∉ pg_inuse p) by (intros j Hj; apply (pi_inuse _ _ _ Ip); rewrite Efl; set_solver).
  assert (Hd : ∀ j, j ∈ pg_inuse p → page_data p3 j = page_data p j ∧ j ∈ pg_inuse p3).
  { intros j Hj. assert (Hju : j ∈ pg_inuse p2) by (cbn; rewrite Hu1; set_solver). split; [|rewrite Hu3; set_solver].
    rewrite Hd3 by (rewrite list_elem_of_singleton; by intros ->). change (page_data p2 j) with (page_data p1 j). apply Hd1. intros Hjn. by apply (Hfree1 j). }
  assert (Hpok : ∀ q, page_ok tl p1 q → page_ok (<[c := [i]]> tl) p3 q).
  { intros q (H1 & H2 & H3). split_and!; [done|rewrite Hu3; set_solver|]. intros t l. destruct (decide (c = t)) as [<-|].
    - rewrite lookup_insert_eq. intros [= <-]. rewrite list_elem_of_singleton. by intros ->.
    - rewrite lookup_insert_ne by done. apply H3. }
  assert (Hpok1 : ∀ q, page_ok tl p q → page_ok tl p1 q).
  { intros q (H1 & H2 & H3). split_and!; [done|rewrite Hu1; set_solver|done]. }
  destruct (fresh_root i fl2 _ (touch m) p3 Ip3 Hi ltac:(rewrite Hu3; set_solver) Hz (quiet_touch _ Hq)) as [[_ P3 _] T3].
  destruct (tasks_inv_add A fl tl s c (MkSpace i {[ [] := i ]} []) fl2 (<[c := [i]]> tl) s') as [I' K']; try done.
  { eapply slots_inv_pages, (ti_vmas _ _ _ _ I). auto. } { eapply slots_inv_pages, store_obj_inv, Im1. auto. }
  { intros t Ht. unfold s', ts'. cbn [ts_tasks]. by rewrite list_lookup_insert_ne, lookup_insert_ne. }
  { intros k Hk. cbn. by rewrite Hfv, O2. }
  { intros o' Ho'. pose proof (Hold o' Ho'). rewrite Hlive, Hptrc. split; [by apply Hn3|congruence]. }
  { intros o1 o2 H1 H2. apply Hlive in H2. destruct (decide (o2 = o)) as [->|Hne]; [|by apply (ti_sep _ _ _ _ I o1 o2 H1), (Hn3 o2 Hne)].
    destruct Hpg as [Hpg|[k Hpg]]; [|by apply (ti_sep _ _ _ _ I o1 (o.1, k))]. intros Eo. rewrite <- Eo in Hpg. apply (Hfree1 _ Hpg).
    destruct H1 as (k & sl & Es & Eq & _). pose proof (sv_slot _ _ _ _ _ (ti_vmas _ _ _ _ I) k sl Es) as Hsl. unfold slot_ok in Hsl. rewrite Eq in Hsl. apply Hsl. }
  { split; cbn [sp_root sp_pt sp_vmas].
    - unfold s', ts'. cbn [ts_tasks]. by rewrite list_lookup_insert_eq.
    - exists o. split; [done|by apply Hlive].
    - done.
    - done.
    - by intros o' ?%elem_of_nil.
    - intros y j [<- <-]%lookup_singleton_Some. exists [i]. rewrite lookup_insert_eq. split; [done|by left].
    - rewrite lookup_insert_eq. by eexists. }
  split; [done|]. split; [done|]. split; [rewrite Efl, length_app; cbn; lia|]. split; [done|]. split; [done|]. split; [done|].
  split; [|split; [|split; [|split; [|exact Hrefs]]]].
  - unfold mm_heap. rewrite Hptrc. cbn. unfold mm_val, s', st3. cbn [ts_mms].
    destruct (store_obj_same mm0 o (MkMm heap) ms1 o) as (_ & _ & ->). by rewrite decide_True.
  - intros t Ht. apply Hheap; [done|]. intros ->. rewrite Hc in Ht. by destruct Ht.
  - unfold s', ts'. cbn. by rewrite length_insert.
  - unfold s', ts'. cbn [ts_tasks]. by rewrite list_lookup_insert_eq.
Qed.

(** ** The end of [task_mm_init] *)

Lemma set_task_step A fl tl s t pt tm tm' : tasks_inv A fl tl s → ts_tasks s !! t = Some tm → tkey tm' = tkey tm →
  let s' := set_tasks_mem (insert t tm') s in
  tasks_inv A fl tl s' ∧ tframe t 0 0 fl tl pt s fl tl pt s'.
Proof.
  intros I E Ek s'. injection Ek as Ek1 Ek2.
  assert (Hk : ∀ t', tkey <$> ts_tasks s' !! t' = tkey <$> ts_tasks s !! t').
  { intros t'. unfold s'. cbn. destruct (decide (t = t')) as [<-|]; [|by rewrite list_lookup_insert_ne].
    rewrite list_lookup_insert_eq, E by (by eapply lookup_lt_Some). cbn. unfold tkey. by rewrite Ek1, Ek2. }
  assert (Hptr : ∀ t', mm_ptr s' t' = mm_ptr s t' ∧ t_pagetable <$> ts_tasks s' !! t' = t_pagetable <$> ts_tasks s !! t').
  { intros t'. specialize (Hk t'). unfold mm_ptr. destruct (ts_tasks s' !! t'), (ts_tasks s !! t'); cbn in *; try done.
    injection Hk as -> ->. done. }
  split.
  - destruct I as [I1 I2 I3 I4 I5 I6 I7 I8]. split; try done.
    + intros t' a Ha. destruct (I5 t' a Ha) as [S1 S2 S3 S4 S5 S6 S7]. split; try done.
      * by rewrite (proj2 (Hptr t')).
      * by rewrite (proj1 (Hptr t')).
    + intros t1 t2 o. rewrite !(proj1 (Hptr _)). apply I7.
  - split; try done; [|cbn; lia]. exists [], []. split; [done|]. split; [by apply mgrow_refl|by left].
Qed.
Lemma tframe_pre t k j fl tl pt s fl' tl' pt' s' s1 : tframe t 0 0 fl tl pt s fl tl pt s1 →
  tframe t k j fl tl pt s1 fl' tl' pt' s' → tframe t k j fl tl pt s fl' tl' pt' s'.
Proof. intros F1 F2. exact (tframe_trans _ 0 k 0 j _ _ _ _ _ _ _ _ _ _ _ _ F1 F2). Qed.

(** [svmmap] of a page whose tables are there. *)
Lemma map_keep lv x i j va pa attr ut root pt m p : pt_inv root pt p → pt !! x = Some i →
  pt !! (x ++ [va_level va (S lv)]) = Some j →
  map_levels (S lv) (paddr_of i) va pa attr 0 ut (m, p) = map_levels lv (paddr_of j) va pa attr 0 ut (m, p).
Proof.
  intros P Hx Hj. pose proof (va_level_idx va (S lv)) as Hk. set (k := va_level va (S lv)) in *.
  destruct (pt_page _ _ _ P x i Hx) as [Hi _]. destruct (pt_page _ _ _ P _ _ Hj) as [Hjn _].
  destruct (table_pte j Hjn) as (_ & Hvv & _ & Hpa). cbn [map_levels]. fold k.
  destruct (Z.eqb_spec (Z.of_nat (S lv)) 0) as [|_]; [lia|]. run (ld64_entry i k m p Hi Hk).
  rewrite (pt_child _ _ _ P x k i j Hx Hj), Hvv. cbn [Z.eqb]. go. run (ld64_entry i k m p Hi Hk).
  by rewrite (pt_child _ _ _ P x k i j Hx Hj), Hpa.
Qed.
Lemma svmmap_present qa qp attr ut root pt m p i (va := qa * 2 ^ 12) : pt_inv root pt p →
  pt !! [va_level va 2; va_level va 1] = Some i → 0 ≤ qa → va + PGSIZE ≤ VA_TOP → 0 ≤ qp → qp * 2 ^ 12 + PGSIZE ≤ PHY_TOP →
  svmmap (paddr_of root) va (qp * 2 ^ 12) PGSIZE attr ut (m, p) =
    Ok tt (m, put_entry i (va_level va 0) (Z.lor (pte_of (qp * 2 ^ 12)) attr) p).
Proof.
  intros P Hi Hqa Hva Hqp Hpa. destruct (pt_path _ _ _ P [va_level va 2] (va_level va 1) i Hi) as (_ & _ & [j Hj]).
  destruct (pt_page _ _ _ P _ _ Hi) as [Hin _]. unfold va in *. unfold VA_TOP in Hva. change PHY_TOP with 0xA0000000 in Hpa.
  unfold svmmap, do_vmmap. unfold PGSIZE in *. change (2 ^ 12) with 4096 in *. rewrite !Z.mod_mul by done. cbn [Z.eqb negb orb].
  rewrite !u64_id by lia. unfold VA_TOP. change PHY_TOP with 0xA0000000.
  destruct (Z.ltb_spec 0x4000000000 (qa * 4096 + 4096)); [lia|].
  destruct (Z.ltb_spec 0xA0000000 (qp * 4096 + 4096)); [lia|]. cbn [orb]. change (S_PAGE =? S_PAGE) with true. cbv iota. go.
  assert (align_up (qa * 4096 + 4096) 4096 = (qa + 1) * 4096) as Eb.
  { change (align_up (qa * 4096 + 4096) 4096) with (align_up (qa * 4096 + 4096) (2 ^ 12)). rewrite align_up_eq by lia. change (2 ^ 12) with 4096.
    replace (qa * 4096 + 4096 + 4096 - 1) with ((qa + 1) * 4096 + 4095) by lia. rewrite Z.div_add_l by lia.
    change (4095 / 4096) with 0. lia. }
  rewrite Eb. unfold PGSIZE. rewrite Z.div_mul by lia. destruct (Z.to_nat (qa + 1)) as [|f] eqn:Ef; [lia|]. cbn [map_loop].
  destruct (Z.ltb_spec (qa * 4096) ((qa + 1) * 4096)); [|lia].
  assert (E : map_levels 2 (paddr_of root) (qa * 4096) (qp * 4096) attr S_PAGE ut (m, p) =
    Ok tt (m, put_entry i (va_level (qa * 4096) 0) (Z.lor (pte_of (qp * 4096)) attr) p)).
  { change S_PAGE with 0. rewrite (map_keep 1 [] root j _ _ _ _ root pt m p P (pt_root _ _ _ P) Hj).
    rewrite (map_keep 0 [va_level (qa * 4096) 2] j i _ _ _ _ root pt m p P Hj Hi). cbn [map_levels Z.of_nat Z.eqb].
    apply st64_entry; [done|apply va_level_idx]. }
  run E. rewrite u64_id by lia. replace (qa * 4096 + 4096) with ((qa + 1) * 4096) by lia.
  destruct f; cbn [map_loop]; by rewrite Z.ltb_irrefl.
Qed.
(** A store to a leaf entry of the task. *)
Lemma task_leaf_step A fl tl s t a x y i k v : tasks_inv A fl tl s → A !! t = Some a → sp_pt a !! [x; y] = Some i →
  idx k → 0 ≤ v < 2 ^ 64 → let s' := set_pm (mach_of s, put_entry i k v (pmem_of s)) s in
  tasks_inv A fl tl s' ∧ tframe t 0 0 fl tl (sp_pt a) s fl tl (sp_pt a) s' ∧
  ∀ a' b' c, idx c → leaf (sp_pt a) (pmem_of s') a' b' c = if decide (a' = x ∧ b' = y ∧ c = k) then v else leaf (sp_pt a) (pmem_of s) a' b' c.
Proof.
  intros I Ha Hi Hk Hv s'. pose proof (ti_space _ _ _ _ I t a Ha) as So.
  destruct (pt_leaf_store (sp_root a) (sp_pt a) (pmem_of s) x y i k v) as [P' L']; [apply So|by eapply inv_mem_ok, I|done..|].
  assert (F : tframe t 0 0 fl tl (sp_pt a) s fl tl (sp_pt a) s').
  { split; try done; [|cbn; lia|].
    - exists [], []. split; [done|]. split; [by apply mgrow_refl|by left].
    - intros n [Hn Hy]. split; [done|]. unfold s', pmem_of, put_entry. cbn. rewrite page_data_put, decide_False; [done|].
      intros ->. by apply (Hy [x; y]). }
  split; [|done]. rewrite <- (insert_id A t (MkSpace (sp_root a) (sp_pt a) (sp_vmas a))) by (by destruct a).
  eapply tasks_inv_next; try done.
  - apply pages_inv_entry; [apply I|done].
  - by eapply slots_inv_pages, (ti_vmas _ _ _ _ I).
  - apply So.
  - intros o Ho. split; [by apply (so_live _ _ _ _ So)|by left].
  - apply I.
Qed.
Lemma tf_heap t k j fl tl pt s fl' tl' pt' s' t' : tframe t k j fl tl pt s fl' tl' pt' s' → mm_heap s' t' = mm_heap s t'.
Proof.
  intros F. pose proof (tf_tasks _ _ _ _ _ _ _ _ _ _ _ F t') as Ft. unfold mm_heap, mm_ptr, mm_val. rewrite (tf_mms _ _ _ _ _ _ _ _ _ _ _ F).
  destruct (ts_tasks s' !! t'), (ts_tasks s !! t'); cbn in *; try done. by injection Ft as -> _.
Qed.
Lemma tf_ptb t k j fl tl pt s fl' tl' pt' s' t' tm : tframe t k j fl tl pt s fl' tl' pt' s' → ts_tasks s !! t' = Some tm →
  ∃ tm', ts_tasks s' !! t' = Some tm' ∧ tkey tm' = tkey tm.
Proof.
  intros F E. pose proof (tf_tasks _ _ _ _ _ _ _ _ _ _ _ F t') as Ft. rewrite E in Ft.
  destruct (ts_tasks s' !! t') as [tm'|]; [|done]. injection Ft as H1 H2. exists tm'. split; [done|]. unfold tkey. congruence.
Qed.
Lemma tf_other t k j fl tl pt s fl' tl' pt' s' t' : tframe t k j fl tl pt s fl' tl' pt' s' → t' ≠ t → tl !! t' = None → tl' !! t' = None.
Proof. intros [(n & nt & _ & [_ -> _ _] & _) _ _ _ _ _ _] Ht. rewrite give_lookup. by rewrite decide_False. Qed.
Lemma tf_length t k j fl tl pt s fl' tl' pt' s' : tframe t k j fl tl pt s fl' tl' pt' s' → length (ts_tasks s') = length (ts_tasks s).
Proof.
  intros F. pose proof (tf_tasks _ _ _ _ _ _ _ _ _ _ _ F) as Ft.
  assert (E : tkey <$> ts_tasks s' = tkey <$> ts_tasks s) by (apply list_eq; intros i; rewrite !list_lookup_fmap; apply Ft).
  apply (f_equal length) in E. by rewrite !length_fmap in E.
Qed.
(** The number of a page of virtual memory. *)
Lemma top_pages : TRAPFRAME = (2 ^ 26 - 2) * 2 ^ 12 ∧ TRAMPOLINE = (2 ^ 26 - 1) * 2 ^ 12.
Proof. done. Qed.
Lemma top_vaddr : vaddr TRAPFRAME ∧ vaddr TRAMPOLINE ∧ TRAPFRAME / 2 ^ 12 ≠ TRAMPOLINE / 2 ^ 12.
Proof. unfold vaddr. vm_compute. split_and!; congruence. Qed.
Lemma range_self va : in_range va 1 va.
Proof. unfold in_range. lia. Qed.
Lemma uaddr_range qa va : uaddr va → 2 ^ 26 - 2 ≤ qa → ¬ in_range (qa * 2 ^ 12) 1 va.
Proof.
  unfold uaddr, in_range. destruct top_pages as [-> _]. intros [H1 H2] Hqa [H3 _]. rewrite Z.div_mul in H3 by lia.
  apply (Z.mul_le_mono_nonneg_r _ _ (2 ^ 12)) in H3; [|lia]. pose proof (Z.mul_div_le va (2 ^ 12)). lia.
Qed.

(** The kernel stack and the page of the trap frame. *)
Lemma mm_kstack_step A fl tl s t a : tasks_inv A fl tl s → A !! t = Some a → (1 ≤ length fl)%nat →
  ∃ ks s' fl', (∀ X (g : unit → TM X), (let! page := on_page (alloc_page_for_task t) in
      set_task_mem t (λ x, MkTmem (t_mm x) (t_pagetable x) (t_ustack x) (paddr_of page + PGSIZE)) ;; g tt) s = g tt s') ∧
    let tl' := give (Some t) [ks] tl in
    tasks_inv A fl' tl' s' ∧ tframe t 1 0 fl tl (sp_pt a) s fl' tl' (sp_pt a) s' ∧ owns tl' t ks ∧
    t_kstack <$> ts_tasks s' !! t = Some (paddr_of ks + PGSIZE) ∧ t_ustack <$> ts_tasks s' !! t = t_ustack <$> ts_tasks s !! t ∧
    plain_page (sp_pt a) (pmem_of s') ks ∧ ∀ va, trans (sp_pt a) (pmem_of s') va = trans (sp_pt a) (pmem_of s) va.
Proof.
  intros I Ha Hfl. destruct fl as [|ks fl']; [cbn in Hfl; lia|].
  destruct (task_page_step A ks fl' tl s t a I Ha) as (s1 & E1 & I1 & F1 & _ & _ & _ & P1 & O1 & _ & T1).
  pose proof (so_ptb _ _ _ _ (ti_space _ _ _ _ I t a Ha)) as Hp. destruct (ts_tasks s !! t) as [tm|] eqn:Etm; [|done].
  assert (E1t : ts_tasks s1 !! t = Some tm).
  { by rewrite (on_page_tasks _ _ _ _ E1). }
  set (tm' := MkTmem (t_mm tm) (t_pagetable tm) (t_ustack tm) (paddr_of ks + PGSIZE)).
  destruct (set_task_step A fl' _ s1 t (sp_pt a) tm tm' I1 E1t eq_refl) as [I2 F2].
  exists ks, (set_tasks_mem (insert t tm') s1), fl'. split.
  { intros X g. run E1. by run (set_task_mem_ok t (λ x, MkTmem (t_mm x) (t_pagetable x) (t_ustack x) (paddr_of ks + PGSIZE)) s1 tm E1t). }
  assert (Hl : ts_tasks (set_tasks_mem (insert t tm') s1) !! t = Some tm').
  { cbn. apply list_lookup_insert_eq. by eapply lookup_lt_Some. }
  split; [done|]. split; [exact (tframe_trans _ _ _ _ _ _ _ _ _ _ _ _ _ _ _ _ _ F1 F2)|]. rewrite Hl. done.
Qed.
Lemma st64_page i v m p : (i < NPAGE)%nat → st64 (paddr_of i) v (m, p) = Ok tt (m, put_page i (put_at 8 0 v (page_data p i)) p).
Proof.
  intros Hi. destruct (pte_addr i 0 Hi) as (E1 & _); [unfold idx; lia|]. pose proof (st64_entry i 0 v m p Hi) as E.
  rewrite E1, Z.mul_0_r, Z.add_0_r in E. apply E. unfold idx. lia.
Qed.
(** The state after [task_mm_init] filled the user part of the space. *)
Record mm_ready (tr satp : Z) (tl : gmap nat (list nat)) (s : tms) (t : nat) (a : space) : Prop := {
  mr_trapframe : ∃ i, owns tl t i ∧ (∀ y, sp_pt a !! y ≠ Some i) ∧ get_at 8 0 (page_data (pmem_of s) i) = satp ∧
    trans (sp_pt a) (pmem_of s) TRAPFRAME = Z.lor (pte_of (paddr_of i)) PTE_R;
  mr_trampoline : trans (sp_pt a) (pmem_of s) TRAMPOLINE = Z.lor (pte_of tr) (Z.lor PTE_X PTE_R);
  mr_kstack : ∃ i, owns tl t i ∧ (∀ y, sp_pt a !! y ≠ Some i) ∧ t_kstack <$> ts_tasks s !! t = Some (paddr_of i + PGSIZE);
}.

(** The page of the trap frame, filled and mapped. *)
Lemma mm_trapframe_step satp A fl tl s t a : tasks_inv A fl tl s → A !! t = Some a → (3 ≤ length fl)%nat → 0 ≤ satp < 2 ^ 64 →
  ∃ tf s' fl' tl' pt', (∀ X (g : TM X), (let! page := on_page (alloc_page_for_task t) in
      on_page (st64 (paddr_of page) satp) ;;
      let! tm := task_mem t in
      on_page (svmmap (t_pagetable tm) TRAPFRAME (paddr_of page) PGSIZE PTE_R (Some t)) ;; g) s = g s') ∧
    tasks_inv (<[t := MkSpace (sp_root a) pt' (sp_vmas a)]> A) fl' tl' s' ∧
    tframe t 3 0 fl tl (sp_pt a) s fl' tl' pt' s' ∧ owns tl' t tf ∧ plain_page pt' (pmem_of s') tf ∧ ts_tasks s' = ts_tasks s ∧
    get_at 8 0 (page_data (pmem_of s') tf) = satp ∧
    ∀ va, vaddr va → trans pt' (pmem_of s') va =
      if decide (in_range TRAPFRAME 1 va) then mapped_pte TRAPFRAME (paddr_of tf) PTE_R va else trans (sp_pt a) (pmem_of s) va.
Proof.
  intros I Ha Hfl Hsatp. destruct fl as [|tf fl1]; [cbn in Hfl; lia|].
  destruct (task_page_step A tf fl1 tl s t a I Ha) as (s1 & E1 & I1 & F1 & _ & _ & Hz & P1 & O1 & Hnu & T1).
  destruct (owns_page _ _ _ _ _ (ti_pages _ _ _ _ I1) O1) as [Htf _].
  set (d := put_at 8 0 satp (page_data (pmem_of s1) tf)). pose proof (page_data_ok _ _ _ tf (ti_pages _ _ _ _ I1)) as [Hl Hb].
  change PGBYTES with 4096%nat in Hl.
  destruct (task_fill A fl1 _ s1 t a tf d I1 Ha O1 (proj2 P1)) as [I2 T2].
  { unfold d. rewrite length_put_at; change PGBYTES with 4096%nat; lia. } { by apply bytes_ok_put_at. }
  set (s2 := set_pm (mach_of s1, put_page tf d (pmem_of s1)) s1) in *.
  pose proof (tframe_fill _ _ _ _ _ _ _ _ _ _ _ tf d F1 Hnu) as F2. fold s2 in F2. pose proof NPAGE_Z as HN.
  destruct (task_svmmap_step A fl1 _ s2 t a (2 ^ 26 - 2) (2 ^ 19 + Z.of_nat tf) PTE_R (Some t) I2 Ha) as (s3 & fl3 & tl3 & pt3 & E3 & I3 & F3 & _ & _ & T3);
    [cbn in Hfl; lia|lia|unfold VA_TOP, PGSIZE; lia|lia|change PHY_TOP with 0xA0000000; unfold PGSIZE; lia|unfold PTE_R; lia|reflexivity|].
  rewrite <- paddr_frame in E3, T3. change ((2 ^ 26 - 2) * 2 ^ 12) with TRAPFRAME in E3, T3.
  destruct (tf_plain _ _ _ _ _ _ _ _ _ _ _ F3 tf) as [P3 D3]; [apply P1|].
  exists tf, s3, fl3, tl3, pt3. split; [|split; [done|split; [exact (tframe_trans _ _ _ _ _ _ _ _ _ _ _ _ _ _ _ _ _ F2 F3)|]]].
  - intros X g. run E1. assert (E2 : on_page (st64 (paddr_of tf) satp) s1 = Ok tt s2).
    { apply on_page_ok. rewrite (surjective_pairing (ts_pm s1)). by apply st64_page. }
    run E2. pose proof (so_ptb _ _ _ _ (ti_space _ _ _ _ I2 t a Ha)) as Hp. unfold task_mem.
    destruct (ts_tasks s2 !! t) as [tm|] eqn:Etm; [|done]. injection Hp as Hp. rewrite (bind_deref _ _ _ tm) by done. rewrite Hp. by run E3.
  - split; [by eapply tf_owns|]. split; [done|]. split.
    { rewrite (on_page_tasks _ _ _ _ E3). exact (on_page_tasks _ _ _ _ E1). }
    split.
    + rewrite D3. unfold s2, pmem_of. cbn. rewrite page_data_put, decide_True by done. unfold d. rewrite get_put_same by lia.
      by apply Z.mod_small.
    + intros va Hva. rewrite T3, T2, T1 by done. done.
Qed.

Lemma mm_end_spec tr satp A fl tl s t a qt : tasks_inv A fl tl s → A !! t = Some a → (4 ≤ length fl)%nat →
  tr = qt * 2 ^ 12 → 0 ≤ qt → tr + PGSIZE ≤ PHY_TOP → 0 ≤ satp < 2 ^ 64 →
  ∃ s' fl' tl' pt', mm_end tr satp t s = Ok tt s' ∧ let a' := MkSpace (sp_root a) pt' (sp_vmas a) in
    tasks_inv (<[t := a']> A) fl' tl' s' ∧ tframe t 4 0 fl tl (sp_pt a) s fl' tl' pt' s' ∧
    (∀ va, uaddr va → trans pt' (pmem_of s') va = trans (sp_pt a) (pmem_of s) va) ∧ mm_ready tr satp tl' s' t a'.
Proof.
  intros I Ha Hfl -> Hqt Htr Hsatp.
  destruct (mm_kstack_step A fl tl s t a I Ha ltac:(lia)) as (ks & s1 & fl1 & E1 & I1 & F1 & O1 & K1 & _ & P1 & T1).
  pose proof (tf_free _ _ _ _ _ _ _ _ _ _ _ F1).
  destruct (mm_trapframe_step satp A fl1 _ s1 t a I1 Ha) as (tf & s2 & fl2 & tl2 & pt2 & E2 & I2 & F2 & O2 & P2 & Et2 & G2 & T2); [lia|done|].
  set (a2 := MkSpace (sp_root a) pt2 (sp_vmas a)) in *. set (A2 := <[t := a2]> A) in *.
  assert (Ha2 : A2 !! t = Some a2) by apply lookup_insert_eq. pose proof (ti_space _ _ _ _ I2 t a2 Ha2) as So2.
  destruct (owns_page _ _ _ _ _ (ti_pages _ _ _ _ I2) O2) as [Htf _]. pose proof NPAGE_Z as HN. destruct top_pages as [Etf Etr].
  destruct top_vaddr as (Vtf & Vtr & Hne).
  assert (Etrap : trans pt2 (pmem_of s2) TRAPFRAME = Z.lor (pte_of (paddr_of tf)) PTE_R).
  { rewrite T2 by exact Vtf. rewrite decide_True by apply range_self. unfold mapped_pte. by rewrite Z.sub_diag, Z.mul_0_l, Z.add_0_r. }
  assert (∃ i, pt2 !! [va_level TRAMPOLINE 2; va_level TRAMPOLINE 1] = Some i) as [i Hi].
  { unfold trans, leaf in Etrap. change (va_level TRAPFRAME 2) with (va_level TRAMPOLINE 2) in Etrap. change (va_level TRAPFRAME 1) with (va_level TRAMPOLINE 1) in Etrap.
    destruct (pt2 !! _) as [i|]; [by exists i|]. exfalso. rewrite paddr_frame, leaf_of_frame in Etrap by (unfold PTE_R; lia).
    change (Z.lor 1 PTE_R) with 3 in Etrap. lia. }
  set (v := Z.lor (pte_of (qt * 2 ^ 12)) (Z.lor PTE_X PTE_R)). change PHY_TOP with 0xA0000000 in Htr. unfold PGSIZE in Htr.
  destruct (leaf_bound qt (Z.lor PTE_X PTE_R)) as [Hv _]; [lia|done|]. fold v in Hv.
  destruct (task_leaf_step A2 fl2 tl2 s2 t a2 _ _ i (va_level TRAMPOLINE 0) v I2 Ha2 Hi (va_level_idx _ _) Hv) as (I3 & F3 & L3).
  set (s3 := set_pm (mach_of s2, put_entry i (va_level TRAMPOLINE 0) v (pmem_of s2)) s2) in *.
  assert (T3 : ∀ va, vaddr va → trans pt2 (pmem_of s3) va = if decide (va / 2 ^ 12 = TRAMPOLINE / 2 ^ 12) then v else trans pt2 (pmem_of s2) va).
  { intros va Hva. unfold trans. change pt2 with (sp_pt a2). rewrite L3 by apply va_level_idx. pose proof (levels_inj va TRAMPOLINE Hva Vtr) as Hl.
    repeat case_decide; tauto || done. }
  exists s3, fl2, tl2, pt2. split; [|split; [done|split; [exact (tframe_trans _ _ _ _ _ _ _ _ _ _ _ _ _ _ _ _ _ (tframe_trans _ _ _ _ _ _ _ _ _ _ _ _ _ _ _ _ _ F1 F2) F3)|split]]].
  - unfold mm_end. etransitivity; [apply (E1 unit (λ _, _))|]. etransitivity; [apply (E2 unit _)|].
    pose proof (so_ptb _ _ _ _ So2) as Hp. unfold task_mem. destruct (ts_tasks s2 !! t) as [tm|] eqn:Etm; [|done]. injection Hp as Hp.
    rewrite (bind_deref _ _ _ tm) by done. rewrite Hp. apply on_page_ok. rewrite (surjective_pairing (ts_pm s2)), Etr.
    apply (svmmap_present (2 ^ 26 - 1) qt _ None _ pt2); [apply So2|exact Hi|lia|unfold VA_TOP, PGSIZE; lia|lia|change PHY_TOP with 0xA0000000; unfold PGSIZE; lia].
  - intros va Hva. rewrite T3 by (by apply uaddr_vaddr). rewrite decide_False.
    2: { intros E. apply (uaddr_range (2 ^ 26 - 1) va Hva ltac:(lia)). rewrite <- Etr. unfold in_range. lia. }
    rewrite T2 by (by apply uaddr_vaddr). rewrite Etf, decide_False by (by apply uaddr_range). apply T1.
  - split; cbn [sp_pt].
    + exists tf. destruct (tf_plain _ _ _ _ _ _ _ _ _ _ _ F3 tf P2) as [[_ Q1] Q2]. rewrite Q2, T3 by exact Vtf. rewrite decide_False by exact Hne. split_and!; [exact O2|exact Q1|exact G2|exact Etrap].
    + rewrite T3 by exact Vtr. rewrite decide_True by reflexivity. reflexivity.
    + exists ks. split; [exact (tf_owns _ _ _ _ _ _ _ _ _ _ _ _ _ F2 O1)|]. change (ts_tasks s3) with (ts_tasks s2). rewrite Et2, K1. split; [|reflexivity].
      apply (tf_plain _ _ _ _ _ _ _ _ _ _ _ F2 ks P1).
Qed.
