(* ===== verification/TaskDrop.v ===== *)
(** Giving memory back (kernel/task/task.c: [clean_mm_source], [reset_vma];
    kernel/syscall/sysmem.c: [sys_free]): the loops over the pages and the records
    of a task, while the other tasks keep their memory. *)
From S2P Require Import Prelude Bytes ListNode Machine PageAlloc Vm Slot UserCopy TaskMem TaskSpace.

(** The records of task [t] beside the tasks of [B]. *)
Record vlist_ok (B : gmap nat space) (s : tms) (t : nat) (vs : list optr) : Prop := {
  vl_list : dlist (ts_nodes s) (VmaHead t) (VmaNode <$> vs);
  vl_live o : o ∈ vs → vma_live s o;
  vl_disj t' b o : B !! t' = Some b → o ∈ sp_vmas b → o ∉ vs;
  vl_none : B !! t = None;
}.
(** The records [os] were freed; pages, tasks and the other records are as before.
    A page of the slots may have become free. *)
Record dropped (os : list optr) (fl : list nat) (s : tms) (fl' : list nat) (s' : tms) : Prop := {
  dr_live o : vma_live s' o ↔ vma_live s o ∧ o ∉ os;
  dr_val o : vma_live s' o → vma_val s' o = vma_val s o;
  dr_data : pg_data (pmem_of s') = pg_data (pmem_of s);
  dr_tasks : ts_tasks s' = ts_tasks s;
  dr_mms : ts_mms s' = ts_mms s;
  dr_mach : mach_frame (mach_of s) (mach_of s');
  dr_free : ∃ e, fl' = fl ++ e;
  dr_refs : refs (ts_vmas s') ≤ refs (ts_vmas s);
  dr_pages q : q ∈ pg_inuse (pmem_of s) → (∀ o, vma_live s o → o.1 ≠ q) → q ∈ pg_inuse (pmem_of s');
}.
Lemma dropped_trans os1 os2 fl s fl1 s1 fl2 s2 : dropped os1 fl s fl1 s1 → dropped os2 fl1 s1 fl2 s2 →
  dropped (os1 ++ os2) fl s fl2 s2.
Proof.
  intros [A1 A2 A3 A4 A5 A6 [e1 ->] A8 A9] [B1 B2 B3 B4 B5 B6 [e2 ->] B8 B9]. split; try congruence; [| | | |lia|].
  - intros o. rewrite B1, A1, not_elem_of_app. tauto.
  - intros o Ho. rewrite B2 by done. apply A2. by apply B1 in Ho as [? _].
  - by etransitivity.
  - exists (e1 ++ e2). by rewrite app_assoc.
  - intros q Hq Hn. apply B9; [by apply A9|]. intros o [Ho _]%A1. by apply Hn.
Qed.
Lemma dropped_refl fl s : dropped [] fl s fl s.
Proof. split; try done; [|by exists []; rewrite app_nil_r]. intros o. rewrite elem_of_nil. tauto. Qed.

Lemma tasks_inv_delete A fl tl s t a : tasks_inv A fl tl s → A !! t = Some a →
  tasks_inv (delete t A) fl tl s ∧ vlist_ok (delete t A) s t (sp_vmas a).
Proof.
  intros I Ha. assert (Hd : ∀ t' b, delete t A !! t' = Some b → t' ≠ t ∧ A !! t' = Some b).
  { intros t' b. rewrite lookup_delete_Some. naive_solver. }
  assert (Hs : ∀ x, is_Some (delete t A !! x) → is_Some (A !! x)) by (intros x [b [_ ?]%Hd]; by eexists).
  pose proof (ti_space _ _ _ _ I t a Ha) as So. split; [|split; [apply So|apply So| |apply lookup_delete_eq]].
  - destruct I as [I1 I2 I3 I4 I5 I6 I7 I8]. split; try done.
    + intros t' b [_ Hb]%Hd. by apply I5.
    + intros t1 t2 a1 a2 o [_ H1]%Hd [_ H2]%Hd. by apply I6.
    + intros t1 t2 o H1 H2. apply I7; by apply Hs.
  - intros t' b o [Hne Hb]%Hd Ho Ho'. apply Hne. by eapply (ti_disj _ _ _ _ I).
Qed.

(** [list_remove(&vma->node); free_vma_slot(vma);] *)
Lemma drop_one B fl tl s t l1 o l2 : tasks_inv B fl tl s → vlist_ok B s t (l1 ++ o :: l2) →
  ∃ s' fl', (vnodes_op (list_remove (VmaNode o)) ;; free_vma_slot o) s = Ok tt s' ∧
    tasks_inv B fl' tl s' ∧ vlist_ok B s' t (l1 ++ l2) ∧ dropped [o] fl s fl' s'.
Proof.
  intros I V. destruct s as [[m p] vs ms ns ts]. set (s := MkTms (m, p) vs ms ns ts) in *.
  pose proof (vl_list _ _ _ _ V) as D. rewrite fmap_app, fmap_cons in D. pose proof D as [Hnd _].
  destruct (list_remove_spec _ _ _ _ _ D) as (h & Eh & Hd & _ & Hf & _). cbn [ts_nodes s] in *.
  assert (Ho : vma_live s o) by (apply (vl_live _ _ _ _ V); set_solver).
  destruct (free_slot_spec VmaSlot NVMA_CHUNK vma0 ltac:(unfold NVMA_CHUNK; lia) m p vs fl tl o (ti_quiet _ _ _ _ I) (ti_vmas _ _ _ _ I) (ti_pages _ _ _ _ I) Ho)
    as (p' & vs' & fl' & E & Ip' & Iv' & (_ & Hdead & Hoth) & Efl & Hu & Hdt & Hrf).
  set (s' := MkTms (touch m, p') vs' ms h ts). exists s', fl'. split.
  { unfold vnodes_op. erewrite bind_update; [|cbn; by rewrite Eh]. unfold free_vma_slot, zoom.
    cbn [set_vnodes ts_pm ts_vmas ts_mms ts_tasks ts_nodes s]. by rewrite E. }
  assert (Hlive : ∀ x, vma_live s' x ↔ vma_live s x ∧ x ∉ [o]).
  { intros x. rewrite list_elem_of_singleton. destruct (decide (x = o)) as [->|Hne]; [split; [done|by intros [_ ?]]|].
    pose proof (proj1 (Hoth x Hne) : vma_live s' x ↔ vma_live s x). tauto. }
  assert (Hout : o ∉ l1 ++ l2).
  { apply NoDup_cons in Hnd as [_ Hnd]. apply NoDup_app in Hnd as (_ & H1 & [H2 _]%NoDup_cons). intros [Hx|Hx]%elem_of_app.
    - apply (H1 (VmaNode o)); [apply list_elem_of_fmap; eauto|by left].
    - apply H2, list_elem_of_fmap. eauto. }
  assert (Hpg : ∀ q, q ∈ pg_inuse p → q ≠ o.1 → q ∈ pg_inuse p') by (intros q H1 H2; rewrite Hu; case_decide; set_solver).
  assert (Hop : page_ok tl p o.1).
  { destruct Ho as (k & sl & Es & Eq & _). pose proof (sv_slot _ _ _ _ _ (ti_vmas _ _ _ _ I) k sl Es) as Hsl. unfold slot_ok in Hsl.
    rewrite Eq in Hsl. apply Hsl. }
  assert (Hown : ∀ t' i, owns tl t' i → i ∈ pg_inuse p').
  { intros t' i Hi. apply Hpg; [by apply (owns_page _ _ _ _ _ (ti_pages _ _ _ _ I) Hi)|]. intros ->. destruct Hi as (l & El & Hi). by apply (proj2 (proj2 Hop) t' l). }
  assert (Hnode : ∀ k, k ≠ VmaHead t → (∀ x, k = VmaNode x → x ∉ l1 ++ o :: l2) → h !! k = ns !! k).
  { intros k Hk1 Hk2. apply Hf. rewrite not_elem_of_cons. split; [done|]. rewrite <- fmap_cons, <- fmap_app. intros (x & -> & Hx)%list_elem_of_fmap. by apply (Hk2 x). }
  assert (Hoff : ∀ x, x ∈ l1 ++ l2 → x ∈ l1 ++ o :: l2) by (intros x; rewrite !elem_of_app, elem_of_cons; tauto).
  split; [|split].
  - pose proof I as [I1 I2 I3 I4 I5 I6 I7 I8]. split; try done.
    + cbn. eapply slots_inv_sub; [|exact I3]. intros k sl q Es Eq (H1 & H2 & H3). split_and!; [done| |done]. apply Hpg; [done|].
      destruct (slot_live NMM_CHUNK mm0 ltac:(unfold NMM_CHUNK; lia) tl p ms k sl q I3 Es Eq) as [j Hj]. intros ->. by apply (I8 o (o.1, j) Ho).
    + intros t' b Hb. pose proof (I5 t' b Hb) as So. destruct So as [S1 S2 S3 S4 S5 S6 S7].
      assert (t' ≠ t) by (intros ->; rewrite (vl_none _ _ _ _ V) in Hb; done). split; try done.
      * eapply pt_inv_same; [exact S3|]. intros y i Hy. unfold page_data, pmem_of. cbn. rewrite Hdt. split; [done|]. by eapply Hown, S6.
      * eapply dlist_frame, S4. intros k [->|(x & -> & Hx)%list_elem_of_fmap]%elem_of_cons; apply Hnode; try done; [congruence|].
        intros ? [= <-]. by eapply (vl_disj _ _ _ _ V).
      * intros x Hx. apply Hlive. split; [by apply S5|]. intros ->%list_elem_of_singleton. eapply (vl_disj _ _ _ _ V t' b o Hb Hx). set_solver.
    + intros o1 o2 [H1 _]%Hlive H2. by apply I8.
  - split; [by rewrite fmap_app| | |apply V].
    + intros x Hx. apply Hlive. split; [by apply (vl_live _ _ _ _ V), Hoff|]. by intros ->%list_elem_of_singleton.
    + intros t' b x Hb Hx Hx'. by eapply (vl_disj _ _ _ _ V t' b x), Hoff.
  - split; try done; [|by rewrite Efl; case_decide; [eexists|exists []; rewrite app_nil_r]|cbn; lia|intros q Hq Hn; apply Hpg; [done|]; intros ->; by apply (Hn o)].
    intros x [H1 H2]%Hlive. rewrite list_elem_of_singleton in H2. unfold vma_val. by apply Hoth.
Qed.

Lemma filter_ext_in {X} (P Q : X → Prop) `{!∀ x, Decision (P x), !∀ x, Decision (Q x)} (l : list X) :
  (∀ x, x ∈ l → P x ↔ Q x) → filter P l = filter Q l.
Proof.
  induction l as [|x l IH]; intros Hx; [done|]. rewrite !filter_cons, IH by (intros; apply Hx; by right).
  pose proof (Hx x ltac:(by left)). do 2 case_decide; tauto || done.
Qed.
Lemma drop_vmas_spec sel B tl t rest : ∀ pre fl s fuel, tasks_inv B fl tl s → vlist_ok B s t (pre ++ rest) → (length rest ≤ fuel)%nat →
  ∃ s' fl', drop_vmas sel fuel t (Some (default (VmaHead t) (hd_error (VmaNode <$> rest)))) s = Ok tt s' ∧
    tasks_inv B fl' tl s' ∧ vlist_ok B s' t (pre ++ filter (λ o, sel (vma_val s o) = false) rest) ∧
    dropped (filter (λ o, sel (vma_val s o) = true) rest) fl s fl' s'.
Proof.
  induction rest as [|o rest IH]; intros pre fl s fuel I V Hf.
  { exists s, fl. split; [destruct fuel; cbn [drop_vmas fmap list_fmap hd_error default]; by rewrite bool_decide_eq_true_2|].
    split; [done|]. split; [done|apply dropped_refl]. }
  destruct fuel as [|fuel]; [cbn in Hf; lia|]. cbn [drop_vmas fmap list_fmap hd_error default length] in *.
  rewrite bool_decide_eq_false_2 by done. unfold id. cbn [mbind option_bind vma_of_node]. go.
  pose proof (vl_list _ _ _ _ V) as D. rewrite fmap_app, fmap_cons in D.
  rewrite (bind_deref s (λ s, ld_next (ts_nodes s) (Some (VmaNode o))) _ _ (dlist_next _ _ _ _ _ D)). go.
  rewrite !filter_cons. destruct (sel (vma_val s o)) eqn:Es; cbn [when].
  - rewrite decide_False, decide_True by done.
    destruct (drop_one B fl tl s t pre o rest I V) as (s1 & fl1 & E1 & I1 & V1 & D1). rewrite (bind_ok _ _ _ _ _ E1).
    destruct (IH pre fl1 s1 fuel I1 V1) as (s2 & fl2 & E2 & I2 & V2 & D2); [lia|].
    assert (Hval : ∀ x, x ∈ rest → vma_val s1 x = vma_val s x).
    { intros x Hx. apply (dr_val _ _ _ _ _ D1), (vl_live _ _ _ _ V1). set_solver. }
    exists s2, fl2. split; [done|]. split; [done|].
    rewrite (filter_ext_in (λ x, sel (vma_val s x) = false) (λ x, sel (vma_val s1 x) = false)) by (intros x Hx; by rewrite Hval).
    rewrite (filter_ext_in (λ x, sel (vma_val s x) = true) (λ x, sel (vma_val s1 x) = true)) by (intros x Hx; by rewrite Hval).
    split; [done|]. exact (dropped_trans _ _ _ _ _ _ _ _ D1 D2).
  - rewrite decide_True, decide_False by done. go.
    destruct (IH (pre ++ [o]) fl s fuel I) as (s2 & fl2 & E2 & I2 & V2 & D2); [by rewrite <- app_assoc|lia|].
    exists s2, fl2. split; [done|]. split; [done|]. rewrite <- app_assoc in V2. done.
Qed.
Lemma drop_list_spec sel B tl t vs fl s : tasks_inv B fl tl s → vlist_ok B s t vs → is_Some (mm_ptr s t) →
  ∃ s' fl', drop_list sel t s = Ok tt s' ∧ tasks_inv B fl' tl s' ∧
    vlist_ok B s' t (filter (λ o, sel (vma_val s o) = false) vs) ∧
    dropped (filter (λ o, sel (vma_val s o) = true) vs) fl s fl' s'.
Proof.
  intros I V [o Emm]. unfold mm_ptr in Emm. destruct (ts_tasks s !! t) as [tm|] eqn:Etm; [|done]. cbn in Emm.
  pose proof (vl_list _ _ _ _ V) as D. unfold drop_list, mm_of, task_mem. go. rewrite (bind_deref _ _ _ tm) by done. rewrite Emm. go.
  rewrite (bind_deref s (λ s, ld_next (ts_nodes s) (Some (VmaHead t))) _ _ (dlist_first _ _ _ D)). go.
  apply (drop_vmas_spec sel B tl t vs [] fl s (list_fuel s) I V). pose proof (dlist_size _ _ _ D) as Hs. rewrite length_fmap in Hs.
  unfold list_fuel. lia.
Qed.

(** With no record selected nothing changes. *)
Lemma drop_vmas_none sel t rest : ∀ pre s fuel, dlist (ts_nodes s) (VmaHead t) (VmaNode <$> (pre ++ rest)) →
  (∀ o, o ∈ rest → sel (vma_val s o) = false) → (length rest ≤ fuel)%nat →
  drop_vmas sel fuel t (Some (default (VmaHead t) (hd_error (VmaNode <$> rest)))) s = Ok tt s.
Proof.
  induction rest as [|o rest IH]; intros pre s fuel D Hs Hf.
  { destruct fuel; cbn [drop_vmas fmap list_fmap hd_error default]; by rewrite bool_decide_eq_true_2. }
  destruct fuel as [|fuel]; [cbn in Hf; lia|]. cbn [drop_vmas fmap list_fmap hd_error default length] in *.
  rewrite bool_decide_eq_false_2 by done. unfold id. cbn [mbind option_bind vma_of_node]. go.
  pose proof D as D'. rewrite fmap_app, fmap_cons in D'.
  rewrite (bind_deref s (λ s, ld_next (ts_nodes s) (Some (VmaNode o))) _ _ (dlist_next _ _ _ _ _ D')). go.
  rewrite Hs by set_solver. cbn [when]. go. apply (IH (pre ++ [o])); [by rewrite <- app_assoc|intros x Hx; apply Hs; set_solver|lia].
Qed.
Lemma drop_list_none sel A fl tl s t a : tasks_inv A fl tl s → A !! t = Some a →
  (∀ o, o ∈ sp_vmas a → sel (vma_val s o) = false) → drop_list sel t s = Ok tt s.
Proof.
  intros I Ha Hs. pose proof (ti_space _ _ _ _ I t a Ha) as So. destruct (so_mm _ _ _ _ So) as (o & Emm & _).
  unfold mm_ptr in Emm. destruct (ts_tasks s !! t) as [tm|] eqn:Etm; [|done]. cbn in Emm.
  pose proof (so_list _ _ _ _ So) as D. unfold drop_list, mm_of, task_mem. go. rewrite (bind_deref _ _ _ tm) by done. rewrite Emm. go.
  rewrite (bind_deref s (λ s, ld_next (ts_nodes s) (Some (VmaHead t))) _ _ (dlist_first _ _ _ D)). go.
  apply (drop_vmas_none sel t (sp_vmas a) [] s (list_fuel s) D Hs). pose proof (dlist_size _ _ _ D) as Hl. rewrite length_fmap in Hl.
  unfold list_fuel. lia.
Qed.

(** The space of a task whose records changed. *)
Lemma tasks_inv_restore A fl tl s t a fl' s' os vs' : tasks_inv A fl tl s → A !! t = Some a →
  tasks_inv (delete t A) fl' tl s' → vlist_ok (delete t A) s' t vs' → dropped os fl s fl' s' →
  tasks_inv (<[t := MkSpace (sp_root a) (sp_pt a) vs']> A) fl' tl s'.
Proof.
  intros I Ha I' V D. pose proof (ti_space _ _ _ _ I t a Ha) as So. pose proof D as [D1 D2 D3 D4 D5 D6 _ _ _].
  set (a' := MkSpace (sp_root a) (sp_pt a) vs').
  assert (Hlook : ∀ t' b, <[t := a']> A !! t' = Some b → (t' = t ∧ b = a') ∨ (t' ≠ t ∧ delete t A !! t' = Some b)).
  { intros t' b. destruct (decide (t = t')) as [<-|]; [rewrite lookup_insert_eq; intros [= <-]; by left|].
    rewrite lookup_insert_ne, lookup_delete_ne by done. by right. }
  assert (Hptr : ∀ x, mm_ptr s' x = mm_ptr s x) by (intros x; unfold mm_ptr; by rewrite D4).
  assert (Hd : ∀ i, page_data (pmem_of s') i = page_data (pmem_of s) i) by (intros i; unfold page_data; by rewrite D3).
  split; try apply I'.
  - intros t' b [[-> ->]|[_ Hb]]%Hlook; [|by apply (ti_space _ _ _ _ I')]. split; cbn [sp_root sp_pt sp_vmas a']; [..|apply So|apply So].
    + rewrite D4. apply So.
    + destruct (so_mm _ _ _ _ So) as (o & H1 & H2). exists o. rewrite Hptr. split; [done|]. unfold mm_live. by rewrite D5.
    + eapply pt_inv_same; [apply So|]. intros y i Hy. split; [by apply Hd|].
      by apply (owns_page _ _ _ t i (ti_pages _ _ _ _ I')), (so_owned _ _ _ _ So y).
    + apply V.
    + apply V.
  - intros t1 t2 a1 a2 o [[-> ->]|[H1 Hb1]]%Hlook [[-> ->]|[H2 Hb2]]%Hlook.
    + done.
    + intros Ho1 Ho2. by destruct (vl_disj _ _ _ _ V t2 a2 o).
    + intros Ho1 Ho2. by destruct (vl_disj _ _ _ _ V t1 a1 o).
    + by apply (ti_disj _ _ _ _ I').
  - intros t1 t2 o H1 H2. rewrite !Hptr. assert (Hs : ∀ x, is_Some (<[t := a']> A !! x) → is_Some (A !! x)).
    { intros x. destruct (decide (t = x)) as [<-|]; [by eauto|by rewrite lookup_insert_ne]. }
    apply (ti_mm _ _ _ _ I); by apply Hs.
Qed.
(** Dropping the records that [sel] selects changes neither table nor pages. *)
Lemma drop_records_spec sel A fl tl s t a : tasks_inv A fl tl s → A !! t = Some a →
  ∃ s' fl', drop_list sel t s = Ok tt s' ∧
    let a' := MkSpace (sp_root a) (sp_pt a) (filter (λ o, sel (vma_val s o) = false) (sp_vmas a)) in
    tasks_inv (<[t := a']> A) fl' tl s' ∧ dropped (filter (λ o, sel (vma_val s o) = true) (sp_vmas a)) fl s fl' s'.
Proof.
  intros I Ha. destruct (tasks_inv_delete A fl tl s t a I Ha) as [Id V].
  destruct (so_mm _ _ _ _ (ti_space _ _ _ _ I t a Ha)) as (o & Eo & _).
  destruct (drop_list_spec sel _ tl t _ fl s Id V ltac:(by eexists)) as (s' & fl' & E & I' & V' & D).
  exists s', fl'. split; [done|]. split; [|done]. by eapply tasks_inv_restore.
Qed.

(** ** [clean_mm_source] *)

(** One page of task [t] goes back to the free list. *)
Lemma clean_one B fl tl s t i l : tasks_inv B fl tl s → B !! t = None → tl !! t = Some (i :: l) →
  ∃ p', on_page (free_page_for_task i) s = Ok tt (set_pm (touch (mach_of s), p') s) ∧
    tasks_inv B (fl ++ [i]) (<[t := l]> tl) (set_pm (touch (mach_of s), p') s) ∧ pg_data p' = pg_data (pmem_of s).
Proof.
  intros I Hb Hl. pose proof I as [I1 I2 I3 I4 I5 I6 I7 I8].
  destruct (free_page_for_task_spec i fl tl t [] l (mach_of s) (pmem_of s) I1 (quiet_mem_free _ I4) Hl) as (p' & E & Ip' & Hd & Hu).
  cbn [app] in Ip'. exists p'. split; [apply on_page_ok; by rewrite (surjective_pairing (ts_pm s))|]. split; [|done].
  set (s' := set_pm (touch (mach_of s), p') s).
  assert (Hi : owns tl t i) by (exists (i :: l); split; [done|by left]).
  assert (Hown : ∀ t' j, t' ≠ t → owns tl t' j → owns (<[t := l]> tl) t' j ∧ j ∈ pg_inuse p').
  { intros t' j Hne Hj. split; [unfold owns; by rewrite lookup_insert_ne|]. rewrite Hu.
    destruct (owns_page _ _ _ _ _ I1 Hj) as [_ Hju]. apply elem_of_difference. split; [done|]. rewrite elem_of_singleton. intros ->.
    by apply Hne, (owns_inj fl tl (pmem_of s) t' t i). }
  assert (Hok : ∀ q, page_ok tl (pmem_of s) q → page_ok (<[t := l]> tl) p' q).
  { intros q (H1 & H2 & H3). split_and!; [done| |].
    - rewrite Hu, elem_of_difference, elem_of_singleton. split; [done|]. intros ->. apply (H3 t _ Hl). by left.
    - intros t' l'. destruct (decide (t = t')) as [<-|]; [|rewrite lookup_insert_ne by done; apply H3].
      rewrite lookup_insert_eq. intros [= <-] Hq. apply (H3 t _ Hl). by right. }
  split; try done; [by eapply slots_inv_pages, I2|by eapply slots_inv_pages, I3|].
  intros t' b Hb'. assert (t' ≠ t) by (intros ->; congruence). destruct (I5 t' b Hb') as [S1 S2 S3 S4 S5 S6 S7]. split; try done.
  - eapply pt_inv_same; [exact S3|]. intros y j Hy. unfold page_data, pmem_of. cbn. rewrite Hd. split; [done|].
    apply (Hown t'); [done|by eapply S6].
  - intros y j Hy. apply Hown; [done|by eapply S6].
  - by rewrite lookup_insert_ne.
Qed.
(** The loop over the pages frees all of them, in order. *)
Lemma clean_pages_spec B t l : ∀ fl tl s fuel, tasks_inv B fl tl s → B !! t = None → tl !! t = Some l → (length l ≤ fuel)%nat →
  ∃ x, clean_pages fuel t (Some (default (TaskPages t) (hd_error (PageNode <$> l)))) s = Ok tt (set_pm x s) ∧
    tasks_inv B (fl ++ l) (<[t := []]> tl) (set_pm x s) ∧ pg_data x.2 = pg_data (pmem_of s) ∧ mach_frame (mach_of s) x.1.
Proof.
  induction l as [|i l IH]; intros fl tl s fuel I Hb Hl Hf.
  { exists (ts_pm s). assert (set_pm (ts_pm s) s = s) as -> by (by destruct s). rewrite app_nil_r, insert_id by done.
    split; [|done]. destruct fuel; cbn [clean_pages fmap list_fmap hd_error default]; by rewrite bool_decide_eq_true_2. }
  destruct fuel as [|fuel]; [cbn in Hf; lia|]. cbn [clean_pages fmap list_fmap hd_error default length] in *.
  rewrite bool_decide_eq_false_2 by done. unfold id. cbn [mbind option_bind page_of_node]. go.
  pose proof (pi_task _ _ _ (ti_pages _ _ _ _ I) t _ Hl) as D. rewrite fmap_cons in D.
  rewrite (bind_deref s (λ s, ld_next (pg_nodes (ts_pm s).2) (Some (PageNode i))) _ _ (dlist_next _ _ [] _ _ D)).
  destruct (clean_one B fl tl s t i l I Hb Hl) as (p1 & E1 & I1 & D1). run E1. set (s1 := set_pm (touch (mach_of s), p1) s) in *.
  destruct (IH (fl ++ [i]) (<[t := l]> tl) s1 fuel I1 Hb) as (x & E2 & I2 & D2 & M2); [apply lookup_insert_eq|lia|].
  exists x. rewrite insert_insert_eq, <- app_assoc in I2. split; [done|]. split; [done|]. split; [by rewrite D2|].
  etransitivity; [|exact M2]. apply touch_frame.
Qed.
Lemma pages_inv_delete fl tl p t : pages_inv fl tl p → pages_inv fl (delete t tl) p.
Proof.
  intros [I1 I2 I3 I4 I5 I6 I7].
  assert (Hd : ∀ t' l, delete t tl !! t' = Some l → tl !! t' = Some l) by (intros t' l; rewrite lookup_delete_Some; naive_solver).
  split; try done; naive_solver.
Qed.
(** No task has more pages than there are. *)
Lemma task_pages_bound fl tl p t l : pages_inv fl tl p → tl !! t = Some l → (length l ≤ NPAGE)%nat.
Proof.
  intros I Hl. pose proof (pi_task _ _ _ I t l Hl) as [Hnd _]. apply NoDup_cons in Hnd as [_ Hnd]. apply NoDup_fmap_1 in Hnd.
  rewrite <- (length_seq NPAGE 0). apply submseteq_length, NoDup_submseteq; [done|]. intros i Hi. apply elem_of_seq.
  pose proof (pi_used _ _ _ I t l i Hl Hi). lia.
Qed.
(** [free_mm_struct_slot(t->mm_struct)]. *)
Lemma free_mm_step B fl tl s t o : tasks_inv B fl tl s → B !! t = None → mm_ptr s t = Some o → mm_live s o →
  (∀ t', is_Some (B !! t') → mm_ptr s t' ≠ Some o) →
  ∃ s' fl', free_mm_struct_slot o s = Ok tt s' ∧ tasks_inv B fl' tl s' ∧ ts_vmas s' = ts_vmas s ∧ ts_tasks s' = ts_tasks s ∧
    ¬ mm_live s' o ∧ (∀ o', o' ≠ o → mm_live s o' → mm_live s' o' ∧ mm_val s' o' = mm_val s o') ∧
    pg_data (pmem_of s') = pg_data (pmem_of s) ∧ mach_frame (mach_of s) (mach_of s') ∧ ∃ e, fl' = fl ++ e.
Proof.
  intros I Hb Hptr Ho Hother. destruct s as [[m p] vs ms ns ts]. set (s := MkTms (m, p) vs ms ns ts) in *. pose proof I as [I1 I2 I3 I4 I5 I6 I7 I8].
  destruct (free_slot_spec MmStructSlot NMM_CHUNK mm0 ltac:(unfold NMM_CHUNK; lia) m p ms fl tl o I4 I3 I1 Ho)
    as (p' & ms' & fl' & E & Ip' & Im' & (_ & Hdead & Hoth) & Efl & Hu & Hdt & _).
  set (s' := MkTms (touch m, p') vs ms' ns ts). exists s', fl'. split.
  { unfold free_mm_struct_slot, zoom. cbn [ts_pm ts_mms s]. by rewrite E. }
  assert (Hpg : ∀ q, q ∈ pg_inuse p → q ≠ o.1 → q ∈ pg_inuse p') by (intros q H1 H2; rewrite Hu; case_decide; set_solver).
  assert (Hop : page_ok tl p o.1).
  { destruct Ho as (k & sl & Es & Eq & _). pose proof (sv_slot _ _ _ _ _ I3 k sl Es) as Hsl. unfold slot_ok in Hsl. rewrite Eq in Hsl. apply Hsl. }
  assert (Hown : ∀ t' i, owns tl t' i → i ∈ pg_inuse p').
  { intros t' i Hi. apply Hpg; [by apply (owns_page _ _ _ _ _ I1 Hi)|]. intros ->. destruct Hi as (l & El & Hi). by apply (proj2 (proj2 Hop) t' l). }
  assert (Hlv : ∀ x, mm_live s' x → mm_live s x ∧ x ≠ o).
  { intros x Hx. destruct (decide (x = o)) as [->|Hne]; [done|]. split; [|done]. by apply (proj1 (Hoth x Hne)). }
  assert (Hlv2 : ∀ o', o' ≠ o → mm_live s o' → mm_live s' o' ∧ mm_val s' o' = mm_val s o').
  { intros o' Hne H. split; [by apply (proj1 (Hoth o' Hne))|by apply (proj2 (Hoth o' Hne))]. }
  split; [|split_and!; try done; by rewrite Efl; case_decide; [eexists|exists []; rewrite app_nil_r]].
  split; try done.
  - cbn. eapply slots_inv_sub; [|exact I2]. intros k sl q Es Eq (H1 & H2 & H3). split_and!; [done| |done]. apply Hpg; [done|].
    destruct (slot_live NVMA_CHUNK vma0 ltac:(unfold NVMA_CHUNK; lia) tl p vs k sl q I2 Es Eq) as [j Hj]. intros ->. by apply (I8 (o.1, j) o Hj).
  - intros t' b Hb'. destruct (I5 t' b Hb') as [S1 S2 S3 S4 S5 S6 S7]. split; try done.
    + destruct S2 as (o' & H1 & H2). exists o'. split; [done|]. apply Hlv2; [|done]. intros ->. by apply (Hother t').
    + eapply pt_inv_same; [exact S3|]. intros y i Hy. unfold page_data, pmem_of. cbn. rewrite Hdt. split; [done|]. by eapply Hown, S6.
  - intros o1 o2 H1 [H2 _]%Hlv. by apply I8.
Qed.
Lemma tasks_inv_untl B fl tl s t : tasks_inv B fl tl s → B !! t = None → tasks_inv B fl (delete t tl) s.
Proof.
  intros [I1 I2 I3 I4 I5 I6 I7 I8] Hb.
  assert (Hok : ∀ q, page_ok tl (pmem_of s) q → page_ok (delete t tl) (pmem_of s) q).
  { intros q (H1 & H2 & H3). split_and!; try done. intros t' l. rewrite lookup_delete_Some. intros [_ ?]. by eapply H3. }
  split; try done; [by apply pages_inv_delete|by eapply slots_inv_pages, I2|by eapply slots_inv_pages, I3|].
  intros t' b Hb'. assert (t ≠ t') by (intros ->; congruence). destruct (I5 t' b Hb') as [S1 S2 S3 S4 S5 S6 S7].
  split; try done; [|by rewrite lookup_delete_ne]. intros y i Hy. unfold owns. rewrite lookup_delete_ne by done. by eapply S6.
Qed.
