(* ===== verification/Task.v ===== *)
(** Tasks (kernel/task/task.h, kernel/task/task.c, kernel/syscall/systask.c, [kill]
    of kernel/task/sche.c): creation, exit and waiting, over all that a task owns.

    The state puts the components together: files, inodes and pipes ([kst]), the
    memory of the tasks, the identifiers and the table of tasks.  All of them share
    one machine and one physical memory.  User memory is reached through the page
    table of the running task; the file layer needs none on these paths. *)
From S2P Require Import Prelude Bytes ListNode Machine Sched BlockIO Fs Inode PageAlloc Vm Pipe Slot File Sysfs Tid TaskMem.

(** Paths on which the file layer does not touch user memory. *)
#[export] Instance no_user_mem : UserMem unit.
Proof.
  refine {| copy_in := λ _ n u, match n with O => Some [] | S _ => None end;
            copy_out := λ _ d u, match d with [] => Some u | _ => None end;
            ubyte := λ _ _, None |}.
  - intros u va [|n] Hn; [by exists []|]. destruct (Hn 0 ltac:(lia)) as [? [=]].
  - intros u va [|b d] Hd; [|destruct (Hd 0) as [? [=]]; cbn; lia]. exists u. split; [done|]. intros a. by case_decide.
Defined.

(** The addresses of [t->childs] and [t->self]. *)
Inductive cnode := Childs (t : nat) | Self (t : nat).
#[export] Instance cnode_eq_dec : EqDecision cnode.
Proof. solve_decision. Defined.
#[export] Instance cnode_countable : Countable cnode.
Proof.
  apply (inj_countable' (λ k, match k with Childs t => inl t | Self t => inr t end)
    (λ c, match c with inl t => Childs t | inr t => Self t end)).
  by intros [].
Defined.
(** The fields of [struct task] that are in no other component; [p_ctx] holds the
    registers [ra], [sp], [s0] to [s11]. *)
Record proc := MkProc {
  p_pid : Z;
  p_tid : Z;
  p_parent : option nat;
  p_exit : Z;
  p_fs : option optr;
  p_entry : Z;
  p_ctx : list Z;
  p_name : list Z;
}.
Definition set_parent (v : option nat) (p : proc) : proc :=
  MkProc (p_pid p) (p_tid p) v (p_exit p) (p_fs p) (p_entry p) (p_ctx p) (p_name p).
Definition set_exit (v : Z) (p : proc) : proc :=
  MkProc (p_pid p) (p_tid p) (p_parent p) v (p_fs p) (p_entry p) (p_ctx p) (p_name p).
Definition set_fs (v : option optr) (p : proc) : proc :=
  MkProc (p_pid p) (p_tid p) (p_parent p) (p_exit p) v (p_entry p) (p_ctx p) (p_name p).
Definition set_ids (v : Z) (p : proc) : proc :=
  MkProc v v (p_parent p) (p_exit p) (p_fs p) (p_entry p) (p_ctx p) (p_name p).
Definition set_ctx (v : list Z) (p : proc) : proc :=
  MkProc (p_pid p) (p_tid p) (p_parent p) (p_exit p) (p_fs p) (p_entry p) v (p_name p).
Definition set_pname (v : list Z) (p : proc) : proc :=
  MkProc (p_pid p) (p_tid p) (p_parent p) (p_exit p) (p_fs p) (p_entry p) (p_ctx p) v.
(** [PGSIZE / sizeof(struct chunk_fs_struct_slot)]. *)
Definition NFS_CHUNK : nat := 25.
#[global] Arguments NFS_CHUNK : simpl never.

Section task.
Context {S : Type} {IO : BlockIO S}.

Record kern := MkKern {
  k_st : @kst S unit;
  k_vmas : slots vma;
  k_mms : slots mm_struct;
  k_vnodes : gmap vnode (list_node vnode);
  k_tmem : list tmem;
  k_fss : slots fs_struct;
  k_tids : list Z;
  k_procs : list proc;
  k_cnodes : gmap cnode (list_node cnode);
}.
Definition KM : Type → Type := M kern.
Definition k_mach (k : kern) : mach := bmach (k_st k).1.1.
Definition k_pmem (k : kern) : pmem := (k_st k).2.1.1.
Definition set_st (x : @kst S unit) (k : kern) : kern :=
  MkKern x (k_vmas k) (k_mms k) (k_vnodes k) (k_tmem k) (k_fss k) (k_tids k) (k_procs k) (k_cnodes k).
(** The machine and the physical memory. *)
Definition set_mp (x : mach * pmem) (k : kern) : kern :=
  set_st ((bset_mach x.1 (k_st k).1.1, (k_st k).1.2), ((x.2, (k_st k).2.1.2), (k_st k).2.2)) k.
Definition set_kmach (m : mach) (k : kern) : kern := set_st ((bset_mach m (k_st k).1.1, (k_st k).1.2), (k_st k).2) k.
Definition on_kst {A} (m : M (@kst S unit) A) : KM A := zoom k_st set_st m.
Definition on_km {A} (m : M mach A) : KM A := zoom k_mach set_kmach m.
Definition on_tms {A} (m : TaskMem.TM A) : KM A :=
  zoom (λ k, MkTms (k_mach k, k_pmem k) (k_vmas k) (k_mms k) (k_vnodes k) (k_tmem k))
    (λ s k, let k := set_mp (ts_pm s) k in
      MkKern (k_st k) (ts_vmas s) (ts_mms s) (ts_nodes s) (ts_tasks s) (k_fss k) (k_tids k) (k_procs k) (k_cnodes k)) m.
Definition on_fss {A} (m : SM (T:=fs_struct) A) : KM A :=
  zoom (λ k, ((k_mach k, k_pmem k), k_fss k))
    (λ s k, let k := set_mp s.1 k in
      MkKern (k_st k) (k_vmas k) (k_mms k) (k_vnodes k) (k_tmem k) s.2 (k_tids k) (k_procs k) (k_cnodes k)) m.
Definition on_tids {A} (m : Tid.TM A) : KM A :=
  zoom (λ k, (k_mach k, k_tids k))
    (λ s k, let k := set_kmach s.1 k in
      MkKern (k_st k) (k_vmas k) (k_mms k) (k_vnodes k) (k_tmem k) (k_fss k) s.2 (k_procs k) (k_cnodes k)) m.
Definition set_procs (f : list proc → list proc) (k : kern) : kern :=
  MkKern (k_st k) (k_vmas k) (k_mms k) (k_vnodes k) (k_tmem k) (k_fss k) (k_tids k) (f (k_procs k)) (k_cnodes k).
Definition set_cnodes (h : gmap cnode (list_node cnode)) (k : kern) : kern :=
  MkKern (k_st k) (k_vmas k) (k_mms k) (k_vnodes k) (k_tmem k) (k_fss k) (k_tids k) (k_procs k) h.
Definition set_fss (f : slots fs_struct → slots fs_struct) (k : kern) : kern :=
  MkKern (k_st k) (k_vmas k) (k_mms k) (k_vnodes k) (k_tmem k) (f (k_fss k)) (k_tids k) (k_procs k) (k_cnodes k).

Definition proc_at (t : nat) : KM proc := deref (λ k, k_procs k !! t).
Definition mod_proc (t : nat) (f : proc → proc) : KM unit :=
  update (λ k, p ← k_procs k !! t; Some (set_procs (insert t (f p)) k)).
Definition cnodes_op (f : gmap cnode (list_node cnode) → option (gmap cnode (list_node cnode))) : KM unit :=
  update (λ k, (λ h, set_cnodes h k) <$> f (k_cnodes k)).
(** [t->state], read and written. *)
Definition state_at (t : nat) : KM task_state := let! ts := on_km (task_at t) in ret (tstate ts).
Definition put_state (t : nat) (v : task_state) : KM unit :=
  on_km (let! ts := task_at t in set_task t (MkTsk v (tchan ts))).
Definition self_task : KM nat := deref (λ k, mytask (k_mach k)).
(** [container_of(child, struct task, self)]. *)
Definition task_of_node (c : cnode) : option nat := match c with Self t => Some t | Childs _ => None end.
Definition child_fuel (k : kern) : nat := Datatypes.S (size (k_cnodes k)).

(** The [fs_struct] of a task. *)
Definition fs_ptr (t : nat) : KM optr := let! p := proc_at t in deref (λ _, p_fs p).
Definition fs_val (o : optr) : KM fs_struct := gets (λ k, c_obj (chunk_of fs0 (k_fss k) o)).
Definition fs_put (o : optr) (v : fs_struct) : KM unit := modify (set_fss (store_obj fs0 o v)).
Definition alloc_fs_struct_slot : KM optr := on_fss (alloc_slot FsStructSlot NFS_CHUNK fs0).
Definition free_fs_struct_slot (o : optr) : KM unit := on_fss (free_slot FsStructSlot fs0 o).

(** [copy_fs]: the loop over the descriptors of the child, [n] left. *)
Definition dup_file (pf : optr) : KM optr :=
  let! f := on_kst falloc in
  let! pv := on_kst (file_at pf) in
  let! v := on_kst (file_at f) in
  on_kst (put_file f (MkFile (f_mode pv) (f_type pv) (f_refc v) (f_off v) (f_obj pv))) ;;
  (match f_type pv with
   | INODE | DEVICE => let! i := deref (λ _, f_obj pv) in on_kst (on_ist (iref i))
   | PIPE => let! i := deref (λ _, f_obj pv) in on_kst (on_pipe (pipeget i))
   | NONE => ret tt
   end) ;;
  ret f.
Fixpoint copy_files (o : optr) (n : nat) : KM unit :=
  match n with
  | O => ret tt
  | Datatypes.S n' =>
    let i := (NFILE - n)%nat in
    let! fs := fs_val o in
    let! pf := deref (λ _, fs_files fs !! i) in
    match pf with
    | Some pf =>
      let! f := dup_file pf in
      let! fs := fs_val o in
      fs_put o (set_files (<[i := Some f]> (fs_files fs)) fs)
    | None => ret tt
    end ;;
    copy_files o n'
  end.
Definition copy_fs (c p : nat) : KM unit :=
  let! po := fs_ptr p in
  let! pfs := fs_val po in
  let! cwd := deref (λ _, fs_cwd pfs) in
  on_kst (on_ist (iref cwd)) ;;
  let! co := fs_ptr c in
  let! pfs := fs_val po in
  fs_put co pfs ;;
  copy_files co NFILE.

Definition NAME_task : list Z := [116; 97; 115; 107; 0].
Definition task_info_init (t : nat) (p : option nat) : KM unit :=
  mod_proc t (λ x, set_pname (blit 0 NAME_task (p_name x)) x) ;;
  let! tid := on_tids alloc_tid in
  mod_proc t (set_ids tid) ;;
  mod_proc t (set_parent p) ;;
  cnodes_op (list_init (Childs t)).
Definition task_fs_init (t : nat) (p : option nat) : KM unit :=
  let! o := alloc_fs_struct_slot in
  mod_proc t (set_fs (Some o)) ;;
  match p with None => ret tt | Some p => copy_fs t p end.

(** [trampoline] and [kernel_satp] as in [task_mm_init]. *)
Context (trampoline kernel_satp : Z).

Definition task_init (t : nat) (p : option nat) : KM unit :=
  task_info_init t p ;;
  on_tms (task_mm_init trampoline kernel_satp t p) ;;
  task_fs_init t p.
(** The loop of [alloc_task], [n] tasks left. *)
Fixpoint alloc_task_loop (p : option nat) (n : nat) : KM nat :=
  match n with
  | O => panic "alloc_task: task too much"
  | Datatypes.S n' =>
    let i := (NPROC - n)%nat in
    on_km (spin_get (L_task i)) ;;
    let! st := state_at i in
    if bool_decide (st = FREE) then
      put_state i INIT ;;
      on_km (spin_put (L_task i)) ;;
      on_km (spin_put L_tq) ;;
      task_init i p ;;
      ret i
    else
      on_km (spin_put (L_task i)) ;;
      alloc_task_loop p n'
  end.
Definition alloc_task (p : option nat) : KM nat :=
  on_km (spin_get L_tq) ;;
  alloc_task_loop p NPROC.

(** The loop of [clean_fs_source], [n] descriptors left. *)
Fixpoint close_files (o : optr) (n : nat) : KM unit :=
  match n with
  | O => ret tt
  | Datatypes.S n' =>
    let i := (NFILE - n)%nat in
    let! fs := fs_val o in
    let! f := deref (λ _, fs_files fs !! i) in
    match f with
    | Some f =>
      on_kst (fclose f) ;;
      let! fs := fs_val o in
      fs_put o (set_files (<[i := None]> (fs_files fs)) fs)
    | None => ret tt
    end ;;
    close_files o n'
  end.
Definition clean_fs_source (t : nat) : KM unit :=
  let! o := fs_ptr t in
  let! fs := fs_val o in
  let! cwd := deref (λ _, fs_cwd fs) in
  on_kst (on_ist (iput cwd)) ;;
  let! fs := fs_val o in
  fs_put o (set_cwd None fs) ;;
  close_files o NFILE ;;
  let! fs := fs_val o in
  fs_put o (set_fdx 0 fs) ;;
  free_fs_struct_slot o ;;
  mod_proc t (set_fs None).
Definition clean_source (t : nat) : KM unit :=
  clean_fs_source t ;;
  on_tms (clean_mm_source t) ;;
  let! p := proc_at t in
  on_tids (free_tid (p_tid p)).

(** [&t->parent->childs]; the address computed from a null pointer is the channel of
    no task. *)
Definition childs_chan (p : option nat) : chan := ChChilds (default NPROC p).
(** [kill] and [sys_exit] from [clean_source] on. *)
Definition leave_task (t : nat) : KM unit :=
  clean_source t ;;
  let! p := proc_at t in
  on_km (exit_enter (childs_chan (p_parent p))) ;;
  (λ k, Switch k).
Definition kill : KM unit :=
  let! t := self_task in
  mod_proc t (set_exit 255) ;;
  leave_task t.

(** [sys_exit]: the loop that gives the children to the first task. *)
Fixpoint reparent (fuel : nat) (t : nat) (child : option cnode) : KM unit :=
  if bool_decide (child = Some (Childs t)) then ret tt else
  match fuel with
  | O => (λ k, Spin k)
  | Datatypes.S fuel =>
    let! c := deref (λ _, child ≫= task_of_node) in
    let! child := deref (λ k, ld_next (k_cnodes k) child) in
    on_km (spin_get (L_task c)) ;;
    mod_proc c (set_parent (Some 0%nat)) ;;
    cnodes_op (list_remove (Self c)) ;;
    cnodes_op (list_pushback (Childs 0) (Self c)) ;;
    on_km (spin_put (L_task c)) ;;
    reparent fuel t child
  end.
Definition give_children (t : nat) : KM unit :=
  let! child := deref (λ k, ld_next (k_cnodes k) (Some (Childs t))) in
  let! fuel := gets child_fuel in
  reparent fuel t child.
(** [a0] is converted to [int]. *)
Definition sys_exit (a0 : Z) : KM Z :=
  let! t := self_task in
  mod_proc t (set_exit (i32 a0)) ;;
  give_children t ;;
  leave_task t ;;
  ret 0.

(** An access to user memory of the running task ends in [kill] when it is not
    possible. *)
Definition user_out (a : Z) (d : list Z) : KM unit := λ k,
  match (let! t := self_task in
         let! tm := on_tms (task_mem t) in
         on_tms (on_page (copy_to_user (λ s, Switch s) (t_pagetable tm) (length d) a d))) k with
  | Switch k => kill k
  | r => r
  end.
(** The inner loop of [sys_wait]: the first child that has exited. *)
Fixpoint find_exit (fuel : nat) (t : nat) (child : option cnode) : KM (option nat) :=
  if bool_decide (child = Some (Childs t)) then ret None else
  match fuel with
  | O => (λ k, Spin k)
  | Datatypes.S fuel =>
    let! c := deref (λ _, child ≫= task_of_node) in
    let! st := state_at c in
    if bool_decide (st = EXIT) then ret (Some c) else
    let! child := deref (λ k, ld_next (k_cnodes k) child) in
    find_exit fuel t child
  end.
(** What [sys_wait] does with the child it found. *)
Definition reap (c : nat) (a0 : Z) : KM Z :=
  let! p := proc_at c in
  cnodes_op (list_remove (Self c)) ;;
  (if negb (a0 =? 0) then user_out a0 (le_split 4 (u32 (p_exit p))) else ret tt) ;;
  put_state c FREE ;;
  ret (p_pid p).
(** One round of the outer loop, up to [sleep]. *)
Definition wait_round (a0 : Z) : KM Z :=
  let! t := self_task in
  let! child := deref (λ k, ld_next (k_cnodes k) (Some (Childs t))) in
  let! fuel := gets child_fuel in
  let! r := find_exit fuel t child in
  match r with
  | Some c => reap c a0
  | None => on_km (sleep (ChChilds t) None)
  end.
Definition sys_wait (a0 : Z) : KM Z :=
  let! t := self_task in
  let! child := deref (λ k, ld_next (k_cnodes k) (Some (Childs t))) in
  if bool_decide (child = Some (Childs t)) then ret (-1) else
  wait_round a0.
(** After [sleep] the loop goes on. *)
Definition sys_wait_resume (a0 : Z) : KM Z :=
  on_km (sleep_resume None) ;;
  wait_round a0.

(** [sys_fork] in the parent; [regs] are the registers [dump_context] stores, of
    which the second is the stack pointer. *)
Definition sys_fork (regs : list Z) : KM Z :=
  let! p := self_task in
  let! c := alloc_task (Some p) in
  cnodes_op (list_pushback (Childs p) (Self c)) ;;
  let! pm := on_tms (task_mem p) in
  let! cm := on_tms (task_mem c) in
  on_tms (on_page (memcpy_page (u64 (t_kstack cm - PGSIZE)) (u64 (t_kstack pm - PGSIZE)))) ;;
  mod_proc c (set_ctx regs) ;;
  let! sp := deref (λ _, regs !! 1%nat) in
  let! x := proc_at c in
  mod_proc c (set_ctx (<[1%nat := u64 (t_kstack cm - u64 (t_kstack pm - sp))]> (p_ctx x))) ;;
  put_state c READY ;;
  let! x := proc_at c in
  ret (p_pid x).
(** The same in the child, which the scheduler starts behind [dump_context]. *)
Definition fork_child : KM Z :=
  let! t := self_task in
  on_km (spin_put (L_task t)) ;;
  ret 0.
End task.
