(* ===== verification/ProcTree.v ===== *)
(** The tree of tasks: the lists of children ([childs], [self]) and the [parent]
    pointers of kernel/task/task.h agree, and the system calls of
    kernel/syscall/systask.c move tasks between the lists. *)
From S2P Require Import Prelude Bytes ListNode Machine Sched BlockIO Inode PageAlloc Vm Pipe Slot File Sysfs UserCopy TaskMem TaskSpace Task.

(** [ch t]: the children of task [t], in the order of its list. *)
Record tree_ok (ch : gmap nat (list nat)) (h : gmap cnode (list_node cnode)) (ps : list proc) : Prop := {
  tr_list t l : ch !! t = Some l → dlist h (Childs t) (Self <$> l);
  tr_parent t l c : ch !! t = Some l → c ∈ l → p_parent <$> ps !! c = Some (Some t);
  tr_self c : (c < NPROC)%nat → is_Some (h !! Self c);
  tr_len : length ps = NPROC;
}.

Section lists.
Implicit Types (ch : gmap nat (list nat)) (h : gmap cnode (list_node cnode)) (ps : list proc).

Lemma tr_disj ch h ps t t' l l' c : tree_ok ch h ps → ch !! t = Some l → ch !! t' = Some l' → c ∈ l → c ∈ l' → t = t'.
Proof.
  intros T Hl Hl' Hc Hc'. pose proof (tr_parent _ _ _ T t l c Hl Hc) as E1. pose proof (tr_parent _ _ _ T t' l' c Hl' Hc') as E2. congruence.
Qed.
Lemma tr_range ch h ps t l c : tree_ok ch h ps → ch !! t = Some l → c ∈ l → (c < NPROC)%nat.
Proof.
  intros T Hl Hc. rewrite <- (tr_len _ _ _ T). pose proof (tr_parent _ _ _ T t l c Hl Hc) as E.
  destruct (ps !! c) eqn:Ec; [|done]. by eapply lookup_lt_Some.
Qed.
Lemma self_elem c (l : list nat) : Self c ∈ Self <$> l ↔ c ∈ l.
Proof. rewrite list_elem_of_fmap. split; [by intros (? & [= ->] & ?)|eauto]. Qed.
Lemma tree_nodup ch h ps t l : tree_ok ch h ps → ch !! t = Some l → NoDup l.
Proof. intros T Hl. destruct (tr_list _ _ _ T t l Hl) as [[_ H]%NoDup_cons _]. by apply NoDup_fmap_1 in H. Qed.

(** A child leaves a list. *)
Lemma tree_remove ch h ps t l1 c l2 : tree_ok ch h ps → ch !! t = Some (l1 ++ c :: l2) →
  ∃ h', list_remove (Self c) h = Some h' ∧ tree_ok (<[t := l1 ++ l2]> ch) h' ps.
Proof.
  intros T Hl. pose proof (tr_list _ _ _ T t _ Hl) as D. rewrite fmap_app, fmap_cons in D.
  destruct (list_remove_spec _ _ _ _ _ D) as (h' & E & D' & _ & Hf & Hs). exists h'. split; [done|].
  assert (Hlook : ∀ t' l', <[t := l1 ++ l2]> ch !! t' = Some l' → (t' = t ∧ l' = l1 ++ l2) ∨ (t' ≠ t ∧ ch !! t' = Some l')).
  { intros t' l'. destruct (decide (t = t')) as [<-|]; [rewrite lookup_insert_eq; intros [= <-]; by left|].
    rewrite lookup_insert_ne by done. by right. }
  split; [| | |apply T].
  - intros t' l' [[-> ->]|[Hne Hl']]%Hlook; [by rewrite fmap_app|]. eapply dlist_frame, (tr_list _ _ _ T _ _ Hl').
    intros k Hk. apply Hf. rewrite <- fmap_cons, <- fmap_app. rewrite not_elem_of_cons.
    apply elem_of_cons in Hk as [->|(x & -> & Hx)%list_elem_of_fmap].
    + split; [congruence|]. by intros (? & [=] & _)%list_elem_of_fmap.
    + split; [done|]. rewrite self_elem. intros Hx'. by apply Hne, (tr_disj ch h ps t' t l' (l1 ++ c :: l2) x).
  - intros t' l' x [[-> ->]|[Hne Hl']]%Hlook Hx; [|by eapply (tr_parent _ _ _ T)]. eapply (tr_parent _ _ _ T); [done|]. set_solver.
  - intros x Hx. by apply Hs, (tr_self _ _ _ T).
Qed.
(** A task that is in no list joins one. *)
Lemma tree_push ch h ps t l c : tree_ok ch h ps → ch !! t = Some l → (c < NPROC)%nat →
  (∀ t' l', ch !! t' = Some l' → c ∉ l') → p_parent <$> ps !! c = Some (Some t) →
  ∃ h', list_pushback (Childs t) (Self c) h = Some h' ∧ tree_ok (<[t := l ++ [c]]> ch) h' ps.
Proof.
  intros T Hl Hc Hn Hp. pose proof (tr_list _ _ _ T t _ Hl) as D.
  destruct (list_pushback_spec h (Childs t) (Self <$> l) (Self c) D) as (h' & E & D' & Hf & Hs).
  { rewrite not_elem_of_cons, self_elem. split; [done|by eapply Hn]. } { by apply (tr_self _ _ _ T). }
  exists h'. split; [done|].
  assert (Hlook : ∀ t' l', <[t := l ++ [c]]> ch !! t' = Some l' → (t' = t ∧ l' = l ++ [c]) ∨ (t' ≠ t ∧ ch !! t' = Some l')).
  { intros t' l'. destruct (decide (t = t')) as [<-|]; [rewrite lookup_insert_eq; intros [= <-]; by left|].
    rewrite lookup_insert_ne by done. by right. }
  split; [| | |apply T].
  - intros t' l' [[-> ->]|[Hne Hl']]%Hlook; [by rewrite fmap_app|]. eapply dlist_frame, (tr_list _ _ _ T _ _ Hl').
    intros k Hk. apply Hf. rewrite !not_elem_of_cons. apply elem_of_cons in Hk as [->|(x & -> & Hx)%list_elem_of_fmap].
    + split; [congruence|]. split; [done|]. by intros (? & [=] & _)%list_elem_of_fmap.
    + split; [done|]. split; [intros [= ->]; by eapply Hn|]. rewrite self_elem. intros Hx'.
      by apply Hne, (tr_disj ch h ps t' t l' l x).
  - intros t' l' x [[-> ->]|[Hne Hl']]%Hlook Hx; [|by eapply (tr_parent _ _ _ T)].
    apply elem_of_app in Hx as [Hx| ->%list_elem_of_singleton]; [by eapply (tr_parent _ _ _ T)|done].
  - intros x Hx. by apply Hs, (tr_self _ _ _ T).
Qed.
(** A change of the record of a task that is in no list, or one that keeps the parent. *)
Lemma tree_proc ch h ps c p p' : tree_ok ch h ps → ps !! c = Some p →
  (∀ t l, ch !! t = Some l → c ∈ l → p_parent p' = p_parent p) → tree_ok ch h (<[c := p']> ps).
Proof.
  intros T Ep Hn. split; [apply T| |apply T|rewrite length_insert; apply T]. intros t l x Hl Hx.
  destruct (decide (c = x)) as [<-|]; [|rewrite list_lookup_insert_ne by done; by eapply (tr_parent _ _ _ T)].
  rewrite list_lookup_insert_eq by (by eapply lookup_lt_Some). cbn. pose proof (tr_parent _ _ _ T t l c Hl Hx) as E.
  rewrite Ep in E. injection E as E. by rewrite (Hn t l Hl Hx), E.
Qed.
End lists.

Section procs.
Context {S : Type} {IO : BlockIO S}.
Implicit Types (k : kern (S:=S)).

(** ** The state of the kernel on these paths *)

Lemma k_mach_set m k : k_mach (set_kmach m k) = m.
Proof. unfold k_mach, set_kmach. cbn. apply bmach_set. Qed.
Lemma set_kmach_twice m m' k : set_kmach m (set_kmach m' k) = set_kmach m k.
Proof. unfold set_kmach, set_st. cbn. by rewrite bset_mach_twice. Qed.
Lemma on_km_ok {A} (x : M mach A) k a m' : x (k_mach k) = Ok a m' → on_km x k = Ok a (set_kmach m' k).
Proof. intros E. unfold on_km, zoom. by rewrite E. Qed.
Lemma km_get l k : quiet (k_mach k) → on_km (spin_get l) k = Ok tt (set_kmach (acq l (k_mach k)) k).
Proof. intros Hq. apply on_km_ok, spin_get_free. auto with mach. Qed.
Lemma km_put l m k : quiet m → k_mach k = acq l m → on_km (spin_put l) k = Ok tt (set_kmach (touch m) k).
Proof.
  intros Hq E. rewrite (on_km_ok (spin_put l) k tt (touch m)); [done|]. rewrite E, spin_put_held by apply acq_held.
  by rewrite rel_acq by auto with mach.
Qed.

(** The machine may have changed its [raw_intr], the rest is as it was, except for
    the table of tasks and the lists. *)
Record same_res k k' : Prop := {
  sr_io : (k_st k').1.1 = (k_st k).1.1 ∨ ∃ m, (k_st k').1.1 = bset_mach m (k_st k).1.1;
  sr_st : (k_st k').1.2 = (k_st k).1.2 ∧ (k_st k').2 = (k_st k).2;
  sr_mem : k_vmas k' = k_vmas k ∧ k_mms k' = k_mms k ∧ k_vnodes k' = k_vnodes k ∧ k_tmem k' = k_tmem k;
  sr_fs : k_fss k' = k_fss k ∧ k_tids k' = k_tids k;
  sr_mach : mach_frame (k_mach k) (k_mach k') ∧ m_tasks (k_mach k') = m_tasks (k_mach k);
}.
Lemma same_res_refl k : same_res k k.
Proof. split; try done. by left. Qed.
Lemma same_res_trans k k1 k2 : same_res k k1 → same_res k1 k2 → same_res k k2.
Proof.
  intros [A1 A2 A3 A4 A5] [B1 B2 B3 B4 B5]. split.
  - destruct A1 as [A1|[m A1]], B1 as [B1|[m' B1]]; rewrite B1, A1; [by left|right; by eexists..|]. right. rewrite bset_mach_twice. by eexists.
  - destruct A2, B2; split; congruence.
  - destruct_and!; split_and!; congruence.
  - destruct_and!; split_and!; congruence.
  - destruct A5, B5. split; [by etransitivity|congruence].
Qed.

(** ** [sys_exit]: the children go to the first task *)

(** One round of the loop. *)
Lemma reparent_round ch k t c l l0 (g : unit → KM unit) : tree_ok ch (k_cnodes k) (k_procs k) → quiet (k_mach k) →
  ch !! t = Some (c :: l) → <[t := l]> ch !! 0%nat = Some l0 →
  ∃ k' p, k_procs k !! c = Some p ∧
    (on_km (spin_get (L_task c)) ;;
     mod_proc c (set_parent (Some 0%nat)) ;;
     cnodes_op (list_remove (Self c)) ;;
     cnodes_op (list_pushback (Childs 0) (Self c)) ;;
     on_km (spin_put (L_task c)) ;; g tt) k = g tt k' ∧
    tree_ok (<[0%nat := l0 ++ [c]]> (<[t := l]> ch)) (k_cnodes k') (k_procs k') ∧ same_res k k' ∧
    k_procs k' = <[c := set_parent (Some 0%nat) p]> (k_procs k).
Proof.
  intros T Hq Hl Hl0. assert (Hc : (c < NPROC)%nat) by (apply (tr_range ch _ _ t (c :: l) c T Hl); by left).
  destruct (lookup_lt_is_Some_2 (k_procs k) c) as [p Ep]; [by rewrite (tr_len _ _ _ T)|].
  destruct (tree_remove ch (k_cnodes k) (k_procs k) t [] c l T Hl) as (h1 & E1 & T1). cbn [app] in T1.
  assert (Hnone : ∀ t' l', <[t := l]> ch !! t' = Some l' → c ∉ l').
  { intros t' l'. pose proof (tree_nodup _ _ _ _ _ T Hl) as [Hnd _]%NoDup_cons. destruct (decide (t = t')) as [<-|Hne].
    - rewrite lookup_insert_eq. by intros [= <-].
    - rewrite lookup_insert_ne by done. intros Hl' Hc'. apply Hne. eapply (tr_disj ch _ _ t t' (c :: l) l' c); try done. by left. }
  set (ps := <[c := set_parent (Some 0%nat) p]> (k_procs k)).
  assert (T2 : tree_ok (<[t := l]> ch) h1 ps).
  { apply (tree_proc _ _ _ c p); [done|done|]. intros t' l' Hl' Hc'. by destruct (Hnone t' l'). }
  destruct (tree_push (<[t := l]> ch) h1 ps 0 l0 c T2) as (h2 & E2 & T3); [done|done|done| |].
  { unfold ps. rewrite list_lookup_insert_eq; [done|]. by eapply lookup_lt_Some. }
  exists (set_kmach (touch (k_mach k)) (set_cnodes h2 (set_procs (λ _, ps) k))), p. split; [done|]. split; [|split; [done|split; [|done]]].
  - run (km_get (L_task c) k Hq). unfold mod_proc. erewrite bind_update by (cbn; rewrite Ep; reflexivity).
    unfold cnodes_op. erewrite bind_update by (cbn; rewrite E1; reflexivity). erewrite bind_update by (cbn; rewrite E2; reflexivity).
    erewrite bind_ok; [|apply (km_put (L_task c) (k_mach k)); [exact Hq|exact (k_mach_set (acq (L_task c) (k_mach k)) k)]].
    unfold set_kmach, set_cnodes, set_procs, set_st. cbn. by rewrite bset_mach_twice.
  - split; cbn; try done; [right; by eexists|]. rewrite k_mach_set. done.
Qed.
(** The first node of a list of children, or its head. *)
Definition first_child (t : nat) (l : list nat) : option cnode := Some (default (Childs t) (hd_error (Self <$> l))).
Lemma child_fuel_enough ch k t l : tree_ok ch (k_cnodes k) (k_procs k) → ch !! t = Some l → (length l < child_fuel k)%nat.
Proof. intros T Hl. pose proof (dlist_size _ _ _ (tr_list _ _ _ T t l Hl)) as H. by rewrite length_fmap in H. Qed.

Lemma reparent_spec fuel ch k t l l0 : tree_ok ch (k_cnodes k) (k_procs k) → quiet (k_mach k) → t ≠ 0%nat →
  ch !! t = Some l → ch !! 0%nat = Some l0 → (length l ≤ fuel)%nat →
  ∃ k', reparent fuel t (first_child t l) k = Ok tt k' ∧ same_res k k' ∧
    tree_ok (<[0%nat := l0 ++ l]> (<[t := []]> ch)) (k_cnodes k') (k_procs k') ∧
    ∀ c, k_procs k' !! c = (if decide (c ∈ l) then set_parent (Some 0%nat) else id) <$> k_procs k !! c.
Proof.
  revert fuel ch k l0. induction l as [|c l IH]; intros fuel ch k l0 T Hq Ht Hl Hl0 Hf.
  { exists k. split; [destruct fuel; cbn; by rewrite bool_decide_true|]. split; [apply same_res_refl|]. split.
    - rewrite app_nil_r, (insert_id _ t), (insert_id _ 0%nat) by done. done.
    - intros x. rewrite decide_False by set_solver. by destruct (k_procs k !! x). }
  destruct fuel as [|fuel]; [cbn in Hf; lia|]. cbn [reparent first_child]. rewrite bool_decide_false by done.
  erewrite bind_deref by reflexivity.
  rewrite (bind_deref _ _ _ (first_child t l)) by (exact (dlist_next _ _ [] (Self c) (Self <$> l) (tr_list _ _ _ T t _ Hl))).
  destruct (reparent_round ch k t c l l0 (λ _, reparent fuel t (first_child t l)) T Hq Hl) as (k1 & p & Ep & E & T1 & R1 & Eps);
    [by rewrite lookup_insert_ne|].
  destruct (IH fuel _ k1 (l0 ++ [c]) T1) as (k2 & E2 & R2 & T2 & P2); [|done|..].
  { eapply frame_quiet; [apply R1|done]. } { by rewrite lookup_insert_ne, lookup_insert_eq. } { by rewrite lookup_insert_eq. }
  { cbn in Hf. lia. }
  exists k2. split; [by etransitivity|]. split; [by eapply same_res_trans|]. split.
  - rewrite <- app_assoc in T2. cbn [app] in T2. rewrite (insert_insert_ne _ t 0%nat) in T2 by done. rewrite !insert_insert_eq in T2. done.
  - intros x. rewrite P2, Eps. pose proof (tree_nodup _ _ _ _ _ T Hl) as [Hn _]%NoDup_cons. destruct (decide (x = c)) as [->|Hne].
    + rewrite list_lookup_insert_eq by (by eapply lookup_lt_Some). rewrite Ep, decide_False, decide_True by (done || by left). done.
    + rewrite list_lookup_insert_ne by done. destruct (decide (x ∈ l)); [rewrite decide_True by (by right)|rewrite decide_False by set_solver]; done.
Qed.
(** The first task is the parent its own children are given to: with two children
    or more the list turns round and the loop does not end. *)
(** The first task with at most one child: the child goes back to where it was. *)
Lemma reparent_first_short fuel ch k l : tree_ok ch (k_cnodes k) (k_procs k) → quiet (k_mach k) →
  ch !! 0%nat = Some l → (length l ≤ 1)%nat → (length l ≤ fuel)%nat →
  ∃ k', reparent fuel 0 (first_child 0 l) k = Ok tt k' ∧ same_res k k' ∧ tree_ok ch (k_cnodes k') (k_procs k') ∧
    ∀ c, k_procs k' !! c = (if decide (c ∈ l) then set_parent (Some 0%nat) else id) <$> k_procs k !! c.
Proof.
  intros T Hq Hl Hl1 Hf. destruct l as [|c [|]]; [| |cbn in Hl1; lia].
  { exists k. split; [destruct fuel; cbn; by rewrite bool_decide_true|]. split; [apply same_res_refl|]. split; [done|].
    intros x. rewrite decide_False by set_solver. by destruct (k_procs k !! x). }
  destruct fuel as [|fuel]; [cbn in Hf; lia|]. cbn [reparent first_child]. rewrite bool_decide_false by done.
  erewrite bind_deref by reflexivity.
  rewrite (bind_deref _ _ _ (first_child 0 [])) by (exact (dlist_next _ _ [] (Self c) [] (tr_list _ _ _ T _ _ Hl))).
  destruct (reparent_round ch k 0 c [] [] (λ _, reparent fuel 0 (first_child 0 [])) T Hq Hl) as (k1 & p & Ep & E & T1 & R1 & Eps);
    [by rewrite lookup_insert_eq|].
  exists k1. split; [cbv beta in E; rewrite E; destruct fuel; cbn; by rewrite bool_decide_true|]. split; [done|]. split.
  - rewrite insert_insert_eq in T1. cbn [app] in T1. by rewrite insert_id in T1.
  - intros x. rewrite Eps. destruct (decide (x = c)) as [->|Hne].
    + rewrite list_lookup_insert_eq by (by eapply lookup_lt_Some). by rewrite Ep, decide_True by set_solver.
    + rewrite list_lookup_insert_ne, decide_False by set_solver. by destruct (k_procs k !! x).
Qed.
Lemma reparent_first_task fuel ch k c l : tree_ok ch (k_cnodes k) (k_procs k) → quiet (k_mach k) →
  ch !! 0%nat = Some (c :: l) → l ≠ [] → ∃ k', reparent fuel 0 (first_child 0 (c :: l)) k = Spin k'.
Proof.
  revert ch k c l. induction fuel as [|fuel IH]; intros ch k c l T Hq Hl Hn; cbn [reparent first_child]; rewrite bool_decide_false by done.
  { by eexists. }
  erewrite bind_deref by reflexivity.
  rewrite (bind_deref _ _ _ (first_child 0 l)) by (exact (dlist_next _ _ [] (Self c) (Self <$> l) (tr_list _ _ _ T _ _ Hl))).
  destruct (reparent_round ch k 0 c l l (λ _, reparent fuel 0 (first_child 0 l)) T Hq Hl) as (k1 & p & _ & E & T1 & R1 & _);
    [by rewrite lookup_insert_eq|].
  cbv beta in E. rewrite E. destruct l as [|d l]; [done|]. rewrite insert_insert_eq in T1.
  apply (IH _ k1 d (l ++ [c]) T1); [eapply frame_quiet; [apply R1|done]|by rewrite lookup_insert_eq|]. by destruct l.
Qed.

(** ** [sys_wait] *)

Lemma set_kmach_same k : set_kmach (k_mach k) k = k.
Proof. unfold set_kmach, set_st, k_mach. destruct k as [[[s il] x] v mm vn tm fs ti ps cn]. cbn. by rewrite bset_mach_same. Qed.
Lemma state_at_ok t k ts : m_tasks (k_mach k) !! t = Some ts → state_at t k = Ok (tstate ts) k.
Proof.
  intros E. unfold state_at. rewrite (bind_ok _ _ _ _ _ (on_km_ok (task_at t) k ts (k_mach k) ltac:(unfold task_at, deref; by rewrite E))).
  by rewrite set_kmach_same.
Qed.
Lemma put_state_ok t v k ts : m_tasks (k_mach k) !! t = Some ts →
  put_state t v k = Ok tt (set_kmach (set_tasks <[t := MkTsk v (tchan ts)]> (k_mach k)) k).
Proof.
  intros E. unfold put_state. apply on_km_ok. unfold task_at. by rewrite (bind_deref _ _ _ ts).
Qed.
Definition exited (k : kern (S:=S)) (c : nat) : Prop := tstate <$> m_tasks (k_mach k) !! c = Some EXIT.
#[export] Instance exited_dec k c : Decision (exited k c).
Proof. unfold exited. apply _. Defined.
(** The first child that has exited. *)
Definition first_exited (k : kern (S:=S)) (l : list nat) : option nat := hd_error (filter (exited k) l).

Lemma find_exit_spec fuel ch k t l1 l : tree_ok ch (k_cnodes k) (k_procs k) → length (m_tasks (k_mach k)) = NPROC →
  ch !! t = Some (l1 ++ l) → (length l ≤ fuel)%nat → find_exit fuel t (first_child t l) k = Ok (first_exited k l) k.
Proof.
  intros T Hn. revert fuel l1. induction l as [|c l IH]; intros fuel l1 Hl Hf.
  { destruct fuel; cbn; by rewrite bool_decide_true. }
  destruct fuel as [|fuel]; [cbn in Hf; lia|]. cbn [find_exit first_child]. rewrite bool_decide_false by done.
  erewrite bind_deref by reflexivity.
  assert (Hc : (c < NPROC)%nat) by (apply (tr_range ch _ _ t _ c T Hl); set_solver).
  destruct (lookup_lt_is_Some_2 (m_tasks (k_mach k)) c) as [ts Ets]; [by rewrite Hn|].
  rewrite (bind_ok _ _ _ _ _ (state_at_ok c k ts Ets)). unfold first_exited. rewrite filter_cons.
  assert (Hx : exited k c ↔ tstate ts = EXIT) by (unfold exited; rewrite Ets; cbn; split; [by intros [=]|by intros ->]).
  case_decide as E.
  - rewrite bool_decide_true by (by apply Hx). done.
  - rewrite bool_decide_false by (by rewrite <- Hx). pose proof (tr_list _ _ _ T t _ Hl) as D. rewrite fmap_app, fmap_cons in D.
    rewrite (bind_deref _ _ _ (first_child t l)) by (exact (dlist_next _ _ _ _ _ D)).
    apply (IH fuel (l1 ++ [c])); [by rewrite <- app_assoc|cbn in Hf; lia].
Qed.

Lemma set_mp_same k : set_mp (k_mach k, k_pmem k) k = k.
Proof.
  unfold set_mp, set_st, k_mach, k_pmem. destruct k as [[[s il] [[pm fl] pu]] v mm vn tm fs ti ps cn]. cbn. by rewrite bset_mach_same.
Qed.
Lemma on_tms_task k t tm : k_tmem k !! t = Some tm → on_tms (task_mem t) k = Ok tm k.
Proof.
  intros E. unfold on_tms, zoom, task_mem, deref. cbn. rewrite E. f_equal.
  transitivity (set_mp (k_mach k, k_pmem k) k); [by destruct k|apply set_mp_same].
Qed.
(** The bytes stored through the page table of the running task. *)
Lemma user_out_ok k t tm root pt a d : mytask (k_mach k) = Some t → k_tmem k !! t = Some tm → t_pagetable tm = paddr_of root →
  uspace_ok root pt (k_pmem k) → readable pt (k_pmem k) a (length d) →
  ∃ p, user_out a d k = Ok tt (set_mp (k_mach k, p) k) ∧ uspace_ok root pt p ∧
    ∀ x, user_byte pt p x = if decide (a ≤ x < a + Z.of_nat (length d)) then d !! Z.to_nat (x - a) else user_byte pt (k_pmem k) x.
Proof.
  intros Ht Etm Er U R. destruct (copy_to_user_spec root pt (k_mach k) (λ s, Switch s) (length d) a d (k_pmem k) U ltac:(lia) R) as (p & E & U' & B).
  exists p. split; [|done]. unfold user_out, self_task. rewrite (bind_deref _ _ _ t) by done.
  rewrite (bind_ok _ _ _ _ _ (on_tms_task k t tm Etm)). unfold on_tms, on_page, zoom. cbn [ts_pm]. rewrite Er, E. done.
Qed.

(** A status address of [sys_wait]: zero, or four bytes the running task can write. *)
Definition status_ok (k : kern (S:=S)) (t root : nat) (pt : gmap (list Z) nat) (a0 : Z) : Prop :=
  t_pagetable <$> k_tmem k !! t = Some (paddr_of root) ∧ uspace_ok root pt (k_pmem k) ∧ readable pt (k_pmem k) a0 4.
(** The memory of the user after a status has been stored. *)
Definition stored (pt : gmap (list Z) nat) (a0 v : Z) (p p' : pmem) : Prop :=
  ∀ x, user_byte pt p' x = if decide (a0 ≤ x < a0 + 4) then le_split 4 (u32 v) !! Z.to_nat (x - a0) else user_byte pt p x.

(** The store of the status leaves everything else as it is. *)
Lemma status_out k t root pt a0 v : mytask (k_mach k) = Some t → (a0 ≠ 0 → status_ok k t root pt a0) →
  ∃ p, (if negb (a0 =? 0) then user_out a0 (le_split 4 (u32 v)) else ret tt) k = Ok tt (set_mp (k_mach k, p) k) ∧
    if decide (a0 = 0) then p = k_pmem k else stored pt a0 v (k_pmem k) p.
Proof.
  intros Ht Hs. destruct (Z.eqb_spec a0 0) as [->|Hne].
  - exists (k_pmem k). rewrite decide_True by done. cbn [negb]. by rewrite set_mp_same.
  - cbn [negb]. destruct (Hs Hne) as (Er & U & R). destruct (k_tmem k !! t) as [tm|] eqn:Etm; [|done].
    injection Er as Er. destruct (user_out_ok k t tm root pt a0 (le_split 4 (u32 v)) Ht Etm Er U) as (p & E & _ & B); [by rewrite length_le_split|].
    exists p. split; [exact E|]. rewrite decide_False by done. intros x. rewrite B, length_le_split. done.
Qed.
Lemma reap_spec ch k t l1 c l2 a0 root pt : tree_ok ch (k_cnodes k) (k_procs k) → length (m_tasks (k_mach k)) = NPROC →
  mytask (k_mach k) = Some t → ch !! t = Some (l1 ++ c :: l2) → (a0 ≠ 0 → status_ok k t root pt a0) →
  ∃ k' p ts, k_procs k !! c = Some p ∧ m_tasks (k_mach k) !! c = Some ts ∧ reap c a0 k = Ok (p_pid p) k' ∧
    tree_ok (<[t := l1 ++ l2]> ch) (k_cnodes k') (k_procs k') ∧ k_procs k' = k_procs k ∧
    k_mach k' = set_tasks <[c := MkTsk FREE (tchan ts)]> (k_mach k) ∧
    if decide (a0 = 0) then k_pmem k' = k_pmem k else stored pt a0 (p_exit p) (k_pmem k) (k_pmem k').
Proof.
  intros T Hn Ht Hl Hs. assert (Hc : (c < NPROC)%nat) by (apply (tr_range ch _ _ t _ c T Hl); set_solver).
  destruct (lookup_lt_is_Some_2 (k_procs k) c) as [p Ep]; [by rewrite (tr_len _ _ _ T)|].
  destruct (lookup_lt_is_Some_2 (m_tasks (k_mach k)) c) as [ts Ets]; [by rewrite Hn|].
  destruct (tree_remove ch (k_cnodes k) (k_procs k) t l1 c l2 T Hl) as (h & Eh & T').
  destruct (status_out (set_cnodes h k) t root pt a0 (p_exit p) Ht Hs) as (pm & Eo & B).
  eexists _, p, ts. split; [done|]. split; [done|]. split.
  { unfold reap, proc_at. rewrite (bind_deref _ _ _ p) by done. unfold cnodes_op. erewrite bind_update by (rewrite Eh; reflexivity).
    rewrite (bind_ok _ _ _ _ _ Eo). erewrite bind_ok; [reflexivity|]. apply (put_state_ok c FREE _ ts).
    change (k_mach (set_mp (?m, pm) ?s)) with (bmach (bset_mach m (k_st s).1.1)). rewrite bmach_set. exact Ets. }
  cbn. split; [exact T'|]. split; [done|]. split.
  - rewrite k_mach_set. f_equal. change (k_mach (set_mp (?m, pm) ?s)) with (bmach (bset_mach m (k_st s).1.1)). by rewrite bmach_set.
  - exact B.
Qed.
End procs.
