(* ===== verification/Mkfs.v ===== *)
(** The tool that builds the disk image (mkfs/mkfs.cc): it copies a directory of the
    host into a new file system.

    The host directory is the argument of the definitions: the entries [readdir]
    gives, in their order and with their contents; a file is read whole.  The
    allocation of the blocks of a file and the walk over them stand twice in the code,
    for files and for directories, and once here.  [Panic] is the end of the program
    with a message. *)
From S2P Require Import Prelude Bytes Machine BlockIO Fs Inode Dir.

(** An entry of a host directory: a regular file, a directory with its entries, or
    anything else. *)
#[local] Unset Elimination Schemes.
Inductive dirent :=
| HReg (name data : list Z)
| HDir (name : list Z) (es : list dirent)
| HOther (name : list Z).
#[local] Set Elimination Schemes.
Definition d_name (e : dirent) : list Z := match e with HReg n _ | HDir n _ | HOther n => n end.

(** ** The areas of the image *)
Definition MAX_FILE_NUMBER : Z := 8192 * 2.
Definition DATA_BLOCK_NUMBER : Z := 1024 * 1024.
Definition SB_START_BLOCKNO : Z := 1.
Definition IMAP_START_BLOCKNO : Z := 2.
Definition IMAP_SIZE : Z := MAX_FILE_NUMBER / 8.
Definition IMAP_BLOCKNUM : Z := IMAP_SIZE / Z.of_nat BSIZE.
Definition DINODES_START_BLOCKNO : Z := IMAP_START_BLOCKNO + IMAP_BLOCKNUM.
Definition DINODES_BLOCKNUM : Z := MAX_FILE_NUMBER / DINODE_CNT_PER_BLOCK + 1.
Definition BMAP_START_BLOCKNO : Z := DINODES_START_BLOCKNO + DINODES_BLOCKNUM.
Definition BMAP_SIZE : Z := DATA_BLOCK_NUMBER / 8.
Definition BMAP_BLOCKNUM : Z := BMAP_SIZE / Z.of_nat BSIZE.
Definition MIN_DATA_BLOCKNO : Z := BMAP_START_BLOCKNO + BMAP_BLOCKNUM.
Definition MAX_DATA_BLOCKNO : Z := MIN_DATA_BLOCKNO + DATA_BLOCK_NUMBER.

(** ** State *)

(** A pointer into [DINODES]: the block and the record in it. *)
Definition dptr : Type := Z * Z.
(** The global variables and the image, of which a block that was not written is
    zero. *)
Record mkst := MkMk {
  free_inum : Z;
  bfreeno : Z;
  imap : list Z;
  bmap : list Z;
  DINODES : gmap dptr dinode;
  img : gmap Z (list Z);
}.
Definition MK : Type → Type := M mkst.
Definition set_inum (v : Z) (s : mkst) : mkst := MkMk v (bfreeno s) (imap s) (bmap s) (DINODES s) (img s).
Definition set_bfree (v : Z) (s : mkst) : mkst := MkMk (free_inum s) v (imap s) (bmap s) (DINODES s) (img s).
Definition set_imap (v : list Z) (s : mkst) : mkst := MkMk (free_inum s) (bfreeno s) v (bmap s) (DINODES s) (img s).
Definition set_bmap (v : list Z) (s : mkst) : mkst := MkMk (free_inum s) (bfreeno s) (imap s) v (DINODES s) (img s).
Definition set_dinodes (v : gmap dptr dinode) (s : mkst) : mkst := MkMk (free_inum s) (bfreeno s) (imap s) (bmap s) v (img s).
Definition set_img (v : gmap Z (list Z)) (s : mkst) : mkst := MkMk (free_inum s) (bfreeno s) (imap s) (bmap s) (DINODES s) v.
(** The state when [main] starts; the image is extended with zeros by [ftruncate64]. *)
Definition mk0 : mkst :=
  MkMk 0 MIN_DATA_BLOCKNO (replicate (Z.to_nat IMAP_SIZE) 0) (replicate (Z.to_nat BMAP_SIZE) 0) ∅ ∅.

(** [lseek(disk_fd, b * BSIZE, SEEK_SET)], computed in 32 bits, and a transfer of a
    block there. *)
Definition seek_block (b : Z) : Z := u32 (b * Z.of_nat BSIZE) / Z.of_nat BSIZE.
Definition img_at (s : mkst) (b : Z) : list Z := default zero_block (img s !! b).
Definition write_block (b : Z) (d : list Z) : MK unit := modify (λ s, set_img (<[seek_block b := d]> (img s)) s).
Definition read_block (b : Z) : MK (list Z) := gets (λ s, img_at s (seek_block b)).
(** A write of [n] blocks from block [b] on, the first [data] of which are given. *)
Fixpoint write_blocks (n : nat) (b : Z) (data : list Z) : MK unit :=
  match n with
  | O => ret tt
  | S n => write_block b (take BSIZE data) ;; write_blocks n (b + 1) (drop BSIZE data)
  end.

(** ** Inodes and blocks *)

Definition in_dinodes (p : dptr) : bool :=
  (0 <=? p.1) && (p.1 <? DINODES_BLOCKNUM) && (0 <=? p.2) && (p.2 <? DINODE_CNT_PER_BLOCK).
Definition dinode_of (s : mkst) (p : dptr) : dinode := default di0 (DINODES s !! p).
Definition di_at (p : dptr) : MK dinode := deref (λ s, if in_dinodes p then Some (dinode_of s p) else None).
Definition di_mod (p : dptr) (f : dinode → dinode) : MK unit :=
  update (λ s, if in_dinodes p then Some (set_dinodes (<[p := f (dinode_of s p)]> (DINODES s)) s) else None).
Definition inum_to_dinode (inum : Z) : dptr := (inum / DINODE_CNT_PER_BLOCK, inum mod DINODE_CNT_PER_BLOCK).
(** [offset] is the distance of the record from the start of [DINODES]. *)
Definition dinode_to_inum (p : dptr) : Z :=
  let offset := p.1 * Z.of_nat BSIZE + p.2 * Z.of_nat SZDINODE in
  i32 (i32 (offset / Z.of_nat BSIZE) * DINODE_CNT_PER_BLOCK + i32 (offset mod Z.of_nat BSIZE / Z.of_nat SZDINODE)).

(** [m[g / 8] |= 1U << (g % 8)]. *)
Definition mark (g : Z) (m : list Z) : option (list Z) :=
  v ← m !! Z.to_nat (g / 8); Some (<[Z.to_nat (g / 8) := u8 (Z.lor v (Z.shiftl 1 (g mod 8)))]> m).
Definition dinode_alloc : MK dptr :=
  let! g := gets free_inum in
  if MAX_FILE_NUMBER - 1 <? g then panic "file too much" else
  update (λ s, m ← mark g (imap s); Some (set_imap m s)) ;;
  modify (set_inum (u32 (g + 1))) ;;
  ret (inum_to_dinode g).
Definition block_alloc : MK Z :=
  let! r := gets bfreeno in
  if MAX_DATA_BLOCKNO <? r then panic "file too big" else
  update (λ s, m ← mark (u32 (r - MIN_DATA_BLOCKNO)) (bmap s); Some (set_bmap m s)) ;;
  modify (set_bfree (u32 (r + 1))) ;;
  ret r.

Definition iblock_of (p : dptr) (i : nat) : MK Z := let! di := di_at p in deref (λ _, di_iblock di !! i).
Definition set_iblock_of (p : dptr) (i : nat) (v : Z) : MK unit :=
  let! _ := iblock_of p i in di_mod p (λ di, set_iblock (<[i := v]> (di_iblock di)) di).
(** The loop over the direct blocks, [n] left: what is left of the size. *)
Fixpoint alloc_direct (p : dptr) (n : nat) (size : Z) : MK Z :=
  match n with
  | O => ret size
  | S n' =>
    if 0 <? size then
      let! b := block_alloc in
      set_iblock_of p (NDIRECT - n) b ;;
      alloc_direct p n' (size - Z.of_nat BSIZE)
    else ret size
  end.
(** The entries of an index block, [n] left. *)
Fixpoint alloc_entries (n : nat) (size : Z) (idx : list Z) : MK (Z * list Z) :=
  match n with
  | O => ret (size, idx)
  | S n' =>
    if 0 <? size then
      let! b := block_alloc in
      alloc_entries n' (size - Z.of_nat BSIZE) (put_at 4 (4 * (IDX_CNT - n)) b idx)
    else ret (size, idx)
  end.
(** The loop over the index blocks, [n] left. *)
Fixpoint alloc_indirect (p : dptr) (n : nat) (size : Z) : MK Z :=
  match n with
  | O => ret size
  | S n' =>
    if 0 <? size then
      let! b := block_alloc in
      set_iblock_of p (NDIRECT + (NINDIRECT - n)) b ;;
      let! r := alloc_entries IDX_CNT size zero_block in
      let! b := iblock_of p (NDIRECT + (NINDIRECT - n)) in
      write_block b r.2 ;;
      alloc_indirect p n' r.1
    else ret size
  end.
(** The blocks of a file of [size] bytes: true when it fits. *)
Definition alloc_data (p : dptr) (size : Z) : MK bool :=
  let! size := alloc_direct p NDIRECT size in
  let! size := alloc_indirect p NINDIRECT size in
  ret (size <=? 0).

(** The walk over the blocks of a file: [body] gets the index of a block and its
    number. *)
Section each.
Context {X : Type} (body : nat → Z → X → MK X).
Fixpoint each_direct (p : dptr) (n : nat) (x : X) : MK X :=
  match n with
  | O => ret x
  | S n' =>
    let! b := iblock_of p (NDIRECT - n) in
    if 0 <? b then let! x := body (NDIRECT - n) b x in each_direct p n' x else ret x
  end.
(** The entries of index block [i]. *)
Fixpoint each_entry (idx : list Z) (i n : nat) (x : X) : MK X :=
  match n with
  | O => ret x
  | S n' =>
    let b := get_at 4 (4 * (IDX_CNT - n)) idx in
    if 0 <? b then let! x := body (NDIRECT + IDX_CNT * i + (IDX_CNT - n)) b x in each_entry idx i n' x else ret x
  end.
Fixpoint each_indirect (p : dptr) (n : nat) (x : X) : MK X :=
  match n with
  | O => ret x
  | S n' =>
    let i := (NINDIRECT - n)%nat in
    let! b := iblock_of p (NDIRECT + i) in
    if 0 <? b then
      let! idx := read_block b in
      let! x := each_entry idx i IDX_CNT x in
      each_indirect p n' x
    else ret x
  end.
Definition each_block (p : dptr) (x : X) : MK X :=
  let! x := each_direct p NDIRECT x in
  each_indirect p NINDIRECT x.
End each.

(** ** Files *)

Definition reg_meta_copy (data : list Z) : MK Z :=
  let! p := dinode_alloc in
  di_mod p (set_fsize (u32 (Z.of_nat (length data)))) ;;
  di_mod p (set_nlink 1) ;;
  di_mod p (set_type REGULAR) ;;
  let! fits := alloc_data p (Z.of_nat (length data)) in
  if negb fits then panic "File too big" else
  ret (u32 (dinode_to_inum p)).
(** The state of the loop: [buf] and what is left of the host file.  A read at the
    end of the file changes the front of [buf] only. *)
Definition copy_block (k : nat) (b : Z) (x : list Z * list Z) : MK (list Z * list Z) :=
  let buf := blit 0 (take BSIZE x.2) x.1 in
  write_block b buf ;;
  ret (buf, drop BSIZE x.2).
Definition reg_data_copy (data : list Z) (inum : Z) : MK unit :=
  let! _ := each_block copy_block (inum_to_dinode inum) (zero_block, data) in
  ret tt.

(** ** Directories *)

Definition is_dots (name : list Z) : bool := bool_decide (name = [DOT]) || bool_decide (name = [DOT; DOT]).
(** What [readdir] collects: [child_dirs] with what is in them, and [namei]. *)
Record names := MkNames { child_dirs : list (list Z * list dirent); namei : list (list Z * Z) }.
(** The loop over the entries: the names and [entry_cnt]. *)
Fixpoint scan_entries (p : dptr) (es : list dirent) (ns : names) (cnt : Z) : MK (names * Z) :=
  match es with
  | [] => ret (ns, cnt)
  | e :: es =>
    if Z.of_nat DLENGTH <? Z.of_nat (length (d_name e)) then panic "name too long" else
    let! ns := match e with
      | HReg name data =>
        let! inum := reg_meta_copy data in
        reg_data_copy data inum ;;
        ret (MkNames (child_dirs ns) (namei ns ++ [(name, inum)]))
      | HDir name sub =>
        if is_dots name then ret ns else
        di_mod p (λ di, set_nlink (u32 (di_nlink di + 1)) di) ;;
        ret (MkNames (child_dirs ns ++ [(name, sub)]) (namei ns))
      | HOther _ => ret ns
      end in
    scan_entries p es ns (u32 (cnt + 1))
  end.
(** [struct dentry] with a name that is padded with zeros ([dentry_name_copy]). *)
Definition dentry_bytes (inum : Z) (name : list Z) : list Z :=
  le_split 4 inum ++ blit 0 name (replicate DLENGTH 0).
(** An entry at position [j] of a block, and the count in its first eight bytes. *)
Definition put_entry (j : nat) (inum : Z) (name dts : list Z) : list Z :=
  blit (SZDENTRY * j) (dentry_bytes inum name) dts.
Definition count_entry (dts : list Z) : list Z := put_at 8 0 (u64 (get_at 8 0 dts + 1)) dts.

(** The copy of a child directory, for the loop below. *)
Section entries.
Context (directory_copy : list dirent → Z → MK Z) (inum : Z).
(** The loop over [child_dirs] from position [j] of a block, [n] positions left: the
    directories and the positions that are left, and the block. *)
Fixpoint put_dirs (n : nat) (ds : list (list Z * list dirent)) (dts : list Z) : MK (list (list Z * list dirent) * nat * list Z) :=
  match n, ds with
  | S n', (name, sub) :: ds' =>
    let! c := directory_copy sub inum in
    put_dirs n' ds' (count_entry (put_entry (S DENTRY_MAXCNT_PER_BLOCK - n) c name dts))
  | _, _ => ret (ds, n, dts)
  end.
Fixpoint put_names (n : nat) (fs : list (list Z * Z)) (dts : list Z) : list (list Z * Z) * list Z :=
  match n, fs with
  | S n', (name, c) :: fs' =>
    put_names n' fs' (count_entry (put_entry (S DENTRY_MAXCNT_PER_BLOCK - n) c name dts))
  | _, _ => (fs, dts)
  end.
(** Block [k] of the directory; the first starts with the directory itself and its
    parent [pinum]. *)
Definition dir_block (pinum : Z) (k : nat) (b : Z) (ns : names) : MK names :=
  let dts := zero_block in
  let first := bool_decide (k = 0%nat) in
  let dts := if first then put_at 8 0 2 (put_entry 2 pinum [DOT; DOT] (put_entry 1 inum [DOT] dts)) else dts in
  let n := if first then (DENTRY_MAXCNT_PER_BLOCK - 2)%nat else DENTRY_MAXCNT_PER_BLOCK in
  let! r := put_dirs n (child_dirs ns) dts in
  let q := put_names r.1.2 (namei ns) r.2 in
  write_block b q.2 ;;
  ret (MkNames r.1.1 q.1).
End entries.

(** [fuel] bounds the depth of the host directory. *)
Fixpoint directory_copy (fuel : nat) (root : bool) (es : list dirent) (pinum : Z) : MK Z :=
  match fuel with
  | O => (λ s, Spin s)
  | S fuel =>
    let! p := dinode_alloc in
    let inum := u32 (dinode_to_inum p) in
    di_mod p (set_type DIRECTORY) ;;
    di_mod p (set_nlink 2) ;;
    let! r := scan_entries p es (MkNames [] []) 0 in
    let size := align_up (u64 (u32 (1 + r.2) * Z.of_nat SZDENTRY)) (Z.of_nat BSIZE) in
    di_mod p (set_fsize (u32 size)) ;;
    let! di := di_at p in
    let! fits := alloc_data p (di_fsize di) in
    if negb fits then panic "Directory too big" else
    let! _ := each_block (dir_block (directory_copy fuel false) inum (if root then inum else pinum)) p r.1 in
    ret inum
  end.

(** ** The image *)

Definition mk_sb : superblock :=
  MkSb 0 IMAP_START_BLOCKNO DINODES_START_BLOCKNO BMAP_START_BLOCKNO MIN_DATA_BLOCKNO (MAX_FILE_NUMBER - 1) MAX_DATA_BLOCKNO
    [116; 115; 117; 110; 97; 109; 105; 0].
Definition sb_encode (sb : superblock) : list Z :=
  mjoin (le_split 4 <$> [sb_dev sb; sb_imap sb; sb_inodes sb; sb_bmap sb; sb_blocks sb; sb_max_inum sb; sb_max_blockno sb]) ++ sb_name sb.
Definition superblock_write : MK unit :=
  let! d := read_block SB_START_BLOCKNO in
  write_block SB_START_BLOCKNO (blit 0 (sb_encode mk_sb) d).
Definition dinode_bitmap_write : MK unit :=
  let! m := gets imap in write_blocks (Z.to_nat IMAP_BLOCKNUM) IMAP_START_BLOCKNO m.
(** Block [i] of [DINODES]: its records, and zeros up to the size of a block. *)
Definition dinode_block (s : mkst) (i : Z) : list Z :=
  let d := mjoin ((λ o, dinode_encode (dinode_of s (i, Z.of_nat o))) <$> seq 0 (Z.to_nat DINODE_CNT_PER_BLOCK)) in
  d ++ replicate (BSIZE - length d) 0.
Definition dinodes_write : MK unit :=
  let! s := gets id in
  write_blocks (Z.to_nat DINODES_BLOCKNUM) DINODES_START_BLOCKNO (mjoin (dinode_block s <$> (Z.of_nat <$> seq 0 (Z.to_nat DINODES_BLOCKNUM)))).
Definition block_bitmap_write : MK unit :=
  let! m := gets bmap in write_blocks (Z.to_nat BMAP_BLOCKNUM) BMAP_START_BLOCKNO m.
Definition mkfs_main (fuel : nat) (es : list dirent) : MK unit :=
  superblock_write ;;
  let! _ := directory_copy fuel true es (u32 (-1)) in
  dinode_bitmap_write ;;
  dinodes_write ;;
  block_bitmap_write.
