(* ===== verification/MkfsLayout.v ===== *)
(** Where mkfs puts things: the blocks of a file, and the allocation and the walk of
    mkfs/mkfs.cc against that layout. *)
From S2P Require Import Prelude Bytes Machine BlockIO Fs Inode Dir Mkfs.

(** ** The blocks of a file *)

(** The data blocks of [n] bytes, and all blocks of a file of [q] data blocks. *)
Definition data_blocks (n : nat) : nat := (n + 1023) / 1024.
Definition file_blocks (q : nat) : nat := q + (q - 12 + 255) / 256.
Definition MAXQ : nat := 780.
(** A file whose blocks start at [b]: the data blocks, with an index block before the
    13th and before each 256th behind it. *)
Definition blk_at (b : Z) (k : nat) : Z :=
  b + Z.of_nat k + (if (k <? 12)%nat then 0 else 1 + Z.of_nat ((k - 12) / 256)).
Definition idx_at (b : Z) (i : nat) : Z := b + 12 + 257 * Z.of_nat i.
Definition ib_entry (b : Z) (q i : nat) : Z :=
  if (i <? 12)%nat then (if (i <? q)%nat then b + Z.of_nat i else 0)
  else if (12 + 256 * (i - 12) <? q)%nat then idx_at b (i - 12) else 0.
Definition layout_ib (b : Z) (q : nat) : list Z := ib_entry b q <$> seq 0 NIBLOCK.
Definition idx_entry (b : Z) (q i j : nat) : Z :=
  if (12 + 256 * i + j <? q)%nat then blk_at b (12 + 256 * i + j) else 0.
(** The index blocks hold the numbers of the data blocks. *)
Definition indexed (im : Z → list Z) (b : Z) (q : nat) : Prop :=
  ∀ i j, (i < 3)%nat → (j < 256)%nat → (12 + 256 * i < q)%nat →
    get_at 4 (4 * j) (im (idx_at b i)) = idx_entry b q i j.

Lemma layout_lookup b q i : (i < 15)%nat → layout_ib b q !! i = Some (ib_entry b q i).
Proof. intros Hi. unfold layout_ib. rewrite list_lookup_fmap, lookup_seq_lt by (unfold NIBLOCK, NDIRECT, NINDIRECT; lia). done. Qed.
Lemma layout_length b q : length (layout_ib b q) = NIBLOCK.
Proof. unfold layout_ib. by rewrite length_fmap, length_seq. Qed.
Lemma layout_0 b : layout_ib b 0 = replicate NIBLOCK 0.
Proof. reflexivity. Qed.
(** Two indices that agree on every entry. *)
Lemma layout_insert b q q' i v : (i < 15)%nat → ib_entry b q' i = v →
  (∀ j, (j < 15)%nat → j ≠ i → ib_entry b q' j = ib_entry b q j) → <[i := v]> (layout_ib b q) = layout_ib b q'.
Proof.
  intros Hi Ev Hj. apply list_eq. intros j. destruct (decide (j < 15)%nat) as [Hlt|Hge].
  - destruct (decide (i = j)) as [<-|Hne].
    + rewrite list_lookup_insert_eq by (rewrite layout_length; unfold NIBLOCK, NDIRECT, NINDIRECT; lia). by rewrite layout_lookup, Ev.
    + rewrite list_lookup_insert_ne by done. rewrite !layout_lookup by done. by rewrite Hj.
  - rewrite !lookup_ge_None_2; [done|rewrite layout_length|rewrite length_insert, layout_length]; unfold NIBLOCK, NDIRECT, NINDIRECT; lia.
Qed.
Lemma layout_direct b i : (i < 12)%nat → <[i := b + Z.of_nat i]> (layout_ib b i) = layout_ib b (S i).
Proof.
  intros Hi. apply layout_insert; [lia|unfold ib_entry; destruct (Nat.ltb_spec i 12); [|lia]; destruct (Nat.ltb_spec i (S i)); [done|lia]|].
  intros j Hj Hne. unfold ib_entry. destruct (Nat.ltb_spec j 12).
  - destruct (Nat.ltb_spec j (S i)), (Nat.ltb_spec j i); (done || lia).
  - destruct (Nat.ltb_spec (12 + 256 * (j - 12)) (S i)), (Nat.ltb_spec (12 + 256 * (j - 12)) i); (done || lia).
Qed.
Lemma layout_indirect b i m : (i < 3)%nat → (12 + 256 * i < m ≤ 12 + 256 * S i)%nat →
  <[(12 + i)%nat := idx_at b i]> (layout_ib b (12 + 256 * i)) = layout_ib b m.
Proof.
  intros Hi Hm. apply layout_insert; [lia| |].
  - unfold ib_entry. destruct (Nat.ltb_spec (12 + i) 12); [lia|]. replace (12 + i - 12)%nat with i by lia.
    destruct (Nat.ltb_spec (12 + 256 * i) m); [done|lia].
  - intros j Hj Hne. unfold ib_entry. destruct (Nat.ltb_spec j 12).
    + destruct (Nat.ltb_spec j m), (Nat.ltb_spec j (12 + 256 * i)); (done || lia).
    + destruct (Nat.ltb_spec (12 + 256 * (j - 12)) m), (Nat.ltb_spec (12 + 256 * (j - 12)) (12 + 256 * i)); (done || lia).
Qed.

Lemma layout_index b q i : (i < 3)%nat → layout_ib b q !! (12 + i)%nat = Some (if (12 + 256 * i <? q)%nat then idx_at b i else 0).
Proof.
  intros Hi. rewrite layout_lookup by lia. unfold ib_entry. destruct (Nat.ltb_spec (12 + i) 12); [lia|].
  by replace (12 + i - 12)%nat with i by lia.
Qed.
Lemma layout_direct_lookup b q i : (i < 12)%nat → layout_ib b q !! i = Some (if (i <? q)%nat then b + Z.of_nat i else 0).
Proof. intros Hi. rewrite layout_lookup by lia. unfold ib_entry. by destruct (Nat.ltb_spec i 12); [|lia]. Qed.
Lemma blk_at_direct b k : (k < 12)%nat → blk_at b k = b + Z.of_nat k.
Proof. intros Hk. unfold blk_at. destruct (Nat.ltb_spec k 12); lia. Qed.
Lemma blk_at_indirect b i j : (j < 256)%nat → blk_at b (12 + 256 * i + j) = idx_at b i + 1 + Z.of_nat j.
Proof.
  intros Hj. unfold blk_at, idx_at. destruct (Nat.ltb_spec (12 + 256 * i + j) 12); [lia|].
  replace (12 + 256 * i + j - 12)%nat with (j + i * 256)%nat by lia. rewrite Nat.div_add, (Nat.div_small j 256) by lia. lia.
Qed.
Lemma split_index k : (12 ≤ k)%nat → ∃ i j, k = (12 + 256 * i + j)%nat ∧ (j < 256)%nat.
Proof.
  intros Hk. exists ((k - 12) / 256)%nat, ((k - 12) mod 256)%nat. pose proof (Nat.div_mod_eq (k - 12) 256).
  pose proof (Nat.mod_upper_bound (k - 12) 256 ltac:(lia)). lia.
Qed.
Lemma file_blocks_small q : (q ≤ 12)%nat → file_blocks q = q.
Proof. intros Hq. unfold file_blocks. replace (q - 12 + 255)%nat with 255%nat by lia. change (255 / 256)%nat with 0%nat. lia. Qed.
Lemma file_blocks_index i m : (12 + 256 * i < m ≤ 12 + 256 * S i)%nat → file_blocks m = (m + S i)%nat.
Proof.
  intros Hm. unfold file_blocks. f_equal. symmetry. apply Nat.div_unique with (m - 12 + 255 - 256 * S i)%nat; lia.
Qed.
Lemma file_blocks_full i : file_blocks (12 + 256 * i) = (12 + 257 * i)%nat.
Proof.
  destruct i as [|i]; [done|]. rewrite (file_blocks_index i) by lia. lia.
Qed.
Lemma file_blocks_mono q q' : (q ≤ q')%nat → (file_blocks q ≤ file_blocks q')%nat.
Proof. intros H. unfold file_blocks. pose proof (Nat.Div0.div_le_mono (q - 12 + 255) (q' - 12 + 255) 256). lia. Qed.
(** The blocks of a file lie behind each other. *)
Lemma blk_at_range b q k : (k < q)%nat → b ≤ blk_at b k < b + Z.of_nat (file_blocks q).
Proof.
  intros Hk. pose proof (file_blocks_mono (S k) q Hk) as Hm. destruct (decide (k < 12)%nat) as [H12|H12].
  - rewrite blk_at_direct by done. rewrite (file_blocks_small (S k)) in Hm by lia. lia.
  - destruct (split_index k ltac:(lia)) as (i & j & -> & Hj). rewrite blk_at_indirect by done.
    rewrite (file_blocks_index i) in Hm by lia. unfold idx_at. lia.
Qed.
Lemma idx_at_range b q i : (12 + 256 * i < q)%nat → b ≤ idx_at b i < b + Z.of_nat (file_blocks q).
Proof.
  intros Hi. pose proof (file_blocks_mono (S (12 + 256 * i)) q Hi) as Hm. rewrite (file_blocks_index i) in Hm by lia. unfold idx_at. lia.
Qed.
Lemma blk_at_mono b k k' : (k < k')%nat → blk_at b k < blk_at b k'.
Proof.
  intros Hk. unfold blk_at. pose proof (Nat.Div0.div_le_mono (k - 12) (k' - 12) 256).
  destruct (Nat.ltb_spec k 12), (Nat.ltb_spec k' 12); lia.
Qed.
Lemma blk_at_inj b k k' : blk_at b k = blk_at b k' → k = k'.
Proof.
  intros E. destruct (decide (k < k')%nat) as [H|H]; [pose proof (blk_at_mono b k k' H); lia|].
  destruct (decide (k' < k)%nat) as [H'|H']; [pose proof (blk_at_mono b k' k H'); lia|lia].
Qed.
Lemma blk_idx_ne b k i : blk_at b k ≠ idx_at b i.
Proof.
  destruct (decide (k < 12)%nat) as [H|H]; [rewrite blk_at_direct by done; unfold idx_at; lia|].
  destruct (split_index k ltac:(lia)) as (i' & j & -> & Hj). rewrite blk_at_indirect by done. unfold idx_at. lia.
Qed.
Lemma idx_at_inj b i i' : idx_at b i = idx_at b i' → i = i'.
Proof. unfold idx_at. lia. Qed.

(** ** The state of mkfs *)

Lemma mk_numbers : MAX_FILE_NUMBER = 16384 ∧ IMAP_SIZE = 2048 ∧ IMAP_START_BLOCKNO = 2 ∧ DINODES_START_BLOCKNO = 4 ∧
  DINODES_BLOCKNUM = 1261 ∧ BMAP_START_BLOCKNO = 1265 ∧ BMAP_SIZE = 131072 ∧ MIN_DATA_BLOCKNO = 1393 ∧ MAX_DATA_BLOCKNO = 1049969 ∧
  DINODE_CNT_PER_BLOCK = 13.
Proof. done. Qed.
Ltac mknum := destruct mk_numbers as (N1 & N2 & N3 & N4 & N5 & N6 & N7 & N8 & N9 & N10).

Definition di (s : mkst) (g : Z) : dinode := dinode_of s (inum_to_dinode g).
(** A map in which exactly the first [n] bits are set. *)
Record map_ok (m : list Z) (size n : Z) : Prop := {
  mp_len : length m = Z.to_nat size;
  mp_bytes : bytes_ok m;
  mp_bits g : (g < 8 * Z.to_nat size)%nat → bit_at m g = (Z.of_nat g <? n);
}.
Record mk_inv (s : mkst) : Prop := {
  mi_inum : 0 ≤ free_inum s ≤ MAX_FILE_NUMBER;
  mi_bfree : MIN_DATA_BLOCKNO ≤ bfreeno s ≤ MAX_DATA_BLOCKNO;
  mi_imap : map_ok (imap s) IMAP_SIZE (free_inum s);
  mi_bmap : map_ok (bmap s) BMAP_SIZE (bfreeno s - MIN_DATA_BLOCKNO);
  mi_new g : free_inum s ≤ g → di s g = di0;
  mi_wf g : di_wf (di s g);
  mi_img b : is_block (img_at s b);
}.
(** Only the blocks of [B] and the inodes of [G] have changed. *)
Definition mk_frame (B G : Z → Prop) (s s' : mkst) : Prop :=
  (∀ b, ¬ B b → img_at s' b = img_at s b) ∧ (∀ g, 0 ≤ g → ¬ G g → di s' g = di s g).
Lemma mk_frame_refl B G s : mk_frame B G s s.
Proof. by split. Qed.
Lemma mk_frame_trans (B G : Z → Prop) s s1 s2 : mk_frame B G s s1 → mk_frame B G s1 s2 → mk_frame B G s s2.
Proof. intros [A1 A2] [B1 B2]. split; intros x Hx; [by rewrite B1, A1|]. intros Hg. by rewrite B2, A2. Qed.
Lemma mk_frame_weaken (B G B' G' : Z → Prop) s s' : mk_frame B G s s' → (∀ b, B b → B' b) → (∀ g, G g → G' g) → mk_frame B' G' s s'.
Proof. intros [A1 A2] HB HG. split; [intros b Hb; apply A1; auto|]. intros g Hg Hn. apply A2; auto. Qed.

Lemma inum_ptr_inj g g' : inum_to_dinode g = inum_to_dinode g' → g = g'.
Proof.
  unfold inum_to_dinode. mknum. rewrite N10. intros [= E1 E2].
  pose proof (Z.div_mod g 13 ltac:(lia)). pose proof (Z.div_mod g' 13 ltac:(lia)). lia.
Qed.
Lemma inum_ptr_in g : 0 ≤ g < MAX_FILE_NUMBER → in_dinodes (inum_to_dinode g) = true.
Proof.
  mknum. rewrite N1. intros Hg. unfold in_dinodes, inum_to_dinode. cbn. rewrite N5, N10.
  pose proof (Z.mod_pos_bound g 13 ltac:(lia)). pose proof (Z.div_pos g 13 ltac:(lia) ltac:(lia)).
  pose proof (Z.div_lt_upper_bound g 13 1261 ltac:(lia) ltac:(lia)). rewrite !andb_true_iff, !Z.leb_le, !Z.ltb_lt. lia.
Qed.
(** The number of a record is found again from its address. *)
Lemma inum_round_trip g : 0 ≤ g < MAX_FILE_NUMBER → u32 (dinode_to_inum (inum_to_dinode g)) = g.
Proof.
  mknum. rewrite N1. intros Hg. unfold dinode_to_inum, inum_to_dinode. cbn zeta. cbn [fst snd]. rewrite N10.
  pose proof (Z.mod_pos_bound g 13 ltac:(lia)). pose proof (Z.div_pos g 13 ltac:(lia) ltac:(lia)). pose proof (Z.div_mod g 13 ltac:(lia)).
  change (Z.of_nat BSIZE) with 1024. change (Z.of_nat SZDINODE) with 76. set (q := g / 13) in *. set (r := g mod 13) in *.
  assert (E1 : (q * 1024 + r * 76) / 1024 = q) by (symmetry; apply Z.div_unique with (r * 76); lia).
  assert (E2 : (q * 1024 + r * 76) mod 1024 = r * 76) by (symmetry; apply Z.mod_unique with q; lia).
  rewrite E1, E2, Z.div_mul by lia. rewrite !i32_id by (lia || rewrite !i32_id; lia). rewrite u32_id; lia.
Qed.

Lemma di_mod_ok g f s : 0 ≤ g < MAX_FILE_NUMBER →
  di_mod (inum_to_dinode g) f s = Ok tt (set_dinodes (<[inum_to_dinode g := f (di s g)]> (DINODES s)) s).
Proof. intros Hg. unfold di_mod, update. by rewrite inum_ptr_in. Qed.
Lemma di_at_ok g s : 0 ≤ g < MAX_FILE_NUMBER → di_at (inum_to_dinode g) s = Ok (di s g) s.
Proof. intros Hg. unfold di_at, deref. by rewrite inum_ptr_in. Qed.
Lemma di_set s g g' v : di (set_dinodes (<[inum_to_dinode g := v]> (DINODES s)) s) g' = if decide (g' = g) then v else di s g'.
Proof.
  unfold di, dinode_of. cbn. case_decide as E; [subst; by rewrite lookup_insert_eq|].
  rewrite lookup_insert_ne; [done|]. intros E'%inum_ptr_inj. congruence.
Qed.
(** A change of the record of an inode that is in use. *)
Lemma mk_inv_di s g v : mk_inv s → 0 ≤ g < free_inum s → di_wf v →
  mk_inv (set_dinodes (<[inum_to_dinode g := v]> (DINODES s)) s).
Proof.
  intros [I1 I2 I3 I4 I5 I6 I7] Hg Hv. split; try done.
  - intros g' Hg'. rewrite di_set. cbn in Hg'. rewrite decide_False by lia. by apply I5.
  - intros g'. rewrite di_set. by case_decide.
Qed.
Lemma img_set s b d b' : img_at (set_img (<[b := d]> (img s)) s) b' = if decide (b' = b) then d else img_at s b'.
Proof. unfold img_at. cbn. case_decide as E; [subst; by rewrite lookup_insert_eq|]. by rewrite lookup_insert_ne. Qed.
Lemma seek_id b : 0 ≤ b ≤ MAX_DATA_BLOCKNO → seek_block b = b.
Proof. mknum. rewrite N9. intros Hb. unfold seek_block. change (Z.of_nat BSIZE) with 1024. rewrite u32_id by lia. by rewrite Z.div_mul. Qed.
Lemma write_block_ok b d s : 0 ≤ b ≤ MAX_DATA_BLOCKNO → write_block b d s = Ok tt (set_img (<[b := d]> (img s)) s).
Proof. intros Hb. unfold write_block, modify. by rewrite seek_id. Qed.
Lemma mk_inv_img s b d : mk_inv s → is_block d → mk_inv (set_img (<[b := d]> (img s)) s).
Proof. intros [I1 I2 I3 I4 I5 I6 I7] Hd. split; try done. intros b'. rewrite img_set. by case_decide. Qed.

(** ** Allocation *)

Lemma mark_spec g m size : map_ok m size g → 0 ≤ g < 8 * size →
  ∃ m', mark g m = Some m' ∧ map_ok m' size (g + 1).
Proof.
  intros [L B Bt] Hg. pose proof (Z.div_mod g 8 ltac:(lia)) as Hdm. pose proof (Z.mod_pos_bound g 8 ltac:(lia)) as Hm.
  destruct (lookup_lt_is_Some_2 m (Z.to_nat (g / 8))) as [v Ev]; [rewrite L; lia|].
  unfold mark. rewrite Ev. cbn [mbind option_bind]. eexists. split; [reflexivity|].
  assert (Hv : 0 ≤ v < 256) by (by apply (proj1 (Forall_lookup _ _) B _ _ Ev)).
  assert (Hb : 0 ≤ Z.lor v (Z.shiftl 1 (g mod 8)) < 2 ^ 8).
  { split; [apply Z.lor_nonneg; split; [lia|apply Z.shiftl_nonneg; lia]|].
    rewrite Z.shiftl_mul_pow2, Z.mul_1_l by lia.
    apply Z.log2_lt_cancel. rewrite Z.log2_pow2 by lia. rewrite Z.log2_lor, Z.log2_pow2 by lia.
    pose proof (Z.log2_lt_pow2 v 8). destruct (decide (v = 0)) as [->|]; [change (Z.log2 0) with 0; lia|]. lia. }
  assert (u8 (Z.lor v (Z.shiftl 1 (g mod 8))) = Z.lor v (Z.shiftl 1 (g mod 8))) as -> by (apply Z.mod_small; exact Hb).
  split; [by rewrite length_insert|by apply Forall_insert; [|lia]|]. intros k Hk.
  unfold bit_at. rewrite nth_lookup. pose proof (Bt k Hk) as Bk. unfold bit_at in Bk. rewrite nth_lookup in Bk.
  pose proof (Nat.div_mod_eq k 8) as Hkd. pose proof (Nat.mod_upper_bound k 8 ltac:(lia)) as Hkm.
  destruct (decide (k / 8 = Z.to_nat (g / 8))%nat) as [E|E].
  - rewrite E in Bk |- *. rewrite list_lookup_insert_eq by (rewrite L; lia). rewrite Ev in Bk. change (from_option id 0 (Some ?x)) with x in Bk |- *.
    rewrite Z.lor_spec, Bk. rewrite Z.shiftl_spec by lia. destruct (decide (k mod 8 = Z.to_nat (g mod 8))%nat) as [E2|E2].
    + replace (Z.of_nat (k mod 8) - g mod 8) with 0 by lia. change (Z.testbit 1 0) with true.
      rewrite orb_true_r. symmetry. apply Z.ltb_lt. lia.
    + assert (Z.testbit 1 (Z.of_nat (k mod 8) - g mod 8) = false) as ->.
      { destruct (decide (Z.of_nat (k mod 8) - g mod 8 < 0)); [by apply Z.testbit_neg_r|]. apply (Z.bits_above_log2 1); [lia|change (Z.log2 1) with 0; lia]. }
      rewrite orb_false_r. apply eq_true_iff_eq. rewrite !Z.ltb_lt. lia.
  - rewrite list_lookup_insert_ne by done. rewrite Bk. apply eq_true_iff_eq. rewrite !Z.ltb_lt. lia.
Qed.
Lemma dinode_alloc_ok s : mk_inv s → free_inum s < MAX_FILE_NUMBER →
  ∃ m, let s' := set_inum (free_inum s + 1) (set_imap m s) in dinode_alloc s = Ok (inum_to_dinode (free_inum s)) s' ∧ mk_inv s'.
Proof.
  mknum. intros I Hg. pose proof I as [I1 I2 I3 I4 I5 I6 I7]. rewrite N1 in *.
  destruct (mark_spec (free_inum s) (imap s) IMAP_SIZE I3) as (m & Em & M'); [rewrite N2; lia|]. exists m. cbn zeta. split.
  - unfold dinode_alloc. rewrite bind_gets, N1. destruct (Z.ltb_spec (16384 - 1) (free_inum s)); [lia|].
    erewrite bind_update by (rewrite Em; reflexivity). rewrite bind_modify, u32_id by lia. done.
  - split; cbn; try done; [rewrite N1; lia|]. intros g Hg'. apply I5. lia.
Qed.
Lemma block_alloc_ok s : mk_inv s → bfreeno s < MAX_DATA_BLOCKNO →
  ∃ m, let s' := set_bfree (bfreeno s + 1) (set_bmap m s) in block_alloc s = Ok (bfreeno s) s' ∧ mk_inv s'.
Proof.
  mknum. intros I Hb. pose proof I as [I1 I2 I3 I4 I5 I6 I7]. rewrite N8, N9 in *.
  destruct (mark_spec (bfreeno s - 1393) (bmap s) BMAP_SIZE) as (m & Em & M'); [exact I4|rewrite N7; lia|]. exists m. cbn zeta. split.
  - unfold block_alloc. rewrite bind_gets, N9. destruct (Z.ltb_spec 1049969 (bfreeno s)); [lia|].
    erewrite bind_update by (rewrite N8, (u32_id (bfreeno s - 1393)), Em by lia; reflexivity). rewrite bind_modify, u32_id by lia. done.
  - split; cbn; try done; [rewrite N8, N9; lia|]. rewrite N8. by replace (bfreeno s + 1 - 1393) with (bfreeno s - 1393 + 1) by lia.
Qed.

Lemma di_wf_iblock x i v : di_wf x → 0 ≤ v < 2 ^ 32 → di_wf (set_iblock (<[i := v]> (di_iblock x)) x).
Proof.
  intros [Hw Hl] Hv. unfold di_wf, dinode_words in *. apply Forall_app in Hw as [H1 H2]. split; [|cbn; by rewrite length_insert].
  apply Forall_app. split; [done|]. cbn. by apply Forall_insert.
Qed.
Lemma iblock_of_ok g i s v : 0 ≤ g < MAX_FILE_NUMBER → di_iblock (di s g) !! i = Some v → iblock_of (inum_to_dinode g) i s = Ok v s.
Proof. intros Hg E. unfold iblock_of. run (di_at_ok g s Hg). unfold deref. by rewrite E. Qed.
Lemma set_iblock_of_ok g i v s : 0 ≤ g < MAX_FILE_NUMBER → (i < length (di_iblock (di s g)))%nat →
  set_iblock_of (inum_to_dinode g) i v s =
    Ok tt (set_dinodes (<[inum_to_dinode g := set_iblock (<[i := v]> (di_iblock (di s g))) (di s g)]> (DINODES s)) s).
Proof.
  intros Hg Hi. destruct (lookup_lt_is_Some_2 _ _ Hi) as [w Ew]. unfold set_iblock_of. rewrite (bind_ok _ _ _ _ _ (iblock_of_ok g i s w Hg Ew)).
  exact (di_mod_ok g (λ x, set_iblock (<[i := v]> (di_iblock x)) x) s Hg).
Qed.

(** A block is allocated for inode [g] and entered in its index. *)
Lemma block_step g i s : mk_inv s → 0 ≤ g < free_inum s → bfreeno s < MAX_DATA_BLOCKNO → (i < 15)%nat →
  ∃ s', (let! b := block_alloc in set_iblock_of (inum_to_dinode g) i b ;; ret b) s = Ok (bfreeno s) s' ∧ mk_inv s' ∧
    bfreeno s' = bfreeno s + 1 ∧ free_inum s' = free_inum s ∧
    di s' g = set_iblock (<[i := bfreeno s]> (di_iblock (di s g))) (di s g) ∧ mk_frame (λ _, False) (λ x, x = g) s s'.
Proof.
  mknum. intros I Hg Hb Hi. destruct (block_alloc_ok s I Hb) as (m & E & I'). cbn zeta in *. set (s1 := set_bfree _ _) in *.
  assert (HgM : 0 ≤ g < MAX_FILE_NUMBER) by (pose proof (mi_inum _ I); lia).
  pose proof (mi_bfree _ I) as Hbf. rewrite N8, N9 in Hbf.
  assert (Hdi : di s1 g = di s g) by done.
  eexists. split; [rewrite (bind_ok _ _ _ _ _ E); rewrite (bind_ok _ _ _ _ _ (set_iblock_of_ok g i (bfreeno s) s1 HgM
    ltac:(rewrite Hdi, (proj2 (mi_wf _ I g)); unfold NIBLOCK, NDIRECT, NINDIRECT; lia))); reflexivity|].
  split; [apply mk_inv_di; [done|done|]; apply di_wf_iblock; [apply I'|lia]|]. split; [done|]. split; [done|]. split.
  - rewrite di_set, decide_True by done. done.
  - split; [done|]. intros x Hx Hne. rewrite di_set, decide_False by done. done.
Qed.

Lemma alloc_direct_spec n g b q size s : (n ≤ 12)%nat → (12 - n ≤ q)%nat → mk_inv s → 0 ≤ g < free_inum s →
  bfreeno s = b + Z.of_nat (12 - n) → b + Z.of_nat (q `min` 12) ≤ MAX_DATA_BLOCKNO → di_iblock (di s g) = layout_ib b (12 - n) →
  (∀ m : nat, 0 < size - 1024 * Z.of_nat m ↔ (m < q)%nat) →
  ∃ s', alloc_direct (inum_to_dinode g) n (size - 1024 * Z.of_nat (12 - n)) s = Ok (size - 1024 * Z.of_nat (q `min` 12)) s' ∧ mk_inv s' ∧
    bfreeno s' = b + Z.of_nat (q `min` 12) ∧ free_inum s' = free_inum s ∧
    di s' g = set_iblock (layout_ib b (q `min` 12)) (di s g) ∧ mk_frame (λ _, False) (λ x, x = g) s s'.
Proof.
  revert s. induction n as [|n IH]; intros s Hn Hq I Hg Hb Hmax Hib Hsz.
  { exists s. replace (q `min` 12)%nat with 12%nat by lia. change (12 - 0)%nat with 12%nat in *. split_and!; try done.
    rewrite <- Hib. by destruct (di s g). }
  cbn [alloc_direct]. set (i := (12 - S n)%nat) in *. destruct (Z.ltb_spec 0 (size - 1024 * Z.of_nat i)) as [Hlt|Hge].
  - apply Hsz in Hlt. destruct (block_step g i s I Hg ltac:(lia) ltac:(lia)) as (s1 & E1 & I1 & B1 & F1 & D1 & Fr1).
    change (NDIRECT - S n)%nat with i. destruct (IH s1) as (s2 & E2 & I2 & B2 & F2 & D2 & Fr2);
      [lia|lia|done|by rewrite F1|rewrite B1, Hb; lia|done| |done|].
    { rewrite D1, Hib. cbn. rewrite Hb. rewrite layout_direct by lia. f_equal. lia. }
    exists s2. split; [|split_and!; [done|done|by rewrite F2, F1|by rewrite D2, D1|by eapply mk_frame_trans]].
    apply bind_ok_inv in E1 as (b1 & s0 & Eb & E1). rewrite (bind_ok _ _ _ _ _ Eb). apply bind_ok_inv in E1 as ([] & s0' & Es & [= -> ->]).
    rewrite (bind_ok _ _ _ _ _ Es). change (Z.of_nat BSIZE) with 1024.
    replace (size - 1024 * Z.of_nat i - 1024) with (size - 1024 * Z.of_nat (12 - n)) by lia. exact E2.
  - assert (q = i) as -> by (pose proof (Hsz i); lia). exists s. replace (i `min` 12)%nat with i by lia. split_and!; try done.
    rewrite <- Hib. by destruct (di s g).
Qed.

Lemma zero_words j : get_at 4 (4 * j) zero_block = 0.
Proof.
  unfold get_at, zero_block. rewrite drop_replicate, take_replicate. generalize (4 `min` (BSIZE - 4 * j))%nat. intros k.
  induction k as [|k IH]; [done|]. cbn [replicate le_combine]. by rewrite IH.
Qed.
Lemma alloc_entries_spec n b q i size idx s : let m0 := (12 + 256 * i)%nat in (n ≤ 256)%nat → (m0 + (256 - n) ≤ q)%nat → mk_inv s →
  bfreeno s = idx_at b i + 1 + Z.of_nat (256 - n) → idx_at b i + 1 + Z.of_nat (q `min` (m0 + 256) - m0) ≤ MAX_DATA_BLOCKNO →
  0 ≤ b → is_block idx → (∀ j, (j < 256)%nat → get_at 4 (4 * j) idx = if (j <? 256 - n)%nat then blk_at b (m0 + j) else 0) →
  (∀ m : nat, 0 < size - 1024 * Z.of_nat m ↔ (m < q)%nat) →
  ∃ s' idx', alloc_entries n (size - 1024 * Z.of_nat (m0 + (256 - n))) idx s = Ok (size - 1024 * Z.of_nat (q `min` (m0 + 256)), idx') s' ∧
    mk_inv s' ∧ is_block idx' ∧ (∀ j, (j < 256)%nat → get_at 4 (4 * j) idx' = idx_entry b q i j) ∧
    bfreeno s' = idx_at b i + 1 + Z.of_nat (q `min` (m0 + 256) - m0) ∧ free_inum s' = free_inum s ∧
    mk_frame (λ _, False) (λ _, False) s s'.
Proof.
  intros m0. revert s idx. induction n as [|n IH]; intros s idx Hn Hq I Hb Hmax Hb0 Hidx Hent Hsz.
  { exists s, idx. change (256 - 0)%nat with 256%nat in *. replace (q `min` (m0 + 256))%nat with (m0 + 256)%nat by lia.
    split_and!; try done; [|rewrite Hb; lia]. intros j Hj. rewrite Hent by done. unfold idx_entry. fold m0.
    destruct (Nat.ltb_spec j 256), (Nat.ltb_spec (m0 + j) q); (done || lia). }
  cbn [alloc_entries]. set (j := (256 - S n)%nat) in *. destruct (Z.ltb_spec 0 (size - 1024 * Z.of_nat (m0 + j))) as [Hlt|Hge].
  - apply Hsz in Hlt. destruct (block_alloc_ok s I ltac:(lia)) as (m & E & I'). cbn zeta in *. set (s1 := set_bfree _ _) in *.
    run E. change (IDX_CNT - S n)%nat with j. destruct Hidx as [Hl1 Hb1]. assert (Hjl : (4 * j + 4 ≤ length idx)%nat) by (rewrite Hl1; unfold BSIZE; lia).
    mknum. destruct (IH s1 (put_at 4 (4 * j) (bfreeno s) idx)) as (s2 & idx2 & E2 & I2 & R2);
      [lia|lia|done|cbn; rewrite Hb; lia|done|done|split; [by rewrite length_put_at|auto with bytes]| |done|].
    { intros j' Hj'. destruct (decide (j' = j)) as [->|Hne].
      - rewrite get_put_same by done. rewrite Z.mod_small by (pose proof (mi_bfree _ I); change (256 ^ Z.of_nat 4) with (2 ^ 32); lia).
        destruct (Nat.ltb_spec j (256 - n)); [|lia]. unfold m0. rewrite blk_at_indirect by lia. rewrite Hb. lia.
      - rewrite get_put_ne by lia. rewrite Hent by done. destruct (Nat.ltb_spec j' j), (Nat.ltb_spec j' (256 - n)); (done || lia). }
    exists s2, idx2. split; [|done]. change (Z.of_nat BSIZE) with 1024.
    replace (size - 1024 * Z.of_nat (m0 + j) - 1024) with (size - 1024 * Z.of_nat (m0 + (256 - n))) by lia. exact E2.
  - assert (q = (m0 + j)%nat) as Eq by (pose proof (Hsz (m0 + j)%nat); lia). exists s, idx.
    replace (q `min` (m0 + 256))%nat with (m0 + j)%nat by lia. split_and!; try done; [|rewrite Hb; lia].
    intros j' Hj'. rewrite Hent by done. unfold idx_entry. fold m0. destruct (Nat.ltb_spec j' j), (Nat.ltb_spec (m0 + j') q); (done || lia).
Qed.

Lemma indexed_step im b i m m' : indexed im b (12 + 256 * i) → (12 + 256 * i < m' ≤ 12 + 256 * S i)%nat → (m' ≤ m)%nat →
  (m ≤ m' ∨ m' = 12 + 256 * S i)%nat → (∀ j, (j < 256)%nat → get_at 4 (4 * j) (im (idx_at b i)) = idx_entry b m i j) → indexed im b m'.
Proof.
  intros H Hm Hle Hor Hnew i' j Hi' Hj Hlt. destruct (decide (i' = i)) as [->|Hne].
  - rewrite Hnew by done. unfold idx_entry. destruct (Nat.ltb_spec (12 + 256 * i + j) m), (Nat.ltb_spec (12 + 256 * i + j) m'); (done || lia).
  - rewrite H by lia. unfold idx_entry.
    destruct (Nat.ltb_spec (12 + 256 * i' + j) (12 + 256 * i)), (Nat.ltb_spec (12 + 256 * i' + j) m'); (done || lia).
Qed.
Lemma indexed_ext im im' b q : indexed im b q → (∀ i, (12 + 256 * i < q)%nat → im' (idx_at b i) = im (idx_at b i)) → indexed im' b q.
Proof. intros H Hi i j H1 H2 H3. rewrite Hi by done. by apply H. Qed.

(** One index block and its entries. *)
Lemma index_step g b q i size s : (i < 3)%nat → (12 + 256 * i < q)%nat → mk_inv s → 0 ≤ g < free_inum s → 0 ≤ b →
  let m := (q `min` (12 + 256 * S i))%nat in
  bfreeno s = idx_at b i → b + Z.of_nat (file_blocks m) ≤ MAX_DATA_BLOCKNO → di_iblock (di s g) = layout_ib b (12 + 256 * i) →
  indexed (img_at s) b (12 + 256 * i) → (∀ m : nat, 0 < size - 1024 * Z.of_nat m ↔ (m < q)%nat) →
  ∃ s', (let! b := block_alloc in
         set_iblock_of (inum_to_dinode g) (12 + i) b ;;
         let! r := alloc_entries IDX_CNT (size - 1024 * Z.of_nat (12 + 256 * i)) zero_block in
         let! b := iblock_of (inum_to_dinode g) (12 + i) in
         write_block b r.2 ;; ret r.1) s = Ok (size - 1024 * Z.of_nat m) s' ∧ mk_inv s' ∧
    bfreeno s' = b + Z.of_nat (file_blocks m) ∧ free_inum s' = free_inum s ∧
    di s' g = set_iblock (layout_ib b m) (di s g) ∧ indexed (img_at s') b m ∧ mk_frame (λ x, x = idx_at b i) (λ x, x = g) s s'.
Proof.
  intros Hi Hq I Hg Hb0 m Hb Hmax Hib Hix Hsz. assert (Hm : (12 + 256 * i < m ≤ 12 + 256 * S i)%nat) by lia.
  rewrite (file_blocks_index i m Hm) in *. assert (Hbm : bfreeno s < MAX_DATA_BLOCKNO) by (rewrite Hb; unfold idx_at; lia).
  destruct (block_step g (12 + i) s I Hg Hbm ltac:(lia)) as (s1 & E1 & I1 & B1 & F1 & D1 & Fr1).
  destruct (alloc_entries_spec 256 b q i size zero_block s1) as (s2 & idx & E2 & I2 & Hblk & Hent & B2 & F2 & Fr2);
    [lia|lia|done|rewrite B1, Hb; lia| |done|exact zero_block_ok|intros j Hj; by rewrite zero_words|done|].
  { replace (12 + 256 * i + 256)%nat with (12 + 256 * S i)%nat by lia. fold m. unfold idx_at. lia. }
  cbn zeta in *. replace (12 + 256 * i + 256)%nat with (12 + 256 * S i)%nat in * by lia. fold m in E2, B2.
  replace (12 + 256 * i + (256 - 256))%nat with (12 + 256 * i)%nat in E2 by lia.
  pose proof (mi_inum _ I) as Hin. assert (HgM : 0 ≤ g < MAX_FILE_NUMBER) by lia.
  assert (D2 : di s2 g = set_iblock (layout_ib b m) (di s g)).
  { rewrite (proj2 Fr2 g) by (done || lia). rewrite D1, Hib, Hb. by rewrite (layout_indirect b i m). }
  assert (Eix : di_iblock (di s2 g) !! (12 + i)%nat = Some (idx_at b i)).
  { rewrite D2. change (di_iblock (set_iblock ?v ?x)) with v. rewrite layout_index by done.
    by destruct (Nat.ltb_spec (12 + 256 * i) m); [|lia]. }
  assert (Hix0 : 0 ≤ idx_at b i ≤ MAX_DATA_BLOCKNO) by (unfold idx_at in *; lia).
  exists (set_img (<[idx_at b i := idx]> (img s2)) s2). split.
  { apply bind_ok_inv in E1 as (b1 & s0 & Eb & E1). rewrite (bind_ok _ _ _ _ _ Eb). apply bind_ok_inv in E1 as ([] & s0' & Es & [= -> ->]).
    rewrite (bind_ok _ _ _ _ _ Es). change IDX_CNT with 256%nat. rewrite (bind_ok _ _ _ _ _ E2).
    rewrite (bind_ok _ _ _ _ _ (iblock_of_ok g _ s2 _ HgM Eix)). cbn [fst snd]. by run (write_block_ok (idx_at b i) idx s2 Hix0). }
  split; [by apply mk_inv_img|]. split; [cbn; rewrite B2; unfold idx_at; lia|]. split; [cbn; by rewrite F2, F1|]. split; [done|]. split.
  - assert (Himg : ∀ x, x ≠ idx_at b i → img_at (set_img (<[idx_at b i := idx]> (img s2)) s2) x = img_at s x).
    { intros x Hx. rewrite img_set, decide_False by done. rewrite (proj1 Fr2), (proj1 Fr1) by tauto. done. }
    apply (indexed_step _ b i q m).
    + eapply indexed_ext; [exact Hix|]. intros i' Hi'. apply Himg. intros E%idx_at_inj. lia.
    + done.
    + lia.
    + lia.
    + intros j Hj. rewrite img_set, decide_True by done. by apply Hent.
  - eapply mk_frame_trans; [eapply mk_frame_weaken; [exact Fr1|done|done]|]. eapply mk_frame_trans; [eapply mk_frame_weaken; [exact Fr2|done|done]|].
    split; [|done]. intros x Hx. by rewrite img_set, decide_False.
Qed.
Lemma alloc_indirect_spec n g b q size s : let m := (q `min` (12 + 256 * (3 - n)))%nat in (n ≤ 3)%nat → (q ≤ MAXQ)%nat → mk_inv s →
  0 ≤ g < free_inum s → 0 ≤ b → bfreeno s = b + Z.of_nat (file_blocks m) → b + Z.of_nat (file_blocks q) ≤ MAX_DATA_BLOCKNO →
  di_iblock (di s g) = layout_ib b m → indexed (img_at s) b m → (∀ m : nat, 0 < size - 1024 * Z.of_nat m ↔ (m < q)%nat) →
  ∃ s' r, alloc_indirect (inum_to_dinode g) n (size - 1024 * Z.of_nat m) s = Ok r s' ∧ r ≤ 0 ∧ mk_inv s' ∧
    bfreeno s' = b + Z.of_nat (file_blocks q) ∧ free_inum s' = free_inum s ∧
    di s' g = set_iblock (layout_ib b q) (di s g) ∧ indexed (img_at s') b q ∧
    mk_frame (λ x, b ≤ x < b + Z.of_nat (file_blocks q)) (λ x, x = g) s s'.
Proof.
  intros m Hn HQ. revert s m Hn. induction n as [|n IH]; intros s m Hn I Hg Hb0 Hb Hmax Hib Hix Hsz.
  { assert (m = q) as Em by (unfold m, MAXQ in *; lia). rewrite Em in *. eexists s, _. split; [reflexivity|].
    split; [pose proof (Hsz q); lia|]. split_and!; try done. rewrite <- Hib. by destruct (di s g). }
  cbn [alloc_indirect]. destruct (Z.ltb_spec 0 (size - 1024 * Z.of_nat m)) as [Hlt|Hge].
  - apply Hsz in Hlt. set (i := (3 - S n)%nat) in *. assert (Em : m = (12 + 256 * i)%nat) by (unfold m in *; lia). rewrite Em in *.
    change (NDIRECT + (NINDIRECT - S n))%nat with (12 + i)%nat. rewrite file_blocks_full in Hb.
    assert (Hle : (file_blocks (q `min` (12 + 256 * S i)) ≤ file_blocks q)%nat) by (apply file_blocks_mono; lia).
    destruct (index_step g b q i size s) as (s1 & E1 & I1 & B1 & F1 & D1 & X1 & Fr1); [lia|done|done|done|done|unfold idx_at; lia|lia|done..|].
    destruct (IH s1) as (s2 & r & E2 & R2); [lia|done|by rewrite F1|done|..].
    { rewrite B1. do 4 f_equal. lia. } { done. } { rewrite D1. cbn [di_iblock set_iblock]. do 2 f_equal. lia. }
    { by replace (3 - n)%nat with (S i) by lia. } { done. }
    destruct R2 as (R2 & I2 & B2 & F2 & D2 & X2 & Fr2). exists s2, r. split.
    + replace (3 - n)%nat with (S i) in E2 by lia. clear - E1 E2.
      apply bind_ok_inv in E1 as (b1 & s0 & Eb & E1). rewrite (bind_ok _ _ _ _ _ Eb). clear Eb.
      apply bind_ok_inv in E1 as ([] & s0' & Es & E1). rewrite (bind_ok _ _ _ _ _ Es). clear Es.
      apply bind_ok_inv in E1 as (r1 & s0'' & Er & E1). rewrite (bind_ok _ _ _ _ _ Er). clear Er.
      apply bind_ok_inv in E1 as (b2 & s3 & Eb & E1). rewrite (bind_ok _ _ _ _ _ Eb). clear Eb.
      apply bind_ok_inv in E1 as ([] & s4 & Ew & [= E1 ->]). rewrite (bind_ok _ _ _ _ _ Ew), E1. exact E2.
    + split_and!; try done; [by rewrite F2, F1|by rewrite D2, D1|]. eapply mk_frame_trans; [|exact Fr2].
      eapply mk_frame_weaken; [exact Fr1| |done]. intros x ->. by apply idx_at_range.
  - assert (m = q) as Em by (pose proof (Hsz m); unfold m in *; lia). rewrite Em in *. eexists s, _. split; [reflexivity|].
    split; [lia|]. split_and!; try done. rewrite <- Hib. by destruct (di s g).
Qed.

Lemma data_blocks_size n m : 0 < Z.of_nat n - 1024 * Z.of_nat m ↔ (m < data_blocks n)%nat.
Proof.
  unfold data_blocks. pose proof (Nat.div_mod_eq (n + 1023) 1024). pose proof (Nat.mod_upper_bound (n + 1023) 1024 ltac:(lia)). lia.
Qed.
(** The blocks of a file of [n] bytes are allocated in the layout. *)
Lemma alloc_data_spec g n s : let q := data_blocks n in let b := bfreeno s in mk_inv s → 0 ≤ g < free_inum s → (q ≤ MAXQ)%nat →
  b + Z.of_nat (file_blocks q) ≤ MAX_DATA_BLOCKNO → di_iblock (di s g) = replicate NIBLOCK 0 →
  ∃ s', alloc_data (inum_to_dinode g) (Z.of_nat n) s = Ok true s' ∧ mk_inv s' ∧ bfreeno s' = b + Z.of_nat (file_blocks q) ∧
    free_inum s' = free_inum s ∧ di s' g = set_iblock (layout_ib b q) (di s g) ∧ indexed (img_at s') b q ∧
    mk_frame (λ x, b ≤ x < b + Z.of_nat (file_blocks q)) (λ x, x = g) s s'.
Proof.
  intros q b I Hg HQ Hmax Hib. pose proof (data_blocks_size n) as Hsz. fold q in Hsz.
  assert (Hb0 : 0 ≤ b) by (mknum; pose proof (mi_bfree _ I); lia).
  assert (Hle : (q `min` 12 ≤ file_blocks q)%nat) by (unfold file_blocks; lia).
  destruct (alloc_direct_spec 12 g b q (Z.of_nat n) s) as (s1 & E1 & I1 & B1 & F1 & D1 & Fr1);
    [lia|lia|done|done|unfold b; lia|lia|by rewrite Hib|done|].
  destruct (alloc_indirect_spec 3 g b q (Z.of_nat n) s1) as (s2 & r & E2 & Hr & I2 & B2 & F2 & D2 & X2 & Fr2);
    [lia|done|done|by rewrite F1|done|rewrite B1, file_blocks_small by lia; do 3 f_equal; lia|done| | |done|].
  { rewrite D1. cbn [di_iblock set_iblock]. do 2 f_equal; lia. } { intros i j _ _ Hlt. lia. }
  exists s2. split_and!; try done; [|by rewrite F2, F1|by rewrite D2, D1|].
  - unfold alloc_data. change NDIRECT with 12%nat. change (Z.of_nat n - 1024 * Z.of_nat (12 - 12)) with (Z.of_nat n - 0) in E1. rewrite Z.sub_0_r in E1.
    rewrite (bind_ok _ _ _ _ _ E1). change NINDIRECT with 3%nat. replace (12 + 256 * (3 - 3))%nat with 12%nat in E2 by lia.
    rewrite (bind_ok _ _ _ _ _ E2). unfold ret. f_equal. by apply Z.leb_le.
  - eapply mk_frame_trans; [eapply mk_frame_weaken; [exact Fr1|done|done]|exact Fr2].
Qed.

(** ** The walk over the blocks of a file *)

Section walk.
Context {X : Type} (body : nat → Z → X → MK X) (g b : Z) (q : nat) (Inv : nat → X → mkst → Prop).
Hypothesis Hg : 0 ≤ g < MAX_FILE_NUMBER.
Hypothesis Hq : (q ≤ MAXQ)%nat.
Hypothesis Hb : 0 < b.
Hypothesis Hmax : b + Z.of_nat (file_blocks q) ≤ MAX_DATA_BLOCKNO.
Hypothesis HInv : ∀ k x s, Inv k x s → di_iblock (di s g) = layout_ib b q ∧ indexed (img_at s) b q.
Hypothesis Hbody : ∀ k x s, (k < q)%nat → Inv k x s → ∃ x' s', body k (blk_at b k) x s = Ok x' s' ∧ Inv (S k) x' s'.

Lemma each_direct_spec n x s : (n ≤ 12)%nat → (12 - n ≤ q)%nat → Inv (12 - n) x s →
  ∃ x' s', each_direct body (inum_to_dinode g) n x s = Ok x' s' ∧ Inv (q `min` 12) x' s'.
Proof.
  revert x s. induction n as [|n IH]; intros x s Hn Hle Hi.
  { eexists x, s. split; [reflexivity|]. by replace (q `min` 12)%nat with (12 - 0)%nat by lia. }
  cbn [each_direct]. set (i := (12 - S n)%nat) in *. change (NDIRECT - S n)%nat with i. destruct (HInv i x s Hi) as [Hib _].
  rewrite (bind_ok _ _ _ _ _ (iblock_of_ok g i s _ Hg (eq_trans (f_equal (lookup i) Hib) (layout_direct_lookup b q i ltac:(lia))))).
  destruct (Nat.ltb_spec i q) as [Hlt|Hge].
  - destruct (Z.ltb_spec 0 (b + Z.of_nat i)); [|lia]. rewrite <- blk_at_direct by lia.
    destruct (Hbody i x s Hlt Hi) as (x1 & s1 & E1 & H1). run E1. apply IH; [lia|lia|]. by replace (12 - n)%nat with (S i) by lia.
  - eexists x, s. split; [reflexivity|]. by replace (q `min` 12)%nat with i by lia.
Qed.
Lemma each_entry_spec idx i n x s : let m0 := (12 + 256 * i)%nat in (n ≤ 256)%nat → (m0 + (256 - n) ≤ q)%nat →
  (∀ j, (j < 256)%nat → get_at 4 (4 * j) idx = idx_entry b q i j) → Inv (m0 + (256 - n)) x s →
  ∃ x' s', each_entry body idx i n x s = Ok x' s' ∧ Inv (q `min` (m0 + 256)) x' s'.
Proof.
  intros m0. revert x s. induction n as [|n IH]; intros x s Hn Hle Hidx Hi.
  { eexists x, s. split; [reflexivity|]. by replace (q `min` (m0 + 256))%nat with (m0 + (256 - 0))%nat by lia. }
  cbn [each_entry]. set (j := (256 - S n)%nat) in *. change (IDX_CNT - S n)%nat with j. rewrite Hidx by lia. unfold idx_entry. fold m0.
  change (NDIRECT + IDX_CNT * i + j)%nat with (m0 + j)%nat. destruct (Nat.ltb_spec (m0 + j) q) as [Hlt|Hge].
  - pose proof (blk_at_range b q (m0 + j) Hlt). destruct (Z.ltb_spec 0 (blk_at b (m0 + j))); [|lia].
    destruct (Hbody (m0 + j) x s Hlt Hi) as (x1 & s1 & E1 & H1). run E1. apply IH; [lia|lia|done|].
    by replace (m0 + (256 - n))%nat with (S (m0 + j)) by lia.
  - eexists x, s. split; [reflexivity|]. by replace (q `min` (m0 + 256))%nat with (m0 + j)%nat by lia.
Qed.
Lemma each_indirect_spec n x s : let m := (q `min` (12 + 256 * (3 - n)))%nat in (n ≤ 3)%nat → Inv m x s →
  ∃ x' s', each_indirect body (inum_to_dinode g) n x s = Ok x' s' ∧ Inv q x' s'.
Proof.
  revert x s. induction n as [|n IH]; intros x s m Hn Hi.
  { eexists x, s. split; [reflexivity|]. assert (m = q) as Em by (unfold m, MAXQ in *; lia). by rewrite <- Em. }
  cbn [each_indirect]. set (i := (3 - S n)%nat) in *. change (NDIRECT + (NINDIRECT - S n))%nat with (12 + i)%nat.
  change (NINDIRECT - S n)%nat with i. destruct (HInv m x s Hi) as [Hib Hix].
  rewrite (bind_ok _ _ _ _ _ (iblock_of_ok g _ s _ Hg (eq_trans (f_equal (lookup (12 + i)%nat) Hib) (layout_index b q i ltac:(lia))))).
  destruct (Nat.ltb_spec (12 + 256 * i) q) as [Hlt|Hge].
  - pose proof (idx_at_range b q i Hlt). destruct (Z.ltb_spec 0 (idx_at b i)); [|lia]. unfold read_block. rewrite bind_gets, seek_id by lia.
    assert (Em : m = (12 + 256 * i)%nat) by (unfold m; lia). rewrite Em in *.
    destruct (each_entry_spec (img_at s (idx_at b i)) i 256 x s) as (x1 & s1 & E1 & H1); [lia|lia|intros j Hj; apply Hix; lia| |].
    { by replace (12 + 256 * i + (256 - 256))%nat with (12 + 256 * i)%nat by lia. }
    change IDX_CNT with 256%nat. rewrite (bind_ok _ _ _ _ _ E1). apply IH; [lia|].
    by replace (12 + 256 * (3 - n))%nat with (12 + 256 * i + 256)%nat by lia.
  - eexists x, s. split; [reflexivity|]. assert (m = q) as Em by (unfold m; lia). by rewrite <- Em.
Qed.
(** Each data block is visited once, in order. *)
Lemma each_block_spec x s : Inv 0 x s → ∃ x' s', each_block body (inum_to_dinode g) x s = Ok x' s' ∧ Inv q x' s'.
Proof.
  intros Hi. destruct (each_direct_spec 12 x s) as (x1 & s1 & E1 & H1); [lia|lia|done|]. unfold each_block.
  change NDIRECT with 12%nat. rewrite (bind_ok _ _ _ _ _ E1). change NINDIRECT with 3%nat. apply each_indirect_spec; [lia|].
  by replace (12 + 256 * (3 - 3))%nat with 12%nat by lia.
Qed.
End walk.
