(* ===== verification/MkfsTree.v ===== *)
(** What mkfs builds from a host directory: a reference layout of files and
    directories on the image, and the proof that the copies of mkfs/mkfs.cc follow it. *)
From S2P Require Import Prelude Bytes Machine BlockIO Fs Inode Dir Mkfs MkfsLayout.

(** ** Files *)

(** Inode [g] is a regular file with the bytes [data], in the blocks from [b] on. *)
Definition file_built (D : Z → dinode) (im : Z → list Z) (data : list Z) (g b : Z) : Prop :=
  let q := data_blocks (length data) in
  D g = MkDi REGULAR 0 1 (Z.of_nat (length data)) (layout_ib b q) ∧ indexed im b q ∧
  ∀ p, (p < length data)%nat → im (blk_at b (p / 1024)) !! (p mod 1024)%nat = data !! p.

Lemma data_blocks_bound n p : (p < n)%nat → (p / 1024 < data_blocks n)%nat.
Proof.
  intros Hp. unfold data_blocks. pose proof (Nat.div_mod_eq p 1024). pose proof (Nat.div_mod_eq (n + 1023) 1024).
  pose proof (Nat.mod_upper_bound (n + 1023) 1024 ltac:(lia)). lia.
Qed.
Lemma file_built_ext D D' im im' data g b : file_built D im data g b → D' g = D g →
  (∀ x, b ≤ x < b + Z.of_nat (file_blocks (data_blocks (length data))) → im' x = im x) → file_built D' im' data g b.
Proof.
  intros (H1 & H2 & H3) ED Ei. split; [by rewrite ED|]. split.
  - eapply indexed_ext; [exact H2|]. intros i Hi. apply Ei, idx_at_range, Hi.
  - intros p Hp. rewrite Ei by (apply blk_at_range, data_blocks_bound, Hp). by apply H3.
Qed.

Lemma wf_words x a c d e ib : di_wf x → u32_ok a → u32_ok c → u32_ok d → u32_ok e → ib = di_iblock x → di_wf (MkDi a c d e ib).
Proof.
  intros [H1 H2] Ha Hc Hd He ->. split; [|done]. unfold dinode_words in *. apply Forall_app in H1 as [_ H1]. apply Forall_app. split; [|done].
  by repeat apply Forall_cons_2.
Qed.
Lemma wf_field x : di_wf x → u32_ok (di_type x) ∧ u32_ok (di_dev x) ∧ u32_ok (di_nlink x) ∧ u32_ok (di_fsize x).
Proof. intros [H1 _]. unfold dinode_words in H1. apply Forall_app in H1 as [H0 _]. rewrite !Forall_cons in H0. tauto. Qed.
Lemma wf_fsize x v : di_wf x → u32_ok v → di_wf (set_fsize v x).
Proof. intros H Hv. destruct (wf_field x H) as (? & ? & ? & ?). by eapply wf_words. Qed.
Lemma wf_nlink x v : di_wf x → u32_ok v → di_wf (set_nlink v x).
Proof. intros H Hv. destruct (wf_field x H) as (? & ? & ? & ?). by eapply wf_words. Qed.
Lemma wf_type x v : di_wf x → u32_ok v → di_wf (set_type v x).
Proof. intros H Hv. destruct (wf_field x H) as (? & ? & ? & ?). by eapply wf_words. Qed.
(** A change of the record of inode [g] that does not concern its index. *)
Lemma di_mod_step g f s : mk_inv s → 0 ≤ g < free_inum s → di_wf (f (di s g)) →
  ∃ s', di_mod (inum_to_dinode g) f s = Ok tt s' ∧ mk_inv s' ∧ bfreeno s' = bfreeno s ∧ free_inum s' = free_inum s ∧
    di s' g = f (di s g) ∧ img s' = img s ∧ mk_frame (λ _, False) (λ x, x = g) s s'.
Proof.
  intros I Hg Hw. pose proof (mi_inum _ I). eexists. split; [apply di_mod_ok; lia|]. split; [by apply mk_inv_di|]. split; [done|]. split; [done|].
  split; [by rewrite di_set, decide_True|]. split; [done|]. split; [done|]. intros x Hx Hne. by rewrite di_set, decide_False.
Qed.

(** The state of the copy of a file behind [k] blocks. *)
Record copied (data : list Z) (b : Z) (q : nat) (s1 : mkst) (k : nat) (x : list Z * list Z) (s : mkst) : Prop := {
  co_inv : mk_inv s;
  co_buf : is_block x.1;
  co_rest : x.2 = drop (1024 * k) data;
  co_cnt : bfreeno s = bfreeno s1 ∧ free_inum s = free_inum s1;
  co_di g : di s g = di s1 g;
  co_img y : (∀ k', (k' < k)%nat → y ≠ blk_at b k') → img_at s y = img_at s1 y;
  co_data p : (p < length data)%nat → (p / 1024 < k)%nat → img_at s (blk_at b (p / 1024)) !! (p mod 1024)%nat = data !! p;
}.
Lemma copy_block_step data b q s1 k x s : bytes_ok data → 0 ≤ b → b + Z.of_nat (file_blocks q) ≤ MAX_DATA_BLOCKNO → (k < q)%nat →
  copied data b q s1 k x s → ∃ x' s', copy_block k (blk_at b k) x s = Ok x' s' ∧ copied data b q s1 (S k) x' s'.
Proof.
  intros Hd Hb Hmax Hk [C1 C2 C3 C4 C5 C6 C7]. pose proof (blk_at_range b q k Hk) as Hr. unfold copy_block.
  set (buf := blit 0 (take BSIZE x.2) x.1). assert (Hlen : (length (take BSIZE x.2) ≤ 1024)%nat) by (rewrite length_take; unfold BSIZE; lia).
  destruct C2 as [Hl Hby]. assert (Hfit : (0 + length (take BSIZE x.2) ≤ length x.1)%nat) by (rewrite Hl; unfold BSIZE in *; lia).
  assert (Hbuf : is_block buf).
  { split; [unfold buf; by rewrite length_blit|]. apply bytes_ok_blit; [|done]. rewrite C3. auto with bytes. }
  eexists _, _. split; [run (write_block_ok (blk_at b k) buf s ltac:(lia)); reflexivity|]. split.
  - by apply mk_inv_img.
  - done.
  - cbn. rewrite C3, drop_drop. f_equal. unfold BSIZE. lia.
  - done.
  - done.
  - intros y Hy. rewrite img_set, decide_False by (apply Hy; lia). apply C6. intros k' Hk'. apply Hy. lia.
  - intros p Hp Hpk. rewrite img_set. destruct (decide (p / 1024 = k)%nat) as [E|E].
    + rewrite E, decide_True by done. pose proof (Nat.div_mod_eq p 1024) as Hdm. pose proof (Nat.mod_upper_bound p 1024 ltac:(lia)) as Hm.
      unfold buf. rewrite lookup_blit by done. rewrite length_take, C3, length_drop. unfold BSIZE.
      rewrite decide_True by lia. rewrite Nat.sub_0_r, lookup_take_lt by lia. rewrite lookup_drop. f_equal. lia.
    + rewrite decide_False by (intros E'%blk_at_inj; done). apply C7; [done|lia].
Qed.

(** A regular file is copied. *)
Lemma reg_copy data s : let q := data_blocks (length data) in let g := free_inum s in let b := bfreeno s in
  mk_inv s → bytes_ok data → (q ≤ MAXQ)%nat → g < MAX_FILE_NUMBER → b + Z.of_nat (file_blocks q) ≤ MAX_DATA_BLOCKNO →
  ∃ s', (let! inum := reg_meta_copy data in reg_data_copy data inum ;; ret inum) s = Ok g s' ∧ mk_inv s' ∧
    free_inum s' = g + 1 ∧ bfreeno s' = b + Z.of_nat (file_blocks q) ∧ file_built (di s') (img_at s') data g b ∧
    mk_frame (λ x, b ≤ x < b + Z.of_nat (file_blocks q)) (λ x, x = g) s s'.
Proof.
  intros q g b I Hd Hq Hg Hmax. pose proof (mi_inum _ I) as Hin. fold g in Hin.
  assert (Hlen : Z.of_nat (length data) < 2 ^ 32).
  { pose proof (data_blocks_size (length data) q) as Hz. fold q in Hz. unfold MAXQ in Hq. lia. }
  destruct (dinode_alloc_ok s I Hg) as (m & E0 & I0). cbn zeta in *. fold g in E0, I0. set (s0 := set_inum _ _) in *.
  assert (Hg0 : 0 ≤ g < free_inum s0) by (cbn; lia). assert (D0 : di s0 g = di0) by (apply (mi_new _ I); unfold g; lia).
  destruct (di_mod_step g (set_fsize (u32 (Z.of_nat (length data)))) s0 I0 Hg0) as (s1 & E1 & I1 & B1 & F1 & D1 & _ & Fr1).
  { apply wf_fsize; [apply I0|apply u32_bound]. }
  destruct (di_mod_step g (set_nlink 1) s1 I1) as (s2 & E2 & I2 & B2 & F2 & D2 & _ & Fr2); [by rewrite F1| |].
  { by apply wf_nlink; [apply I1|]. }
  destruct (di_mod_step g (set_type REGULAR) s2 I2) as (s3 & E3 & I3 & B3 & F3 & D3 & _ & Fr3); [by rewrite F2, F1| |].
  { by apply wf_type; [apply I2|]. }
  rewrite D2, D1, D0, u32_id in D3 by lia. assert (Eb : bfreeno s3 = b) by (by rewrite B3, B2, B1).
  assert (Ef : free_inum s3 = g + 1) by (by rewrite F3, F2, F1).
  destruct (alloc_data_spec g (length data) s3 I3) as (s4 & E4 & I4 & B4 & F4 & D4 & X4 & Fr4); [lia|done|by rewrite Eb|by rewrite D3|].
  rewrite Eb in *. fold q in B4, D4, X4, Fr4.
  assert (Hb0 : 0 < b) by (mknum; pose proof (mi_bfree _ I); unfold b; lia).
  destruct (each_block_spec copy_block g b q (copied data b q s4) ltac:(lia) Hq Hb0 Hmax) with (x := (zero_block, data)) (s := s4)
    as (x5 & s5 & E5 & [C1 C2 C3 C4 C5 C6 C7]).
  { intros k x s' [_ _ _ _ H5 H6 _]. rewrite H5, D4. split; [done|]. eapply indexed_ext; [exact X4|]. intros i Hi. apply H6. intros k' _ E. by apply (blk_idx_ne b k' i). }
  { intros k x s' Hk HC. by apply copy_block_step; [|lia|..]. }
  { split; try done. exact zero_block_ok. intros p _ Hp. lia. }
  destruct C4 as [C4 C4']. exists s5. split.
  { rewrite (bind_ok (reg_meta_copy data) _ s g s4).
    2: { unfold reg_meta_copy. run E0. run E1. run E2. run E3. rewrite (bind_ok _ _ _ _ _ E4). cbn [negb]. unfold ret. f_equal.
         apply inum_round_trip. lia. }
    unfold reg_data_copy. rewrite (bind_ok (let! _ := _ in ret tt) _ s4 tt s5); [done|]. by rewrite (bind_ok _ _ _ _ _ E5). }
  split; [done|]. split; [by rewrite C4', F4|]. split; [by rewrite C4, B4|]. split.
  - split; [by rewrite C5, D4, D3|]. split.
    + eapply indexed_ext; [exact X4|]. intros i Hi. apply C6. intros k' _ E. by apply (blk_idx_ne b k' i).
    + intros p Hp. apply C7; [done|]. by apply data_blocks_bound.
  - assert (Fr : mk_frame (λ x, b ≤ x < b + Z.of_nat (file_blocks q)) (λ x, x = g) s s4).
    { eapply mk_frame_trans; [|exact Fr4]. eapply (mk_frame_weaken (λ _, False) (λ x, x = g)); [|done|done].
      eapply mk_frame_trans; [|exact Fr3]. eapply mk_frame_trans; [|exact Fr2]. exact Fr1. }
    eapply mk_frame_trans; [exact Fr|]. split; [|done]. intros x Hx. apply C6. intros k' Hk' ->. apply Hx. by apply blk_at_range.
Qed.

(** ** Directory blocks *)

Definition pad_name (n : list Z) : list Z := blit 0 n (replicate DLENGTH 0).
(** The entries of a block are [l], in order; the others have no name. *)
Record slots_hold (d : list Z) (l : list (list Z * Z)) : Prop := {
  sh_block : is_block d;
  sh_entry j n c : l !! j = Some (n, c) → dt_inum (S j) d = c ∧ dt_name (S j) d = pad_name n;
  sh_free j : (length l ≤ j < 31)%nat → dt_name (S j) d = replicate DLENGTH 0;
}.
Definition dir_holds (d : list Z) (l : list (list Z * Z)) : Prop := slots_hold d l ∧ dt_cnt d = Z.of_nat (length l).

Definition name_ok (n : list Z) : Prop := (length n ≤ DLENGTH)%nat ∧ n ≠ [] ∧ Forall (λ c, 0 < c < 256) n.
Lemma name_bytes n : name_ok n → bytes_ok n.
Proof. intros (_ & _ & H). eapply Forall_impl; [exact H|]. cbn. lia. Qed.
Lemma pad_name_length n : name_ok n → length (pad_name n) = DLENGTH.
Proof. intros (H & _). unfold pad_name. rewrite length_blit; rewrite length_replicate; [done|lia]. Qed.
Lemma pad_name_bytes n : name_ok n → bytes_ok (pad_name n).
Proof. intros H. apply bytes_ok_blit; [by apply name_bytes|auto with bytes]. Qed.
Lemma entry_length c n : name_ok n → length (dentry_bytes c n) = SZDENTRY.
Proof. intros H. unfold dentry_bytes. rewrite length_app, length_le_split. fold (pad_name n). by rewrite pad_name_length. Qed.

Lemma slot_parts_ext j d d' : (∀ i, (32 * j ≤ i < 32 * j + 32)%nat → d !! i = d' !! i) → dt_inum j d = dt_inum j d' ∧ dt_name j d = dt_name j d'.
Proof.
  intros H. split.
  - unfold dt_inum. apply get_at_ext. intros i Hi. apply H. unfold SZDENTRY in Hi. lia.
  - unfold dt_name. apply list_eq. intros i. destruct (decide (i < DLENGTH)%nat) as [Hi|Hi].
    + rewrite !lookup_take_lt, !lookup_drop by done. apply H. unfold SZDENTRY, DLENGTH in *. lia.
    + rewrite !lookup_take_ge by lia. done.
Qed.
Lemma put_entry_same j c n d : name_ok n → 0 ≤ c < 2 ^ 32 → (32 * j + 32 ≤ length d)%nat →
  dt_inum j (put_entry j c n d) = c ∧ dt_name j (put_entry j c n d) = pad_name n.
Proof.
  intros Hn Hc Hj. pose proof (entry_length c n Hn) as Hl. unfold SZDENTRY in Hl. unfold put_entry, dt_inum, dt_name, get_at, blit, SZDENTRY.
  set (A := take (32 * j) d). assert (HA : length A = (32 * j)%nat) by (unfold A; rewrite length_take; lia).
  rewrite drop_app_length' by done. unfold dentry_bytes. fold (pad_name n). pose proof (pad_name_length n Hn) as Hp. split.
  - rewrite <- app_assoc, take_app_length' by (by rewrite length_le_split). rewrite le_combine_split. apply Z.mod_small. exact Hc.
  - rewrite <- drop_drop, drop_app_length' by done. rewrite <- app_assoc, drop_app_length' by (by rewrite length_le_split).
    by rewrite take_app_length'.
Qed.
Lemma put_entry_block j c n d : name_ok n → is_block d → (1 ≤ j ≤ 31)%nat → is_block (put_entry j c n d).
Proof.
  intros Hn [Hl Hb] Hj. pose proof (entry_length c n Hn). unfold put_entry. split.
  - rewrite length_blit; [done|]. rewrite Hl. unfold BSIZE, SZDENTRY in *. lia.
  - apply bytes_ok_blit; [|done]. unfold dentry_bytes. apply bytes_ok_app. split; [apply bytes_ok_le_split|by apply pad_name_bytes].
Qed.
Lemma put_entry_other j j' c n d : name_ok n → j' ≠ j → (32 * j + 32 ≤ length d)%nat →
  dt_inum j' (put_entry j c n d) = dt_inum j' d ∧ dt_name j' (put_entry j c n d) = dt_name j' d.
Proof.
  intros Hn Hne Hj. pose proof (entry_length c n Hn) as He. unfold SZDENTRY in He. apply slot_parts_ext. intros i Hi. unfold put_entry, SZDENTRY.
  rewrite lookup_blit by lia. rewrite decide_False by lia. done.
Qed.
Lemma slots_put d l n c : slots_hold d l → (length l < 31)%nat → name_ok n → 0 ≤ c < 2 ^ 32 →
  slots_hold (put_entry (S (length l)) c n d) (l ++ [(n, c)]).
Proof.
  intros [H1 H2 H3] Hl Hn Hc. assert (Hr : (32 * S (length l) + 32 ≤ length d)%nat) by (rewrite (proj1 H1); unfold BSIZE; lia). split.
  - apply put_entry_block; [done|done|lia].
  - intros j n' c' [Hj|[Hj E]]%lookup_app_Some.
    + pose proof (lookup_lt_Some _ _ _ Hj). destruct (put_entry_other (S (length l)) (S j) c n d Hn ltac:(lia) Hr) as [-> ->]. by apply H2.
    + apply list_lookup_singleton_Some in E as [Ej [= <- <-]]. assert (j = length l) as -> by lia. by apply put_entry_same.
  - intros j. rewrite length_app. cbn [length]. intros Hj. destruct (put_entry_other (S (length l)) (S j) c n d Hn ltac:(lia) Hr) as [_ ->]. apply H3. lia.
Qed.
Lemma slots_count d l v : slots_hold d l → (length l ≤ 31)%nat → 0 ≤ v < 2 ^ 64 → slots_hold (put_at 8 0 v d) l ∧ dt_cnt (put_at 8 0 v d) = v.
Proof.
  intros [[Hl Hb] H2 H3] Hll Hv. assert (Hr : (0 + 8 ≤ length d)%nat) by (rewrite Hl; unfold BSIZE; lia).
  assert (Hs : ∀ j, dt_inum (S j) (put_at 8 0 v d) = dt_inum (S j) d ∧ dt_name (S j) (put_at 8 0 v d) = dt_name (S j) d).
  { intros j. apply slot_parts_ext. intros i Hi. rewrite lookup_put_at by done. by rewrite decide_False by lia. }
  split; [split|].
  - split; [by rewrite length_put_at|auto with bytes].
  - intros j n c Hj. destruct (Hs j) as [-> ->]. by apply H2.
  - intros j Hj. destruct (Hs j) as [_ ->]. by apply H3.
  - unfold dt_cnt. rewrite get_put_same by done. apply Z.mod_small. done.
Qed.
(** [count_entry] behind [put_entry]. *)
Lemma dir_put d l n c : dir_holds d l → (length l < 31)%nat → name_ok n → 0 ≤ c < 2 ^ 32 →
  dir_holds (count_entry (put_entry (S (length l)) c n d)) (l ++ [(n, c)]).
Proof.
  intros [H Hcnt] Hl Hn Hc. pose proof (slots_put d l n c H Hl Hn Hc) as H'. unfold count_entry.
  assert (E : get_at 8 0 (put_entry (S (length l)) c n d) = Z.of_nat (length l)).
  { rewrite <- Hcnt. unfold dt_cnt. apply get_at_ext. intros i Hi. pose proof (entry_length c n Hn) as He. unfold put_entry, SZDENTRY in *.
    rewrite lookup_blit by (rewrite (proj1 (sh_block _ _ H)); unfold BSIZE; lia). by rewrite decide_False by lia. }
  rewrite E, u64_id by lia. destruct (slots_count _ _ (Z.of_nat (length l) + 1) H') as [H1 H2]; [rewrite length_app; cbn; lia|lia|].
  split; [done|]. rewrite H2, length_app. cbn. lia.
Qed.
Lemma zero_holds : dir_holds zero_block [].
Proof.
  split; [split|reflexivity]; [exact zero_block_ok|by intros j n c [=]|]. intros j Hj. unfold dt_name, zero_block.
  rewrite drop_replicate, take_replicate. f_equal. unfold SZDENTRY, DLENGTH, BSIZE. cbn in Hj. lia.
Qed.
Lemma dot_ok : name_ok [DOT].
Proof. split; [unfold DLENGTH; cbn; lia|]. split; [done|]. by repeat constructor. Qed.
Lemma dots_ok : name_ok [DOT; DOT].
Proof. split; [unfold DLENGTH; cbn; lia|]. split; [done|]. by repeat constructor. Qed.
(** The entries every directory starts with. *)
Lemma dots_holds g p : 0 ≤ g < 2 ^ 32 → 0 ≤ p < 2 ^ 32 →
  dir_holds (put_at 8 0 2 (put_entry 2 p [DOT; DOT] (put_entry 1 g [DOT] zero_block))) [([DOT], g); ([DOT; DOT], p)].
Proof.
  intros Hg Hp. destruct zero_holds as [H _].
  pose proof (slots_put zero_block [] [DOT] g H ltac:(cbn; lia) dot_ok Hg) as H1.
  pose proof (slots_put _ _ [DOT; DOT] p H1 ltac:(cbn; lia) dots_ok Hp) as H2. cbn [length app] in *.
  destruct (slots_count _ _ 2 H2) as [H3 H4]; [cbn; lia|lia|]. by split.
Qed.

(** ** Host directories *)

Definition sub_dirs (es : list dirent) : list (list Z * list dirent) :=
  omap (λ e, match e with HDir n sub => if is_dots n then None else Some (n, sub) | _ => None end) es.
Definition reg_files (es : list dirent) : list (list Z * list Z) :=
  omap (λ e, match e with HReg n d => Some (n, d) | _ => None end) es.
(** Sums over the entries of a directory. *)
Definition sum_of {A} (f : A → nat) (l : list A) : nat := foldr (λ x a, (f x + a)%nat) 0%nat l.
Lemma sum_of_app {A} (f : A → nat) l1 l2 : sum_of f (l1 ++ l2) = (sum_of f l1 + sum_of f l2)%nat.
Proof. induction l1 as [|x l1 IH]; [done|]. cbn. fold (sum_of f (l1 ++ l2)) (sum_of f l1). rewrite IH. lia. Qed.
(** The blocks of the entries themselves. *)
Definition dir_q (es : list dirent) : nat := data_blocks (32 * (1 + length es)).
(** The inodes and the blocks an entry takes, with all that is below it. *)
Fixpoint ent_inodes (e : dirent) : nat :=
  match e with
  | HReg _ _ => 1
  | HDir n sub => if is_dots n then 0 else S (foldr (λ e a, ent_inodes e + a)%nat 0%nat sub)
  | HOther _ => 0
  end.
Fixpoint ent_blocks (e : dirent) : nat :=
  match e with
  | HReg _ d => file_blocks (data_blocks (length d))
  | HDir n sub => if is_dots n then 0 else file_blocks (dir_q sub) + foldr (λ e a, ent_blocks e + a)%nat 0%nat sub
  | HOther _ => 0
  end.
Fixpoint ent_depth (e : dirent) : nat :=
  match e with HDir n sub => S (foldr (λ e a, Nat.max (ent_depth e) a) 0%nat sub) | _ => 0 end.
Definition dir_inodes (es : list dirent) : nat := S (sum_of ent_inodes es).
Definition dir_blocks (es : list dirent) : nat := file_blocks (dir_q es) + sum_of ent_blocks es.
Definition dir_depth (es : list dirent) : nat := S (foldr (λ e a, Nat.max (ent_depth e) a) 0%nat es).
(** The names have the length and the files the size mkfs accepts, and the entries of
    each directory fit into the blocks that mkfs computes from their number. *)
Definition dir_room (es : list dirent) : Prop :=
  (dir_q es ≤ MAXQ)%nat ∧ (2 + length (sub_dirs es) + length (reg_files es) ≤ 31 * dir_q es)%nat.
Fixpoint ent_ok (e : dirent) : Prop :=
  name_ok (d_name e) ∧
  match e with
  | HReg _ d => bytes_ok d ∧ (data_blocks (length d) ≤ MAXQ)%nat
  | HDir n sub => is_dots n = true ∨ dir_room sub ∧ foldr (λ e P, ent_ok e ∧ P) True sub
  | HOther _ => True
  end.
Definition dir_ok (es : list dirent) : Prop := dir_room es ∧ foldr (λ e P, ent_ok e ∧ P) True es.
Definition ents_ok (es : list dirent) : Prop := foldr (λ e P, ent_ok e ∧ P) True es.

Definition file_size (x : list Z * list Z) : nat := file_blocks (data_blocks (length x.2)).
Definition sub_inodes (x : list Z * list dirent) : nat := dir_inodes x.2.
Definition sub_blocks (x : list Z * list dirent) : nat := dir_blocks x.2.
Lemma sum_of_cons {A} (f : A → nat) x l : sum_of f (x :: l) = (f x + sum_of f l)%nat.
Proof. done. Qed.
Lemma files_reg n d es : reg_files (HReg n d :: es) = (n, d) :: reg_files es.
Proof. done. Qed.
Lemma files_dir n sub es : reg_files (HDir n sub :: es) = reg_files es.
Proof. done. Qed.
Lemma files_other n es : reg_files (HOther n :: es) = reg_files es.
Proof. done. Qed.
Lemma dirs_reg n d es : sub_dirs (HReg n d :: es) = sub_dirs es.
Proof. done. Qed.
Lemma dirs_dir n sub es : sub_dirs (HDir n sub :: es) = if is_dots n then sub_dirs es else (n, sub) :: sub_dirs es.
Proof. unfold sub_dirs. cbn. by destruct (is_dots n). Qed.
Lemma dirs_other n es : sub_dirs (HOther n :: es) = sub_dirs es.
Proof. done. Qed.
(** The files come first, then the directories. *)
Lemma ents_inodes es : sum_of ent_inodes es = (length (reg_files es) + sum_of sub_inodes (sub_dirs es))%nat.
Proof.
  induction es as [|e es IH]; [done|]. change (sum_of ent_inodes (e :: es)) with (ent_inodes e + sum_of ent_inodes es)%nat. rewrite IH.
  destruct e as [n d|n sub|n].
  - rewrite files_reg, dirs_reg. cbn [length ent_inodes]. lia.
  - rewrite files_dir, dirs_dir. cbn [ent_inodes]. destruct (is_dots n); [lia|]. rewrite sum_of_cons.
    unfold sub_inodes at 2, dir_inodes. cbn [snd]. fold (sum_of ent_inodes sub). lia.
  - rewrite files_other, dirs_other. cbn [ent_inodes]. lia.
Qed.
Lemma ents_blocks es : sum_of ent_blocks es = (sum_of file_size (reg_files es) + sum_of sub_blocks (sub_dirs es))%nat.
Proof.
  induction es as [|e es IH]; [done|]. change (sum_of ent_blocks (e :: es)) with (ent_blocks e + sum_of ent_blocks es)%nat. rewrite IH.
  destruct e as [n d|n sub|n].
  - rewrite files_reg, dirs_reg, sum_of_cons. cbn [ent_blocks]. unfold file_size at 2. cbn [snd]. lia.
  - rewrite files_dir, dirs_dir. cbn [ent_blocks]. destruct (is_dots n); [lia|]. rewrite sum_of_cons.
    unfold sub_blocks at 2, dir_blocks. cbn [snd]. fold (sum_of ent_blocks sub). lia.
  - rewrite files_other, dirs_other. cbn [ent_blocks]. lia.
Qed.
Lemma reg_files_ok es n d : ents_ok es → (n, d) ∈ reg_files es → name_ok n ∧ bytes_ok d ∧ (data_blocks (length d) ≤ MAXQ)%nat.
Proof.
  induction es as [|e es IH]; intros H Hin; [by apply elem_of_nil in Hin|]. destruct H as [He H].
  destruct e as [n' d'|n' sub|n']; [rewrite files_reg in Hin|by apply IH..].
  apply elem_of_cons in Hin as [[= -> ->]|Hin]; [|by apply IH]. by destruct He as (? & ? & ?).
Qed.
Lemma sub_dirs_ok es n sub : ents_ok es → (n, sub) ∈ sub_dirs es → name_ok n ∧ dir_ok sub ∧ (dir_depth sub < dir_depth es)%nat.
Proof.
  induction es as [|e es IH]; intros H Hin; [by apply elem_of_nil in Hin|]. destruct H as [He H].
  assert (IH' : (n, sub) ∈ sub_dirs es → name_ok n ∧ dir_ok sub ∧ (dir_depth sub < dir_depth (e :: es))%nat).
  { intros H'. destruct (IH H H') as (? & ? & Hd). split; [done|]. split; [done|]. unfold dir_depth in *. cbn [foldr]. lia. }
  destruct e as [n' d'|n' sub'|n']; [by apply IH'|rewrite dirs_dir in Hin|by apply IH'].
  destruct (is_dots n') eqn:Ed; [by apply IH'|]. apply elem_of_cons in Hin as [[= -> ->]|Hin]; [|by apply IH'].
  destruct He as (Hn & [He|[Hr He]]); [cbn in *; congruence|]. split; [done|]. split; [by split|]. unfold dir_depth. cbn [foldr ent_depth]. lia.
Qed.

(** The numbers of the entries: the files are numbered one by one, a directory leaves
    room for what is below it. *)
Fixpoint file_names (fs : list (list Z * list Z)) (g : Z) : list (list Z * Z) :=
  match fs with [] => [] | (n, _) :: fs => (n, g) :: file_names fs (g + 1) end.
Fixpoint dir_names (ds : list (list Z * list dirent)) (g : Z) : list (list Z * Z) :=
  match ds with [] => [] | (n, sub) :: ds => (n, g) :: dir_names ds (g + Z.of_nat (dir_inodes sub)) end.
Lemma length_file_names fs g : length (file_names fs g) = length fs.
Proof. revert g. induction fs as [|[n d] fs IH]; intros g; [done|]. cbn. by rewrite IH. Qed.
Lemma length_dir_names ds g : length (dir_names ds g) = length ds.
Proof. revert g. induction ds as [|[n d] ds IH]; intros g; [done|]. cbn. by rewrite IH. Qed.
Lemma dir_names_take t ds g : dir_names (take t ds) g = take t (dir_names ds g).
Proof. revert t g. induction ds as [|[n d] ds IH]; intros [|t] g; [done..|]. cbn. by rewrite IH. Qed.
Lemma dir_names_drop t ds g : dir_names (drop t ds) (g + Z.of_nat (sum_of sub_inodes (take t ds))) = drop t (dir_names ds g).
Proof.
  revert t g. induction ds as [|[n d] ds IH]; intros [|t] g; try done; cbn [drop dir_names take].
  - cbn. by rewrite Z.add_0_r.
  - rewrite <- IH. f_equal. rewrite sum_of_cons. unfold sub_inodes at 1. cbn [snd]. lia.
Qed.

(** ** The files of a directory *)

Fixpoint files_built (D : Z → dinode) (im : Z → list Z) (fs : list (list Z * list Z)) (g b : Z) : Prop :=
  match fs with
  | [] => True
  | (n, d) :: fs' => file_built D im d g b ∧ files_built D im fs' (g + 1) (b + Z.of_nat (file_size (n, d)))
  end.
Lemma files_built_ext D D' im im' fs g b : files_built D im fs g b →
  (∀ x, g ≤ x < g + Z.of_nat (length fs) → D' x = D x) →
  (∀ x, b ≤ x < b + Z.of_nat (sum_of file_size fs) → im' x = im x) → files_built D' im' fs g b.
Proof.
  revert g b. induction fs as [|[n d] fs IH]; intros g b H HD Hi; [done|]. destruct H as [H1 H2]. rewrite sum_of_cons in Hi.
  cbn [length] in HD. split.
  - eapply file_built_ext; [exact H1|apply HD; lia|]. intros x Hx. apply Hi. unfold file_size. cbn [snd]. lia.
  - apply IH; [done|intros x Hx; apply HD; lia|]. intros x Hx. apply Hi. lia.
Qed.

Lemma set_nlink_twice v w x : set_nlink v (set_nlink w x) = set_nlink v x.
Proof. done. Qed.
Lemma scan_entries_spec es : ∀ g0 ns cnt s, let fs := reg_files es in let g := free_inum s in let b := bfreeno s in
  mk_inv s → 0 ≤ g0 < g → ents_ok es → g + Z.of_nat (length fs) ≤ MAX_FILE_NUMBER →
  b + Z.of_nat (sum_of file_size fs) ≤ MAX_DATA_BLOCKNO → 0 ≤ cnt → cnt + Z.of_nat (length es) < 2 ^ 32 →
  0 ≤ di_nlink (di s g0) → di_nlink (di s g0) + Z.of_nat (length (sub_dirs es)) < 2 ^ 32 →
  ∃ s', scan_entries (inum_to_dinode g0) es ns cnt s =
      Ok (MkNames (child_dirs ns ++ sub_dirs es) (namei ns ++ file_names fs g), cnt + Z.of_nat (length es)) s' ∧ mk_inv s' ∧
    free_inum s' = g + Z.of_nat (length fs) ∧ bfreeno s' = b + Z.of_nat (sum_of file_size fs) ∧
    di s' g0 = set_nlink (di_nlink (di s g0) + Z.of_nat (length (sub_dirs es))) (di s g0) ∧
    files_built (di s') (img_at s') fs g b ∧
    mk_frame (λ x, b ≤ x < b + Z.of_nat (sum_of file_size fs)) (λ x, x = g0 ∨ g ≤ x < g + Z.of_nat (length fs)) s s'.
Proof.
  induction es as [|e es IH]; intros g0 ns cnt s fs g b I Hg0 Hok HM HB Hc0 Hc Hl0 Hl.
  { exists s. split; [cbn; rewrite !app_nil_r, Z.add_0_r; by destruct ns|]. cbn in *. split; [done|]. split; [unfold g; lia|]. split; [unfold b; lia|].
    split; [rewrite Z.add_0_r; by destruct (di s g0)|]. split; [done|apply mk_frame_refl]. }
  destruct Hok as [He Hok]. assert (Hn : name_ok (d_name e)) by (by destruct e, He). destruct Hn as [Hn _].
  cbn [length] in Hc. cbn [scan_entries]. destruct (Z.ltb_spec (Z.of_nat DLENGTH) (Z.of_nat (length (d_name e)))); [lia|].
  assert (Ecnt : u32 (cnt + 1) = cnt + 1) by (apply u32_id; lia).
  destruct e as [n d|n sub|n].
  - unfold fs in *. clear fs. rewrite files_reg, dirs_reg in *. rewrite sum_of_cons in *. cbn [length] in HM. destruct He as (_ & Hd & Hq).
    change (file_size (n, d)) with (file_blocks (data_blocks (length d))) in *. set (fb := file_blocks (data_blocks (length d))) in *.
    destruct (reg_copy d s I Hd Hq) as (s1 & E1 & I1 & F1 & B1 & Hfile & Fr1); [fold g; lia|fold b fb; lia|]. fold g b fb in E1, F1, B1, Hfile, Fr1.
    assert (Hdg : di s1 g0 = di s g0) by (apply Fr1; [lia|fold g; lia]).
    destruct (IH g0 (MkNames (child_dirs ns) (namei ns ++ [(n, g)])) (cnt + 1) s1 I1) as (s2 & E2 & I2 & F2 & B2 & D2 & Hfs & Fr2);
      [lia|done|lia|lia|lia|lia|by rewrite Hdg|by rewrite Hdg|].
    rewrite F1, B1, Hdg in *. exists s2. split.
    { apply bind_ok_inv in E1 as (i1 & s0 & Ea & E1). apply bind_ok_inv in E1 as ([] & s0' & Eb & [= -> ->]).
      rewrite (bind_ok _ _ _ (MkNames (child_dirs ns) (namei ns ++ [(n, g)])) s1) by (by rewrite (bind_ok _ _ _ _ _ Ea), (bind_ok _ _ _ _ _ Eb)).
      rewrite Ecnt, E2. cbn [child_dirs namei file_names length]. rewrite <- app_assoc. do 2 f_equal. lia. }
    split; [done|]. split; [rewrite F2; cbn [length]; lia|]. split; [rewrite B2; lia|]. split; [done|]. split.
    + split; [|done]. eapply file_built_ext; [exact Hfile|apply Fr2; [unfold g; pose proof (mi_inum _ I); lia|lia]|]. intros x Hx. apply Fr2. fold fb in Hx. lia.
    + eapply mk_frame_trans; (eapply mk_frame_weaken; [first [exact Fr1|exact Fr2]|intros x; cbn [length]; lia..]).
  - unfold fs in *. clear fs. rewrite files_dir in *. rewrite dirs_dir in *. destruct (is_dots n) eqn:Ed.
    + destruct (IH g0 ns (cnt + 1) s I) as (s2 & E2 & R); [done|done|done|done|lia|lia|done|done|]. exists s2. split; [|exact R].
      rewrite (bind_ok _ _ _ ns s) by done. rewrite Ecnt, E2. do 2 f_equal. cbn [length]. lia.
    + cbn [length] in Hl. destruct (di_mod_step g0 (λ x, set_nlink (u32 (di_nlink x + 1)) x) s I Hg0) as (s1 & E1 & I1 & B1 & F1 & D1 & _ & Fr1).
      { apply wf_nlink; [apply I|apply u32_bound]. }
      rewrite u32_id in D1 by lia. assert (En : di_nlink (di s1 g0) = di_nlink (di s g0) + 1) by (by rewrite D1).
      destruct (IH g0 (MkNames (child_dirs ns ++ [(n, sub)]) (namei ns)) (cnt + 1) s1 I1) as (s2 & E2 & I2 & F2 & B2 & D2 & Hfs & Fr2);
        [by rewrite F1|done|by rewrite F1|by rewrite B1|lia|lia|lia|lia|].
      rewrite F1, B1 in *. fold g b in F2, B2, Hfs, Fr2. exists s2. split.
      { rewrite (bind_ok _ _ _ (MkNames (child_dirs ns ++ [(n, sub)]) (namei ns)) s1) by (by rewrite (bind_ok _ _ _ _ _ E1)).
        rewrite Ecnt, E2. cbn [child_dirs namei length]. rewrite <- app_assoc. do 2 f_equal. lia. }
      split; [done|]. split; [done|]. split; [done|]. split; [rewrite D2, En, D1, set_nlink_twice; f_equal; cbn [length]; lia|]. split; [done|].
      eapply mk_frame_trans; [|exact Fr2]. eapply mk_frame_weaken; [exact Fr1|done|]. by left.
  - unfold fs in *. clear fs. rewrite files_other, dirs_other in *.
    destruct (IH g0 ns (cnt + 1) s I) as (s2 & E2 & R); [done|done|done|done|lia|lia|done|done|]. exists s2. split; [|exact R].
    rewrite (bind_ok _ _ _ ns s) by done. rewrite Ecnt, E2. do 2 f_equal. cbn [length]. lia.
Qed.

(** ** Directories *)

(** The entries of a directory: itself, its parent, its directories and its files. *)
Definition dir_list (es : list dirent) (pinum g : Z) : list (list Z * Z) :=
  ([DOT], g) :: ([DOT; DOT], pinum) ::
    dir_names (sub_dirs es) (g + 1 + Z.of_nat (length (reg_files es))) ++ file_names (reg_files es) (g + 1).
(** Inode [g] is a directory with these entries, in the blocks from [b] on. *)
Definition dir_head (D : Z → dinode) (im : Z → list Z) (pinum : Z) (es : list dirent) (g b : Z) : Prop :=
  let q := dir_q es in
  D g = MkDi DIRECTORY 0 (2 + Z.of_nat (length (sub_dirs es))) (1024 * Z.of_nat q) (layout_ib b q) ∧ indexed im b q ∧
  ∀ k, (k < q)%nat → dir_holds (im (blk_at b k)) (take 31 (drop (31 * k) (dir_list es pinum g))).
(** The directory with all that is below it.  From inode [g] and block [b] on follow
    the files, the blocks of the directory itself, and its directories. *)
Inductive dir_built (D : Z → dinode) (im : Z → list Z) : Z → list dirent → Z → Z → Prop :=
| DirBuilt pinum es g b :
    let b1 := b + Z.of_nat (sum_of file_size (reg_files es)) in
    let g2 := g + 1 + Z.of_nat (length (reg_files es)) in
    let b2 := b1 + Z.of_nat (file_blocks (dir_q es)) in
    files_built D im (reg_files es) (g + 1) b →
    dir_head D im pinum es g b1 →
    (∀ i n sub, sub_dirs es !! i = Some (n, sub) →
      dir_built D im g sub (g2 + Z.of_nat (sum_of sub_inodes (take i (sub_dirs es)))) (b2 + Z.of_nat (sum_of sub_blocks (take i (sub_dirs es))))) →
    dir_built D im pinum es g b.

Lemma dir_head_ext D D' im im' pinum es g b : dir_head D im pinum es g b → D' g = D g →
  (∀ x, b ≤ x < b + Z.of_nat (file_blocks (dir_q es)) → im' x = im x) → dir_head D' im' pinum es g b.
Proof.
  intros (H1 & H2 & H3) ED Ei. split; [by rewrite ED|]. split.
  - eapply indexed_ext; [exact H2|]. intros i Hi. apply Ei, idx_at_range, Hi.
  - intros k Hk. rewrite Ei by (by apply blk_at_range). by apply H3.
Qed.
Lemma sum_of_take {A} (f : A → nat) l i x : l !! i = Some x → (sum_of f (take i l) + f x ≤ sum_of f l)%nat.
Proof.
  intros Hi. rewrite <- (take_drop_middle l i x Hi) at 2. rewrite sum_of_app, sum_of_cons. lia.
Qed.
Lemma dir_built_ext D D' im im' pinum es g b : dir_built D im pinum es g b →
  (∀ x, g ≤ x < g + Z.of_nat (dir_inodes es) → D' x = D x) →
  (∀ x, b ≤ x < b + Z.of_nat (dir_blocks es) → im' x = im x) → dir_built D' im' pinum es g b.
Proof.
  induction 1 as [pinum es g b b1 g2 b2 Hf Hh Hs IH]. unfold dir_inodes, dir_blocks. rewrite ents_inodes, ents_blocks. intros HD Hi.
  constructor.
  - eapply files_built_ext; [exact Hf|intros x Hx; apply HD; lia|intros x Hx; apply Hi; lia].
  - eapply dir_head_ext; [exact Hh|apply HD; lia|intros x Hx; apply Hi; unfold b1 in *; lia].
  - intros i n sub Hsub. pose proof (sum_of_take sub_inodes _ _ _ Hsub) as H1. pose proof (sum_of_take sub_blocks _ _ _ Hsub) as H2.
    unfold sub_inodes at 2 in H1. unfold sub_blocks at 2 in H2. cbn [snd] in H1, H2. apply (IH i n sub Hsub).
    + intros x Hx. apply HD. unfold g2 in *. lia.
    + intros x Hx. apply Hi. unfold b1, b2 in *. lia.
Qed.

(** The directories [ds] from inode [g] and block [b] on, as the children of [pinum]. *)
Definition dirs_built (D : Z → dinode) (im : Z → list Z) (pinum : Z) (ds : list (list Z * list dirent)) (g b : Z) : Prop :=
  ∀ i n sub, ds !! i = Some (n, sub) →
    dir_built D im pinum sub (g + Z.of_nat (sum_of sub_inodes (take i ds))) (b + Z.of_nat (sum_of sub_blocks (take i ds))).
Lemma dirs_built_ext D D' im im' pinum ds g b : dirs_built D im pinum ds g b →
  (∀ x, g ≤ x < g + Z.of_nat (sum_of sub_inodes ds) → D' x = D x) →
  (∀ x, b ≤ x < b + Z.of_nat (sum_of sub_blocks ds) → im' x = im x) → dirs_built D' im' pinum ds g b.
Proof.
  intros H HD Hi i n sub Hsub. pose proof (sum_of_take sub_inodes _ _ _ Hsub) as H1. pose proof (sum_of_take sub_blocks _ _ _ Hsub) as H2.
  unfold sub_inodes at 2 in H1. unfold sub_blocks at 2 in H2. cbn [snd] in H1, H2. eapply dir_built_ext; [exact (H i n sub Hsub)|..].
  - intros x Hx. apply HD. lia.
  - intros x Hx. apply Hi. lia.
Qed.
Lemma dirs_built_cons D im pinum n sub ds g b : dir_built D im pinum sub g b →
  dirs_built D im pinum ds (g + Z.of_nat (dir_inodes sub)) (b + Z.of_nat (dir_blocks sub)) → dirs_built D im pinum ((n, sub) :: ds) g b.
Proof.
  intros H1 H2 [|i] n' sub' Hi.
  - injection Hi as <- <-. cbn. by rewrite !Z.add_0_r.
  - specialize (H2 i n' sub' Hi). cbn [take]. rewrite !sum_of_cons. unfold sub_inodes at 1, sub_blocks at 1. cbn [snd].
    by rewrite !Nat2Z.inj_add, !Z.add_assoc.
Qed.
Lemma dirs_built_app D im pinum ds1 ds2 g b : dirs_built D im pinum ds1 g b →
  dirs_built D im pinum ds2 (g + Z.of_nat (sum_of sub_inodes ds1)) (b + Z.of_nat (sum_of sub_blocks ds1)) → dirs_built D im pinum (ds1 ++ ds2) g b.
Proof.
  intros H1 H2 i n sub [Hi|[Hle Hi]]%lookup_app_Some.
  - rewrite take_app_le by (apply lookup_lt_Some in Hi; lia). by eapply H1.
  - rewrite take_app_ge by lia. rewrite !sum_of_app, !Nat2Z.inj_add, !Z.add_assoc. by eapply H2.
Qed.

(** The copies of the child directories. *)
Section entries.
Context (dcopy : list dirent → Z → MK Z) (g0 : Z) (good : list dirent → Prop).
Hypothesis Hcopy : ∀ sub s, good sub → mk_inv s → free_inum s + Z.of_nat (dir_inodes sub) ≤ MAX_FILE_NUMBER →
  bfreeno s + Z.of_nat (dir_blocks sub) ≤ MAX_DATA_BLOCKNO →
  ∃ s', dcopy sub g0 s = Ok (free_inum s) s' ∧ mk_inv s' ∧ free_inum s' = free_inum s + Z.of_nat (dir_inodes sub) ∧
    bfreeno s' = bfreeno s + Z.of_nat (dir_blocks sub) ∧ dir_built (di s') (img_at s') g0 sub (free_inum s) (bfreeno s) ∧
    mk_frame (λ x, bfreeno s ≤ x < bfreeno s + Z.of_nat (dir_blocks sub)) (λ x, free_inum s ≤ x < free_inum s + Z.of_nat (dir_inodes sub)) s s'.
Definition all_good (ds : list (list Z * list dirent)) : Prop := ∀ n sub, (n, sub) ∈ ds → name_ok n ∧ good sub.

Lemma put_dirs_spec n ds dts l s : let t := take n ds in (length l + n = 31)%nat → all_good ds → dir_holds dts l → mk_inv s →
  free_inum s + Z.of_nat (sum_of sub_inodes t) ≤ MAX_FILE_NUMBER → bfreeno s + Z.of_nat (sum_of sub_blocks t) ≤ MAX_DATA_BLOCKNO →
  ∃ s' dts', put_dirs dcopy g0 n ds dts s = Ok (drop n ds, (n - length ds)%nat, dts') s' ∧
    dir_holds dts' (l ++ dir_names t (free_inum s)) ∧ mk_inv s' ∧
    free_inum s' = free_inum s + Z.of_nat (sum_of sub_inodes t) ∧ bfreeno s' = bfreeno s + Z.of_nat (sum_of sub_blocks t) ∧
    dirs_built (di s') (img_at s') g0 t (free_inum s) (bfreeno s) ∧
    mk_frame (λ x, bfreeno s ≤ x < bfreeno s + Z.of_nat (sum_of sub_blocks t)) (λ x, free_inum s ≤ x < free_inum s + Z.of_nat (sum_of sub_inodes t)) s s'.
Proof.
  revert ds dts l s. induction n as [|n IH]; intros ds dts l s t Hln Hgood Hd I HM HB.
  { exists s, dts. unfold t. rewrite take_0. cbn [dir_names sum_of foldr]. rewrite app_nil_r, !Z.add_0_r. split_and!; try done; by destruct ds. }
  destruct ds as [|[nm sub] ds].
  { exists s, dts. cbn. rewrite app_nil_r, !Z.add_0_r. split_and!; try done. }
  unfold t in *. clear t. cbn [take] in *. rewrite !sum_of_cons in *. change (sub_inodes (nm, sub)) with (dir_inodes sub) in *.
  change (sub_blocks (nm, sub)) with (dir_blocks sub) in *. destruct (Hgood nm sub ltac:(by left)) as [Hn Hsub].
  destruct (Hcopy sub s Hsub I ltac:(lia) ltac:(lia)) as (s1 & E1 & I1 & F1 & B1 & Hbuilt & Fr1). cbn [put_dirs]. run E1.
  pose proof (mi_inum _ I) as Hin. mknum.
  pose proof (dir_put dts l nm (free_inum s) Hd ltac:(lia) Hn ltac:(lia)) as Hd1.
  replace (S DENTRY_MAXCNT_PER_BLOCK - S n)%nat with (S (length l)) by (change DENTRY_MAXCNT_PER_BLOCK with 31%nat; lia).
  destruct (IH ds _ (l ++ [(nm, free_inum s)]) s1 ltac:(rewrite length_app; cbn; lia) (λ n' s' H', Hgood n' s' (list_elem_of_further _ _ _ H')) Hd1 I1)
    as (s2 & dts2 & E2 & Hd2 & I2 & F2 & B2 & Hbs & Fr2); [lia|lia|].
  rewrite F1, B1 in *. exists s2, dts2. split; [rewrite E2; done|]. split; [by rewrite <- app_assoc in Hd2|]. split; [done|].
  split; [lia|]. split; [lia|]. split.
  - apply dirs_built_cons; [|done]. eapply dir_built_ext; [exact Hbuilt|intros x Hx; apply Fr2; lia|intros x Hx; apply Fr2; lia].
  - eapply mk_frame_trans; (eapply mk_frame_weaken; [first [exact Fr1|exact Fr2]|intros x Hx; cbv beta in Hx |- *; lia..]).
Qed.
Lemma put_names_spec n fs dts l : (length l + n = 31)%nat → (∀ x, x ∈ fs → name_ok x.1 ∧ 0 ≤ x.2 < 2 ^ 32) → dir_holds dts l →
  ∃ dts', put_names n fs dts = (drop n fs, dts') ∧ dir_holds dts' (l ++ take n fs).
Proof.
  revert fs dts l. induction n as [|n IH]; intros fs dts l Hln Hf Hd.
  { exists dts. rewrite app_nil_r. by destruct fs. }
  destruct fs as [|[nm c] fs]; [exists dts; by rewrite app_nil_r|]. destruct (Hf (nm, c) ltac:(by left)) as [Hn Hc]. cbn [fst snd] in *.
  pose proof (dir_put dts l nm c Hd ltac:(lia) Hn Hc) as Hd1. cbn [put_names].
  replace (S DENTRY_MAXCNT_PER_BLOCK - S n)%nat with (S (length l)) by (change DENTRY_MAXCNT_PER_BLOCK with 31%nat; lia).
  destruct (IH fs _ (l ++ [(nm, c)]) ltac:(rewrite length_app; cbn; lia) (λ x H', Hf x (list_elem_of_further _ _ _ H')) Hd1) as (dts2 & E2 & Hd2).
  exists dts2. split; [exact E2|]. by rewrite <- app_assoc in Hd2.
Qed.
End entries.

(** ** A directory is copied *)

(** The list of the entries, cut into blocks. *)
Lemma cut_first (R : list (list Z * Z)) a b : take 31 (drop (31 * 0) (a :: b :: R)) = [a; b] ++ take 29 (drop (31 * 0 - 2) R).
Proof. reflexivity. Qed.
Lemma cut_next (R : list (list Z * Z)) a b k : (0 < k)%nat → take 31 (drop (31 * k) (a :: b :: R)) = [] ++ take 31 (drop (31 * k - 2) R).
Proof. intros Hk. replace (31 * k)%nat with (S (S (31 * k - 2))) at 1 by lia. reflexivity. Qed.
Lemma cut_names (DN FN : list (list Z * Z)) c n :
  take n (drop c DN) ++ take (n - length (drop c DN)) (drop (c - length DN) FN) = take n (drop c (DN ++ FN)).
Proof. by rewrite drop_app, take_app. Qed.

(** The state of the copy of directory [g] behind [k] of its blocks: [s4] is the state
    before the first, [b1] the first block, [ds] and [fs] its directories and files. *)
Record dir_copied (g b1 : Z) (q : nat) (ds : list (list Z * list dirent)) (FN L : list (list Z * Z)) (s4 : mkst)
    (k : nat) (ns : names) (s : mkst) : Prop := {
  dc_inv : mk_inv s;
  dc_dirs : child_dirs ns = drop (31 * k - 2) ds;
  dc_names : namei ns = drop (31 * k - 2 - length ds) FN;
  dc_inum : free_inum s = free_inum s4 + Z.of_nat (sum_of sub_inodes (take (31 * k - 2) ds));
  dc_bfree : bfreeno s = bfreeno s4 + Z.of_nat (sum_of sub_blocks (take (31 * k - 2) ds));
  dc_di x : 0 ≤ x → ¬ (free_inum s4 ≤ x < free_inum s) → di s x = di s4 x;
  dc_img y : ¬ (bfreeno s4 ≤ y < bfreeno s) → (∀ k', (k' < q)%nat → y ≠ blk_at b1 k') → img_at s y = img_at s4 y;
  dc_done k' : (k' < k)%nat → dir_holds (img_at s (blk_at b1 k')) (take 31 (drop (31 * k') L));
  dc_built : dirs_built (di s) (img_at s) g (take (31 * k - 2) ds) (free_inum s4) (bfreeno s4);
}.
Lemma sum_of_prefix {A} (f : A → nat) (l : list A) c : (sum_of f (take c l) ≤ sum_of f l)%nat.
Proof. rewrite <- (take_drop c l) at 2. rewrite sum_of_app. lia. Qed.
Lemma sum_of_next {A} (f : A → nat) (l : list A) c n :
  sum_of f (take (c + n) l) = (sum_of f (take c l) + sum_of f (take n (drop c l)))%nat.
Proof. by rewrite <- sum_of_app, take_take_drop. Qed.

Section block.
Context (dcopy : list dirent → Z → MK Z) (good : list dirent → Prop).
Context (g pinum b1 : Z) (q : nat) (ds : list (list Z * list dirent)) (FN : list (list Z * Z)) (s4 : mkst).
Hypothesis Hcopy : ∀ sub s, good sub → mk_inv s → free_inum s + Z.of_nat (dir_inodes sub) ≤ MAX_FILE_NUMBER →
  bfreeno s + Z.of_nat (dir_blocks sub) ≤ MAX_DATA_BLOCKNO →
  ∃ s', dcopy sub g s = Ok (free_inum s) s' ∧ mk_inv s' ∧ free_inum s' = free_inum s + Z.of_nat (dir_inodes sub) ∧
    bfreeno s' = bfreeno s + Z.of_nat (dir_blocks sub) ∧ dir_built (di s') (img_at s') g sub (free_inum s) (bfreeno s) ∧
    mk_frame (λ x, bfreeno s ≤ x < bfreeno s + Z.of_nat (dir_blocks sub)) (λ x, free_inum s ≤ x < free_inum s + Z.of_nat (dir_inodes sub)) s s'.
Hypothesis Hgood : all_good good ds.
Hypothesis HFN : ∀ x, x ∈ FN → name_ok x.1 ∧ 0 ≤ x.2 < 2 ^ 32.
Hypothesis Hnum : 0 ≤ g < 2 ^ 32 ∧ 0 ≤ pinum < 2 ^ 32.
Hypothesis Hb1 : 0 < b1 ∧ b1 + Z.of_nat (file_blocks q) = bfreeno s4 ∧ 0 ≤ free_inum s4.
Hypothesis HM : free_inum s4 + Z.of_nat (sum_of sub_inodes ds) ≤ MAX_FILE_NUMBER.
Hypothesis HB : bfreeno s4 + Z.of_nat (sum_of sub_blocks ds) ≤ MAX_DATA_BLOCKNO.
Let R := dir_names ds (free_inum s4) ++ FN.
Let L := ([DOT], g) :: ([DOT; DOT], pinum) :: R.

Lemma dir_block_step k ns s : (k < q)%nat → dir_copied g b1 q ds FN L s4 k ns s →
  ∃ ns' s', dir_block dcopy g pinum k (blk_at b1 k) ns s = Ok ns' s' ∧ dir_copied g b1 q ds FN L s4 (S k) ns' s'.
Proof.
  intros Hk [C1 C2 C3 C4 C5 C6 C7 C8 C9]. set (c := (31 * k - 2)%nat) in *.
  set (n := if bool_decide (k = 0%nat) then (DENTRY_MAXCNT_PER_BLOCK - 2)%nat else DENTRY_MAXCNT_PER_BLOCK).
  set (l := if bool_decide (k = 0%nat) then [([DOT], g); ([DOT; DOT], pinum)] else []).
  assert (Hn : (length l + n = 31)%nat ∧ (31 * S k - 2 = c + n)%nat ∧ take 31 (drop (31 * k) L) = l ++ take n (drop c R)).
  { unfold n, l, c, L. change DENTRY_MAXCNT_PER_BLOCK with 31%nat. destruct (bool_decide_reflect (k = 0%nat)) as [->|Hk0].
    - split; [done|]. split; [done|]. by rewrite cut_first.
    - split; [done|]. split; [lia|]. by rewrite cut_next by lia. }
  destruct Hn as (Hln & Hc' & Hcut). pose proof (sum_of_next sub_inodes ds c n) as Hi. pose proof (sum_of_next sub_blocks ds c n) as Hbk.
  pose proof (sum_of_prefix sub_inodes ds (c + n)) as Hip. pose proof (sum_of_prefix sub_blocks ds (c + n)) as Hbp.
  set (dts0 := if bool_decide (k = 0%nat) then put_at 8 0 2 (put_entry 2 pinum [DOT; DOT] (put_entry 1 g [DOT] zero_block)) else zero_block).
  assert (Hd0 : dir_holds dts0 l) by (unfold dts0, l; destruct (bool_decide (k = 0%nat)); [apply dots_holds; apply Hnum|apply zero_holds]).
  destruct (put_dirs_spec dcopy g good Hcopy n (drop c ds) dts0 l s Hln) as (s1 & dts1 & E1 & Hd1 & I1 & F1 & B1 & Hbuilt & Fr1);
    [intros n' sub' H'; apply Hgood; by eapply subseteq_drop|done|done|lia|lia|]. cbn zeta in *.
  rewrite dir_names_take, C4, dir_names_drop in Hd1.
  destruct (put_names_spec (n - length (drop c ds)) (drop (c - length ds) FN) dts1 (l ++ take n (drop c (dir_names ds (free_inum s4)))))
    as (dts2 & E2 & Hd2); [| |done|].
  { rewrite length_app, length_take, !length_drop, length_dir_names. lia. }
  { intros x Hx. apply HFN. by eapply subseteq_drop. }
  assert (Hd3 : dir_holds dts2 (take 31 (drop (31 * k) L))).
  { rewrite Hcut. unfold R. rewrite <- cut_names. rewrite <- app_assoc in Hd2. rewrite !length_drop, length_dir_names in *. exact Hd2. }
  pose proof (blk_at_range b1 q k Hk) as Hr. destruct Hb1 as (Hb1p & Hb1e & Hf4).
  exists (MkNames (drop n (drop c ds)) (drop (n - length (drop c ds)) (drop (c - length ds) FN))),
    (set_img (<[blk_at b1 k := dts2]> (img s1)) s1). split.
  { unfold dir_block. fold n dts0. rewrite C2, (bind_ok _ _ _ _ _ E1). cbn [fst snd]. rewrite C3, E2. cbn [fst snd].
    by run (write_block_ok (blk_at b1 k) dts2 s1 ltac:(lia)). }
  assert (Hlow : ∀ y, ¬ (bfreeno s4 ≤ y < bfreeno s1) → img_at s1 y = img_at s y) by (intros y Hy; apply Fr1; lia).
  split; cbn [child_dirs namei]; rewrite ?Hc'.
  - apply mk_inv_img; [done|]. apply (sh_block _ _ (proj1 Hd3)).
  - by rewrite drop_drop.
  - rewrite drop_drop. f_equal. rewrite length_drop. lia.
  - change (free_inum (set_img ?v s1)) with (free_inum s1). rewrite F1, C4. lia.
  - change (bfreeno (set_img ?v s1)) with (bfreeno s1). rewrite B1, C5. lia.
  - intros x Hx Hn. change (di (set_img ?v s1) x) with (di s1 x). change (free_inum (set_img ?v s1)) with (free_inum s1) in Hn.
    rewrite (proj2 Fr1 x) by lia. apply C6; lia.
  - intros y Hy Hne. rewrite img_set, decide_False by (by apply Hne). change (bfreeno (set_img ?v s1)) with (bfreeno s1) in Hy.
    rewrite Hlow by done. apply C7; [lia|done].
  - intros k' Hk'. rewrite img_set. destruct (decide (k' = k)) as [->|Hne]; [by rewrite decide_True|].
    rewrite decide_False by (intros E%blk_at_inj; done). rewrite Hlow by (pose proof (blk_at_range b1 q k' ltac:(lia)); lia). apply C8. lia.
  - rewrite <- take_take_drop. change (di (set_img ?v s1)) with (di s1).
    assert (Him : ∀ y, bfreeno s4 ≤ y → img_at (set_img (<[blk_at b1 k := dts2]> (img s1)) s1) y = img_at s1 y).
    { intros y Hy. rewrite img_set, decide_False by lia. done. }
    apply dirs_built_app.
    + eapply dirs_built_ext; [exact C9|intros x Hx; apply Fr1; lia|]. intros x Hx. rewrite Him by lia. apply Fr1. lia.
    + rewrite C4, C5 in Hbuilt. eapply dirs_built_ext; [exact Hbuilt|done|]. intros x Hx. apply Him. lia.
Qed.
End block.

Lemma data_blocks_mul q : data_blocks (1024 * q) = q.
Proof. unfold data_blocks. symmetry. apply Nat.div_unique with 1023%nat; lia. Qed.
Lemma file_names_ok fs g x : (∀ n d, (n, d) ∈ fs → name_ok n) → 0 ≤ g → g + Z.of_nat (length fs) < 2 ^ 32 → x ∈ file_names fs g →
  name_ok x.1 ∧ 0 ≤ x.2 < 2 ^ 32.
Proof.
  revert g. induction fs as [|[n d] fs IH]; intros g Hn Hg Hl Hx; [by apply elem_of_nil in Hx|]. cbn [length] in Hl. cbn [file_names] in Hx.
  apply elem_of_cons in Hx as [->|Hx]; [split; [eapply Hn; by left|cbn; lia]|].
  apply (IH (g + 1)); [|lia|lia|done]. intros n' d' H'. eapply Hn. by right.
Qed.
Lemma reg_count es : (length (reg_files es) + length (sub_dirs es) ≤ length es)%nat.
Proof.
  induction es as [|e es IH]; [done|]. destruct e as [n d|n sub|n];
    [rewrite files_reg, dirs_reg|rewrite files_dir, dirs_dir; destruct (is_dots n)|rewrite files_other, dirs_other]; cbn [length]; lia.
Qed.
Lemma dir_size es : (dir_q es ≤ MAXQ)%nat →
  Z.of_nat (length es) < 2 ^ 20 ∧ u32 (align_up (u64 (u32 (1 + Z.of_nat (length es)) * Z.of_nat SZDENTRY)) (Z.of_nat BSIZE)) = 1024 * Z.of_nat (dir_q es).
Proof.
  intros Hq. pose proof (data_blocks_size (32 * (1 + length es)) (dir_q es)) as Hz. unfold MAXQ in Hq. fold (dir_q es) in Hz.
  assert (Hlen : Z.of_nat (length es) < 2 ^ 20) by lia. split; [done|]. rewrite (u32_id (1 + _)) by lia.
  change (Z.of_nat SZDENTRY) with 32. change (Z.of_nat BSIZE) with (2 ^ 10). rewrite u64_id by lia. rewrite align_up_eq by lia.
  change (2 ^ 10) with 1024. replace ((1 + Z.of_nat (length es)) * 32 + 1024 - 1) with (Z.of_nat (32 * (1 + length es) + 1023)) by lia.
  change 1024 with (Z.of_nat 1024). rewrite <- Nat2Z.inj_div. fold (data_blocks (32 * (1 + length es))). fold (dir_q es). rewrite u32_id; lia.
Qed.

(** What a run of [directory_copy] does. *)
Definition copies (run : MK Z) (pinum : Z) (es : list dirent) (s : mkst) : Prop :=
  ∃ s', run s = Ok (free_inum s) s' ∧ mk_inv s' ∧ free_inum s' = free_inum s + Z.of_nat (dir_inodes es) ∧
    bfreeno s' = bfreeno s + Z.of_nat (dir_blocks es) ∧ dir_built (di s') (img_at s') pinum es (free_inum s) (bfreeno s) ∧
    mk_frame (λ x, bfreeno s ≤ x < bfreeno s + Z.of_nat (dir_blocks es)) (λ x, free_inum s ≤ x < free_inum s + Z.of_nat (dir_inodes es)) s s'.

(** The inode of the directory, its files and its blocks, before the first block is
    written. *)
Lemma dir_begin es s : let g := free_inum s in let b := bfreeno s in let fs := reg_files es in let q := dir_q es in
  let b1 := b + Z.of_nat (sum_of file_size fs) in mk_inv s → dir_ok es → g + 1 + Z.of_nat (length fs) ≤ MAX_FILE_NUMBER →
  b1 + Z.of_nat (file_blocks q) ≤ MAX_DATA_BLOCKNO →
  ∃ s' r, (let! p := dinode_alloc in
         di_mod p (set_type DIRECTORY) ;;
         di_mod p (set_nlink 2) ;;
         let! r := scan_entries p es (MkNames [] []) 0 in
         di_mod p (set_fsize (u32 (align_up (u64 (u32 (1 + r.2) * Z.of_nat SZDENTRY)) (Z.of_nat BSIZE)))) ;;
         let! di := di_at p in
         let! fits := alloc_data p (di_fsize di) in
         ret (p, r, fits)) s = Ok (inum_to_dinode g, r, true) s' ∧
    r.1 = MkNames (sub_dirs es) (file_names fs (g + 1)) ∧
    mk_inv s' ∧ free_inum s' = g + 1 + Z.of_nat (length fs) ∧ bfreeno s' = b1 + Z.of_nat (file_blocks q) ∧
    di s' g = MkDi DIRECTORY 0 (2 + Z.of_nat (length (sub_dirs es))) (1024 * Z.of_nat q) (layout_ib b1 q) ∧ indexed (img_at s') b1 q ∧
    files_built (di s') (img_at s') fs (g + 1) b ∧
    mk_frame (λ x, b ≤ x < b1 + Z.of_nat (file_blocks q)) (λ x, g ≤ x < g + 1 + Z.of_nat (length fs)) s s'.
Proof.
  intros g b fs q b1 I [[Hq Hroom] Hok] HM HB. pose proof (mi_inum _ I) as Hin. fold g in Hin.
  destruct (dir_size es Hq) as [Hlen Hsize]. pose proof (reg_count es) as Hcnt.
  destruct (dinode_alloc_ok s I) as (m & E0 & I0); [fold g; lia|]. cbn zeta in *. fold g in E0, I0. set (s0 := set_inum _ _) in *.
  assert (Hg0 : 0 ≤ g < free_inum s0) by (cbn; lia). assert (D0 : di s0 g = di0) by (apply (mi_new _ I); unfold g; lia).
  destruct (di_mod_step g (set_type DIRECTORY) s0 I0 Hg0) as (s1 & E1 & I1 & B1 & F1 & D1 & _ & Fr1); [by apply wf_type; [apply I0|]|].
  destruct (di_mod_step g (set_nlink 2) s1 I1) as (s2 & E2 & I2 & B2 & F2 & D2 & _ & Fr2); [by rewrite F1|by apply wf_nlink; [apply I1|]|].
  assert (Ef2 : free_inum s2 = g + 1) by (by rewrite F2, F1). assert (Eb2 : bfreeno s2 = b) by (by rewrite B2, B1).
  assert (En : di_nlink (di s2 g) = 2) by (by rewrite D2).
  destruct (scan_entries_spec es g (MkNames [] []) 0 s2 I2) as (s3 & E3 & I3 & F3 & B3 & D3 & Hfs & Fr3);
    [lia|done|by rewrite Ef2|rewrite Eb2; fold fs b1; lia|lia|lia|lia|lia|]. cbn [child_dirs namei app] in E3.
  rewrite Ef2, Eb2, En in *. fold fs in E3, F3, B3, Hfs, Fr3. fold b1 in B3, Fr3.
  destruct (di_mod_step g (set_fsize (1024 * Z.of_nat q)) s3 I3) as (s4 & E4 & I4 & B4 & F4 & D4 & Im4 & Fr4);
    [lia|apply wf_fsize; [apply I3|unfold u32_ok, MAXQ in *; fold q in Hq; lia]|].
  assert (Hd4 : di s4 g = MkDi DIRECTORY 0 (2 + Z.of_nat (length (sub_dirs es))) (1024 * Z.of_nat q) (replicate NIBLOCK 0)) by (by rewrite D4, D3, D2, D1, D0).
  assert (Ez : 1024 * Z.of_nat q = Z.of_nat (1024 * q)) by lia.
  destruct (alloc_data_spec g (1024 * q) s4 I4) as (s5 & E5 & I5 & B5 & F5 & D5 & X5 & Fr5);
    [lia|by rewrite data_blocks_mul|by rewrite data_blocks_mul, B4, B3|by rewrite Hd4|].
  rewrite data_blocks_mul, B4, B3 in *. assert (Eim : ∀ x, img_at s4 x = img_at s3 x) by (intros x; unfold img_at; by rewrite Im4).
  eexists s5, _. split.
  { run E0. run E1. run E2. rewrite (bind_ok _ _ _ _ _ E3). cbn [snd]. rewrite Z.add_0_l, Hsize. fold q. run E4.
    run (di_at_ok g s4 ltac:(lia)). rewrite Hd4. cbn [di_fsize]. rewrite Ez. rewrite (bind_ok _ _ _ _ _ E5). reflexivity. }
  split; [done|]. split; [done|]. split; [by rewrite F5, F4, F3|]. split; [done|]. split; [by rewrite D5, Hd4|]. split; [done|]. split.
  - eapply files_built_ext; [exact Hfs| |].
    + intros x Hx. rewrite (proj2 Fr5 x) by lia. apply Fr4; lia.
    + intros x Hx. fold b1 in Hx. rewrite (proj1 Fr5 x) by lia. apply Eim.
  - eapply mk_frame_trans; [|eapply mk_frame_weaken; [exact Fr5|intros x Hx; cbv beta in Hx |- *; unfold b1 in *; lia|intros x ->; lia]].
    eapply mk_frame_trans; [|eapply mk_frame_weaken; [exact Fr4|done|intros x ->; lia]].
    eapply mk_frame_trans; [|eapply mk_frame_weaken; [exact Fr3|intros x Hx; cbv beta in Hx |- *; unfold b1 in *; lia|intros x [->|Hx]; lia]].
    eapply mk_frame_trans; [|eapply mk_frame_weaken; [exact Fr2|done|intros x ->; lia]].
    eapply mk_frame_weaken; [exact Fr1|done|intros x ->; lia].
Qed.
Lemma directory_copy_spec fuel : ∀ root es pinum s, (dir_depth es ≤ fuel)%nat → dir_ok es → mk_inv s → 0 ≤ pinum < 2 ^ 32 →
  free_inum s + Z.of_nat (dir_inodes es) ≤ MAX_FILE_NUMBER → bfreeno s + Z.of_nat (dir_blocks es) ≤ MAX_DATA_BLOCKNO →
  copies (directory_copy fuel root es pinum) (if (root : bool) then free_inum s else pinum) es s.
Proof.
  induction fuel as [|fuel IH]; intros root es pinum s Hf Hok I Hp HM HB; [unfold dir_depth in Hf; lia|].
  unfold copies. set (g := free_inum s) in *. set (b := bfreeno s) in *. unfold dir_inodes, dir_blocks in *. rewrite ents_inodes, ents_blocks in *.
  set (fs := reg_files es) in *. set (ds := sub_dirs es) in *. set (q := dir_q es) in *. pose proof (mi_inum _ I) as Hin. fold g in Hin.
  destruct (dir_begin es s I Hok) as (s4 & r & E4 & Er & I4 & F4 & B4 & D4 & X4 & Hfs & Fr4); [fold g fs; lia|fold b fs q; lia|].
  fold g b fs ds q in E4, Er, F4, B4, D4, X4, Hfs, Fr4. set (b1 := b + Z.of_nat (sum_of file_size fs)) in *.
  set (pn := if root then g else pinum). mknum.
  assert (Hb0 : 0 < b1) by (pose proof (mi_bfree _ I); unfold b1, b; lia). destruct Hok as [[Hq Hroom] Hents]. fold ds fs q in Hq, Hroom.
  set (FN := file_names fs (g + 1)) in *. set (L := ([DOT], g) :: ([DOT; DOT], pn) :: dir_names ds (free_inum s4) ++ FN).
  assert (HL : L = dir_list es pn g) by (unfold L; rewrite F4; done).
  assert (Hbody : ∀ k ns s', (k < q)%nat → dir_copied g b1 q ds FN L s4 k ns s' →
    ∃ ns' s'', dir_block (directory_copy fuel false) g pn k (blk_at b1 k) ns s' = Ok ns' s'' ∧ dir_copied g b1 q ds FN L s4 (S k) ns' s'').
  { apply (dir_block_step (directory_copy fuel false) (λ sub, dir_ok sub ∧ (dir_depth sub ≤ fuel)%nat)).
    - intros sub s' [Hs1 Hs2] I' HM' HB'. apply (IH false sub g s'); try done. lia.
    - intros n sub Hsub. destruct (sub_dirs_ok es n sub Hents Hsub) as (? & ? & ?). split; [done|]. split; [done|lia].
    - intros x Hx. eapply (file_names_ok fs); [|..|exact Hx]; [|lia|lia]. intros n d Hnd. by apply (reg_files_ok es n d Hents).
    - split; [lia|]. unfold pn. destruct root; lia.
    - split; [done|]. split; [by rewrite B4|lia].
    - rewrite F4. lia.
    - rewrite B4. unfold b1. lia. }
  destruct (each_block_spec (dir_block (directory_copy fuel false) g pn) g b1 q (dir_copied g b1 q ds FN L s4)
    ltac:(lia) Hq Hb0) with (x := r.1) (s := s4) as (ns' & s5 & E5 & [C1 C2 C3 C4 C5 C6 C7 C8 C9]).
  { unfold b1. lia. }
  { intros k ns s' [_ _ _ _ _ H6 H7 _ _]. rewrite H6, D4 by lia. split; [done|]. eapply indexed_ext; [exact X4|]. intros i Hi. apply H7.
    - pose proof (idx_at_range b1 q i Hi). lia.
    - intros k' _ E. by apply (blk_idx_ne b1 k' i). }
  { exact Hbody. }
  { rewrite Er. change (31 * 0 - 2)%nat with 0%nat. split; rewrite ?take_0; try done.
    - cbn [sum_of foldr]. lia.
    - cbn [sum_of foldr]. lia.
    - intros k' Hk'. lia. }
  assert (Hall : take (31 * q - 2) ds = ds) by (apply take_ge; lia). rewrite Hall in C4, C5, C9. rewrite F4 in C4, C9. rewrite B4 in C5, C9.
  exists s5. split; [|split; [done|split; [lia|split; [unfold b1 in *; lia|split]]]].
  - apply bind_ok_inv in E4 as (p & s41 & Ea & E4). apply bind_ok_inv in E4 as ([] & s42 & Eb & E4). apply bind_ok_inv in E4 as ([] & s43 & Ec & E4).
    apply bind_ok_inv in E4 as (r' & s44 & Ed & E4). apply bind_ok_inv in E4 as ([] & s45 & Ee & E4). apply bind_ok_inv in E4 as (di' & s46 & Eg & E4).
    apply bind_ok_inv in E4 as (fits & s47 & Eh & [= -> -> -> ->]). cbn [directory_copy].
    rewrite (bind_ok _ _ _ _ _ Ea), (bind_ok _ _ _ _ _ Eb), (bind_ok _ _ _ _ _ Ec), (bind_ok _ _ _ _ _ Ed), (bind_ok _ _ _ _ _ Ee), (bind_ok _ _ _ _ _ Eg),
      (bind_ok _ _ _ _ _ Eh). cbn [negb]. rewrite inum_round_trip by lia. fold pn. by rewrite (bind_ok _ _ _ _ _ E5).
  - constructor; fold fs ds q b1.
    + eapply files_built_ext; [exact Hfs|intros x Hx; apply C6; lia|]. intros x Hx. fold b1 in Hx. apply C7; [lia|]. intros k' Hk' ->.
      pose proof (blk_at_range b1 q k' Hk'). lia.
    + split; [rewrite C6 by lia; done|]. split.
      * eapply indexed_ext; [exact X4|]. intros i Hi. apply C7; [pose proof (idx_at_range b1 q i Hi); lia|]. intros k' _ E. by apply (blk_idx_ne b1 k' i).
      * intros k Hk. rewrite <- HL. by apply C8.
    + exact C9.
  - eapply mk_frame_trans; [eapply mk_frame_weaken; [exact Fr4|intros x Hx; cbv beta in Hx |- *; unfold b1 in *; lia..]|]. split.
    + intros x Hx. apply C7; [unfold b1 in *; lia|]. intros k' Hk' ->. pose proof (blk_at_range b1 q k' Hk'). unfold b1 in *. lia.
    + intros x Hx Hn. apply C6; lia.
Qed.
