(* ===== verification/Riscv.v ===== *)
(** The registers of a hart and the hardware side of traps (kernel/util/riscv.h), the
    first code that runs in machine mode (kernel/boot/start.c), and the instructions of
    the assembly code (kernel/trap/pt_reg.S, kernel/task/switch.S).

    Memory is a map of 64-bit words.  C code uses physical addresses, which the kernel
    maps to themselves; an instruction goes through the translation in force, a
    parameter of [exec].  The effect of a trap, of [sret] and of [mret] and the parts of
    [mstatus] that [sstatus] shows are those of the RISC-V privileged architecture. *)
From S2P Require Import Prelude.

Inductive reg :=
| Ra | Sp | Gp | Tp
| T0 | T1 | T2 | T3 | T4 | T5 | T6
| S0 | S1 | S2 | S3 | S4 | S5 | S6 | S7 | S8 | S9 | S10 | S11
| A0 | A1 | A2 | A3 | A4 | A5 | A6 | A7.
(** The number of the register: [x1] to [x31]. *)
Definition reg_num (r : reg) : nat :=
  match r with
  | Ra => 1 | Sp => 2 | Gp => 3 | Tp => 4 | T0 => 5 | T1 => 6 | T2 => 7 | S0 => 8 | S1 => 9
  | A0 => 10 | A1 => 11 | A2 => 12 | A3 => 13 | A4 => 14 | A5 => 15 | A6 => 16 | A7 => 17
  | S2 => 18 | S3 => 19 | S4 => 20 | S5 => 21 | S6 => 22 | S7 => 23 | S8 => 24 | S9 => 25 | S10 => 26 | S11 => 27
  | T3 => 28 | T4 => 29 | T5 => 30 | T6 => 31
  end.
#[export] Instance reg_num_inj : Inj (=) (=) reg_num.
Proof. intros x y. by destruct x, y. Qed.
#[export] Instance reg_eq_dec : EqDecision reg.
Proof. intros x y. refine (cast_if (decide (reg_num x = reg_num y))); [by apply (inj reg_num)|congruence]. Defined.

Inductive csr :=
| Mhartid | Mstatus | Mepc | Medeleg | Mideleg | Pmpcfg0 | Pmpaddr0 | Menvcfg | Mcounteren
| Sstatus | Sie | Stvec | Sscratch | Sepc | Scause | Stval | Satp | Stimecmp | Time.
#[export] Instance csr_eq_dec : EqDecision csr.
Proof. solve_decision. Defined.

Inductive priv := User | Supervisor | Machine_mode.

Record hart := MkHart {
  h_reg : reg → Z;
  h_csr : csr → Z;
  h_mode : priv;
  h_pc : Z;
  h_mem : Z → Z;
}.
Definition HM : Type → Type := M hart.
Definition fset {A} `{EqDecision A} (x : A) (v : Z) (f : A → Z) : A → Z := λ y, if decide (y = x) then v else f y.
Definition set_reg (r : reg) (v : Z) (h : hart) : hart := MkHart (fset r v (h_reg h)) (h_csr h) (h_mode h) (h_pc h) (h_mem h).
Definition raw_csr (c : csr) (v : Z) (h : hart) : hart := MkHart (h_reg h) (fset c v (h_csr h)) (h_mode h) (h_pc h) (h_mem h).
Definition set_mode (m : priv) (h : hart) : hart := MkHart (h_reg h) (h_csr h) m (h_pc h) (h_mem h).
Definition set_pc (v : Z) (h : hart) : hart := MkHart (h_reg h) (h_csr h) (h_mode h) v (h_mem h).
Definition set_word (a v : Z) (h : hart) : hart := MkHart (h_reg h) (h_csr h) (h_mode h) (h_pc h) (fset a v (h_mem h)).

(** ** kernel/util/riscv.h *)

Definition MSTATUS_MPP_MASK : Z := Z.shiftl 3 11.
Definition MSTATUS_MPP_S : Z := Z.shiftl 1 11.
Definition MSTATUS_SIE : Z := Z.shiftl 1 1.
Definition MSTATUS_MIE : Z := Z.shiftl 1 3.
Definition MSTATUS_SPIE : Z := Z.shiftl 1 5.
Definition MSTATUS_MPIE : Z := Z.shiftl 1 7.
Definition SATP_MODE : Z := Z.shiftl 8 60.
Definition SIE_SSIE : Z := Z.shiftl 1 1.
Definition SIE_SEIE : Z := Z.shiftl 1 9.
Definition SIE_STIE : Z := Z.shiftl 1 5.
Definition SSTATUS_SIE : Z := Z.shiftl 1 1.
Definition SSTATUS_SPIE : Z := Z.shiftl 1 5.
Definition SSTATUS_SPP : Z := Z.shiftl 1 8.

(** The bits of [mstatus] that [sstatus] shows: SIE, SPIE, UBE, SPP, VS, FS, XS, SUM,
    MXR, UXL and SD. *)
Definition SSTATUS_BITS : Z := 0x80000003000de762.
Definition read_csr (c : csr) (h : hart) : Z :=
  match c with Sstatus => Z.land (h_csr h Mstatus) SSTATUS_BITS | _ => h_csr h c end.
Definition write_csr (c : csr) (v : Z) (h : hart) : hart :=
  match c with
  | Sstatus => raw_csr Mstatus (Z.lor (Z.ldiff (h_csr h Mstatus) SSTATUS_BITS) (Z.land v SSTATUS_BITS)) h
  | _ => raw_csr c v h
  end.

Definition r_mhartid : HM Z := gets (read_csr Mhartid).
Definition r_mstatus : HM Z := gets (read_csr Mstatus).
Definition r_menvcfg : HM Z := gets (read_csr Menvcfg).
Definition r_mcounteren : HM Z := gets (read_csr Mcounteren).
Definition w_mstatus (x : Z) : HM unit := modify (write_csr Mstatus x).
Definition w_mepc (x : Z) : HM unit := modify (write_csr Mepc x).
Definition w_medeleg (x : Z) : HM unit := modify (write_csr Medeleg x).
Definition w_mideleg (x : Z) : HM unit := modify (write_csr Mideleg x).
Definition w_pmpcfg0 (x : Z) : HM unit := modify (write_csr Pmpcfg0 x).
Definition w_pmpaddr0 (x : Z) : HM unit := modify (write_csr Pmpaddr0 x).
Definition w_menvcfg (x : Z) : HM unit := modify (write_csr Menvcfg x).
Definition w_mcounteren (x : Z) : HM unit := modify (write_csr Mcounteren x).
Definition w_sepc (x : Z) : HM unit := modify (write_csr Sepc x).
Definition r_time : HM Z := gets (read_csr Time).
Definition w_satp (x : Z) : HM unit := modify (write_csr Satp x).
Definition r_sie : HM Z := gets (read_csr Sie).
Definition w_sie (x : Z) : HM unit := modify (write_csr Sie x).
Definition r_sstatus : HM Z := gets (read_csr Sstatus).
Definition w_sstatus (x : Z) : HM unit := modify (write_csr Sstatus x).
Definition cli : HM unit := let! x := r_sstatus in w_sstatus (Z.land x (u64 (Z.lnot SSTATUS_SIE))).
Definition sti : HM unit := let! x := r_sstatus in w_sstatus (Z.lor x SSTATUS_SIE).
Definition intr : HM bool := let! x := r_sstatus in ret (negb (Z.land x SSTATUS_SIE =? 0)).
Definition w_stimecmp (x : Z) : HM unit := modify (write_csr Stimecmp x).
Definition w_stvec (x : Z) : HM unit := modify (write_csr Stvec x).
Definition w_tp (x : Z) : HM unit := modify (set_reg Tp x).

(** ** Traps and returns of the hardware *)

Definition put_bit (n : Z) (b : bool) (z : Z) : Z := if b then Z.setbit z n else Z.clearbit z n.
Definition SIE_BIT : Z := 1.
Definition SPIE_BIT : Z := 5.
Definition SPP_BIT : Z := 8.
Definition MIE_BIT : Z := 3.
Definition MPIE_BIT : Z := 7.
Definition status_bit (n : Z) (h : hart) : bool := Z.testbit (h_csr h Mstatus) n.
Definition put_status (n : Z) (b : bool) (h : hart) : hart := raw_csr Mstatus (put_bit n b (h_csr h Mstatus)) h.
Definition is_super (m : priv) : bool := match m with User => false | _ => true end.

(** A trap that is delegated to supervisor mode; [stvec] is in direct mode. *)
Definition trap_enter (cause tval : Z) (h : hart) : hart :=
  set_pc (h_csr h Stvec) (set_mode Supervisor
    (put_status SPP_BIT (is_super (h_mode h)) (put_status SIE_BIT false (put_status SPIE_BIT (status_bit SIE_BIT h)
      (raw_csr Stval tval (raw_csr Scause cause (raw_csr Sepc (h_pc h) h))))))).
Definition sret (h : hart) : hart :=
  set_pc (h_csr h Sepc) (set_mode (if status_bit SPP_BIT h then Supervisor else User)
    (put_status SPP_BIT false (put_status SPIE_BIT true (put_status SIE_BIT (status_bit SPIE_BIT h) h)))).
(** The mode in the MPP field, bits 11 and 12. *)
Definition mpp (h : hart) : priv :=
  match Z.testbit (h_csr h Mstatus) 12, Z.testbit (h_csr h Mstatus) 11 with
  | true, true => Machine_mode
  | false, true => Supervisor
  | _, _ => User
  end.
Definition mret (h : hart) : hart :=
  set_pc (h_csr h Mepc) (set_mode (mpp h)
    (put_status 12 false (put_status 11 false (put_status MPIE_BIT true (put_status MIE_BIT (status_bit MPIE_BIT h) h))))).

(** ** kernel/boot/start.c *)

Definition NCPU : nat := 8.
Definition TIME_CYCLE : Z := 10000000.
(** [sizeof(struct cpu)] and the offsets of [id] and [trap_addr]. *)
Definition SZCPU : Z := 160.
Definition CPU_ID : Z := 0.
Definition CPU_KSTACK : Z := 8.
Definition CPU_SATP : Z := 16.
Definition CPU_TRAP : Z := 32.

Section start.
(** The addresses of [cpus], [main] and [do_trap]. *)
Context (cpus main do_trap : Z).

Definition init_timer : HM unit :=
  let! x := r_menvcfg in
  w_menvcfg (Z.lor x (Z.shiftl 1 63)) ;;
  let! x := r_mcounteren in
  w_mcounteren (Z.lor x 2) ;;
  let! now := r_time in
  w_stimecmp (u64 (now + TIME_CYCLE)).
(** [start] up to and with [mret]. *)
Definition start : HM unit :=
  let! cpuid := r_mhartid in
  let c := u64 (cpus + SZCPU * cpuid) in
  modify (set_word (c + CPU_ID) cpuid) ;;
  modify (set_word (c + CPU_TRAP) do_trap) ;;
  w_tp c ;;
  let! mstatus := r_mstatus in
  let mstatus := Z.land mstatus (u64 (Z.lnot MSTATUS_MPP_MASK)) in
  let mstatus := Z.land mstatus (u64 (Z.lnot MSTATUS_MIE)) in
  let mstatus := Z.land mstatus (u64 (Z.lnot MSTATUS_SIE)) in
  let mstatus := Z.land mstatus (u64 (Z.lnot MSTATUS_MPIE)) in
  let mstatus := Z.land mstatus (u64 (Z.lnot MSTATUS_SPIE)) in
  let mstatus := Z.lor mstatus MSTATUS_MPP_S in
  w_mstatus mstatus ;;
  w_mepc main ;;
  w_satp 0 ;;
  w_medeleg 0xFFFF ;;
  w_mideleg 0xFFFF ;;
  w_pmpaddr0 0x3FFFFFFFFFFFFF ;;
  w_pmpcfg0 0xF ;;
  init_timer ;;
  let! x := r_sie in
  w_sie (Z.lor (Z.lor x SIE_STIE) SIE_SSIE) ;;
  modify mret.
End start.

(** ** Instructions *)

Inductive instr :=
| Addi (rd rs : reg) (imm : Z)
| Sd (rs : reg) (off : Z) (base : reg)
| Ld (rd : reg) (off : Z) (base : reg)
| Li (rd : reg) (v : Z)
| Csrr (rd : reg) (c : csr)
| Csrw (c : csr) (rs : reg).
(** [mmu satp va]: the physical address of a virtual one, if it is mapped. *)
Definition addr_of (mmu : Z → Z → option Z) (h : hart) (base : reg) (off : Z) : option Z :=
  mmu (h_csr h Satp) (u64 (h_reg h base + off)).
Definition exec (mmu : Z → Z → option Z) (i : instr) : HM unit :=
  match i with
  | Addi rd rs imm => modify (λ h, set_reg rd (u64 (h_reg h rs + imm)) h)
  | Sd rs off base => update (λ h, a ← addr_of mmu h base off; Some (set_word a (h_reg h rs) h))
  | Ld rd off base => update (λ h, a ← addr_of mmu h base off; Some (set_reg rd (h_mem h a) h))
  | Li rd v => modify (set_reg rd v)
  | Csrr rd c => modify (λ h, set_reg rd (read_csr c h) h)
  | Csrw c rs => modify (λ h, write_csr c (h_reg h rs) h)
  end.
Fixpoint execs (mmu : Z → Z → option Z) (l : list instr) : HM unit :=
  match l with [] => ret tt | i :: l => exec mmu i ;; execs mmu l end.
Definition Mv (rd rs : reg) : instr := Addi rd rs 0.

(** ** kernel/task/switch.S *)

(** The registers of [struct context] in the order of kernel/task/cpu.h, and their
    offsets in the assembly code. *)
Definition context : list reg := [Ra; Sp; S0; S1; S2; S3; S4; S5; S6; S7; S8; S9; S10; S11].
Definition CT (r : reg) : Z :=
  match r with
  | Ra => 0 | Sp => 8 | S0 => 16 | S1 => 24 | S2 => 32 | S3 => 40 | S4 => 48 | S5 => 56 | S6 => 64 | S7 => 72 | S8 => 80
  | S9 => 88 | S10 => 96 | S11 => 104 | _ => 0
  end.
Definition store_context : list instr := (λ r, Sd r (CT r) A0) <$> context.
Definition load_context : list instr := (λ r, Ld r (CT r) A1) <$> context.
(** [ret] *)
Definition jump_ra : HM unit := modify (λ h, set_pc (h_reg h Ra) h).
Definition dump_context (mmu : Z → Z → option Z) : HM unit := execs mmu store_context ;; jump_ra.
Definition context_switch (mmu : Z → Z → option Z) : HM unit :=
  let! a0 := gets (λ h, h_reg h A0) in
  (if a0 =? 0 then ret tt else execs mmu store_context) ;;
  execs mmu load_context ;;
  jump_ra.
Definition run_new_task (mmu : Z → Z → option Z) : HM unit :=
  execs mmu [Csrw Satp A0; Mv Sp A1; Mv A0 A2] ;;
  modify sret.

(** ** Status bits *)

Lemma testbit_put n b z k : 0 ≤ n → 0 ≤ k → Z.testbit (put_bit n b z) k = if decide (k = n) then b else Z.testbit z k.
Proof.
  intros Hn Hk. unfold put_bit. destruct b; case_decide as E; subst.
  - by rewrite Z.setbit_eq.
  - by rewrite Z.setbit_neq by lia.
  - by rewrite Z.clearbit_eq.
  - by rewrite Z.clearbit_neq by lia.
Qed.
Lemma status_put n b k h : 0 ≤ n → 0 ≤ k → status_bit k (put_status n b h) = if decide (k = n) then b else status_bit k h.
Proof. intros Hn Hk. unfold status_bit. cbn. by apply testbit_put. Qed.
Lemma land_bit_test x n : 0 ≤ n → (Z.land x (Z.shiftl 1 n) =? 0) = negb (Z.testbit x n).
Proof.
  intros Hn. apply eq_true_iff_eq. rewrite Z.eqb_eq, negb_true_iff. rewrite Z.shiftl_1_l. split; intros H.
  - apply (f_equal (λ z, Z.testbit z n)) in H. by rewrite Z.land_spec, Z.pow2_bits_true, andb_true_r, Z.bits_0 in H.
  - apply Z.bits_inj'. intros k Hk. rewrite Z.land_spec, Z.bits_0. destruct (decide (k = n)) as [->|].
    + by rewrite H.
    + by rewrite Z.pow2_bits_false, andb_false_r by lia.
Qed.
(** What a hart shows of the status bits of supervisor mode. *)
Definition s_bits : list Z := [SIE_BIT; SPIE_BIT; SPP_BIT].
Lemma s_bits_nonneg n : n ∈ s_bits → 0 ≤ n.
Proof. unfold s_bits. rewrite !elem_of_cons, elem_of_nil. unfold SIE_BIT, SPIE_BIT, SPP_BIT. lia. Qed.
Lemma s_bits_shown n : n ∈ s_bits → Z.testbit SSTATUS_BITS n = true.
Proof. unfold s_bits. rewrite !elem_of_cons, elem_of_nil. by intros [-> | [-> | [-> | []]]]. Qed.
Lemma sstatus_bit n h : n ∈ s_bits → Z.testbit (read_csr Sstatus h) n = status_bit n h.
Proof. intros Hn. cbn. by rewrite Z.land_spec, (s_bits_shown _ Hn), andb_true_r. Qed.
Lemma write_sstatus_bit n v h : n ∈ s_bits → status_bit n (write_csr Sstatus v h) = Z.testbit v n.
Proof.
  intros Hn. unfold status_bit. cbn. unfold fset. rewrite decide_True by done.
  rewrite Z.lor_spec, Z.ldiff_spec, Z.land_spec, (s_bits_shown _ Hn). by rewrite andb_false_r, andb_true_r.
Qed.

Create HintDb riscv.
Lemma sie_shown : SIE_BIT ∈ s_bits.
Proof. by repeat constructor. Qed.
Lemma spie_shown : SPIE_BIT ∈ s_bits.
Proof. by repeat constructor. Qed.
Lemma spp_shown : SPP_BIT ∈ s_bits.
Proof. by repeat constructor. Qed.
#[export] Hint Resolve sie_shown spie_shown spp_shown : riscv.

(** [start] enters [main] in supervisor mode with interrupts and paging off, all traps
    delegated, the timer running and [tp] at the hart's [struct cpu]. *)
Lemma start_enters_main cpus main do_trap h : let id := h_csr h Mhartid in let c := u64 (cpus + SZCPU * id) in
  ∃ h', start cpus main do_trap h = Ok tt h' ∧ h_mode h' = Supervisor ∧ h_pc h' = main ∧
    status_bit SIE_BIT h' = false ∧ status_bit MIE_BIT h' = false ∧ h_csr h' Satp = 0 ∧ h_csr h' Medeleg = 0xFFFF ∧ h_csr h' Mideleg = 0xFFFF ∧
    h_csr h' Stimecmp = u64 (h_csr h Time + TIME_CYCLE) ∧ Z.testbit (h_csr h' Sie) 5 = true ∧
    h_reg h' Tp = c ∧ h_mem h' (c + CPU_ID) = id ∧ h_mem h' (c + CPU_TRAP) = do_trap.
Proof.
  intros id c.
  set (ms := Z.lor (Z.land (Z.land (Z.land (Z.land (Z.land (h_csr h Mstatus) (u64 (Z.lnot MSTATUS_MPP_MASK))) (u64 (Z.lnot MSTATUS_MIE)))
    (u64 (Z.lnot MSTATUS_SIE))) (u64 (Z.lnot MSTATUS_MPIE))) (u64 (Z.lnot MSTATUS_SPIE))) MSTATUS_MPP_S).
  set (h1 := write_csr Mstatus ms (set_reg Tp c (set_word (c + CPU_TRAP) do_trap (set_word (c + CPU_ID) id h)))).
  set (h2 := write_csr Pmpcfg0 0xF (write_csr Pmpaddr0 0x3FFFFFFFFFFFFF (write_csr Mideleg 0xFFFF (write_csr Medeleg 0xFFFF (write_csr Satp 0 (write_csr Mepc main h1)))))).
  set (h3 := write_csr Stimecmp (u64 (h_csr h Time + TIME_CYCLE)) (write_csr Mcounteren (Z.lor (h_csr h Mcounteren) 2)
    (write_csr Menvcfg (Z.lor (h_csr h Menvcfg) (Z.shiftl 1 63)) h2))).
  set (h4 := write_csr Sie (Z.lor (Z.lor (h_csr h Sie) SIE_STIE) SIE_SSIE) h3).
  exists (mret h4). split; [reflexivity|].
  assert (Hbit : ∀ n, 0 ≤ n → Z.testbit (h_csr h4 Mstatus) n = Z.testbit ms n) by done.
  assert (B11 : Z.testbit ms 11 = true) by (unfold ms; rewrite Z.lor_spec; by rewrite orb_true_r).
  assert (Hoff : Z.testbit ms 12 = false ∧ Z.testbit ms 7 = false ∧ Z.testbit ms 3 = false ∧ Z.testbit ms 1 = false).
  { unfold ms. rewrite !Z.lor_spec, !Z.land_spec. by rewrite ?andb_false_r. }
  destruct Hoff as (B12 & B7 & B3 & B1).
  assert (Hmpp : mpp h4 = Supervisor) by (unfold mpp; by rewrite (Hbit 12), (Hbit 11), B11, B12).
  assert (Hst : status_bit SIE_BIT (mret h4) = false ∧ status_bit MIE_BIT (mret h4) = false).
  { unfold mret. assert (∀ n m v g, status_bit n (set_pc v (set_mode m g)) = status_bit n g) as H by done. rewrite !H, !status_put by done.
    split; [exact B1|exact B7]. }
  split; [exact Hmpp|]. split; [done|]. split; [apply Hst|]. split; [apply Hst|].
  do 4 (split; [done|]). split.
  { change (h_csr (mret h4) Sie) with (Z.lor (Z.lor (h_csr h Sie) SIE_STIE) SIE_SSIE). rewrite !Z.lor_spec. by rewrite orb_true_r. }
  split; [done|]. change (h_mem (mret h4)) with (fset (c + CPU_TRAP) do_trap (fset (c + CPU_ID) id (h_mem h))). unfold fset.
  split; [|by rewrite decide_True]. rewrite decide_False by (unfold CPU_ID, CPU_TRAP; lia). by rewrite decide_True.
Qed.
