(* ===== verification/Trap.v ===== *)
(** Traps (kernel/trap/trap.c, kernel/trap/pt_reg.h, kernel/trap/pt_reg.S), the
    interrupt controller (kernel/trap/plic.h, kernel/trap/plic.c), the system call table
    (kernel/syscall/syscall.c) and [sys_sleep] (kernel/syscall/systask.c).

    The state puts the hart, the interrupt controller, the tables of handlers, the time
    stub and the rest of the kernel together.  The rest of the kernel is an interface
    ([TrapEnv]): the machine it runs on, the handlers of the devices and the system
    calls.  The interrupt enable bit of that machine is the SIE bit of [sstatus].

    A handler that gives the CPU up ends in [Switch]; what [do_trap] and the assembly
    code do behind it is [trap_resume] and [utrap_exit]. *)
From S2P Require Import Prelude Machine Sched Riscv.

(** ** [struct pt_regs] *)

Inductive field := FReg (r : reg) | FSepc | FSstatus | FStval | FScause.
#[export] Instance field_eq_dec : EqDecision field.
Proof. solve_decision. Defined.
(** The fields in the order of kernel/trap/pt_reg.h. *)
Definition pt_regs : list field :=
  (FReg <$> [Ra; Sp; Gp; Tp]) ++ [FSepc; FSstatus; FStval; FScause] ++ (FReg <$> [T0; T1; T2; T3; T4; T5; T6]) ++
  (FReg <$> [S0; S1; S2; S3; S4; S5; S6; S7; S8; S9; S10; S11]) ++ (FReg <$> [A0; A1; A2; A3; A4; A5; A6; A7]).
Fixpoint field_index (f : field) (l : list field) : Z :=
  match l with [] => 0 | g :: l => if decide (g = f) then 0 else 1 + field_index f l end.
(** [offsetof(struct pt_regs, f)] and [sizeof(struct pt_regs)]. *)
Definition pt_off (f : field) : Z := 8 * field_index f pt_regs.
Definition SZPT : Z := 8 * Z.of_nat (length pt_regs).
(** The offsets of kernel/trap/pt_reg.S. *)
Definition PT (f : field) : Z :=
  match f with
  | FReg Ra => 0 | FReg Sp => 8 | FReg Gp => 16 | FReg Tp => 24
  | FSepc => 32 | FSstatus => 40 | FStval => 48 | FScause => 56
  | FReg T0 => 64 | FReg T1 => 72 | FReg T2 => 80 | FReg T3 => 88 | FReg T4 => 96 | FReg T5 => 104 | FReg T6 => 112
  | FReg S0 => 120 | FReg S1 => 128 | FReg S2 => 136 | FReg S3 => 144 | FReg S4 => 152 | FReg S5 => 160 | FReg S6 => 168
  | FReg S7 => 176 | FReg S8 => 184 | FReg S9 => 192 | FReg S10 => 200 | FReg S11 => 208
  | FReg A0 => 216 | FReg A1 => 224 | FReg A2 => 232 | FReg A3 => 240 | FReg A4 => 248 | FReg A5 => 256 | FReg A6 => 264 | FReg A7 => 272
  end.
Definition PT_SIZE : Z := 280.

(** ** The interrupt controller *)

Definition PLIC : Z := 0xC000000.
Definition PLIC_SIZE : Z := 0x600000.
Definition PLIC_PRIORITY (irq : Z) : Z := PLIC + u32 (Z.shiftl irq 2).
Definition PLIC_ENABLE (hartid : Z) : Z := PLIC + 0x2000 + Z.shiftl hartid 8 + 0x80.
Definition PLIC_THRESHOLD (hartid : Z) : Z := PLIC + 0x200000 + Z.shiftl hartid 13 + 0x1000.
Definition PLIC_CLAIM (hartid : Z) : Z := PLIC + 0x200000 + Z.shiftl hartid 13 + 0x1004.
Definition IRQ_NONE : Z := 0.
Definition IRQ_DISK : Z := 1.
Definition IRQ_UART0 : Z := 10.
(** The device: loads and stores of its 32-bit registers; [plic_serving d h] are the
    interrupts that hart [h] has claimed and not completed. *)
Class Plic (D : Type) := {
  plic_rd : Z → D → Z * D;
  plic_wr : Z → Z → D → D;
  plic_serving : D → Z → gset Z;
  (** A load of the claim register takes an interrupt that is not in service, or none. *)
  plic_claimed d h i d' : plic_rd (PLIC_CLAIM h) d = (i, d') → 0 ≤ i < 2 ^ 32 ∧
    ∀ h', plic_serving d' h' = if decide (h' = h ∧ i ≠ 0) then {[i]} ∪ plic_serving d h else plic_serving d h';
  plic_fresh d h i d' : plic_rd (PLIC_CLAIM h) d = (i, d') → i ≠ 0 → i ∉ plic_serving d h;
  (** A store to it completes an interrupt; one that is not in service is ignored. *)
  plic_completed d h i : ∀ h', plic_serving (plic_wr (PLIC_CLAIM h) i d) h' =
    if decide (h' = h) then plic_serving d h ∖ {[i]} else plic_serving d h';
  plic_no_zero d h : 0 ∉ plic_serving d h;
}.

(** ** The rest of the kernel *)

Inductive sysname :=
| Fork | Exit | Exec | Wait | Read | Write | Lseek | Open | Dup | Close | Link | Unlink
| Mkdir | Rmdir | Mknod | Chdir | Alloc | Free | Pipe | Ls | Sleep.
(** [syscalls]; the number of [sys_thread] has no entry. *)
Definition syscalls : list (option sysname) :=
  [Some Fork; Some Exit; Some Exec; Some Wait; Some Read; Some Write; Some Lseek; Some Open; Some Dup; Some Close;
   Some Link; Some Unlink; Some Mkdir; Some Rmdir; Some Mknod; Some Chdir; Some Alloc; Some Free; Some Pipe; Some Ls;
   None; Some Sleep].

Class TrapEnv (X : Type) := {
  te_mach : X → mach;
  te_set_mach : mach → X → X;
  (** [mytask()->kstack] *)
  te_kstack : X → option Z;
  (** the translation of the page tables *)
  te_mmu : X → Z → Z → option Z;
  te_uart_irq : M X unit;
  te_disk_irq : M X unit;
  (** a system call but [sys_sleep], with the argument registers *)
  te_syscall : sysname → list Z → M X Z;
  te_get_set m x : te_mach (te_set_mach m x) = m;
  te_mmu_mach m x : te_mmu (te_set_mach m x) = te_mmu x;
}.

(** ** Handlers and their tables *)

Inductive trap_fn := Unknow_trap | Asy_timer | Asy_extern | Syn_syscall_u.
Record tables := MkTables {
  interrupt_name : list string;
  exception_name : list string;
  interrupt_funs : list trap_fn;
  exception_funs : list trap_fn;
}.
Definition tables0 : tables :=
  MkTables (replicate 10 "UNKNOW"%string) (replicate 16 "UNKNOW"%string) (replicate 10 Unknow_trap) (replicate 16 Unknow_trap).

Definition INTR_BIT : Z := Z.shiftl 1 63.
Definition IS_INTR (scause : Z) : bool := negb (Z.land scause INTR_BIT =? 0).
Definition SCAUSE_EC (scause : Z) : Z := Z.land scause (u64 (Z.lnot INTR_BIT)).
Definition ASY_IPI : nat := 1.
Definition ASY_TIMER : nat := 5.
Definition ASY_EXTERN : nat := 9.
Definition SYN_SYSCALL_U : nat := 8.

(** The stores of [init_trap]. *)
Definition install (t : tables) : tables := MkTables
  (<[ASY_EXTERN := "EXTERN"%string]> (<[ASY_TIMER := "TIMER"%string]> (<[ASY_IPI := "IPI"%string]> (interrupt_name t))))
  (<[15%nat := "STORE_PAGE_FAULT"%string]> (<[13%nat := "LOAD_PAGE_FAULT"%string]> (<[12%nat := "TEXT_PAGE_FAULT"%string]>
   (<[9%nat := "SYSCALL_S"%string]> (<[SYN_SYSCALL_U := "SYSCALL_U"%string]> (<[7%nat := "STORE_FAULT"%string]>
   (<[6%nat := "STORE_MISALIGNED"%string]> (<[5%nat := "LOAD_FAULT"%string]> (<[4%nat := "LOAD_MISALIGNED"%string]>
   (<[3%nat := "BREAKPOINT"%string]> (<[2%nat := "TEXT_ILLEGAL"%string]> (<[1%nat := "TEXT_FAULT"%string]>
   (<[0%nat := "TEXT_MISALIGNED"%string]> (exception_name t))))))))))))))
  (<[ASY_EXTERN := Asy_extern]> (<[ASY_TIMER := Asy_timer]> (interrupt_funs t)))
  (<[SYN_SYSCALL_U := Syn_syscall_u]> (exception_funs t)).

Section trap.
Context {D : Type} {PL : Plic D} {X : Type} {TE : TrapEnv X}.

Record tst := MkTst {
  t_hart : hart;
  t_plic : D;
  t_tab : tables;
  t_stub : Z;
  t_x : X;
}.
Definition TM : Type → Type := M tst.
Definition set_hart (h : hart) (s : tst) : tst := MkTst h (t_plic s) (t_tab s) (t_stub s) (t_x s).
Definition set_plic (d : D) (s : tst) : tst := MkTst (t_hart s) d (t_tab s) (t_stub s) (t_x s).
Definition set_tab (v : tables) (s : tst) : tst := MkTst (t_hart s) (t_plic s) v (t_stub s) (t_x s).
Definition set_stub (v : Z) (s : tst) : tst := MkTst (t_hart s) (t_plic s) (t_tab s) v (t_x s).
Definition set_x (x : X) (s : tst) : tst := MkTst (t_hart s) (t_plic s) (t_tab s) (t_stub s) x.
Definition on_hart {A} (m : HM A) : TM A := zoom t_hart set_hart m.
(** The kernel sees the SIE bit of the hart as its interrupt state. *)
Definition x_in (s : tst) : X :=
  te_set_mach (set_cpu (set_sie (status_bit SIE_BIT (t_hart s))) (te_mach (t_x s))) (t_x s).
Definition x_out (x : X) (s : tst) : tst :=
  set_hart (put_status SIE_BIT (sie (m_cpu (te_mach x))) (t_hart s)) (set_x x s).
Definition on_x {A} (m : M X A) : TM A := zoom x_in x_out m.
Definition on_mach {A} (m : M mach A) : TM A := on_x (zoom te_mach te_set_mach m).
Definition cpuid (s : tst) : Z := Z.of_nat (cpu_id (m_cpu (te_mach (t_x s)))).
(** [pt->f] *)
Definition pt_get (pt : Z) (f : field) : TM Z := gets (λ s, h_mem (t_hart s) (u64 (pt + pt_off f))).

(** *** kernel/trap/plic.h, kernel/trap/plic.c *)

Definition plic_load (a : Z) : TM Z := λ s, let r := plic_rd a (t_plic s) in Ok r.1 (set_plic r.2 s).
Definition plic_store (a v : Z) : TM unit := modify (λ s, set_plic (plic_wr a v (t_plic s)) s).
Definition set_plic_priority (irq pri : Z) : TM unit := plic_store (PLIC_PRIORITY irq) pri.
Definition set_plic_my_threshold (thr : Z) : TM unit :=
  let! id := gets cpuid in plic_store (PLIC_THRESHOLD id) thr.
Definition plic_claim : TM Z := let! id := gets cpuid in plic_load (PLIC_CLAIM id).
Definition plic_complete (irq : Z) : TM unit := let! id := gets cpuid in plic_store (PLIC_CLAIM id) irq.
(** [index * 4] counts 32-bit words. *)
Definition enable_reg (hartid irq : Z) : Z := PLIC_ENABLE hartid + 4 * u32 (irq / 32 * 4).
Definition set_plic_my_enable (irq : Z) (enable : bool) : TM unit :=
  let bit := irq mod 32 in
  let! id := gets cpuid in
  let reg := enable_reg id irq in
  let! v := plic_load reg in
  if enable then plic_store reg (Z.lor v (u32 (Z.shiftl 1 bit)))
  else plic_store reg (Z.land v (u32 (Z.lnot (Z.shiftl 1 bit)))).
Definition init_plic : TM unit :=
  let! id := gets cpuid in
  when (id =? 0) (set_plic_priority IRQ_UART0 1 ;; set_plic_priority IRQ_DISK 1) ;;
  set_plic_my_threshold 0 ;;
  set_plic_my_enable IRQ_UART0 true ;;
  set_plic_my_enable IRQ_DISK true ;;
  on_hart (let! x := r_sie in w_sie (Z.lor x SIE_SEIE)).

(** *** kernel/trap/trap.c *)

Section addresses.
(** The addresses of the symbols of the linker. *)
Context (ktrap_entry utrap_entry trampoline : Z).

Definition init_trap : TM unit :=
  modify (λ s, set_tab (install (t_tab s)) s) ;;
  on_hart (w_stvec ktrap_entry).

(** The index is not limited to the length of the table. *)
Definition unknow_trap (pt : Z) : TM unit :=
  let! scause := pt_get pt FScause in
  let ec := SCAUSE_EC scause in
  let! name := deref (λ s, (if IS_INTR scause then interrupt_name (t_tab s) else exception_name (t_tab s)) !! Z.to_nat ec) in
  panic name.
Definition yield : TM unit := on_mach yield_enter ;; (λ s, Switch s).
Definition asy_timer : TM unit :=
  let! now := on_hart r_time in
  modify (set_stub now) ;;
  on_hart (w_stimecmp (u64 (now + TIME_CYCLE))) ;;
  on_mach (wakeup ChTimer) ;;
  let! sstatus := on_hart r_sstatus in
  when (Z.land sstatus SSTATUS_SPP =? 0) yield.
Definition asy_extern (pt : Z) : TM unit :=
  let! irq := plic_claim in
  (if irq =? IRQ_NONE then ret tt
   else if irq =? IRQ_UART0 then on_x te_uart_irq
   else if irq =? IRQ_DISK then on_x te_disk_irq
   else unknow_trap pt) ;;
  plic_complete irq.

(** *** kernel/syscall/syscall.c and [sys_sleep] *)

(** The loop of [sys_sleep] up to [sleep]. *)
Definition sleep_until (texp : Z) : TM Z :=
  let! stub := gets t_stub in
  if stub <? texp then on_mach (sleep ChTimer None) else ret 0.
Definition sys_sleep (a0 : Z) : TM Z :=
  let! now := on_hart r_time in
  sleep_until (u64 (now + u64 (a0 * TIME_CYCLE))).
Definition sys_sleep_resume (texp : Z) : TM Z :=
  on_mach (sleep_resume None) ;;
  sleep_until texp.

(** [mypt()] *)
Definition mypt : TM Z := let! k := deref (λ s, te_kstack (t_x s)) in ret (u64 (k - SZPT)).
Definition pt_args (pt : Z) : TM (list Z) :=
  gets (λ s, (λ r, h_mem (t_hart s) (u64 (pt + pt_off (FReg r)))) <$> [A0; A1; A2; A3; A4; A5]).
(** The end of [do_syscall]. *)
Definition syscall_ret (r : Z) : TM unit :=
  let! pt := mypt in
  on_hart (modify (set_word (u64 (pt + pt_off (FReg A0))) (u64 r))).
Definition do_syscall (pt : Z) : TM unit :=
  let! a7 := pt_get pt (FReg A7) in
  let sysno := i32 a7 in
  if (sysno <? 0) || (Z.of_nat (length syscalls) - 1 <? sysno) then panic "do_syscall: illegal sysno" else
  let! name := deref (λ _, mjoin (syscalls !! Z.to_nat sysno)) in
  let! args := pt_args pt in
  let! r := match name with
    | Sleep => let! a0 := deref (λ _, args !! 0%nat) in sys_sleep a0
    | _ => on_x (te_syscall name args)
    end in
  syscall_ret r.

(** *** [do_trap] *)

Definition run_fn (f : trap_fn) (pt : Z) : TM unit :=
  match f with
  | Unknow_trap => unknow_trap pt
  | Asy_timer => asy_timer
  | Asy_extern => asy_extern pt
  | Syn_syscall_u => do_syscall pt
  end.
(** The part behind the handler. *)
Definition do_trap_exit (from_user : bool) (sstatus sepc : Z) : TM unit :=
  when from_user (on_hart (cli ;; w_stvec (u64 (utrap_entry - trampoline + TRAMPOLINE)))) ;;
  on_hart (w_sstatus sstatus ;; w_sepc sepc).
Definition is_from_user (sstatus : Z) : bool := Z.land sstatus SSTATUS_SPP =? 0.
(** The value [sepc] has behind the handler. *)
Definition sepc_after (scause sepc : Z) : Z :=
  if IS_INTR scause then sepc else if cmin (SCAUSE_EC scause) 15 =? 8 then u64 (sepc + 4) else sepc.
Definition do_trap (pt : Z) : TM unit :=
  let! sstatus := pt_get pt FSstatus in
  let! sepc := pt_get pt FSepc in
  let! scause := pt_get pt FScause in
  let ec := SCAUSE_EC scause in
  when (is_from_user sstatus) (on_hart (w_stvec ktrap_entry)) ;;
  (if IS_INTR scause then
     let! f := deref (λ s, interrupt_funs (t_tab s) !! Z.to_nat (cmin ec (10 - 1))) in run_fn f pt
   else
     let! f := deref (λ s, exception_funs (t_tab s) !! Z.to_nat (cmin ec (16 - 1))) in run_fn f pt) ;;
  do_trap_exit (is_from_user sstatus) sstatus (sepc_after scause sepc).
(** [do_trap] behind a [yield] of the timer handler, and behind a system call that
    slept, which [k] finishes. *)
Definition trap_resume (k : TM unit) (sstatus scause sepc : Z) : TM unit :=
  k ;; do_trap_exit (is_from_user sstatus) sstatus (sepc_after scause sepc).

(** *** kernel/trap/pt_reg.S *)

Definition saved : list reg :=
  [Ra; Gp; Tp; T0; T1; T2; T3; T4; T5; T6; S0; S1; S2; S3; S4; S5; S6; S7; S8; S9; S10; S11; A0; A1; A2; A3; A4; A5; A6; A7].
Definition save_csr (c : csr) (f : field) : list instr := [Csrr A0 c; Sd A0 (PT f) Sp].
Definition save_trap_context : list instr :=
  Addi Sp Sp (- PT_SIZE) :: ((λ r, Sd r (PT (FReg r)) Sp) <$> saved) ++
  save_csr Sepc FSepc ++ save_csr Sstatus FSstatus ++ save_csr Stval FStval ++ save_csr Scause FScause.
Definition recovered : list reg :=
  [A0; A1; A2; A3; A4; A5; A6; A7; S0; S1; S2; S3; S4; S5; S6; S7; S8; S9; S10; S11; T0; T1; T2; T3; T4; T5; T6; Gp; Ra].
Definition recover_trap_context : list instr :=
  ((λ r, Ld r (PT (FReg r)) Sp) <$> recovered) ++ [Addi Sp Sp PT_SIZE].
(** The code runs under the translation of the page tables. *)
Definition asm (l : list instr) : TM unit := λ s, on_hart (execs (te_mmu (t_x s)) l) s.
(** A call of [do_trap] with the frame in [a0]; the registers a call need not preserve
    have arbitrary values behind it. *)
Definition caller_saved (r : reg) : bool :=
  match r with Ra | T0 | T1 | T2 | T3 | T4 | T5 | T6 | A0 | A1 | A2 | A3 | A4 | A5 | A6 | A7 => true | _ => false end.
Context (scratch : reg → Z).
Definition clobber (h : hart) : hart :=
  MkHart (λ r, if caller_saved r then scratch r else h_reg h r) (h_csr h) (h_mode h) (h_pc h) (h_mem h).
Definition call_do_trap : TM unit :=
  let! pt := gets (λ s, h_reg (t_hart s) A0) in
  do_trap pt ;;
  on_hart (modify clobber).

Definition ktrap_code : TM unit :=
  asm save_trap_context ;;
  asm [Addi A0 Sp PT_SIZE; Sd A0 (PT (FReg Sp)) Sp; Mv A0 Sp] ;;
  call_do_trap ;;
  asm recover_trap_context ;;
  on_hart (modify sret).
(** [utrap_entry] up to the call, and behind it. *)
Definition utrap_enter : TM unit :=
  asm ([Csrw Sscratch Sp; Li Sp TRAPFRAME; Ld Sp 0 Sp; Csrw Satp Sp; Ld Sp CPU_KSTACK Tp] ++ save_trap_context ++
       [Csrr A0 Sscratch; Sd A0 (PT (FReg Sp)) Sp; Mv A0 Sp; Ld T0 CPU_TRAP Tp]).
Definition utrap_exit : TM unit :=
  asm ([Ld A0 (PT (FReg Sp)) Sp; Csrw Sscratch A0] ++ recover_trap_context ++ [Ld Sp CPU_SATP Tp; Csrw Satp Sp; Csrr Sp Sscratch]) ;;
  on_hart (modify sret).
(** [do_trap_addr] is the address of [do_trap], to which [jalr t0] jumps. *)
Definition utrap_code (do_trap_addr : Z) : TM unit :=
  utrap_enter ;;
  let! t0 := gets (λ s, h_reg (t_hart s) T0) in
  (if t0 =? do_trap_addr then call_do_trap else fault) ;;
  utrap_exit.
End addresses.
End trap.
#[global] Arguments tst : clear implicits.
