(* ===== verification/KernelMap.v ===== *)
(** [init_page] of kernel/mem/vm.c: the page table of the kernel.

    The addresses the linker gives ([etext], [trampoline], [brodata], [erodata], [end])
    are parameters.  The loops end with pages of 4 KiB and 2 MiB for the memory behind
    the kernel. *)
From S2P Require Import Prelude Bytes Machine PageAlloc Vm Riscv Trap.

Definition KBASE : Z := PHY_MEMORY.
Definition CLINT : Z := 0x2000000.
Definition CLINT_SIZE : Z := 0x10000.
Definition UART0 : Z := 0x10000000.
Definition UART0_SIZE : Z := PGSIZE.
Definition VIRIO : Z := 0x10001000.
Definition VIRIO_SIZE : Z := PGSIZE.
Definition POWER : Z := 0x100000.
Definition POWER_SIZE : Z := PGSIZE.
Definition RW : Z := Z.lor PTE_R PTE_W.
Definition RX : Z := Z.lor PTE_R PTE_X.

(** The variables [kernel_pgt] and [kernel_satp] and the register [satp]. *)
Record kvars := MkKv { kernel_pgt : Z; kernel_satp : Z; reg_satp : Z }.
Definition KM : Type → Type := M ((mach * pmem) * kvars).
Definition on_pages {A} (m : PM A) : KM A := zoom fst (λ x s, (x, s.2)) m.

(** [for (; more(va); va += delta) step(va);]: the value of [va] at the end. *)
Section loops.
Context {St : Type}.
Fixpoint map_while (more : Z → bool) (step : Z → M St unit) (delta : Z) (fuel : nat) (va : Z) : M St Z :=
  if more va then
    match fuel with
    | O => fault
    | S fuel => step va ;; map_while more step delta fuel (u64 (va + delta))
    end
  else ret va.
(** The three loops; [small] and [big] map one page. *)
Definition map_rest (small big : Z → M St unit) (va bound : Z) : M St unit :=
  let fuel := Z.to_nat (bound / PGSIZE) in
  let! va := map_while (λ va, negb (va mod MPGSIZE =? 0) && (va <? bound)) small PGSIZE fuel va in
  let! va := map_while (λ va, negb (va mod GPGSIZE =? 0) && (va <? bound)) big MPGSIZE fuel va in
  let! va := map_while (λ va, va <? bound) small PGSIZE fuel va in
  ret tt.
End loops.

Section init_page.
Context (etext trampoline brodata erodata kend : Z).
Definition KCODE_SIZE : Z := u64 (align_up etext PGSIZE - KBASE).
Definition KRODATA : Z := brodata.
Definition KRODATA_SIZE : Z := u64 (align_up erodata PGSIZE - KRODATA).
Definition KDATA : Z := u64 (KRODATA + KRODATA_SIZE).
Definition KDATA_SIZE : Z := u64 (align_up kend PGSIZE - KDATA).

Definition kmap (va pa size attr : Z) : KM unit :=
  let! p := gets (λ s, kernel_pgt s.2) in on_pages (svmmap p va pa size attr None).
Definition kmap_big (va pa size attr : Z) : KM unit :=
  let! p := gets (λ s, kernel_pgt s.2) in on_pages (mvmmap p va pa size attr).
Definition init_page (cpuid : Z) : KM unit :=
  (if cpuid =? 0 then
    let! i := on_pages alloc_page in
    modify (λ s, (s.1, MkKv (paddr_of i) (kernel_satp s.2) (reg_satp s.2))) ;;
    kmap POWER POWER POWER_SIZE RW ;;
    kmap CLINT CLINT CLINT_SIZE RW ;;
    kmap PLIC PLIC PLIC_SIZE RW ;;
    kmap UART0 UART0 UART0_SIZE RW ;;
    kmap VIRIO VIRIO VIRIO_SIZE RW ;;
    kmap KBASE KBASE KCODE_SIZE RX ;;
    kmap trampoline trampoline PGSIZE RX ;;
    kmap TRAMPOLINE trampoline PGSIZE RX ;;
    kmap KRODATA KRODATA KRODATA_SIZE PTE_R ;;
    kmap KDATA KDATA KDATA_SIZE RW ;;
    let va := align_up (u64 (KDATA + KDATA_SIZE)) PGSIZE in
    let bound := if PHY_TOP <? VA_TOP then PHY_TOP else VA_TOP in
    map_rest (λ va, kmap va va PGSIZE RW) (λ va, kmap_big va va MPGSIZE RW) va bound
  else ret tt) ;;
  modify (λ s, (s.1, MkKv (kernel_pgt s.2) (Z.lor SATP_MODE (Z.shiftr (kernel_pgt s.2) 12)) (reg_satp s.2))) ;;
  modify (λ s, (s.1, MkKv (kernel_pgt s.2) (kernel_satp s.2) (kernel_satp s.2))).
End init_page.

(** ** The memory behind the kernel *)

(** A list of pages, each with its size, that lie one behind the other from [va] to
    [bound]. *)
Fixpoint covers (va : Z) (l : list (Z * Z)) (bound : Z) : Prop :=
  match l with
  | [] => va = bound
  | (a, n) :: l => a = va ∧ 0 < n ∧ covers (va + n) l bound
  end.
Lemma covers_app va l mid l' bound : covers va l mid → covers mid l' bound → covers va (l ++ l') bound.
Proof. revert va. induction l as [|[a n] l IH]; cbn; [by intros va ->|]. intros va (? & ? & ?) ?. auto. Qed.
(** Every address of the range is in exactly one of the pages. *)
Lemma covers_once va l bound x : covers va l bound → va ≤ x < bound →
  ∃ i p, l !! i = Some p ∧ p.1 ≤ x < p.1 + p.2 ∧ ∀ j q, l !! j = Some q → q.1 ≤ x < q.1 + q.2 → j = i.
Proof.
  assert (G : ∀ l va x, covers va l bound → x < va → ∀ j q, l !! j = Some q → ¬ q.1 ≤ x).
  { clear. intros l. induction l as [|[a n] l IH]; intros va x H Hx j q; [done|]. destruct H as (-> & Hn & H).
    destruct j as [|j]; cbn; [intros [= <-]; cbn; lia|]. apply (IH (va + n)); [done|lia]. }
  revert va. induction l as [|[a n] l IH]; intros va; [cbn; lia|]. intros (-> & Hn & H) Hx.
  destruct (decide (x < va + n)) as [Hin|Hout].
  - exists 0%nat, (va, n). split; [done|]. split; [cbn; lia|]. intros [|j] q; [done|]. cbn. intros Hj Hq. pose proof (G l (va + n) x H Hin j q Hj). lia.
  - destruct (IH (va + n) H ltac:(lia)) as (i & p & E & Hp & Hu). exists (S i), p. split; [done|]. split; [done|].
    intros [|j] q; cbn; [intros [= <-]; cbn; lia|]. intros Hj Hq. f_equal. by apply (Hu j q).
Qed.

Section run.
Context {St : Type} (small big : Z → M St unit).
(** The mappings of a list, one after the other. *)
Fixpoint run_maps (l : list (Z * Z)) : M St unit :=
  match l with
  | [] => ret tt
  | (a, n) :: l => (if n =? PGSIZE then small a else big a) ;; run_maps l
  end.
Lemma run_maps_app l l' s : run_maps (l ++ l') s = (run_maps l ;; run_maps l') s.
Proof.
  revert s. induction l as [|[a n] l IH]; intros s; [done|]. cbn [run_maps app]. unfold bind in *.
  destruct ((if n =? PGSIZE then small a else big a) s); [apply IH|done..].
Qed.
End run.
(** A loop is a list of mappings, decided before the first of them runs. *)
Lemma while_runs more delta bound fuel va :
  (∀ v, more v = true → v < bound) → 0 < delta → 0 ≤ va → bound + delta ≤ 2 ^ 64 → bound - va ≤ delta * Z.of_nat fuel →
  ∃ l va', (∀ St (small big : Z → M St unit) s,
      map_while more (λ a, if delta =? PGSIZE then small a else big a) delta fuel va s = (run_maps small big l ;; ret va') s) ∧ covers va l va' ∧ more va' = false ∧ va ≤ va' ∧
    (va' - va) mod delta = 0 ∧ (va ≤ bound → (bound - va) mod delta = 0 → va' ≤ bound) ∧
    ∀ a n, (a, n) ∈ l → n = delta ∧ (a - va) mod delta = 0.
Proof.
  intros Hm Hd. revert va. induction fuel as [|fuel IH]; intros va Hva Hb Hf; cbn [map_while].
  - assert (more va = false) as E by (destruct (more va) eqn:E; [apply Hm in E; lia|done]). rewrite E.
    exists [], va. rewrite Z.sub_diag. split_and!; [done|done|done|lia|by apply Z.mod_0_l; lia|done|by intros a n ?%elem_of_nil].
  - destruct (more va) eqn:E.
    + pose proof (Hm va E). assert (u64 (va + delta) = va + delta) as -> by (apply Z.mod_small; lia).
      destruct (IH (va + delta)) as (l & va' & H1 & H2 & H3 & H4 & H5 & H6 & H7); [lia|lia|lia|].
      assert (Hs : ∀ x, (x - va) mod delta = (x - (va + delta)) mod delta).
      { intros x. replace (x - va) with (x - (va + delta) + 1 * delta) by lia. by rewrite Z.mod_add by lia. }
      exists ((va, delta) :: l), va'. split_and!; [|done|done|lia|by rewrite Hs| |].
      * intros St small big s. cbn [run_maps]. rewrite bind_assoc. unfold bind at 1 2.
        destruct ((if delta =? PGSIZE then small va else big va) s); [apply H1|done..].
      * intros Hle H0. apply H6; [|by rewrite <- Hs]. apply Z.mod_divide in H0 as [q Hq]; [|lia]. assert (0 < q) by nia. nia.
      * intros a n [[= -> ->]|Hin]%elem_of_cons; [split; [done|]; rewrite Z.sub_diag; by apply Z.mod_0_l; lia|]. rewrite Hs. by apply H7.
    + exists [], va. rewrite Z.sub_diag. split_and!; [done|done|done|lia|by apply Z.mod_0_l; lia|done|by intros a n ?%elem_of_nil].
Qed.

Lemma mod_shift m a b : 0 < m → (a - b) mod m = 0 → b mod m = 0 → a mod m = 0.
Proof. intros Hm Ha Hb. rewrite <- (Z.sub_add b a), Z.add_mod, Ha, Hb by lia. by apply Z.mod_0_l; lia. Qed.
Lemma mod_diff m a b : 0 < m → a mod m = 0 → b mod m = 0 → (a - b) mod m = 0.
Proof. intros Hm Ha Hb. rewrite Zminus_mod, Ha, Hb. by apply Z.mod_0_l; lia. Qed.
(** The loops of [init_page] are a list of mappings of pages of 4 KiB and 2 MiB, one
    behind the other from [va] to the end of physical memory; a page of 2 MiB is aligned.
    Hence every page behind the kernel is mapped once, and nothing outside. *)
Theorem map_rest_covers va : PHY_MEMORY ≤ va ≤ PHY_TOP → va mod PGSIZE = 0 →
  ∃ l, covers va l PHY_TOP ∧ (∀ a n, (a, n) ∈ l → n = PGSIZE ∧ a mod PGSIZE = 0 ∨ n = MPGSIZE ∧ a mod MPGSIZE = 0) ∧
    ∀ St (small big : Z → M St unit) s, map_rest small big va PHY_TOP s = run_maps small big l s.
Proof.
  intros Hva H4. assert (Hsz : PGSIZE = 4096 ∧ MPGSIZE = 2097152 ∧ PHY_TOP = 0xA0000000 ∧ PHY_MEMORY = 0x80000000) by (repeat split; reflexivity).
  destruct Hsz as (Z1 & Z2 & Z3 & Z4). unfold map_rest.
  assert (Hf : Z.of_nat (Z.to_nat (PHY_TOP / PGSIZE)) = 0xA0000) by (apply Z2Nat.id; vm_compute; discriminate).
  generalize dependent (Z.to_nat (PHY_TOP / PGSIZE)). intros fuel Hf.
  destruct (while_runs (λ v, negb (v mod MPGSIZE =? 0) && (v <? PHY_TOP)) PGSIZE PHY_TOP fuel va) as (l1 & v1 & R1 & C1 & M1 & L1 & D1 & B1 & N1);
    [intros v [_ ?]%andb_true_iff; lia|lia|lia|lia|lia|].
  assert (P1 : v1 ≤ PHY_TOP ∧ v1 mod MPGSIZE = 0).
  { assert (v1 ≤ PHY_TOP) by (apply B1; [lia|]; by apply mod_diff; [lia|reflexivity|]). split; [done|].
    apply andb_false_iff in M1 as [M1|M1]; [apply negb_false_iff in M1; lia|]. assert (v1 = PHY_TOP) as -> by lia. reflexivity. }
  destruct (while_runs (λ v, negb (v mod GPGSIZE =? 0) && (v <? PHY_TOP)) MPGSIZE PHY_TOP fuel v1) as (l2 & v2 & R2 & C2 & M2 & L2 & D2 & B2 & N2);
    [intros v [_ ?]%andb_true_iff; lia|lia|lia|lia|lia|].
  assert (P2 : v2 ≤ PHY_TOP ∧ v2 mod PGSIZE = 0).
  { split; [apply B2; [lia|]; apply mod_diff; [lia|reflexivity|apply P1]|].
    assert (v2 mod MPGSIZE = 0) as E%Z.mod_divide by (eapply mod_shift; [lia|exact D2|apply P1]); [|lia].
    apply Z.mod_divide; [lia|]. destruct E as [q ->]. exists (512 * q). lia. }
  destruct (while_runs (λ v, v <? PHY_TOP) PGSIZE PHY_TOP fuel v2) as (l3 & v3 & R3 & C3 & M3 & L3 & D3 & B3 & N3);
    [intros v ?; lia|lia|lia|lia|lia|].
  assert (v3 = PHY_TOP) as ->.
  { assert (v3 ≤ PHY_TOP) by (apply B3; [lia|]; apply mod_diff; [lia|reflexivity|apply P2]). lia. }
  exists (l1 ++ l2 ++ l3). split; [by eapply covers_app, covers_app|]. split.
  - intros a n. rewrite !elem_of_app. intros [[-> Ha]%N1|[[-> Ha]%N2|[-> Ha]%N3]]; [left|right|left]; (split; [done|]);
      (eapply mod_shift; [lia|exact Ha|]; tauto).
  - intros St small big s. rewrite run_maps_app. specialize (R1 St small big). specialize (R2 St small big). specialize (R3 St small big).
    cbn [Z.eqb] in *. unfold bind in *. rewrite R1. destruct (run_maps small big l1 s); [|done..]. unfold ret at 1.
    rewrite run_maps_app. rewrite R2. unfold bind. destruct (run_maps small big l2 _); [|done..]. unfold ret at 1.
    rewrite R3. by destruct (run_maps small big l3 _) as [[] ?|? ?|?|?|?].
Qed.
