(* ===== verification/TrapResults.v ===== *)
(** Results on traps (kernel/trap, kernel/syscall/syscall.c): a trap is invisible to the
    code it interrupts, every interrupt that is claimed is completed, and a task that
    sleeps for a time is woken by the timer. *)
From S2P Require Import Prelude Machine Sched Riscv Trap.

(** ** [struct pt_regs] *)

(** C39: the offsets the assembly code uses are those of the fields of [struct pt_regs],
    the frame has the size of the struct, and no two fields overlap. *)
Theorem pt_layout : PT_SIZE = SZPT ∧ (∀ f, PT f = pt_off f ∧ 0 ≤ PT f ∧ PT f + 8 ≤ PT_SIZE) ∧
  ∀ f g, f ≠ g → PT f + 8 ≤ PT g ∨ PT g + 8 ≤ PT f.
Proof.
  assert (Hr : ∀ f, PT f = 8 * (PT f / 8)) by (intros [[]| | | |]; reflexivity).
  assert (Hi : ∀ f g, PT f = PT g → f = g).
  { intros f g. destruct f as [r| | | |]; [destruct r|..]; destruct g as [r'| | | |]; try destruct r'; try done; intros H; discriminate H. }
  split; [reflexivity|]. split.
  - intros [[]| | | |]; (split; [reflexivity|split; apply Z.leb_le; reflexivity]).
  - intros f g Hne. rewrite (Hr f), (Hr g). assert (PT f / 8 ≠ PT g / 8); [|lia].
    intros E. apply Hne, Hi. rewrite (Hr f), (Hr g). by rewrite E.
Qed.
Lemma PT_inj f g : PT f = PT g → f = g.
Proof.
  destruct f as [r| | | |]; [destruct r|..]; destruct g as [r'| | | |]; try destruct r'; try done; intros H; discriminate H.
Qed.
Lemma PT_range f : 0 ≤ PT f ≤ 272.
Proof. split; apply Z.leb_le; by destruct f as [[]| | | |]. Qed.
Lemma pt_off_PT f : pt_off f = PT f.
Proof. by destruct f as [[]| | | |]. Qed.

(** ** Straight-line code *)

Lemma execs_app mmu l l' h : execs mmu (l ++ l') h = (execs mmu l ;; execs mmu l') h.
Proof.
  revert h. induction l as [|i l IH]; intros h; [done|]. cbn [execs app]. rewrite bind_assoc. unfold bind.
  destruct (exec mmu i h) as [[] h'|?|?|?|?]; [apply IH|done..].
Qed.
Definition same_csr (h h' : hart) : Prop := h_csr h' = h_csr h ∧ h_mode h' = h_mode h ∧ h_pc h' = h_pc h.
Lemma same_csr_refl h : same_csr h h.
Proof. done. Qed.
Lemma same_csr_trans h1 h2 h3 : same_csr h1 h2 → same_csr h2 h3 → same_csr h1 h3.
Proof. intros (E1 & E2 & E3) (F1 & F2 & F3). unfold same_csr. by rewrite F1, F2, F3. Qed.

Section stores.
(** Stores and loads of registers at the distances [off] from [p], which [base] holds. *)
Context (mmu : Z → Z → option Z) (off : reg → Z) (base : reg) (p : Z).
Lemma execs_stores l h : h_reg h base = p → (∀ r, r ∈ l → mmu (h_csr h Satp) (u64 (p + off r)) = Some (p + off r)) →
  (∀ r q, r ∈ l → q ∈ l → off r = off q → r = q) →
  ∃ h', execs mmu ((λ r, Sd r (off r) base) <$> l) h = Ok tt h' ∧ same_csr h h' ∧ h_reg h' = h_reg h ∧
    (∀ r, r ∈ l → h_mem h' (p + off r) = h_reg h r) ∧ ∀ a, (∀ r, r ∈ l → a ≠ p + off r) → h_mem h' a = h_mem h a.
Proof.
  revert h. induction l as [|r l IH]; intros h Hs Hm Hi.
  { exists h. split; [done|]. split; [done|]. split; [done|]. split; [intros r []%elem_of_nil|done]. }
  set (h1 := set_word (p + off r) (h_reg h r) h).
  destruct (IH h1 Hs) as (h' & E & Hc & Hr & Hin & Hout); [intros q Hq; apply Hm; by right|intros q q' Hq Hq'; apply Hi; by right|]. exists h'. split.
  { cbn [fmap list_fmap execs]. rewrite (bind_ok _ _ _ tt h1); [exact E|]. cbn [exec]. unfold update, addr_of.
    rewrite Hs, (Hm r) by (by left). done. }
  split; [done|]. split; [done|]. split.
  - intros q [-> | Hq]%elem_of_cons; [|by apply Hin]. destruct (decide (r ∈ l)) as [Hq|Hq]; [by apply Hin|].
    rewrite Hout; [cbn; unfold fset; by rewrite decide_True|]. intros q Hql Eq. apply Hq. rewrite (Hi r q); [done|by left|by right|lia].
  - intros a Ha. rewrite Hout by (intros q Hq; apply Ha; by right). cbn. unfold fset. rewrite decide_False; [done|]. apply Ha. by left.
Qed.
Lemma execs_loads l h : h_reg h base = p → (∀ r, r ∈ l → mmu (h_csr h Satp) (u64 (p + off r)) = Some (p + off r)) → base ∉ l →
  ∃ h', execs mmu ((λ r, Ld r (off r) base) <$> l) h = Ok tt h' ∧ same_csr h h' ∧ h_mem h' = h_mem h ∧
    ∀ r, h_reg h' r = if decide (r ∈ l) then h_mem h (p + off r) else h_reg h r.
Proof.
  revert h. induction l as [|r l IH]; intros h Hs Hm Hl.
  { exists h. split; [done|]. split; [done|]. split; [done|]. intros r. by rewrite decide_False by (by apply not_elem_of_nil). }
  apply not_elem_of_cons in Hl as [Hr Hl]. set (h1 := set_reg r (h_mem h (p + off r)) h).
  destruct (IH h1) as (h' & E & Hc & Hmem & Hreg); [cbn; unfold fset; by rewrite decide_False|intros q Hq; apply Hm; by right|done|]. exists h'. split.
  { cbn [fmap list_fmap execs]. rewrite (bind_ok _ _ _ tt h1); [exact E|]. cbn [exec]. unfold update, addr_of.
    rewrite Hs, (Hm r) by (by left). done. }
  split; [done|]. split; [done|]. intros q. rewrite Hreg. cbn [h1 set_reg h_mem h_reg]. unfold fset. destruct (decide (q ∈ l)) as [Hq|Hq].
  - by rewrite decide_True by (by right).
  - destruct (decide (q = r)) as [->|Hqr]; [by rewrite decide_True by (by left)|]. rewrite decide_False; [done|]. by apply not_elem_of_cons.
Qed.
End stores.

Section frame.
(** A frame at [pt] that the translation maps to itself. *)
Context (mmu : Z → Z → option Z) (pt : Z) (Hpt : 0 ≤ pt ∧ pt + 280 < 2 ^ 64).
Definition at_pt (f : field) : Z := pt + PT f.
Lemma at_pt_u64 f : u64 (pt + PT f) = at_pt f.
Proof. pose proof (PT_range f). unfold at_pt. apply u64_id. lia. Qed.
Lemma at_pt_inj f g : at_pt f = at_pt g → f = g.
Proof. unfold at_pt. intros H. apply PT_inj. lia. Qed.
(** The stack the frame is on is mapped one to one. *)
Definition stack_mapped (satp : Z) : Prop := ∀ a, pt ≤ a < pt + 280 → mmu satp a = Some a.
Lemma frame_mapped satp f : stack_mapped satp → mmu satp (u64 (pt + PT f)) = Some (at_pt f).
Proof. intros H. rewrite at_pt_u64. apply H. unfold at_pt. pose proof (PT_range f). lia. Qed.

Lemma execs_save l h : stack_mapped (h_csr h Satp) → h_reg h Sp = pt →
  ∃ h', execs mmu ((λ r, Sd r (PT (FReg r)) Sp) <$> l) h = Ok tt h' ∧ same_csr h h' ∧ h_reg h' = h_reg h ∧
    (∀ r, r ∈ l → h_mem h' (at_pt (FReg r)) = h_reg h r) ∧ ∀ a, (∀ r, r ∈ l → a ≠ at_pt (FReg r)) → h_mem h' a = h_mem h a.
Proof.
  intros Hm Hs. apply (execs_stores mmu (λ r, PT (FReg r)) Sp pt l h Hs); [intros r _; by apply frame_mapped|].
  intros r q _ _ H. apply PT_inj in H. congruence.
Qed.
Lemma execs_load l h : stack_mapped (h_csr h Satp) → h_reg h Sp = pt → Sp ∉ l →
  ∃ h', execs mmu ((λ r, Ld r (PT (FReg r)) Sp) <$> l) h = Ok tt h' ∧ same_csr h h' ∧ h_mem h' = h_mem h ∧
    ∀ r, h_reg h' r = if decide (r ∈ l) then h_mem h (at_pt (FReg r)) else h_reg h r.
Proof. intros Hm Hs. apply (execs_loads mmu (λ r, PT (FReg r)) Sp pt l h Hs). intros r _. by apply frame_mapped. Qed.

(** What a trap stores in a field. *)
Definition fval (h : hart) (f : field) : Z :=
  match f with
  | FReg r => h_reg h r
  | FSepc => read_csr Sepc h
  | FSstatus => read_csr Sstatus h
  | FStval => read_csr Stval h
  | FScause => read_csr Scause h
  end.
Lemma read_same c h h' : same_csr h h' → read_csr c h' = read_csr c h.
Proof. intros (E & _). unfold read_csr. by rewrite E. Qed.
Lemma execs_csr c f h : stack_mapped (h_csr h Satp) → h_reg h Sp = pt →
  ∃ h', execs mmu (save_csr c f) h = Ok tt h' ∧ same_csr h h' ∧ (∀ r, r ≠ A0 → h_reg h' r = h_reg h r) ∧
    h_mem h' = fset (at_pt f) (read_csr c h) (h_mem h).
Proof.
  intros Hm Hs. set (h1 := set_reg A0 (read_csr c h) h). exists (set_word (at_pt f) (read_csr c h) h1). split.
  { unfold save_csr. cbn [execs exec]. rewrite bind_modify. fold h1. unfold bind, update, addr_of, ret.
    assert (h_reg h1 Sp = pt) as -> by exact Hs. change (h_csr h1 Satp) with (h_csr h Satp). rewrite frame_mapped by done. done. }
  split; [done|]. split; [|done]. intros r Hr. cbn. unfold fset. by rewrite decide_False.
Qed.
Lemma fset_in {A} `{EqDecision A} (x : A) v f : fset x v f x = v.
Proof. unfold fset. by rewrite decide_True. Qed.
Lemma fset_out {A} `{EqDecision A} (x y : A) v f : y ≠ x → fset x v f y = f y.
Proof. intros. unfold fset. by rewrite decide_False. Qed.
Definition off_frame (a : Z) : Prop := ∀ f, a ≠ at_pt f.

Lemma save_spec h : stack_mapped (h_csr h Satp) → h_reg h Sp = pt + 280 →
  ∃ h', execs mmu save_trap_context h = Ok tt h' ∧ same_csr h h' ∧ h_reg h' Sp = pt ∧
    (∀ r, r ≠ Sp → r ≠ A0 → h_reg h' r = h_reg h r) ∧ (∀ f, f ≠ FReg Sp → h_mem h' (at_pt f) = fval h f) ∧
    ∀ a, off_frame a → h_mem h' a = h_mem h a.
Proof.
  intros Hm Hs. set (h1 := set_reg Sp pt h).
  destruct (execs_save saved h1 Hm eq_refl) as (h2 & E2 & C2 & R2 & In2 & Out2).
  assert (HC : ∀ c f g, same_csr h g → h_reg g Sp = pt → ∃ g', execs mmu (save_csr c f) g = Ok tt g' ∧ same_csr h g' ∧ h_reg g' Sp = pt ∧
    (∀ r, r ≠ A0 → h_reg g' r = h_reg g r) ∧ h_mem g' = fset (at_pt f) (read_csr c h) (h_mem g)).
  { intros c f g Cg Sg. destruct (execs_csr c f g) as (g' & E & C & R & Mg); [by rewrite (proj1 Cg)|done|]. exists g'.
    split; [done|]. split; [by eapply same_csr_trans|]. split; [by rewrite R|]. split; [done|]. by rewrite Mg, (read_same _ _ _ Cg). }
  destruct (HC Sepc FSepc h2) as (h3 & E3 & C3 & S3 & R3 & M3); [done|by rewrite R2|].
  destruct (HC Sstatus FSstatus h3) as (h4 & E4 & C4 & S4 & R4 & M4); [done|done|].
  destruct (HC Stval FStval h4) as (h5 & E5 & C5 & S5 & R5 & M5); [done|done|].
  destruct (HC Scause FScause h5) as (h6 & E6 & C6 & S6 & R6 & M6); [done|done|].
  exists h6. split.
  { unfold save_trap_context. cbn [execs exec]. rewrite bind_modify.
    assert (set_reg Sp (u64 (h_reg h Sp + - PT_SIZE)) h = h1) as ->.
    { unfold h1. f_equal. rewrite Hs. unfold PT_SIZE. rewrite u64_id by lia. lia. }
    rewrite !execs_app. run E2. rewrite execs_app. run E3. rewrite execs_app. run E4. rewrite execs_app. run E5. exact E6. }
  split; [done|]. split; [done|]. split.
  { intros r Hr Ha. rewrite R6, R5, R4, R3, R2 by done. cbn. by apply fset_out. }
  assert (Hne : ∀ f g, f ≠ g → at_pt f ≠ at_pt g) by (intros f g Hfg H; by apply Hfg, at_pt_inj).
  split; [|intros a Ha; rewrite M6, M5, M4, M3, !fset_out by apply Ha; by rewrite Out2].
  intros f Hf. rewrite M6, M5, M4, M3. destruct f as [r| | | |]; cbn [fval].
  - rewrite !fset_out by (by apply Hne). rewrite In2; [cbn; apply fset_out; congruence|]. destruct r; try congruence; by repeat constructor.
  - by rewrite !fset_out, fset_in by (by apply Hne).
  - by rewrite !fset_out, fset_in by (by apply Hne).
  - by rewrite !fset_out, fset_in by (by apply Hne).
  - by rewrite fset_in.
Qed.
Lemma recover_spec h : stack_mapped (h_csr h Satp) → h_reg h Sp = pt →
  ∃ h', execs mmu recover_trap_context h = Ok tt h' ∧ same_csr h h' ∧ h_mem h' = h_mem h ∧ h_reg h' Sp = pt + 280 ∧
    h_reg h' Tp = h_reg h Tp ∧ ∀ r, r ≠ Sp → r ≠ Tp → h_reg h' r = h_mem h (at_pt (FReg r)).
Proof.
  intros Hm Hs. destruct (execs_load recovered h Hm Hs) as (h1 & E1 & C1 & M1 & R1).
  { unfold recovered. rewrite !not_elem_of_cons. repeat split; try done. by apply not_elem_of_nil. }
  exists (set_reg Sp (pt + 280) h1). split.
  { unfold recover_trap_context. rewrite execs_app. run E1. cbn [execs exec]. rewrite bind_modify. unfold ret. do 2 f_equal.
    rewrite R1, decide_False, Hs by (unfold recovered; rewrite !not_elem_of_cons; repeat split; try done; by apply not_elem_of_nil).
    unfold PT_SIZE. rewrite u64_id by lia. done. }
  split; [done|]. split; [done|]. split; [apply fset_in|]. split.
  { cbn. rewrite fset_out, R1 by done. rewrite decide_False; [done|]. unfold recovered. rewrite !not_elem_of_cons. repeat split; try done. by apply not_elem_of_nil. }
  intros r Hr Ht. cbn. rewrite fset_out, R1 by done. rewrite decide_True; [done|]. destruct r; try congruence; by repeat constructor.
Qed.
End frame.

(** ** Handlers *)

Section handlers.
Context {D : Type} {PL : Plic D} {X : Type} {TE : TrapEnv X}.
Implicit Types (s : tst D X) (h : hart).

(** What a handler leaves of the hart: all but the interrupt enable bit and the time of
    the next timer interrupt. *)
Record hart_same (h h' : hart) : Prop := {
  hs_reg : h_reg h' = h_reg h;
  hs_mem : h_mem h' = h_mem h;
  hs_mode : h_mode h' = h_mode h;
  hs_csr c : c ≠ Mstatus → c ≠ Stimecmp → h_csr h' c = h_csr h c;
  hs_bit n : 0 ≤ n → n ≠ SIE_BIT → status_bit n h' = status_bit n h;
}.
#[export] Instance hart_same_preorder : PreOrder hart_same.
Proof.
  split; [done|]. intros h1 h2 h3 [] []. split; try congruence.
  - intros c H1 H2. rewrite hs_csr1, hs_csr0; done.
  - intros n H1 H2. rewrite hs_bit1, hs_bit0; done.
Qed.
Lemma put_sie_same b h : hart_same h (put_status SIE_BIT b h).
Proof.
  split; try done.
  - intros c Hc _. cbn. by apply fset_out.
  - intros n Hn Hne. rewrite status_put by done. by rewrite decide_False.
Qed.
Lemma stimecmp_same v h : hart_same h (write_csr Stimecmp v h).
Proof.
  split; try done.
  - intros c _ Hc. cbn. by apply fset_out.
Qed.
(** The machine as the kernel sees it. *)
Definition mach_in s : mach := set_cpu (set_sie (status_bit SIE_BIT (t_hart s))) (te_mach (t_x s)).
Lemma on_x_ok {A} (m : M X A) s a x : m (x_in s) = Ok a x → on_x m s = Ok a (x_out x s).
Proof. intros E. unfold on_x, zoom. by rewrite E. Qed.
Lemma mach_of_in s : te_mach (x_in s) = mach_in s.
Proof. apply te_get_set. Qed.
Lemma on_mach_ok {A} (m : M mach A) s a m' : m (mach_in s) = Ok a m' → on_mach m s = Ok a (x_out (te_set_mach m' (x_in s)) s).
Proof. intros E. apply on_x_ok. unfold zoom. by rewrite mach_of_in, E. Qed.
Lemma on_mach_switch {A} (m : M mach A) s m' : m (mach_in s) = Switch m' → on_mach m s = Switch (x_out (te_set_mach m' (x_in s)) s).
Proof. intros E. unfold on_mach, on_x, zoom. by rewrite mach_of_in, E. Qed.
Lemma x_out_same x s : hart_same (t_hart s) (t_hart (x_out x s)).
Proof. apply put_sie_same. Qed.
Lemma x_out_sie x s : status_bit SIE_BIT (t_hart (x_out x s)) = sie (m_cpu (te_mach x)).
Proof. unfold x_out. cbn [set_hart t_hart]. rewrite status_put by (unfold SIE_BIT; lia). by rewrite decide_True. Qed.
Lemma x_in_mmu s m : te_mmu (te_set_mach m (x_in s)) = te_mmu (t_x s).
Proof. unfold x_in. by rewrite !te_mmu_mach. Qed.

Lemma on_hart_gets {A} (f : hart → A) s : on_hart (gets f) s = Ok (f (t_hart s)) s.
Proof. by destruct s. Qed.

Lemma asy_timer_spec s : quiet (te_mach (t_x s)) → length (m_tasks (te_mach (t_x s))) = NPROC →
  let now := h_csr (t_hart s) Time in
  ∃ s1, asy_timer s = (if status_bit SPP_BIT (t_hart s) then Ok tt s1 else yield s1) ∧
    t_stub s1 = now ∧ h_csr (t_hart s1) Stimecmp = u64 (now + TIME_CYCLE) ∧ hart_same (t_hart s) (t_hart s1) ∧
    t_plic s1 = t_plic s ∧ t_tab s1 = t_tab s ∧ te_mmu (t_x s1) = te_mmu (t_x s) ∧
    mach_frame (mach_in s) (te_mach (t_x s1)) ∧ m_tasks (te_mach (t_x s1)) = imap (wake_at ChTimer (mytask (te_mach (t_x s)))) (m_tasks (te_mach (t_x s))) ∧
    status_bit SIE_BIT (t_hart s1) = status_bit SIE_BIT (t_hart s).
Proof.
  intros Hq Hl now. set (s0 := set_hart (write_csr Stimecmp (u64 (now + TIME_CYCLE)) (t_hart s)) (set_stub now s)).
  destruct (wakeup_quiet ChTimer (mach_in s0)) as (m' & E & Hf & Ht); [done|done|].
  exists (x_out (te_set_mach m' (x_in s0)) s0). split.
  { unfold asy_timer. rewrite (bind_ok _ _ _ _ _ (on_hart_gets (read_csr Time) s : on_hart r_time s = _)). go.
    rewrite (bind_ok _ _ _ tt s0) by done. rewrite (bind_ok _ _ _ _ _ (on_mach_ok _ _ _ _ E)). set (s1 := x_out _ s0).
    rewrite (bind_ok _ _ _ _ _ (on_hart_gets (read_csr Sstatus) s1 : on_hart r_sstatus s1 = _)). unfold SSTATUS_SPP. rewrite land_bit_test by lia.
    change 8 with SPP_BIT. rewrite sstatus_bit by auto with riscv. rewrite (hs_bit _ _ (x_out_same _ s0 : hart_same _ (t_hart s1))) by (unfold SPP_BIT, SIE_BIT; lia).
    change (status_bit SPP_BIT (t_hart s0)) with (status_bit SPP_BIT (t_hart s)). by destruct (status_bit SPP_BIT (t_hart s)). }
  split; [done|]. split; [done|]. split; [etransitivity; [apply (stimecmp_same (u64 (now + TIME_CYCLE)))|apply (x_out_same _ s0)]|].
  split; [done|]. split; [done|]. split; [apply (x_in_mmu s0)|]. change (t_x (x_out (te_set_mach m' (x_in s0)) s0)) with (te_set_mach m' (x_in s0)). rewrite te_get_set.
  split; [exact Hf|]. split; [exact Ht|]. rewrite x_out_sie, te_get_set. destruct Hf as (_ & Es & _). rewrite Es. done.
Qed.
(** A handler of a device that returns. *)
Definition served (irq : Z) (x x' : X) : Prop :=
  (irq = IRQ_NONE ∧ x' = x) ∨ (irq = IRQ_UART0 ∧ te_uart_irq x = Ok tt x') ∨ (irq = IRQ_DISK ∧ te_disk_irq x = Ok tt x').
Lemma claim_complete (d : D) id irq d' : plic_rd (PLIC_CLAIM id) d = (irq, d') →
  ∀ i, plic_serving (plic_wr (PLIC_CLAIM id) irq d') i = plic_serving d i.
Proof.
  intros E i. pose proof (plic_claimed d id irq d' E) as (_ & Hc). rewrite plic_completed. destruct (decide (i = id)) as [->|Hh].
  - rewrite Hc. destruct (decide (irq = 0)) as [->|Hi].
    + rewrite decide_False by (by intros []). pose proof (plic_no_zero d id). set_solver.
    + rewrite decide_True by done. pose proof (plic_fresh d id irq d' E Hi). set_solver.
  - rewrite Hc. rewrite decide_False; [done|]. by intros [].
Qed.
Lemma asy_extern_spec pt s irq d' x' : plic_rd (PLIC_CLAIM (cpuid s)) (t_plic s) = (irq, d') → served irq (x_in s) x' →
  mach_frame (mach_in s) (te_mach x') →
  ∃ s', asy_extern pt s = Ok tt s' ∧ hart_same (t_hart s) (t_hart s') ∧ t_tab s' = t_tab s ∧
    status_bit SIE_BIT (t_hart s') = status_bit SIE_BIT (t_hart s) ∧
    t_x s' = (if decide (irq = IRQ_NONE) then t_x s else x') ∧ ∀ i, plic_serving (t_plic s') i = plic_serving (t_plic s) i.
Proof.
  intros Ec Hs Hf. set (s1 := set_plic d' s).
  assert (E1 : plic_claim s = Ok irq s1) by (unfold plic_claim; rewrite bind_gets; unfold plic_load; by rewrite Ec).
  assert (Hdone : ∀ s2, t_plic s2 = d' → cpuid s2 = cpuid s → plic_complete irq s2 = Ok tt (set_plic (plic_wr (PLIC_CLAIM (cpuid s)) irq d') s2)).
  { intros s2 H1 H2. unfold plic_complete. rewrite bind_gets, H2. unfold plic_store, modify. by rewrite H1. }
  assert (Hx : ∀ m : M X unit, m (x_in s) = Ok tt x' → (on_x m ;; plic_complete irq) s1 =
    Ok tt (set_plic (plic_wr (PLIC_CLAIM (cpuid s)) irq d') (x_out x' s1))).
  { intros m Em. rewrite (bind_ok _ _ _ _ _ (on_x_ok m s1 tt x' Em)). apply Hdone; [done|]. unfold cpuid. cbn. destruct Hf as (-> & _). done. }
  assert (Hend : ∀ m : M X unit, irq ≠ IRQ_NONE → asy_extern pt s = (on_x m ;; plic_complete irq) s1 → m (x_in s) = Ok tt x' →
    ∃ s', asy_extern pt s = Ok tt s' ∧ hart_same (t_hart s) (t_hart s') ∧ t_tab s' = t_tab s ∧
      status_bit SIE_BIT (t_hart s') = status_bit SIE_BIT (t_hart s) ∧
      t_x s' = (if decide (irq = IRQ_NONE) then t_x s else x') ∧ ∀ i, plic_serving (t_plic s') i = plic_serving (t_plic s) i).
  { intros m Hi -> Em. rewrite (Hx m Em). eexists. split; [reflexivity|]. split; [apply (x_out_same x' s1)|]. split; [done|].
    split; [|split; [by rewrite decide_False|by apply claim_complete]].
    change (status_bit SIE_BIT (t_hart (x_out x' s1)) = status_bit SIE_BIT (t_hart s)). rewrite x_out_sie. by destruct Hf as (_ & -> & _). }
  unfold asy_extern in *. destruct Hs as [[-> ->]|[[-> Em]|[-> Em]]].
  - rewrite (bind_ok _ _ _ _ _ E1), Z.eqb_refl, bind_ret, Hdone by done. eexists. split; [reflexivity|]. do 3 (split; [done|]). split; [done|].
    by apply claim_complete.
  - by apply (Hend _ ltac:(done) ltac:(rewrite (bind_ok _ _ _ _ _ E1); reflexivity)).
  - by apply (Hend _ ltac:(done) ltac:(rewrite (bind_ok _ _ _ _ _ E1); reflexivity)).
Qed.

(** *** The end of [do_trap] *)
Lemma trap_exit_spec utrap trampoline fu sstatus sepc s :
  ∃ h', do_trap_exit utrap trampoline fu sstatus sepc s = Ok tt (set_hart h' s) ∧
    h_reg h' = h_reg (t_hart s) ∧ h_mem h' = h_mem (t_hart s) ∧ h_mode h' = h_mode (t_hart s) ∧ h_csr h' Sepc = sepc ∧
    h_csr h' Satp = h_csr (t_hart s) Satp ∧
    h_csr h' Stvec = (if fu then u64 (utrap - trampoline + TRAMPOLINE) else h_csr (t_hart s) Stvec) ∧
    ∀ n, n ∈ s_bits → status_bit n h' = Z.testbit sstatus n.
Proof.
  destruct s as [h d tb st x]. set (h1 := if fu then write_csr Stvec (u64 (utrap - trampoline + TRAMPOLINE))
    (write_csr Sstatus (Z.land (read_csr Sstatus h) (u64 (Z.lnot SSTATUS_SIE))) h) else h).
  exists (write_csr Sepc sepc (write_csr Sstatus sstatus h1)). split; [by destruct fu|].
  do 3 (split; [by destruct fu|]). split; [done|]. split; [by destruct fu|]. split; [by destruct fu|].
  intros n Hn. apply (write_sstatus_bit n sstatus h1 Hn).
Qed.

(** *** Dispatch *)
Definition ready_tables : tables := install tables0.
Definition handler_of (t : tables) (scause : Z) : option trap_fn :=
  if IS_INTR scause then interrupt_funs t !! Z.to_nat (cmin (SCAUSE_EC scause) 9)
  else exception_funs t !! Z.to_nat (cmin (SCAUSE_EC scause) 15).
Definition word_at (h : hart) (pt : Z) (f : field) : Z := h_mem h (u64 (pt + PT f)).
Lemma do_trap_eq ktrap utrap trampoline pt s :
  let sstatus := word_at (t_hart s) pt FSstatus in let scause := word_at (t_hart s) pt FScause in
  let s1 := if is_from_user sstatus then set_hart (write_csr Stvec ktrap (t_hart s)) s else s in
  do_trap ktrap utrap trampoline pt s =
    match handler_of (t_tab s) scause with
    | Some f => (run_fn f pt ;; do_trap_exit utrap trampoline (is_from_user sstatus) sstatus (sepc_after scause (word_at (t_hart s) pt FSepc))) s1
    | None => Fault s1
    end.
Proof.
  intros sstatus scause s1. unfold do_trap, pt_get. rewrite !bind_gets. rewrite !pt_off_PT. fold (word_at (t_hart s) pt FSstatus).
  fold (word_at (t_hart s) pt FSepc). fold (word_at (t_hart s) pt FScause). fold sstatus scause.
  rewrite (bind_ok _ _ s tt s1) by (unfold s1; by destruct (is_from_user sstatus)).
  unfold handler_of. replace (t_tab s) with (t_tab s1) by (unfold s1; by destruct (is_from_user sstatus)).
  change (10 - 1) with 9. change (16 - 1) with 15. destruct (IS_INTR scause).
  - unfold bind at 1 2, deref. by destruct (interrupt_funs (t_tab s1) !! _).
  - unfold bind at 1 2, deref. by destruct (exception_funs (t_tab s1) !! _).
Qed.
Lemma is_intr_eq z : 0 ≤ z < 2 ^ 64 → IS_INTR z = (2 ^ 63 <=? z).
Proof.
  intros Hz. unfold IS_INTR, INTR_BIT. rewrite land_bit_test, negb_involutive by lia. apply eq_true_iff_eq.
  rewrite Z.testbit_true, Z.leb_le by lia. split; intros H.
  - destruct (Z.lt_ge_cases z (2 ^ 63)); [|done]. by rewrite Z.div_small in H by lia.
  - replace (z / 2 ^ 63) with 1; [done|]. apply (Z.div_unique _ _ 1 (z - 2 ^ 63)); lia.
Qed.
Lemma scause_ec_eq z : 0 ≤ z < 2 ^ 64 → SCAUSE_EC z = z mod 2 ^ 63.
Proof.
  intros Hz. unfold SCAUSE_EC. change (u64 (Z.lnot INTR_BIT)) with (Z.ones 63). by rewrite Z.land_ones by lia.
Qed.
Definition irq_cause (c : nat) : Z := 2 ^ 63 + Z.of_nat c.
Lemma irq_cause_dispatch c : (c < 1024)%nat → IS_INTR (irq_cause c) = true ∧ SCAUSE_EC (irq_cause c) = Z.of_nat c.
Proof.
  intros Hc. assert (Z.of_nat c < 1024) by lia. unfold irq_cause. split.
  - rewrite is_intr_eq by lia. apply Z.leb_le. lia.
  - rewrite scause_ec_eq by lia. rewrite <- (Z.mul_1_l (2 ^ 63)) at 1. rewrite Z.add_comm, Z.mod_add by lia. apply Z.mod_small. lia.
Qed.
Lemma trap_enter_spec cause tval h : let h1 := trap_enter cause tval h in
  h_reg h1 = h_reg h ∧ h_mem h1 = h_mem h ∧ h_mode h1 = Supervisor ∧ h_csr h1 Satp = h_csr h Satp ∧ h_csr h1 Sepc = h_pc h ∧
  h_csr h1 Scause = cause ∧ h_csr h1 Stvec = h_csr h Stvec ∧ status_bit SIE_BIT h1 = false ∧ status_bit SPIE_BIT h1 = status_bit SIE_BIT h ∧
  status_bit SPP_BIT h1 = is_super (h_mode h).
Proof.
  intros h1. do 7 (split; [done|]). unfold h1, trap_enter. set (h2 := raw_csr Stval tval _).
  assert (∀ n g, status_bit n (set_pc (h_csr h Stvec) (set_mode Supervisor g)) = status_bit n g) as H by done. rewrite !H.
  by rewrite !status_put.
Qed.
Lemma sret_spec h : h_reg (sret h) = h_reg h ∧ h_mem (sret h) = h_mem h ∧ h_csr (sret h) Satp = h_csr h Satp ∧ h_csr (sret h) Stvec = h_csr h Stvec ∧
  h_pc (sret h) = h_csr h Sepc ∧ h_mode (sret h) = (if status_bit SPP_BIT h then Supervisor else User) ∧
  status_bit SIE_BIT (sret h) = status_bit SPIE_BIT h.
Proof.
  do 6 (split; [done|]). unfold sret. set (m := if status_bit SPP_BIT h then Supervisor else User).
  assert (∀ n g, status_bit n (set_pc (h_csr h Sepc) (set_mode m g)) = status_bit n g) as H by done. rewrite H. by rewrite !status_put.
Qed.

(** *** Traps in the kernel *)

Lemma asm_ok l s h : execs (te_mmu (t_x s)) l (t_hart s) = Ok tt h → asm l s = Ok tt (set_hart h s).
Proof. intros E. unfold asm, on_hart, zoom. by rewrite E. Qed.
(** The frame at [pt] holds what the trap found in [h]. *)
Definition framed (pt : Z) (h : hart) (mem : Z → Z) : Prop := ∀ f, mem (at_pt pt f) = fval h f.
Lemma word_framed pt h g f : 0 ≤ pt → pt + 280 < 2 ^ 64 → framed pt h (h_mem g) → word_at g pt f = fval h f.
Proof. intros H1 H2 Hf. unfold word_at. by rewrite at_pt_u64. Qed.
Lemma kenter_spec mmu pt h : 0 ≤ pt ∧ pt + 280 < 2 ^ 64 → stack_mapped mmu pt (h_csr h Satp) → h_reg h Sp = pt + 280 →
  ∃ h', (execs mmu save_trap_context ;; execs mmu [Addi A0 Sp PT_SIZE; Sd A0 (PT (FReg Sp)) Sp; Mv A0 Sp]) h = Ok tt h' ∧
    same_csr h h' ∧ framed pt h (h_mem h') ∧ (∀ a, off_frame pt a → h_mem h' a = h_mem h a) ∧
    h_reg h' A0 = pt ∧ h_reg h' Sp = pt ∧ h_reg h' Tp = h_reg h Tp.
Proof.
  intros Hpt Hm Hs. destruct (save_spec mmu pt Hpt h Hm Hs) as (h1 & E1 & C1 & S1 & R1 & F1 & O1).
  exists (set_reg A0 pt (set_word (at_pt pt (FReg Sp)) (pt + 280) (set_reg A0 (pt + 280) h1))). split.
  { run E1. cbn [execs exec Mv]. rewrite bind_modify, S1. unfold PT_SIZE. rewrite u64_id by lia. unfold bind, update, addr_of, modify, ret.
    cbn [set_reg h_reg h_csr set_word]. rewrite (fset_out A0 Sp), S1 by done. rewrite (proj1 C1), frame_mapped by done. cbn [set_word h_reg set_reg mbind option_bind].
    rewrite (fset_out A0 Sp), S1, fset_in by done. rewrite Z.add_0_r, u64_id by lia. done. }
  split; [done|]. split.
  { intros f. cbn. destruct (decide (f = FReg Sp)) as [->|Hf]; [by rewrite fset_in|]. rewrite fset_out by (intros H; by apply Hf, (at_pt_inj pt)). by apply F1. }
  split; [intros a Ha; cbn; rewrite fset_out by apply Ha; by apply O1|]. split; [apply fset_in|]. split; [cbn; by rewrite !fset_out by done|].
  cbn. rewrite !fset_out by done. by apply R1.
Qed.
Lemma kreturn_spec utrap trampoline scratch pt h s sstatus sepc : 0 ≤ pt ∧ pt + 280 < 2 ^ 64 → stack_mapped (te_mmu (t_x s)) pt (h_csr (t_hart s) Satp) →
  framed pt h (h_mem (t_hart s)) → h_reg (t_hart s) Sp = pt →
  ∃ h', (do_trap_exit utrap trampoline false sstatus sepc ;; on_hart (modify (clobber scratch)) ;;
         asm recover_trap_context ;; on_hart (modify sret)) s = Ok tt (set_hart h' s) ∧
    (∀ r, r ≠ Sp → r ≠ Tp → h_reg h' r = h_reg h r) ∧ h_reg h' Sp = pt + 280 ∧ h_reg h' Tp = h_reg (t_hart s) Tp ∧
    h_mem h' = h_mem (t_hart s) ∧ h_pc h' = sepc ∧ h_mode h' = (if Z.testbit sstatus SPP_BIT then Supervisor else User) ∧
    h_csr h' Satp = h_csr (t_hart s) Satp ∧ h_csr h' Stvec = h_csr (t_hart s) Stvec ∧ status_bit SIE_BIT h' = Z.testbit sstatus SPIE_BIT.
Proof.
  intros Hpt Hm Hf Hs. destruct (trap_exit_spec utrap trampoline false sstatus sepc s) as (h1 & E1 & R1 & M1 & _ & P1 & A1 & V1 & B1).
  set (h2 := clobber scratch h1).
  destruct (recover_spec (te_mmu (t_x s)) pt Hpt h2) as (h3 & E3 & C3 & M3 & S3 & T3 & R3).
  { change (h_csr h2 Satp) with (h_csr h1 Satp). by rewrite A1. }
  { change (h_reg h2 Sp) with (h_reg h1 Sp). by rewrite R1. }
  destruct (sret_spec h3) as (R4 & M4 & A4 & V4 & P4 & O4 & B4). destruct C3 as (C3 & D3 & _).
  exists (sret h3). split.
  { run E1. rewrite (bind_ok _ _ _ tt (set_hart h2 s)) by done.
    rewrite (bind_ok _ _ _ _ _ (asm_ok _ (set_hart h2 s) _ E3)). done. }
  assert (B3 : ∀ n, status_bit n h3 = status_bit n h1) by (intros n; unfold status_bit; by rewrite C3).
  rewrite R4, M4, A4, V4, P4, O4, B4, !B3, C3.
  split; [intros r Hr Ht; rewrite R3 by done; change (h_mem h2) with (h_mem h1); rewrite M1; apply (Hf (FReg r))|].
  split; [done|]. split; [rewrite T3; change (h_reg h2 Tp) with (h_reg h1 Tp); by rewrite R1|]. split; [rewrite M3; exact M1|].
  split; [exact P1|]. split; [by rewrite B1 by auto with riscv|]. split; [exact A1|]. split; [exact V1|]. by apply B1; auto with riscv.
Qed.

(** The kernel with interrupts off, as a handler finds it. *)
Definition masked (x : X) : X := te_set_mach (set_cpu (set_sie false) (te_mach x)) x.
Lemma x_in_masked s : status_bit SIE_BIT (t_hart s) = false → x_in s = masked (t_x s).
Proof. intros H. unfold x_in, masked. by rewrite H. Qed.
(** An interrupt of the timer, or of a device whose handler returns with the locks and
    the address spaces as they were. *)
Definition kernel_irq (c : nat) s : Prop :=
  c = ASY_TIMER ∨
  c = ASY_EXTERN ∧ ∃ irq d' x', plic_rd (PLIC_CLAIM (cpuid s)) (t_plic s) = (irq, d') ∧ served irq (masked (t_x s)) x' ∧
    mach_frame (te_mach (masked (t_x s))) (te_mach x') ∧ te_mmu x' = te_mmu (t_x s).
Lemma kernel_handler pt c s : t_tab s = ready_tables → quiet (te_mach (t_x s)) → length (m_tasks (te_mach (t_x s))) = NPROC →
  status_bit SIE_BIT (t_hart s) = false → status_bit SPP_BIT (t_hart s) = true → kernel_irq c s →
  ∃ f s', handler_of (t_tab s) (irq_cause c) = Some f ∧ run_fn f pt s = Ok tt s' ∧ hart_same (t_hart s) (t_hart s') ∧
    te_mmu (t_x s') = te_mmu (t_x s) ∧ ∀ i, plic_serving (t_plic s') i = plic_serving (t_plic s) i.
Proof.
  intros Ht Hq Hl Hsie Hspp Hc. destruct (irq_cause_dispatch c) as [Hi He].
  { destruct Hc as [-> | [-> _]]; apply Nat.ltb_lt; reflexivity. }
  unfold handler_of. rewrite Hi, He, Ht. destruct Hc as [-> | [-> (irq & d' & x' & Ep & Hs & Hf & Hm)]].
  - destruct (asy_timer_spec s Hq Hl) as (s1 & E & _ & _ & Hh & Hp & _ & Hmm & _). rewrite Hspp in E.
    exists Asy_timer, s1. split; [done|]. split; [exact E|]. split; [exact Hh|]. split; [exact Hmm|]. intros i. by rewrite Hp.
  - destruct (asy_extern_spec pt s irq d' x' Ep) as (s1 & E & Hh & _ & _ & Hx & Hp); [by rewrite x_in_masked|by rewrite <- mach_of_in, x_in_masked|].
    exists Asy_extern, s1. split; [done|]. split; [exact E|]. split; [exact Hh|]. split; [rewrite Hx; by case_decide|exact Hp].
Qed.

(** C15: an interrupt of the timer or of a device in the kernel is invisible to the code
    it interrupts: the trap entry, [do_trap] with its handler and the return leave every
    register, the program counter, the mode, the interrupt state, the address space and
    the memory outside the frame as they were, and an interrupt that was claimed from the
    controller is completed. *)
Theorem kernel_interrupt_invisible ktrap utrap trampoline scratch c s : let h := t_hart s in let pt := h_reg h Sp - 280 in
  0 ≤ pt → h_reg h Sp < 2 ^ 64 → stack_mapped (te_mmu (t_x s)) pt (h_csr h Satp) → h_mode h = Supervisor →
  t_tab s = ready_tables → quiet (te_mach (t_x s)) → length (m_tasks (te_mach (t_x s))) = NPROC → kernel_irq c s →
  ∃ s', ktrap_code ktrap utrap trampoline scratch (set_hart (trap_enter (irq_cause c) 0 h) s) = Ok tt s' ∧ let h' := t_hart s' in
    (∀ r, h_reg h' r = h_reg h r) ∧ h_pc h' = h_pc h ∧ h_mode h' = Supervisor ∧ status_bit SIE_BIT h' = status_bit SIE_BIT h ∧
    h_csr h' Satp = h_csr h Satp ∧ h_csr h' Stvec = h_csr h Stvec ∧ (∀ a, off_frame pt a → h_mem h' a = h_mem h a) ∧
    ∀ i, plic_serving (t_plic s') i = plic_serving (t_plic s) i.
Proof.
  intros h pt H0 H1 Hm Hmode Htab Hq Hl Hc. assert (Hpt : 0 ≤ pt ∧ pt + 280 < 2 ^ 64) by (unfold pt in *; lia).
  destruct (trap_enter_spec (irq_cause c) 0 h) as (ER & EM & _ & EA & EP & EC & EV & B1 & B2 & B3). set (h1 := trap_enter (irq_cause c) 0 h) in *.
  destruct (kenter_spec (te_mmu (t_x s)) pt h1 Hpt) as (h2 & E2 & (C2 & _ & _) & F2 & O2 & A2 & S2 & T2); [by rewrite EA|rewrite ER; unfold pt; lia|].
  set (s2 := set_hart h2 s). assert (Hb : ∀ n, status_bit n h2 = status_bit n h1) by (intros n; unfold status_bit; by rewrite C2).
  assert (Hw : ∀ f, word_at (t_hart s2) pt f = fval h1 f) by (intros f; exact (word_framed pt h1 h2 f (proj1 Hpt) (proj2 Hpt) F2)).
  assert (Hfu : is_from_user (fval h1 FSstatus) = false).
  { unfold is_from_user, SSTATUS_SPP. rewrite land_bit_test by lia. change 8 with SPP_BIT. cbn [fval]. rewrite sstatus_bit, B3, Hmode by auto with riscv. done. }
  destruct (kernel_handler pt c s2 Htab Hq Hl) as (f & s3 & Hf & E3 & [R3 M3 _ C3 _] & Hmm & Hp); [by rewrite (Hb SIE_BIT : status_bit SIE_BIT (t_hart s2) = _)|by rewrite (Hb SPP_BIT : status_bit SPP_BIT (t_hart s2) = _), B3, Hmode|done|].
  destruct (kreturn_spec utrap trampoline scratch pt h1 s3 (fval h1 FSstatus) (h_pc h) Hpt) as (h4 & E4 & R4 & S4 & T4 & M4 & P4 & O4 & A4 & V4 & B4).
  { rewrite Hmm, C3 by done. cbn [t_hart s2 set_hart t_x]. by rewrite C2, EA. }
  { unfold framed. rewrite M3. exact F2. }
  { by rewrite R3. }
  exists (set_hart h4 s3). split.
  { unfold ktrap_code. rewrite <- bind_assoc. rewrite (bind_ok _ _ _ tt s2).
    - unfold call_do_trap. rewrite !bind_assoc, bind_gets. change (h_reg (t_hart s2) A0) with (h_reg h2 A0). rewrite A2.
      rewrite bind_assoc. unfold bind at 1. rewrite do_trap_eq. cbn zeta. rewrite !Hw, Hfu.
      change (fval h1 FScause) with (h_csr h1 Scause). rewrite EC, Hf. rewrite (bind_ok _ _ _ _ _ E3).
      unfold sepc_after. rewrite (proj1 (irq_cause_dispatch c ltac:(destruct Hc as [-> | [-> _]]; apply Nat.ltb_lt; reflexivity))).
      change (fval h1 FSepc) with (h_csr h1 Sepc). rewrite EP. exact E4.
    - unfold asm, on_hart, zoom, bind in *. cbn [t_hart set_hart t_x]. destruct (execs (te_mmu (t_x s)) save_trap_context h1) as [[] g|?|?|?|?]; try discriminate E2.
      cbn [t_hart set_hart t_x]. by rewrite E2. }
  cbn [t_hart set_hart]. split.
  { intros r. destruct (decide (r = Sp)) as [->|Hr]; [rewrite S4; unfold pt; lia|]. destruct (decide (r = Tp)) as [->|Ht].
    - rewrite T4, R3. cbn [t_hart s2 set_hart]. by rewrite T2, ER.
    - by rewrite R4, ER by done. }
  split; [done|]. split; [rewrite O4; cbn [fval]; by rewrite sstatus_bit, B3, Hmode by auto with riscv|].
  split; [rewrite B4; cbn [fval]; by rewrite sstatus_bit, B2 by auto with riscv|].
  split; [rewrite A4, C3 by done; cbn [t_hart s2 set_hart]; by rewrite C2|]. split; [rewrite V4, C3 by done; cbn [t_hart s2 set_hart]; by rewrite C2|].
  split; [intros a Ha; rewrite M4, M3; cbn [t_hart s2 set_hart]; by rewrite O2, EM|]. exact Hp.
Qed.

(** *** Traps from user mode *)

(** What the entry from user mode relies on: the trap frame page of the task holds the
    kernel's [satp], [tp] points to the [struct cpu] with the kernel stack and the address
    of [do_trap], and the kernel maps both to themselves. *)
Record user_env (mmu : Z → Z → option Z) (h : hart) (kstack ksatp do_trap_addr : Z) : Prop := {
  ue_frame : ∃ fp, mmu (h_csr h Satp) TRAPFRAME = Some fp ∧ h_mem h fp = ksatp;
  ue_cpu o : o ∈ [CPU_KSTACK; CPU_SATP; CPU_TRAP] → mmu ksatp (u64 (h_reg h Tp + o)) = Some (u64 (h_reg h Tp + o)) ∧
    off_frame (kstack - 280) (u64 (h_reg h Tp + o));
  ue_kstack : h_mem h (u64 (h_reg h Tp + CPU_KSTACK)) = kstack;
  ue_trap : h_mem h (u64 (h_reg h Tp + CPU_TRAP)) = do_trap_addr;
  ue_range : 0 ≤ kstack - 280 ∧ kstack < 2 ^ 64;
  ue_stack : stack_mapped mmu (kstack - 280) ksatp;
}.
Lemma exec_ld mmu rd off base h a : addr_of mmu h base off = Some a → exec mmu (Ld rd off base) h = Ok tt (set_reg rd (h_mem h a) h).
Proof. intros E. cbn [exec]. unfold update. by rewrite E. Qed.
Lemma uenter_spec mmu h kstack ksatp da : user_env mmu h kstack ksatp da → let pt := kstack - 280 in
  ∃ h', execs mmu ([Csrw Sscratch Sp; Li Sp TRAPFRAME; Ld Sp 0 Sp; Csrw Satp Sp; Ld Sp CPU_KSTACK Tp] ++ save_trap_context ++
       [Csrr A0 Sscratch; Sd A0 (PT (FReg Sp)) Sp; Mv A0 Sp; Ld T0 CPU_TRAP Tp]) h = Ok tt h' ∧
    h_reg h' A0 = pt ∧ h_reg h' T0 = da ∧ h_reg h' Sp = pt ∧ h_reg h' Tp = h_reg h Tp ∧ h_csr h' Satp = ksatp ∧
    (∀ n, status_bit n h' = status_bit n h) ∧ framed pt h (h_mem h') ∧ ∀ a, off_frame pt a → h_mem h' a = h_mem h a.
Proof.
  intros [(fp & Hfp & Hks) Hcpu Hk Hda Hr Hst] pt. assert (Hpt : 0 ≤ pt ∧ pt + 280 < 2 ^ 64) by (unfold pt; lia).
  set (h1 := set_reg Sp kstack (write_csr Satp ksatp (set_reg Sp ksatp (set_reg Sp TRAPFRAME (write_csr Sscratch (h_reg h Sp) h))))).
  assert (Ht1 : h_reg h1 Tp = h_reg h Tp) by done.
  destruct (save_spec mmu pt Hpt h1) as (h2 & E2 & (C2 & _ & _) & S2 & R2 & F2 & O2).
  { cbn. rewrite fset_in. exact Hst. }
  { cbn. rewrite fset_in. unfold pt. lia. }
  assert (Ht2 : h_reg h2 Tp = h_reg h Tp) by (rewrite R2; done).
  assert (Hsat : h_csr h2 Satp = ksatp) by (rewrite C2; apply fset_in).
  assert (Hscr : read_csr Sscratch h2 = h_reg h Sp) by (cbn; rewrite C2; reflexivity).
  set (h3 := set_reg A0 pt (set_word (at_pt pt (FReg Sp)) (h_reg h Sp) (set_reg A0 (h_reg h Sp) h2))).
  assert (Hm3 : ∀ a, off_frame pt a → h_mem h3 a = h_mem h a) by (intros a Ha; cbn; rewrite fset_out by apply Ha; by rewrite O2).
  exists (set_reg T0 da h3). split.
  { rewrite execs_app. rewrite (bind_ok _ _ _ tt h1).
    - rewrite execs_app. run E2. cbn [execs]. rewrite (bind_ok _ _ _ tt (set_reg A0 (h_reg h Sp) h2)) by (cbn [exec]; unfold modify; by rewrite Hscr).
      rewrite (bind_ok _ _ _ tt (set_word (at_pt pt (FReg Sp)) (h_reg h Sp) (set_reg A0 (h_reg h Sp) h2))).
      + rewrite (bind_ok _ _ _ tt h3).
        * rewrite (bind_ok _ _ _ tt (set_reg T0 da h3)); [done|]. destruct (Hcpu CPU_TRAP) as [Hma Hoff]; [by repeat constructor|].
          erewrite exec_ld; [|unfold addr_of; change (h_csr h3 Satp) with (h_csr h2 Satp); change (h_reg h3 Tp) with (h_reg h2 Tp); rewrite Hsat, Ht2; exact Hma].
          by rewrite Hm3, Hda.
        * cbn [exec Mv]. unfold modify, h3. do 3 f_equal. cbn. unfold fset at 1. cbn. rewrite S2, Z.add_0_r. apply u64_id. lia.
      + cbn [exec]. unfold update, addr_of. cbn [set_reg h_reg h_csr]. rewrite (fset_out A0 Sp), S2, Hsat, frame_mapped by done. cbn. by rewrite fset_in.
    - set (g1 := write_csr Sscratch (h_reg h Sp) h). set (g2 := set_reg Sp TRAPFRAME g1). cbn [execs].
      rewrite (bind_ok _ _ h tt g1), (bind_ok _ _ g1 tt g2) by done. rewrite (bind_ok _ _ _ _ _ (exec_ld mmu Sp 0 Sp g2 fp Hfp)).
      cbn [exec]. rewrite bind_modify. unfold bind, update, addr_of, ret. cbn [h_csr h_reg write_csr raw_csr set_reg h_mem g1 g2]. rewrite !fset_in, !fset_out by done. rewrite Hks.
      destruct (Hcpu CPU_KSTACK) as [-> _]; [by repeat constructor|]. cbn [mbind option_bind]. rewrite Hk. done. }
  split; [done|]. split; [apply fset_in|]. split; [exact S2|]. split; [exact Ht2|]. split; [exact Hsat|]. split.
  { intros n. unfold status_bit. change (h_csr (set_reg T0 da h3) Mstatus) with (h_csr h2 Mstatus). by rewrite C2. }
  split; [|exact Hm3]. intros f. cbn. destruct (decide (f = FReg Sp)) as [->|Hf]; [by rewrite fset_in|].
  rewrite fset_out by (intros H; by apply Hf, (at_pt_inj pt)). rewrite F2 by done. destruct f as [r| | | |]; try done.
  cbn [fval h1 set_reg write_csr raw_csr h_reg]. by rewrite !fset_out by congruence.
Qed.
(** The way back to user mode, with the registers [fv] in the frame. *)
Lemma ureturn_spec utrap trampoline scratch pt (fv : reg → Z) s sstatus sepc : 0 ≤ pt ∧ pt + 280 < 2 ^ 64 →
  stack_mapped (te_mmu (t_x s)) pt (h_csr (t_hart s) Satp) → (∀ r, h_mem (t_hart s) (at_pt pt (FReg r)) = fv r) → h_reg (t_hart s) Sp = pt →
  let a := u64 (h_reg (t_hart s) Tp + CPU_SATP) in te_mmu (t_x s) (h_csr (t_hart s) Satp) a = Some a →
  ∃ h', (do_trap_exit utrap trampoline true sstatus sepc ;; on_hart (modify (clobber scratch)) ;; utrap_exit) s = Ok tt (set_hart h' s) ∧
    (∀ r, r ≠ Tp → h_reg h' r = fv r) ∧ h_reg h' Tp = h_reg (t_hart s) Tp ∧ h_pc h' = sepc ∧
    h_mode h' = (if Z.testbit sstatus SPP_BIT then Supervisor else User) ∧ status_bit SIE_BIT h' = Z.testbit sstatus SPIE_BIT ∧
    h_csr h' Satp = h_mem (t_hart s) a ∧ h_csr h' Stvec = u64 (utrap - trampoline + TRAMPOLINE) ∧ h_mem h' = h_mem (t_hart s).
Proof.
  intros Hpt Hm Hf Hs a Ha. destruct (trap_exit_spec utrap trampoline true sstatus sepc s) as (h1 & E1 & R1 & M1 & _ & P1 & A1 & V1 & B1).
  set (mmu := te_mmu (t_x s)) in *. set (h2 := clobber scratch h1).
  set (h3 := write_csr Sscratch (fv Sp) (set_reg A0 (fv Sp) h2)).
  destruct (recover_spec mmu pt Hpt h3) as (h4 & E4 & (C4 & _ & _) & M4 & S4 & T4 & R4).
  { change (h_csr h3 Satp) with (h_csr h1 Satp). by rewrite A1. }
  { change (h_reg h3 Sp) with (h_reg h1 Sp). by rewrite R1. }
  assert (Ht4 : h_reg h4 Tp = h_reg (t_hart s) Tp) by (rewrite T4; change (h_reg h3 Tp) with (h_reg h1 Tp); by rewrite R1).
  assert (Hm4 : h_mem h4 = h_mem (t_hart s)) by (rewrite M4; exact M1).
  assert (Hsc : read_csr Sscratch h4 = fv Sp) by (cbn; rewrite C4; reflexivity).
  set (h5 := set_reg Sp (fv Sp) (write_csr Satp (h_mem (t_hart s) a) (set_reg Sp (h_mem (t_hart s) a) h4))).
  destruct (sret_spec h5) as (R6 & M6 & A6 & V6 & P6 & O6 & B6). exists (sret h5). split.
  { run E1. rewrite (bind_ok _ _ _ tt (set_hart h2 s)) by done. unfold utrap_exit. rewrite (bind_ok _ _ _ tt (set_hart h5 s)); [done|].
    apply (asm_ok _ (set_hart h2 s)). cbn [t_hart set_hart t_x]. fold mmu. rewrite execs_app. rewrite (bind_ok _ _ _ tt h3).
    - rewrite execs_app. run E4. cbn [execs].
      assert (Hl : addr_of mmu h4 Tp CPU_SATP = Some a).
      { unfold addr_of. rewrite Ht4, C4. change (h_csr h3 Satp) with (h_csr h1 Satp). rewrite A1. exact Ha. }
      rewrite (bind_ok _ _ _ _ _ (exec_ld _ Sp _ _ _ _ Hl)), Hm4. set (g := set_reg Sp (h_mem (t_hart s) a) h4).
      rewrite (bind_ok _ _ g tt (write_csr Satp (h_mem (t_hart s) a) g)) by (cbn [exec]; unfold modify; do 2 f_equal; apply fset_in).
      rewrite (bind_ok _ _ _ tt h5); [done|]. cbn [exec]. unfold modify, h5. do 2 f_equal. exact Hsc.
    - cbn [execs]. assert (Hl : addr_of mmu h2 Sp (PT (FReg Sp)) = Some (at_pt pt (FReg Sp))).
      { unfold addr_of. change (h_csr h2 Satp) with (h_csr h1 Satp). change (h_reg h2 Sp) with (h_reg h1 Sp). rewrite A1, R1, Hs. by apply frame_mapped. }
      rewrite (bind_ok _ _ _ _ _ (exec_ld _ A0 _ _ _ _ Hl)). change (h_mem h2) with (h_mem h1). rewrite M1, Hf.
      cbn [exec]. rewrite bind_modify. cbn [h_reg set_reg]. by rewrite fset_in. }
  assert (HB : ∀ n, status_bit n h5 = status_bit n h1) by (intros n; unfold status_bit; cbn; rewrite fset_out by done; by rewrite C4).
  rewrite R6, M6, A6, V6, P6, O6, B6, !HB, !B1 by auto with riscv. split.
  { intros r Hr. cbn. destruct (decide (r = Sp)) as [->|Hrs]; [apply fset_in|]. rewrite !fset_out, R4 by done.
    change (h_mem h3) with (h_mem h1). by rewrite M1, Hf. }
  split; [exact Ht4|]. split; [cbn; rewrite fset_out by done; by rewrite C4|]. do 2 (split; [done|]). split; [apply fset_in|].
  split; [cbn; rewrite fset_out by done; by rewrite C4|exact Hm4].
Qed.

Lemma user_env_trap mmu h kstack ksatp da cause tval : user_env mmu h kstack ksatp da → user_env mmu (trap_enter cause tval h) kstack ksatp da.
Proof. intros [Hf Hc Hk Ht Hr Hs]. by split. Qed.
(** C11: a trap from user mode saves all that the program can see, and the way back
    restores it: the entry stores every register, the program counter, the cause and the
    status on the kernel stack of the task and goes to [do_trap] with interrupts off in
    the address space of the kernel; and from any later state in which the frame is
    intact, on whatever CPU, the end of [do_trap] and the return leave the program with
    its registers, at the given address, in user mode with its interrupt state.  The one
    exception is [tp]: the entry relies on it to point to the [struct cpu] of the hart, as
    the kernel left it, and the way back does not restore it. *)
Theorem user_trap_restores utrap trampoline scratch s kstack ksatp da cause tval : let h := t_hart s in let pt := kstack - 280 in
  let h1 := trap_enter cause tval h in user_env (te_mmu (t_x s)) h kstack ksatp da → h_mode h = User →
  ∃ h2, utrap_enter (set_hart h1 s) = Ok tt (set_hart h2 s) ∧ h_reg h2 A0 = pt ∧ h_reg h2 T0 = da ∧ h_reg h2 Sp = pt ∧
    h_reg h2 Tp = h_reg h Tp ∧ h_csr h2 Satp = ksatp ∧ status_bit SIE_BIT h2 = false ∧ framed pt h1 (h_mem h2) ∧ (∀ a, off_frame pt a → h_mem h2 a = h_mem h a) ∧
    ∀ s2 sepc, framed pt h1 (h_mem (t_hart s2)) → h_reg (t_hart s2) Sp = pt → h_csr (t_hart s2) Satp = ksatp →
      stack_mapped (te_mmu (t_x s2)) pt ksatp → let a := u64 (h_reg (t_hart s2) Tp + CPU_SATP) in te_mmu (t_x s2) ksatp a = Some a →
      ∃ h', (do_trap_exit utrap trampoline true (fval h1 FSstatus) sepc ;; on_hart (modify (clobber scratch)) ;; utrap_exit) s2 = Ok tt (set_hart h' s2) ∧
        (∀ r, r ≠ Tp → h_reg h' r = h_reg h r) ∧ h_reg h' Tp = h_reg (t_hart s2) Tp ∧ h_pc h' = sepc ∧ h_mode h' = User ∧
        status_bit SIE_BIT h' = status_bit SIE_BIT h ∧ h_csr h' Satp = h_mem (t_hart s2) a ∧ h_csr h' Stvec = u64 (utrap - trampoline + TRAMPOLINE).
Proof.
  intros h pt h1 HU Hmode. destruct (trap_enter_spec cause tval h) as (ER & EM & _ & _ & _ & _ & _ & B1 & B2 & B3). fold h1 in ER, EM, B1, B2, B3.
  pose proof (ue_range _ _ _ _ _ HU) as Hr. assert (Hpt : 0 ≤ pt ∧ pt + 280 < 2 ^ 64) by (unfold pt; lia).
  destruct (uenter_spec _ _ _ _ _ (user_env_trap _ _ _ _ _ cause tval HU)) as (h2 & E2 & A2 & T2 & S2 & P2 & C2 & Hb & F2 & O2).
  exists h2. split; [by apply (asm_ok _ (set_hart h1 s))|]. do 5 (split; [done|]). split; [by rewrite Hb|]. split; [done|].
  split; [intros a Ha; rewrite O2 by done; by rewrite <- EM|]. intros s2 sepc Hf Hs Hc Hm a Ha.
  destruct (ureturn_spec utrap trampoline scratch pt (h_reg h) s2 (fval h1 FSstatus) sepc Hpt) as (h' & E' & R' & T' & P' & O' & I' & S' & V' & _);
    [by rewrite Hc|intros r; rewrite <- ER; apply (Hf (FReg r))|done|by rewrite Hc|].
  exists h'. split; [done|]. split; [done|]. split; [done|]. split; [done|].
  cbn [fval] in O', I'. rewrite sstatus_bit in O', I' by auto with riscv. rewrite B3, Hmode in O'. rewrite B2 in I'. done.
Qed.

(** *** System calls *)

Lemma i32_of_nat n : (n < 1024)%nat → i32 (Z.of_nat n) = Z.of_nat n.
Proof. intros Hn. apply i32_id. lia. Qed.
Lemma do_syscall_spec s pt n name r x' kstack : pt = kstack - 280 → 0 ≤ pt ∧ pt + 280 < 2 ^ 64 →
  word_at (t_hart s) pt (FReg A7) = Z.of_nat n → mjoin (syscalls !! n) = Some name → name ≠ Sleep →
  te_syscall name (word_at (t_hart s) pt <$> (FReg <$> [A0; A1; A2; A3; A4; A5])) (x_in s) = Ok r x' → te_kstack x' = Some kstack →
  do_syscall pt s = Ok tt (set_hart (set_word (at_pt pt (FReg A0)) (u64 r) (t_hart (x_out x' s))) (x_out x' s)).
Proof.
  intros -> Hpt Hn Hname Hsl Hcall Hk. set (pt := kstack - 280) in *.
  assert (Hlt : (n < 22)%nat). { destruct (syscalls !! n) as [o|] eqn:E; [|done]. apply lookup_lt_Some in E. exact E. }
  unfold do_syscall, pt_get. rewrite bind_gets, pt_off_PT. fold (word_at (t_hart s) pt (FReg A7)). rewrite Hn, i32_of_nat by lia.
  change (Z.of_nat (length syscalls) - 1) with 21. rewrite (proj2 (Z.ltb_ge _ _)), (proj2 (Z.ltb_ge _ _)) by lia. cbn [orb].
  rewrite Nat2Z.id. rewrite (bind_deref _ _ _ name) by done. unfold pt_args. rewrite bind_gets.
  assert (Ea : ((λ r, h_mem (t_hart s) (u64 (pt + pt_off (FReg r)))) <$> [A0; A1; A2; A3; A4; A5]) =
    (word_at (t_hart s) pt <$> (FReg <$> [A0; A1; A2; A3; A4; A5]))) by (unfold word_at; cbn; by rewrite !pt_off_PT).
  rewrite Ea. rewrite (bind_ok _ _ _ r (x_out x' s)).
  - unfold syscall_ret, mypt. rewrite bind_assoc. rewrite (bind_deref _ _ _ kstack) by done. rewrite bind_ret. change SZPT with 280. fold pt.
    rewrite (u64_id pt) by lia. rewrite pt_off_PT, at_pt_u64 by done. done.
  - destruct name; try by apply on_x_ok. done.
Qed.
(** C12: a system call returns its result to the program: [ecall] in user mode with the
    number of a call in [a7] runs that call with the arguments of the program, and the
    program goes on behind the instruction with the result in [a0] and every other
    register, its mode, interrupt state and address space as before. *)
Theorem syscall_returns ktrap utrap trampoline scratch s kstack ksatp da n name r x' : let h := t_hart s in
  user_env (te_mmu (t_x s)) h kstack ksatp da → h_mode h = User → h_mem h (u64 (h_reg h Tp + CPU_SATP)) = h_csr h Satp →
  t_tab s = ready_tables → h_reg h A7 = Z.of_nat n → mjoin (syscalls !! n) = Some name → name ≠ Sleep →
  te_syscall name (h_reg h <$> [A0; A1; A2; A3; A4; A5]) (masked (t_x s)) = Ok r x' → te_kstack x' = Some kstack →
  te_mmu x' ksatp = te_mmu (t_x s) ksatp →
  ∃ s', utrap_code ktrap utrap trampoline scratch da (set_hart (trap_enter 8 0 h) s) = Ok tt s' ∧ t_x s' = x' ∧ let h' := t_hart s' in
    h_reg h' A0 = u64 r ∧ (∀ q, q ≠ A0 → h_reg h' q = h_reg h q) ∧ h_pc h' = u64 (h_pc h + 4) ∧ h_mode h' = User ∧
    status_bit SIE_BIT h' = status_bit SIE_BIT h ∧ h_csr h' Satp = h_csr h Satp.
Proof.
  intros h HU Hmode Hsatp Htab Ha7 Hname Hsl Hcall Hk Hmm. set (pt := kstack - 280). set (h1 := trap_enter 8 0 h).
  destruct (trap_enter_spec 8 0 h) as (ER & EM & _ & _ & EP & EC & _ & B1 & B2 & B3). fold h1 in ER, EM, EP, EC, B1, B2, B3.
  pose proof (ue_range _ _ _ _ _ HU) as Hr. assert (Hpt : 0 ≤ pt ∧ pt + 280 < 2 ^ 64) by (unfold pt; lia).
  destruct (uenter_spec _ _ _ _ _ (user_env_trap _ _ _ _ _ 8 0 HU)) as (h2 & E2 & HA2 & HT2 & HS2 & Tp2 & C2 & Hb & F2 & O2). fold h1 pt in E2, HA2, HS2, Tp2, Hb, F2, O2.
  assert (Hw : ∀ f, word_at h2 pt f = fval h1 f) by (intros f; exact (word_framed pt h1 h2 f (proj1 Hpt) (proj2 Hpt) F2)).
  assert (Hfu : is_from_user (fval h1 FSstatus) = true).
  { unfold is_from_user, SSTATUS_SPP. rewrite land_bit_test by lia. change 8 with SPP_BIT. cbn [fval]. by rewrite sstatus_bit, B3, Hmode by auto with riscv. }
  set (s3 := set_hart (write_csr Stvec ktrap h2) s).
  assert (Hin : x_in s3 = masked (t_x s)) by (apply (x_in_masked s3); change (status_bit SIE_BIT h2 = false); by rewrite Hb).
  assert (Hw3 : ∀ f, word_at (t_hart s3) pt f = fval h1 f) by exact Hw.
  pose proof (do_syscall_spec s3 pt n name r x' kstack eq_refl Hpt) as E3. rewrite (Hw3 (FReg A7)) in E3. cbn [fval] in E3. rewrite ER, Hin in E3.
  assert (Ea : word_at (t_hart s3) pt <$> (FReg <$> [A0; A1; A2; A3; A4; A5]) = (h_reg h <$> [A0; A1; A2; A3; A4; A5])) by (rewrite <- list_fmap_compose; apply list_fmap_ext; intros i q _; unfold compose; rewrite Hw3; cbn [fval]; by rewrite ER).
  rewrite Ea in E3. specialize (E3 Ha7 Hname Hsl Hcall Hk). set (s4 := set_hart _ _) in E3.
  assert (Hmem4 : h_mem (t_hart s4) = fset (at_pt pt (FReg A0)) (u64 r) (h_mem h2)) by done.
  assert (Hreg4 : h_reg (t_hart s4) = h_reg h2) by done. assert (Hc4 : h_csr (t_hart s4) Satp = ksatp) by exact C2.
  destruct (ue_cpu _ _ _ _ _ HU CPU_SATP) as [Hcpu Hoff]; [by repeat constructor|].
  destruct (ureturn_spec utrap trampoline scratch pt (λ q, if decide (q = A0) then u64 r else h_reg h q) s4 (fval h1 FSstatus) (u64 (h_pc h + 4)) Hpt)
    as (h' & E' & R' & T' & P' & O' & I' & S' & _ & _).
  { rewrite Hc4. unfold stack_mapped. change (t_x s4) with x'. rewrite Hmm. apply (ue_stack _ _ _ _ _ HU). }
  { intros q. rewrite Hmem4. case_decide as Hq; [subst; apply fset_in|]. rewrite fset_out by (intros H; apply (at_pt_inj pt) in H; congruence).
    rewrite (F2 (FReg q)). cbn [fval]. by rewrite ER. }
  { by rewrite Hreg4. }
  { rewrite Hc4, Hreg4, Tp2, ER. change (t_x s4) with x'. by rewrite Hmm. }
  exists (set_hart h' s4). split.
  { unfold utrap_code. rewrite (bind_ok _ _ _ _ _ (asm_ok _ (set_hart h1 s) h2 E2)). rewrite bind_gets. change (h_reg (t_hart (set_hart h2 (set_hart h1 s))) T0) with (h_reg h2 T0).
    rewrite HT2, Z.eqb_refl. unfold call_do_trap. rewrite bind_assoc, bind_gets. change (h_reg (t_hart (set_hart h2 (set_hart h1 s))) A0) with (h_reg h2 A0). rewrite HA2.
    rewrite bind_assoc. unfold bind at 1. rewrite do_trap_eq. cbn zeta. change (t_hart (set_hart h2 (set_hart h1 s))) with h2. rewrite !Hw, Hfu.
    change (fval h1 FScause) with (h_csr h1 Scause). rewrite EC. change (t_tab (set_hart h2 (set_hart h1 s))) with (t_tab s). rewrite Htab.
    change (handler_of ready_tables 8) with (Some Syn_syscall_u). change (set_hart (write_csr Stvec ktrap h2) (set_hart h2 (set_hart h1 s))) with s3.
    cbn [run_fn]. rewrite (bind_ok _ _ _ _ _ E3). change (sepc_after 8 (fval h1 FSepc)) with (u64 (h_csr h1 Sepc + 4)). rewrite EP. exact E'. }
  split; [done|]. cbn zeta. change (t_hart (set_hart h' s4)) with h'. split; [rewrite R' by done; by rewrite decide_True|].
  split. { intros q Hq. destruct (decide (q = Tp)) as [->|Ht]; [by rewrite T', Hreg4, Tp2, ER|]. rewrite R' by done. by rewrite decide_False. }
  cbn [fval] in O', I'. rewrite sstatus_bit in O', I' by auto with riscv. rewrite B3, Hmode in O'. rewrite B2 in I'. split; [done|]. split; [done|]. split; [done|].
  rewrite S', Hmem4, Hreg4, Tp2, ER. rewrite fset_out by apply Hoff. rewrite O2 by done. by rewrite EM.
Qed.

(** *** Sleeping for a time *)

(** The interrupt state of the machine is that of the hart. *)
Definition synced s : Prop := sie (m_cpu (te_mach (t_x s))) = status_bit SIE_BIT (t_hart s).
Lemma mach_in_synced s : synced s → mach_in s = te_mach (t_x s).
Proof. intros H. unfold mach_in. rewrite <- H. by destruct (te_mach (t_x s)) as [[]]. Qed.
(** Task [t] has been switched to, with what the machine was like for the scheduler. *)
Definition dispatched (t : nat) (m : mach) s : Prop :=
  quiet m ∧ length (m_tasks m) = NPROC ∧ (t < NPROC)%nat ∧ ∃ ts, te_mach (t_x s) = cur (Some t) (put_task t ts (acq (L_task t) m)).
(** Task [t] sleeps until the next timer interrupt, and holds its lock until the
    scheduler has the CPU. *)
Definition asleep (t : nat) s : Prop :=
  leaving t (m_tasks (te_mach (t_x s))) (te_mach (t_x s)) ∧ m_tasks (te_mach (t_x s)) !! t = Some (MkTsk SLEEP (Some ChTimer)).
Lemma sleep_until_spec t texp s : synced s → quiet (te_mach (t_x s)) → mytask (te_mach (t_x s)) = Some t → (t < length (m_tasks (te_mach (t_x s))))%nat →
  if t_stub s <? texp then ∃ s1, sleep_until texp s = Switch s1 ∧ asleep t s1 ∧ t_stub s1 = t_stub s else sleep_until texp s = Ok 0 s.
Proof.
  intros Hy Hq Ht Hl. unfold sleep_until. rewrite bind_gets. destruct (t_stub s <? texp); [|done].
  destruct (lookup_lt_is_Some_2 _ _ Hl) as [ts Ets].
  pose proof (sleep_enter_none t ChTimer (mach_in s) ts) as E. rewrite (mach_in_synced s Hy) in E. specialize (E Hq Ht Ets).
  assert (Es : @sleep Z ChTimer None (mach_in s) = Switch (cur (Some t) (put_task t (MkTsk SLEEP (Some ChTimer)) (acq (L_task t) (te_mach (t_x s)))))).
  { unfold sleep. rewrite mach_in_synced by done. run E. done. }
  eexists. split; [by apply on_mach_switch|]. split; [|done]. unfold asleep. change (t_x (x_out ?x s)) with x. rewrite te_get_set.
  split; [|by apply list_lookup_insert_eq]. destruct Hq as [HL HS]. split; [cbn; by rewrite HS, insert_empty|]. split; [cbn; by rewrite HL|done].
Qed.
(** C26: a task in [sys_sleep] wakes up when its time has come and not before: until the
    last timer interrupt was at the end of the time it sleeps on the timer; every timer
    interrupt makes it ready and records the time; and when it gets the CPU again it
    returns 0 if that time has reached the end, and sleeps again otherwise. *)
Theorem sleep_until_timer t a0 s : synced s → quiet (te_mach (t_x s)) → mytask (te_mach (t_x s)) = Some t → length (m_tasks (te_mach (t_x s))) = NPROC →
  (t < NPROC)%nat → let texp := u64 (h_csr (t_hart s) Time + u64 (a0 * TIME_CYCLE)) in
  (if t_stub s <? texp then ∃ s1, sys_sleep a0 s = Switch s1 ∧ asleep t s1 else sys_sleep a0 s = Ok 0 s) ∧
  (∀ s2, quiet (te_mach (t_x s2)) → length (m_tasks (te_mach (t_x s2))) = NPROC → mytask (te_mach (t_x s2)) ≠ Some t →
    m_tasks (te_mach (t_x s2)) !! t = Some (MkTsk SLEEP (Some ChTimer)) →
    ∃ s3, asy_timer s2 = (if status_bit SPP_BIT (t_hart s2) then Ok tt s3 else yield s3) ∧ t_stub s3 = h_csr (t_hart s2) Time ∧
      m_tasks (te_mach (t_x s3)) !! t = Some (MkTsk READY (Some ChTimer))) ∧
  ∀ s4 m, synced s4 → dispatched t m s4 →
    if t_stub s4 <? texp then ∃ s5, sys_sleep_resume texp s4 = Switch s5 ∧ asleep t s5 else ∃ s5, sys_sleep_resume texp s4 = Ok 0 s5.
Proof.
  intros Hy Hq Ht Hl Htn texp. split; [|split].
  - pose proof (sleep_until_spec t texp s Hy Hq Ht ltac:(by rewrite Hl)) as H.
    assert (E : sys_sleep a0 s = sleep_until texp s) by (unfold sys_sleep; by rewrite (bind_ok _ _ _ _ _ (on_hart_gets (read_csr Time) s : on_hart r_time s = _))).
    rewrite E. destruct (t_stub s <? texp); [|done]. destruct H as (s1 & E1 & H1 & _). by exists s1.
  - intros s2 Hq2 Hl2 Hm2 Ht2. destruct (asy_timer_spec s2 Hq2 Hl2) as (s3 & E3 & Hs3 & _ & _ & _ & _ & _ & _ & Hts & _).
    exists s3. split; [done|]. split; [done|]. rewrite Hts, list_lookup_imap, Ht2. cbn. unfold wake_at. rewrite bool_decide_eq_false_2 by congruence. done.
  - intros s4 m Hy4 (Hqm & Hlm & _ & ts & Em). unfold sys_sleep_resume.
    pose proof (sleep_resume_spec t m ts Hqm ltac:(by rewrite Hlm)) as Er. rewrite <- Em, <- mach_in_synced in Er by done.
    rewrite (bind_ok _ _ _ _ _ (on_mach_ok _ _ _ _ Er)). set (m5 := cur (Some t) (put_task t (MkTsk (tstate ts) None) (touch m))) in *. set (s5 := x_out (te_set_mach m5 (x_in s4)) s4).
    assert (E5 : te_mach (t_x s5) = m5) by apply te_get_set.
    pose proof (sleep_until_spec t texp s5) as H. rewrite E5 in H.
    assert (Hy5 : synced s5) by (unfold synced; rewrite E5; unfold s5; by rewrite x_out_sie, te_get_set).
    specialize (H Hy5 Hqm eq_refl ltac:(cbn; rewrite length_insert; by rewrite Hlm)).
    change (t_stub s5) with (t_stub s4) in H. destruct (t_stub s4 <? texp); [|by eexists]. destruct H as (s6 & E6 & H6 & _). by exists s6.
Qed.
End handlers.

(** ** The tables *)

(** C38: for every 64-bit value of [scause] the index [do_trap] computes is inside its
    table: a system call of user mode goes to [do_syscall], a timer interrupt to
    [asy_timer], an interrupt with number 9 or more to [asy_extern] and everything else to
    [unknow_trap].  This stops the kernel with the name of the trap; but an exception with
    a number of 16 or more has no name, and its name is read behind the table. *)
Theorem trap_dispatch {D} {PL : Plic D} {X} {TE : TrapEnv X} cause : 0 ≤ cause < 2 ^ 64 → let ec := cause mod 2 ^ 63 in
  handler_of ready_tables cause = Some (if 2 ^ 63 <=? cause then (if ec =? 5 then Asy_timer else if 9 <=? ec then Asy_extern else Unknow_trap)
                                        else (if ec =? 8 then Syn_syscall_u else Unknow_trap)) ∧
  ∀ (s : tst D X) pt, t_tab s = ready_tables → word_at (t_hart s) pt FScause = cause → cause < 2 ^ 63 →
    if ec <? 16 then ∃ name, unknow_trap pt s = Panic name s else unknow_trap pt s = Fault s.
Proof.
  intros Hc ec. pose proof (Z.mod_pos_bound cause (2 ^ 63) ltac:(lia)) as He. fold ec in He. split.
  - unfold handler_of. rewrite is_intr_eq, scause_ec_eq by done. fold ec. clearbody ec. rewrite !cmin_min. destruct (2 ^ 63 <=? cause).
    + destruct (Z.leb_spec 9 ec); [rewrite Z.min_r by lia; destruct (Z.eqb_spec ec 5); [lia|done]|].
      rewrite Z.min_l by lia. assert (Hd : ec = 0 ∨ ec = 1 ∨ ec = 2 ∨ ec = 3 ∨ ec = 4 ∨ ec = 5 ∨ ec = 6 ∨ ec = 7 ∨ ec = 8) by lia.
      repeat (destruct Hd as [-> | Hd]; [reflexivity|]). by subst.
    + destruct (Z.leb_spec 15 ec); [rewrite Z.min_r by lia; destruct (Z.eqb_spec ec 8); [lia|done]|].
      rewrite Z.min_l by lia.
      assert (Hd : ec = 0 ∨ ec = 1 ∨ ec = 2 ∨ ec = 3 ∨ ec = 4 ∨ ec = 5 ∨ ec = 6 ∨ ec = 7 ∨ ec = 8 ∨ ec = 9 ∨ ec = 10 ∨ ec = 11 ∨ ec = 12 ∨ ec = 13 ∨ ec = 14) by lia.
      repeat (destruct Hd as [-> | Hd]; [reflexivity|]). by subst.
  - intros s pt Ht Hw Hlt. unfold unknow_trap, pt_get. rewrite bind_gets, pt_off_PT. fold (word_at (t_hart s) pt FScause). rewrite Hw.
    rewrite is_intr_eq, scause_ec_eq by done. fold ec. rewrite (proj2 (Z.leb_gt _ _)) by lia. unfold bind, deref. rewrite Ht.
    assert (Hlen : length (exception_name ready_tables) = 16%nat) by reflexivity. destruct (Z.ltb_spec ec 16).
    + destruct (lookup_lt_is_Some_2 (exception_name ready_tables) (Z.to_nat ec)) as [name E]; [lia|]. rewrite E. by exists name.
    + by rewrite lookup_ge_None_2 by lia.
Qed.

(** The registers of the interrupt controller are inside its range and those of two
    harts differ. *)
Lemma plic_in_range h irq : 0 ≤ h < Z.of_nat NCPU → 0 ≤ irq < 1024 →
  PLIC ≤ PLIC_PRIORITY irq < PLIC + PLIC_SIZE ∧ PLIC ≤ PLIC_ENABLE h < PLIC + PLIC_SIZE ∧ PLIC ≤ PLIC_THRESHOLD h < PLIC + PLIC_SIZE ∧
  PLIC ≤ PLIC_CLAIM h < PLIC + PLIC_SIZE ∧ PLIC_PRIORITY irq < PLIC_ENABLE h < PLIC_THRESHOLD h ∧ PLIC_THRESHOLD h < PLIC_CLAIM h.
Proof.
  change (Z.of_nat NCPU) with 8. intros Hh Hi. unfold PLIC_PRIORITY, PLIC_ENABLE, PLIC_THRESHOLD, PLIC_CLAIM, PLIC, PLIC_SIZE.
  rewrite !Z.shiftl_mul_pow2 by lia. rewrite u32_id by lia. lia.
Qed.
(** Of an interrupt of 32 or more, [set_plic_my_enable] computes a register 16 bytes
    further for every 32 interrupts, where the controller has it 4 bytes further. *)
Lemma enable_reg_far h : enable_reg h 10 = PLIC_ENABLE h ∧ enable_reg h 32 = PLIC_ENABLE h + 16.
Proof. split; unfold enable_reg; [change (u32 (10 / 32 * 4)) with 0|change (u32 (32 / 32 * 4)) with 4]; lia. Qed.

(** ** Switching between tasks *)

(** A [struct context] at [p] that is mapped one to one. *)
Definition ctx_mapped (mmu : Z → Z → option Z) (satp p : Z) : Prop :=
  0 ≤ p ∧ p + 112 < 2 ^ 64 ∧ ∀ a, p ≤ a < p + 112 → mmu satp a = Some a.
Definition apart (p q : Z) : Prop := p + 112 ≤ q ∨ q + 112 ≤ p.
Lemma CT_range r : 0 ≤ CT r ≤ 104.
Proof. split; apply Z.leb_le; by destruct r. Qed.
Lemma CT_inj r q : r ∈ context → q ∈ context → CT r = CT q → r = q.
Proof.
  unfold context. rewrite !elem_of_cons, !elem_of_nil. intros Hr Hq.
  repeat (destruct Hr as [-> | Hr]; [repeat (destruct Hq as [-> | Hq]; [intros H; first [reflexivity|discriminate H]|]); by destruct Hq|]). by destruct Hr.
Qed.
Lemma ctx_addr mmu satp p r : ctx_mapped mmu satp p → mmu satp (u64 (p + CT r)) = Some (p + CT r).
Proof. intros (H1 & H2 & H3). pose proof (CT_range r). rewrite u64_id by lia. apply H3. lia. Qed.
(** One switch, from the context [old] (if there is one) to the context [new]. *)
Lemma switch_spec mmu h new : let old := h_reg h A0 in h_reg h A1 = new → ctx_mapped mmu (h_csr h Satp) new →
  (old = 0 ∨ ctx_mapped mmu (h_csr h Satp) old ∧ apart old new) →
  ∃ h', context_switch mmu h = Ok tt h' ∧ h_csr h' = h_csr h ∧ h_mode h' = h_mode h ∧ h_reg h' Tp = h_reg h Tp ∧
    (∀ r, r ∈ context → h_reg h' r = h_mem h (new + CT r)) ∧ h_pc h' = h_mem h (new + CT Ra) ∧
    (old ≠ 0 → ∀ r, r ∈ context → h_mem h' (old + CT r) = h_reg h r) ∧ ∀ a, (∀ r, a ≠ old + CT r) → h_mem h' a = h_mem h a.
Proof.
  intros old Hn Hm Ho.
  assert (H1 : ∃ h1, (if old =? 0 then ret tt else execs mmu store_context) h = Ok tt h1 ∧ same_csr h h1 ∧ h_reg h1 = h_reg h ∧
    (old ≠ 0 → ∀ r, r ∈ context → h_mem h1 (old + CT r) = h_reg h r) ∧ (∀ a, (∀ r, a ≠ old + CT r) → h_mem h1 a = h_mem h a) ∧
    ∀ r, h_mem h1 (new + CT r) = h_mem h (new + CT r)).
  { destruct (Z.eqb_spec old 0) as [E|E]; [by exists h|]. destruct Ho as [Ho|[Ho Ha]]; [done|].
    destruct (execs_stores mmu CT A0 old context h eq_refl) as (h1 & E1 & C1 & R1 & In1 & Out1); [intros r _; by apply ctx_addr|exact CT_inj|].
    exists h1. split; [exact E1|]. split; [done|]. split; [done|]. split; [done|]. split; [intros a Hna; apply Out1; by intros|].
    intros r. apply Out1. intros q _. pose proof (CT_range r). pose proof (CT_range q). unfold apart in Ha. lia. }
  destruct H1 as (h1 & E1 & C1 & R1 & In1 & Out1 & N1).
  destruct (execs_loads mmu CT A1 new context h1) as (h2 & E2 & C2 & M2 & R2).
  { by rewrite R1. }
  { intros r _. apply ctx_addr. by rewrite (proj1 C1). }
  { unfold context. rewrite !not_elem_of_cons. repeat split; try done. by apply not_elem_of_nil. }
  destruct (same_csr_trans _ _ _ C1 C2) as (Hc & Hmo & _).
  exists (set_pc (h_reg h2 Ra) h2). split.
  { unfold context_switch. rewrite bind_gets. fold old. run E1. run E2. done. }
  assert (HR : ∀ r, r ∈ context → h_reg h2 r = h_mem h (new + CT r)) by (intros r Hr; by rewrite R2, decide_True, N1).
  split; [exact Hc|]. split; [exact Hmo|]. split.
  { cbn. rewrite R2, decide_False, R1; [done|]. unfold context. rewrite !not_elem_of_cons. repeat split; try done. by apply not_elem_of_nil. }
  split; [exact HR|]. split; [apply (HR Ra); by left|]. cbn [set_pc h_mem]. rewrite M2. split; [exact In1|exact Out1].
Qed.
(** C28: a task that is switched away and back goes on where it was: [context_switch]
    stores the registers a function must preserve, the stack pointer and the return
    address in the old context and takes the new ones; and when the old context is
    switched to again, on whatever CPU and from wherever, its registers are as at the
    first switch and the code goes on behind it. *)
Theorem context_switch_resumes mmu h old new : h_reg h A0 = old → h_reg h A1 = new → old ≠ 0 → apart old new →
  ctx_mapped mmu (h_csr h Satp) old → ctx_mapped mmu (h_csr h Satp) new →
  ∃ h', context_switch mmu h = Ok tt h' ∧ (∀ r, r ∈ context → h_reg h' r = h_mem h (new + CT r)) ∧ h_pc h' = h_mem h (new + CT Ra) ∧
    h_reg h' Tp = h_reg h Tp ∧ h_csr h' = h_csr h ∧
    ∀ h2, h_reg h2 A1 = old → h_csr h2 Satp = h_csr h Satp → (∀ r, r ∈ context → h_mem h2 (old + CT r) = h_mem h' (old + CT r)) →
      (h_reg h2 A0 = 0 ∨ ctx_mapped mmu (h_csr h Satp) (h_reg h2 A0) ∧ apart (h_reg h2 A0) old) →
      ∃ h3, context_switch mmu h2 = Ok tt h3 ∧ (∀ r, r ∈ context → h_reg h3 r = h_reg h r) ∧ h_pc h3 = h_reg h Ra ∧ h_reg h3 Tp = h_reg h2 Tp.
Proof.
  intros HA0 HA1 Hne Hap Ho Hn. destruct (switch_spec mmu h new HA1 Hn) as (h' & E & Hc & _ & Ht & Hr & Hp & Hs & _); [rewrite HA0; by right|].
  rewrite HA0 in Hs. exists h'. do 5 (split; [done|]). intros h2 H1 Hsat Hctx H0.
  destruct (switch_spec mmu h2 old H1) as (h3 & E3 & _ & _ & Ht3 & Hr3 & Hp3 & _); [by rewrite Hsat|by rewrite Hsat|].
  exists h3. split; [done|]. split; [intros r Hin; by rewrite Hr3, Hctx, Hs|]. split; [|done].
  rewrite Hp3, Hctx, Hs; [done|done|by left..].
Qed.
