(* ===== verification/Boot.v ===== *)
(** Concrete states: the machine at boot, physical memory after [init_memory], the
    buffer cache after [init_bcache] on a disk with a small file system, and a flat
    user memory.  The witnesses of the theorems run on them. *)
From S2P Require Import Prelude Bytes ListNode Machine BlockIO Bio Fs Inode Dir PageAlloc Vm Pipe Slot File.
Import Cache.

(** ** The machine *)

(** CPU 0 runs task 0 with interrupts on; the other tasks are free. *)
Definition mach0 : mach := MkMach (MkCpu 0 true false 0 (Some 0%nat)) ∅
  (MkTsk RUN None :: replicate (NPROC - 1) (MkTsk FREE None)).
Lemma mach0_sleep : can_sleep mach0.
Proof. split; [done|]. split; [by eexists|done]. Qed.
Lemma mach0_quiet : quiet mach0.
Proof. done. Qed.

(** ** Physical memory *)

(** The kernel image takes the first page. *)
Definition kend0 : Z := PHY_MEMORY + 1.
Definition boot_mem : pmem := (state_of (init_memory kend0 (mach0, boot_pages))).2.
Lemma boot_mem_run : init_memory kend0 (mach0, boot_pages) = Ok tt (mach0, boot_mem) ∧
  pages_inv (1%nat :: 2%nat :: 3%nat :: 4%nat :: 5%nat :: seq 6 (NPAGE - 6)) ∅ boot_mem.
Proof.
  pose proof NPAGE_Z. unfold boot_mem.
  destruct (init_memory_spec kend0 1 mach0) as (p & E & I); [reflexivity|lia|]. rewrite E. cbn [state_of snd].
  split; [reflexivity|]. replace (NPAGE - 1)%nat with (5 + (NPAGE - 6))%nat in I by lia. exact I.
Qed.
#[global] Opaque boot_mem.

(** ** User memory as an array that starts at address 0 *)

Definition flat : Type := list Z.
Definition flat_in (va : Z) (n : nat) (u : flat) : option (list Z) :=
  if decide (0 ≤ va ∧ va + Z.of_nat n ≤ Z.of_nat (length u)) then Some (take n (drop (Z.to_nat va) u)) else None.
Definition flat_out (va : Z) (d : list Z) (u : flat) : option flat :=
  if decide (d = []) then Some u
  else if decide (0 ≤ va ∧ va + Z.of_nat (length d) ≤ Z.of_nat (length u)) then Some (blit (Z.to_nat va) d u) else None.
Definition flat_byte (u : flat) (va : Z) : option Z := if decide (0 ≤ va) then u !! Z.to_nat va else None.
Lemma flat_range u va n : (0 < n)%nat → (∀ k, 0 ≤ k < Z.of_nat n → is_Some (flat_byte u (va + k))) →
  0 ≤ va ∧ va + Z.of_nat n ≤ Z.of_nat (length u).
Proof.
  intros Hn H. assert (H0 := H 0 ltac:(lia)). assert (H1 := H (Z.of_nat n - 1) ltac:(lia)). unfold flat_byte in *.
  destruct (decide (0 ≤ va + 0)); [|by destruct H0]. destruct (decide (0 ≤ va + (Z.of_nat n - 1))); [|by destruct H1].
  apply lookup_lt_is_Some_1 in H1. lia.
Qed.
#[export] Instance flat_mem : UserMem flat.
Proof.
  refine {| copy_in := λ va n u, if decide (n = 0%nat) then Some [] else flat_in va n u; copy_out := flat_out; ubyte := flat_byte |}.
  - intros u va n H. case_decide as Hn; [subst; exists []; split; [done|]; split; [done|]; lia|].
    destruct (flat_range u va n ltac:(lia) H) as [H1 H2]. unfold flat_in. rewrite decide_True by done.
    eexists. split; [done|]. split; [rewrite length_take, length_drop; lia|]. intros k Hk.
    rewrite lookup_take_lt, lookup_drop by done. unfold flat_byte. rewrite decide_True by lia. f_equal. lia.
  - intros u va d H. unfold flat_out. case_decide as Hd.
    + subst d. exists u. split; [done|]. intros a. cbn. by rewrite decide_False by lia.
    + assert (0 < length d)%nat by (destruct d; [done|cbn; lia]). destruct (flat_range u va (length d) ltac:(lia) H) as [H1 H2].
      rewrite decide_True by done. eexists. split; [done|]. intros a. unfold flat_byte. destruct (decide (0 ≤ a)).
      * rewrite lookup_blit by lia. repeat case_decide; (lia || (f_equal; lia) || done).
      * by rewrite decide_False by lia.
Defined.

(** ** A file system *)

(** Blocks: 2 inode map, 3 and 4 inodes, 5 block map, data from 6 on. *)
Definition sb0 : superblock := MkSb 0 2 3 5 6 26 8192 (replicate 8 0).
Lemma sb0_wf : sb_wf sb0.
Proof. split; done. Qed.
(** The root directory (inode 0, block 6) has the entry "a" for inode 1, a file
    with the blocks 7 and 8. *)
Definition di_root : dinode := MkDi DIRECTORY 0 1 1024 (6 :: replicate 14 0).
Definition di_file : dinode := MkDi REGULAR 0 1 2048 (7 :: 8 :: replicate 13 0).
Lemma di_root_wf : di_wf di_root.
Proof. split; [|done]. repeat constructor; by vm_compute. Qed.
Lemma di_file_wf : di_wf di_file.
Proof. split; [|done]. repeat constructor; by vm_compute. Qed.
Definition dir_data : list Z :=
  blit 32 [1; 0; 0; 0; 97] (blit 0 [1] zero_block).
Definition disk0 : ram_disk :=
  {[ 2 := blit 0 [3] zero_block;
     3 := blit 0 (dinode_encode di_root ++ dinode_encode di_file) zero_block;
     5 := blit 0 [7] zero_block;
     6 := dir_data;
     7 := replicate BSIZE 65;
     8 := replicate BSIZE 66 ]}.

(** ** The buffer cache *)

Definition cache0 (dk : ram_disk) : mach * @bcache ram_disk :=
  (mach0, default (MkBcache [] ∅ dk) (init_bcache dk)).
Lemma cache0_ok dk : bio_ok (cache0 dk) ∧ bio_nheld (cache0 dk) = 0%nat ∧ bmach (cache0 dk) = mach0 ∧
  (∀ n, bio_disk (cache0 dk) n = ram_rd n dk) ∧ ∀ n, not_held (cache0 dk) n.
Proof.
  destruct (init_bcache_inv dk mach0 mach0_sleep) as (c & E & I & Ed & Hn). unfold cache0. rewrite E. cbn [default].
  split; [by eexists|]. split; [done|]. split; [done|]. split; [intros n; cbn; unfold io_disk; cbn [snd]; by rewrite Ed|].
  intros n b d H. unfold nheld in Hn. cbn in *. unfold held in H. cbn in H.
  destruct (bufs c !! b) as [bf|] eqn:Eb; [|done]. cbn in H. destruct (s_locked (b_lock bf)) eqn:El; [|done].
  pose proof (countb_pos (λ b, s_locked (b_lock b)) _ _ _ Eb El). lia.
Qed.
Definition fs_state : mach * @bcache ram_disk := cache0 disk0.
Lemma fs_state_ok : bio_ok fs_state.
Proof. apply cache0_ok. Qed.
Lemma fs_state_room k : (k ≤ NIOBUF)%nat → room k fs_state.
Proof. intros Hk. unfold room, fs_state. destruct (cache0_ok disk0) as (_ & -> & _). lia. Qed.
Lemma fs_state_held n : not_held fs_state n.
Proof. apply cache0_ok. Qed.
Lemma fs_state_disk n : bio_disk fs_state n = ram_rd n disk0.
Proof. apply cache0_ok. Qed.
Lemma fs_state_area lo hi : area_free lo hi fs_state.
Proof.
  split; [apply fs_state_ok|]. split; [by apply fs_state_room; unfold NIOBUF; lia|]. intros n _. apply fs_state_held.
Qed.
Lemma fs_state_mach : bmach fs_state = mach0.
Proof. apply cache0_ok. Qed.

(** The root directory and the file in the inode cache, in slots 0 and 1. *)
Definition in_root : inode := MkInode sleep0 di_root (Some sb0) 0 1.
Definition in_file : inode := MkInode sleep0 di_file (Some sb0) 1 1.
Definition icache0 : list inode := in_root :: in_file :: replicate (NINODE - 2) inode0.
Lemma slot_root : slot_of sb0 icache0 0 in_root.
Proof. done. Qed.
Lemma slot_file : slot_of sb0 icache0 1 in_file.
Proof. done. Qed.
Lemma icache0_inv : icache_inv icache0.
Proof.
  assert (Hc : ∀ i a, icache0 !! i = Some a → (i = 0%nat ∧ a = in_root) ∨ (i = 1%nat ∧ a = in_file) ∨ a = inode0).
  { intros [|[|i]] a E; [left|right; left|right; right]; [by injection E as <-..|]. cbn in E. by apply lookup_replicate in E as [-> _]. }
  split; [done| |].
  - intros i a [[_ ->]|[[_ ->]| ->]]%Hc; done.
  - intros i j a b [[-> ->]|[[-> ->]| ->]]%Hc [[-> ->]|[[-> ->]| ->]]%Hc [x Hx]; done.
Qed.

(** The blocks of the file are in use and nobody holds them. *)
Lemma fs_state_used e : used sb0 (bio_disk fs_state) e = used sb0 (λ n, ram_rd n disk0) e.
Proof. unfold used, map_bit. by rewrite fs_state_disk. Qed.
Lemma fs_state_freeable e : e = 6 ∨ e = 7 ∨ e = 8 → freeable sb0 fs_state e.
Proof.
  intros He. split; [destruct He as [->|[->| ->]]; by vm_compute|]. split; [apply fs_state_held|].
  rewrite fs_state_used. destruct He as [->|[->| ->]]; by vm_compute.
Qed.
Lemma fs_state_bmap k : (k ≤ NIOBUF)%nat → bmap_free sb0 k fs_state.
Proof. intros Hk. split; [apply fs_state_area|by apply fs_state_room]. Qed.
Lemma file_blocks0 : file_blocks (bio_disk fs_state) (di_iblock di_file) NIBLOCK 0 = [7; 8].
Proof. done. Qed.
Lemma zeros_tail_two a b n : a ≠ 0 → b ≠ 0 → zeros_tail 0 (a :: b :: replicate n 0).
Proof.
  intros Ha Hb [|[|j]] k _ Hk E Hl; cbn in E; [by injection E|by injection E|].
  destruct k as [|[|k]]; [lia|lia|]. cbn in *. rewrite length_replicate in Hl. apply lookup_replicate. lia.
Qed.
Lemma file_blocks_ok hi : 0 ≤ hi ≤ 2048 → blocks_ok sb0 fs_state (di_iblock di_file) 0 hi.
Proof.
  intros Hh p Hp. destruct (Z.lt_ge_cases p 1024).
  - exists 7. rewrite Z.div_small by lia. destruct (fs_state_freeable 7 ltac:(lia)) as (? & ? & _). done.
  - exists 8. destruct (fs_state_freeable 8 ltac:(lia)) as (? & ? & _). replace (p / 1024) with 1; [done|].
    apply Z.div_unique with (p - 1024); lia.
Qed.
Lemma file_inj : direct_inj sb0 (di_iblock di_file).
Proof.
  assert (Hc : ∀ j e, di_iblock di_file !! j = Some e → data_blk sb0 e → (j = 0%nat ∧ e = 7) ∨ (j = 1%nat ∧ e = 8)).
  { intros [|[|j]] e E He; [left; by injection E as <-|right; by injection E as <-|].
    cbn in E. apply (lookup_replicate_1 13) in E as [-> _]. by destruct He. }
  intros j j' e _ _ E E' He. destruct (Hc _ _ E He) as [[-> ->]|[-> ->]]; destruct (Hc _ _ E' He) as [[-> ?]|[-> ?]]; done.
Qed.

(** An open file on the inode of slot 1, at offset [off]. *)
Definition fptr : optr := (1%nat, 0%nat).
Definition open_file (off : Z) : (pmem * slots file) * (list pipe * flat) :=
  with_file ((MkPm ∅ ∅ ∅, init_slots), ([], replicate 64 0)) fptr (MkFile O_RDWR INODE 1 off (Some 1%nat)).
