(* ===== verification/TrapKernel.v ===== *)
(** The terminal and the disk driver as the environment of traps, an interrupt
    controller, and runs of the trap code on concrete states. *)
From S2P Require Import Prelude Machine Sched Pipe Console Virtio Riscv Trap TrapResults Boot.

(** ** An interrupt controller: a line of pending interrupts *)

Record plic0 := MkPlic { pl_regs : gmap Z Z; pl_pending : list Z; pl_taken : gmap Z (gset Z) }.
Definition taken (d : plic0) (h : Z) : gset Z := default ∅ (pl_taken d !! h).
(** The hart whose claim register has address [a]. *)
Definition claim_hart (a : Z) : option Z :=
  if (a - PLIC_CLAIM 0) mod 8192 =? 0 then Some ((a - PLIC_CLAIM 0) / 8192) else None.
Definition offered (d : plic0) (h : Z) : option Z :=
  List.find (λ i, (0 <? i) && (i <? 2 ^ 32) && negb (bool_decide (i ∈ taken d h))) (pl_pending d).
Definition plic0_rd (a : Z) (d : plic0) : Z * plic0 :=
  match claim_hart a with
  | Some h =>
    match offered d h with
    | Some i => (i, MkPlic (pl_regs d) (filter (λ j, j ≠ i) (pl_pending d)) (<[h := {[i]} ∪ taken d h]> (pl_taken d)))
    | None => (0, d)
    end
  | None => (default 0 (pl_regs d !! a), d)
  end.
Definition plic0_wr (a v : Z) (d : plic0) : plic0 :=
  match claim_hart a with
  | Some h => MkPlic (pl_regs d) (pl_pending d) (<[h := taken d h ∖ {[v]}]> (pl_taken d))
  | None => MkPlic (<[a := v]> (pl_regs d)) (pl_pending d) (pl_taken d)
  end.
Lemma claim_hart_of h : claim_hart (PLIC_CLAIM h) = Some h.
Proof.
  unfold claim_hart, PLIC_CLAIM. rewrite !Z.shiftl_mul_pow2 by lia.
  replace (PLIC + 0x200000 + h * 2 ^ 13 + 0x1004 - (PLIC + 0x200000 + 0 * 2 ^ 13 + 0x1004)) with (h * 8192) by lia.
  by rewrite Z.mod_mul, Z.div_mul by lia.
Qed.
Lemma offered_spec d h i : offered d h = Some i → 0 < i < 2 ^ 32 ∧ i ∉ taken d h.
Proof.
  intros E. apply List.find_some in E as [_ E]. rewrite !andb_true_iff, !Z.ltb_lt, negb_true_iff, bool_decide_eq_false in E. tauto.
Qed.
#[export] Instance plic0_plic : Plic plic0.
Proof.
  refine {| plic_rd := plic0_rd; plic_wr := plic0_wr; plic_serving := λ d h, taken d h ∖ {[0]} |}.
  - intros d h i d' E. unfold plic0_rd in E. rewrite claim_hart_of in E. destruct (offered d h) as [j|] eqn:Eo; injection E as <- <-.
    + destruct (offered_spec _ _ _ Eo) as [Hj Hn]. split; [lia|]. intros h'. case_decide as Hc; [destruct Hc as [-> _]|].
      * unfold taken at 1. cbn. rewrite lookup_insert_eq. cbn. set_solver by lia.
      * unfold taken at 1. cbn. rewrite lookup_insert_ne; [done|]. intros <-. apply Hc. split; [done|lia].
    + split; [lia|]. intros h'. rewrite decide_False; [done|]. by intros [_ ?].
  - intros d h i d' E Hi. unfold plic0_rd in E. rewrite claim_hart_of in E. destruct (offered d h) as [j|] eqn:Eo; injection E as <- <-; [|done].
    destruct (offered_spec _ _ _ Eo) as [_ Hn]. set_solver.
  - intros d h i h'. unfold plic0_wr. rewrite claim_hart_of. case_decide as Hc.
    + subst. unfold taken at 1. cbn. rewrite lookup_insert_eq. cbn. set_solver.
    + unfold taken at 1. cbn. by rewrite lookup_insert_ne.
  - intros d h. set_solver.
Defined.

(** ** The terminal and the disk *)

Section devs.
Context {U : Type}.
(** Terminal, output with user memory, and disk driver. *)
Definition devs : Type := mach * ((con * (list Z * U)) * (vdisk * list vbuf)).
Definition on_con {A} (m : M (@cst U) A) : M devs A := zoom (λ x : devs, (x.1, x.2.1)) (λ c x, (c.1, (c.2, x.2.2))) m.
Definition on_disk {A} (m : M vst A) : M devs A := zoom (λ x : devs, (x.1, x.2.2)) (λ v x, (v.1, (x.2.1, v.2))) m.
(** What the UART shows: the line status and the byte received; [kstacks] are the kernel
    stacks of the tasks, [calls] the system calls. *)
Context (mem : list Z) (strs : Strs) (tasks : list tinfo) (writable : bool) (got : option Z).
Context (kstacks : nat → Z) (mmu : Z → Z → option Z) (calls : sysname → list Z → M devs Z).
Definition dev_env : TrapEnv devs := {|
  te_mach := fst;
  te_set_mach := λ m x, (m, x.2);
  te_kstack := λ x, kstacks <$> mytask x.1;
  te_mmu := λ _, mmu;
  te_uart_irq := on_con (do_uart_irq mem strs tasks writable got);
  te_disk_irq := on_disk virtio_disk_intr;
  te_syscall := calls;
  te_get_set := λ m x, eq_refl;
  te_mmu_mach := λ m x, eq_refl;
|}.
End devs.

(** ** Runs *)

(** The kernel maps every address to itself; the user's page table (satp 1) has the trap
    frame at 0x9000. *)
Definition mmu0 (satp a : Z) : option Z := if (satp =? 1) && (a =? TRAPFRAME) then Some 0x9000 else Some a.
#[export] Instance env0 : TrapEnv (@devs unit) :=
  @dev_env unit [] (MkStrs 0 0 0 0 0 0) [] false None (λ _, 0x80010000) mmu0 (λ _ args, ret (default 0 (args !! 1%nat))).
Definition devs0 : @devs unit := (mach0, ((con0, ([], tt)), (vdisk0, []))).
(** In the kernel, with the disk interrupt pending. *)
Definition hart_k : hart :=
  MkHart (fset Sp 0x80010000 (fset S3 7 (λ _, 0))) (fset Mstatus 2 (λ _, 0)) Supervisor 0x80000100 (λ _, 0).
Definition trap_k : tst plic0 (@devs unit) := MkTst hart_k (MkPlic ∅ [1] ∅) ready_tables 0 devs0.
Lemma disk_irq_served : served IRQ_DISK (masked devs0) (state_of (te_disk_irq (masked devs0))).
Proof. right. right. split; [done|]. by vm_compute. Qed.
Lemma kernel_interrupt_invisible_witness : ∃ s', ktrap_code 16 32 0 (λ _, 99) (set_hart (trap_enter (irq_cause ASY_EXTERN) 0 hart_k) trap_k) = Ok tt s' ∧
  h_reg (t_hart s') S3 = 7 ∧ h_pc (t_hart s') = 0x80000100 ∧ status_bit SIE_BIT (t_hart s') = true ∧ plic_serving (t_plic s') 0 = ∅.
Proof.
  destruct (kernel_interrupt_invisible 16 32 0 (λ _, 99) ASY_EXTERN trap_k) as (s' & E & R & P & _ & I & _ & _ & _ & Hp).
  - by vm_compute.
  - by vm_compute.
  - intros a _. done.
  - done.
  - done.
  - apply mach0_quiet.
  - done.
  - right. split; [done|]. exists 1, (MkPlic ∅ [] {[0 := {[1]}]}), (state_of (te_disk_irq (masked devs0))).
    split; [by vm_compute|]. split; [exact disk_irq_served|]. split; [by vm_compute|done].
  - exists s'. split; [exact E|]. split; [apply R|]. split; [exact P|]. split; [exact I|]. rewrite Hp. by vm_compute.
Defined.

(** A program that calls number 16 with 11 in [a1]; its [struct cpu] is at 0x70000000. *)
Definition hart_u : hart :=
  MkHart (fset Tp 0x70000000 (fset A7 16 (fset A1 11 (fset S3 7 (λ _, 0))))) (fset Satp 1 (fset Mstatus 2 (λ _, 0))) User 0x1000
    (fset 0x70000008 0x80010000 (fset 0x70000010 1 (fset 0x70000020 0x500 (fset 0x9000 5 (λ _, 0))))).
Definition trap_u : tst plic0 (@devs unit) := MkTst hart_u (MkPlic ∅ [] ∅) ready_tables 0 devs0.
Lemma user_env_u : user_env mmu0 hart_u 0x80010000 5 0x500.
Proof.
  split; try done.
  - by exists 0x9000.
  - intros o Ho. unfold CPU_KSTACK, CPU_SATP, CPU_TRAP in Ho. rewrite !elem_of_cons, elem_of_nil in Ho. change (h_reg hart_u Tp) with 0x70000000.
    split; [by destruct Ho as [-> | [-> | [-> | []]]]|]. intros f. unfold at_pt. pose proof (PT_range f).
    rewrite u64_id by lia. lia.
Qed.
Lemma user_trap_restores_witness : ∃ h2 h', utrap_enter (set_hart (trap_enter (irq_cause ASY_TIMER) 0 hart_u) trap_u) = Ok tt (set_hart h2 trap_u) ∧
  (do_trap_exit 32 0 true (fval (trap_enter (irq_cause ASY_TIMER) 0 hart_u) FSstatus) 0x1000 ;; on_hart (modify (clobber (λ _, 99))) ;; utrap_exit) (set_hart h2 trap_u) =
    Ok tt (set_hart h' (set_hart h2 trap_u)) ∧ h_reg h' S3 = 7 ∧ h_pc h' = 0x1000 ∧ h_mode h' = User.
Proof.
  destruct (user_trap_restores (TE:=env0) 32 0 (λ _, 99) trap_u 0x80010000 5 0x500 (irq_cause ASY_TIMER) 0 user_env_u eq_refl)
    as (h2 & E2 & _ & _ & S2 & P2 & C2 & _ & F2 & _ & H2).
  destruct (H2 (set_hart h2 trap_u) 0x1000 F2 S2 C2) as (h' & E' & R' & _ & P' & O' & _).
  - intros a _. done.
  - done.
  - exists h2, h'. split; [exact E2|]. split; [exact E'|]. split; [by apply R'|]. split; [exact P'|exact O'].
Defined.
Lemma syscall_returns_witness : ∃ s', utrap_code 16 32 0 (λ _, 99) 0x500 (set_hart (trap_enter 8 0 hart_u) trap_u) = Ok tt s' ∧
  h_reg (t_hart s') A0 = 11 ∧ h_reg (t_hart s') S3 = 7 ∧ h_pc (t_hart s') = 0x1004.
Proof.
  destruct (syscall_returns (TE:=env0) 16 32 0 (λ _, 99) trap_u 0x80010000 5 0x500 16 Alloc 11 (masked devs0) user_env_u eq_refl) as (s' & E & _ & A & R & P & _);
    [by vm_compute|exact eq_refl|by vm_compute|exact eq_refl|discriminate|exact eq_refl|exact eq_refl|exact eq_refl|].
  exists s'. split; [exact E|]. split; [exact A|]. split; [by apply R|exact P].
Defined.
(** The timer interrupt at time 20000000 ends a sleep of one cycle that began at 1. *)
Definition trap_s : tst plic0 (@devs unit) :=
  MkTst (MkHart (λ _, 0) (fset Time 1 (fset Mstatus 2 (λ _, 0))) Supervisor 0 (λ _, 0)) (MkPlic ∅ [] ∅) ready_tables 0 devs0.
Definition sleeper : mach := MkMach (MkCpu 0 false false 0 None) ∅ (MkTsk SLEEP (Some ChTimer) :: replicate (NPROC - 1) (MkTsk FREE None)).
Definition trap_t : tst plic0 (@devs unit) :=
  MkTst (MkHart (λ _, 0) (fset Time 20000000 (fset Mstatus 0x100 (λ _, 0))) Supervisor 0 (λ _, 0)) (MkPlic ∅ [] ∅) ready_tables 0 (sleeper, devs0.2).
Lemma sleep_until_timer_witness : (∃ s1, sys_sleep 1 trap_s = Switch s1 ∧ asleep 0 s1) ∧
  ∃ s3, asy_timer trap_t = Ok tt s3 ∧ t_stub s3 = 20000000 ∧ m_tasks (te_mach (t_x s3)) !! 0%nat = Some (MkTsk READY (Some ChTimer)).
Proof.
  destruct (sleep_until_timer 0 1 trap_s) as (H1 & H2 & _); [done|apply mach0_quiet|done|done|apply Nat.ltb_lt; reflexivity|].
  split; [exact H1|]. exact (H2 trap_t ltac:(done) ltac:(done) ltac:(done) ltac:(done)).
Defined.
Lemma trap_dispatch_witness : handler_of ready_tables 24 = Some Unknow_trap ∧ unknow_trap 0 (set_hart (set_word 56 24 hart_k) trap_k) = Fault (set_hart (set_word 56 24 hart_k) trap_k).
Proof.
  destruct (trap_dispatch (D:=plic0) (X:=@devs unit) 24 ltac:(lia)) as [H1 H2]. split; [exact H1|].
  exact (H2 (set_hart (set_word 56 24 hart_k) trap_k) 0 ltac:(done) ltac:(done) ltac:(lia)).
Defined.
(** A sleep of 2 ^ 57 cycles is over at once: the product is computed in 64 bits. *)
Lemma sys_sleep_wraps : sys_sleep (2 ^ 57) (set_stub 1 trap_s) = Ok 0 (set_stub 1 trap_s).
Proof. by vm_compute. Qed.

(** The contexts of two tasks; the second comes back to the first. *)
Definition hart_c : hart := MkHart (fset A0 0x1000 (fset A1 0x2000 (fset S3 7 (λ _, 0)))) (λ _, 0) Supervisor 0 (λ _, 0).
Lemma context_switch_resumes_witness : ∃ h' h3, context_switch mmu0 hart_c = Ok tt h' ∧
  context_switch mmu0 (set_reg A0 0 (set_reg A1 0x1000 h')) = Ok tt h3 ∧ h_reg h3 S3 = 7.
Proof.
  destruct (context_switch_resumes mmu0 hart_c 0x1000 0x2000 eq_refl eq_refl) as (h' & E & _ & _ & _ & Hc & H);
    [done|left; done|split; [done|split; [done|by intros]]|split; [done|split; [done|by intros]]|].
  destruct (H (set_reg A0 0 (set_reg A1 0x1000 h')) eq_refl) as (h3 & E3 & R3 & _); [exact (f_equal (λ f, f Satp) Hc)|done|by left|].
  exists h', h3. split; [exact E|]. split; [exact E3|]. rewrite R3; [done|]. by repeat constructor.
Defined.
