(* ===== verification/Elf.v ===== *)
(** Programs (kernel/task/elf.h, kernel/task/elf.c, [sys_exec] of
    kernel/syscall/systask.c, [first_sched] of kernel/task/sche.c, [init_proc1] of
    kernel/task/init.c, [fsinit] of kernel/fs/fs.c): an executable file is read into the
    memory of a task, and a task enters its program for the first time.

    A header is the bytes of its C structure.  A short read leaves the bytes behind it as
    they were, so the structures on the stack are arguments with arbitrary contents. *)
From S2P Require Import Prelude Bytes CString ListNode Machine Sched BlockIO Fs Inode Dir PageAlloc Vm Pipe Slot File Sysfs Tid TaskMem Task Riscv.

(** ** Headers *)

Definition ELF_MAGIC : Z := 0x464C457F.
Definition ELF_PROG_LOAD : Z := 1.
Definition ELF_PROG_FLAG_EXEC : Z := 1.
Definition ELF_PROG_FLAG_WRITE : Z := 2.
Definition ELF_PROG_FLAG_READ : Z := 4.
Definition ELF_RISCV : Z := 243.

(** [struct elfhdr]: its size and the fields the code reads. *)
Definition SZ_ELFHDR : nat := 64.
Definition e_magic (eh : list Z) : Z := get_at 4 0 eh.
Definition e_machine (eh : list Z) : Z := get_at 2 18 eh.
Definition e_entry (eh : list Z) : Z := get_at 8 24 eh.
Definition e_phoff (eh : list Z) : Z := get_at 8 32 eh.
Definition e_phnum (eh : list Z) : Z := get_at 2 56 eh.
(** [struct proghdr]. *)
Definition SZ_PROGHDR : nat := 56.
Definition p_type (pg : list Z) : Z := get_at 4 0 pg.
Definition p_flags (pg : list Z) : Z := get_at 4 4 pg.
Definition p_off (pg : list Z) : Z := get_at 8 8 pg.
Definition p_vaddr (pg : list Z) : Z := get_at 8 16 pg.
Definition p_filesz (pg : list Z) : Z := get_at 8 32 pg.
Definition p_memsz (pg : list Z) : Z := get_at 8 40 pg.
#[global] Arguments SZ_ELFHDR : simpl never.
#[global] Arguments SZ_PROGHDR : simpl never.

(** The tests of [read_elfhdr]. *)
Definition is_exec (eh : list Z) : bool :=
  if negb (e_magic eh =? ELF_MAGIC) then false
  else if e_entry eh =? 0 then false
  else if negb (e_machine eh =? ELF_RISCV) then false
  else true.
(** The segments that are loaded, and the rights of their pages. *)
Definition is_load (pg : list Z) : bool :=
  (p_type pg =? ELF_PROG_LOAD) && ((p_filesz pg >? 0) || (p_memsz pg >? 0)).
Definition seg_attr (flags : Z) : Z :=
  let attr := PTE_U in
  let attr := if negb (Z.land flags ELF_PROG_FLAG_READ =? 0) then Z.lor attr PTE_R else attr in
  let attr := if negb (Z.land flags ELF_PROG_FLAG_WRITE =? 0) then Z.lor attr PTE_W else attr in
  if negb (Z.land flags ELF_PROG_FLAG_EXEC =? 0) then Z.lor attr PTE_X else attr.
Definition seg_type (attr : Z) : vma_type := if negb (Z.land attr PTE_X =? 0) then TEXT else DATA.

Definition set_entry (v : Z) (p : proc) : proc :=
  MkProc (p_pid p) (p_tid p) (p_parent p) (p_exit p) (p_fs p) v (p_ctx p) (p_name p).

Section elf.
Context {S : Type} {IO : BlockIO S}.
Notation kern := (@kern S).
Notation KM := (@KM S).

(** ** kernel/task/elf.c *)

(** [rfs] is the root file system. *)
Section root.
Context (rfs : superblock).

(** [dentry_find(path)]; a relative path starts at the directory of the task. *)
Definition find_path (path : list Z) : KM (option nat) :=
  let! c := (if decide (path !! 0%nat = Some SLASH) then ret 0%nat
             else let! t := self_task in
                  let! o := fs_ptr t in
                  let! fs := fs_val o in
                  deref (λ _, fs_cwd fs)) in
  on_kst (on_ist (dentry_find rfs c path (replicate DLENGTH 0))).
(** The file, or [None] when the path is not an executable; and [*eh]. *)
Definition read_elfhdr (path eh : list Z) : KM (option optr * list Z) :=
  let! f := on_kst falloc in
  let! i := find_path path in
  let! v := on_kst (file_at f) in
  on_kst (put_file f (MkFile (f_mode v) (f_type v) (f_refc v) (f_off v) i)) ;;
  match i with
  | None => on_kst (fclose f) ;; ret (None, eh)
  | Some _ =>
    let! v := on_kst (file_at f) in
    on_kst (put_file f (MkFile (f_mode v) INODE (f_refc v) 0 (f_obj v))) ;;
    let! r := on_kst (fread f None (Z.of_nat SZ_ELFHDR)) in
    let eh := blit 0 r.2 eh in
    if is_exec eh then ret (Some f, eh) else on_kst (fclose f) ;; ret (None, eh)
  end.
End root.

(** A read into physical memory at [pa], which has to be inside one page. *)
Definition fread_page (f : optr) (pa bytes : Z) : KM unit :=
  let! r := on_kst (fread f None bytes) in
  on_tms (on_page (st_bytes pa r.2)).
(** One segment of [load_segment]. *)
Definition load_one (t : nat) (f : optr) (pg : list Z) : KM unit :=
  let! p := on_tms (on_page (let! p := alloc_page in nodes_op (list_pushback (TaskPages t) (PageNode p)) ;; ret p)) in
  let! roff := on_kst (fseek f (i32 (p_off pg)) SEEK_SET) in
  fread_page f (paddr_of p) (u32 (p_filesz pg)) ;;
  let! _ := on_kst (fseek f (i32 roff) SEEK_SET) in
  let attr := seg_attr (p_flags pg) in
  on_tms (task_vmmap t (p_vaddr pg) (paddr_of p) PGSIZE attr (seg_type attr)) ;;
  let! mm := on_tms (mm_of t) in
  on_tms (modify (set_mms (store_obj mm0 mm (MkMm (u64 (p_vaddr pg + PGSIZE)))))).
(** The loop, [n] headers left. *)
Fixpoint load_loop (n : nat) (t : nat) (f : optr) (pg : list Z) : KM unit :=
  match n with
  | O => ret tt
  | Datatypes.S n =>
    let! r := on_kst (fread f None (Z.of_nat SZ_PROGHDR)) in
    let pg := blit 0 r.2 pg in
    when (is_load pg) (load_one t f pg) ;;
    load_loop n t f pg
  end.
(** [pg0] is what the stack holds where [pg] is. *)
Definition load_segment (pg0 : list Z) (t : nat) (f : optr) (eh : list Z) : KM unit :=
  let! _ := on_kst (fseek f (i32 (e_phoff eh)) SEEK_SET) in
  load_loop (Z.to_nat (e_phnum eh)) t f pg0.

(** ** [sys_exec] *)

(** [path + off] behind the last slash, from [off] down. *)
Fixpoint base_off (path : list Z) (off : nat) : nat :=
  match off with
  | O => O
  | Datatypes.S n => if bool_decide (path !! n = Some SLASH) then off else base_off path n
  end.
(** The string at [off]. *)
Definition str_at (off : nat) (m : list Z) : option (list Z) := n ← strlen off m; Some (take n (drop off m)).
(** [strcpy(t->tname, w)]. *)
Definition set_tname (t : nat) (w : list Z) : KM unit :=
  update (λ k, p ← k_procs k !! t;
    if decide (length w + 1 ≤ length (p_name p))%nat
    then Some (set_procs (insert t (set_pname (blit 0 (w ++ [0]) (p_name p)) p)) k) else None).
(** [char buf[MAX_PATH_LENGTH / 2] = { 0 }; argstr(a, buf)]: a string that does not fit
    is stored behind the end of [buf]. *)
Definition EXEC_BUF : nat := 64.
Definition user_str (a : Z) : KM (list Z) := λ k,
  match (let! t := self_task in
         let! tm := on_tms (task_mem t) in
         on_tms (on_page (argstr (λ s, Switch s) (t_pagetable tm) a))) k with
  | Switch k => (kill ;; (λ k, Switch k)) k
  | r => (let! buf := (λ _, r) in
          match buf with
          | None => ret (replicate EXEC_BUF 0)
          | Some buf =>
            let! w := deref (λ _, str_at 0 buf) in
            if decide (length w ≤ EXEC_BUF)%nat then ret (blit 0 w (replicate EXEC_BUF 0)) else fault
          end) k
  end.
(** The argument string, put on the user stack. *)
Definition exec_option (t : nat) (a1 : Z) : KM unit :=
  let! buf := user_str a1 in
  let! w := deref (λ _, str_at 0 buf) in
  let opsize := Z.of_nat (length w) + 1 in
  on_tms (set_task_mem t (λ x, MkTmem (t_mm x) (t_pagetable x) (u64 (t_ustack x - align_up opsize 16)) (t_kstack x))) ;;
  let! tm := on_tms (task_mem t) in
  let! r := on_tms (on_page (va_to_pa (t_pagetable tm) (t_ustack tm))) in
  on_tms (on_page (st_bytes r.1 (take (Z.to_nat opsize) buf))).

Section exec.
(** The root file system, the address of [first_sched], and the contents of the stack
    where [eh] and [pg] are. *)
Context (rfs : superblock) (first_sched_addr : Z) (eh0 pg0 : list Z).

(** [sys_exec] from [reset_vma] on: the new program replaces the old one. *)
Definition exec_image (t : nat) (f : optr) (eh : list Z) : KM Z :=
  on_tms (reset_vma t) ;;
  load_segment pg0 t f eh ;;
  on_kst (fclose f) ;;
  mod_proc t (set_entry (e_entry eh)) ;;
  mod_proc t (λ p, set_ctx (<[0%nat := first_sched_addr]> (p_ctx p)) p) ;;
  let! tm := on_tms (task_mem t) in
  mod_proc t (λ p, set_ctx (<[1%nat := t_kstack tm]> (p_ctx p)) p) ;;
  on_km (spin_get (L_task t)) ;;
  put_state t READY ;;
  (λ k, Switch k).
Definition sys_exec (a0 a1 : Z) : KM Z :=
  if a0 =? 0 then ret (-1) else
  let! path := user_str a0 in
  let! r := read_elfhdr rfs path eh0 in
  match r with
  | (None, _) => ret (-1)
  | (Some f, eh) =>
    let! t := self_task in
    let! off := deref (λ _, strlen 0 path) in
    let! w := deref (λ _, str_at (base_off path off) path) in
    set_tname t w ;;
    (if a1 =? 0 then ret tt else exec_option t a1) ;;
    exec_image t f eh
  end.
End exec.

(** ** The first task and the first run of a task *)

Definition NAME_init : list Z := [105; 110; 105; 116].
Section first.
Context (trampoline kernel_satp first_sched_addr utrap_entry run_new_task_addr : Z) (eh0 pg0 : list Z).

Definition init_proc1 : KM unit :=
  let! t := alloc_task trampoline kernel_satp None in
  set_tname t NAME_init ;;
  mod_proc t (λ p, set_ctx (<[0%nat := first_sched_addr]> (p_ctx p)) p) ;;
  let! tm := on_tms (task_mem t) in
  mod_proc t (λ p, set_ctx (<[1%nat := t_kstack tm]> (p_ctx p)) p) ;;
  put_state t READY.

(** [fsinit]: the superblock it stores in [rfs] is the result. *)
Definition fsinit : KM superblock :=
  let! sb := on_kst (on_ist (lift (read_superblock ROOTDEV))) in
  let! i := on_kst (on_ist (iget sb ROOTINUM)) in
  let! t := self_task in
  let! o := fs_ptr t in
  let! fs := fs_val o in
  fs_put o (set_cwd i fs) ;;
  ret sb.
(** "/bin/init". *)
Definition PATH_init : list Z := [47; 98; 105; 110; 47; 105; 110; 105; 116; 0].
(** The body of [if (first)] in [first_sched]. *)
Definition load_init (t : nat) : KM unit :=
  let! sb := fsinit in
  let! r := read_elfhdr sb PATH_init eh0 in
  match r with
  | (Some f, eh) =>
    load_segment pg0 t f eh ;;
    mod_proc t (set_entry (e_entry eh)) ;;
    on_kst (fclose f)
  | (None, _) => ret tt
  end.

(** The kernel, the hart and the static variable [first]. *)
Definition FM : Type → Type := M (kern * (hart * bool)).
Definition on_kern {A} (m : KM A) : FM A := zoom fst (λ k s, (k, s.2)) m.
Definition on_h {A} (m : HM A) : FM A := zoom (λ s, s.2.1) (λ h s, (s.1, (h, s.2.2))) m.
(** The visit of task [i] by [task_schedule] up to [context_switch], with the stores to
    [cur_kstack] and [cur_satp] of [struct cpu], which [tp] points to. *)
Definition set_cpu_word (off v : Z) : HM unit := modify (λ h, set_word (u64 (h_reg h Tp + off)) v h).
Definition dispatch (i : nat) : FM bool :=
  let! sw := on_kern (on_km (sched_visit i)) in
  if (sw : bool) then
    let! tm := on_kern (on_tms (task_mem i)) in
    on_h (set_cpu_word CPU_KSTACK (t_kstack tm)) ;;
    on_h (set_cpu_word CPU_SATP (Z.lor SATP_MODE (Z.shiftr (t_pagetable tm) 12))) ;;
    ret true
  else ret false.
(** The registers of a call with three arguments. *)
Definition call3 (x y z : Z) : HM unit := modify (λ h, set_reg A2 z (set_reg A1 y (set_reg A0 x h))).
(** The last part of [first_sched]: into user mode through [run_new_task] in the
    trampoline page. *)
Definition enter_user (mmu : Z → Z → option Z) (entry ustack : Z) : HM unit :=
  cli ;;
  w_stvec (u64 (utrap_entry - trampoline + TRAMPOLINE)) ;;
  (let! x := r_sstatus in w_sstatus (Z.lor (Z.land x (u64 (Z.lnot SSTATUS_SPP))) SSTATUS_SPIE)) ;;
  w_sepc entry ;;
  let! satp := gets (λ h, h_mem h (u64 (h_reg h Tp + CPU_SATP))) in
  call3 satp ustack (if ustack =? USTACK + PGSIZE then 0 else ustack) ;;
  modify (set_pc (u64 (run_new_task_addr - trampoline + TRAMPOLINE))) ;;
  run_new_task mmu.
Definition first_sched (mmu : Z → Z → option Z) : FM unit :=
  let! t := on_kern self_task in
  on_kern (on_km (spin_put (L_task t))) ;;
  let! first := gets (λ s, s.2.2) in
  (if (first : bool) then
     modify (λ s, (s.1, (s.2.1, false))) ;;
     on_kern (load_init t)
   else ret tt) ;;
  let! p := on_kern (proc_at t) in
  let! tm := on_kern (on_tms (task_mem t)) in
  on_h (enter_user mmu (p_entry p) (t_ustack tm)).
End first.
End elf.
