(* ===== verification/DevInit.v ===== *)
(** Setting up the devices: [virtio_disk_init] of kernel/dev/disk.c, [init_uart] and
    [uart_get] of kernel/dev/uart.c, [init_console] of kernel/dev/console.c.

    The registers of a device are a parameter: [resp] gives the value a register shows
    after the writes made so far.  The state holds these writes, in order. *)
From S2P Require Import Prelude Bytes Machine BlockIO PageAlloc Vm Virtio File Sysfs Boot UserCopy.

(** ** The disk *)

Definition VIRTIO_MMIO_MAGIC_VALUE : Z := 0x000.
Definition VIRTIO_MMIO_VERSION : Z := 0x004.
Definition VIRTIO_MMIO_DEVICE_ID : Z := 0x008.
Definition VIRTIO_MMIO_VENDOR_ID : Z := 0x00c.
Definition VIRTIO_MMIO_DEVICE_FEATURES : Z := 0x010.
Definition VIRTIO_MMIO_DRIVER_FEATURES : Z := 0x020.
Definition VIRTIO_MMIO_QUEUE_SEL : Z := 0x030.
Definition VIRTIO_MMIO_QUEUE_NUM_MAX : Z := 0x034.
Definition VIRTIO_MMIO_QUEUE_NUM : Z := 0x038.
Definition VIRTIO_MMIO_QUEUE_READY : Z := 0x044.
Definition VIRTIO_MMIO_STATUS : Z := 0x070.
Definition VIRTIO_MMIO_QUEUE_DESC_LOW : Z := 0x080.
Definition VIRTIO_MMIO_QUEUE_DESC_HIGH : Z := 0x084.
Definition VIRTIO_MMIO_DRIVER_DESC_LOW : Z := 0x090.
Definition VIRTIO_MMIO_DRIVER_DESC_HIGH : Z := 0x094.
Definition VIRTIO_MMIO_DEVICE_DESC_LOW : Z := 0x0a0.
Definition VIRTIO_MMIO_DEVICE_DESC_HIGH : Z := 0x0a4.
Definition VIRTIO_CONFIG_S_ACKNOWLEDGE : Z := 1.
Definition VIRTIO_CONFIG_S_DRIVER : Z := 2.
Definition VIRTIO_CONFIG_S_DRIVER_OK : Z := 4.
Definition VIRTIO_CONFIG_S_FEATURES_OK : Z := 8.
Definition VIRTIO_BLK_F_RO : Z := 5.
Definition VIRTIO_BLK_F_SCSI : Z := 7.
Definition VIRTIO_BLK_F_CONFIG_WCE : Z := 11.
Definition VIRTIO_BLK_F_MQ : Z := 12.
Definition VIRTIO_F_ANY_LAYOUT : Z := 27.
Definition VIRTIO_RING_F_INDIRECT_DESC : Z := 28.
Definition VIRTIO_RING_F_EVENT_IDX : Z := 29.

Definition writes : Type := list (Z * Z).
(** [disk.desc], [disk.avail] and [disk.used] point to pages whose contents are in
    [vdisk]. *)
Record dst := MkDst { ds_log : writes; ds_pm : mach * pmem; ds_desc : Z; ds_avail : Z; ds_used : Z; ds_disk : vdisk }.
Definition DM : Type → Type := M dst.
Definition zero_desc (v : vdisk) : vdisk :=
  MkVdisk (replicate NUM desc0) (v_avail v) (v_used v) (v_free v) (v_used_idx v) (v_info v) (v_ops v) (v_mmio v).
Definition zero_ring : virtq := MkRing 0 (replicate NUM 0%nat).

Section disk.
Context (resp : writes → Z → Z).

(** [*R(r)], read and written. *)
Definition rreg (r : Z) : DM Z := gets (λ s, resp (ds_log s) r).
Definition wreg (r v : Z) : DM unit :=
  modify (λ s, MkDst (ds_log s ++ [(r, u32 v)]) (ds_pm s) (ds_desc s) (ds_avail s) (ds_used s) (ds_disk s)).
Definition on_dpage {A} (m : PM A) : DM A :=
  zoom ds_pm (λ x s, MkDst (ds_log s) x (ds_desc s) (ds_avail s) (ds_used s) (ds_disk s)) m.
Definition set_ptrs (d a u : Z) (s : dst) : dst := MkDst (ds_log s) (ds_pm s) d a u (ds_disk s).
Definition on_disk (f : vdisk → vdisk) : DM unit :=
  modify (λ s, MkDst (ds_log s) (ds_pm s) (ds_desc s) (ds_avail s) (ds_used s) (f (ds_disk s))).
(** [features &= ~(1 << n)] with an [int] that is extended to 64 bits. *)
Definition drop_feature (n features : Z) : Z := Z.land features (u64 (Z.lnot (Z.shiftl 1 n))).
Definition drop_features (features : Z) : Z :=
  drop_feature VIRTIO_RING_F_INDIRECT_DESC (drop_feature VIRTIO_RING_F_EVENT_IDX (drop_feature VIRTIO_F_ANY_LAYOUT
    (drop_feature VIRTIO_BLK_F_MQ (drop_feature VIRTIO_BLK_F_CONFIG_WCE (drop_feature VIRTIO_BLK_F_SCSI (drop_feature VIRTIO_BLK_F_RO features)))))).
(** The test of the four registers, which C evaluates in order. *)
Definition not_a_disk : DM bool :=
  let! magic := rreg VIRTIO_MMIO_MAGIC_VALUE in
  let! version := rreg VIRTIO_MMIO_VERSION in
  let! id := rreg VIRTIO_MMIO_DEVICE_ID in
  let! vendor := rreg VIRTIO_MMIO_VENDOR_ID in
  ret (negb (magic =? 0x74726976) || negb (version =? 2) || negb (id =? 2) || negb (vendor =? 0x554d4551)).
(** [disk.desc], [disk.avail] and [disk.used]: three zeroed pages. *)
Definition alloc_queue : DM unit :=
  let! d := on_dpage alloc_page in
  modify (λ s, set_ptrs (paddr_of d) (ds_avail s) (ds_used s) s) ;;
  let! a := on_dpage alloc_page in
  modify (λ s, set_ptrs (ds_desc s) (paddr_of a) (ds_used s) s) ;;
  let! u := on_dpage alloc_page in
  modify (λ s, set_ptrs (ds_desc s) (ds_avail s) (paddr_of u) s) ;;
  let! s := gets id in
  if (ds_desc s =? 0) || (ds_avail s =? 0) || (ds_used s =? 0) then panic "virtio_disk_init: virtio disk alloc_page" else
  on_dpage (st_bytes (ds_desc s) zero_page) ;;
  on_disk zero_desc ;;
  on_dpage (st_bytes (ds_avail s) zero_page) ;;
  on_disk (set_avail zero_ring) ;;
  on_dpage (st_bytes (ds_used s) zero_page) ;;
  on_disk (set_used zero_ring).
(** [*R(low) = p; *R(high) = p >> 32;] *)
Definition put_addr (low high p : Z) : DM unit :=
  wreg low p ;;
  wreg high (Z.shiftr p 32).
(** [for (int i = NUM - n; i < NUM; i++) disk.free[i] = 1;] *)
Fixpoint free_all (n : nat) : DM unit :=
  match n with
  | O => ret tt
  | S n' => on_disk (set_free (NUM - n) true) ;; free_all n'
  end.
Definition virtio_disk_init : DM unit :=
  let! bad := not_a_disk in
  if (bad : bool) then panic "virtio_disk_init: could not find virtio disk" else
  let status := 0 in
  wreg VIRTIO_MMIO_STATUS status ;;
  let status := Z.lor status VIRTIO_CONFIG_S_ACKNOWLEDGE in
  wreg VIRTIO_MMIO_STATUS status ;;
  let status := Z.lor status VIRTIO_CONFIG_S_DRIVER in
  wreg VIRTIO_MMIO_STATUS status ;;
  let! features := rreg VIRTIO_MMIO_DEVICE_FEATURES in
  wreg VIRTIO_MMIO_DRIVER_FEATURES (drop_features features) ;;
  let status := Z.lor status VIRTIO_CONFIG_S_FEATURES_OK in
  wreg VIRTIO_MMIO_STATUS status ;;
  let! status := rreg VIRTIO_MMIO_STATUS in
  if Z.land status VIRTIO_CONFIG_S_FEATURES_OK =? 0 then panic "virtio_disk_init: virtio disk FEATURES_OK unset" else
  wreg VIRTIO_MMIO_QUEUE_SEL 0 ;;
  let! ready := rreg VIRTIO_MMIO_QUEUE_READY in
  if negb (ready =? 0) then panic "virtio_disk_init: virtio disk should not be ready" else
  let! max := rreg VIRTIO_MMIO_QUEUE_NUM_MAX in
  if max =? 0 then panic "virtio_disk_init: virtio disk has no queue 0" else
  if max <? Z.of_nat NUM then panic "virtio_disk_init: virtio disk max queue too short" else
  alloc_queue ;;
  wreg VIRTIO_MMIO_QUEUE_NUM (Z.of_nat NUM) ;;
  let! s := gets id in
  put_addr VIRTIO_MMIO_QUEUE_DESC_LOW VIRTIO_MMIO_QUEUE_DESC_HIGH (ds_desc s) ;;
  put_addr VIRTIO_MMIO_DRIVER_DESC_LOW VIRTIO_MMIO_DRIVER_DESC_HIGH (ds_avail s) ;;
  put_addr VIRTIO_MMIO_DEVICE_DESC_LOW VIRTIO_MMIO_DEVICE_DESC_HIGH (ds_used s) ;;
  wreg VIRTIO_MMIO_QUEUE_READY 1 ;;
  free_all NUM ;;
  wreg VIRTIO_MMIO_STATUS (Z.lor status VIRTIO_CONFIG_S_DRIVER_OK).
End disk.

(** ** The terminal *)

Definition RHR : Z := 0.
Definition IER : Z := 1.
Definition FCR : Z := 2.
Definition LCR : Z := 3.
Definition LSR : Z := 5.
Definition LSB : Z := 0.
Definition MSB : Z := 1.
Definition LSR_R : Z := Z.shiftl 1 0.
(** The registers of the UART, whose device may change when one is read. *)
Section uart.
Context {D : Type} (dev_rd : Z → D → Z * D) (dev_wr : Z → Z → D → D).
Definition r_reg (r : Z) : M D Z := λ d, Ok (u8 (dev_rd r d).1) (dev_rd r d).2.
Definition w_reg (r v : Z) : M D unit := modify (dev_wr r (u8 v)).
Definition init_uart : M D unit :=
  w_reg IER 0x00 ;;
  w_reg LCR 0x80 ;;
  w_reg LSB 0x03 ;;
  w_reg MSB 0x00 ;;
  w_reg LCR 0x03 ;;
  w_reg FCR 0x07 ;;
  w_reg IER 0x02.
(** -1 as a [char]. *)
Definition uart_get : M D Z :=
  let! v := r_reg LSR in
  if negb (Z.land v LSR_R =? 0) then r_reg RHR else ret (u8 (-1)).
(** [devsw], the table of devices, is next to the UART in the state. *)
Definition NDEV : nat := 3.
Definition CONSOLE : nat := 1.
Definition init_console {S} {IO : BlockIO S} {U} (console_read console_write : Z → Z → M (@kst S U) Z) : M (D * list (@dev_op S U)) unit :=
  zoom fst (λ d s, (d, s.2)) init_uart ;;
  update (λ s, if decide (CONSOLE < length s.2)%nat then Some (s.1, <[CONSOLE := MkDev console_read console_write true]> s.2) else None).
End uart.

(** What the UART is told: interrupts off, the divisor 3 behind the latch bit, 8 bits,
    the queues cleared, and at the end only the interrupt for the transmitter. *)
Lemma init_uart_log d : init_uart (λ r v d, d ++ [(r, v)]) d =
  Ok tt (d ++ [(IER, 0); (LCR, 0x80); (LSB, 3); (MSB, 0); (LCR, 3); (FCR, 7); (IER, 2)]).
Proof. unfold init_uart, w_reg, modify, bind. by rewrite <- !app_assoc. Qed.
(** [init_console] returns with the console, and only the console, in the table. *)
Lemma init_console_ok {S} {IO : BlockIO S} {U} {D} wr (cr cw : Z → Z → M (@kst S U) Z) (d : D) devsw : length devsw = NDEV →
  ∃ d', init_console wr cr cw (d, devsw) = Ok tt (d', <[CONSOLE := MkDev cr cw true]> devsw) ∧ init_uart wr d = Ok tt d'.
Proof.
  intros Hl. eexists. split; [|done]. unfold init_console. unfold bind at 1, zoom, init_uart, w_reg, modify, bind. cbn [fst snd].
  unfold update. cbn [fst snd]. by rewrite decide_True by (rewrite Hl; unfold CONSOLE, NDEV; lia).
Qed.

(** ** What the set-up of the disk does *)

(** The value last written to a register. *)
Definition last_wr (r : Z) (l : writes) : Z := foldl (λ v w, if w.1 =? r then w.2 else v) 0 l.
(** A block device with a queue that is long enough, as the virtio specification
    describes it: it accepts the features the driver selects, and a register that was
    written shows the value. *)
Record disk_device (resp : writes → Z → Z) : Prop := {
  dd_magic l : resp l VIRTIO_MMIO_MAGIC_VALUE = 0x74726976;
  dd_version l : resp l VIRTIO_MMIO_VERSION = 2;
  dd_id l : resp l VIRTIO_MMIO_DEVICE_ID = 2;
  dd_vendor l : resp l VIRTIO_MMIO_VENDOR_ID = 0x554d4551;
  dd_status l : resp l VIRTIO_MMIO_STATUS = last_wr VIRTIO_MMIO_STATUS l;
  dd_ready l : resp l VIRTIO_MMIO_QUEUE_READY = last_wr VIRTIO_MMIO_QUEUE_READY l;
  dd_max l : Z.of_nat NUM ≤ resp l VIRTIO_MMIO_QUEUE_NUM_MAX;
}.
(** The features the driver does without. *)
Definition dropped_features : list Z :=
  [VIRTIO_BLK_F_RO; VIRTIO_BLK_F_SCSI; VIRTIO_BLK_F_CONFIG_WCE; VIRTIO_BLK_F_MQ; VIRTIO_F_ANY_LAYOUT; VIRTIO_RING_F_EVENT_IDX; VIRTIO_RING_F_INDIRECT_DESC].
Lemma drop_feature_bit n x k : 0 ≤ n < 32 → 0 ≤ k < 64 → Z.testbit (drop_feature n x) k = Z.testbit x k && negb (bool_decide (k = n)).
Proof.
  intros Hn Hk. unfold drop_feature, u64. rewrite Z.land_spec, Z.mod_pow2_bits_low, Z.lnot_spec by lia. f_equal. rewrite Z.shiftl_1_l, Z.pow2_bits_eqb by lia.
  case_bool_decide; destruct (Z.eqb_spec n k); done || lia.
Qed.
Lemma drop_features_bit x k : 0 ≤ k < 32 → Z.testbit (u32 (drop_features x)) k = Z.testbit x k && negb (bool_decide (k ∈ dropped_features)).
Proof.
  intros Hk. unfold u32. rewrite Z.mod_pow2_bits_low by lia. unfold drop_features.
  rewrite !drop_feature_bit by (unfold VIRTIO_BLK_F_RO, VIRTIO_BLK_F_SCSI, VIRTIO_BLK_F_CONFIG_WCE, VIRTIO_BLK_F_MQ, VIRTIO_F_ANY_LAYOUT, VIRTIO_RING_F_EVENT_IDX, VIRTIO_RING_F_INDIRECT_DESC; lia).
  rewrite <- !andb_assoc. f_equal. unfold dropped_features. repeat case_bool_decide; try done; exfalso; set_solver.
Qed.

Section disk_spec.
Context (resp : writes → Z → Z).
Lemma on_dpage_ok {A} (m : PM A) s a x : m (ds_pm s) = Ok a x → on_dpage m s = Ok a (MkDst (ds_log s) x (ds_desc s) (ds_avail s) (ds_used s) (ds_disk s)).
Proof. intros E. unfold on_dpage, zoom. by rewrite E. Qed.
Lemma zero_again i m fl tl p : (i < NPAGE)%nat → pages_inv fl tl p → page_data p i = zero_page →
  ∃ p', st_bytes (paddr_of i) zero_page (m, p) = Ok tt (m, p') ∧ pages_inv fl tl p' ∧
    pg_inuse p' = pg_inuse p ∧ ∀ j, page_data p' j = page_data p j.
Proof.
  intros Hi I Hz. exists (put_page i zero_page p). split_and!; [|by apply pages_inv_put; [|apply zero_page_ok..]|done|].
  - unfold st_bytes, update. destruct (ram_page_paddr i 0 Hi ltac:(lia)) as [R1 R2]. rewrite Z.add_0_r in R1, R2. rewrite R1, R2.
    cbn [mbind option_bind fst snd]. pose proof (proj1 zero_page_ok) as Hl. change (Z.to_nat 0) with 0%nat.
    rewrite decide_True by (rewrite Hl; lia). do 3 f_equal.
    rewrite Hz. unfold blit. rewrite drop_ge, app_nil_r by lia. done.
  - intros j. rewrite page_data_put. case_decide; congruence.
Qed.
Lemma free_all_spec n s : (n ≤ NUM)%nat → length (v_free (ds_disk s)) = NUM →
  ∃ f, free_all n s = Ok tt (MkDst (ds_log s) (ds_pm s) (ds_desc s) (ds_avail s) (ds_used s)
      (let v := ds_disk s in MkVdisk (v_desc v) (v_avail v) (v_used v) f (v_used_idx v) (v_info v) (v_ops v) (v_mmio v))) ∧
    length f = NUM ∧ ∀ i, f !! i = if decide (NUM - n ≤ i < NUM)%nat then Some true else v_free (ds_disk s) !! i.
Proof.
  revert s. induction n as [|n IH]; intros s Hn Hl.
  { exists (v_free (ds_disk s)). split; [destruct s as [? ? ? ? ? []]; done|]. split; [done|]. intros i. by rewrite decide_False by lia. }
  set (s1 := MkDst (ds_log s) (ds_pm s) (ds_desc s) (ds_avail s) (ds_used s) (set_free (NUM - S n) true (ds_disk s))).
  destruct (IH s1) as (f & E & Hf & Hi); [lia|cbn; by rewrite length_insert|]. exists f. split; [exact E|]. split; [done|].
  intros i. rewrite Hi. cbn [s1 ds_disk set_free v_free]. destruct (decide (i = NUM - S n)%nat) as [->|Hne].
  - rewrite decide_False by lia. rewrite decide_True by lia. apply list_lookup_insert_eq. lia.
  - rewrite list_lookup_insert_ne by done. repeat case_decide; done || lia.
Qed.
Lemma on_dpage_st {A} (m : PM A) l x d a u v r x' : m x = Ok r x' → on_dpage m (MkDst l x d a u v) = Ok r (MkDst l x' d a u v).
Proof. intros E. by apply (on_dpage_ok m (MkDst l x d a u v)). Qed.
Lemma paddr_pos i : 0 < paddr_of i.
Proof. unfold paddr_of, PHY_MEMORY, PGSIZE. lia. Qed.
(** The three pages of the queue are distinct pages that were free; they are zeroed, and
    every other page keeps its contents. *)
Record queue_pages (i j k : nat) (p p' : pmem) : Prop := {
  qp_distinct : NoDup [i; j; k];
  qp_free : ∀ x, x ∈ [i; j; k] → (x < NPAGE)%nat ∧ x ∉ pg_inuse p;
  qp_used : pg_inuse p' = {[ k ]} ∪ ({[ j ]} ∪ ({[ i ]} ∪ pg_inuse p));
  qp_zero : ∀ x, x ∈ [i; j; k] → page_data p' x = zero_page;
  qp_rest : ∀ x, x ∉ [i; j; k] → page_data p' x = page_data p x;
}.
Lemma alloc_queue_spec i j k fl tl m p l d a u v : pages_inv (i :: j :: k :: fl) tl p → mem_free m →
  ∃ p', alloc_queue (MkDst l (m, p) d a u v) =
      Ok tt (MkDst l (touch m, p') (paddr_of i) (paddr_of j) (paddr_of k) (set_used zero_ring (set_avail zero_ring (zero_desc v)))) ∧
    pages_inv fl tl p' ∧ queue_pages i j k p p'.
Proof.
  intros I Hq. assert (Hq' : mem_free (touch m)) by (destruct Hq; split; [by apply touch_wf|by apply lock_free_touch]).
  destruct (alloc_page_spec i _ tl m p I Hq) as (p1 & E1 & I1 & Hi & Ni & U1 & Z1 & O1 & _).
  destruct (alloc_page_spec j _ tl (touch m) p1 I1 Hq') as (p2 & E2 & I2 & Hj & Nj & U2 & Z2 & O2 & _).
  destruct (alloc_page_spec k _ tl (touch m) p2 I2 Hq') as (p3 & E3 & I3 & Hk & Nk & U3 & Z3 & O3 & _).
  rewrite !touch_touch in *. rewrite U2, U1 in *.
  assert (i ≠ j) by set_solver. assert (i ≠ k) by set_solver. assert (j ≠ k) by set_solver.
  destruct (zero_again i (touch m) _ _ p3 Hi I3) as (p4 & E4 & I4 & U4 & O4); [by rewrite O3, O2 by done|].
  destruct (zero_again j (touch m) _ _ p4 Hj I4) as (p5 & E5 & I5 & U5 & O5); [by rewrite O4, O3 by done|].
  destruct (zero_again k (touch m) _ _ p5 Hk I5) as (p6 & E6 & I6 & U6 & O6); [by rewrite O5, O4|].
  exists p6. split; [|split; [done|]].
  - unfold alloc_queue. run (on_dpage_st _ l _ d a u v _ _ E1). mstep. cbn.
    run (on_dpage_st _ l _ (paddr_of i) a u v _ _ E2). mstep. cbn.
    run (on_dpage_st _ l _ (paddr_of i) (paddr_of j) u v _ _ E3). mstep. cbn.
    pose proof (paddr_pos i). pose proof (paddr_pos j). pose proof (paddr_pos k).
    rewrite !(proj2 (Z.eqb_neq _ _)) by lia. cbn [orb].
    run (on_dpage_st _ l _ (paddr_of i) (paddr_of j) (paddr_of k) v _ _ E4). mstep. cbn.
    run (on_dpage_st _ l _ (paddr_of i) (paddr_of j) (paddr_of k) (zero_desc v) _ _ E5). mstep. cbn.
    run (on_dpage_st _ l _ (paddr_of i) (paddr_of j) (paddr_of k) (set_avail zero_ring (zero_desc v)) _ _ E6). done.
  - split; [|set_solver|congruence| |].
    + repeat constructor; set_solver.
    + intros x. rewrite !elem_of_cons, elem_of_nil. rewrite O6, O5, O4. intros [->|[->|[->|[]]]]; by rewrite ?O3, ?O2 by done.
    + intros x Hx. rewrite O6, O5, O4, O3, O2, O1; [done|set_solver..].
Qed.
(** The writes of a set-up that ends, in the order in which they are made. *)
Definition hello : writes := [(VIRTIO_MMIO_STATUS, 0); (VIRTIO_MMIO_STATUS, 1); (VIRTIO_MMIO_STATUS, 3)].
Definition init_log (i j k : nat) : writes :=
  hello ++ [(VIRTIO_MMIO_DRIVER_FEATURES, u32 (drop_features (resp hello VIRTIO_MMIO_DEVICE_FEATURES))); (VIRTIO_MMIO_STATUS, 11);
    (VIRTIO_MMIO_QUEUE_SEL, 0); (VIRTIO_MMIO_QUEUE_NUM, 8);
    (VIRTIO_MMIO_QUEUE_DESC_LOW, u32 (paddr_of i)); (VIRTIO_MMIO_QUEUE_DESC_HIGH, u32 (Z.shiftr (paddr_of i) 32));
    (VIRTIO_MMIO_DRIVER_DESC_LOW, u32 (paddr_of j)); (VIRTIO_MMIO_DRIVER_DESC_HIGH, u32 (Z.shiftr (paddr_of j) 32));
    (VIRTIO_MMIO_DEVICE_DESC_LOW, u32 (paddr_of k)); (VIRTIO_MMIO_DEVICE_DESC_HIGH, u32 (Z.shiftr (paddr_of k) 32));
    (VIRTIO_MMIO_QUEUE_READY, 1); (VIRTIO_MMIO_STATUS, 15)].
(** [disk] before the set-up: static memory is zero. *)
Definition vdisk_static : vdisk := MkVdisk [] zero_ring zero_ring (replicate NUM false) 0 (replicate NUM (None, 0)) (replicate NUM (MkOp 0 0 0)) (MkMmio false 0).
Definition dst0 (x : mach * pmem) : dst := MkDst [] x 0 0 0 vdisk_static.
Lemma found_disk l x d a u v : disk_device resp → not_a_disk resp (MkDst l x d a u v) = Ok false (MkDst l x d a u v).
Proof.
  intros []. unfold not_a_disk, rreg. unfold bind, gets, ret. cbn. by rewrite dd_magic0, dd_version0, dd_id0, dd_vendor0.
Qed.
(** C24: with a block device, [virtio_disk_init] ends in the state the driver starts from.
    The three parts of the queue lie in three zeroed pages that were free, whose addresses
    the device got before the queue was declared ready; every descriptor is free; of the
    features the device offers the driver takes all but those it cannot use; the driver
    declares itself ready last. *)
Theorem virtio_init_ready i j k fl tl m p : disk_device resp → pages_inv (i :: j :: k :: fl) tl p → mem_free m →
  ∃ p', virtio_disk_init resp (dst0 (m, p)) =
      Ok tt (MkDst (init_log i j k) (touch m, p') (paddr_of i) (paddr_of j) (paddr_of k) vdisk0) ∧
    pages_inv fl tl p' ∧ queue_pages i j k p p' ∧
    ∀ n, 0 ≤ n < 32 → Z.testbit (last_wr VIRTIO_MMIO_DRIVER_FEATURES (init_log i j k)) n =
      Z.testbit (resp hello VIRTIO_MMIO_DEVICE_FEATURES) n && negb (bool_decide (n ∈ dropped_features)).
Proof.
  intros D I Hq. destruct (alloc_queue_spec i j k fl tl m p (take 6 (init_log i j k)) 0 0 0 vdisk_static I Hq) as (p' & E & I' & R).
  exists p'. split; [|split; [exact I'|split; [exact R|intros n; apply drop_features_bit]]]. unfold virtio_disk_init, dst0. run (found_disk [] (m, p) 0 0 0 vdisk_static D). cbn iota.
  pose proof (dd_max _ D (take 6 (init_log i j k))) as Hm. pose proof (dd_ready _ D (take 6 (init_log i j k))) as Hr.
  pose proof (dd_status _ D (take 5 (init_log i j k))) as Hs. change (last_wr _ (take 5 _)) with 11 in Hs. change (last_wr _ (take 6 _)) with 0 in Hr.
  mstep. cbn. match goal with |- context [resp ?l VIRTIO_MMIO_STATUS] => change l with (take 5 (init_log i j k)) end.
  rewrite Hs. change (Z.land 11 _ =? 0) with false. cbn iota.
  mstep. cbn. match goal with |- context [resp ?l VIRTIO_MMIO_QUEUE_READY] => change l with (take 6 (init_log i j k)) end.
  rewrite Hr. cbn [negb Z.eqb]. unfold rreg. mstep. cbn [ds_log]. unfold NUM in Hm.
  rewrite (proj2 (Z.eqb_neq _ _)), (proj2 (Z.ltb_ge _ _)) by (unfold NUM; lia).
  run E. unfold put_addr. mstep. reflexivity.
Qed.
(** A device that is not a block device of this kind stops the kernel, and none of its
    registers is written. *)
Theorem virtio_init_refuses x :
  resp [] VIRTIO_MMIO_MAGIC_VALUE ≠ 0x74726976 ∨ resp [] VIRTIO_MMIO_VERSION ≠ 2 ∨
  resp [] VIRTIO_MMIO_DEVICE_ID ≠ 2 ∨ resp [] VIRTIO_MMIO_VENDOR_ID ≠ 0x554d4551 →
  virtio_disk_init resp (dst0 x) = Panic "virtio_disk_init: could not find virtio disk" (dst0 x).
Proof.
  intros H. assert (E : not_a_disk resp (dst0 x) = Ok true (dst0 x)); [|unfold virtio_disk_init; by run E].
  unfold not_a_disk, rreg, bind, gets, ret. cbn [ds_log dst0]. f_equal.
  destruct H as [H|[H|[H|H]]]; apply Z.eqb_neq in H; rewrite H; cbn [negb]; by rewrite ?orb_true_r.
Qed.
End disk_spec.

(** ** A device *)

(** A block device that offers every feature and a queue of 1024 entries. *)
Definition disk_model (l : writes) (r : Z) : Z :=
  if r =? VIRTIO_MMIO_MAGIC_VALUE then 0x74726976 else
  if r =? VIRTIO_MMIO_VERSION then 2 else
  if r =? VIRTIO_MMIO_DEVICE_ID then 2 else
  if r =? VIRTIO_MMIO_VENDOR_ID then 0x554d4551 else
  if r =? VIRTIO_MMIO_DEVICE_FEATURES then 2 ^ 32 - 1 else
  if r =? VIRTIO_MMIO_QUEUE_NUM_MAX then 1024 else last_wr r l.
Lemma disk_model_ok : disk_device disk_model.
Proof. split; intros l; try reflexivity. vm_compute. discriminate. Qed.
Lemma virtio_init_ready_witness : ∃ p', virtio_disk_init disk_model (dst0 (mach0, boot_mem)) =
    Ok tt (MkDst (init_log disk_model 1 2 3) (touch mach0, p') (paddr_of 1) (paddr_of 2) (paddr_of 3) vdisk0) ∧
  Z.testbit (last_wr VIRTIO_MMIO_DRIVER_FEATURES (init_log disk_model 1 2 3)) VIRTIO_BLK_F_RO = false.
Proof.
  destruct boot_mem_run as [_ I].
  destruct (virtio_init_ready disk_model 1 2 3 _ ∅ mach0 boot_mem disk_model_ok I (quiet_mem_free _ mach0_quiet)) as (p' & E & _ & _ & F).
  exists p'. refine (conj E _). etransitivity; [apply (F VIRTIO_BLK_F_RO); split; [discriminate|reflexivity]|reflexivity].
Defined.
