(* ===== verification/Ls.v ===== *)
(** [sys_ls] of kernel/syscall/sysfs.c: the names of the current directory on the
    terminal.

    The state is the file system with its machine, as for directories, and the bytes
    the terminal has got.  The array [name] lies behind the format in the memory that
    [print] reads. *)
From S2P Require Import Prelude Bytes CString Machine BlockIO Fs Inode Dir Printf Sysfs.

Section ls.
Context {S : Type} {IO : BlockIO S}.

Definition lst : Type := @ist S * list Z.
Definition LM : Type → Type := M lst.
Definition on_fs {A} (m : M (@ist S) A) : LM A := zoom fst (λ x s, (x, s.2)) m.
Definition on_pr {A} (m : PR A) : LM A :=
  zoom (λ s, (bmach s.1.1, s.2)) (λ x s, ((bset_mach x.1 s.1.1, s.1.2), x.2)) m.
(** [print(fmt, name)]. *)
Definition print_name (fmt name : list Z) : LM unit := on_pr (print (fmt ++ name) 0 [Z.of_nat (length fmt)]).
Definition fmt_name : list Z := [37; 115; 32; 0].
Definition fmt_end : list Z := [10; 0].

(** [while (k != cnt)] over the entries [dt] from number [j] on; an entry outside the
    block is a fault, so that [BSIZE / SZDENTRY] rounds are enough. *)
Fixpoint ls_entries (fuel : nat) (d : list Z) (j : nat) (k : Z) (name : list Z) : LM (list Z) :=
  match fuel with
  | O => fault
  | Datatypes.S fuel =>
    if k =? dt_cnt d then ret name else
    let! c := deref (λ _, ld 0 (dt_name j d)) in
    if negb (c =? 0) then
      let! name := deref (λ _, arr_copy (dt_name j d) name) in
      print_name fmt_name name ;;
      ls_entries fuel d (Datatypes.S j) (u64 (k + 1)) name
    else ls_entries fuel d (Datatypes.S j) k name
  end.
(** The loop over the blocks of [cur], from block [i] with [n] left. *)
Fixpoint ls_blocks (cur n : nat) (i : Z) (name : list Z) : LM (list Z) :=
  match n with
  | O => ret name
  | Datatypes.S n =>
    let! b := on_fs (data_block_get cur i) in
    let! d := on_fs (data_of b) in
    let! name := ls_entries (Datatypes.S DENTRY_MAXCNT_PER_BLOCK) d 1 0 name in
    on_fs (lift (brelse b)) ;;
    ls_blocks cur n (i + 1) name
  end.
Definition sys_ls (fs : fs_struct) : LM Z :=
  let name := replicate (DLENGTH + 1) 0 in
  let! cur := deref (λ _, fs_cwd fs) in
  let! a := on_fs (inode_at cur) in
  let! name := ls_blocks cur (Z.to_nat (iblock_cnt (i_di a))) 0 name in
  print_name fmt_end name ;;
  ret 0.

(** ** What it prints *)

(** The names of a block and of [n] blocks of a directory, in order. *)
Definition block_names (d : list Z) (js : list nat) : list (list Z) := (λ j, name_of (dt_name j d)) <$> List.filter (live d) js.
Fixpoint dir_names (disk : Z → list Z) (ib : list Z) (n : nat) (i : Z) : list (list Z) :=
  match n with
  | O => []
  | Datatypes.S n =>
    match file_block disk ib i with
    | Some e => block_names (disk e) (seq 1 DENTRY_MAXCNT_PER_BLOCK)
    | None => []
    end ++ dir_names disk ib n (i + 1)
  end.
(** Every name and a space behind it. *)
Definition listing (l : list (list Z)) : list Z := concat ((λ w, w ++ [32]) <$> l).
Lemma listing_app l l' : listing (l ++ l') = listing l ++ listing l'.
Proof. unfold listing. by rewrite fmap_app, concat_app. Qed.

Lemma listing_cons w l : listing (w :: l) = w ++ [32] ++ listing l.
Proof. unfold listing. cbn [fmap list_fmap concat]. by rewrite <- app_assoc. Qed.

(** The array [name] is a string whatever is copied into it. *)
Definition name_arr (name : list Z) : Prop := length name = (DLENGTH + 1)%nat ∧ bytes_ok name ∧ name !! DLENGTH = Some 0.
Lemma name_arr_copy w name : name_arr name → length w = DLENGTH → bytes_ok w →
  arr_copy w name = Some (w ++ [0]) ∧ name_arr (w ++ [0]).
Proof.
  intros (Hl & Hb & Hz) Hw Hbw. split.
  - unfold arr_copy. rewrite decide_True by (rewrite Hl; lia). f_equal. unfold blit. rewrite take_0. cbn [app Nat.add]. f_equal.
    apply list_eq. intros x. rewrite lookup_drop, Hw. destruct x as [|x]; [by rewrite Nat.add_0_r|].
    cbn. apply lookup_ge_None_2. lia.
  - split_and!; [rewrite length_app, Hw; done|by apply bytes_ok_app; split; [|constructor; [lia|constructor]]|].
    by rewrite lookup_app_r, Hw, Nat.sub_diag by lia.
Qed.
Lemma name_of_split w : ∃ r, w ++ [0] = name_of w ++ 0 :: r ∧ Forall (λ v, v ≠ 0) (name_of w).
Proof.
  induction w as [|c w (r & E & F)]; [by exists []|]. cbn. destruct (Z.eqb_spec c 0) as [->|Hc].
  - exists (w ++ [0]). done.
  - exists r. cbn. rewrite E. split; [done|by constructor].
Qed.
Lemma name_string w pre : cstr_at (length pre) (name_of w) (pre ++ w ++ [0]).
Proof.
  destruct (name_of_split w) as (r & -> & F). split; [done|]. unfold slice. rewrite drop_app_length.
  change (0 :: r) with ([0] ++ r). rewrite app_assoc. rewrite take_app_length'; [done|]. by rewrite length_app.
Qed.

Implicit Types (s : S) (l : list inode).
Lemma on_fs_ok {A} (m : M (@ist S) A) x y a o : m x = Ok a y → on_fs m (x, o) = Ok a (y, o).
Proof. intros E. unfold on_fs, zoom. cbn. by rewrite E. Qed.
(** One call of [print]: the machine ends where it started, but for an interrupt that
    was waiting. *)
Lemma print_name_ok fmt name w strs d s l o : bytes_ok (fmt ++ name) → cstr_at 0 w (fmt ++ name) → (length fmt < 8)%nat →
  (∀ a v, strs a = Some v → 0 ≤ a ∧ cstr_at (Z.to_nat a) v (fmt ++ name)) →
  render strs w [Z.of_nat (length fmt)] = Some d → bio_ok s →
  ∃ s', print_name fmt name ((s, l), o) = Ok tt ((s', l), o ++ d) ∧ io_step keep s s'.
Proof.
  intros Hb Hw Hf Hs Hr Hok. exists (bset_mach (touch (bmach s)) s). split; [|by apply mach_step; [|apply touch_frame]].
  unfold print_name, on_pr, zoom. cbn [fst snd].
  rewrite (print_run (fmt ++ name) strs 0 w [Z.of_nat (length fmt)] (bmach s) o d); [done|done|done|by apply ok_quiet|done| |done].
  split; [cbn; lia|]. constructor; [|constructor]. rewrite i64_id by lia. lia.
Qed.
Lemma format_at w r : Forall (λ v, v ≠ 0) w → cstr_at 0 w ((w ++ [0]) ++ r).
Proof. intros F. split; [done|]. unfold slice. rewrite drop_0. by rewrite take_app_length' by (rewrite length_app; done). Qed.
Lemma print_entry w s l o : bytes_ok w → bio_ok s →
  ∃ s', print_name fmt_name (w ++ [0]) ((s, l), o) = Ok tt ((s', l), o ++ name_of w ++ [32]) ∧ io_step keep s s'.
Proof.
  intros Hb Hok. apply (print_name_ok fmt_name (w ++ [0]) [37; 115; 32] (λ a, if a =? 4 then Some (name_of w) else None)); [| |cbn; lia| |done|done].
  - apply bytes_ok_app. split; [repeat constructor; lia|]. apply bytes_ok_app. split; [done|repeat constructor; lia].
  - apply (format_at [37; 115; 32]). repeat constructor; lia.
  - intros a v. destruct (Z.eqb_spec a 4) as [->|]; [|done]. intros [= <-]. split; [lia|]. apply (name_string w fmt_name).
Qed.
Lemma live_none d js : countb (live d) js = 0%nat → List.filter (live d) js = [].
Proof. induction js as [|j js IH]; [done|]. cbn. destruct (live d j); [done|exact IH]. Qed.
Lemma ls_entries_S fuel d j k name : ls_entries (Datatypes.S fuel) d j k name =
  if k =? dt_cnt d then ret name else
  let! c := deref (λ _, ld 0 (dt_name j d)) in
  if negb (c =? 0) then
    let! name := deref (λ _, arr_copy (dt_name j d) name) in
    print_name fmt_name name ;;
    ls_entries fuel d (Datatypes.S j) (u64 (k + 1)) name
  else ls_entries fuel d (Datatypes.S j) k name.
Proof. done. Qed.
Lemma ls_entries_spec d n j k name s l o : length d = BSIZE → bytes_ok d → name_arr name → bio_ok s →
  (j + n ≤ Datatypes.S DENTRY_MAXCNT_PER_BLOCK)%nat → 0 ≤ k → k + Z.of_nat (countb (live d) (seq j n)) = dt_cnt d → dt_cnt d < 2 ^ 64 →
  ∃ s' name', ls_entries (Datatypes.S n) d j k name ((s, l), o) = Ok name' ((s', l), o ++ listing (block_names d (seq j n))) ∧
    io_step keep s s' ∧ name_arr name'.
Proof.
  intros Hl Hb. revert j k name s o. induction n as [|n IH]; intros j k name s o Hn Hok Hj Hk Hc Hlt; rewrite ls_entries_S; cbn [seq countb] in *.
  - rewrite (proj2 (Z.eqb_eq _ _)) by lia. exists s, name. rewrite app_nil_r. split_and!; [done|by apply io_step_refl|done].
  - pose proof (dt_name_length d j Hl ltac:(lia)) as Hnl. destruct (live_first d j Hnl) as (c & Ec & Hlive).
    destruct (Z.eqb_spec k (dt_cnt d)) as [He|He].
    { exists s, name. split_and!; [|by apply io_step_refl|done]. unfold block_names. rewrite live_none; [by rewrite app_nil_r|].
      cbn [countb]. destruct (live d j); lia. }
    unfold ld at 1. rewrite Ec. go. unfold block_names. cbn [List.filter]. rewrite Hlive in Hc |- *. revert Hc. destruct (c =? 0); cbn [negb]; intros Hc.
    + destruct (IH (Datatypes.S j) k name s o) as (s' & name' & E & R); [done|done|lia|done|lia|done|]. exists s', name'. split; [exact E|exact R].
    + destruct (name_arr_copy (dt_name j d) name Hn Hnl ltac:(by apply bytes_ok_take, bytes_ok_drop)) as [Ea Ha]. rewrite Ea. go.
      destruct (print_entry (dt_name j d) s l o) as (s1 & E1 & St1); [by apply bytes_ok_take, bytes_ok_drop|done|]. run E1.
      assert (u64 (k + 1) = k + 1) as -> by (apply Z.mod_small; lia).
      destruct (IH (Datatypes.S j) (k + 1) (dt_name j d ++ [0]) s1 (o ++ name_of (dt_name j d) ++ [32])) as (s' & name' & E & St & R); [done|apply St1|lia|lia|lia|done|].
      exists s', name'. split_and!; [|by eapply io_step_ext, io_step_trans, St; [|exact St1]|done].
      rewrite E. cbn [fmap list_fmap]. by rewrite listing_cons, <- !app_assoc.
Qed.

Context (sb : superblock) (WF : sb_wf sb).
Lemma dir_names_step s s' ib n i : io_step keep s s' → dir_blocks_ok sb s ib n i →
  dir_names (bio_disk s') ib n i = dir_names (bio_disk s) ib n i.
Proof.
  intros St. revert i. induction n as [|n IH]; intros i H; [done|]. cbn [dir_names].
  destruct (H i ltac:(lia)) as (e & E1 & E2 & E3 & E4 & E5). destruct (data_blk_range sb WF e E2) as (_ & ? & _).
  rewrite (file_block_step sb WF s s' ib i St (λ Hd x Hx, proj1 (E5 Hd x Hx))), E1, (st_disk _ _ _ St) by done.
  unfold keep. rewrite IH; [done|]. intros k Hk. apply H. lia.
Qed.
Lemma dir_block_cnt d : dir_block_ok d → dt_cnt d < 2 ^ 64.
Proof.
  intros [_ ->]. pose proof (countb_le (live d) (seq 1 DENTRY_MAXCNT_PER_BLOCK)) as H. rewrite length_seq in H.
  change DENTRY_MAXCNT_PER_BLOCK with 31%nat in *. lia.
Qed.
Lemma ls_blocks_spec cur a n i name s l o : slot_of sb l cur a → 0 ≤ i → dir_blocks_ok sb s (di_iblock (i_di a)) n i →
  bio_ok s → room 1 s → name_arr name →
  ∃ s' name', ls_blocks cur n i name ((s, l), o) =
      Ok name' ((s', l), o ++ listing (dir_names (bio_disk s) (di_iblock (i_di a)) n i)) ∧ io_step keep s s' ∧ name_arr name'.
Proof.
  intros Hs. revert i name s o. induction n as [|n IH]; intros i name s o Hi Hdir Hok Hr Hn.
  { exists s, name. split_and!; [cbn; by rewrite app_nil_r|by apply io_step_refl|done]. }
  destruct (Hdir i ltac:(lia)) as (e & E1 & E2 & E3 & E4 & E5). cbn [ls_blocks dir_names]. rewrite E1.
  destruct (data_block_get_spec sb WF cur i s l a e Hs Hi Hok Hr E1) as (b & s1 & Eb & O);
    [by apply (data_readable sb WF)|intros Hd x Hx; destruct (E5 Hd x Hx); by apply (data_readable sb WF)|].
  run (on_fs_ok _ _ _ _ o Eb). destruct (owns_data _ _ _ _ _ _ O) as (Hbd & _ & [Hbl Hbb] & _).
  run (on_fs_ok _ _ _ _ o (data_of_ok b s1 l _ Hbd)).
  destruct (ls_entries_spec (bio_disk s e) DENTRY_MAXCNT_PER_BLOCK 1 0 name s1 l o) as (s2 & name2 & En & St2 & Hn2);
    [done|done|done|apply O|lia|lia|by rewrite (proj2 E4)|by apply dir_block_cnt|]. run En.
  destruct (owns_brelse _ _ _ _ _ _ (owns_step _ _ _ _ _ _ _ _ O St2) eq_refl) as (s3 & E3' & St3 & _).
  erewrite (bind_ok (on_fs (lift (brelse b)))); [|by apply on_fs_ok, lift_ok]. cbn beta.
  assert (St : io_step keep s s3) by (by eapply io_step_ext, St3).
  assert (Hdir' : dir_blocks_ok sb s (di_iblock (i_di a)) n (i + 1)) by (intros k Hk; apply Hdir; lia).
  destruct (IH (i + 1) name2 s3 (o ++ listing (block_names (bio_disk s e) (seq 1 DENTRY_MAXCNT_PER_BLOCK)))) as (s4 & name4 & E4' & St4 & Hn4);
    [lia|by eapply dir_blocks_step|apply St|by eapply io_step_room|done|].
  exists s4, name4. split_and!; [|by eapply io_step_ext, io_step_trans, St4; [|exact St]|done].
  etransitivity; [exact E4'|]. rewrite (dir_names_step s s3) by done. by rewrite listing_app, app_assoc.
Qed.
(** [sys_ls] prints every name of the current directory once, each with a space behind
    it, in the order of the entries, and then ends the line.  It returns 0; the files,
    the inodes and the buffers somebody holds stay as they are. *)
Theorem sys_ls_lists fs cur a s l o : fs_cwd fs = Some cur → slot_of sb l cur a →
  dir_blocks_ok sb s (di_iblock (i_di a)) (Z.to_nat (iblock_cnt (i_di a))) 0 → bio_ok s → room 1 s →
  ∃ s', sys_ls fs ((s, l), o) = Ok 0 ((s', l), o ++
      listing (dir_names (bio_disk s) (di_iblock (i_di a)) (Z.to_nat (iblock_cnt (i_di a))) 0) ++ [10]) ∧ io_step keep s s'.
Proof.
  intros Hc Hs Hdir Hok Hr. unfold sys_ls. rewrite Hc. go. run (on_fs_ok _ _ _ _ o (inode_at_ok cur s l a (proj1 Hs))).
  destruct (ls_blocks_spec cur a (Z.to_nat (iblock_cnt (i_di a))) 0 (replicate (DLENGTH + 1) 0) s l o) as (s1 & name & E & St & Hn & Hnb & _);
    [done|lia|done|done|done| |].
  { split_and!; [apply length_replicate|apply bytes_ok_replicate|done]. }
  run E. destruct (print_name_ok fmt_end name [10] (λ _, None) [10] s1 l (o ++
      listing (dir_names (bio_disk s) (di_iblock (i_di a)) (Z.to_nat (iblock_cnt (i_di a))) 0))) as (s2 & E2 & St2);
    [apply bytes_ok_app; split; [repeat constructor; lia|done]|apply (format_at [10]); repeat constructor; lia|cbn; lia|done|done|apply St|].
  run E2. exists s2. split; [by rewrite <- app_assoc|]. by eapply io_step_ext, io_step_trans, St2; [|exact St].
Qed.
End ls.
