(* ===== verification/VirtioResults.v ===== *)
(** Results on the virtio disk driver: it implements a disk on which transfers happen
    at once, its interrupt handler and its calls never stop the machine and lose no
    descriptor, and every transfer the device has served ends. *)
From S2P Require Import Prelude Bytes Machine BlockIO Virtio Boot.

Section results.
Context {VD : VirtioDevice}.

Lemma vsteps_ok A es s s' : sys_ok A s → vsteps es s s' → ∃ A', disk_run A es A' ∧ sys_ok A' s'.
Proof.
  intros H St. revert A H. induction St as [s|e es s1 s2 s3 St _ IH]; intros A H; [exists A; split; [constructor|done]|].
  destruct (vstep_ok A e s1 s2 H St) as [He H2]. destruct (IH _ H2) as (A' & HA & H3). exists A'. split; [|done].
  destruct e as [[n [d|]|n d]|]; cbn in *; by try constructor.
Qed.
Lemma init_ok dk bs : sys_ok (dblock dk) ((dev0 dk, vdisk0, bs), []).
Proof. exists [], [], [], []. split; [apply vinv0|]. split; [by intros []|done]. Qed.
Lemma reach_ok dk bs es s : vsteps es ((dev0 dk, vdisk0, bs), []) s → ∃ A, disk_run (dblock dk) es A ∧ sys_ok A s.
Proof. apply vsteps_ok, init_ok. Qed.

(** C13: the driver with the device implements an atomic disk.  Whatever the order in
    which tasks start transfers (of different blocks at a time), the device takes and
    serves them, interrupts are handled and tasks go on: every transfer that ends has
    left in its buffer the contents that block has on a disk where each write took
    effect when it was started, and when no transfer is under way that is what is on the
    disk. *)
Theorem virtio_atomic_disk dk bs es s : vsteps es ((dev0 dk, vdisk0, bs), []) s →
  ∃ A, disk_run (dblock dk) es A ∧ (s.2 = [] → ∀ n, blk n → dblock (dv_bytes s.1.1.1) n = A n).
Proof.
  intros St. destruct (reach_ok dk bs es s St) as (A & HA & G & Qa & Qu & Dn & I & Hi & Hc). exists A. split; [done|].
  intros E n Hn. apply (vi_disk I); [done|]. intros r Hr. rewrite E in Hc. destruct G; [by apply elem_of_nil in Hr|done].
Qed.

Lemma busy_count v U : used_by v U → NoDup U → Forall (λ i, (i < NUM)%nat) U →
  length (filter (λ i, v_free v !! i = Some false) (seq 0 NUM)) = length U.
Proof.
  intros [_ H] Hnd Hlt. apply Permutation_length, NoDup_Permutation; [apply NoDup_filter, NoDup_seq|done|].
  intros i. rewrite list_elem_of_filter, elem_of_seq. rewrite Forall_forall in Hlt. split.
  - intros [E Hi]. rewrite H in E by lia. injection E as E. apply bool_decide_eq_false in E. by apply dec_stable.
  - intros Hi. specialize (Hlt i Hi). split; [|lia]. rewrite H by done. rewrite bool_decide_false; [done|tauto].
Qed.

Lemma acked_bits v : Z.land (mm_status (v_mmio (acked v))) 3 = 0.
Proof.
  cbn. apply Z.bits_inj'. intros n _. rewrite Z.land_spec, Z.ldiff_spec, Z.land_spec, Z.bits_0.
  by destruct (Z.testbit _ n), (Z.testbit 3 n).
Qed.
Lemma queued_nil rg start : queued rg start [] → r_idx rg = start.
Proof. intros Q. rewrite (qu_idx _ _ _ Q). cbn. rewrite Z.add_0_r. apply Z.mod_small, Q. Qed.

(** C33: in every state the driver can reach, the interrupt handler returns (it finds
    no failed status, no chain without a buffer and no index out of range) and has
    acknowledged the interrupt, a waiting
    call that goes on returns or sleeps again, a new transfer starts, or waits for
    descriptors only when two transfers are under way, and exactly three descriptors
    are in use for each transfer: none leaks.  A chain the device has not taken was notified, one
    it has taken is a request, and while it has added chains to the used ring that the
    handler has not seen, the interrupt is pending. *)
Theorem virtio_never_stops dk bs0 es dv v bs calls m t : vsteps es ((dev0 dk, vdisk0, bs0), []) ((dv, v, bs), calls) →
  can_sleep m → mytask m = Some t → (t < NPROC)%nat →
  (∃ m' v' bs', virtio_disk_intr (m, (v, bs)) = Ok tt (m', (v', bs')) ∧ Z.land (mm_status (v_mmio v')) 3 = 0) ∧
  (∀ b w h, (b, w, h) ∈ calls → ∃ x m' v' bs', rw_finish b h (acq L_vdisk m, (v, bs)) = Ok x (m', (v', bs'))) ∧
  (∀ b w bf, bs !! b = Some bf → blk (vb_blockno bf) → length (vb_data bf) = BSIZE → no_transfer (vb_blockno bf) bs calls →
     ∃ x m' v' bs', rw_try b w (sector_of (vb_blockno bf)) (acq L_vdisk m, (v, bs)) = Ok (inl x) (m', (v', bs')) ∧
       (x = WaitFree → length calls = 2%nat)) ∧
  length (filter (λ i, v_free v !! i = Some false) (seq 0 NUM)) = (3 * length calls)%nat ∧
  (dv_seen dv ≠ r_idx (v_avail v) → mm_notified (v_mmio v) = true) ∧
  (∀ h, h ∈ dv_taken dv → is_Some (chain_of v h)) ∧
  (v_used_idx v ≠ r_idx (v_used v) → Z.testbit (mm_status (v_mmio v)) 0 = true).
Proof.
  intros St Hm Ht Htn. destruct (reach_ok dk bs0 es _ St) as (A & _ & G & Qa & Qu & Dn & I & Hi & Hc). cbn [fst snd] in *. subst calls.
  split_and!.
  - destruct (intr_spec _ _ _ _ _ _ _ _ m I (can_calm m Hm)) as (m' & v' & bs' & Dn' & E & _ & _ & Es & _).
    exists m', v', bs'. split; [done|]. rewrite Es. apply acked_bits.
  - intros b w h Hin. apply call_elem in Hin as (r & Hr & <- & _ & <-).
    destruct (finish_cases _ _ _ _ _ _ _ _ m t r I Hm Ht Htn Hr) as [(_ & m' & v' & E)|(_ & m' & E)]; by do 4 eexists.
  - intros b w bf Hb Hblk Hlen Hno. destruct (rw_try_spec _ _ _ _ _ _ _ _ m t b w bf I Hm Ht Htn Hb Hblk Hlen)
      as [(m1 & v1 & r & E1 & _)|(m1 & v1 & E1 & _ & HG & _)].
    + intros r Hr. by eapply no_transfer_reqs.
    + do 4 eexists. split; [exact E1|discriminate].
    + do 4 eexists. split; [exact E1|]. intros _. by rewrite length_fmap.
  - rewrite (busy_count v _ (vi_used I) (vi_nodup I) (vi_lt I)), descs_length, length_fmap. done.
  - intros Hne. apply (vi_notify I). intros ->. apply Hne. symmetry. by apply (queued_nil _ _ (vi_avail I)).
  - intros h Hh. destruct (inv_find I h) as (r & Hr & <-); [set_solver|].
    rewrite (chain_formatted v r); [done|]. apply (vi_reqs I r Hr).
  - intros Hne. apply Hi. intros ->. apply Hne. symmetry. by apply (queued_nil _ _ (vi_usedq I)).
Qed.

(** C34: no transfer and no wakeup is lost: once the device has served all it was
    given, the interrupt handler makes every task that sleeps for a transfer still
    marked as under way ready, and every waiting call that then goes on returns. *)
Theorem virtio_completes dk bs0 es dv v bs calls m : vsteps es ((dev0 dk, vdisk0, bs0), []) ((dv, v, bs), calls) →
  dv_seen dv = r_idx (v_avail v) → dv_taken dv = [] → calm m →
  ∃ m' v' bs', virtio_disk_intr (m, (v, bs)) = Ok tt (m', (v', bs')) ∧ calm m' ∧
    ∀ b w h, (b, w, h) ∈ calls →
      (∀ m2, can_sleep m2 → ∃ m3 v3, rw_finish b h (acq L_vdisk m2, (v', bs')) = Ok (inr tt) (m3, (v3, bs'))) ∧
      (∀ bf j, bs !! b = Some bf → vb_disk bf = true → Some j ≠ mytask m →
         m_tasks m !! j = Some (MkTsk SLEEP (Some (ChBuf b))) → m_tasks m' !! j = Some (MkTsk READY (Some (ChBuf b)))).
Proof.
  intros St Hseen Htaken Hm. destruct (reach_ok dk bs0 es _ St) as (A & _ & G & Qa & Qu & Dn & I & Hi & Hc). cbn [fst snd] in *. subst calls.
  assert (Qa = []) as ->.
  { pose proof (queued_diff _ _ _ (vi_avail I)) as H. pose proof (inv_short I) as [Hs _]. rewrite Hseen, Z.sub_diag in H.
    destruct Qa; [done|]. unfold NUM in H. cbn in Hs, H. specialize (H ltac:(lia)). discriminate H. }
  destruct (intr_spec _ _ _ _ _ _ _ _ m I Hm) as (m' & v' & bs' & Dn' & E & Hm' & I' & _ & HD & _ & Hw).
  exists m', v', bs'. split_and!; [done..|]. intros b w h Hin. apply call_elem in Hin as (r & Hr & <- & _ & <-).
  assert (Hin : q_h r ∈ Qu ++ Dn).
  { pose proof (vi_phase I) as P. rewrite Htaken in P. cbn in P. rewrite <- P. by apply list_elem_of_fmap_2. }
  split.
  - intros m2 Hm2. destruct (finish_spec _ _ _ _ _ _ _ _ m2 r I' Hm2 Hr) as (m3 & v3 & E3 & _); [by apply HD|]. by exists m3, v3.
  - intros bf j Hb Hd Hj Hs. destruct (ro_buf _ _ _ _ _ _ _ (vi_reqs I r Hr)) as (bf0 & Hb0 & _ & _ & Hd0 & _).
    assert (q_h r ∉ Dn) as Hn by (apply (bool_decide_eq_true_1 (q_h r ∉ Dn)); congruence).
    eapply Hw; [done|set_solver|done..|by left].
Qed.
End results.

(** ** A device that does exactly what the specification says, and a write of block 5 *)

#[export] Instance spec_device : VirtioDevice.
Proof.
  refine {| dev_step w w' := dev_take w = Some w' ∨
    ∃ h r, h ∈ dv_taken w.1.1 ∧ chain_of w.1.2 h = Some r ∧ w' = dev_serve h r w |}.
  intros w w' [E|(h & r & Hh & Er & ->)]; [by left|right]. exists h. split; [done|]. intros r' E'. congruence.
Defined.
Definition disk0 : Z → Z := λ _, 0.
Definition data5 : list Z := replicate BSIZE 7.
Definition buf5 : vbuf := MkVbuf 5 false data5.
(** The states after the start, after the device took and served the request, after
    the interrupt and at the end. *)
Definition run_start : vst := state_of (rw_try 0 true (sector_of 5) (acq L_vdisk mach0, (vdisk0, [buf5]))).
Definition run_taken : world := default (dev0 disk0, vdisk0, []) (dev_take (dev0 disk0, run_start.2.1, run_start.2.2)).
Definition run_served : world := dev_serve 0 (MkDreq true (sector_of 5) (Z.of_nat BSIZE) 0 0) run_taken.
Definition run_intr : vst := state_of (virtio_disk_intr (mach0, (run_served.1.2, run_served.2))).
Definition run_end : vst := state_of (rw_finish 0 0 (acq L_vdisk mach0, run_intr.2)).

Lemma mach0_task : mytask mach0 = Some 0%nat ∧ (0 < NPROC)%nat.
Proof. split; [reflexivity|]. apply Nat.lt_0_succ. Qed.
Lemma run_to_served : vsteps [EvStart 5 (Some data5)] ((dev0 disk0, vdisk0, [buf5]), [])
  ((run_served.1.1, run_served.1.2, run_served.2), [(0%nat, true, 0%nat)]).
Proof.
  apply (vss_cons (Some (EvStart 5 (Some data5))) [] _ ((dev0 disk0, run_start.2.1, run_start.2.2), [(0%nat, true, 0%nat)])).
  { apply (vs_start (dev0 disk0) vdisk0 [buf5] [] mach0 0 0 true buf5 0 run_start.1);
      [exact mach0_sleep|apply mach0_task|apply mach0_task|reflexivity|unfold blk; cbn; lia|apply length_replicate|by intros c cb ?%elem_of_nil|].
    vm_compute. reflexivity. }
  apply (vss_cons None [] _ (run_taken, [(0%nat, true, 0%nat)])); [apply vs_device; left; vm_compute; reflexivity|].
  apply (vss_cons None [] _ (run_served, [(0%nat, true, 0%nat)])); [|destruct run_served as [[? ?] ?]; apply vss_nil].
  apply vs_device. right. exists 0%nat, (MkDreq true (sector_of 5) (Z.of_nat BSIZE) 0 0). split_and!; [by apply list_elem_of_singleton|..]; reflexivity.
Qed.
Lemma vsteps_app {VD : VirtioDevice} es es' s1 s2 s3 : vsteps es s1 s2 → vsteps es' s2 s3 → vsteps (es ++ es') s1 s3.
Proof. intros H H'. induction H as [s|e es s1 s2 s4 St _ IH]; [done|]. rewrite <- app_assoc. eapply vss_cons; [exact St|by apply IH]. Qed.
Lemma run_to_end : vsteps [EvStart 5 (Some data5); EvDone 5 data5] ((dev0 disk0, vdisk0, [buf5]), [])
  ((run_served.1.1, run_end.2.1, run_end.2.2), []).
Proof.
  apply (vsteps_app [EvStart 5 (Some data5)] [EvDone 5 data5] _ _ _ run_to_served).
  apply (vss_cons None [EvDone 5 data5] _ ((run_served.1.1, run_intr.2.1, run_intr.2.2), [(0%nat, true, 0%nat)])).
  { apply (vs_intr run_served.1.1 run_served.1.2 run_served.2 [(0%nat, true, 0%nat)] mach0 run_intr.1); [apply can_calm, mach0_sleep|].
    vm_compute. reflexivity. }
  apply (vss_cons (Some (EvDone 5 data5)) [] _ ((run_served.1.1, run_end.2.1, run_end.2.2), [])); [|apply vss_nil].
  apply (vs_done run_served.1.1 run_intr.2.1 run_intr.2.2 [(0%nat, true, 0%nat)] mach0 0 0 true 0 buf5 run_end.1);
    [exact mach0_sleep|reflexivity|vm_compute; reflexivity..].
Qed.

Lemma virtio_atomic_disk_witness : ∃ A, disk_run (dblock disk0) [EvStart 5 (Some data5); EvDone 5 data5] A ∧
  (@nil call = [] → ∀ n, blk n → dblock (dv_bytes run_served.1.1) n = A n).
Proof. exact (virtio_atomic_disk disk0 [buf5] _ ((run_served.1.1, run_end.2.1, run_end.2.2), []) run_to_end). Defined.
Lemma virtio_never_stops_witness : ∃ m' v' bs', virtio_disk_intr (mach0, (run_served.1.2, run_served.2)) = Ok tt (m', (v', bs')) ∧
  Z.land (mm_status (v_mmio v')) 3 = 0.
Proof.
  exact (proj1 (virtio_never_stops disk0 [buf5] _ _ _ _ _ mach0 0 run_to_served mach0_sleep (proj1 mach0_task) (proj2 mach0_task))).
Defined.
Lemma virtio_completes_witness : ∃ m' v' bs', virtio_disk_intr (mach0, (run_served.1.2, run_served.2)) = Ok tt (m', (v', bs')) ∧
  ∃ m3 v3, rw_finish 0 0 (acq L_vdisk mach0, (v', bs')) = Ok (inr tt) (m3, (v3, bs')).
Proof.
  destruct (virtio_completes disk0 [buf5] _ _ _ _ _ mach0 run_to_served) as (m' & v' & bs' & E & _ & H).
  - vm_compute. reflexivity.
  - reflexivity.
  - apply can_calm, mach0_sleep.
  - exists m', v', bs'. split; [exact E|]. apply (H 0%nat true 0%nat); [by apply list_elem_of_singleton|exact mach0_sleep].
Defined.
