(* ===== verification/TermResults.v ===== *)
(** Results on the terminal: what is typed, edited and read, what is written, and the
    cases the code gets wrong, with runs on concrete states. *)
From S2P Require Import Prelude Bytes CString Machine Printf Pipe Uart Console Boot.

(** ** Typing and reading *)


Section terminal.
Context {U : Type} {UM : UserMem U} (mem : list Z) (strs : Strs).



End terminal.

(** A read that asks for less than the part of a wrapped text before the end of the
    ring copies that whole part, more than the reader asked for, and then computes the
    length of the second part below zero and reads on behind the ring. *)
Theorem console_read_overrun {U} {UM : UserMem U} c (u : U) udst len m o : con_wf c → c_w c < c_r c → 0 < len < 128 - c_r c →
  accessible u udst (128 - Z.to_nat (c_r c)) →
  ∃ u', console_read_body udst len (acq L_console m, (c, (o, u))) = Fault (acq L_console m, (c, (o, u'))) ∧
    stored_at u u' udst (drop (Z.to_nat (c_r c)) (c_buf c)) ∧ len < Z.of_nat (length (drop (Z.to_nat (c_r c)) (c_buf c))).
Proof.
  intros W Hrw Hlen Ha. pose proof (cw_buf c W) as Hb. pose proof (cw_r c W) as Hr.
  assert (Hd : length (drop (Z.to_nat (c_r c)) (c_buf c)) = (128 - Z.to_nat (c_r c))%nat) by (rewrite length_drop, Hb; done).
  destruct (con_out_ok u udst (drop (Z.to_nat (c_r c)) (c_buf c)) (acq L_console m) c o) as (u' & E & Hs); [by rewrite Hd|].
  exists u'. split; [by apply read_short|]. split; [done|]. rewrite Hd. lia.
Qed.

(** The buffer for escape sequences has 8 bytes and no test. *)
Lemma escape_overflow {U} {UM : UserMem U} mem strs tasks ch c o (u : U) m : quiet m → c_tflag c = true → c_i c = 8 → length (c_tb c) = 8%nat →
  32 ≤ ch ≤ 126 → do_console_irq mem strs tasks ch (m, (c, (o, u))) = Fault (acq L_console m, (c, (o, u))).
Proof.
  intros Hq Ht Hi Hl Hc. unfold do_console_irq. rewrite (proj2 (Z.eqb_neq ch 27)), (proj2 (Z.eqb_neq ch 127)), (proj2 (Z.eqb_neq ch 13)), (proj2 (Z.eqb_neq ch 10)) by lia.
  cbn [orb]. rewrite (proj2 (Z.leb_le 32 ch)), (proj2 (Z.leb_le ch 126)) by lia. cbn [andb].
  unfold console_putc. rewrite get_console by done. go. cbn [fst snd]. rewrite Ht. cbn [negb].
  unfold push_tb, upd_con. rewrite bind_assoc. unfold bind at 1, update. cbn [fst snd]. unfold zst, st. rewrite Hi, Hl. done.
Qed.

(** ** A line *)

Definition umem : flat := replicate 200 0.
Lemma umem_access n va : 0 ≤ va → va + Z.of_nat n ≤ 200 → accessible umem va n.
Proof.
  intros Hv Hn k Hk. change (is_Some (flat_byte umem (va + k))). unfold flat_byte. rewrite decide_True by lia. apply lookup_lt_is_Some_2. change (length umem) with 200%nat. lia.
Qed.
(** The text ["abc"] wraps at the end of the ring; one byte is asked for. *)
Definition con_wrap : con :=
  set_cr 126 (set_cw 1 (set_cbuf (<[126%nat := 97]> (<[127%nat := 98]> (<[0%nat := 99]> (c_buf con0)))) con0)).
Lemma con_wrap_wf : con_wf con_wrap.
Proof. split; [cbn; rewrite CBS_128; lia|cbn; rewrite CBS_128; lia|reflexivity]. Qed.
Lemma console_read_overrun_witness : ∃ u', console_read_body 3 1 (acq L_console mach0, (con_wrap, ([], umem))) =
  Fault (acq L_console mach0, (con_wrap, ([], u'))) ∧ stored_at umem u' 3 [97; 98].
Proof.
  destruct (console_read_overrun con_wrap umem 3 1 mach0 [] con_wrap_wf) as (u' & E & Hs & _).
  - cbn. lia.
  - cbn. lia.
  - apply umem_access; [lia|]. cbn. lia.
  - exists u'. exact (conj E Hs).
Defined.

(** ** Output *)

Definition ust0 (lsr : list bool) : ust := MkUst (replicate UBUF 0) [] lsr.
(** The bytes of the user at address 0: 40 bytes, more than a piece. *)
Definition text40 : list Z := replicate 40 65.
Definition mem40 : flat := text40 ++ replicate 160 66.
Lemma mem40_holds : holds mem40 0 text40.
Proof.
  intros k Hk. change (flat_byte mem40 (0 + Z.of_nat k) = text40 !! k). unfold flat_byte. rewrite decide_True by lia.
  rewrite Z.add_0_l, Nat2Z.id. exact (lookup_app_l text40 (replicate 160 66) k Hk).
Qed.
(** The line is busy at the third byte. *)
Definition write_run : outcome (@ustate flat) (option uwait) :=
  uart_chunks (chunk_fuel 40) 0 40 (acq L_tx mach0, (ust0 [true; true; false], mem40)).
Definition write_wait : uwait := MkUwait 0 40 32 2.
Lemma write_slept : alone mem40 0 text40 [] (Some write_wait) (state_of write_run).2.1.
Proof.
  eapply (al_start mem40 0 text40 [] mach0 0 (ust0 [true; true; false]) (Some write_wait) (state_of write_run).1);
    [apply mach0_sleep|reflexivity|apply Nat.lt_0_succ|apply length_replicate|reflexivity|]. vm_compute. reflexivity.
Qed.
Lemma uart_write_sends_witness : (∃ k, u_out (state_of write_run).2.1 = [] ++ take k text40) ∧
  ∃ m' us', uart_continue write_wait (acq L_tx mach0, (MkUst (u_buf (state_of write_run).2.1) (u_out (state_of write_run).2.1) [], mem40)) =
    Ok None (m', (us', mem40)) ∧ u_out us' = [] ++ text40.
Proof.
  destruct (uart_write_sends mem40 0 text40 [] (Some write_wait) (state_of write_run).2.1 mem40_holds) as [H1 H2].
  - cbn. lia.
  - exact write_slept.
  - split; [exact H1|]. apply (H2 mach0 0%nat); [apply mach0_sleep|reflexivity|apply Nat.lt_0_succ].
Defined.
(** Task 0 writes "AA", then task 1 writes "BB". *)
Lemma mem40_part n : (n ≤ 40)%nat → holds mem40 0 (take n text40).
Proof. intros Hn k Hk. rewrite length_take in Hk. rewrite lookup_take_lt by lia. apply mem40_holds. lia. Qed.
Lemma mem40_b : holds mem40 40 [66; 66].
Proof. intros k Hk. cbn in Hk. destruct k as [|[|k]]; [reflexivity|reflexivity|lia]. Qed.
Lemma uart_write_race_witness : ∃ w m1' us1 m2' us2 m3' us3,
  uart_chunks (chunk_fuel 2) 0 2 (acq L_tx mach0, (ust0 [false], mem40)) = Ok (Some w) (m1', (us1, mem40)) ∧
  uart_chunks (chunk_fuel 2) 40 2 (acq L_tx mach0, (us1, mem40)) = Ok None (m2', (us2, mem40)) ∧
  uart_continue w (acq L_tx mach0, (us2, mem40)) = Ok None (m3', (us3, mem40)) ∧ u_out us3 = [66; 66; 66; 66].
Proof.
  exact (uart_write_race mem40 mem40 0 40 [65; 65] [66; 66] mach0 0 mach0 0 mach0 0 (ust0 [false])
    (mem40_part 2 ltac:(lia)) mem40_b eq_refl ltac:(cbn; unfold UBUF; lia) eq_refl eq_refl mach0_sleep eq_refl (Nat.lt_0_succ _)
    mach0_sleep eq_refl (Nat.lt_0_succ _) mach0_sleep eq_refl (Nat.lt_0_succ _)).
Defined.
