(* ===== verification/MemResults.v ===== *)
(** Results on memory management: the page allocator, page tables, copies between
    kernel and user memory and the object slots, with runs on concrete states. *)
From S2P Require Import Prelude Bytes ListNode Machine PageAlloc BlockIO Bio Fs Inode Vm Pipe File Slot UserCopy Boot.

(** ** Pages *)

(** A page that [alloc_page] hands out is zero, was free and belongs to no
    task; giving it back with [free_page] puts it at the end of the free list, and
    giving it back twice stops the machine. *)
Theorem alloc_free_page i fl tl m p : pages_inv (i :: fl) tl p → quiet m →
  ∃ p1 p2, alloc_page (m, p) = Ok i (touch m, p1) ∧ pages_inv fl tl p1 ∧ page_data p1 i = zero_page ∧
    i ∉ pg_inuse p ∧ (∀ t l, tl !! t = Some l → i ∉ l) ∧ (∀ j, j ≠ i → page_data p1 j = page_data p j) ∧
    free_page i (touch m, p1) = Ok tt (touch m, p2) ∧ pages_inv (fl ++ [i]) tl p2 ∧ pg_inuse p2 = pg_inuse p ∧
    ∃ x, free_page i (touch m, p2) = Panic "free_page: double free page" x.
Proof.
  intros I Hq. destruct (alloc_page_spec i fl tl m p I (quiet_mem_free _ Hq)) as (p1 & E1 & I1 & Hi & Hu & Hu1 & Hz & Ho & Ht).
  assert (Hq1 : mem_free (touch m)) by (apply quiet_mem_free; auto with mach).
  destruct (free_page_spec i fl tl (touch m) p1 I1 Hq1) as (p2 & E2 & I2 & Hu2 & _); [rewrite Hu1; set_solver|done|done|].
  rewrite touch_touch in E2. exists p1, p2. split_and!; try done.
  - rewrite Hu2, Hu1. set_solver.
  - eexists. eapply free_page_double; [exact I2|done|]. rewrite Hu2. set_solver.
Qed.
Lemma alloc_free_page_witness : ∃ p1 p2, alloc_page (mach0, boot_mem) = Ok 1%nat (touch mach0, p1) ∧
  page_data p1 1 = zero_page ∧ free_page 1 (touch mach0, p1) = Ok tt (touch mach0, p2).
Proof.
  destruct boot_mem_run as [_ I].
  destruct (alloc_free_page 1 _ ∅ mach0 boot_mem I mach0_quiet) as (p1 & p2 & E1 & _ & E2 & _ & _ & _ & E3 & _).
  exists p1, p2. exact (conj E1 (conj E2 E3)).
Defined.

(** After [init_memory] the pages below the end of the kernel image are never
    handed out: [alloc_page] returns a page whose address is at least the end of
    the image and below the end of RAM. *)
Theorem init_then_alloc kend k m : quiet m → align_up kend PGSIZE = paddr_of k → (k < NPAGE)%nat →
  ∃ p p' i, init_memory kend (m, boot_pages) = Ok tt (m, p) ∧ alloc_page (m, p) = Ok i (touch m, p') ∧
    align_up kend PGSIZE ≤ paddr_of i ∧ paddr_of i + PGSIZE ≤ PHY_TOP ∧
    ∀ j, (j < k)%nat → j ∈ pg_inuse p'.
Proof.
  intros Hq Hk Hkn. pose proof NPAGE_Z. destruct (init_memory_spec kend k m Hk ltac:(lia)) as (p & E & I).
  replace (NPAGE - k)%nat with (S (NPAGE - k - 1)) in I by lia. cbn [seq] in I.
  destruct (alloc_page_spec k _ _ m p I (quiet_mem_free _ Hq)) as (p' & E' & I' & _ & _ & Hu & _).
  exists p, p', k. split; [done|]. split; [done|]. rewrite Hk. split; [lia|]. split.
  - unfold paddr_of, PHY_TOP, PHY_MEMORY, PHY_SIZE, PGSIZE. lia.
  - intros j Hj. rewrite Hu. apply elem_of_union. right. destruct (decide (j ∈ pg_inuse p)) as [|Hn]; [done|].
    assert (j ∈ k :: seq (S k) (NPAGE - k - 1)) as Hin by (apply (pi_inuse _ _ _ I); split; [lia|done]).
    apply elem_of_cons in Hin as [->|Hin%elem_of_seq]; lia.
Qed.
Lemma init_then_alloc_witness : ∃ p p' i, init_memory kend0 (mach0, boot_pages) = Ok tt (mach0, p) ∧
  alloc_page (mach0, p) = Ok i (touch mach0, p') ∧ paddr_of 1 ≤ paddr_of i.
Proof.
  pose proof NPAGE_Z. destruct (init_then_alloc kend0 1 mach0 mach0_quiet) as (p & p' & i & E1 & E2 & E3 & _); [reflexivity|lia|].
  exists p, p', i. exact (conj E1 (conj E2 E3)).
Defined.

(** ** Page tables *)

(** C1: [svmmap] maps [n] pages: afterwards [va_to_pa] translates every address of
    the range to the corresponding physical address and every other address as
    before, and the pages that hold no table keep their contents. *)
Theorem svmmap_translates qa qp size attr ut fl tl root pt s (va := qa * 2 ^ 12) (pa := qp * 2 ^ 12)
    (n := (size + 4095) / 4096) :
  vm_ok fl tl root pt s → (2 * Z.to_nat n ≤ length fl)%nat → owner_ok ut tl →
  0 ≤ qa → 0 ≤ size → va + size ≤ VA_TOP → 0 ≤ qp → pa + size ≤ PHY_TOP →
  0 ≤ attr < 2 ^ 10 → Z.land attr PTE_RWX ≠ 0 →
  ∃ s', svmmap (paddr_of root) va pa size attr ut s = Ok tt s' ∧
    (∀ i, plain_page pt s.2 i → page_data s'.2 i = page_data s.2 i) ∧
    ∀ va', vaddr va' → ∃ r r', va_to_pa (paddr_of root) va' s = Ok r s ∧ va_to_pa (paddr_of root) va' s' = Ok r' s' ∧
      r'.1 = if decide (in_range va n va') then pa + (va' - va) else r.1.
Proof.
  intros V Hfl Hown Hqa Hsz Hva Hqp Hpa Ha Hrwx.
  destruct (svmmap_spec qa qp size attr ut fl tl root pt s V Hfl Hown Hqa Hsz Hva Hqp Hpa Ha)
    as (fl' & tl' & pt' & [m' p'] & E & V' & St & T). exists (m', p'). split; [done|].
  split; [intros i Hi; by apply (vs_plain _ _ _ _ _ _ _ _ _ _ St)|]. intros va' Hv. destruct s as [m p].
  destruct (va_to_pa_spec va' root pt m p (vo_tree _ _ _ _ _ V)) as (r & Er & Hr).
  destruct (va_to_pa_spec va' root pt' m' p' (vo_tree _ _ _ _ _ V')) as (r' & Er' & Hr').
  exists r, r'. split; [done|]. split; [done|]. specialize (T va' Hv). cbn [snd] in T. rewrite T in Hr'.
  assert (Hn1 : 4096 * n ≤ size + 4095) by (apply (Z.mul_div_le (size + 4095) 4096); lia).
  case_decide as Hin; [rewrite decide_True by exact Hin|rewrite decide_False by exact Hin].
  - unfold va, pa in *. change PHY_TOP with 0xA0000000 in Hpa. unfold in_range in Hin. rewrite Z.div_mul in Hin by lia. fold n in Hin.
    destruct (mapped_frame qa qp attr va' Ha Hrwx) as [M1 M2]; [lia|]. rewrite M1 in Hr'. destruct Hr' as [-> _]. rewrite M2. lia.
  - destruct (maps (trans pt p va')); [destruct Hr as [-> _], Hr' as [-> _]; done|by subst].
Qed.
(** A root table in the first free page. *)
Lemma root_of_alloc i fl tl m p : pages_inv (i :: fl) tl p → quiet m →
  vm_ok fl tl i {[ [] := i ]} (state_of (alloc_page (m, p))) ∧
  ∀ va, trans {[ [] := i ]} (state_of (alloc_page (m, p))).2 va = 0.
Proof.
  intros I Hq. destruct (alloc_page_spec i fl tl m p I (quiet_mem_free _ Hq)) as (p1 & E & I1 & Hi & _ & Hu & Hz & _).
  rewrite E. cbn [state_of]. apply (fresh_root i fl tl (touch m) p1); [done|done|rewrite Hu; set_solver|done|auto with mach].
Qed.
Definition vm0 : mach * pmem := state_of (alloc_page (mach0, boot_mem)).
Lemma vm0_ok : vm_ok (2%nat :: 3%nat :: 4%nat :: 5%nat :: seq 6 (NPAGE - 6)) ∅ 1 {[ [] := 1%nat ]} vm0 ∧
  ∀ va, trans {[ [] := 1%nat ]} vm0.2 va = 0.
Proof. exact (root_of_alloc 1 _ ∅ mach0 boot_mem (proj2 boot_mem_run) mach0_quiet). Qed.
#[global] Opaque vm0.
Lemma svmmap_translates_witness : ∃ s', svmmap (paddr_of 1) (16 * 2 ^ 12) ((2 ^ 19 + 7) * 2 ^ 12) 4096 (Z.lor PTE_R PTE_U) None vm0 = Ok tt s' ∧
  ∃ r', va_to_pa (paddr_of 1) 65540 s' = Ok r' s' ∧ r'.1 = paddr_of 7 + 4.
Proof.
  destruct vm0_ok as [V _].
  destruct (svmmap_translates 16 (2 ^ 19 + 7) 4096 (Z.lor PTE_R PTE_U) None _ _ _ _ _ V) as (s' & E & _ & T);
    [change (Z.to_nat ((4096 + 4095) / 4096)) with 1%nat; cbn [length]; lia|done|lia|lia|done|lia|done|by split|done|].
  exists s'. split; [exact E|]. destruct (T 65540 ltac:(by split)) as (r & r' & _ & E' & Hr). exists r'. split; [done|].
  rewrite Hr. reflexivity.
Defined.

(** C20: [vmunmap] unmaps a range: afterwards [va_to_pa] gives 0 for every address
    of the range and the same as before for every other address. *)
Theorem vmunmap_untranslates qa size fl tl root pt s (va := qa * 2 ^ 12) (n := (size + 4095) / 4096) :
  vm_ok fl tl root pt s → 0 ≤ qa → 0 ≤ size → va + size ≤ VA_TOP →
  ∃ s', vmunmap (paddr_of root) va size s = Ok tt s' ∧ vm_ok fl tl root pt s' ∧
    (∀ i, plain_page pt s.2 i → page_data s'.2 i = page_data s.2 i) ∧
    ∀ va', vaddr va' → ∃ r r', va_to_pa (paddr_of root) va' s = Ok r s ∧ va_to_pa (paddr_of root) va' s' = Ok r' s' ∧
      r'.1 = if decide (in_range va n va') then 0 else r.1.
Proof.
  intros V Hqa Hsz Hva. destruct (vmunmap_spec qa size fl tl root pt s V Hqa Hsz Hva) as ([m' p'] & E & V' & Hp & T).
  exists (m', p'). split; [done|]. split; [done|]. split; [done|]. intros va' Hv. destruct s as [m p].
  destruct (va_to_pa_spec va' root pt m p (vo_tree _ _ _ _ _ V)) as (r & Er & Hr).
  destruct (va_to_pa_spec va' root pt m' p' (vo_tree _ _ _ _ _ V')) as (r' & Er' & Hr').
  exists r, r'. split; [done|]. split; [done|]. specialize (T va' Hv). cbn [snd] in T.
  case_decide as Hin; [rewrite decide_True by exact Hin|rewrite decide_False by exact Hin].
  - rewrite T in Hr'. by subst r'.
  - rewrite T in Hr'. destruct (maps (trans pt p va')); [destruct Hr as [-> _], Hr' as [-> _]; done|by subst].
Qed.
Lemma vmunmap_untranslates_witness : ∃ s', vmunmap (paddr_of 1) (16 * 2 ^ 12) 4096 vm0 = Ok tt s' ∧
  ∃ r', va_to_pa (paddr_of 1) 65540 s' = Ok r' s' ∧ r'.1 = 0.
Proof.
  destruct vm0_ok as [V _].
  destruct (vmunmap_untranslates 16 4096 _ _ _ _ _ V) as (s' & E & _ & _ & T); [lia|lia|done|].
  exists s'. split; [exact E|]. destruct (T 65540 ltac:(by split)) as (r & r' & _ & E' & Hr). exists r'. split; [done|].
  rewrite Hr. reflexivity.
Defined.

(** ** Copies between kernel and user memory *)

(** C17: bytes stored by [copy_to_user] in an accessible range are what
    [copy_from_user] then reads from it, across page boundaries, and every other
    user byte is unchanged. *)
Theorem user_copy_round_trip root pt m kill va d p : uspace_ok root pt p → readable pt p va (length d) →
  ∃ p', copy_to_user kill (paddr_of root) (length d) va d (m, p) = Ok tt (m, p') ∧ uspace_ok root pt p' ∧
    copy_from_user kill (paddr_of root) (length d) va (length d) (m, p') = Ok d (m, p') ∧
    ∀ a, a < va ∨ va + Z.of_nat (length d) ≤ a → user_byte pt p' a = user_byte pt p a.
Proof.
  intros U Hr. destruct (copy_to_user_spec root pt m kill (length d) va d p U ltac:(lia) Hr) as (p' & E & U' & B).
  assert (Hb : ∀ k, 0 ≤ k < Z.of_nat (length d) → user_byte pt p' (va + k) = d !! Z.to_nat k).
  { intros k Hk. rewrite B, decide_True by lia. f_equal. lia. }
  destruct (copy_from_user_spec root pt m kill (length d) va (length d) p' U') as (d' & E' & Hl & Hd'); [lia| |].
  { intros k Hk. rewrite Hb by done. apply lookup_lt_is_Some_2. lia. }
  exists p'. split; [done|]. split; [done|]. split.
  - rewrite E'. f_equal. apply list_eq. intros k. destruct (decide (k < length d)%nat) as [Hk|Hk].
    + rewrite Hd', Hb by lia. by rewrite Nat2Z.id.
    + rewrite !lookup_ge_None_2; [done|lia|lia].
  - intros a Ha. rewrite B. by rewrite decide_False by lia.
Qed.
(** An address space with one user page. *)
Lemma uspace_one_page qa i0 fl tl root pt s : vm_ok fl tl root pt s → (∀ va, trans pt s.2 va = 0) →
  plain_page pt s.2 i0 → (i0 < NPAGE)%nat → (2 ≤ length fl)%nat → 0 ≤ qa → qa * 2 ^ 12 + 4096 ≤ VA_TOP →
  ∃ s' pt', svmmap (paddr_of root) (qa * 2 ^ 12) ((2 ^ 19 + Z.of_nat i0) * 2 ^ 12) 4096 (Z.lor PTE_R (Z.lor PTE_W PTE_U)) None s = Ok tt s' ∧
    uspace_ok root pt' s'.2 ∧ ∀ va, qa * 2 ^ 12 ≤ va < qa * 2 ^ 12 + 4096 → uframe pt' s'.2 va = Some i0.
Proof.
  intros V Hz Hplain Hi Hfl Hqa Hva. assert (HN : Z.of_nat i0 < 131072) by (pose proof NPAGE_Z; lia).
  destruct (svmmap_spec qa (2 ^ 19 + Z.of_nat i0) 4096 (Z.lor PTE_R (Z.lor PTE_W PTE_U)) None fl tl root pt s V)
    as (fl' & tl' & pt' & s' & E & V' & St & T);
    [change (Z.to_nat ((4096 + 4095) / 4096)) with 1%nat; lia|exact Logic.I|exact Hqa|lia|exact Hva|lia|
     change PHY_TOP with 0xA0000000; lia|by split|].
  exists s', pt'. split; [exact E|]. clear E. unfold VA_TOP in Hva. change ((4096 + 4095) / 4096) with 1 in T.
  destruct (vs_plain _ _ _ _ _ _ _ _ _ _ St i0 Hplain) as [[_ Hnt] _].
  assert (Hin : ∀ va, in_range (qa * 2 ^ 12) 1 va ↔ va / 4096 = qa).
  { intros va. unfold in_range. rewrite Z.div_mul by lia. change (2 ^ 12) with 4096. lia. }
  assert (Hf : ∀ va i, uframe pt' s'.2 va = Some i ↔ vaddr va ∧ va / 4096 = qa ∧ i = i0).
  { intros va i. unfold uframe. destruct (decide (vaddr va)) as [Hv|Hv]; [|by split; [|intros (? & _)]]. rewrite (T va Hv).
    destruct (decide (in_range (qa * 2 ^ 12) 1 va)) as [Hr|Hr]; rewrite Hin in Hr.
    - destruct (mapped_frame qa (2 ^ 19 + Z.of_nat i0) (Z.lor PTE_R (Z.lor PTE_W PTE_U)) va) as [M1 M2];
        [done|done|change (2 ^ 12) with 4096; lia|].
      assert (user_ok (mapped_pte (qa * 2 ^ 12) ((2 ^ 19 + Z.of_nat i0) * 2 ^ 12) (Z.lor PTE_R (Z.lor PTE_W PTE_U)) va) = true) as ->.
      { unfold user_ok. rewrite M1. unfold mapped_pte. rewrite Z.div_mul by lia. change (2 ^ 12) with 4096. rewrite Hr, Z.sub_diag, Z.mul_0_l, Z.add_0_r.
        change 4096 with (2 ^ 12). rewrite leaf_of_frame by done. unfold PTE_UW, PTE_UR.
        by rewrite (land_mul_pow2 _ _ (Z.lor PTE_W PTE_U) 10), (land_mul_pow2 _ _ (Z.lor PTE_R PTE_U) 10) by (lia || done). }
      rewrite M2. pose proof (Z.div_mod va 4096 ltac:(lia)). pose proof (Z.mod_pos_bound va 4096 ltac:(lia)).
      replace ((2 ^ 19 + Z.of_nat i0) * 2 ^ 12 + (va - qa * 2 ^ 12)) with (paddr_of i0 + va mod 4096) by (rewrite paddr_frame; lia).
      destruct (ram_page_paddr i0 (va mod 4096) Hi ltac:(lia)) as [-> _]. split; [by intros [= <-]|by intros (_ & _ & ->)].
    - rewrite Hz. change (user_ok 0) with false. cbn iota. by split; [|intros (_ & ? & _)]. }
  split; [split|].
  - apply V'.
  - intros i. by eapply page_data_ok, (vo_pages _ _ _ _ _ V').
  - intros va i y (_ & _ & ->)%Hf. apply Hnt.
  - intros va va' i (_ & E1 & _)%Hf (_ & E2 & _)%Hf. congruence.
  - intros va Hr. apply Hf. split; [unfold vaddr; lia|]. split; [|done]. symmetry. apply Z.div_unique with (va - qa * 4096); lia.
Qed.
Lemma vm0_page0 : plain_page {[ [] := 1%nat ]} vm0.2 0.
Proof.
  destruct vm0_ok as [[I _ _] _]. assert (HN : (6 < NPAGE)%nat) by (pose proof NPAGE_Z; lia). split.
  - eapply inuse_not_free; [exact I|clear I; lia|]. clear I. rewrite !elem_of_cons, elem_of_seq. lia.
  - clear I. intros y [_ Hy]%lookup_singleton_Some. discriminate Hy.
Qed.
Lemma user_copy_round_trip_witness : ∃ s pt p', svmmap (paddr_of 1) (16 * 2 ^ 12) ((2 ^ 19 + Z.of_nat 0) * 2 ^ 12) 4096
    (Z.lor PTE_R (Z.lor PTE_W PTE_U)) None vm0 = Ok tt s ∧
  copy_to_user killed (paddr_of 1) 3 65540 [1; 2; 3] (mach0, s.2) = Ok tt (mach0, p') ∧
  copy_from_user killed (paddr_of 1) 3 65540 3 (mach0, p') = Ok [1; 2; 3] (mach0, p') ∧ uspace_ok 1 pt p'.
Proof.
  destruct vm0_ok as [V Hz]. assert (HN : (0 < NPAGE)%nat) by (pose proof NPAGE_Z; lia).
  destruct (uspace_one_page 16 0 _ _ _ _ _ V Hz vm0_page0 HN) as (s & pt & E & U & Hf); [cbn [length]; lia|lia|by vm_compute|].
  destruct (user_copy_round_trip 1 pt mach0 killed 65540 [1; 2; 3] s.2 U) as (p' & E1 & U' & E2 & _).
  { intros k Hk. cbn [length] in Hk. apply user_byte_some; [apply U|]. rewrite Hf by lia. by eexists. }
  exists s, pt, p'. exact (conj E (conj E1 (conj E2 U'))).
Defined.

(** ** Object slots *)

(** C22: the slot allocator hands out an object that is not in use and keeps the
    contents of the others, and taking it back restores the set of objects in use;
    it fails only when every slot is full, or when a slot needs a page and no page
    is free. *)
Theorem slot_alloc_free {T} (kind : slot_kind) (N : nat) (zero : T) m p st fl tl : (0 < N < 4096)%nat → quiet m →
  slots_inv N zero tl p st → pages_inv fl tl p →
  (∃ o p1 st1, alloc_slot kind N zero ((m, p), st) = Ok o ((touch m, p1), st1) ∧ new_object N zero o st st1 ∧
     ∃ p2 st2 fl2, free_slot kind zero o ((touch m, p1), st1) = Ok tt ((touch m, p2), st2) ∧
       pages_inv fl2 tl p2 ∧ slots_inv N zero tl p2 st2 ∧
       ∀ o', (live N zero st2 o' ↔ live N zero st o') ∧
         (live N zero st o' → c_obj (chunk_of zero st2 o') = c_obj (chunk_of zero st o'))) ∨
  (slots_full N st ∧ ∃ x, alloc_slot kind N zero ((m, p), st) = Panic "slot exhausted" x) ∨
  (fl = [] ∧ ∃ x, alloc_slot kind N zero ((m, p), st) = Panic "alloc_page: memory exhausted" x).
Proof.
  intros HN Hq I Ip. destruct (alloc_slot_spec kind N zero HN m p st fl tl Hq I Ip) as [(o & p1 & st1 & fl1 & E & Ip1 & I1 & H & _)|Hf]; [|by right].
  left. exists o, p1, st1. split; [done|]. split; [done|]. destruct H as (H1 & H2 & H3).
  destruct (free_slot_spec kind N zero HN (touch m) p1 st1 fl1 tl o (quiet_touch _ Hq) I1 Ip1 H2)
    as (p2 & st2 & fl2 & E2 & Ip2 & I2 & (_ & D1 & D2) & _).
  rewrite touch_touch in E2. exists p2, st2, fl2. split; [done|]. split; [done|]. split; [done|].
  intros o'. destruct (decide (o' = o)) as [->|Hne]; [by split|].
  destruct (H3 o' Hne) as [A1 A2], (D2 o' Hne) as [B1 B2]. split; [by rewrite B1|].
  intros Hl. rewrite B2 by (by apply A1). by apply A2.
Qed.
Lemma slot_alloc_free_witness : ∃ o p1 st1 p2 st2,
  alloc_slot FileSlot NFILE_CHUNK file0 ((mach0, boot_mem), init_slots) = Ok o ((touch mach0, p1), st1) ∧
  free_slot FileSlot file0 o ((touch mach0, p1), st1) = Ok tt ((touch mach0, p2), st2).
Proof.
  destruct boot_mem_run as [_ I].
  destruct (slot_alloc_free FileSlot NFILE_CHUNK file0 mach0 boot_mem init_slots _ ∅ ltac:(unfold NFILE_CHUNK; lia) mach0_quiet
    (init_slots_inv NFILE_CHUNK file0 ∅ boot_mem) I) as [(o & p1 & st1 & E1 & _ & p2 & st2 & fl2 & E2 & _)|[[Hf _]|[Hf _]]].
  - exists o, p1, st1, p2, st2. exact (conj E1 E2).
  - clear I. exfalso. specialize (Hf 0%nat _ eq_refl). discriminate Hf.
  - clear I. discriminate Hf.
Defined.
