(* ===== verification/TaskResults.v ===== *)
(** Results on the memory of tasks (kernel/task/task.c, kernel/mem/vm.c,
    kernel/syscall/sysmem.c): what [fork] copies, what exit gives back, and what the
    memory system calls do. *)
From S2P Require Import Prelude Bytes ListNode Machine PageAlloc Vm Slot UserCopy Boot TaskMem TaskSpace TaskDrop.

(** A step of the same task that keeps the tables of the user part keeps the
    description of its memory. *)
Lemma desc_same_task A fl tl s t a k j fl' tl' pt' s' (os : list optr) : tasks_inv A fl tl s → A !! t = Some a →
  tframe t k j fl tl (sp_pt a) s fl' tl' pt' s' → (∀ o, o ∈ os → vma_live s o) →
  (∀ o, o ∈ os → ∃ i, vma_good tl s t (sp_pt a) o i) →
  (∀ o, o ∈ os → (∃ i, vma_good tl' s' t pt' o i) ∧ vma_val s' o = vma_val s o).
Proof.
  intros I Ha F Hl Hg o Ho. split; [|by apply (tf_vma _ _ _ _ _ _ _ _ _ _ _ F o), Hl].
  destruct (Hg o Ho) as [i Hgi]. exists i. eapply vma_good_frame; [exact F|by apply Hl|done|].
  destruct Hgi as (_ & _ & _ & _ & _ & _ & Hown & Hy). apply (tf_plain _ _ _ _ _ _ _ _ _ _ _ F i).
  split; [|done]. by apply (owns_page _ _ _ _ _ (ti_pages _ _ _ _ I) Hown).
Qed.

(** The stack of a new task. *)
Definition STACK_RIGHTS : Z := Z.lor PTE_V (Z.lor (Z.lor PTE_R PTE_W) PTE_U).
Lemma stack_range va : uaddr va → in_range USTACK 1 va ↔ USTACK ≤ va.
Proof.
  intros [H1 H2]. change TRAPFRAME with ((2 ^ 26 - 2) * 2 ^ 12) in H2. change USTACK with ((2 ^ 26 - 3) * 2 ^ 12). unfold in_range.
  rewrite Z.div_mul by lia. pose proof (Z.mul_div_le va (2 ^ 12)). pose proof (Z.mul_succ_div_gt va (2 ^ 12)). lia.
Qed.

(** [task_mm_init] without a parent. *)
Lemma mm_init_new_spec tr satp qt A fl tl s c : tasks_inv A fl tl s → A !! c = None → tl !! c = None →
  (c < length (ts_tasks s))%nat → (10 ≤ length fl)%nat → refs (ts_vmas s) < Z.of_nat (NSLOT_DEFAULT * NVMA_CHUNK) →
  refs (ts_mms s) < Z.of_nat (NSLOT_DEFAULT * NMM_CHUNK) →
  tr = qt * 2 ^ 12 → 0 ≤ qt → tr + PGSIZE ≤ PHY_TOP → 0 ≤ satp < 2 ^ 64 →
  ∃ s' fl' tl' a, task_mm_init tr satp c None s = Ok tt s' ∧
    tasks_inv (<[c := a]> A) fl' tl' s' ∧ mem_desc tl' s' c a ∧ length (sp_vmas a) = 1%nat ∧
    (∀ va, uaddr va → mem_view s' a va = if decide (USTACK ≤ va) then Some (0, STACK_RIGHTS) else None) ∧
    (∀ t b, A !! t = Some b → keeps tl s tl' s' t b) ∧ mm_heap s' c = Some 0 ∧ mm_ready tr satp tl' s' c a ∧
    (length fl ≤ length fl' + 10)%nat ∧ refs (ts_vmas s') = refs (ts_vmas s) + 1 ∧ refs (ts_mms s') = refs (ts_mms s) + 1 ∧
    length (ts_tasks s') = length (ts_tasks s) ∧ mach_frame (mach_of s) (mach_of s') ∧ (∀ t, t ≠ c → tl !! t = None → tl' !! t = None).
Proof.
  intros I Hc Htl Hlt Hfl Hrv Hrm Etr Hqt Htr Hsatp.
  destruct (mm_begin_spec A fl tl s c None I Hc Htl Hlt Logic.I ltac:(lia) Hrm)
    as (s1 & fl1 & i & E1 & I1 & K1 & L1 & Ev1 & M1 & T1 & H1 & _ & N1 & _ & R1). cbn zeta in *.
  set (a1 := MkSpace i {[ [] := i ]} []) in *. set (A1 := <[c := a1]> A) in *. assert (Ha1 : A1 !! c = Some a1) by apply lookup_insert_eq.
  destruct fl1 as [|j fl1]; [cbn in L1; lia|].
  destruct (task_page_step A1 j fl1 _ s1 c a1 I1 Ha1) as (s2 & E2 & I2 & F2 & Ev2 & _ & Hz2 & P2 & O2 & _ & T2).
  destruct (owns_page _ _ _ _ _ (ti_pages _ _ _ _ I2) O2) as [Hj _].
  set (attr := Z.lor (Z.lor PTE_R PTE_W) PTE_U). assert (Hargs : page_args (2 ^ 26 - 3) j attr).
  { split; [lia|]. split; [change TRAPFRAME with ((2 ^ 26 - 2) * 2 ^ 12); unfold PGSIZE; lia|]. split; [done|]. change attr with 22. lia. }
  destruct (task_vmmap_step A1 fl1 _ s2 c a1 (2 ^ 26 - 3) j attr STACK I2 Ha1) as (o & s3 & fl3 & tl3 & pt3 & E3 & I3 & F3 & _ & Hv3 & T3);
    [cbn in L1; lia|by rewrite Ev2, Ev1|done|]. change ((2 ^ 26 - 3) * 2 ^ 12) with USTACK in *.
  unfold A1 in I3. rewrite insert_insert_eq in I3. cbn [sp_vmas sp_root a1 app] in I3. set (a3 := MkSpace i pt3 [o]) in *. set (A3 := <[c := a3]> A) in *.
  assert (Ha3 : A3 !! c = Some a3) by apply lookup_insert_eq. pose proof (tf_free _ _ _ _ _ _ _ _ _ _ _ F3) as L3.
  destruct (tf_plain _ _ _ _ _ _ _ _ _ _ _ F3 j P2) as [P3 D3]. pose proof (tf_owns _ _ _ _ _ _ _ _ _ _ _ _ _ F3 O2) as O3.
  assert (G3 : ∀ x, x ∈ [o] → ∃ k, vma_good tl3 s3 c pt3 x k).
  { intros x ->%list_elem_of_singleton. exists j, (2 ^ 26 - 3), attr, STACK. split; [exact Hv3|]. split; [done|]. split; [done|]. split; [done|apply P3]. }
  destruct (mm_end_spec tr satp A3 fl3 tl3 s3 c a3 qt I3 Ha3) as (s4 & fl4 & tl4 & pt4 & E4 & I4 & F4 & T4 & R4); [cbn in L1; lia|done..|].
  cbn zeta in *. unfold A3 in I4. rewrite insert_insert_eq in I4. cbn [sp_vmas sp_root a3] in I4, R4. set (a4 := MkSpace i pt4 [o]) in *.
  assert (Hl3 : ∀ x, x ∈ [o] → vma_live s3 x) by apply (so_live _ _ _ _ (ti_space _ _ _ _ I3 c a3 Ha3)).
  pose proof (desc_same_task A3 fl3 tl3 s3 c a3 _ _ _ _ _ _ [o] I3 Ha3 F4 Hl3 G3) as G4.
  assert (Ev4 : vma_val s4 o = MkVma USTACK (paddr_of j) PGSIZE STACK attr) by (rewrite (proj2 (G4 o ltac:(by left))); exact Hv3).
  assert (T : ∀ va, uaddr va → trans pt4 (pmem_of s4) va = vstep (vma_val s4 o) (λ _, 0) va).
  { intros va Hva. rewrite T4 by done. cbn [sp_pt a3]. rewrite T3 by (by apply uaddr_vaddr). rewrite Ev4. unfold vstep. cbn [v_va v_pa v_attr].
    case_decide; [done|]. rewrite T2. apply T1. }
  exists s4, fl4, tl4, a4. split; [unfold task_mm_init; run E1; unfold mm_fill; run E2; by run E3|]. split; [done|].
  split; [split; [intros x Hx; by apply G4|exact T]|]. split; [done|]. split; [|split; [|split; [|split; [done|]]]].
  - intros va Hva. unfold mem_view. cbn [sp_pt a4]. rewrite T, Ev4 by done. unfold vstep. cbn [v_va v_pa v_attr].
    pose proof (stack_range va Hva) as Hr. destruct (decide (in_range USTACK 1 va)) as [Hin|Hn].
    + rewrite decide_True by (by apply Hr). unfold pte_view.
      destruct (pte_mapped (2 ^ 26 - 3) j attr va Hargs ltac:(done) Hin) as [Q1 Q2].
      change ((2 ^ 26 - 3) * 2 ^ 12) with USTACK in Q1, Q2. rewrite Q1, Q2. cbn [mbind option_bind].
      destruct (tf_plain _ _ _ _ _ _ _ _ _ _ _ F4 j P3) as [_ D4]. rewrite D4, D3, Hz2. unfold zero_page.
      rewrite lookup_replicate_2; [done|]. pose proof (Z.mod_pos_bound va 4096 ltac:(lia)). change PGBYTES with 4096%nat. lia.
    + rewrite decide_False by (by rewrite <- Hr). done.
  - intros t b Hb. assert (t ≠ c) by (intros ->; congruence).
    assert (Hx : ∀ x, <[c := x]> A !! t = Some b) by (intros x; by rewrite lookup_insert_ne).
    eapply keeps_trans, keeps_trans, keeps_trans; [by apply K1|eapply (tframe_keeps A1); [exact I1|exact Ha1|apply Hx|done|exact F2]
      |eapply (tframe_keeps A1); [exact I2|exact Ha1|apply Hx|done|exact F3]|eapply (tframe_keeps A3); [exact I3|exact Ha3|apply Hx|done|exact F4]].
  - rewrite (tf_heap _ _ _ _ _ _ _ _ _ _ _ c F4), (tf_heap _ _ _ _ _ _ _ _ _ _ _ c F3), (tf_heap _ _ _ _ _ _ _ _ _ _ _ c F2). exact H1.
  - pose proof (tf_free _ _ _ _ _ _ _ _ _ _ _ F4) as L4. pose proof (tf_refs _ _ _ _ _ _ _ _ _ _ _ F4). pose proof (tf_refs _ _ _ _ _ _ _ _ _ _ _ F3).
    rewrite (tf_mms _ _ _ _ _ _ _ _ _ _ _ F4), (tf_mms _ _ _ _ _ _ _ _ _ _ _ F3), (tf_mms _ _ _ _ _ _ _ _ _ _ _ F2).
    split; [cbn in L1; lia|]. split; [rewrite Ev2, Ev1 in *; lia|]. split; [done|].
    split; [by rewrite (tf_length _ _ _ _ _ _ _ _ _ _ _ F4), (tf_length _ _ _ _ _ _ _ _ _ _ _ F3), (tf_length _ _ _ _ _ _ _ _ _ _ _ F2)|].
    split; [etransitivity; [exact M1|]; etransitivity; [apply F2|]; etransitivity; [apply F3|apply F4]|].
    intros t Ht Hn. eapply tf_other, tf_other, tf_other; [exact F4|done|exact F3|done|exact F2|done|]. by rewrite lookup_insert_ne.
Qed.

(** [task_mm_init] without a parent gives the task a zeroed stack page below
    the trap frame, readable and writable by the user, and nothing else the user can
    reach; the other tasks keep their memory. *)
Theorem task_mm_init_new tr satp qt A fl tl s c : tasks_inv A fl tl s → A !! c = None → tl !! c = None →
  (c < length (ts_tasks s))%nat → (10 ≤ length fl)%nat → refs (ts_vmas s) < Z.of_nat (NSLOT_DEFAULT * NVMA_CHUNK) →
  refs (ts_mms s) < Z.of_nat (NSLOT_DEFAULT * NMM_CHUNK) →
  tr = qt * 2 ^ 12 → 0 ≤ qt → tr + PGSIZE ≤ PHY_TOP → 0 ≤ satp < 2 ^ 64 →
  ∃ s' fl' tl' a, task_mm_init tr satp c None s = Ok tt s' ∧ tasks_inv (<[c := a]> A) fl' tl' s' ∧ mem_desc tl' s' c a ∧
    (∀ va, uaddr va → mem_view s' a va = if decide (USTACK ≤ va) then Some (0, STACK_RIGHTS) else None) ∧
    mm_heap s' c = Some 0 ∧ mm_ready tr satp tl' s' c a ∧
    (∀ t b, A !! t = Some b → mem_desc tl s t b → mem_desc tl' s' t b ∧ ∀ va, uaddr va → mem_view s' b va = mem_view s b va).
Proof.
  intros I Hc Htl Hlt Hfl Hrv Hrm Etr Hqt Htr Hsatp.
  destruct (mm_init_new_spec tr satp qt A fl tl s c I Hc Htl Hlt Hfl Hrv Hrm Etr Hqt Htr Hsatp)
    as (s' & fl' & tl' & a & E & I' & D & _ & W & K & Hh & R & _).
  exists s', fl', tl', a. split_and!; try done. intros t b Hb Db.
  destruct (keeps_view fl tl s tl' s' t b (ti_pages _ _ _ _ I) (ti_space _ _ _ _ I t b Hb) Db (K t b Hb)) as [Db' W'].
  split; [done|]. intros va Hva. by apply W'.
Qed.

(** C3: [task_mm_init] for a child gives it a copy of the memory of its parent: at
    every user address the child sees the byte and the rights the parent sees, on
    pages the parent does not have, so that neither sees what the other writes; the
    parent sees what it saw before.  The child inherits the end of the heap and gets
    its own kernel stack and trap frame. *)
Theorem fork_copies_memory tr satp qt A fl tl s c p b : tasks_inv A fl tl s → A !! p = Some b → mem_desc tl s p b →
  A !! c = None → tl !! c = None → (c < length (ts_tasks s))%nat →
  let n := length (sp_vmas b) in
  (4 * n + 6 ≤ length fl)%nat → refs (ts_vmas s) + Z.of_nat n ≤ Z.of_nat (NSLOT_DEFAULT * NVMA_CHUNK) →
  refs (ts_mms s) < Z.of_nat (NSLOT_DEFAULT * NMM_CHUNK) →
  tr = qt * 2 ^ 12 → 0 ≤ qt → tr + PGSIZE ≤ PHY_TOP → 0 ≤ satp < 2 ^ 64 →
  ∃ s' fl' tl' a, task_mm_init tr satp c (Some p) s = Ok tt s' ∧
    tasks_inv (<[c := a]> A) fl' tl' s' ∧ mem_desc tl' s' c a ∧ mem_desc tl' s' p b ∧
    (∀ va, uaddr va → mem_view s' a va = mem_view s b va ∧ mem_view s' b va = mem_view s b va) ∧
    (∀ va va' i, uaddr va → uaddr va' → mem_frame s' a va = Some i → mem_frame s' b va' ≠ Some i) ∧
    mm_heap s' c = mm_heap s p ∧ mm_ready tr satp tl' s' c a.
Proof.
  intros I Hb D Hc Htl Hlt n Hfl Hrv Hrm Etr Hqt Htr Hsatp. assert (Hne : p ≠ c) by (intros ->; congruence).
  destruct (mm_begin_spec A fl tl s c (Some p) I Hc Htl Hlt (conj (mk_is_Some _ _ Hb) Hne) ltac:(lia) Hrm)
    as (s1 & fl1 & i & E1 & I1 & K1 & L1 & Ev1 & _ & T1 & H1 & _). cbn zeta in *.
  set (a1 := MkSpace i {[ [] := i ]} []) in *. set (A1 := <[c := a1]> A) in *.
  assert (Hb1 : A1 !! p = Some b) by (unfold A1; by rewrite lookup_insert_ne).
  destruct (keeps_view fl tl s _ s1 p b (ti_pages _ _ _ _ I) (ti_space _ _ _ _ I p b Hb) D (K1 p b Hb)) as [D1 W1].
  destruct (copy_pagetable_spec c p A1 fl1 _ s1 a1 b (not_eq_sym Hne) I1 (lookup_insert_eq _ _ _) Hb1 (md_good _ _ _ _ D1))
    as (s2 & fl2 & tl2 & pt2 & os & E2 & I2 & F2 & C2 & G2 & T2); [fold n; lia|rewrite Ev1; fold n; lia|].
  unfold A1 in I2. rewrite insert_insert_eq in I2. cbn [sp_vmas sp_root a1 app] in I2.
  set (a2 := MkSpace i pt2 os) in *. set (A2 := <[c := a2]> A) in *.
  assert (Ha2 : A2 !! c = Some a2) by apply lookup_insert_eq.
  assert (Hb2 : A2 !! p = Some b) by (unfold A2; by rewrite lookup_insert_ne).
  pose proof (tf_free _ _ _ _ _ _ _ _ _ _ _ F2) as L2. fold n in L2.
  destruct (mm_end_spec tr satp A2 fl2 tl2 s2 c a2 qt I2 Ha2 ltac:(lia) Etr Hqt Htr Hsatp) as (s3 & fl3 & tl3 & pt3 & E3 & I3 & F3 & T3 & R3).
  cbn zeta in *. unfold A2 in I3. rewrite insert_insert_eq in I3. cbn [sp_vmas sp_root a2] in I3, R3.
  set (a3 := MkSpace i pt3 os) in *.
  assert (Hl2 : ∀ o, o ∈ os → vma_live s2 o) by apply (so_live _ _ _ _ (ti_space _ _ _ _ I2 c a2 Ha2)).
  pose proof (desc_same_task A2 fl2 tl2 s2 c a2 _ _ _ _ _ _ os I2 Ha2 F3 Hl2 G2) as G3.
  assert (Hvals : vma_val s3 <$> os = vma_val s2 <$> os).
  { apply list_fmap_ext. intros k o Ho. apply G3. by eapply list_elem_of_lookup_2. }
  assert (T : ∀ va, uaddr va → trans pt3 (pmem_of s3) va = vtrans (vma_val s3 <$> os) (λ _, 0) va).
  { intros va Hva. rewrite T3 by done. cbn [sp_pt a2]. rewrite T2, Hvals by (by apply uaddr_vaddr). apply vtrans_ext. apply T1. }
  assert (D3 : mem_desc tl3 s3 c a3) by (split; [intros o Ho; by apply G3|done]).
  assert (K12 : keeps _ s1 tl2 s2 p b) by (eapply (tframe_keeps A1); [exact I1|apply lookup_insert_eq|done|done|exact F2]).
  assert (K23 : keeps tl2 s2 tl3 s3 p b) by (eapply (tframe_keeps A2); [exact I2|exact Ha2|done|done|exact F3]).
  destruct (keeps_view fl tl s tl3 s3 p b (ti_pages _ _ _ _ I) (ti_space _ _ _ _ I p b Hb) D) as [Db Wb].
  { eapply keeps_trans, keeps_trans; [apply (K1 p b Hb)|exact K12|exact K23]. }
  exists s3, fl3, tl3, a3. split; [unfold task_mm_init; run E1; unfold mm_fill; by run E2|]. split; [done|]. split; [done|]. split; [done|].
  split; [|split; [|split; [|done]]].
  - intros va Hva. split; [|by apply Wb]. rewrite <- (proj2 (W1 va Hva)). unfold mem_view. cbn [sp_pt a3].
    rewrite T, (md_trans _ _ _ _ D1 va Hva) by done. eapply vtrans_copy; [exact (md_good _ _ _ _ D1)| |done].
    eapply Forall2_impl_in; [exact C2|]. intros x y Hx Hy Hxy. eapply vma_copy_frame; [exact F3|by apply Hl2| |done].
    intros k Ek _. destruct (G2 y Hy) as (j & qa & attr & ty & Ev & _ & _ & Hown & Hpt). rewrite Ev in Ek. injection Ek as Ek.
    apply paddr_inj in Ek as <-. split; [|done]. by apply (owns_page _ _ _ _ _ (ti_pages _ _ _ _ I2) Hown).
  - intros va va' k Hva Hva' Ha Hbb. destruct (desc_frame tl3 s3 c a3 va k D3 Hva Ha) as [O1 _].
    destruct (desc_frame tl3 s3 p b va' k Db Hva' Hbb) as [O2 _]. apply Hne. symmetry. by eapply owns_inj; [apply I3|..].
  - rewrite (tf_heap _ _ _ _ _ _ _ _ _ _ _ c F3), (tf_heap _ _ _ _ _ _ _ _ _ _ _ c F2), H1. cbn [heap_start]. unfold mm_heap.
    destruct (so_mm _ _ _ _ (ti_space _ _ _ _ I p b Hb)) as (o & -> & _). done.
Qed.

(** C4: [clean_mm_source] gives every page of the task back to the free list, frees
    its records and its [mm_struct], and leaves a state in which the task has no
    memory; the other tasks see the memory they saw and keep their heaps. *)
Theorem clean_mm_source_releases A fl tl s t a l : tasks_inv A fl tl s → A !! t = Some a → tl !! t = Some l →
  ∃ s' fl', clean_mm_source t s = Ok tt s' ∧ tasks_inv (delete t A) fl' (delete t tl) s' ∧
    (∀ i, i ∈ fl ∨ i ∈ l → i ∈ fl') ∧ (∀ o, vma_live s' o ↔ vma_live s o ∧ o ∉ sp_vmas a) ∧
    (∃ mm, mm_ptr s t = Some mm ∧ mm_live s mm ∧ ¬ mm_live s' mm) ∧
    (∀ t' b, A !! t' = Some b → t' ≠ t → mm_heap s' t' = mm_heap s t' ∧ (mem_desc tl s t' b →
       mem_desc (delete t tl) s' t' b ∧ ∀ va, uaddr va → mem_view s' b va = mem_view s b va)).
Proof.
  intros I Ha Hl. destruct (tasks_inv_delete A fl tl s t a I Ha) as [Id V]. pose proof (ti_space _ _ _ _ I t a Ha) as So.
  assert (Hdel : delete t A !! t = None) by apply lookup_delete_eq. destruct (so_mm _ _ _ _ So) as (mm & Emm & Hmm).
  destruct (ts_tasks s !! t) as [tm|] eqn:Etm; [|by unfold mm_ptr in Emm; rewrite Etm in Emm].
  assert (Etmm : t_mm tm = Some mm) by (unfold mm_ptr in Emm; by rewrite Etm in Emm).
  assert (Emo : ∀ s2, ts_tasks s2 = ts_tasks s → mm_of t s2 = Ok mm s2).
  { intros s2 E2. unfold mm_of, task_mem. rewrite (bind_deref _ _ _ tm) by (by rewrite E2). by rewrite Etmm. }
  destruct (clean_pages_spec (delete t A) t l fl tl s (S NPAGE) Id Hdel Hl) as (x & E1 & I1 & D1 & M1).
  { pose proof (task_pages_bound _ _ _ _ _ (ti_pages _ _ _ _ I) Hl). lia. }
  set (s1 := set_pm x s) in *. assert (V1 : vlist_ok (delete t A) s1 t (sp_vmas a)) by (destruct V; by split).
  destruct (drop_list_spec (λ _, true) _ _ t _ _ s1 I1 V1 ltac:(by exists mm)) as (s2 & fl2 & E2 & I2 & _ & D2).
  assert (Efil : filter (λ _ : optr, true = true) (sp_vmas a) = sp_vmas a) by (clear; induction (sp_vmas a) as [|o os IH]; [done|]; rewrite filter_cons, decide_True, IH by done; done).
  rewrite Efil in D2. pose proof D2 as [R1 R2 R3 R4 R5 R6 [e2 Efl2] _ _].
  assert (Hptr2 : ∀ t', mm_ptr s2 t' = mm_ptr s t') by (intros t'; unfold mm_ptr; by rewrite R4).
  assert (Hmm2 : ∀ o, mm_live s2 o ↔ mm_live s o) by (intros o; unfold mm_live; by rewrite R5).
  destruct (free_mm_step (delete t A) fl2 _ s2 t mm I2 Hdel) as (s3 & fl3 & E3 & I3 & Ev3 & Et3 & Hd3 & Hk3 & Dd3 & M3 & e3 & Efl3).
  { by rewrite Hptr2. } { by apply Hmm2. }
  { intros t' [b [Hne Hb]%lookup_delete_Some]. rewrite Hptr2. intros E. apply Hne. by apply (ti_mm _ _ _ _ I t t' mm); [eexists..| |]. }
  pose proof (tasks_inv_untl _ _ _ _ t I3 Hdel) as I4. rewrite delete_insert_eq in I4.
  exists s3, fl3. split.
  { unfold clean_mm_source. run (Emo s eq_refl). pose proof (pi_task _ _ _ (ti_pages _ _ _ _ I) t l Hl) as D.
    rewrite (bind_deref s (λ s, ld_next (pg_nodes (ts_pm s).2) (Some (TaskPages t))) _ _ (dlist_first _ _ _ D)).
    run E1. run E2. run (Emo s2 R4). done. }
  split; [done|]. split; [rewrite Efl3, Efl2; set_solver|]. split.
  { intros o. unfold vma_live at 1. rewrite Ev3. apply R1. }
  split; [by exists mm|]. intros t' b Hb Hne. destruct (so_mm _ _ _ _ (ti_space _ _ _ _ I t' b Hb)) as (o & Eo & Hlo).
  assert (o ≠ mm). { intros ->. apply Hne. by apply (ti_mm _ _ _ _ I t' t mm); [eexists..| |]. }
  split.
  - unfold mm_heap. assert (mm_ptr s3 t' = mm_ptr s t') as -> by (unfold mm_ptr; by rewrite Et3, R4). rewrite Eo. cbn. do 2 f_equal.
    rewrite (proj2 (Hk3 o ltac:(done) ltac:(by apply Hmm2))). unfold mm_val. by rewrite R5.
  - intros D. destruct (keeps_view fl tl s (delete t tl) s3 t' b (ti_pages _ _ _ _ I) (ti_space _ _ _ _ I t' b Hb) D) as [Db W]; [|split; [done|by apply W]].
    split.
    + intros i Hi. split; [unfold owns; by rewrite lookup_delete_ne|]. unfold page_data. rewrite Dd3, R3. change (pmem_of s1) with x.2. by rewrite D1.
    + intros x' Hx. assert (Hx2 : vma_live s2 x').
      { apply R1. split; [by apply (so_live _ _ _ _ (ti_space _ _ _ _ I t' b Hb))|]. intros Hx'. by apply Hne, (ti_disj _ _ _ _ I t' t b a x'). }
      assert (vma_val s3 x' = vma_val s2 x') as -> by (unfold vma_val; by rewrite Ev3). by rewrite R2.
Qed.

(** ** The memory system calls *)

(** A store to the [mm_struct] of task [t]. *)
Lemma mm_store_step A fl tl s t o h : tasks_inv A fl tl s → mm_ptr s t = Some o → is_Some (A !! t) →
  let s' := set_mms (store_obj mm0 o (MkMm h)) s in
  tasks_inv A fl tl s' ∧ mm_heap s' t = Some h ∧ ∀ t', t' ≠ t → is_Some (A !! t') → mm_heap s' t' = mm_heap s t'.
Proof.
  intros I Eo [a Ha] s'. assert (Hl : ∀ x, mm_live s' x ↔ mm_live s x) by (intros; apply store_obj_live).
  assert (Hv : ∀ x, mm_val s' x = if decide (o = x) then MkMm h else mm_val s x) by (intros; apply store_obj_same).
  split; [|split].
  - pose proof I as [I1 I2 I3 I4 I5 I6 I7 I8]. split; try done.
    + by apply store_obj_inv.
    + intros t' b Hb. destruct (I5 t' b Hb) as [S1 (o' & H1 & H2) S3 S4 S5 S6 S7]. split; try done. exists o'. by rewrite Hl.
    + intros o1 o2 H1 H2%Hl. by apply I8.
  - unfold mm_heap. change (mm_ptr s' t) with (mm_ptr s t). rewrite Eo. cbn. by rewrite Hv, decide_True.
  - intros t' Hne Ht'. unfold mm_heap. change (mm_ptr s' t') with (mm_ptr s t'). destruct (mm_ptr s t') as [o'|] eqn:Eo'; [|done]. cbn.
    rewrite Hv, decide_False; [done|]. intros ->. by apply Hne, (ti_mm _ _ _ _ I t' t o'); [|eexists| |].
Qed.
(** A state in which task [t] may make the call. *)
Record may_alloc (A : gmap nat space) (fl : list nat) (tl : gmap nat (list nat)) (s : tms) (t : nat) (a : space) (h : Z) : Prop := {
  ma_inv : tasks_inv A fl tl s;
  ma_task : A !! t = Some a;
  ma_desc : mem_desc tl s t a;
  ma_cur : mytask (mach_of s) = Some t;
  ma_heap : mm_heap s t = Some h;
}.
Lemma alloc_start A fl tl s t a h : may_alloc A fl tl s t a h → ∃ mm, mm_ptr s t = Some mm ∧ next_heap (mm_val s mm) = h ∧
  ∀ X (g : nat → optr → Z → TM X), (let! t := mytask_mem in let! mm := mm_of t in
     let! heap := gets (λ s, next_heap (mm_val s mm)) in g t mm heap) s = g t mm h s.
Proof.
  intros [I Ha D Hc Hh]. unfold mm_heap in Hh. destruct (mm_ptr s t) as [mm|] eqn:Emm; [|done]. injection Hh as Hh.
  exists mm. split; [done|]. split; [done|]. intros X g. unfold mm_ptr in Emm. destruct (ts_tasks s !! t) as [tm|] eqn:Etm; [|done]. cbn in Emm.
  unfold mytask_mem. rewrite (bind_deref s (λ s, mytask (ts_pm s).1) _ _ Hc). unfold mm_of, task_mem. go. rewrite (bind_deref _ _ _ tm) by done.
  rewrite Emm. go. by rewrite Hh.
Qed.

(** C23: [sys_alloc] returns the end of the heap and moves it by a page; the page is
    new, zero, readable and writable, and nothing else changes for the caller or the
    other tasks.  When the heap has reached the stack it returns 0 and changes
    nothing. *)
Theorem sys_alloc_grows A fl tl s t a qa : let h := qa * 2 ^ 12 in may_alloc A fl tl s t a h → 0 ≤ qa → h ≤ USTACK →
  (4 ≤ length fl)%nat → refs (ts_vmas s) < Z.of_nat (NSLOT_DEFAULT * NVMA_CHUNK) →
  if decide (h = USTACK) then sys_alloc s = Ok 0 s
  else ∃ s' fl' tl' a', sys_alloc s = Ok h s' ∧ may_alloc (<[t := a']> A) fl' tl' s' t a' (h + PGSIZE) ∧
    (∀ va, uaddr va → mem_view s' a' va =
       if decide (in_range h 1 va) then Some (0, STACK_RIGHTS) else mem_view s a va) ∧
    (∀ t' b, A !! t' = Some b → t' ≠ t → keeps tl s tl' s' t' b ∧ mm_heap s' t' = mm_heap s t').
Proof.
  intros h M Hqa Hus Hfl Hr. destruct (alloc_start A fl tl s t a h M) as (mm & Emm & Emh & Estart). destruct M as [I Ha D Hc Hh].
  unfold sys_alloc. rewrite Estart. change USTACK with ((2 ^ 26 - 3) * 2 ^ 12) in Hus |- * at 1.
  destruct (decide (h = (2 ^ 26 - 3) * 2 ^ 12)) as [E|Hne]; [by rewrite E|].
  change USTACK with ((2 ^ 26 - 3) * 2 ^ 12). rewrite (proj2 (Z.eqb_neq _ _) Hne). destruct fl as [|i fl1]; [cbn in Hfl; lia|].
  destruct (task_page_step A i fl1 tl s t a I Ha) as (s1 & E1 & I1 & F1 & Ev1 & _ & Hz & P1 & O1 & Hnu & T1).
  destruct (owns_page _ _ _ _ _ (ti_pages _ _ _ _ I1) O1) as [Hi _].
  set (attr := Z.lor (Z.lor PTE_U PTE_W) PTE_R). assert (Hargs : page_args qa i attr).
  { split; [done|]. split; [change TRAPFRAME with ((2 ^ 26 - 2) * 2 ^ 12); unfold PGSIZE; lia|]. split; [done|]. change attr with 22. lia. }
  destruct (task_vmmap_step A fl1 _ s1 t a qa i attr HEAP I1 Ha) as (o & s2 & fl2 & tl2 & pt2 & E2 & I2 & F2 & _ & Hv2 & T2);
    [cbn in Hfl; lia|by rewrite Ev1|done|]. fold h in E2, Hv2. cbn zeta in T2. fold h in T2.
  pose proof (tframe_trans _ _ _ _ _ _ _ _ _ _ _ _ _ _ _ _ _ F1 F2) as F. cbn [Nat.add] in F.
  set (a2 := MkSpace (sp_root a) pt2 (sp_vmas a ++ [o])) in *. set (A2 := <[t := a2]> A) in *. assert (Ha2 : A2 !! t = Some a2) by apply lookup_insert_eq.
  assert (Emm2 : mm_ptr s2 t = Some mm).
  { pose proof (tf_tasks _ _ _ _ _ _ _ _ _ _ _ F t) as Ft. unfold mm_ptr in *. destruct (ts_tasks s2 !! t), (ts_tasks s !! t); cbn in *; try done.
    by injection Ft as -> _. }
  assert (Emh2 : next_heap (mm_val s2 mm) = h) by (unfold mm_val; by rewrite (tf_mms _ _ _ _ _ _ _ _ _ _ _ F)).
  assert (Eu : u64 (h + PGSIZE) = h + PGSIZE) by (apply u64_id; unfold PGSIZE, h; lia).
  destruct (mm_store_step A2 fl2 tl2 s2 t mm (h + PGSIZE) I2 Emm2 ltac:(by eexists)) as (I3 & H3 & K3).
  set (s3 := set_mms (store_obj mm0 mm (MkMm (h + PGSIZE))) s2) in *.
  assert (Hl : ∀ x, x ∈ sp_vmas a → vma_live s x) by apply (so_live _ _ _ _ (ti_space _ _ _ _ I t a Ha)).
  pose proof (desc_same_task A (i :: fl1) tl s t a _ _ _ _ _ _ (sp_vmas a) I Ha F Hl (md_good _ _ _ _ D)) as G.
  destruct (tf_plain _ _ _ _ _ _ _ _ _ _ _ F2 i P1) as [P2 D2]. pose proof (tf_owns _ _ _ _ _ _ _ _ _ _ _ _ _ F2 O1) as O2.
  assert (T : ∀ va, uaddr va → trans pt2 (pmem_of s3) va = vstep (vma_val s3 o) (trans (sp_pt a) (pmem_of s)) va).
  { intros va Hva. change (pmem_of s3) with (pmem_of s2). change (vma_val s3 o) with (vma_val s2 o). rewrite Hv2, T2 by (by apply uaddr_vaddr).
    unfold vstep. by rewrite T1. }
  exists s3, fl2, tl2, a2. split; [|split; [|split]].
  - run E1. run E2. go. by rewrite Emh2, Eu.
  - split; [exact I3|exact Ha2| |rewrite (frame_mytask (mach_of s)); [done|apply F]|exact H3]. split.
    + intros x [Hx| ->%list_elem_of_singleton]%elem_of_app; [by apply G|].
      exists i, qa, attr, HEAP. split; [exact Hv2|]. split; [done|]. split; [done|]. split; [done|apply P2].
    + intros va Hva. cbn [sp_pt a2 sp_vmas]. rewrite T, fmap_app, vtrans_app by done. cbn. unfold vstep. case_decide; [done|].
      rewrite (md_trans _ _ _ _ D va Hva). f_equal. apply list_fmap_ext. intros k x Hx. symmetry. apply G. by eapply list_elem_of_lookup_2.
  - intros va Hva. unfold mem_view. cbn [sp_pt a2]. rewrite T by done. change (vma_val s3 o) with (vma_val s2 o). rewrite Hv2. unfold vstep. cbn [v_va v_pa v_attr].
    case_decide as Hin; [|unfold pte_view; destruct (pte_frame _ va) as [j|] eqn:Ej; [|done]].
    + unfold pte_view. destruct (pte_mapped qa i attr va Hargs ltac:(done) Hin) as [Q1 Q2]. fold h in Q1, Q2. rewrite Q1, Q2. cbn [mbind option_bind].
      change (pmem_of s3) with (pmem_of s2). rewrite D2, Hz. unfold zero_page. rewrite lookup_replicate_2; [done|].
      pose proof (Z.mod_pos_bound va 4096 ltac:(lia)). change PGBYTES with 4096%nat. lia.
    + cbn [mbind option_bind]. destruct (desc_frame tl s t a va j D Hva Ej) as [Oj Yj].
      change (pmem_of s3) with (pmem_of s2). rewrite (proj2 (tf_plain _ _ _ _ _ _ _ _ _ _ _ F j ltac:(split; [by apply (owns_page _ _ _ _ _ (ti_pages _ _ _ _ I) Oj)|done]))). done.
  - intros t' b Hb Hnt. split.
    + destruct (tframe_keeps A _ tl s t a _ _ _ _ _ _ t' b I Ha Hb Hnt F) as [K1 K2]. by split.
    + rewrite K3; [|done|unfold A2; rewrite lookup_insert_ne by done; by eexists]. by eapply tf_heap.
Qed.

(** Dropping records changes no byte of memory and no table. *)
Lemma dropped_view os fl s fl' s' b va : dropped os fl s fl' s' → mem_view s' b va = mem_view s b va.
Proof.
  intros D. assert (Hd : ∀ i, page_data (pmem_of s') i = page_data (pmem_of s) i) by (intros i; unfold page_data; by rewrite (dr_data _ _ _ _ _ D)).
  assert (T : trans (sp_pt b) (pmem_of s') va = trans (sp_pt b) (pmem_of s) va).
  { unfold trans, leaf, entry. destruct (sp_pt b !! _); [|done]. by rewrite Hd. }
  unfold mem_view, pte_view. rewrite T. destruct (pte_frame _ va); [|done]. cbn. by rewrite Hd.
Qed.

(** The records [sys_free] drops for an argument: those of the heap with that physical
    address. *)
Definition freed_records (a0 : Z) (s : tms) (a : space) : list optr :=
  if (a0 =? 0) || negb (a0 mod PGSIZE =? 0) then []
  else filter (λ o, v_type (vma_val s o) = HEAP ∧ v_pa (vma_val s o) = a0) (sp_vmas a).
(** C40: [sys_free] always returns -1 and frees no memory of a task: whatever the argument,
    every task sees the memory it saw, byte for byte, and owns the pages it owned.  All it
    does is to drop the records of the heap whose physical address is the argument: the
    caller's list has the others, in order, and only pages that held such records and
    no other may go to the free list.  When there is no such record, as for every address
    below physical memory, the state is the same. *)
Theorem sys_free_frees_nothing A fl tl s t a h a0 : may_alloc A fl tl s t a h →
  let os := freed_records a0 s a in
  ∃ s' fl', sys_free a0 s = Ok (-1) s' ∧
    tasks_inv (<[t := MkSpace (sp_root a) (sp_pt a) (filter (λ o, o ∉ os) (sp_vmas a))]> A) fl' tl s' ∧
    (∀ b va, mem_view s' b va = mem_view s b va) ∧ dropped os fl s fl' s' ∧
    (os = [] → s' = s ∧ fl' = fl) ∧ (a0 < PHY_MEMORY → os = []).
Proof.
  intros M os. pose proof M as [I Ha D Hc Hh].
  assert (Hlow : a0 < PHY_MEMORY → os = []).
  { intros Ha0. unfold os, freed_records. destruct (_ || _); [done|]. apply elem_of_nil_inv. intros o [[_ Hpa] Ho]%list_elem_of_filter.
    destruct (md_good _ _ _ _ D o Ho) as (i & qa & attr & ty & E & _). rewrite E in Hpa. cbn [v_pa] in Hpa.
    unfold paddr_of, PGSIZE in Hpa. lia. }
  destruct (decide (os = [])) as [Eos|Hne].
  - exists s, fl. split; [|split; [|split; [done|split; [rewrite Eos; apply dropped_refl|done]]]].
    + unfold sys_free. destruct (Z.eqb_spec a0 0); [done|]. destruct (negb (a0 mod PGSIZE =? 0)) eqn:Em; [done|].
      unfold mytask_mem. rewrite (bind_deref s (λ s, mytask (ts_pm s).1) _ _ Hc). erewrite bind_ok; [done|].
      eapply drop_list_none; [done..|]. intros o Ho. apply not_true_iff_false. intros [H1%bool_decide_eq_true_1 H2%Z.eqb_eq]%andb_true_iff.
      assert (o ∈ os); [|rewrite Eos in *; by eapply not_elem_of_nil]. unfold os, freed_records.
      rewrite (proj2 (Z.eqb_neq a0 0)), Em by done. by apply list_elem_of_filter.
    + rewrite Eos, (filter_ext_in _ (λ _, True)) by (intros; split; [done|]; intros _; apply not_elem_of_nil).
      assert (filter (λ _, True) (sp_vmas a) = sp_vmas a) as ->.
      { clear. induction (sp_vmas a) as [|o os IH]; [done|]. by rewrite filter_cons, decide_True, IH. }
      rewrite insert_id; [done|]. rewrite Ha. by destruct a.
  - set (sel := λ v, bool_decide (v_type v = HEAP) && (v_pa v =? a0)).
    assert (Eos : (a0 =? 0) = false ∧ negb (a0 mod PGSIZE =? 0) = false ∧ os = filter (λ o, sel (vma_val s o) = true) (sp_vmas a)).
    { unfold os, freed_records in *. destruct (a0 =? 0); [done|]. destruct (negb _); [done|]. split_and!; [done..|].
      cbn [orb]. apply filter_ext_in. intros o _. unfold sel. rewrite andb_true_iff, bool_decide_eq_true, Z.eqb_eq. done. }
    destruct Eos as (E0 & Em & Eos). unfold sys_free. rewrite E0, Em. unfold mytask_mem.
    rewrite (bind_deref s (λ s, mytask (ts_pm s).1) _ _ Hc).
    destruct (drop_records_spec sel A fl tl s t a I Ha) as (s' & fl' & E & I' & Dr). run E. cbn zeta in I'.
    exists s', fl'. split; [done|]. split; [|split; [intros b va; by eapply dropped_view|split; [by rewrite Eos|done]]].
    rewrite (filter_ext_in (λ o, o ∉ os) (λ o, sel (vma_val s o) = false)); [exact I'|].
    intros o Ho. rewrite Eos, list_elem_of_filter. destruct (sel (vma_val s o)); split; [|done|done|]; [intros Hn; destruct Hn; by split|by intros _ [? _]].
Qed.

(** [reset_vma], which [sys_exec] calls to drop the old program, removes the
    records of text, data and heap, but no page and no mapping: the task sees the old
    memory and owns its pages until it exits. *)
Theorem reset_vma_keeps_memory A fl tl s t a : tasks_inv A fl tl s → A !! t = Some a →
  ∃ s' fl', reset_vma t s = Ok tt s' ∧
    let a' := MkSpace (sp_root a) (sp_pt a) (filter (λ o, v_type (vma_val s o) = STACK) (sp_vmas a)) in
    tasks_inv (<[t := a']> A) fl' tl s' ∧ (∀ b va, mem_view s' b va = mem_view s b va) ∧
    (∀ o, o ∈ sp_vmas a → v_type (vma_val s o) ≠ STACK → ¬ vma_live s' o).
Proof.
  intros I Ha. set (sel := λ v, negb (bool_decide (v_type v = STACK))).
  destruct (drop_records_spec sel A fl tl s t a I Ha) as (s' & fl' & E & I' & Dr). exists s', fl'. split; [exact E|]. cbn zeta in *.
  rewrite (filter_ext_in (λ o, v_type (vma_val s o) = STACK) (λ o, sel (vma_val s o) = false)).
  2: { intros o _. unfold sel. destruct (decide (v_type (vma_val s o) = STACK)) as [Hs|Hs].
       - rewrite bool_decide_eq_true_2 by done. done.
       - rewrite bool_decide_eq_false_2 by done. done. }
  split; [exact I'|]. split; [intros b va; by eapply dropped_view|].
  intros o Ho Hty Hl. apply (dr_live _ _ _ _ _ Dr) in Hl as [_ Hn]. apply Hn, list_elem_of_filter. split; [|done].
  unfold sel. by rewrite bool_decide_eq_false_2.
Qed.

(** ** A first task and its child *)

Definition boot_tms : tms :=
  MkTms (mach0, boot_mem) init_slots init_slots ∅ (replicate NPROC (MkTmem None 0 0 0)).
(** The trampoline in the first page of the kernel. *)
Definition tramp0 : Z := 2 ^ 19 * 2 ^ 12.
Lemma boot_tms_inv : tasks_inv ∅ (1%nat :: 2%nat :: 3%nat :: 4%nat :: 5%nat :: seq 6 (NPAGE - 6)) ∅ boot_tms.
Proof.
  destruct boot_mem_run as [_ I]. split; [exact I|apply init_slots_inv|apply init_slots_inv|exact mach0_quiet| | | |].
  - intros t a Ht. by rewrite lookup_empty in Ht.
  - intros t t' a a' o Ht. by rewrite lookup_empty in Ht.
  - intros t t' o [a Ht]. by rewrite lookup_empty in Ht.
  - intros o o' (k & sl & Hk & Hs & _) _. exfalso. destruct k as [|[|[|k]]]; cbn in Hk; try discriminate Hk; injection Hk as <-; discriminate Hs.
Qed.

(** The first task: its stack and nothing else. *)
Lemma task0_state : ∃ s fl tl a, task_mm_init tramp0 (2 ^ 63) 0 None boot_tms = Ok tt s ∧ may_alloc {[ 0%nat := a ]} fl tl s 0 a (0 * 2 ^ 12) ∧
  length (sp_vmas a) = 1%nat ∧ (100 ≤ length fl)%nat ∧ refs (ts_vmas s) = 1 ∧ refs (ts_mms s) = 1 ∧ length (ts_tasks s) = NPROC ∧
  tl !! 1%nat = None.
Proof.
  pose proof NPAGE_Z as HN.
  destruct (mm_init_new_spec tramp0 (2 ^ 63) (2 ^ 19) ∅ _ ∅ boot_tms 0 boot_tms_inv (lookup_empty _) (lookup_empty _))
    as (s & fl & tl & a & E & I & D & Hn & _ & _ & Hh & _ & Hfl & Hv & Hm & Hts & Hmf & Htl);
    [unfold boot_tms; cbn [ts_tasks]; rewrite length_replicate; unfold NPROC; lia|cbn [length]; rewrite length_seq; lia|done|done|done|lia|done|lia|].
  cbn [length] in Hfl. rewrite length_seq in Hfl.
  exists s, fl, tl, a. rewrite insert_empty in I. split_and!; [exact E| |exact Hn|lia|exact Hv|exact Hm| |].
  - split; [exact I|apply lookup_singleton_eq|exact D| |exact Hh]. rewrite (frame_mytask _ _ Hmf). reflexivity.
  - rewrite Hts. unfold boot_tms. cbn [ts_tasks]. by rewrite length_replicate.
  - by apply Htl.
Qed.
Lemma task_mm_init_new_witness : ∃ s' a, task_mm_init tramp0 (2 ^ 63) 0 None boot_tms = Ok tt s' ∧
  mem_view s' a USTACK = Some (0, 23) ∧ mem_view s' a 0 = None.
Proof.
  pose proof NPAGE_Z as HN.
  destruct (task_mm_init_new tramp0 (2 ^ 63) (2 ^ 19) ∅ _ ∅ boot_tms 0 boot_tms_inv (lookup_empty _) (lookup_empty _))
    as (s & fl & tl & a & E & I & D & W & _);
    [unfold boot_tms; cbn [ts_tasks]; rewrite length_replicate; unfold NPROC; lia|cbn [length]; rewrite length_seq; lia|done|done|done|lia|done|lia|].
  exists s, a. split; [exact E|]. rewrite !W by (split; vm_compute; congruence). split; reflexivity.
Defined.
Lemma fork_copies_memory_witness : ∃ s1 s2 a b, task_mm_init tramp0 (2 ^ 63) 0 None boot_tms = Ok tt s1 ∧
  task_mm_init tramp0 (2 ^ 63) 1 (Some 0%nat) s1 = Ok tt s2 ∧ (∀ va, uaddr va → mem_view s2 b va = mem_view s1 a va).
Proof.
  destruct task0_state as (s & fl & tl & a & E & [I Ha D Hc Hh] & Hn & Hfl & Hv & Hm & Hts & Htl).
  destruct (fork_copies_memory tramp0 (2 ^ 63) (2 ^ 19) _ fl tl s 1 0 a I Ha D) as (s2 & fl2 & tl2 & b & E2 & _ & _ & _ & W & _);
    [by rewrite lookup_singleton_ne|exact Htl|rewrite Hts; unfold NPROC; lia|rewrite Hn; lia|rewrite Hv, Hn; unfold NVMA_CHUNK, NSLOT_DEFAULT; lia
    |rewrite Hm; unfold NMM_CHUNK, NSLOT_DEFAULT; lia|reflexivity|lia|by vm_compute|lia|].
  exists s, s2, a, b. split; [exact E|]. split; [exact E2|]. intros va Hva. apply W. exact Hva.
Defined.
Lemma clean_mm_source_releases_witness : ∃ s1 s2 mm, task_mm_init tramp0 (2 ^ 63) 0 None boot_tms = Ok tt s1 ∧
  clean_mm_source 0 s1 = Ok tt s2 ∧ mm_live s1 mm ∧ ¬ mm_live s2 mm.
Proof.
  destruct task0_state as (s & fl & tl & a & E & [I Ha D Hc Hh] & _).
  destruct (so_pages _ _ _ _ (ti_space _ _ _ _ I 0%nat a Ha)) as [l Hl].
  destruct (clean_mm_source_releases _ fl tl s 0 a l I Ha Hl) as (s2 & fl2 & E2 & _ & _ & _ & (mm & _ & H1 & H2) & _).
  exists s, s2, mm. split; [exact E|]. split; [exact E2|]. split; [exact H1|exact H2].
Defined.
Lemma sys_alloc_grows_witness : ∃ s1 s2 a, task_mm_init tramp0 (2 ^ 63) 0 None boot_tms = Ok tt s1 ∧
  sys_alloc s1 = Ok 0 s2 ∧ mm_heap s2 0 = Some 4096 ∧ mem_view s2 a 100 = Some (0, 23).
Proof.
  destruct task0_state as (s & fl & tl & a & E & M & Hn & Hfl & Hv & _).
  pose proof (sys_alloc_grows _ fl tl s 0 a 0 M ltac:(lia) ltac:(by vm_compute) ltac:(lia) ltac:(rewrite Hv; unfold NVMA_CHUNK, NSLOT_DEFAULT; lia)) as Ht.
  rewrite decide_False in Ht by (by vm_compute). destruct Ht as (s2 & fl2 & tl2 & a2 & E2 & M2 & W & _).
  exists s, s2, a2. split; [exact E|]. split; [exact E2|]. split; [exact (ma_heap _ _ _ _ _ _ _ M2)|].
  rewrite W by (split; vm_compute; congruence). rewrite decide_True by (unfold in_range; vm_compute; split; congruence). reflexivity.
Defined.
Lemma sys_free_frees_nothing_witness : ∃ s1 s2, task_mm_init tramp0 (2 ^ 63) 0 None boot_tms = Ok tt s1 ∧
  sys_free 4096 s1 = Ok (-1) s2 ∧ ∀ b va, mem_view s2 b va = mem_view s1 b va.
Proof.
  destruct task0_state as (s & fl & tl & a & E & M & _).
  destruct (sys_free_frees_nothing _ fl tl s 0 a _ 4096 M) as (s2 & fl2 & E2 & _ & W & _).
  exists s, s2. split; [exact E|]. split; [exact E2|exact W].
Defined.
Lemma reset_vma_keeps_memory_witness : ∃ s1 s2, task_mm_init tramp0 (2 ^ 63) 0 None boot_tms = Ok tt s1 ∧
  reset_vma 0 s1 = Ok tt s2 ∧ ∀ b va, mem_view s2 b va = mem_view s1 b va.
Proof.
  destruct task0_state as (s & fl & tl & a & E & [I Ha _ _ _] & _).
  destruct (reset_vma_keeps_memory _ fl tl s 0 a I Ha) as (s2 & fl2 & E2 & _ & W & _).
  exists s, s2. split; [exact E|]. split; [exact E2|exact W].
Defined.
