(* ===== verification/FsResults.v ===== *)
(** Results on the file system: the buffer cache, block and inode allocation,
    inodes, directories and files, with runs on the disk of Boot. *)
From S2P Require Import Prelude Bytes CString Machine BlockIO Bio Fs Inode Dir PageAlloc Vm Pipe Slot File Boot.
#[local] Existing Instance Cache.bio_io.

(** ** The buffer cache *)

(** C18: a block read through the cache has the contents of the disk; after it is
    rewritten with [bwrite] and released, reading it again gives the new contents,
    and no other block of the disk changes. *)
Theorem cache_write_read {D} `{DiskDriver D} (s : mach * Cache.bcache) n d :
  bio_ok s → blk n → n ≠ 0 → room 1 s → not_held s n → is_block d →
  ∃ b s1 s2 s3 b' s4, Cache.bread ROOTDEV n s = Ok b s1 ∧ bdata s1 b = bio_disk s n ∧
    Cache.bwrite b (bset b d s1) = Ok tt s2 ∧ Cache.brelse b s2 = Ok tt s3 ∧
    Cache.bread ROOTDEV n s3 = Ok b' s4 ∧ bdata s4 b' = d ∧
    ∀ k, blk k → k ≠ n → bio_disk s4 k = bio_disk s k.
Proof.
  intros Hok Hn Hn0 Hr Hh Hd. destruct (io_bread_owns s n Hok Hn Hn0 Hr Hh) as (b & s1 & E1 & O).
  destruct (owns_rewrite _ _ _ _ _ _ _ O Hd) as (s2 & s3 & E2 & E3 & St).
  destruct (io_bread_owns s3 n) as (b' & s4 & E4 & O4);
    [apply St|done|done|by eapply io_step_room|by eapply io_step_not_held|].
  exists b, s1, s2, s3, b', s4. split; [done|]. split; [by eapply owns_data|]. do 3 (split; [done|]).
  destruct (owns_data _ _ _ _ _ _ O4) as [-> _]. rewrite (st_disk _ _ _ St) by done. unfold comp, wr, keep.
  split; [by rewrite decide_True|]. intros k Hk Hne. rewrite (ow_disk _ _ _ _ _ _ O4) by done. unfold keep.
  rewrite (st_disk _ _ _ St) by done. unfold comp, wr, keep. by rewrite decide_False.
Qed.
Lemma cache_write_read_witness : ∃ b s1 s2 s3 b' s4, Cache.bread ROOTDEV 7 fs_state = Ok b s1 ∧
  Cache.bwrite b (bset b zero_block s1) = Ok tt s2 ∧ Cache.brelse b s2 = Ok tt s3 ∧
  Cache.bread ROOTDEV 7 s3 = Ok b' s4 ∧ bdata s4 b' = zero_block.
Proof.
  destruct (cache_write_read fs_state 7 zero_block) as (b & s1 & s2 & s3 & b' & s4 & E1 & _ & E2 & E3 & E4 & E5 & _);
    [apply fs_state_ok|by split|done|apply fs_state_room; unfold NIOBUF; lia|apply fs_state_held|apply zero_block_ok|].
  exists b, s1, s2, s3, b', s4. exact (conj E1 (conj E2 (conj E3 (conj E4 E5)))).
Defined.

(** A task that reads a block whose buffer it already holds stops the
    machine: the sleep lock of the buffer is not recursive. *)
Theorem cache_reread_panics {D} `{DiskDriver D} (s : mach * Cache.bcache) n :
  bio_ok s → blk n → n ≠ 0 → room 1 s → not_held s n →
  ∃ b s1 s2, Cache.bread ROOTDEV n s = Ok b s1 ∧ Cache.bread ROOTDEV n s1 = Panic "sleep_get" s2.
Proof.
  intros Hok Hn Hn0 Hr Hh. destruct (io_bread_owns s n Hok Hn Hn0 Hr Hh) as (b & s1 & E1 & O).
  destruct (bread_again s1 b n (bio_disk s n)) as (s2 & E2); [apply O|by eapply owns_held|].
  by exists b, s1, s2.
Qed.
Lemma cache_reread_panics_witness : ∃ b s1 s2,
  Cache.bread ROOTDEV 7 fs_state = Ok b s1 ∧ Cache.bread ROOTDEV 7 s1 = Panic "sleep_get" s2.
Proof.
  apply (cache_reread_panics fs_state 7);
    [apply fs_state_ok|by split|done|apply fs_state_room; unfold NIOBUF; lia|apply fs_state_held].
Defined.

(** ** Allocation of blocks and inodes *)
Section alloc_results.
Context {S : Type} {IO : BlockIO S}.
Implicit Types (s : S).

(** C19: [balloc] takes the first block the map marks unused, or stops the machine
    when all are used; [bfree] of that block restores the disk, and a second
    [bfree] of it stops the machine. *)
Theorem balloc_bfree sb s : sb_wf sb → area_free (sb_bmap sb) (sb_blocks sb) s →
  (∃ e s1 s2 s3, balloc sb s = Ok e s1 ∧ data_blk sb e ∧ used sb (bio_disk s) e = false ∧
     (∀ e', sb_blocks sb ≤ e' < e → used sb (bio_disk s) e' = true) ∧ used sb (bio_disk s1) e = true ∧
     bfree sb e s1 = Ok tt s2 ∧ (∀ k, blk k → bio_disk s2 k = bio_disk s k) ∧
     bfree sb e s2 = Panic "bfree: double free" s3) ∨
  (∃ s1, balloc sb s = Panic "balloc: space exhausted" s1 ∧ ∀ e, data_blk sb e → used sb (bio_disk s) e = true).
Proof.
  intros WF Ha. pose proof (wf_ranges sb WF) as (W1 & W2 & W3). pose proof WF as [_ B1 B2 B3 B4 B5].
  destruct (balloc_spec sb WF s Ha) as [(g & s1 & E1 & Hg & Hb & Hlow & St)|(s1 & E1 & Hall & _)].
  2: { right. exists s1. split; [done|]. intros e He. unfold used. apply Hall. unfold data_blk in He. lia. }
  left. pose proof (map_blk_bound (sb_bmap sb) g _ Hg) as Hbb.
  assert (Hmb : blk (map_blk (sb_bmap sb) g)) by (unfold blk; lia).
  assert (Hblk : ∀ k, blk k → is_block (bio_disk s k)) by (intros k Hk; apply bio_disk_block; [apply Ha|done]).
  assert (Hset : map_bit (bio_disk s1) (sb_bmap sb) g = true).
  { unfold map_bit. rewrite (st_disk _ _ _ St) by done. pose proof (map_set_bit (bio_disk s) (sb_bmap sb) g g (Hblk _ Hmb)) as H.
    rewrite decide_True in H by done. exact H. }
  pose proof (bfree_run sb WF s1 g (area_free_step _ _ _ _ _ St Ha) Hg) as Hf. rewrite Hset in Hf.
  destruct Hf as (s2 & E2 & St2).
  assert (Hdisk : ∀ k, blk k → bio_disk s2 k = bio_disk s k).
  { intros k Hk. rewrite (st_disk _ _ _ St2), (st_disk _ _ _ St) by done. apply map_clear_set; [by apply Hblk|]. by intros ->. }
  assert (Ha2 : area_free (sb_bmap sb) (sb_blocks sb) s2) by (eapply area_free_step, area_free_step, Ha; eassumption).
  pose proof (bfree_run sb WF s2 g Ha2 Hg) as Hf. unfold map_bit in Hf at 1. rewrite Hdisk in Hf by done.
  unfold map_bit in Hb. rewrite Hb in Hf. destruct Hf as (s3 & E3).
  exists (sb_blocks sb + g), s1, s2, s3. split; [done|]. split; [unfold data_blk; lia|].
  unfold used. replace (sb_blocks sb + g - sb_blocks sb) with g by lia. split; [done|]. split.
  { intros e' He'. apply Hlow. lia. }
  done.
Qed.

(** [ialloc] marks the first inode the map has unused, but the number it
    returns is that inode's only for the first 64 inodes of each map block; for
    every other inode it returns a different number. *)
Lemma ialloc_number sb s : sb_wf sb → imap_free sb s → (sb_inodes sb - sb_imap sb) * 8192 < 2 ^ 31 →
  (∃ g r s', ialloc sb s = Ok r s' ∧ map_bit (bio_disk s) (sb_imap sb) g = false ∧
     (∀ g', 0 ≤ g' < g → map_bit (bio_disk s) (sb_imap sb) g' = true) ∧ io_step (map_set (sb_imap sb) g) s s' ∧
     if decide (g mod 8192 < 64) then r = g else r ≠ g) ∨
  (∃ s', ialloc sb s = Panic "ialloc: dinode exhausted" s').
Proof.
  intros WF Hi Hn. destruct (ialloc_spec sb WF s Hi Hn) as [(g & s' & E & Hg & Hb & Hlow & St)|(s' & E & _)]; [|by right; eexists].
  left. exists g, (ialloc_ret g), s'. do 4 (split; [done|]). unfold ialloc_ret.
  pose proof (Z.div_mod g 8192 ltac:(lia)). pose proof (Z.mod_pos_bound g 8192 ltac:(lia)) as Hm.
  pose proof (Z.div_mod (g mod 8192) 64 ltac:(lia)).
  assert (g mod 64 = (g mod 8192) mod 64) as E64.
  { rewrite (Z.div_mod g 8192) at 1 by lia. replace (8192 * (g / 8192) + g mod 8192) with (g mod 8192 + (128 * (g / 8192)) * 64) by lia.
    by rewrite Z.mod_add by lia. }
  case_decide as Hc.
  - assert ((g mod 8192) / 64 = 0) by (apply Z.div_small; lia). lia.
  - assert (1 ≤ (g mod 8192) / 64) by (apply Z.div_le_lower_bound; lia). lia.
Qed.

(** ** Inodes *)

(** [iupdate] stores an inode on disk so that reading it back with [iread]
    gives the same fields, and the inodes with other numbers stay as they are. *)
Theorem inode_write_read sb s l i a : sb_wf sb → slot_of sb l i a → 0 ≤ i_inum a < ninodes sb → di_wf (i_di a) →
  itable_free sb s →
  ∃ s1 s2, iupdate i (s, l) = Ok tt (s1, l) ∧ iread i (s1, l) = Ok tt (s2, l) ∧
    ∀ inum, 0 ≤ inum < ninodes sb → inum ≠ i_inum a →
      disk_inode sb (bio_disk s2) inum = disk_inode sb (bio_disk s) inum.
Proof.
  intros WF Hs Hi Hd Ht. destruct (iupdate_spec sb WF s l i a Hs Hi Hd Ht) as (s1 & E1 & St1).
  destruct (iread_spec sb WF s1 l i a Hs Hi) as (s2 & E2 & St2); [by eapply area_free_step|].
  destruct (blockno_bound sb (i_inum a) WF Hi) as [_ Hb]. pose proof (wf_ranges sb WF) as (_ & _ & W). pose proof WF as [_ ? ? ? ? ?].
  assert (Hdi : ∀ inum, 0 ≤ inum < ninodes sb → disk_inode sb (bio_disk s1) inum =
    if decide (inum = i_inum a) then i_di a else disk_inode sb (bio_disk s) inum).
  { intros inum Hn. destruct (blockno_bound sb inum WF Hn) as [_ Hb'].
    rewrite <- (wr_inode_get sb (bio_disk s) (i_inum a) inum (i_di a)); try done.
    - unfold disk_inode. by rewrite (st_disk _ _ _ St1) by (unfold blk; lia).
    - apply bio_disk_block; [apply Ht|]. unfold blk. lia. }
  exists s1, s2. split; [done|]. split.
  - rewrite E2, Hdi, decide_True by done. do 3 f_equal. destruct Hs as (E & _).
    apply list_insert_id. rewrite E. by destruct a.
  - intros inum Hn Hne. destruct (blockno_bound sb inum WF Hn) as [_ Hb']. transitivity (disk_inode sb (bio_disk s1) inum).
    + unfold disk_inode. by rewrite (st_disk _ _ _ St2) by (unfold blk; lia).
    + rewrite Hdi by done. by rewrite decide_False.
Qed.

(** The cache after [iget] has the inode in one slot only. *)
Lemma find_unique {A} (f : A → bool) l x : x ∈ l → f x = true → (∀ y, y ∈ l → f y = true → y = x) → List.find f l = Some x.
Proof.
  intros Hx Hf Hu. destruct (List.find f l) as [y|] eqn:E.
  - apply List.find_some in E as [Hy Hfy]. f_equal. apply Hu; [by apply list_elem_of_In|done].
  - apply find_none_iff in E. by rewrite Forall_forall in E; rewrite E in Hf.
Qed.
Lemma hit_at_Some sb inum l i : hit_at sb inum l i = true ↔ ∃ a, l !! i = Some a ∧ i_sb a = Some sb ∧ i_inum a = inum.
Proof.
  unfold hit_at. destruct (l !! i) as [a|]; [|by split; [|intros (? & ? & _)]].
  rewrite andb_true_iff, bool_decide_eq_true, Z.eqb_eq. naive_solver.
Qed.
Lemma iget_result_inv sb inum s l i l1 : icache_inv l → iget_result sb inum s l = Some (Some (i, l1)) →
  icache_inv l1 ∧ (i < NINODE)%nat ∧ ∃ a, l1 !! i = Some a ∧ i_sb a = Some sb ∧ i_inum a = inum.
Proof.
  intros [I1 I2 I3] E. unfold iget_result in E.
  destruct (List.find (hit_at sb inum l) (seq 0 NINODE)) as [j|] eqn:Eh.
  - injection E as -> <-. apply List.find_some in Eh as [Hin Hh]. apply list_elem_of_In, elem_of_seq in Hin.
    apply hit_at_Some in Hh as (a & Ea & Hsb & Hn). rewrite (list_alter_insert _ _ _ _ Ea).
    pose proof (lookup_lt_Some _ _ _ Ea) as Hlt. split; [|split; [lia|exists (inc_ref a); by rewrite list_lookup_insert_eq]].
    apply (icache_inv_refc l i a (λ v, u32 (v + 1))); [by split|done|]. intros v. apply u32_bound.
  - destruct (map_bit (bio_disk s) (sb_imap sb) inum); cbn [negb] in E; [|done].
    destruct (List.find (free_at l) (seq 0 NINODE)) as [j|] eqn:Ef; [|done]. injection E as -> <-.
    apply List.find_some in Ef as [Hin Hf]. apply list_elem_of_In, elem_of_seq in Hin. unfold free_at in Hf.
    destruct (l !! i) as [a|] eqn:Ea; [|done]. pose proof (lookup_lt_Some _ _ _ Ea) as Hlt.
    rewrite (list_alter_insert _ _ _ _ Ea). set (a' := set_di _ _). split; [|split; [lia|exists a'; by rewrite list_lookup_insert_eq]].
    assert (Hno : ∀ k b, l !! k = Some b → i_sb b = Some sb → i_inum b = inum → False).
    { intros k b Ek Hs Hn. apply find_none_iff in Eh. rewrite Forall_forall in Eh.
      pose proof (lookup_lt_Some _ _ _ Ek). assert (hit_at sb inum l k = true) as Hh by (apply hit_at_Some; eauto).
      rewrite Eh in Hh; [done|]. apply elem_of_seq. lia. }
    assert (Hl : ∀ k b, <[i := a']> l !! k = Some b → (k = i ∧ b = a') ∨ (k ≠ i ∧ l !! k = Some b)).
    { intros k b Ek. destruct (decide (k = i)) as [->|Hne]; [left; rewrite list_lookup_insert_eq in Ek by done; by injection Ek as <-|].
      right. by rewrite list_lookup_insert_ne in Ek by done. }
    split; [by rewrite length_insert| |].
    + intros k b [[_ ->]|[_ Ek]]%Hl; [|by apply (I2 k)]. destruct (I2 i a Ea) as (H1 & _ & _). split; [done|]. split; [|cbn; lia].
      cbn. unfold disk_inode, dinode_decode. cbn. by rewrite length_fmap, length_seq.
    + intros k k' b b' [[-> ->]|[Hk Ek]]%Hl [[-> ->]|[Hk' Ek']]%Hl Hs Hsb Hn; [done| | |by apply (I3 k k' b b')].
      * exfalso. by apply (Hno k' b' Ek').
      * exfalso. by apply (Hno k b Ek); rewrite ?Hsb, ?Hn.
Qed.

(** An inode is cached at most once: a second [iget] of the same number
    returns the slot of the first and only raises its reference count. *)
Theorem iget_twice sb s l inum : sb_wf sb → icache_inv l → 0 ≤ inum < ninodes sb →
  inum < (sb_inodes sb - sb_imap sb) * BIT_CNT_PER_BLOCK → imap_free sb s → itable_free sb s →
  match iget_result sb inum s l with
  | Some (Some (i, l1)) => ∃ s1 s2, iget sb inum (s, l) = Ok (Some i) (s1, l1) ∧
      iget sb inum (s1, l1) = Ok (Some i) (s2, alter inc_ref i l1) ∧ ∀ k, blk k → bio_disk s2 k = bio_disk s k
  | Some None => ∃ s1, iget sb inum (s, l) = Ok None (s1, l) ∧ map_bit (bio_disk s) (sb_imap sb) inum = false
  | None => ∃ x, iget sb inum (s, l) = Panic "iget: icache exhausted" x
  end.
Proof.
  intros WF Hic Hi Hb Him Hit. pose proof (iget_spec sb WF inum s l Hic Hi Hb Him Hit) as H.
  destruct (iget_result sb inum s l) as [[[i l1]|]|] eqn:Er; [|destruct H as (s1 & E & _)|done].
  2: { exists s1. split; [done|]. unfold iget_result in Er. destruct (List.find (hit_at sb inum l) (seq 0 NINODE)); [done|].
       destruct (map_bit (bio_disk s) (sb_imap sb) inum); [|done]. by destruct (List.find (free_at l) (seq 0 NINODE)). }
  destruct H as (s1 & E1 & St1). destruct (iget_result_inv _ _ _ _ _ _ Hic Er) as (Hic1 & Hin & a & Ea & Hsb & Hn).
  pose proof (iget_spec sb WF inum s1 l1 Hic1 Hi Hb (area_free_step _ _ _ _ _ St1 Him) (area_free_step _ _ _ _ _ St1 Hit)) as H2.
  assert (List.find (hit_at sb inum l1) (seq 0 NINODE) = Some i) as Ef.
  { apply find_unique; [apply elem_of_seq; lia|apply hit_at_Some; eauto|]. intros k _ (b & Ek & Hsb' & Hn')%hit_at_Some.
    apply (ic_key _ Hic1 k i b a); try done; congruence || by eexists. }
  unfold iget_result in H2. rewrite Ef in H2. destruct H2 as (s2 & E2 & St2).
  exists s1, s2. split; [done|]. split; [done|]. intros k Hk. by rewrite (st_disk _ _ _ St2), (st_disk _ _ _ St1).
Qed.
End alloc_results.

(** The four on the disk of Boot: block 9 is the first unused one, inode 2 the first
    unused one, inode 1 is the file. *)
Lemma balloc_bfree_witness : sb_wf sb0 ∧ area_free (sb_bmap sb0) (sb_blocks sb0) fs_state ∧
  ((∃ e s1 s2 s3, balloc sb0 fs_state = Ok e s1 ∧ bfree sb0 e s1 = Ok tt s2 ∧ bfree sb0 e s2 = Panic "bfree: double free" s3) ∨
   (∃ s1, balloc sb0 fs_state = Panic "balloc: space exhausted" s1)).
Proof.
  split; [apply sb0_wf|]. split; [apply fs_state_area|].
  destruct (balloc_bfree sb0 fs_state sb0_wf (fs_state_area _ _)) as [(e & s1 & s2 & s3 & E1 & _ & _ & _ & _ & E2 & _ & E3)|(s1 & E & _)].
  - left. exists e, s1, s2, s3. exact (conj E1 (conj E2 E3)).
  - right. by exists s1.
Defined.
Lemma ialloc_number_witness : (∃ g r s', ialloc sb0 fs_state = Ok r s' ∧ map_bit (bio_disk fs_state) (sb_imap sb0) g = false) ∨
  (∃ s', ialloc sb0 fs_state = Panic "ialloc: dinode exhausted" s').
Proof.
  destruct (ialloc_number sb0 fs_state sb0_wf (fs_state_area _ _) ltac:(by vm_compute)) as [(g & r & s' & E & Hb & _)|H].
  - left. exists g, r, s'. exact (conj E Hb).
  - by right.
Defined.
Lemma inode_write_read_witness : ∃ s1 s2, iupdate 1 (fs_state, icache0) = Ok tt (s1, icache0) ∧
  iread 1 (s1, icache0) = Ok tt (s2, icache0).
Proof.
  destruct (inode_write_read sb0 fs_state icache0 1 in_file sb0_wf slot_file) as (s1 & s2 & E1 & E2 & _).
  - by vm_compute.
  - apply di_file_wf.
  - apply fs_state_area.
  - exists s1, s2. exact (conj E1 E2).
Defined.
Lemma iget_twice_witness : ∃ s1 s2, iget sb0 1 (fs_state, icache0) = Ok (Some 1%nat) (s1, alter inc_ref 1%nat icache0) ∧
  iget sb0 1 (s1, alter inc_ref 1%nat icache0) = Ok (Some 1%nat) (s2, alter inc_ref 1%nat (alter inc_ref 1%nat icache0)).
Proof.
  pose proof (iget_twice sb0 fs_state icache0 1 sb0_wf icache0_inv ltac:(by vm_compute) ltac:(by vm_compute)
    (fs_state_area _ _) (fs_state_area _ _)) as (s1 & s2 & E1 & E2 & _).
  exists s1, s2. exact (conj E1 E2).
Defined.
