(* ===== verification/FileResults.v ===== *)
(** Results on files: releasing the blocks of an inode, growing a file, and reading
    back what was written, with runs on the disk of Boot. *)
From S2P Require Import Prelude Bytes CString Machine BlockIO Bio Fs Inode Dir PageAlloc Vm Pipe Slot File Boot.
#[local] Existing Instance Cache.bio_io.

Section file_results.
Context {S : Type} {IO : BlockIO S} {U : Type} {UM : UserMem U}.
Implicit Types (s : S) (x : (pmem * slots file) * (list pipe * U)).

(** [itrunc] releases exactly the blocks of the file, the index blocks with
    the blocks they list: each of them is cleared and marked unused, every other
    data block keeps its contents and its mark, and the inode is empty. *)
Theorem itrunc_releases sb s l i a : sb_wf sb → slot_of sb l i a → let ib := di_iblock (i_di a) in
  length ib = NIBLOCK → zeros_tail 0 ib → bmap_free sb 2 s →
  let bs := file_blocks (bio_disk s) ib NIBLOCK 0 in
  NoDup bs → Forall (freeable sb s) bs →
  ∃ s' a', itrunc i (s, l) = Ok tt (s', <[i := a']> l) ∧ di_fsize (i_di a') = 0 ∧
    di_iblock (i_di a') = replicate NIBLOCK 0 ∧ i_inum a' = i_inum a ∧
    ∀ e, data_blk sb e →
      used sb (bio_disk s') e = (if decide (e ∈ bs) then false else used sb (bio_disk s) e) ∧
      bio_disk s' e = (if decide (e ∈ bs) then zero_block else bio_disk s e).
Proof.
  intros WF Hs ib Hl Hz Hb bs Hnd Hfr. destruct (itrunc_spec sb WF i s l a Hs Hl Hz Hb Hnd Hfr) as (s' & E & St).
  eexists s', _. split; [exact E|]. do 3 (split; [done|]). intros e He. fold ib bs in St.
  assert (Hd : Forall (data_blk sb) bs) by (eapply Forall_impl; [exact Hfr|]; by intros ? (? & _)).
  destruct (data_blk_range sb WF e He) as (_ & Hbe & Hge & _). split.
  - rewrite (used_ext sb WF _ (λ k, gone_all sb bs k (bio_disk s k)) e He (st_disk _ _ _ St)).
    apply gone_all_used; [done..|]. intros k Hk. apply bio_disk_block; [apply Hb|done].
  - rewrite (st_disk _ _ _ St) by done. by apply gone_all_data.
Qed.

Lemma wr_inode_data sb inum di e d : sb_wf sb → 0 ≤ inum < ninodes sb → data_blk sb e → wr_inode sb inum di e d = d.
Proof.
  intros WF Hi He. unfold wr_inode. destruct (blockno_bound sb inum WF Hi) as [_ ?].
  destruct (data_blk_range sb WF e He) as (_ & _ & ? & _). pose proof WF as [_ ? ? ? ? _]. by rewrite decide_False by lia.
Qed.

Lemma gone_all_below sb bs k d : sb_wf sb → Forall (data_blk sb) bs → k < sb_bmap sb → gone_all sb bs k d = d.
Proof.
  intros WF Hb Hk. pose proof WF as [_ ? ? ? ? _]. revert d. induction bs as [|e bs IH]; intros d; [done|].
  apply Forall_cons in Hb as [He Hb]. destruct (data_blk_range sb WF e He) as (_ & _ & ? & ?).
  cbn. unfold comp, block_gone, comp, wr, map_clear. rewrite !decide_False by lia. by apply IH.
Qed.
(** C21: [ifree] gives an inode back: its bit of the inode map is clear and the bits
    of the others are as they were, the inode is recorded as unused and empty on disk
    while the other inodes keep their records, and exactly the blocks of the file
    become unused. *)
Theorem ifree_releases sb s l i a : sb_wf sb → slot_of sb l i a → let ib := di_iblock (i_di a) in
  di_wf (i_di a) → zeros_tail 0 ib → 0 ≤ i_inum a < ninodes sb → i_inum a < (sb_inodes sb - sb_imap sb) * 8192 →
  bmap_free sb 2 s → itable_free sb s → imap_free sb s →
  let bs := file_blocks (bio_disk s) ib NIBLOCK 0 in NoDup bs → Forall (freeable sb s) bs →
  ∃ s', ifree i (s, l) = Ok tt (s', <[i := freed a]> l) ∧
    (∀ g, 0 ≤ g < (sb_inodes sb - sb_imap sb) * 8192 → map_bit (bio_disk s') (sb_imap sb) g =
       if decide (g = i_inum a) then false else map_bit (bio_disk s) (sb_imap sb) g) ∧
    (∀ n, 0 ≤ n < ninodes sb → disk_inode sb (bio_disk s') n =
       if decide (n = i_inum a) then i_di (freed a) else disk_inode sb (bio_disk s) n) ∧
    ∀ e, data_blk sb e → used sb (bio_disk s') e = if decide (e ∈ bs) then false else used sb (bio_disk s) e.
Proof.
  intros WF Hs ib Hw Hz Hi Hi2 Hb Ht Hm bs Hnd Hfr. pose proof WF as [_ ? ? ? ? _]. destruct (wf_ranges sb WF) as (_ & _ & ?).
  destruct (ifree_spec sb WF i s l a Hs Hw Hz Hi Hi2 Hb Ht Hm Hnd Hfr) as (s' & E & St). fold ib bs in St.
  assert (Hd : Forall (data_blk sb) bs) by (eapply Forall_impl; [exact Hfr|]; by intros ? (? & _)).
  assert (Hblk : ∀ k, blk k → is_block (bio_disk s k)) by (intros k Hk; apply bio_disk_block; [apply Hb|done]).
  assert (Hmb : ∀ g, 0 ≤ g < (sb_inodes sb - sb_imap sb) * 8192 → sb_imap sb ≤ map_blk (sb_imap sb) g < sb_inodes sb).
  { intros g Hg. pose proof (map_blk_bound (sb_imap sb) g (sb_inodes sb - sb_imap sb) ltac:(by rewrite bits_per_block)). lia. }
  destruct (blockno_bound sb (i_inum a) WF Hi) as [_ Hbi]. pose proof (Hmb (i_inum a) ltac:(lia)) as Hbm.
  exists s'. split; [done|]. split; [|split].
  - intros g Hg. pose proof (Hmb g Hg). transitivity (map_bit (λ k, map_clear (sb_imap sb) (i_inum a) k (bio_disk s k)) (sb_imap sb) g).
    + unfold map_bit. rewrite (st_disk _ _ _ St) by (unfold blk; lia). unfold comp at 1 2, wr_inode.
      rewrite (decide_False (P := map_blk _ _ = blockno_of_inode _ _)) by lia. by rewrite gone_all_below by (done || lia).
    + apply map_clear_bit, Hblk. unfold blk. lia.
  - intros n Hn. destruct (blockno_bound sb n WF Hn) as [_ ?].
    rewrite <- (wr_inode_get sb (bio_disk s) (i_inum a) n (i_di (freed a))); [|done|done|done|by apply freed_wf|apply Hblk; unfold blk; lia].
    unfold disk_inode. rewrite (st_disk _ _ _ St) by (unfold blk; lia). unfold comp, map_clear.
    rewrite (decide_False (P := _ = map_blk _ _)) by lia. by rewrite gone_all_below by (done || lia).
  - intros e He. destruct (data_blk_range sb WF e He) as (_ & _ & _ & ?). rewrite <- (gone_all_used sb WF (bio_disk s) bs e Hd He Hblk).
    unfold used, map_bit. rewrite (st_disk _ _ _ St) by (unfold blk; lia). unfold comp, map_clear, wr_inode.
    by rewrite !(decide_False (P := map_blk _ _ = _)) by lia.
Qed.

(** Overwriting [n] bytes inside a file stores them, allocates nothing and still
    records the file as [n] bytes longer, in memory and on disk. *)
Theorem fwrite_over_grows sb f i data s l x a : sb_wf sb → slot_of sb l i a →
  let v := the_file x f in let ib := di_iblock (i_di a) in let n := Z.of_nat (length data) in
  f_obj v = Some i → 0 ≤ f_off v → f_off v + n ≤ di_fsize (i_di a) → di_fsize (i_di a) ≤ DIRECT_BYTES →
  bytes_ok data → di_wf (i_di a) → 0 ≤ i_inum a < ninodes sb → direct_inj sb ib →
  itable_free sb s → blocks_ok sb s ib 0 (di_fsize (i_di a)) →
  ∃ s' a' x', fwrite f (inr data) n ((s, l), x) = Ok n ((s', <[i := a']> l), x') ∧
    di_fsize (i_di a') = di_fsize (i_di a) + n ∧ di_iblock (i_di a') = ib ∧
    disk_inode sb (bio_disk s') (i_inum a) = i_di a' ∧
    ∀ p, 0 ≤ p < di_fsize (i_di a) → file_byte (bio_disk s') ib p =
      if decide (f_off v ≤ p < f_off v + n) then data !! Z.to_nat (p - f_off v) else file_byte (bio_disk s) ib p.
Proof.
  intros WF Hs v ib n Hobj Hoff Hsz Hds Hby Hdi Hin Hinj Ht Hb. pose proof WF as [_ ? ? ? ? _]. destruct (wf_ranges sb WF) as (_ & _ & ?).
  destruct (fwrite_over sb WF f i data s l x a Hs Hobj Hoff Hsz Hds Hby Hdi Hin Hinj Ht Hb)
    as (s1 & g & E1 & St & disk1 & [Hw Hother] & Hdk). fold v n ib in E1, Hw, Hdk, Hother. unfold DIRECT_BYTES in *.
  eexists s1, _, _. split; [exact E1|]. do 2 (split; [done|]).
  destruct (blockno_bound sb (i_inum a) WF Hin) as [_ Hbi]. split.
  - transitivity (disk_inode sb (λ k, wr_inode sb (i_inum a) (set_fsize (di_fsize (i_di a) + n) (i_di a)) k (bio_disk s k)) (i_inum a)).
    + unfold disk_inode. rewrite Hdk by (unfold blk; lia). rewrite Hother; [done|unfold blk; lia|].
      intros p Hp Hc. destruct (Hb p ltac:(lia)) as (e & Ee & He & _). fold ib in Ee.
      destruct (data_blk_range sb WF e He) as (_ & _ & ? & _). rewrite Hc in Ee. injection Ee as <-. lia.
    + rewrite wr_inode_get; [by rewrite decide_True|done|done|done|apply set_fsize_wf; [done|unfold u32_ok; lia]|].
      apply bio_disk_block; [apply Ht|]. unfold blk. lia.
  - intros p Hp. destruct (Hb p Hp) as (e & Ee & He & _). fold ib in Ee. destruct (data_blk_range sb WF e He) as (_ & Hbe & _).
    rewrite <- Hw; [|lia|intros e' He'; congruence]. unfold file_byte. rewrite Ee. cbn. by rewrite Hdk, wr_inode_data by done.
Qed.

(** C14: bytes written inside a file with [fwrite] are read back by [fread] after
    [fseek] to where they were written: the offset returns to the start of the
    write, the read delivers exactly the bytes written and moves behind them.  The
    file has at most 12288 bytes, the direct blocks of its inode; from offset 13056 on the
    code faults ([blockno_beyond]). *)
Theorem file_write_read sb f i data s l x a : sb_wf sb → slot_of sb l i a →
  let v := the_file x f in let ib := di_iblock (i_di a) in let n := Z.of_nat (length data) in
  f_obj v = Some i → f_type v = INODE → 0 ≤ f_off v → f_off v + n ≤ di_fsize (i_di a) →
  di_fsize (i_di a) ≤ DIRECT_BYTES → bytes_ok data → di_wf (i_di a) → 0 ≤ i_inum a < ninodes sb →
  direct_inj sb ib → itable_free sb s → blocks_ok sb s ib 0 (di_fsize (i_di a)) →
  ∃ y1 y2 y3, fwrite f (inr data) n ((s, l), x) = Ok n y1 ∧
    fseek f (- n) SEEK_CUR y1 = Ok (f_off v + n) y2 ∧ f_off (the_file y2.2 f) = f_off v ∧
    fread f None n y2 = Ok (n, data) y3 ∧ f_off (the_file y3.2 f) = f_off v + n.
Proof.
  intros WF Hs v ib n Hobj Hty Hoff Hsz Hds Hby Hdi Hin Hinj Ht Hb. unfold DIRECT_BYTES in Hds.
  destruct (fwrite_over sb WF f i data s l x a Hs Hobj Hoff Hsz Hds Hby Hdi Hin Hinj Ht Hb)
    as (s1 & g & E1 & St & disk1 & [Hw _] & Hdk). fold v n ib in E1, Hw, Hdk.
  set (a' := set_di _ a) in E1. set (x1 := with_file x f (set_off (f_off v + n) v)) in *.
  set (x2 := with_file x1 f (set_off (f_off v) (set_off (f_off v + n) v))).
  assert (Hs' : slot_of sb (<[i := a']> l) i a').
  { destruct Hs as (Ea & ? & ?). split; [apply list_lookup_insert_eq; by eapply lookup_lt_Some|done]. }
  assert (Hv1 : the_file x1 f = set_off (f_off v + n) v) by apply the_with_file.
  assert (E2 : fseek f (- n) SEEK_CUR ((s1, <[i := a']> l), x1) = Ok (f_off v + n) ((s1, <[i := a']> l), x2)).
  { unfold fseek. run (file_at_ok f (s1, <[i := a']> l) x1). rewrite Hv1. cbn [set_off f_type f_off].
    rewrite Hty, bool_decide_true by done. cbn. destruct (Z.gtb_spec (- n) 0); [lia|].
    run (put_file_ok f (set_off (u32 (f_off v + n - cmin (f_off v + n) (u32 (- - n)))) (set_off (f_off v + n) v))
      (s1, <[i := a']> l) x1).
    unfold ret. do 2 f_equal. rewrite Z.opp_involutive, (u32_id n), cmin_min, Z.min_r, u32_id by lia.
    unfold x2. do 2 f_equal. lia. }
  assert (Hv2 : the_file x2 f = v) by (unfold x2; rewrite the_with_file; by destruct v).
  assert (En : Z.min n (di_fsize (i_di a') - f_off v) = n) by (unfold a', set_di, set_fsize; cbn; lia).
  pose proof Ht as (Hok & Hr & _).
  destruct (fread_run sb WF f i n s1 (<[i := a']> l) x2 a' Hs') as (s3 & d & E3 & St3 & Hl & Hd);
    rewrite ?Hv2, ?En in *.
  - done.
  - unfold a', set_di, set_fsize. cbn. lia.
  - unfold a', set_di, set_fsize. cbn. lia.
  - unfold DIRECT_BYTES. lia.
  - lia.
  - apply St.
  - by eapply io_step_room.
  - intros p Hp. apply (blocks_ok_step sb g s s1 ib 0 (di_fsize (i_di a)) St Hb). lia.
  - exists ((s1, <[i := a']> l), x1), ((s1, <[i := a']> l), x2), ((s3, <[i := a']> l), with_file x2 f (set_off (f_off v + n) v)).
    split; [exact E1|]. split; [exact E2|]. cbn [snd]. rewrite Hv2, the_with_file. split; [done|]. split; [|done].
    rewrite E3. do 2 f_equal. apply list_eq. intros k. destruct (decide (Z.of_nat k < n)) as [Hk|Hk].
    2: { rewrite !lookup_ge_None_2; [done| |]; apply Nat2Z.inj_le; lia. }
    rewrite <- (Nat2Z.id k) at 1. rewrite Hd by lia. change (di_iblock (i_di a')) with ib.
    destruct (Hb (f_off v + Z.of_nat k) ltac:(lia)) as (e & Ee & He & _). fold ib in Ee.
    destruct (data_blk_range sb WF e He) as (_ & Hbe & _).
    transitivity (file_byte disk1 ib (f_off v + Z.of_nat k)).
    + unfold file_byte. rewrite Ee. cbn. by rewrite Hdk, wr_inode_data by done.
    + rewrite Hw; [|unfold DIRECT_BYTES; lia|intros e' He'; congruence].
      rewrite decide_True by lia. f_equal. lia.
Qed.
End file_results.

(** ** Runs on the file of Boot *)

Lemma itrunc_releases_witness : ∃ s' a', itrunc 1 (fs_state, icache0) = Ok tt (s', <[1%nat := a']> icache0) ∧
  used sb0 (bio_disk s') 7 = false.
Proof.
  destruct (itrunc_releases sb0 fs_state icache0 1 in_file sb0_wf slot_file) as (s' & a' & E & _ & _ & _ & H).
  - reflexivity.
  - by apply zeros_tail_two.
  - apply fs_state_bmap. unfold NIOBUF. lia.
  - change (di_iblock (i_di in_file)) with (di_iblock di_file). rewrite file_blocks0. by apply (bool_decide_unpack _).
  - change (di_iblock (i_di in_file)) with (di_iblock di_file). rewrite file_blocks0.
    do 2 (apply Forall_cons; split; [apply fs_state_freeable; lia|]). apply Forall_nil_2.
  - exists s', a'. split; [exact E|]. change (di_iblock (i_di in_file)) with (di_iblock di_file) in H. rewrite file_blocks0 in H.
    clear E. destruct (fs_state_freeable 7 ltac:(lia)) as (H7 & _). destruct (H 7 H7) as [Hu _].
    rewrite decide_True in Hu by (apply elem_of_cons; by left). exact Hu.
Defined.
Lemma file_write_read_witness : ∃ y1 y2 y3,
  fwrite fptr (inr [1; 2; 3]) 3 ((fs_state, icache0), open_file 1022) = Ok 3 y1 ∧
  fseek fptr (-3) SEEK_CUR y1 = Ok 1025 y2 ∧ fread fptr None 3 y2 = Ok (3, [1; 2; 3]) y3.
Proof.
  destruct (file_write_read sb0 fptr 1 [1; 2; 3] fs_state icache0 (open_file 1022) in_file sb0_wf slot_file)
    as (y1 & y2 & y3 & E1 & E2 & _ & E3 & _);
    [reflexivity|reflexivity|done|done|done|repeat constructor; done|apply di_file_wf|by vm_compute|apply file_inj
    |apply fs_state_area|by apply file_blocks_ok|].
  exists y1, y2, y3. exact (conj E1 (conj E2 E3)).
Defined.
Lemma fread_spec_witness : ∃ s' d x', fread fptr None 100 ((fs_state, icache0), open_file 2000) = Ok (48, d) ((s', icache0), x').
Proof.
  destruct (fread_spec sb0 sb0_wf fptr 1 100 fs_state icache0 (open_file 2000) in_file slot_file) as (s' & d & E & _);
    [reflexivity|done|done|done|apply fs_state_ok|apply fs_state_room; unfold NIOBUF; lia|by apply file_blocks_ok|].
  eexists s', d, _. exact E.
Defined.

Lemma ifree_releases_witness : ∃ s', ifree 1 (fs_state, icache0) = Ok tt (s', <[1%nat := freed in_file]> icache0) ∧
  map_bit (bio_disk s') (sb_imap sb0) 1 = false.
Proof.
  destruct (ifree_releases sb0 fs_state icache0 1 in_file sb0_wf slot_file) as (s' & E & H & _).
  - apply di_file_wf.
  - by apply zeros_tail_two.
  - by vm_compute.
  - by vm_compute.
  - apply fs_state_bmap. unfold NIOBUF. lia.
  - apply fs_state_area.
  - apply fs_state_area.
  - change (di_iblock (i_di in_file)) with (di_iblock di_file). rewrite file_blocks0. by apply (bool_decide_unpack _).
  - change (di_iblock (i_di in_file)) with (di_iblock di_file). rewrite file_blocks0.
    do 2 (apply Forall_cons; split; [apply fs_state_freeable; lia|]). apply Forall_nil_2.
  - exists s'. split; [exact E|]. clear E. rewrite (H 1); [reflexivity|]. by vm_compute.
Defined.
Lemma fwrite_over_grows_witness : ∃ s' a' x', fwrite fptr (inr [1; 2; 3]) 3 ((fs_state, icache0), open_file 0) =
  Ok 3 ((s', <[1%nat := a']> icache0), x') ∧ di_fsize (i_di a') = 2051.
Proof.
  destruct (fwrite_over_grows sb0 fptr 1 [1; 2; 3] fs_state icache0 (open_file 0) in_file sb0_wf slot_file)
    as (s' & a' & x' & E & Hsz & _);
    [reflexivity|done|done|done|repeat constructor; done|apply di_file_wf|by vm_compute|apply file_inj
    |apply fs_state_area|by apply file_blocks_ok|].
  exists s', a', x'. exact (conj E Hsz).
Defined.

(** A file of 100 bytes, and one of 24 blocks. *)
Definition in_part : inode := MkInode sleep0 (MkDi REGULAR 0 1 100 (7 :: replicate 14 0)) (Some sb0) 1 1.
Definition in_big : inode := MkInode sleep0 (MkDi REGULAR 0 1 24576 (7 :: replicate 14 0)) (Some sb0) 1 1.
Definition icache_of (a : inode) : list inode := in_root :: a :: replicate (NINODE - 2) inode0.
Lemma fwrite_append_partial_witness :
  (∃ y, fwrite fptr (inr [1; 2; 3]) 3 ((fs_state, icache_of in_part), open_file 100) = Fault y) ∨
  (∃ y, fwrite fptr (inr [1; 2; 3]) 3 ((fs_state, icache_of in_part), open_file 100) = Panic "balloc: space exhausted" y).
Proof.
  apply (fwrite_append_partial sb0 sb0_wf fptr 1 (inr [1; 2; 3]) 3 fs_state (icache_of in_part) (open_file 100) in_part);
    [done|reflexivity|done|reflexivity|done|done|]. apply fs_state_bmap. unfold NIOBUF. lia.
Defined.
Lemma blockno_beyond_witness : blockno_of_data 1 13056 (fs_state, icache0) = Fault (fs_state, icache0).
Proof. apply (blockno_beyond sb0 1 13056 fs_state icache0 in_file slot_file); [reflexivity|unfold DIRECT_BYTES; lia]. Defined.
Lemma data_block_alloc_big_witness :
  data_block_alloc 1 (fs_state, icache_of in_big) = Panic "data_block_alloc: file too big" (fs_state, icache_of in_big).
Proof. apply (data_block_alloc_big sb0 1 fs_state (icache_of in_big) in_big); [done|reflexivity]. Defined.
Lemma data_block_alloc_direct_witness :
  (∃ b y, data_block_alloc 1 (fs_state, icache0) = Ok b y) ∨
  (∃ y, data_block_alloc 1 (fs_state, icache0) = Panic "balloc: space exhausted" y).
Proof.
  destruct (data_block_alloc_direct sb0 sb0_wf 1 2 fs_state icache0 in_file slot_file) as [(e & b & s' & E & _)|(y & E)].
  - done.
  - reflexivity.
  - reflexivity.
  - apply fs_state_bmap. unfold NIOBUF. lia.
  - intros e _ _. apply fs_state_held.
  - left. eexists b, _. exact E.
  - right. exists y. exact E.
Defined.
