(* ===== verification/DirResults.v ===== *)
(** Results on directories: resolving a whole path, and runs of the operations on
    the root directory of Boot. *)
From S2P Require Import Prelude Bytes CString Machine BlockIO Bio Fs Inode Dir PageAlloc Vm Pipe Slot File Boot FsResults.
#[local] Existing Instance Cache.bio_io.

(** ** Paths as lists of names *)

Fixpoint join (cs : list (list Z)) : list Z :=
  match cs with [] => [] | [c] => c | c :: cs => c ++ SLASH :: join cs end.
(** A name [parse_path] can hold with its terminator. *)
Definition comp_ok (c : list Z) : Prop := plain c ∧ c ≠ [] ∧ (length c < DLENGTH)%nat.

Lemma join_length cs : Forall comp_ok cs → (length cs ≤ length (join cs))%nat.
Proof.
  induction cs as [|c cs IH]; intros H; [done|]. apply Forall_cons in H as [(_ & Hc & _) H]. specialize (IH H).
  assert (0 < length c)%nat by (destruct c; [done|cbn; lia]). destruct cs as [|c' cs]; [cbn; lia|].
  change (join (c :: c' :: cs)) with (c ++ SLASH :: join (c' :: cs)). rewrite length_app. cbn [length] in *. lia.
Qed.
Definition pad (c : list Z) : list Z := c ++ replicate (DLENGTH - length c) 0.
Lemma pad_cstr c : comp_ok c → cstr (pad c) c.
Proof.
  intros (Hp & _ & Hl). split; [by apply plain_nonzero|]. unfold pad.
  destruct (DLENGTH - length c)%nat as [|k] eqn:Ek; [lia|]. by exists (replicate k 0).
Qed.
Lemma pad_length c : comp_ok c → length (pad c) = DLENGTH.
Proof. intros (_ & _ & Hl). unfold pad. rewrite length_app, length_replicate. lia. Qed.
(** [parse_path] takes the first name off a path. *)
Lemma parse_join c cs r dname : Forall comp_ok (c :: cs) → length dname = DLENGTH →
  parse_path (join (c :: cs) ++ 0 :: r) dname = Some (Some (pad c, join cs ++ 0 :: r)).
Proof.
  intros H Hd. apply Forall_cons in H as [(Hp & Hc & Hl) H]. destruct cs as [|c' cs].
  - by apply parse_path_last.
  - change (join (c :: c' :: cs)) with (c ++ SLASH :: join (c' :: cs)). rewrite <- app_assoc. cbn [app].
    apply parse_path_dir; [done|lia|done].
Qed.

(** ** Resolving a path *)
Section resolve.
Context {S : Type} {IO : BlockIO S} (sb : superblock) (WF : sb_wf sb).
Implicit Types (s : S) (l : list inode).

Definition nblk (a : inode) : nat := Z.to_nat (iblock_cnt (i_di a)).
(** What the walk along the names comes to: an inode, no such name, no slot left in
    the cache, or a null directory on the way. *)
Inductive walk := Found (k : nat) (l : list inode) | Missing (l : list inode) | Exhausted | NullDir.
(** The walk from the inode of slot [cur]: each name is looked up in the directory
    reached, whose reference is dropped for the one of the entry's inode. *)
Fixpoint resolve s (cs : list (list Z)) l (cur : nat) : walk :=
  match cs with
  | [] => Found cur l
  | c :: cs =>
    match l !! cur with
    | None => NullDir
    | Some a =>
      let l1 := <[cur := put_ref a]> l in
      match dir_lookup (bio_disk s) (di_iblock (i_di a)) c (nblk a) 0 with
      | None => Missing l1
      | Some inum =>
        match iget_result sb inum s l1 with
        | Some (Some (k, l')) => resolve s cs l' k
        | Some None => match cs with [] => Missing l1 | _ => NullDir end
        | None => Exhausted
        end
      end
    end
  end.
(** The directories on the way are well formed and their entries name inodes of the
    file system. *)
Fixpoint walk_ok s (cs : list (list Z)) l (cur : nat) : Prop :=
  match cs with
  | [] => True
  | c :: cs =>
    ∃ a, slot_of sb l cur a ∧ dir_blocks_ok sb s (di_iblock (i_di a)) (nblk a) 0 ∧
      ∀ inum, dir_lookup (bio_disk s) (di_iblock (i_di a)) c (nblk a) 0 = Some inum →
        0 ≤ inum < ninodes sb ∧ inum < (sb_inodes sb - sb_imap sb) * BIT_CNT_PER_BLOCK ∧
        ∀ k l', iget_result sb inum s (<[cur := put_ref a]> l) = Some (Some (k, l')) → walk_ok s cs l' k
  end.

Lemma iget_result_step s s' l inum : io_step keep s s' → 0 ≤ inum < ninodes sb →
  inum < (sb_inodes sb - sb_imap sb) * BIT_CNT_PER_BLOCK → iget_result sb inum s' l = iget_result sb inum s l.
Proof.
  intros St Hn1 Hn2. unfold iget_result, map_bit, disk_inode. destruct (wf_ranges sb WF) as (_ & _ & ?). pose proof WF as [_ ? ? ? ? _].
  pose proof (map_blk_bound (sb_imap sb) inum (sb_inodes sb - sb_imap sb) ltac:(lia)).
  destruct (blockno_bound sb inum WF Hn1) as [_ ?]. by rewrite !(st_disk _ _ _ St) by (unfold blk; lia).
Qed.
Lemma find_loop_end fuel cur r dname s l : (0 < fuel)%nat → find_loop fuel cur (0 :: r) dname (s, l) = Ok cur (s, l).
Proof. intros Hf. by destruct fuel as [|fuel]; [lia|]. Qed.

(** The loop of [dentry_find] computes the walk; the state may have moved on from
    [s0] by reads. *)
Lemma find_loop_spec s0 cs fuel cur r dname s l : io_step keep s0 s → icache_inv l → walk_ok s0 cs l cur →
  Forall comp_ok cs → (length cs < fuel)%nat → length dname = DLENGTH →
  room 2 s0 → imap_free sb s0 → itable_free sb s0 →
  let m := find_loop fuel (Some cur) (join cs ++ 0 :: r) dname (s, l) in
  match resolve s0 cs l cur with
  | Found k l' => ∃ s', m = Ok (Some k) (s', l') ∧ io_step keep s0 s'
  | Missing l' => ∃ s', m = Ok None (s', l') ∧ io_step keep s0 s'
  | Exhausted => ∃ x, m = Panic "iget: icache exhausted" x
  | NullDir => ∃ x, m = Fault x
  end.
Proof.
  revert fuel cur dname s l. induction cs as [|c cs IH]; intros fuel cur dname s l St IC Hw Hc Hf Hd Hr Hm Ht.
  { cbn [resolve join app]. exists s. split; [by apply find_loop_end|done]. }
  destruct Hw as (a & Hs & Hdir & Hin). pose proof Hs as (Ea & Esl & Esb). destruct fuel as [|fuel]; [lia|].
  cbn zeta. cbn [find_loop resolve]. rewrite (parse_join c cs r dname Hc Hd).
  run (the_ok _ _ s l (eq_refl (Some (Some (pad c, join cs ++ 0 :: r))))). cbn iota beta.
  run (the_ok _ _ s l (eq_refl (Some cur))). run (inode_at_ok cur s l a Ea). run (sb_of_ok cur s l a sb Ea Esb).
  fold (nblk a). pose proof (Forall_inv Hc) as Hc1. pose proof (Forall_inv_tail Hc) as Hc2. rewrite Ea.
  pose proof (find_blocks_spec sb WF cur (pad c) c (nblk a) 0 s l a IC Hs (pad_cstr c Hc1) (proj1 (proj2 Hc1)) ltac:(lia)
    (dir_blocks_step sb WF _ _ _ _ _ St Hdir) (io_step_room _ _ _ _ St Hr) (area_free_step _ _ _ _ _ St Hm)
    (area_free_step _ _ _ _ _ St Ht)) as H.
  rewrite (dir_lookup_step sb WF s0 s _ _ _ _ St Hdir) in H. cbn zeta in H.
  assert (H1 := H (λ inum E, conj (proj1 (Hin inum E)) (proj1 (proj2 (Hin inum E))))). clear H.
  destruct (dir_lookup (bio_disk s0) (di_iblock (i_di a)) c (nblk a) 0) as [inum|].
  - destruct (Hin inum eq_refl) as (Hn1 & Hn2 & Hnext). rewrite (iget_result_step s0 s _ _ St Hn1 Hn2) in H1.
    assert (IC1 : icache_inv (<[cur := put_ref a]> l))
      by (apply (icache_inv_refc l cur a (λ v, u32 (v - 1))); [done..|]; intros v; apply u32_bound).
    destruct (iget_result sb inum s0 (<[cur := put_ref a]> l)) as [[[k l']|]|] eqn:Er.
    + destruct H1 as (s1 & E1 & St1). run E1. cbn iota.
      destruct (iget_result_inv _ _ _ _ _ _ IC1 Er) as (IC' & _).
      apply IH; [by eapply io_step_ext, io_step_trans, St1; [|exact St]|done|by apply Hnext|done|cbn in Hf; lia
        |by apply pad_length|done..].
    + destruct H1 as (s1 & E1 & St1). run E1. cbn iota. cbn [length] in Hf. destruct cs as [|c' cs].
      * exists s1. split; [by apply find_loop_end; lia|]. by eapply io_step_ext, io_step_trans, St1; [|exact St].
      * exists (s1, <[cur := put_ref a]> l). destruct fuel as [|fuel]; [lia|]. cbn [find_loop].
        rewrite (parse_join c' cs r (pad c) Hc2 (pad_length c Hc1)).
        by run (the_ok _ _ s1 (<[cur := put_ref a]> l) (eq_refl (Some (Some (pad c', join cs ++ 0 :: r))))).
    + destruct H1 as (x & E1). exists x. by apply bind_panicked.
  - destruct H1 as (s1 & E1 & St1). run E1. cbn iota.
    destruct (iput_spec cur s1 l a) as (s2 & E2 & St2); [apply St1|done|]. run E2. exists s2. split; [done|].
    eapply io_step_ext, io_step_trans, St2; [|eapply io_step_trans; [exact St|exact St1]]. done.
Qed.
End resolve.

(** [dentry_find] from the root. *)
Lemma dentry_find_walk {S} `{IO : BlockIO S} sb s l cwd cs r dname k l1 : sb_wf sb → icache_inv l →
  Forall comp_ok cs → length dname = DLENGTH → room 2 s → imap_free sb s → itable_free sb s →
  iget_result sb ROOTINUM s l = Some (Some (k, l1)) → walk_ok sb s cs l1 k →
  let m := dentry_find sb cwd (SLASH :: join cs ++ 0 :: r) dname (s, l) in
  match resolve sb s cs l1 k with
  | Found k' l' => ∃ s', m = Ok (Some k') (s', l') ∧ io_step keep s s'
  | Missing l' => ∃ s', m = Ok None (s', l') ∧ io_step keep s s'
  | Exhausted => ∃ x, m = Panic "iget: icache exhausted" x
  | NullDir => ∃ x, m = Fault x
  end.
Proof.
  intros WF IC Hc Hd Hr Hm Ht Hk Hw m. pose proof WF as [_ ? ? ? ? _]. destruct (wf_ranges sb WF) as (? & ? & ?).
  assert (Hroot : 0 ≤ ROOTINUM < ninodes sb ∧ ROOTINUM < (sb_inodes sb - sb_imap sb) * BIT_CNT_PER_BLOCK).
  { unfold ROOTINUM, ninodes. rewrite bits_per_block. destruct dinodes_per_block as [-> _]. lia. }
  pose proof (iget_spec sb WF ROOTINUM s l IC (proj1 Hroot) (proj2 Hroot) Hm Ht) as Hg. rewrite Hk in Hg.
  destruct Hg as (s1 & E1 & St1). destruct (iget_result_inv _ _ _ _ _ _ IC Hk) as (IC1 & _).
  assert (m = find_loop (length (SLASH :: join cs ++ 0 :: r)) (Some k) (join cs ++ 0 :: r) dname (s1, l1)) as ->.
  { unfold m, dentry_find. run (the_ok _ _ s l (eq_refl (Some SLASH))). rewrite Z.eqb_refl. run E1. reflexivity. }
  apply find_loop_spec; try done. cbn [length]. rewrite length_app. pose proof (join_length cs Hc). cbn [length]. lia.
Qed.

(** C16: [dentry_find] of an absolute path computes the walk along its names from
    the root: it returns the inode the last name leads to with one reference, a null
    pointer when a name is missing, and stops the machine when the inode cache is
    full; a directory entry that names a free inode is dereferenced as a null pointer
    when more names follow.  The disk does not change. *)
Theorem dentry_find_resolves {S} `{IO : BlockIO S} sb s l cwd cs r dname k l1 : sb_wf sb → icache_inv l →
  Forall comp_ok cs → length dname = DLENGTH → room 2 s → imap_free sb s → itable_free sb s →
  iget_result sb ROOTINUM s l = Some (Some (k, l1)) → walk_ok sb s cs l1 k →
  let m := dentry_find sb cwd (SLASH :: join cs ++ 0 :: r) dname (s, l) in
  match resolve sb s cs l1 k with
  | Found k' l' => ∃ s', m = Ok (Some k') (s', l') ∧ io_step keep s s'
  | Missing l' => ∃ s', m = Ok None (s', l') ∧ io_step keep s s'
  | Exhausted => ∃ x, m = Panic "iget: icache exhausted" x
  | NullDir => ∃ x, m = Fault x
  end.
Proof. apply dentry_find_walk. Qed.

(** The root directory of Boot. *)
Definition name_a : list Z := [97].
Lemma root_block : dir_block_ok (bio_disk fs_state 6).
Proof. rewrite fs_state_disk. split; by vm_compute. Qed.
Lemma root_find : block_find (bio_disk fs_state 6) name_a = Some 1%nat.
Proof. rewrite fs_state_disk. by vm_compute. Qed.
Lemma root_blocks_ok : dir_blocks_ok sb0 fs_state (di_iblock di_root) 1 0.
Proof.
  intros k Hk. assert (k = 0) as -> by lia. exists 6. destruct (fs_state_freeable 6 ltac:(lia)) as (H1 & H2 & _).
  split; [reflexivity|]. split; [exact H1|]. split; [exact H2|]. split; [apply root_block|]. intros Hd. vm_compute in Hd. by exfalso.
Qed.
Lemma root_lookup : dir_lookup (bio_disk fs_state) (di_iblock di_root) name_a 1 0 = Some 1.
Proof.
  cbn [dir_lookup]. change (file_block (bio_disk fs_state) (di_iblock di_root) 0) with (Some 6). cbn iota.
  rewrite root_find, fs_state_disk. by vm_compute.
Qed.

Definition path_a : list Z := SLASH :: join [name_a] ++ [0].
Lemma name_a_ok : comp_ok name_a.
Proof. split; [by repeat constructor|]. split; [done|]. unfold DLENGTH, name_a. cbn. lia. Qed.
Lemma root_resolve : resolve sb0 fs_state [name_a] (alter inc_ref 0%nat icache0) 0 =
  Found 1 (alter inc_ref 1%nat (<[0%nat := put_ref (inc_ref in_root)]> (alter inc_ref 0%nat icache0))).
Proof.
  unfold resolve. change (alter inc_ref 0%nat icache0 !! 0%nat) with (Some (inc_ref in_root)). cbn iota zeta.
  change (nblk (inc_ref in_root)) with 1%nat. change (di_iblock (i_di (inc_ref in_root))) with (di_iblock di_root).
  rewrite root_lookup. reflexivity.
Qed.
Lemma root_walk : walk_ok sb0 fs_state [name_a] (alter inc_ref 0%nat icache0) 0.
Proof.
  exists (inc_ref in_root). split; [done|]. split; [apply root_blocks_ok|]. intros inum Hi.
  change (nblk (inc_ref in_root)) with 1%nat in Hi. change (di_iblock (i_di (inc_ref in_root))) with (di_iblock di_root) in Hi.
  rewrite root_lookup in Hi. injection Hi as <-. split; [by vm_compute|]. split; [by vm_compute|]. intros k l' _. exact I.
Qed.
Lemma dentry_find_resolves_witness : ∃ s' l', dentry_find sb0 0 path_a (replicate DLENGTH 0) (fs_state, icache0) =
  Ok (Some 1%nat) (s', l').
Proof.
  pose proof (dentry_find_resolves sb0 fs_state icache0 0 [name_a] [] (replicate DLENGTH 0) 0 (alter inc_ref 0%nat icache0)
    sb0_wf icache0_inv (proj2 (Forall_singleton _ _) name_a_ok) (length_replicate _ _)
    (fs_state_room 2 ltac:(unfold NIOBUF; lia)) (fs_state_area _ _) (fs_state_area _ _) eq_refl root_walk) as H.
  rewrite root_resolve in H. destruct H as (s' & E & _). eexists s', _. exact E.
Defined.
Lemma dentry_del_last_witness : ∃ x, dentry_del 0 [97; 0] (fs_state, icache0) = Panic "sleep_get" x.
Proof.
  destruct (fs_state_freeable 6 ltac:(lia)) as (H1 & H2 & _).
  apply (dentry_del_last sb0 sb0_wf 0 [97; 0] name_a fs_state icache0 in_root 6 1 slot_root).
  - by vm_compute.
  - reflexivity.
  - apply fs_state_ok.
  - apply fs_state_room. unfold NIOBUF. lia.
  - exact H1.
  - exact H2.
  - apply root_block.
  - split; [by repeat constructor|]. by exists [].
  - done.
  - apply root_find.
  - rewrite fs_state_disk. by vm_compute.
Defined.

Lemma parse_path_long_witness : parse_path (replicate 28 97 ++ [0]) (replicate DLENGTH 0) = None.
Proof. apply (parse_path_long (replicate 28 97) [] (replicate DLENGTH 0)); [by repeat constructor|by cbn|done]. Defined.
(** "a/b" *)
Lemma path_split_dir_witness : path_split [97; 47; 98; 0] (replicate 4 0) (replicate 4 0) = Some ([97; 0; 0; 0], [98; 0; 0; 0]).
Proof. apply (path_split_dir [97] [98] [] (replicate 4 0) (replicate 4 0)); [by repeat constructor|by repeat constructor|cbn; lia|cbn; lia]. Defined.
Lemma dentry_put_spec_witness : ∃ d', dentry_put 2 9 [98; 0] zero_block = Some d' ∧ dt_inum 2 d' = 9 ∧ name_of (dt_name 2 d') = [98].
Proof.
  destruct (dentry_put_spec 2 9 [98; 0] [98] zero_block) as (d' & E & _ & Hi & Hn & _).
  - split; [by repeat constructor|]. by exists [].
  - apply zero_block_ok.
  - change DENTRY_MAXCNT_PER_BLOCK with 31%nat. lia.
  - by split.
  - exists d'. exact (conj E (conj Hi Hn)).
Defined.
