(* ===== verification/SysResults.v ===== *)
(** Results on output, pipes, locks, task identifiers and file descriptors, with
    runs on the states of Boot. *)
From S2P Require Import Prelude Bytes CString Machine BlockIO Bio Fs Inode Dir PageAlloc Vm Pipe Slot File Printf Sysfs Tid Boot.
#[local] Existing Instance Cache.bio_io.

(** ** Output *)

(** C25: [print] sends to the UART exactly the bytes the reference [render] gives
    for the format and the arguments ([%d], [%u], [%x], [%s]; any other byte stands
    for itself), and gives the print lock back, when there are at most seven arguments,
    those in registers, and none is the least 64-bit number, of which [%d] prints the sign
    only. *)
Theorem print_renders mem strs fmt w args m o d : bytes_ok mem →
  (∀ a w, strs a = Some w → 0 ≤ a ∧ cstr_at (Z.to_nat a) w mem) → quiet m → cstr_at fmt w mem → args_ok args →
  render strs w args = Some d → print mem fmt args (m, o) = Ok tt (touch m, o ++ d).
Proof. apply print_run. Qed.
(** "v=%d" *)
Definition fmt_mem : list Z := [118; 61; 37; 100; 0].
Lemma fmt_at : cstr_at 0 [118; 61; 37; 100] fmt_mem.
Proof. split; [by repeat constructor|done]. Qed.
Lemma print_renders_witness : print fmt_mem 0 [2 ^ 64 - 5] (mach0, []) = Ok tt (touch mach0, [118; 61; 45; 53]).
Proof.
  apply (print_renders fmt_mem (λ _, None) 0 [118; 61; 37; 100] [2 ^ 64 - 5] mach0 [] [118; 61; 45; 53]).
  - by repeat constructor.
  - done.
  - apply mach0_quiet.
  - apply fmt_at.
  - split; [cbn; lia|]. by repeat constructor.
  - by vm_compute.
Defined.

(** The format "%d", and reading a signed number back. *)
Definition fmt_d : list Z := [37; 100; 0].
Definition read_signed (ds : list Z) : Z :=
  match ds with c :: ds' => if c =? 45 then - read_num 10 ds' else read_num 10 ds | [] => 0 end.
Lemma read_show_u n : 0 ≤ n < 2 ^ 64 → read_num 10 (show_u 10 n) = n.
Proof.
  intros Hn. unfold show_u. destruct (Z.eqb_spec n 0) as [->|]; [done|].
  assert (2 ^ 64 < 10 ^ Z.of_nat NUM_FUEL) by done. apply read_numeral; lia.
Qed.
Lemma digit_ge v : 0 ≤ v < 16 → 48 ≤ digit v.
Proof.
  intros Hv. assert (Hf : forallb (λ v, 48 <=? digit v) (seqZ 0 16) = true) by reflexivity.
  apply Z.leb_le. apply (proj1 (forallb_forall _ _) Hf v). apply list_elem_of_In, elem_of_seqZ. lia.
Qed.
Lemma numeral_ge fuel n : Forall (λ c, 48 ≤ c) (numeral fuel 10 n).
Proof.
  revert n. induction fuel as [|fuel IH]; intros n; cbn; [constructor|]. destruct (0 <? n); [|constructor].
  apply Forall_app. split; [apply IH|]. constructor; [|constructor]. pose proof (Z.mod_pos_bound n 10 ltac:(lia)).
  apply digit_ge. lia.
Qed.
Lemma read_show_d v : 0 ≤ v < 2 ^ 64 → i64 v ≠ - 2 ^ 63 → read_signed (show_d v) = i64 v.
Proof.
  intros Hv Hm. pose proof (i64_range v). unfold show_d. destruct (Z.ltb_spec (i64 v) 0).
  - unfold read_signed. rewrite Z.eqb_refl, read_show_u by lia. lia.
  - rewrite <- (read_show_u (i64 v)) at 2 by lia. unfold read_signed, show_u.
    destruct (i64 v =? 0); [done|]. pose proof (numeral_ge NUM_FUEL (i64 v)) as Hg.
    destruct (numeral NUM_FUEL 10 (i64 v)) as [|c ds]; [done|]. apply Forall_cons in Hg as [Hc _].
    by destruct (Z.eqb_spec c 45); [lia|].
Qed.

(** What [print] sends for [%d] is read back as the number, for every 64-bit
    signed number but the least; for the least it sends a sign and no digit. *)
Theorem print_int_read v m : 0 ≤ v < 2 ^ 64 → quiet m →
  ∃ ds, print fmt_d 0 [v] (m, []) = Ok tt (touch m, ds) ∧
    if decide (i64 v = - 2 ^ 63) then ds = [45] else read_signed ds = i64 v.
Proof.
  intros Hv Hq. case_decide as Hm.
  - exists [45]. split; [|done]. assert (v = 2 ^ 63) as ->.
    { unfold i64, swrap in Hm. pose proof (Z.div_mod (v + 2 ^ (64 - 1)) (2 ^ 64) ltac:(lia)).
      pose proof (Z.mod_pos_bound (v + 2 ^ (64 - 1)) (2 ^ 64) ltac:(lia)). lia. }
    assert (Hd : cstr_at 0 [37; 100] fmt_d) by (split; [by repeat constructor|done]).
    apply (print_with fmt_d 0 [2 ^ 63] m [] [45] Hq). intros mm Hmm. cbn [print_loop].
    eapply prints_deref; [done|]. cbn [Z.eqb Pos.eqb]. eapply prints_deref; [done|]. cbn [convert Z.eqb Pos.eqb].
    rewrite <- (app_nil_r [45]). eapply prints_bind; [apply (prints_int_min mm Hmm (MkVp [2 ^ 63] 0) (2 ^ 63)); [by split|done]|].
    eapply prints_deref; [done|]. apply prints_ret.
  - exists (show_d v). split; [|by apply read_show_d].
    apply (print_run fmt_d (λ _, None) 0 [37; 100] [v] m [] (show_d v)); [by repeat constructor|done|done| | |].
    + split; [by repeat constructor|done].
    + split; [cbn; lia|]. constructor; [done|constructor].
    + cbn. by rewrite app_nil_r.
Qed.
Lemma print_int_read_witness : ∃ ds, print fmt_d 0 [2 ^ 63] (mach0, []) = Ok tt (touch mach0, ds) ∧ ds = [45].
Proof. exact (print_int_read (2 ^ 63) mach0 ltac:(lia) mach0_quiet). Defined.

(** ** Locks *)

(** A spin lock excludes: taking a free lock succeeds with interrupts off, a
    second [spin_get] by the same CPU stops the machine, [spin_put] restores the lock
    and the interrupt state, and a second [spin_put] stops the machine. *)
Theorem spin_lock_excludes l m : m_wf m → lock_free m l →
  ∃ m1 m2, spin_get l m = Ok tt m1 ∧ sie (m_cpu m1) = false ∧ spin_get l m1 = Panic "spin_get" m2 ∧
    spin_put l m1 = Ok tt (touch m) ∧ spin_put l (touch m) = Panic "spin_put" (touch m).
Proof.
  intros Hw Hf. exists (acq l m). eexists. split; [by apply spin_get_free|]. split; [done|].
  split; [apply spin_get_held; unfold spin_of; by rewrite acq_held|].
  split; [rewrite spin_put_held by apply acq_held; by rewrite rel_acq|]. apply spin_put_not_held.
  unfold spin_holding, spin_of. apply (lock_free_touch m l) in Hf. unfold lock_free in Hf. by rewrite Hf.
Qed.
Lemma spin_lock_excludes_witness : ∃ m1 m2, spin_get L_pr mach0 = Ok tt m1 ∧ spin_get L_pr m1 = Panic "spin_get" m2.
Proof.
  destruct (spin_lock_excludes L_pr mach0 (quiet_wf _ mach0_quiet) (quiet_free _ _ mach0_quiet)) as (m1 & m2 & E1 & _ & E2 & _).
  exists m1, m2. exact (conj E1 E2).
Defined.

(** A task that sleeps on a channel while holding a lock gives the lock up only
    after it is marked sleeping: a [wakeup] of that channel by another task after
    that makes it ready, so no wake-up is lost; sleepers on other channels and tasks
    in other states keep their state. *)
Theorem sleep_then_wakeup ch lk m t t' : can_sleep m → mytask m = Some t → (t < NPROC)%nat → (∀ i, lk ≠ L_task i) →
  ∃ m1, sleep_enter ch (Some lk) (acq lk m) = Ok tt m1 ∧ m_tasks m1 !! t = Some (MkTsk SLEEP (Some ch)) ∧
    m_spin m1 !! lk = None ∧
    ∀ m2, can_sleep m2 → mytask m2 = Some t' → t' ≠ t →
      m_tasks m2 !! t = Some (MkTsk SLEEP (Some ch)) →
      ∃ m3, wakeup ch (acq lk m2) = Ok tt (acq lk m3) ∧ tstate <$> m_tasks m3 !! t = Some READY ∧
        ∀ i ts, m_tasks m2 !! i = Some ts → tstate ts ≠ SLEEP ∨ tchan ts ≠ Some ch → m_tasks m3 !! i = Some ts.
Proof.
  intros Hm Hmy Ht Hlk. destruct (sleep_enter_spec ch lk m t Hm Hmy Ht (Hlk t)) as (m1 & E1 & Hts & Hsp & _).
  pose proof Hm as (_ & _ & Hl). assert (Et : m_tasks m1 !! t = Some (MkTsk SLEEP (Some ch))).
  { rewrite Hts. apply list_lookup_insert_eq. lia. }
  exists m1. split; [done|]. split; [done|]. split; [rewrite Hsp; by apply lookup_singleton_ne|].
  intros m2 Hm2 Hmy2 Hne Hts2. destruct (wakeup_critical ch lk m2 Hm2 Hlk) as (ts & E2 & -> & _).
  eexists. split; [exact E2|]. cbn [set_tasks m_tasks]. rewrite Hmy2. unfold wake_at, wake. split.
  - rewrite list_lookup_imap, Hts2. cbn. by rewrite bool_decide_false, !bool_decide_true by congruence.
  - intros i v Ei Hv. rewrite list_lookup_imap, Ei. cbn. f_equal. case_bool_decide; [done|].
    destruct Hv; [by rewrite bool_decide_false|by rewrite andb_comm, bool_decide_false].
Qed.
Definition mach1 : mach := MkMach (MkCpu 0 true false 0 (Some 1%nat)) ∅
  (MkTsk SLEEP (Some (ChPipeRead 0)) :: MkTsk RUN None :: replicate (NPROC - 2) (MkTsk FREE None)).
Lemma sleep_then_wakeup_witness : ∃ m1 m3, sleep_enter (ChPipeRead 0) (Some (L_pipe 0)) (acq (L_pipe 0) mach0) = Ok tt m1 ∧
  wakeup (ChPipeRead 0) (acq (L_pipe 0) mach1) = Ok tt (acq (L_pipe 0) m3) ∧ tstate <$> m_tasks m3 !! 0%nat = Some READY.
Proof.
  destruct (sleep_then_wakeup (ChPipeRead 0) (L_pipe 0) mach0 0 1 mach0_sleep) as (m1 & E1 & _ & _ & H).
  - reflexivity.
  - unfold NPROC. lia.
  - done.
  - destruct (H mach1) as (m3 & E3 & Hr & _).
    + split; [done|]. split; [by eexists|done].
    + done.
    + done.
    + done.
    + exists m1, m3. exact (conj E1 (conj E3 Hr)).
Defined.

(** ** Task identifiers *)

(** [alloc_tid] returns the identifier of the first clear bit of the map, and
    [free_tid] of it restores the map only if the bit is one of the first four of its
    word; for every other bit [free_tid] works on another word (or outside the map)
    and the bit stays set for ever. *)
Theorem tid_alloc_free m l : quiet m → Forall (λ w, 0 ≤ w < 2 ^ 32) l → (length l < 100)%nat →
  (∃ k w, l !! k = Some w ∧ w ≠ FULL) →
  ∃ i w j t m1 l1, alloc_tid (m, l) = Ok t (m1, l1) ∧ l !! i = Some w ∧ 0 ≤ j < 32 ∧
    Z.testbit w j = false ∧ l1 = <[i := Z.lor w (bit j)]> l ∧ t = 4 * Z.of_nat i + j + 1 ∧
    if decide (j < 4) then ∃ m2, free_tid t (m1, l1) = Ok tt (m2, l)
    else if decide (i + Z.to_nat (j / 4) < length l)%nat
    then ∃ m2 l2 w2, free_tid t (m1, l1) = Ok tt (m2, l2) ∧ l2 !! i = Some w2 ∧ Z.testbit w2 j = true
    else ∃ x, free_tid t (m1, l1) = Fault x.
Proof.
  intros Hq Hw Hl Hf. destruct (alloc_tid_spec m l Hq Hw Hl Hf) as (i & w & j & E & Ei & Hj & Hb & _).
  exists i, w, j, (4 * Z.of_nat i + j + 1), (touch m), (<[i := Z.lor w (bit j)]> l).
  do 6 (split; [done|]). pose proof (lookup_lt_Some _ _ _ Ei) as Hlt.
  assert (Eq : Z.to_nat ((4 * Z.of_nat i + j + 1 - 1) / 4) = (i + Z.to_nat (j / 4))%nat).
  { replace (4 * Z.of_nat i + j + 1 - 1) with (j + Z.of_nat i * 4) by lia. rewrite Z.div_add by lia.
    pose proof (Z.div_pos j 4 ltac:(lia) ltac:(lia)). lia. }
  assert (Hlo : ∀ k, Z.testbit (Z.lor w (bit j)) k = Z.testbit w k || Z.testbit (bit j) k) by (intros; apply Z.lor_spec).
  case_decide as Hj4.
  - assert (Z.to_nat (j / 4) = 0%nat) as H0 by (by rewrite Z.div_small by lia). rewrite H0, Nat.add_0_r in Eq.
    eexists. erewrite (free_tid_spec _ _ _ (Z.lor w (bit j))); [|by auto with mach|lia|rewrite Eq; by apply list_lookup_insert_eq].
    do 2 f_equal. rewrite Eq, list_insert_insert_eq. apply list_insert_id. rewrite Ei. f_equal.
    replace ((4 * Z.of_nat i + j + 1 - 1) mod 4) with j.
    2: { replace (4 * Z.of_nat i + j + 1 - 1) with (j + Z.of_nat i * 4) by lia. rewrite Z.mod_add by lia. by rewrite Z.mod_small by lia. }
    apply Z.bits_inj'. intros k Hk. destruct (Z.ltb_spec k 32).
    + rewrite clear_bit, Hlo, bit_spec by lia. case_bool_decide; [subst k; by rewrite Hb|]. cbn. by rewrite orb_false_r, andb_true_r.
    + rewrite Z.land_spec. pose proof (u32_bound (Z.lnot (bit j))) as Hu.
      rewrite <- (Z.mod_small w (2 ^ 32)) by (by apply (proj1 (Forall_lookup _ _) Hw i)).
      rewrite <- (Z.mod_small (u32 (Z.lnot (bit j))) (2 ^ 32)), !Z.mod_pow2_bits_high by lia. by rewrite andb_false_r.
  - assert (1 ≤ j / 4) by (apply Z.div_le_lower_bound; lia). case_decide as Hin.
    + destruct (lookup_lt_is_Some_2 (<[i := Z.lor w (bit j)]> l) (i + Z.to_nat (j / 4))%nat) as [w' E']; [by rewrite length_insert|].
      eexists _, _, (Z.lor w (bit j)). erewrite (free_tid_spec _ _ _ w'); [|by auto with mach|lia|by rewrite Eq].
      split; [done|]. rewrite Eq, list_lookup_insert_ne by lia. split; [by apply list_lookup_insert_eq|].
      rewrite Hlo, bit_spec, bool_decide_true by lia. apply orb_true_r.
    + eexists. unfold free_tid. unfold bind at 1, onm, zoom. cbn [fst snd]. rewrite spin_get_free by auto with mach.
      rewrite Eq. unfold word_at at 1, bind at 1, deref. rewrite lookup_ge_None_2; [done|]. cbn [snd]. rewrite length_insert. lia.
Qed.
Lemma tid_alloc_free_witness : ∃ t m1 l1 x, alloc_tid (mach0, [0xFF; 0]) = Ok t (m1, l1) ∧ free_tid t (m1, l1) = Fault x.
Proof.
  destruct (tid_alloc_free mach0 [0xFF; 0] mach0_quiet) as (i & w & j & t & m1 & l1 & E1 & _).
  - by repeat constructor.
  - cbn. lia.
  - by exists 0%nat, 0xFF.
  - vm_compute in E1. injection E1 as <- <- <-. do 4 eexists. split; [by vm_compute|by vm_compute].
Defined.

(** The calls of a loop that creates [n] tasks. *)
Fixpoint alloc_tids (n : nat) : TM (list Z) :=
  match n with O => ret [] | S n => let! t := alloc_tid in let! ts := alloc_tids n in ret (t :: ts) end.
(** Identifiers are not unique: with 32 tasks, after the one with identifier 6
    has gone the next task gets identifier 5, which another task still has. *)
Theorem tid_not_unique : ∃ x, (let! ts := alloc_tids NPROC in free_tid 6 ;; let! t := alloc_tid in ret (ts, t)) (mach0, tidmap0) =
  Ok (seqZ 1 32, 5) x.
Proof. eexists. vm_compute. reflexivity. Qed.

(** ** Pipes *)

Definition pipe0 : pipe := MkPipe 0 0 0 (replicate PIPE_SIZE 0).
Definition pipes0 : list pipe := replicate NPIPE pipe0.
Definition user0 : flat := [10; 20; 30; 40; 50; 60; 70; 80] ++ replicate 120 0.

(** C2: a pipe is a queue: for any interleaving of readers and writers, each run
    from the moment it has the lock until it returns or sleeps, the bytes delivered
    are the oldest of those written, in order, and the rest, at most 64 bytes, is in
    the buffer. *)
Theorem pipe_fifo {U} `{UM : UserMem U} i ps w r ps' p : pipe_steps i ps w r ps' → ps !! i = Some p → pipe_wf p →
  contents p = [] → ∃ p', ps' !! i = Some p' ∧ pipe_wf p' ∧ w = r ++ contents p' ∧ (length (contents p') ≤ PIPE_SIZE)%nat.
Proof.
  intros St Hi W H0. destruct (pipe_steps_fifo i ps w r ps' p St Hi W) as (p' & E & W' & Hq). rewrite H0 in Hq.
  exists p'. do 3 (split; [done|]). rewrite contents_len. apply W'.
Qed.
(** A task writes five bytes, another reads three. *)
Definition run_write := write_loop (S PIPE_SIZE) 0 0 5 0 (acq (L_pipe 0) mach0, (pipes0, user0)).
Definition run_read (ps : list pipe) := piperead_body 0 100 3 (acq (L_pipe 0) mach0, (ps, user0)).
Definition pipes1 : list pipe := <[0%nat := MkPipe 0 5 0 ([10; 20; 30; 40; 50] ++ replicate 59 0)]> pipes0.
Definition pipes2 : list pipe := <[0%nat := MkPipe 3 5 0 ([10; 20; 30; 40; 50] ++ replicate 59 0)]> pipes0.
Lemma flat_access n va : 0 ≤ va → va + Z.of_nat n ≤ 128 → accessible user0 va n.
Proof.
  intros Hv Hn k Hk. cbn. unfold flat_byte. rewrite decide_True by lia. apply lookup_lt_is_Some_2. cbn. lia.
Qed.
Lemma steps0 : pipe_steps 0 pipes0 [10; 20; 30; 40; 50] [10; 20; 30] pipes2.
Proof.
  assert (Hm : can_sleep mach0) by apply mach0_sleep.
  change [10; 20; 30; 40; 50] with ([10; 20; 30; 40; 50] ++ [] ++ []). change [10; 20; 30] with ([] ++ [10; 20; 30] ++ []).
  apply (steps_cons 0 pipes0 pipes1).
  - apply (step_write 0 mach0 0 pipes0 user0 0 [10; 20; 30; 40; 50] 0 (inr 5) (touch mach0) pipes1 user0); try done.
    + unfold NPROC. lia.
    + intros [|[|[|[|[|k]]]]] Hk; [done..|cbn in Hk; lia].
    + cbn. lia.
  - apply (steps_cons 0 pipes1 pipes2); [|apply steps_nil].
    eapply (step_read 0 mach0 0 pipes1 user0 100 3 (inr 3)); [done|done|unfold NPROC; lia|lia
      |apply flat_access; [lia|unfold PIPE_SIZE; lia]|vm_compute; reflexivity|done|].
    intros [|[|[|k]]] Hk; [done..|cbn in Hk; lia].
Qed.
Lemma pipe_fifo_witness : ∃ p', pipes2 !! 0%nat = Some p' ∧ [10; 20; 30; 40; 50] = [10; 20; 30] ++ contents p'.
Proof.
  destruct (pipe_fifo 0 pipes0 _ _ pipes2 pipe0 steps0) as (p' & E & _ & H & _).
  - reflexivity.
  - split; [done|apply Nat.le_0_l|done|done].
  - reflexivity.
  - exists p'. exact (conj E H).
Defined.

(** ** File descriptors *)

Section descriptors.
Context {S : Type} {IO : BlockIO S} {U : Type} {UM : UserMem U}.
Context (rfs : superblock) (devsw : list (@dev_op S U)) (ptb : Z).

(** A call of the task returned, from any state of the rest of the kernel, and the table
    is not full. *)
Definition fd_call (c : fs_call) (fs : fs_struct) (r : Z) (fs' : fs_struct) : Prop :=
  ∃ k k', run_call rfs devsw ptb c (k, fs) = Ok r (k', fs') ∧ ¬ fd_full fs'.
Inductive fd_calls : fs_struct → fs_struct → Prop :=
| fc_nil fs : fd_calls fs fs
| fc_cons c r fs fs1 fs2 : fd_call c fs r fs1 → fd_calls fs1 fs2 → fd_calls fs fs2.
Lemma fd_has_free fs : fd_inv fs → ¬ fd_full fs → file_slot (fs_fdx fs) fs = Some None.
Proof. intros [H1 H2 H3 H4] Hn. unfold file_slot. destruct (Z.ltb_spec (fs_fdx fs) 0); [lia|]. by destruct H4. Qed.
Lemma fd_put_inv f fs : fd_inv fs → fd_inv (fd_put f fs).
Proof. intros I. by apply fd_put_spec. Qed.
Lemma fd_call_inv c fs r fs' : fd_inv fs → ¬ fd_full fs → fd_call c fs r fs' → fd_inv fs' ∧ ¬ fd_full fs'.
Proof.
  intros I Hn (k & k' & E & Hn'). split; [|done]. apply run_call_effect in E. cbn [snd] in E.
  destruct c; cbn [call_effect] in E; try (by destruct E as [E1 E2]; apply (fd_inv_eq fs)).
  - destruct E as [[_ ->]|(_ & f & ->)]; [done|by apply fd_put_inv].
  - destruct E as [[_ ->]|(_ & f & ->)]; [done|by apply fd_put_inv].
  - destruct E as [[_ ->]|(_ & f & E & ->)]; [done|]. eapply fd_clear_inv; [done|done|]. left. by destruct (fd_free _ I).
  - destruct E as [->|(f & ->)]; [done|by apply fd_put_inv, fd_put_inv].
Qed.

(** C37: as long as the descriptor table of a task does not fill up, after every sequence
    of calls on files that return (read, write, lseek, mknod, open, dup, close, link, unlink, mkdir,
    rmdir, chdir and pipe) [fdx] is the least free descriptor.  An open or a dup that
    succeeds then returns that descriptor, which names a file from then on, and a close
    that succeeds frees the descriptor it names; no other descriptor changes. *)
Theorem fd_least_free fs fs' : fd_calls fs fs' → fd_inv fs → ¬ fd_full fs →
  file_slot (fs_fdx fs') fs' = Some None ∧ (∀ j, 0 ≤ j < fs_fdx fs' → file_slot j fs' ≠ Some None) ∧
  ∀ c r fs2, fd_call c fs' r fs2 →
    match c with
    | C_open _ _ | C_dup _ => 0 ≤ r → r = fs_fdx fs' ∧ (∃ f, file_slot r fs2 = Some (Some f)) ∧
        ∀ j, j ≠ r → 0 ≤ j → file_slot j fs2 = file_slot j fs'
    | C_close a0 => 0 ≤ r → file_slot (i32 a0) fs2 = Some None ∧ ∀ j, j ≠ i32 a0 → 0 ≤ j → file_slot j fs2 = file_slot j fs'
    | C_pipe _ => True
    | _ => ∀ j, file_slot j fs2 = file_slot j fs'
    end.
Proof.
  intros H I Hn. assert (I' : fd_inv fs' ∧ ¬ fd_full fs').
  { induction H as [fs|c r fs fs1 fs2 St _ IH]; [done|]. destruct (fd_call_inv c fs r fs1 I Hn St). by apply IH. }
  clear I Hn H. destruct I' as [I Hn]. split; [by apply fd_has_free|]. split.
  { intros j Hj. unfold file_slot. destruct (Z.ltb_spec j 0); [lia|]. apply (fd_least _ I). lia. }
  pose proof (fd_range _ I) as Hr. pose proof (fd_len _ I) as Hl.
  assert (Htook : ∀ r fs2, took_fd fs' r fs2 → 0 ≤ r → r = fs_fdx fs' ∧ (∃ f, file_slot r fs2 = Some (Some f)) ∧
        ∀ j, j ≠ r → 0 ≤ j → file_slot j fs2 = file_slot j fs').
  { intros r fs2 [[? _]|(-> & f & ->)] Hpos; [lia|]. destruct (fd_put_spec f fs' I) as (_ & Ef & _). split; [done|]. unfold file_slot.
    rewrite (proj2 (Z.ltb_ge _ _)) by lia. rewrite Ef. split; [exists f; apply list_lookup_insert_eq; lia|].
    intros j Hj Hj0. rewrite (proj2 (Z.ltb_ge _ _)) by lia. apply list_lookup_insert_ne. lia. }
  intros c r fs2 (k & k' & E & _). apply run_call_effect in E. cbn [snd] in E.
  destruct c; cbn [call_effect] in E; try done; try (by apply Htook);
    try (by destruct E as [E1 E2]; intros j; unfold file_slot; rewrite E1).
  intros Hpos. destruct E as [[? _]|(_ & f & E & ->)]; [lia|]. unfold file_slot in *. destruct (Z.ltb_spec (i32 a0) 0) as [|Hlt]; [done|].
  cbn [fd_clear set_fdx set_files fs_files]. split; [apply list_lookup_insert_eq; by eapply lookup_lt_Some|].
  intros j Hj Hj0. rewrite (proj2 (Z.ltb_ge _ _)) by lia. apply list_lookup_insert_ne. lia.
Qed.
End descriptors.

(** The table of a task with one open file, which it duplicates. *)
Definition fs_one : fs_struct := fd_put fptr fs0.
Lemma fs_one_inv : fd_inv fs_one ∧ ¬ fd_full fs_one.
Proof. split; [apply fd_put_spec, fs0_inv|]. intros Hf. by apply (Hf 1%nat). Qed.
Definition fs_two : fs_struct := fd_put fptr fs_one.
Lemma dup_one rfs : fd_call (U := flat) rfs [] 0 (C_dup 0) fs_one 1 fs_two.
Proof.
  destruct (sys_dup_spec 0 fptr fs_state icache0 (open_file 0) fs_one (proj1 fs_one_inv) (proj2 fs_one_inv)) as (s' & E & _).
  - done.
  - rewrite fs_state_mach. apply mach0_quiet.
  - done.
  - eexists _, _. split; [exact E|]. intros Hf. by apply (Hf 2%nat).
Qed.
Lemma fd_least_free_witness : file_slot (fs_fdx fs_two) fs_two = Some None ∧ fs_fdx fs_two = 2.
Proof.
  split; [|reflexivity]. apply (fd_least_free sb0 [] 0 fs_one fs_two).
  - eapply fc_cons; [apply dup_one|apply fc_nil].
  - apply fs_one_inv.
  - apply fs_one_inv.
Defined.
(** closing a descriptor above [fdx] when the table is full leaves [fdx] at an
    entry that is in use: the next file opened replaces an open one. *)
Lemma fd_close_full fd fs f : fd_inv fs → fd_full fs → file_slot fd fs = Some (Some f) → fs_fdx fs < fd →
  let fs' := fd_clear fd fs in file_slot fd fs' = Some None ∧
  ∃ g, file_slot (fs_fdx fs') fs' = Some (Some g) ∧ ∀ h, file_slot (fs_fdx fs') (fd_put h fs') = Some (Some h).
Proof.
  intros I Hf E Hlt fs'. pose proof (fd_range _ I) as Hr. pose proof (fd_len _ I) as Hlen.
  destruct (fd_clear_full fd fs f I Hf E Hlt) as (Ex & Ec & g & Eg). fold fs' in Ex, Ec, Eg. unfold file_slot.
  destruct (Z.ltb_spec fd 0); [lia|]. split; [done|]. exists g. rewrite Ex in *. destruct (Z.ltb_spec (fs_fdx fs) 0); [lia|].
  split; [done|]. intros h. unfold fd_put. rewrite move_fdi_files. cbn [set_files fs_files]. rewrite Ex. apply list_lookup_insert_eq.
  unfold fs', fd_clear. cbn [set_files set_fdx fs_files]. rewrite length_insert. lia.
Qed.
Definition fs_full : fs_struct := MkFs (replicate NFILE (Some fptr)) 3 None.
Lemma fs_full_inv : fd_inv fs_full ∧ fd_full fs_full.
Proof.
  assert (Hf : fd_full fs_full) by (intros j E; cbn in E; by apply lookup_replicate in E as [? _]).
  split; [|done]. split; [done|by split|by intros j _; apply Hf|by right].
Qed.
Lemma fd_close_full_witness : ∃ g, file_slot 3 (fd_clear 5 fs_full) = Some (Some g).
Proof.
  destruct (fd_close_full 5 fs_full fptr (proj1 fs_full_inv) (proj2 fs_full_inv)) as (_ & g & E & _); [done|done|].
  exists g. exact E.
Defined.

(** The state of a task with no open file. *)
Definition kst0 : @kst (mach * @Cache.bcache ram_disk) flat := ((fs_state, icache0), ((boot_mem, init_slots), (pipes0, user0))).
Lemma sys_dup_spec_witness : ∃ y fs', sys_dup 0 (((fs_state, icache0), open_file 0), fs_one) = Ok 1 (y, fs') ∧
  file_slot 1 fs' = Some (Some fptr).
Proof.
  destruct (sys_dup_spec 0 fptr fs_state icache0 (open_file 0) fs_one (proj1 fs_one_inv) (proj2 fs_one_inv)) as (s' & E & _ & _ & Hs & _).
  - done.
  - rewrite fs_state_mach. apply mach0_quiet.
  - done.
  - eexists _, _. exact (conj E Hs).
Defined.
Lemma sys_read_range_witness : sys_read [] 16 0 0 (kst0, fs0) = Fault (kst0, fs0).
Proof. apply sys_read_range; [apply fs0_inv|right; by vm_compute]. Defined.

(** [sys_pipe] hands out two descriptors of the reading end and none of the
    writing end: a [sys_write] to either returns -1, so no byte can enter the pipe. *)
Theorem sys_pipe_unwritable {S U} `{IO : BlockIO S} `{UM : UserMem U} devsw a0 s l p st ps u tl fs j q :
  a0 ≠ 0 → quiet (bmach s) → files_ok tl p st → fd_inv fs →
  (∀ f, ¬ fd_full (fd_put f fs)) → (∀ fd f, file_slot fd fs = Some (Some f) → live NFILE_CHUNK file0 st f) →
  length ps = NPIPE → first_free ps j q → accessible u a0 8 →
  (∃ r w k fs', sys_pipe a0 (((s, l), ((p, st), (ps, u))), fs) = Ok 0 (k, fs') ∧ r ≠ w ∧
    (∀ fd, 0 ≤ fd < 2 ^ 31 → fd = r ∨ fd = w → ∀ a1 a2, sys_write devsw fd a1 a2 (k, fs') = Ok (-1) (k, fs')) ∧
    ∀ fd f, file_slot fd fs = Some (Some f) → file_slot fd fs' = Some (Some f)) ∨
  (∃ msg z, sys_pipe a0 (((s, l), ((p, st), (ps, u))), fs) = Panic msg z).
Proof.
  intros Ha Hq If Ifd Hnf Hlive Hl Hj Hu.
  destruct (sys_pipe_spec a0 s l p st ps u tl fs j q Ha Hq If Ifd Hnf Hlive Hl Hj Hu)
    as [(rf & wf & s' & p' & st' & u' & E & ((v & Ev & Hmode & _) & _) & H1 & H2 & Hne & _)|H]; [left|by right].
  eexists (fs_fdx fs), (fs_fdx (fd_put rf fs)), _, _. split; [exact E|]. split; [done|].
  destruct (fd_put_spec rf fs Ifd) as (I1 & F1 & _). destruct (fd_put_spec rf (fd_put rf fs) I1) as (_ & F2 & _). split.
  - intros fd Hfd Hc a1 a2. apply (sys_write_readonly devsw fd a1 a2 _ _ rf).
    + unfold i32, swrap. rewrite Z.mod_small by lia. replace (fd + 2 ^ (32 - 1) - 2 ^ (32 - 1)) with fd by lia. by destruct Hc as [->| ->].
    + cbn [fst snd]. rewrite Ev. exact Hmode.
  - intros fd f Hs. unfold file_slot in *. destruct (Z.ltb_spec fd 0) as [|Hpos]; [done|]. rewrite F2, F1.
    assert (Hfree : ∀ g, fd_inv g → ¬ fd_full g → fs_files g !! Z.to_nat (fs_fdx g) = Some None).
    { intros g [_ _ _ H4] Hn. by destruct H4. }
    assert (Hx : Z.to_nat fd ≠ Z.to_nat (fs_fdx fs)).
    { intros Ex. destruct (fd_free _ Ifd) as [Hn|Hn]; [rewrite <- Ex, Hs in Hn; done|].
      apply (Hnf rf). intros k Hk. rewrite F1 in Hk. destruct (decide (k = Z.to_nat (fs_fdx fs))) as [->|Hkn].
      - apply list_lookup_insert_Some in Hk as [(_ & ? & _)|[? _]]; done.
      - rewrite list_lookup_insert_ne in Hk by done. by apply (Hn k). }
    rewrite !list_lookup_insert_ne; [done|done|]. intros Ex.
    pose proof (Hfree _ I1 (Hnf rf)) as Hn. rewrite Ex, F1 in Hn. rewrite list_lookup_insert_ne in Hn by done. by rewrite Hn in Hs.
Qed.
Lemma sys_pipe_unwritable_witness :
  (∃ (r w : Z) k fs', sys_pipe 8 (kst0, fs0) = Ok 0 (k, fs') ∧ r ≠ w) ∨ (∃ msg z, sys_pipe 8 (kst0, fs0) = Panic msg z).
Proof.
  destruct (sys_pipe_unwritable [] 8 fs_state icache0 boot_mem init_slots pipes0 user0 ∅ fs0 0 pipe0)
    as [(r & w & k & fs' & E & Hne & _)|(msg & z & E)].
  - done.
  - rewrite fs_state_mach. apply mach0_quiet.
  - split; [apply init_slots_inv|]. eexists. apply boot_mem_run.
  - apply fs0_inv.
  - intros f Hf. by apply (Hf 1%nat).
  - intros fd f E. unfold file_slot in E. destruct (fd <? 0); [done|]. cbn in E. by apply lookup_replicate in E as [? _].
  - done.
  - split; [done|]. split; [done|]. intros k p Hk. lia.
  - apply (flat_access 8 8); lia.
  - left. exists r, w, k, fs'. exact (conj E Hne).
  - right. exists msg, z. exact E.
Defined.
