(* ===== verification/ProcResults.v ===== *)
(** Results on tasks and their parents (kernel/syscall/systask.c): what [sys_wait]
    returns, and what [sys_exit] does with the children of the task. *)
From S2P Require Import Prelude Bytes ListNode Machine Sched BlockIO Bio Fs Inode PageAlloc Vm Pipe Slot File Sysfs UserCopy Boot TaskMem Task ProcTree MemResults SysResults.
Import Cache.

(** ** Properties *)

Section claims.
Context {S : Type} {IO : BlockIO S}.
Implicit Types (k : kern (S:=S)).

Lemma first_exited_split k l c : first_exited k l = Some c →
  ∃ l1 l2, l = l1 ++ c :: l2 ∧ exited k c ∧ Forall (λ x, ¬ exited k x) l1.
Proof.
  unfold first_exited. induction l as [|x l IH]; [done|]. rewrite filter_cons. case_decide as E.
  - intros [= <-]. exists [], l. by split.
  - intros (l1 & l2 & -> & Hc & H1)%IH. exists (x :: l1), l2. split; [done|]. split; [done|]. by constructor.
Qed.
Lemma first_exited_none k l : first_exited k l = None → Forall (λ x, ¬ exited k x) l.
Proof.
  unfold first_exited. induction l as [|x l IH]; [done|]. rewrite filter_cons. case_decide; [done|]. intros Hx. constructor; auto.
Qed.

(** C5: [sys_wait] without children returns -1.  Otherwise it takes the first child
    in the list, in the order of their creation, that has exited: the child leaves
    the list, its exit code is stored at [a0] when that is not zero, its slot becomes
    free and its pid is the result; no other task changes.  When none has exited, the
    task sleeps until one of its children wakes it. *)
Theorem wait_reaps_child ch k t l a0 root pt : tree_ok ch (k_cnodes k) (k_procs k) → quiet (k_mach k) →
  length (m_tasks (k_mach k)) = NPROC → mytask (k_mach k) = Some t → (t < NPROC)%nat → ch !! t = Some l → (a0 ≠ 0 → status_ok k t root pt a0) →
  (l = [] ∧ sys_wait a0 k = Ok (-1) k) ∨
  (∃ l1 c l2 k' p ts, l = l1 ++ c :: l2 ∧ exited k c ∧ Forall (λ x, ¬ exited k x) l1 ∧
    k_procs k !! c = Some p ∧ m_tasks (k_mach k) !! c = Some ts ∧ sys_wait a0 k = Ok (p_pid p) k' ∧
    tree_ok (<[t := l1 ++ l2]> ch) (k_cnodes k') (k_procs k') ∧ k_procs k' = k_procs k ∧
    k_mach k' = set_tasks <[c := MkTsk FREE (tchan ts)]> (k_mach k) ∧
    if decide (a0 = 0) then k_pmem k' = k_pmem k else stored pt a0 (p_exit p) (k_pmem k) (k_pmem k')) ∨
  (l ≠ [] ∧ Forall (λ x, ¬ exited k x) l ∧ ∃ m', sys_wait a0 k = Switch (set_kmach m' k) ∧
    leaving t (<[t := MkTsk SLEEP (Some (ChChilds t))]> (m_tasks (k_mach k))) m').
Proof.
  intros T Hq Hn Ht Htn Hl Hs. pose proof (dlist_first _ _ _ (tr_list _ _ _ T t l Hl)) as Ef. fold (first_child t l) in Ef.
  unfold sys_wait, self_task. rewrite (bind_deref _ _ _ t), (bind_deref _ _ _ (first_child t l)) by done.
  destruct l as [|c0 l0]; [left; by rewrite bool_decide_true|right]. rewrite bool_decide_false by done.
  unfold wait_round, self_task. rewrite (bind_deref _ _ _ t), (bind_deref _ _ _ (first_child t (c0 :: l0))), bind_gets by done.
  rewrite (bind_ok _ _ _ _ _ (find_exit_spec (child_fuel k) ch k t [] (c0 :: l0) T Hn Hl (Nat.lt_le_incl _ _ (child_fuel_enough ch k t _ T Hl)))).
  destruct (first_exited k (c0 :: l0)) as [c|] eqn:Ee; [left|right].
  - destruct (first_exited_split _ _ _ Ee) as (l1 & l2 & El & Hc & H1). rewrite El in Hl.
    destruct (reap_spec ch k t l1 c l2 a0 root pt T Hn Ht Hl Hs) as (k' & p & ts & R). exists l1, c, l2, k', p, ts. by destruct_and!.
  - split; [done|]. split; [by apply first_exited_none|].
    destruct (lookup_lt_is_Some_2 (m_tasks (k_mach k)) t) as [ts Ets]; [by rewrite Hn|].
    exists (cur (Some t) (put_task t (MkTsk SLEEP (Some (ChChilds t))) (acq (L_task t) (k_mach k)))). split; [|by apply acq_leaving].
    unfold on_km, zoom, sleep. by rewrite (bind_ok _ _ _ _ _ (sleep_enter_none t (ChChilds t) (k_mach k) ts Hq Ht Ets)).
Qed.

(** C6: the loop of [sys_exit] gives the children of the task, in their order, to the
    first task, at the end of its list; the [parent] of each is the first task then,
    and nothing else changes.  It ends for every task but the first, and for the first task
    when it has at most one child, which stays where it is; when the first task exits
    with two children or more the loop never ends. *)
Theorem exit_gives_children ch k t l l0 : tree_ok ch (k_cnodes k) (k_procs k) → quiet (k_mach k) →
  ch !! t = Some l → ch !! 0%nat = Some l0 →
  if decide (t = 0%nat ∧ (2 ≤ length l)%nat)
  then ∀ fuel, ∃ k', reparent fuel t (ld_next (k_cnodes k) (Some (Childs t)) ≫= id) k = Spin k'
  else ∃ k', give_children t k = Ok tt k' ∧ same_res k k' ∧
    tree_ok (if decide (t = 0%nat) then ch else <[0%nat := l0 ++ l]> (<[t := []]> ch)) (k_cnodes k') (k_procs k') ∧
    ∀ c, k_procs k' !! c = (if decide (c ∈ l) then set_parent (Some 0%nat) else id) <$> k_procs k !! c.
Proof.
  intros T Hq Hl Hl0. pose proof (dlist_first _ _ _ (tr_list _ _ _ T t l Hl)) as Ef. fold (first_child t l) in Ef.
  pose proof (Nat.lt_le_incl _ _ (child_fuel_enough ch k t _ T Hl)) as Hfuel. case_decide as Hd.
  - destruct Hd as [-> H2]. intros fuel. rewrite Ef. destruct l as [|c l]; [cbn in H2; lia|].
    apply (reparent_first_task fuel ch k c l T Hq Hl). intros ->. cbn in H2. lia.
  - unfold give_children. rewrite (bind_deref _ _ _ (first_child t l)) by exact Ef. rewrite bind_gets. case_decide as H0.
    + subst t. apply reparent_first_short; try done. apply not_and_l in Hd as [?|?]; [done|lia].
    + by apply reparent_spec.
Qed.

(** When the first task exits and has two children or more, the loop of [sys_exit]
    does not end: it moves the children from the front of the list to its end. *)
Theorem exit_first_task_loops ch k c l fuel : tree_ok ch (k_cnodes k) (k_procs k) → quiet (k_mach k) →
  ch !! 0%nat = Some (c :: l) → l ≠ [] →
  ∃ k', reparent fuel 0 (ld_next (k_cnodes k) (Some (Childs 0)) ≫= id) k = Spin k'.
Proof.
  intros T Hq Hl Hn. rewrite (dlist_first _ _ _ (tr_list _ _ _ T _ _ Hl)). by eapply reparent_first_task.
Qed.
End claims.

(** ** A first task with two children, the first of which has one *)

Definition proc_of (pid e : Z) (p : option nat) : proc := MkProc pid pid p e None 0 [] (replicate 16 0).
(** Tasks 1 and 3 sleep, task 2 has exited with code 7. *)
Definition procs2 : list proc :=
  proc_of 1 0 None :: proc_of 2 0 (Some 0%nat) :: proc_of 3 7 (Some 0%nat) :: proc_of 4 0 (Some 1%nat) :: replicate (NPROC - 4) (proc_of 0 0 None).
Definition mach2 : mach := MkMach (MkCpu 0 true false 0 (Some 0%nat)) ∅
  (MkTsk RUN None :: MkTsk SLEEP None :: MkTsk EXIT None :: MkTsk SLEEP None :: replicate (NPROC - 4) (MkTsk FREE None)).
Definition nodes0 : gmap cnode (list_node cnode) :=
  <[Childs 1 := LNode (Some (Childs 1)) (Some (Childs 1))]> (<[Childs 0 := LNode (Some (Childs 0)) (Some (Childs 0))]>
    (list_to_map ((λ t, (Self t, LNode None None)) <$> seq 0 NPROC))).
Lemma tree0 : tree_ok {[ 0%nat := []; 1%nat := [] ]} nodes0 procs2.
Proof.
  split.
  - intros t l. rewrite lookup_insert_Some, lookup_singleton_Some. intros [[<- <-]|(_ & <- & <-)]; (split; [apply NoDup_singleton|]); done.
  - intros t l c. rewrite lookup_insert_Some, lookup_singleton_Some. intros [[<- <-]|(_ & <- & <-)] H; by apply elem_of_nil in H.
  - intros c Hc. unfold nodes0. rewrite !lookup_insert_ne by done. apply elem_of_dom. rewrite dom_list_to_map_L, elem_of_list_to_set.
    rewrite <- list_fmap_compose. apply list_elem_of_fmap. exists c. split; [done|]. apply elem_of_seq. lia.
  - done.
Qed.
Lemma tree3 : ∃ h, tree_ok {[ 0%nat := [1%nat; 2%nat]; 1%nat := [3%nat] ]} h procs2.
Proof.
  assert (Hin : ∀ (a b : list nat) c t l, ({[ 0%nat := a; 1%nat := b ]} : gmap nat (list nat)) !! t = Some l → c ∉ a → c ∉ b → c ∉ l).
  { intros a b c t l. rewrite lookup_insert_Some, lookup_singleton_Some. by intros [[<- <-]|(_ & <- & <-)]. }
  destruct (tree_push _ _ _ 0 [] 1 tree0) as (h1 & _ & T1); [done|unfold NPROC; lia| |done|].
  { intros t l Hl. eapply Hin; [exact Hl|apply not_elem_of_nil..]. }
  rewrite insert_insert_eq in T1. cbn [app] in T1.
  destruct (tree_push _ _ _ 0 [1%nat] 2 T1) as (h2 & _ & T2); [done|unfold NPROC; lia| |done|].
  { intros t l Hl. eapply Hin; [exact Hl|by rewrite list_elem_of_singleton|apply not_elem_of_nil]. }
  rewrite insert_insert_eq in T2. cbn [app] in T2.
  destruct (tree_push _ _ _ 1 [] 3 T2) as (h3 & _ & T3); [done|unfold NPROC; lia| |done|].
  { intros t l Hl. eapply Hin; [exact Hl|by rewrite elem_of_cons, list_elem_of_singleton; intros [|]|apply not_elem_of_nil]. }
  exists h3. exact T3.
Qed.
Definition kern2 (h : gmap cnode (list_node cnode)) (p : pmem) : kern (S:=mach * @bcache ram_disk) :=
  MkKern ((bset_mach mach2 fs_state, icache0), ((p, init_slots), (pipes0, tt))) init_slots init_slots ∅
    (MkTmem None (paddr_of 1) 0 0 :: replicate (NPROC - 1) (MkTmem None 0 0 0)) init_slots [7; 0; 0; 0] procs2 h.
Lemma kern2_mach h p : k_mach (kern2 h p) = mach2.
Proof. apply bmach_set. Qed.

Lemma wait_reaps_child_witness : ∃ h p k' pt, tree_ok {[ 0%nat := [1%nat; 2%nat]; 1%nat := [3%nat] ]} h procs2 ∧
  sys_wait 65536 (kern2 h p) = Ok 3 k' ∧ user_byte pt (k_pmem k') 65536 = Some 7 ∧
  tree_ok {[ 0%nat := [1%nat]; 1%nat := [3%nat] ]} (k_cnodes k') procs2 ∧ m_tasks (k_mach k') !! 2%nat = Some (MkTsk FREE None).
Proof.
  destruct vm0_ok as [V Hz]. assert (HN : (0 < NPAGE)%nat) by (pose proof NPAGE_Z; lia).
  destruct (uspace_one_page 16 0 _ _ _ _ _ V Hz vm0_page0 HN) as (s & pt & E & U & Hf); [cbn [length]; lia|lia|by vm_compute|].
  destruct tree3 as [h T]. pose proof (kern2_mach h s.2) as Em.
  destruct (wait_reaps_child {[ 0%nat := [1%nat; 2%nat]; 1%nat := [3%nat] ]} (kern2 h s.2) 0 [1%nat; 2%nat] 65536 1 pt T)
    as [[? _]|[(l1 & c & l2 & k' & p & ts & El & Hc & H1 & Ep & Ets & Ew & T' & Eps & Emk & B)|(_ & Hno & _)]];
    [rewrite Em; split; reflexivity|rewrite Em; reflexivity|rewrite Em; reflexivity|apply Nat.ltb_lt; reflexivity|reflexivity| |congruence| |].
  { clear E V Hz. intros _. split; [reflexivity|]. split; [exact U|]. intros i Hi. apply user_byte_some; [apply U|]. rewrite Hf by lia. by eexists. }
  - unfold exited in Hc, H1. rewrite Em in Hc, H1, Ets, Emk.
    destruct l1 as [|x1 l1]; injection El as <- El; [done|]. destruct l1 as [|x2 l1]; injection El as <- El; [|by destruct l1].
    subst l2. injection Ep as <-. injection Ets as <-. exists h, s.2, k', pt. split; [exact T|]. split; [exact Ew|]. split.
    { rewrite decide_False in B by done. rewrite (B 65536), decide_True by lia. reflexivity. }
    split; [|by rewrite Emk]. rewrite Eps in T'. rewrite insert_insert_eq in T'. exact T'.
  - inversion_clear Hno as [|? ? _ Hno2]. inversion_clear Hno2 as [|? ? Hx _]. exfalso. apply Hx. unfold exited. by rewrite Em.
Defined.
Lemma exit_gives_children_witness : ∃ h k', give_children 1 (kern2 h boot_mem) = Ok tt k' ∧
  tree_ok {[ 0%nat := [1%nat; 2%nat; 3%nat]; 1%nat := [] ]} (k_cnodes k') (k_procs k').
Proof.
  destruct tree3 as [h T]. exists h. assert (Hq : quiet (k_mach (kern2 h boot_mem))) by (by rewrite kern2_mach).
  pose proof (exit_gives_children _ (kern2 h boot_mem) 1 [3%nat] [1%nat; 2%nat] T Hq eq_refl eq_refl) as H.
  rewrite decide_False in H by (intros [? _]; discriminate). destruct H as (k' & E & _ & T' & _).
  exists k'. split; [exact E|exact T'].
Defined.
Lemma exit_first_task_loops_witness : ∃ h k', tree_ok {[ 0%nat := [1%nat; 2%nat]; 1%nat := [3%nat] ]} h procs2 ∧
  reparent 1000 0 (ld_next h (Some (Childs 0)) ≫= id) (kern2 h boot_mem) = Spin k'.
Proof.
  destruct tree3 as [h T]. exists h. destruct (exit_first_task_loops _ (kern2 h boot_mem) 1 [2%nat] 1000 T) as (k' & E); [|done..|].
  { by rewrite kern2_mach. }
  exists k'. split; [exact T|exact E].
Defined.
