(* ===== verification/ElfResults.v ===== *)
(** Results on programs (kernel/task/elf.c): what [load_segment] leaves in the memory of
    a task, against a reference definition on the bytes of the file. *)
From S2P Require Import Prelude Bytes ListNode Machine BlockIO Fs Inode PageAlloc Vm Pipe Slot File Sysfs UserCopy TaskMem TaskSpace TaskDrop Task TaskResults Elf.

(** ** The memory of one segment *)

(** The pages the user can reach belong to the task and hold no table. *)
Definition frames_own (tl : gmap nat (list nat)) (s : tms) (t : nat) (a : space) : Prop :=
  ∀ va i, uaddr va → mem_frame s a va = Some i → owns tl t i ∧ ∀ y, sp_pt a !! y ≠ Some i.
(** A state in which the memory of task [t] can change. *)
Record own_space (A : gmap nat space) (fl : list nat) (tl : gmap nat (list nat)) (s : tms) (t : nat) (a : space) : Prop := {
  os_inv : tasks_inv A fl tl s;
  os_task : A !! t = Some a;
  os_frames : frames_own tl s t a;
}.
(** What a change for task [t] keeps for the others: the memory of the other tasks, and
    the pages of [F] that no task owns. *)
Record others_keep (F : nat → Prop) (A : gmap nat space) (tl : gmap nat (list nat)) (s : tms) (tl' : gmap nat (list nat)) (s' : tms) (t : nat) : Prop := {
  ok_task t' b : A !! t' = Some b → t' ≠ t → keeps tl s tl' s' t' b ∧ mm_heap s' t' = mm_heap s t';
  ok_page q : F q → page_ok tl (pmem_of s) q → page_ok tl' (pmem_of s') q;
}.
Lemma others_refl F A tl s t : others_keep F A tl s tl s t.
Proof. by split. Qed.
Lemma others_trans F A tl s tl1 s1 tl2 s2 t a : others_keep F A tl s tl1 s1 t → others_keep F (<[t := a]> A) tl1 s1 tl2 s2 t →
  others_keep F A tl s tl2 s2 t.
Proof.
  intros [A1 A2] [B1 B2]. split; [|by eauto]. intros t' b Hb Hne. destruct (A1 t' b Hb Hne) as [Q1 Q2].
  destruct (B1 t' b ltac:(by rewrite lookup_insert_ne) Hne) as [Q3 Q4]. split; [by eapply keeps_trans|congruence].
Qed.
Lemma others_tframe F A fl tl s t a k j fl' tl' pt' s' : tasks_inv A fl tl s → A !! t = Some a →
  tframe t k j fl tl (sp_pt a) s fl' tl' pt' s' → others_keep F A tl s tl' s' t.
Proof.
  intros I Ha Fr. split; [|intros q _; destruct (tf_grow _ _ _ _ _ _ _ _ _ _ _ Fr) as (n & nt & _ & G & _); by eapply mgrow_page_ok; [apply I|]].
  intros t' b Hb Hne. split; [by eapply (tframe_keeps A fl tl s t a)|by eapply tf_heap].
Qed.

Definition with_mach (m : mach) (s : tms) : tms := set_pm (m, pmem_of s) s.
Lemma with_mach_step A fl tl s t a m : tasks_inv A fl tl s → mach_frame (mach_of s) m →
  tasks_inv A fl tl (with_mach m s) ∧ tframe t 0 0 fl tl (sp_pt a) s fl tl (sp_pt a) (with_mach m s).
Proof.
  intros [I1 I2 I3 I4 I5 I6 I7 I8] Hm. split.
  - split; try done; [by eapply frame_quiet|]. intros t' b Hb. destruct (I5 t' b Hb). by split.
  - destruct (tframe_refl t fl tl (sp_pt a) s) as [F1 F2 F3 F4 F5 F6 F7]. by split.
Qed.
Lemma st_bytes_page i d m p : (i < NPAGE)%nat → (length d ≤ PGBYTES)%nat →
  st_bytes (paddr_of i) d (m, p) = Ok tt (m, put_page i (blit 0 d (page_data p i)) p).
Proof.
  intros Hi Hd. unfold st_bytes, update. destruct (ram_page_paddr i 0 Hi ltac:(lia)) as [R1 R2].
  rewrite Z.add_0_r in R1, R2. rewrite R1, R2. cbn. by rewrite decide_True.
Qed.
(** The byte behind an address that [task_vmmap] has just mapped, and behind another. *)
Lemma view_mapped s a qa i attr va : page_args qa i attr → Z.land attr PTE_RWX ≠ 0 → in_range (qa * 2 ^ 12) 1 va →
  trans (sp_pt a) (pmem_of s) va = mapped_pte (qa * 2 ^ 12) (paddr_of i) attr va →
  mem_view s a va = (λ b, (b, Z.lor PTE_V attr)) <$> page_data (pmem_of s) i !! Z.to_nat (va mod 4096).
Proof.
  intros Hargs Hrw Hr T. unfold mem_view, pte_view. rewrite T. destruct (pte_mapped qa i attr va Hargs Hrw Hr) as [-> ->].
  cbn [mbind option_bind]. by destruct (_ !! _).
Qed.
Lemma view_other A fl tl s t a k j fl' tl' pt' s' va : own_space A fl tl s t a → tframe t k j fl tl (sp_pt a) s fl' tl' pt' s' →
  uaddr va → ∀ b, sp_pt b = pt' → trans pt' (pmem_of s') va = trans (sp_pt a) (pmem_of s) va →
  mem_view s' b va = mem_view s a va ∧ mem_frame s' b va = mem_frame s a va.
Proof.
  intros [I Ha Fr] F Hva b Eb T. unfold mem_view, mem_frame, pte_view. rewrite Eb, T. split; [|done].
  destruct (pte_frame _ va) as [i|] eqn:E; [|done]. cbn. destruct (Fr va i Hva E) as [O Y].
  by rewrite (proj2 (tf_plain _ _ _ _ _ _ _ _ _ _ _ F i ltac:(split; [by apply (owns_page _ _ _ _ _ (ti_pages _ _ _ _ I) O)|done]))).
Qed.

(** A page is allocated and filled, then mapped at page [qa]; the machine may move on
    between the first two. *)
Lemma seg_step A fl tl s t a qa attr ty d h : own_space A fl tl s t a → (4 ≤ length fl)%nat →
  refs (ts_vmas s) < Z.of_nat (NSLOT_DEFAULT * NVMA_CHUNK) → 0 ≤ qa → qa * 2 ^ 12 + PGSIZE ≤ TRAPFRAME → 0 ≤ attr < 2 ^ 10 →
  Z.land attr PTE_RWX ≠ 0 → (length d ≤ PGBYTES)%nat → bytes_ok d →
  ∃ i s1, on_page (alloc_page_for_task t) s = Ok i s1 ∧ mach_frame (mach_of s) (mach_of s1) ∧
    ∀ m1, mach_frame (mach_of s1) m1 → ∃ s2 s3 mm, on_page (st_bytes (paddr_of i) d) (with_mach m1 s1) = Ok tt s2 ∧ mach_of s2 = m1 ∧
      task_vmmap t (qa * 2 ^ 12) (paddr_of i) PGSIZE attr ty s2 = Ok tt s3 ∧ mach_frame m1 (mach_of s3) ∧ mm_of t s3 = Ok mm s3 ∧
      let s' := set_mms (store_obj mm0 mm (MkMm h)) s3 in
      ∃ fl' tl' a', own_space (<[t := a']> A) fl' tl' s' t a' ∧ (length fl ≤ length fl' + 4)%nat ∧ refs (ts_vmas s') = refs (ts_vmas s) + 1 ∧
        (∀ va, uaddr va → mem_view s' a' va = if decide (in_range (qa * 2 ^ 12) 1 va)
           then Some (default 0 (d !! Z.to_nat (va mod 4096)), Z.lor PTE_V attr) else mem_view s a va) ∧
        mm_heap s' t = Some h ∧ ∀ P, others_keep P A tl s tl' s' t.
Proof.
  intros [I Ha Fr] Hfl Hr Hqa Hva Hattr Hrw Hd Hby. destruct fl as [|i fl1]; [cbn in Hfl; lia|].
  destruct (task_page_step A i fl1 tl s t a I Ha) as (s1 & E1 & I1 & F1 & Ev1 & _ & Hz & P1 & O1 & Hnu & T1).
  destruct (owns_page _ _ _ _ _ (ti_pages _ _ _ _ I1) O1) as [Hi _]. exists i, s1. split; [done|]. split; [apply F1|]. intros m1 Hm1.
  destruct (with_mach_step A fl1 _ s1 t a m1 I1 Hm1) as [I1' F1']. pose proof (tframe_trans _ _ _ _ _ _ _ _ _ _ _ _ _ _ _ _ _ F1 F1') as Fa.
  set (d' := blit 0 d zero_page). assert (Hl' : length d' = PGBYTES) by (unfold d'; rewrite length_blit; unfold zero_page; rewrite ?length_replicate; lia).
  assert (Hd' : ∀ k, (k < PGBYTES)%nat → d' !! k = Some (default 0 (d !! k))).
  { intros k Hk. unfold d'. rewrite lookup_blit by (unfold zero_page; rewrite length_replicate; lia). case_decide as Hin.
    - rewrite Nat.sub_0_r. destruct (lookup_lt_is_Some_2 d k) as [v ->]; [lia|done].
    - rewrite (lookup_ge_None_2 d) by lia. unfold zero_page. by rewrite lookup_replicate_2. }
  destruct (task_fill A fl1 _ (with_mach m1 s1) t a i d' I1' Ha O1 (proj2 P1) Hl') as [I2 T2].
  { apply bytes_ok_blit; [done|apply bytes_ok_replicate]. }
  pose proof (tframe_fill _ _ _ _ _ _ _ _ _ _ _ i d' Fa Hnu) as F2. set (s2 := set_pm (mach_of (with_mach m1 s1), _) _) in *.
  pose proof (conj Hqa (conj Hva (conj Hi Hattr)) : page_args qa i attr) as Hargs.
  destruct (task_vmmap_step A fl1 _ s2 t a qa i attr ty I2 Ha) as (o & s3 & fl3 & tl3 & pt3 & E3 & I3 & F3 & _ & Hv3 & T3);
    [cbn in Hfl; lia|by change (ts_vmas s2) with (ts_vmas s1); rewrite Ev1|done|]. cbn zeta in T3.
  pose proof (tframe_trans _ _ _ _ _ _ _ _ _ _ _ _ _ _ _ _ _ F2 F3) as F. cbn [Nat.add] in F.
  set (a3 := MkSpace (sp_root a) pt3 (sp_vmas a ++ [o])) in *. set (A3 := <[t := a3]> A) in *. assert (Ha3 : A3 !! t = Some a3) by apply lookup_insert_eq.
  destruct (so_mm _ _ _ _ (ti_space _ _ _ _ I3 t a3 Ha3)) as (mm & Emm & _). exists s2, s3, mm.
  split. { unfold s2, d'. rewrite <- Hz. change (page_data (pmem_of s1)) with (page_data (pmem_of (with_mach m1 s1))).
    apply on_page_ok. by apply st_bytes_page. }
  split; [done|]. split; [done|]. split; [apply F3|]. split.
  { unfold mm_of, task_mem. unfold mm_ptr in Emm. destruct (ts_tasks s3 !! t) as [tm|] eqn:Etm; [|done].
    rewrite (bind_deref _ _ _ tm) by done. cbn in Emm. by rewrite Emm. }
  destruct (mm_store_step A3 fl3 tl3 s3 t mm h I3 Emm ltac:(by eexists)) as (I4 & H4 & K4). set (s4 := set_mms _ s3) in *.
  exists fl3, tl3, a3. destruct (tf_plain _ _ _ _ _ _ _ _ _ _ _ F3 i P1) as [P3 D3].
  assert (Hpd : page_data (pmem_of s4) i = d').
  { change (pmem_of s4) with (pmem_of s3). rewrite D3. unfold s2, pmem_of. cbn. by rewrite page_data_put, decide_True. }
  assert (T : ∀ va, uaddr va → trans pt3 (pmem_of s4) va = if decide (in_range (qa * 2 ^ 12) 1 va)
    then mapped_pte (qa * 2 ^ 12) (paddr_of i) attr va else trans (sp_pt a) (pmem_of s) va).
  { intros va Hv. change (pmem_of s4) with (pmem_of s3). rewrite T3 by (by apply uaddr_vaddr). unfold vstep. cbn [v_va v_pa v_attr].
    case_decide; [done|]. rewrite T2. change (pmem_of (with_mach m1 s1)) with (pmem_of s1). apply T1. }
  split; [split; [exact I4|exact Ha3|]|split; [exact (tf_free _ _ _ _ _ _ _ _ _ _ _ F)|split; [exact (tf_refs _ _ _ _ _ _ _ _ _ _ _ F)|split; [|split; [done|]]]]].
  - intros va j Hv Hj. unfold mem_frame in Hj. cbn [sp_pt a3] in Hj |- *. rewrite T in Hj by done. destruct (decide (in_range (qa * 2 ^ 12) 1 va)) as [Hin|Hn].
    + rewrite (proj1 (pte_mapped qa i attr va Hargs Hrw Hin)) in Hj. injection Hj as <-. split; [exact (tf_owns _ _ _ _ _ _ _ _ _ _ _ _ _ F3 O1)|apply P3].
    + destruct (Fr va j Hv Hj) as [Oj Yj]. split; [by eapply tf_owns|].
      apply (tf_plain _ _ _ _ _ _ _ _ _ _ _ F j). split; [by apply (owns_page _ _ _ _ _ (ti_pages _ _ _ _ I) Oj)|done].
  - intros va Hv. pose proof (T va Hv) as Tv. destruct (decide (in_range (qa * 2 ^ 12) 1 va)) as [Hin|Hn].
    + rewrite (view_mapped s4 a3 qa i attr va Hargs Hrw Hin Tv), Hpd, Hd'; [done|].
      pose proof (Z.mod_pos_bound va 4096 ltac:(lia)). change PGBYTES with 4096%nat. lia.
    + by apply (view_other A _ tl s t a _ _ _ _ _ _ va (Build_own_space _ _ _ _ _ _ I Ha Fr) F Hv a3 eq_refl).
  - intros P. destruct (others_tframe P A _ tl s t a _ _ _ _ _ _ I Ha F) as [K1 K2]. split; [|exact K2]. intros t' b Hb Hne.
    destruct (K1 t' b Hb Hne) as [[Q1 Q2] Q3]. split; [by split|]. rewrite K4; [done|done|unfold A3; rewrite lookup_insert_ne by done; by eexists].
Qed.

(** ** The state of the kernel, seen by the memory and by the files *)
Section load.
Context {S : Type} {IO : BlockIO S} (sb : superblock) (WF : sb_wf sb).
Implicit Types (k : @kern S).

Definition tms_of k : tms := MkTms (k_mach k, k_pmem k) (k_vmas k) (k_mms k) (k_vnodes k) (k_tmem k).
Definition io_of k : S := (k_st k).1.1.
Definition file_in k (f : optr) : file := the_file (k_st k).2 f.

(** The slots of files: at most the object [f] differs. *)
Definition k_files k : slots file := (k_st k).2.1.2.
Record same_files (f : optr) (st st' : slots file) : Prop := {
  sf_slots : sl_slots st' = sl_slots st;
  sf_inuse g : c_inuse (chunk_of file0 st' g) = c_inuse (chunk_of file0 st g);
  sf_belong g : c_belong (chunk_of file0 st' g) = c_belong (chunk_of file0 st g);
  sf_obj g : g ≠ f → c_obj (chunk_of file0 st' g) = c_obj (chunk_of file0 st g);
}.
Lemma same_files_store f v st : same_files f st (store_obj file0 f v st).
Proof.
  split; [done|..]; intros g; destruct (store_obj_same file0 f v st g) as (H1 & H2 & H3); [done|done|].
  intros Hg. rewrite H3. by rewrite decide_False.
Qed.
(** What a step that reads [f] keeps, besides the memory of the tasks. *)
Record load_frame (f : optr) k k' : Prop := {
  lf_io : io_step keep (io_of k) (io_of k');
  lf_inodes : (k_st k').1.2 = (k_st k).1.2;
  lf_files : same_files f (k_files k) (k_files k');
  lf_pipes : (k_st k').2.2 = (k_st k).2.2;
  lf_procs : k_procs k' = k_procs k;
  lf_rest : k_fss k' = k_fss k ∧ k_tids k' = k_tids k ∧ k_cnodes k' = k_cnodes k;
}.
Lemma load_frame_refl f k : bio_ok (io_of k) → load_frame f k k.
Proof. by intros Hok. Qed.
Lemma load_frame_trans f k1 k2 k3 : load_frame f k1 k2 → load_frame f k2 k3 → load_frame f k1 k3.
Proof.
  intros [A1 A2 [B1 B2 B3 B4] A4 A5 (A6 & A7 & A8)] [C1 C2 [D1 D2 D3 D4] C4 C5 (C6 & C7 & C8)].
  split; [by eapply io_step_ext, io_step_trans, C1; [|exact A1]|congruence| |congruence|congruence|split_and!; congruence].
  split; [congruence|..]; intros g; [by rewrite D2|by rewrite D3|intros Hg; by rewrite D4, B4].
Qed.

(** An operation on the memory of the tasks. *)
Lemma on_tms_run {B} (m : TaskMem.TM B) k b s : bio_ok (io_of k) → m (tms_of k) = Ok b s → mach_frame (k_mach k) (mach_of s) →
  ∃ k', on_tms m k = Ok b k' ∧ tms_of k' = s ∧ (∀ f, load_frame f k k') ∧ (∀ f, file_in k' f = file_in k f).
Proof.
  intros Hok E Hm. eexists. split; [unfold on_tms, zoom; fold (tms_of k); by rewrite E|].
  split; [|split; [|done]]; [|intros f; split; try done].
  - unfold tms_of, k_mach, k_pmem. cbn. rewrite bmach_set. destruct s as [[m' p'] ? ? ? ?]. done.
  - unfold io_of. cbn. destruct (bset_mach_view (k_st k).1.1 (mach_of s)) as (V1 & V2 & V3).
    split; [by apply bset_mach_ok|done|done|by rewrite bmach_set|]. intros n _. apply V1.
Qed.
(** An operation on files that changes at most [f] and leaves the inodes alone. *)
Lemma on_kst_run {B} (m : M (@kst S unit) B) k b s f v : m (k_st k) = Ok b ((s, (k_st k).1.2), with_file (k_st k).2 f v) →
  io_step keep (io_of k) s → ∃ k', on_kst m k = Ok b k' ∧ tms_of k' = with_mach (bmach s) (tms_of k) ∧ mach_frame (k_mach k) (bmach s) ∧
    load_frame f k k' ∧ file_in k' f = v.
Proof.
  intros E St. eexists. split; [unfold on_kst, zoom; by rewrite E|]. split; [done|]. split; [apply St|].
  split; [|apply the_with_file]. split; try done. apply (same_files_store f v).
Qed.

(** The open file [f] is inode [i] with the contents [data], at offset [off]. *)
Record file_ready (f : optr) (i : nat) (ino : inode) (v : file) (data : list Z) (off : Z) k : Prop := {
  fr_ok : bio_ok (io_of k);
  fr_room : room 1 (io_of k);
  fr_slot : slot_of sb (k_st k).1.2 i ino;
  fr_blocks : blocks_ok sb (io_of k) (di_iblock (i_di ino)) 0 (di_fsize (i_di ino));
  fr_data p : 0 ≤ p < di_fsize (i_di ino) → file_byte (bio_disk (io_of k)) (di_iblock (i_di ino)) p = data !! Z.to_nat p;
  fr_len : Z.of_nat (length data) = di_fsize (i_di ino);
  fr_max : di_fsize (i_di ino) ≤ DIRECT_BYTES;
  fr_bytes : bytes_ok data;
  fr_obj : f_obj v = Some i;
  fr_type : f_type v = INODE;
  fr_file : file_in k f = set_off off v;
  fr_off : 0 ≤ off ≤ di_fsize (i_di ino);
}.
Lemma file_ready_step f i ino v data off off' k k' : file_ready f i ino v data off k → load_frame f k k' → file_in k' f = set_off off' v →
  0 ≤ off' ≤ di_fsize (i_di ino) → file_ready f i ino v data off' k'.
Proof.
  intros [H1 H2 H3 H4 H5 H6 H7 H8 H9 H10 H11 H12] [St El _ _ _ _] Ef Ho. split; try done.
  - apply St.
  - by eapply io_step_room.
  - by rewrite El.
  - by eapply blocks_ok_step.
  - intros p Hp. rewrite <- H5 by done. apply (file_byte_step sb WF); [done|]. intros e He.
    destruct (H4 p Hp) as (e' & Q1 & Q2 & _). congruence.
Qed.
(** An operation on the memory leaves the file as it is. *)
Lemma load_tms {B} (m : TaskMem.TM B) f i ino v data off k b s : file_ready f i ino v data off k → m (tms_of k) = Ok b s →
  mach_frame (k_mach k) (mach_of s) → ∃ k', on_tms m k = Ok b k' ∧ file_ready f i ino v data off k' ∧ tms_of k' = s ∧
    k_mach k' = mach_of s ∧ load_frame f k k'.
Proof.
  intros R E Hm. destruct (on_tms_run m k b s (fr_ok _ _ _ _ _ _ _ R) E Hm) as (k' & X & T & L & F). exists k'. split; [done|].
  split; [|split; [done|split; [by rewrite <- T|done]]]. eapply file_ready_step; [exact R|done| |apply R]. rewrite F. apply R.
Qed.
Lemma set_off_twice o o' v : set_off o (set_off o' v) = set_off o v.
Proof. done. Qed.
(** Reading [n] bytes, all of which are there. *)
Lemma load_read f i ino v data off n k : file_ready f i ino v data off k → 0 ≤ n → off + n ≤ Z.of_nat (length data) →
  let d := take (Z.to_nat n) (drop (Z.to_nat off) data) in
  ∃ k' m, on_kst (fread f None n) k = Ok (n, d) k' ∧ file_ready f i ino v data (off + n) k' ∧
    tms_of k' = with_mach m (tms_of k) ∧ mach_frame (k_mach k) m ∧ load_frame f k k' ∧
    length d = Z.to_nat n ∧ bytes_ok d.
Proof.
  intros R Hn Hle d. pose proof R as [H1 H2 H3 H4 H5 H6 H7 H8 H9 H10 H11 H12]. unfold DIRECT_BYTES in *.
  assert (Ev : the_file (k_st k).2 f = set_off off v) by exact H11.
  destruct (fread_run sb WF f i n (io_of k) (k_st k).1.2 (k_st k).2 ino H3) as (s' & d' & E & St & Hl & Hd); rewrite ?Ev; cbn [f_obj f_off set_off];
    [done|lia|lia|unfold DIRECT_BYTES; lia|lia|done|done|intros p Hp; apply H4; lia|].
  rewrite Ev in E, Hl, Hd. cbn [f_off set_off] in E, Hl, Hd. rewrite Z.min_l in E, Hl, Hd by lia.
  assert (Hld : length d = Z.to_nat n) by (unfold d; rewrite length_take, length_drop; lia).
  assert (Ed : d' = d).
  { apply list_eq_same_length with (Z.to_nat n); [done|lia|]. intros j x y Hj Hx Hy.
    specialize (Hd (Z.of_nat j) ltac:(lia)). rewrite Nat2Z.id, H5 in Hd by lia. unfold d in Hy.
    rewrite lookup_take_lt, lookup_drop in Hy by lia. replace (Z.to_nat (off + Z.of_nat j)) with (Z.to_nat off + j)%nat in Hd by lia. congruence. }
  subst d'. rewrite set_off_twice in E.
  destruct (on_kst_run (fread f None n) k (n, d) s' f (set_off (off + n) v)) as (k' & E' & Et & Hm & L & Ef); [|done|].
  { etransitivity; [|exact E]. f_equal. unfold io_of. by destruct (k_st k) as [[? ?] ?]. }
  exists k', (bmach s'). split; [done|]. split.
  - eapply file_ready_step; [exact R|done|done|lia].
  - split_and!; try done. unfold d. by apply bytes_ok_take, bytes_ok_drop.
Qed.
(** Moving to [o] inside the file. *)
Lemma load_seek f i ino v data off o k : file_ready f i ino v data off k → 0 ≤ o ≤ Z.of_nat (length data) →
  ∃ k', on_kst (fseek f (i32 o) SEEK_SET) k = Ok off k' ∧ file_ready f i ino v data o k' ∧
    tms_of k' = tms_of k ∧ load_frame f k k'.
Proof.
  intros R Ho. pose proof R as [H1 H2 H3 H4 H5 H6 H7 H8 H9 H10 H11 H12]. pose proof H3 as (Ea & _). unfold DIRECT_BYTES in *.
  rewrite i32_id by lia. assert (Ev : the_file (k_st k).2 f = set_off off v) by exact H11.
  assert (E : fseek f o SEEK_SET (k_st k) = Ok off (((io_of k), (k_st k).1.2), with_file (k_st k).2 f (set_off o v))).
  { unfold io_of. destruct (k_st k) as [[s l] x] eqn:Ek. cbn [fst snd] in *. unfold fseek. run (file_at_ok f (s, l) x). rewrite Ev.
    cbn [f_type f_obj f_off set_off]. rewrite bool_decide_eq_true_2 by done. change (SEEK_SET =? SEEK_CUR) with false. change (SEEK_SET =? SEEK_SET) with true. cbv iota.
    rewrite H9. go. run (on_ist_ok _ _ x _ _ (inode_at_ok i s l ino Ea)). run (put_file_ok f (set_off (cmin (di_fsize (i_di ino)) (u32 (cmax 0 o))) (set_off off v)) (s, l) x).
    rewrite cmax_max, u32_id, cmin_min, set_off_twice by lia. replace (Z.min (di_fsize (i_di ino)) (Z.max 0 o)) with o by lia. done. }
  destruct (on_kst_run _ k off (io_of k) f _ E) as (k' & E' & Et & Hm & L & Ef); [by apply io_step_refl|].
  exists k'. split; [done|]. split; [|split; [|done]].
  - eapply file_ready_step; [exact R|done|done|lia].
  - rewrite Et. reflexivity.
Qed.

(** ** [load_segment] against a reference *)

(** The bytes of a segment in the file, and what the user sees behind it. *)
Definition seg_bytes (data pg : list Z) : list Z := take (Z.to_nat (p_filesz pg)) (drop (Z.to_nat (p_off pg)) data).
Definition seg_view (data pg : list Z) (w : Z → option (Z * Z)) (va : Z) : option (Z * Z) :=
  if is_load pg && bool_decide (in_range (p_vaddr pg) 1 va)
  then Some (default 0 (seg_bytes data pg !! Z.to_nat (va mod 4096)), Z.lor PTE_V (seg_attr (p_flags pg))) else w va.
Definition load_view (data : list Z) (pgs : list (list Z)) (w : Z → option (Z * Z)) : Z → option (Z * Z) :=
  foldl (λ w pg, seg_view data pg w) w pgs.
Definition load_heap (pgs : list (list Z)) (h : Z) : Z := foldl (λ h pg, if is_load pg then p_vaddr pg + PGSIZE else h) h pgs.
(** The [n] program headers from [off] on. *)
Definition header_at (data : list Z) (off : Z) : list Z := take SZ_PROGHDR (drop (Z.to_nat off) data).
Fixpoint headers (data : list Z) (off : Z) (n : nat) : list (list Z) :=
  match n with O => [] | Datatypes.S n => header_at data off :: headers data (off + 56) n end.
(** A segment of at most a page, at the start of a page of the user, with some right. *)
Record seg_ok (data pg : list Z) : Prop := {
  sg_size : p_filesz pg ≤ PGSIZE;
  sg_file : p_off pg + p_filesz pg ≤ Z.of_nat (length data);
  sg_align : p_vaddr pg mod PGSIZE = 0;
  sg_user : p_vaddr pg + PGSIZE ≤ TRAPFRAME;
  sg_rights : Z.land (p_flags pg) 7 ≠ 0;
}.
Lemma seg_attr_ok flags : Z.land flags 7 ≠ 0 → 0 ≤ seg_attr flags < 2 ^ 10 ∧ Z.land (seg_attr flags) PTE_RWX ≠ 0.
Proof.
  intros Hf. assert (Hx : Z.land flags 4 ≠ 0 ∨ Z.land flags 2 ≠ 0 ∨ Z.land flags 1 ≠ 0).
  { destruct (Z.eq_dec (Z.land flags 4) 0) as [E4|]; [|by left]. destruct (Z.eq_dec (Z.land flags 2) 0) as [E2|]; [|by right; left].
    destruct (Z.eq_dec (Z.land flags 1) 0) as [E1|]; [|by right; right]. exfalso. apply Hf.
    change 7 with (Z.lor 4 (Z.lor 2 1)). by rewrite !Z.land_lor_distr_r, E4, E2, E1. }
  unfold seg_attr, ELF_PROG_FLAG_READ, ELF_PROG_FLAG_WRITE, ELF_PROG_FLAG_EXEC.
  destruct (Z.eqb_spec (Z.land flags 4) 0), (Z.eqb_spec (Z.land flags 2) 0), (Z.eqb_spec (Z.land flags 1) 0); cbn [negb];
    try (exfalso; tauto); (split; [vm_compute; by split|by vm_compute]).
Qed.
Lemma header_nonneg pg : bytes_ok pg → length pg = SZ_PROGHDR → 0 ≤ p_off pg ∧ 0 ≤ p_vaddr pg ∧ 0 ≤ p_filesz pg.
Proof.
  intros Hb Hl. change SZ_PROGHDR with 56%nat in Hl. unfold p_off, p_vaddr, p_filesz.
  pose proof (get_at_bound 8 8 pg Hb ltac:(lia)). pose proof (get_at_bound 8 16 pg Hb ltac:(lia)). pose proof (get_at_bound 8 32 pg Hb ltac:(lia)). lia.
Qed.

Lemma view_ext data pgs w w' va : w va = w' va → load_view data pgs w va = load_view data pgs w' va.
Proof. revert w w'. induction pgs as [|pg pgs IH]; intros w w' E; [done|]. apply IH. unfold seg_view. by rewrite E. Qed.

(** One segment. *)
Lemma load_one_spec A fl tl t a f i ino v data off pg k : own_space A fl tl (tms_of k) t a → file_ready f i ino v data off k →
  (4 ≤ length fl)%nat → refs (k_vmas k) < Z.of_nat (NSLOT_DEFAULT * NVMA_CHUNK) → bytes_ok pg → length pg = SZ_PROGHDR →
  is_load pg = true → seg_ok data pg →
  ∃ k' fl' tl' a', load_one t f pg k = Ok tt k' ∧ own_space (<[t := a']> A) fl' tl' (tms_of k') t a' ∧ file_ready f i ino v data off k' ∧
    (length fl ≤ length fl' + 4)%nat ∧ refs (k_vmas k') = refs (k_vmas k) + 1 ∧
    (∀ va, uaddr va → mem_view (tms_of k') a' va = seg_view data pg (mem_view (tms_of k) a) va) ∧
    mm_heap (tms_of k') t = Some (p_vaddr pg + PGSIZE) ∧ (∀ P, others_keep P A tl (tms_of k) tl' (tms_of k') t) ∧
    load_frame f k k'.
Proof.
  intros Os R Hfl Hr Hpb Hpl Hload [G1 G2 G3 G4 G5]. destruct (header_nonneg pg Hpb Hpl) as (N1 & N2 & N3).
  destruct (seg_attr_ok _ G5) as [Hat Hrw]. pose proof (fr_max _ _ _ _ _ _ _ R) as Hmax. pose proof (fr_len _ _ _ _ _ _ _ R) as Hlen. unfold DIRECT_BYTES in Hmax.
  set (qa := p_vaddr pg / 2 ^ 12). assert (Eqa : p_vaddr pg = qa * 2 ^ 12).
  { unfold qa. unfold PGSIZE in G3. change (2 ^ 12) with 4096. pose proof (Z.div_mod (p_vaddr pg) 4096 ltac:(lia)). lia. }
  assert (0 ≤ qa) by (unfold qa; apply Z.div_pos; lia).
  assert (Eheap : u64 (p_vaddr pg + PGSIZE) = p_vaddr pg + PGSIZE).
  { apply u64_id. change TRAPFRAME with ((2 ^ 26 - 2) * 2 ^ 12) in G4. unfold PGSIZE in *. lia. }
  set (d := seg_bytes data pg). assert (Hdl : length d = Z.to_nat (p_filesz pg)) by (unfold d, seg_bytes; rewrite length_take, length_drop; lia).
  destruct (seg_step A fl tl (tms_of k) t a qa (seg_attr (p_flags pg)) (seg_type (seg_attr (p_flags pg))) d (p_vaddr pg + PGSIZE) Os Hfl Hr)
    as (j & s1 & E1 & M1 & Step); [done|by rewrite <- Eqa|done|done|change PGBYTES with 4096%nat; unfold PGSIZE in G1; lia| |].
  { unfold d, seg_bytes. apply bytes_ok_take, bytes_ok_drop, (fr_bytes _ _ _ _ _ _ _ R). }
  destruct (load_tms _ _ _ _ _ _ _ k j s1 R E1 M1) as (k1 & X1 & R1 & T1 & Em1 & L1).
  destruct (load_seek f i ino v data off (p_off pg) k1 R1) as (k2 & X2 & R2 & T2 & L2); [lia|].
  destruct (load_read f i ino v data (p_off pg) (p_filesz pg) k2 R2) as (k3 & m3 & X3 & R3 & T3 & M3 & L3 & _); [lia|lia|]. fold (seg_bytes data pg) in X3. fold d in X3.
  change (k_mach k2) with (mach_of (tms_of k2)) in M3. rewrite T2, T1 in M3, T3.
  destruct (Step m3 M3) as (s4 & s5 & mm & E4 & M4 & E5 & M5 & Emm & fl' & tl' & a' & Os' & Hfl' & Hr' & W & Hh & K). cbn zeta in *. rewrite <- Eqa in E5, W. rewrite <- T3 in E4.
  destruct (load_tms _ _ _ _ _ _ _ k3 tt s4 R3 E4) as (k4 & X4 & R4 & T4 & Em4 & L4).
  { change (k_mach k3) with (mach_of (tms_of k3)). by rewrite T3, M4. }
  destruct (load_seek f i ino v data _ off k4 R4) as (k5 & X5 & R5 & T5 & L5); [rewrite Hlen; apply R|].
  rewrite <- T4, <- T5 in E5. destruct (load_tms _ _ _ _ _ _ _ k5 tt s5 R5 E5) as (k6 & X6 & R6 & T6 & Em6 & L6).
  { change (k_mach k5) with (mach_of (tms_of k5)). by rewrite T5, T4, M4. }
  rewrite <- T6 in Emm. destruct (load_tms _ _ _ _ _ _ _ k6 mm (tms_of k6) R6 Emm ltac:(done)) as (k7 & X7 & R7 & T7 & Em7 & L7).
  set (s8 := set_mms (store_obj mm0 mm (MkMm (p_vaddr pg + PGSIZE))) s5) in *.
  destruct (load_tms (modify (set_mms (store_obj mm0 mm (MkMm (u64 (p_vaddr pg + PGSIZE)))))) _ _ _ _ _ _ k7 tt s8 R7) as (k8 & X8 & R8 & T8 & Em8 & L8);
    [by rewrite T7, T6, Eheap|by rewrite Em7, T6|].
  exists k8, fl', tl', a'. rewrite T8. split.
  - unfold load_one. run X1. run X2. unfold fread_page. rewrite u32_id by lia. run X3. run X4. run X5. run X6. run X7. exact X8.
  - split; [done|]. split; [done|]. split; [done|]. split; [change (k_vmas k8) with (ts_vmas (tms_of k8)); by rewrite T8|].
    split; [|split; [done|split; [done|]]].
    + intros va Hva. rewrite W by done. unfold seg_view. rewrite Hload. cbn [andb].
      destruct (decide _); [by rewrite bool_decide_eq_true_2|by rewrite bool_decide_eq_false_2].
    + do 7 (eapply load_frame_trans; [|eassumption]). exact L1.
Qed.

(** A segment of more than a page does not fit the one page [load_segment] allocates for
    it: the bytes of the file go behind the end of the page. *)
Theorem load_big_segment A i0 fl tl t a f i ino v data off pg k : own_space A (i0 :: fl) tl (tms_of k) t a → file_ready f i ino v data off k →
  bytes_ok pg → length pg = SZ_PROGHDR → PGSIZE < p_filesz pg → p_off pg + p_filesz pg ≤ Z.of_nat (length data) →
  ∃ k', load_one t f pg k = Fault k'.
Proof.
  intros [I Ha _] R Hpb Hpl Hbig Hlen. destruct (header_nonneg pg Hpb Hpl) as (N1 & N2 & N3). unfold PGSIZE in Hbig.
  pose proof (fr_max _ _ _ _ _ _ _ R) as Hmax. pose proof (fr_len _ _ _ _ _ _ _ R) as Hl. unfold DIRECT_BYTES in Hmax.
  destruct (task_page_step A i0 fl tl (tms_of k) t a I Ha) as (s1 & E1 & I1 & F1 & _ & _ & _ & _ & O1 & _).
  destruct (owns_page _ _ _ _ _ (ti_pages _ _ _ _ I1) O1) as [Hi _].
  destruct (load_tms _ _ _ _ _ _ _ k i0 s1 R E1 (tf_mach _ _ _ _ _ _ _ _ _ _ _ F1)) as (k1 & X1 & R1 & T1 & _ & _).
  destruct (load_seek f i ino v data off (p_off pg) k1 R1) as (k2 & X2 & R2 & T2 & _); [lia|].
  destruct (load_read f i ino v data (p_off pg) (p_filesz pg) k2 R2) as (k3 & m3 & X3 & R3 & T3 & M3 & _ & Hld & _); [lia|lia|].
  eexists. unfold load_one. run X1. run X2. unfold fread_page. rewrite u32_id by lia. run X3. apply bind_faulted. cbn [snd]. unfold on_tms, zoom.
  fold (tms_of k3). assert (Ef : on_page (st_bytes (paddr_of i0) (take (Z.to_nat (p_filesz pg)) (drop (Z.to_nat (p_off pg)) data))) (tms_of k3) = Fault (tms_of k3)).
  { unfold on_page, zoom, st_bytes, update. destruct (ram_page_paddr i0 0 Hi ltac:(lia)) as [Q1 Q2]. rewrite Z.add_0_r in Q1, Q2. rewrite Q1, Q2. cbn [mbind option_bind].
    rewrite decide_False by (rewrite Hld; change PGBYTES with 4096%nat; lia). by destruct (tms_of k3). }
  rewrite Ef. reflexivity.
Qed.

(** The loop over the headers. *)
Lemma load_loop_spec t f i ino v data n : ∀ A fl tl a off pg0 k h, own_space A fl tl (tms_of k) t a → file_ready f i ino v data off k →
  mm_heap (tms_of k) t = Some h → length pg0 = SZ_PROGHDR → off + 56 * Z.of_nat n ≤ Z.of_nat (length data) → (4 * n ≤ length fl)%nat →
  refs (k_vmas k) + Z.of_nat n ≤ Z.of_nat (NSLOT_DEFAULT * NVMA_CHUNK) → (∀ pg, pg ∈ headers data off n → is_load pg = true → seg_ok data pg) →
  ∃ k' fl' tl' a', load_loop n t f pg0 k = Ok tt k' ∧ own_space (<[t := a']> A) fl' tl' (tms_of k') t a' ∧
    file_ready f i ino v data (off + 56 * Z.of_nat n) k' ∧
    (∀ va, uaddr va → mem_view (tms_of k') a' va = load_view data (headers data off n) (mem_view (tms_of k) a) va) ∧
    mm_heap (tms_of k') t = Some (load_heap (headers data off n) h) ∧ (∀ P, others_keep P A tl (tms_of k) tl' (tms_of k') t) ∧
    load_frame f k k'.
Proof.
  induction n as [|n IH]; intros A fl tl a off pg0 k h Os R Hh Hpg Hlen Hfl Hr Hsg.
  { exists k, fl, tl, a. rewrite insert_id by apply Os. replace (off + 56 * Z.of_nat 0) with off by lia. cbn.
    split_and!; try done. apply load_frame_refl, R. }
  destruct (load_read f i ino v data off 56 k R) as (k1 & m1 & X1 & R1 & T1 & M1 & L1 & Hl1 & Hb1); [lia|lia|].
  fold (header_at data off) in X1. change (take (Z.to_nat 56) (drop (Z.to_nat off) data)) with (header_at data off) in *. set (pg := header_at data off) in *.
  assert (Epg : blit 0 pg pg0 = pg).
  { unfold blit. rewrite take_0, drop_ge, app_nil_r; [done|]. rewrite Hl1, Hpg. unfold SZ_PROGHDR. lia. }
  destruct Os as [I Ha Fr]. destruct (with_mach_step A fl tl (tms_of k) t a m1 I M1) as [I1 F1].
  assert (Os1 : own_space A fl tl (tms_of k1) t a) by (rewrite T1; by split).
  assert (K1 : ∀ P, others_keep P A tl (tms_of k) tl (tms_of k1) t) by (intros P; rewrite T1; by eapply others_tframe).
  cbn [load_loop headers load_view load_heap foldl].
  enough (∃ k2 fl2 tl2 a2, when (is_load pg) (load_one t f pg) k1 = Ok tt k2 ∧ own_space (<[t := a2]> A) fl2 tl2 (tms_of k2) t a2 ∧
    file_ready f i ino v data (off + 56) k2 ∧ (length fl ≤ length fl2 + 4)%nat ∧ refs (k_vmas k2) ≤ refs (k_vmas k) + 1 ∧
    (∀ va, uaddr va → mem_view (tms_of k2) a2 va = seg_view data pg (mem_view (tms_of k) a) va) ∧
    mm_heap (tms_of k2) t = Some (if is_load pg then p_vaddr pg + PGSIZE else h) ∧ (∀ P, others_keep P A tl (tms_of k1) tl2 (tms_of k2) t) ∧
    load_frame f k1 k2) as (k2 & fl2 & tl2 & a2 & X2 & Os2 & R2 & N2 & V2 & W2 & H2 & K2 & L2).
  { destruct (IH _ fl2 tl2 a2 (off + 56) pg k2 _ Os2 R2 H2) as (k3 & fl3 & tl3 & a3 & X3 & Os3 & R3 & W3 & H3 & K3 & L3);
      [done|lia|lia|lia|intros x Hx; apply Hsg; by right|].
    rewrite insert_insert_eq in Os3. exists k3, fl3, tl3, a3. split; [|split; [done|split; [|split; [|split; [done|split]]]]].
    - change (Z.of_nat SZ_PROGHDR) with 56. run X1. cbn [snd]. rewrite Epg. run X2. exact X3.
    - replace (off + 56 * Z.of_nat (Datatypes.S n)) with (off + 56 + 56 * Z.of_nat n) by lia. done.
    - intros va Hva. rewrite W3 by done. unfold load_view. apply view_ext. by apply W2.
    - intros P. eapply others_trans; [|apply K3]. specialize (K1 P). rewrite <- (insert_id A t a Ha) in K2.
      eapply others_trans; [exact K1|apply K2].
    - do 2 (eapply load_frame_trans; [|eassumption]). exact L1. }
  destruct (is_load pg) eqn:Hload; cbn [when].
  - destruct (load_one_spec A fl tl t a f i ino v data (off + 56) pg k1 Os1 R1) as (k2 & fl2 & tl2 & a2 & X2 & Os2 & R2 & N2 & V2 & W2 & H2 & K2 & L2);
      [lia|change (k_vmas k1) with (ts_vmas (tms_of k1)); rewrite T1; change (ts_vmas (with_mach m1 (tms_of k))) with (k_vmas k); lia|done|by rewrite Hl1|done|apply Hsg; [by left|done]|].
    exists k2, fl2, tl2, a2. split_and!; try done.
    + rewrite V2. change (k_vmas k1) with (ts_vmas (tms_of k1)). by rewrite T1.
    + intros va Hva. rewrite W2, T1 by done. done.
  - exists k1, fl, tl, a. rewrite insert_id by done. split_and!; try done; [lia| |intros va Hva; rewrite T1; unfold seg_view; by rewrite Hload|by rewrite T1|apply load_frame_refl, R1].
    change (k_vmas k1) with (ts_vmas (tms_of k1)). rewrite T1. change (ts_vmas (with_mach m1 (tms_of k))) with (k_vmas k). lia.
Qed.

(** The whole function. *)
Lemma load_segment_spec A fl tl t a f i ino v data off eh pg0 k h : own_space A fl tl (tms_of k) t a → file_ready f i ino v data off k →
  mm_heap (tms_of k) t = Some h → length pg0 = SZ_PROGHDR → let n := Z.to_nat (e_phnum eh) in
  0 ≤ e_phoff eh → e_phoff eh + 56 * Z.of_nat n ≤ Z.of_nat (length data) → (4 * n ≤ length fl)%nat →
  refs (k_vmas k) + Z.of_nat n ≤ Z.of_nat (NSLOT_DEFAULT * NVMA_CHUNK) →
  let pgs := headers data (e_phoff eh) n in (∀ pg, pg ∈ pgs → is_load pg = true → seg_ok data pg) →
  ∃ k' fl' tl' a', load_segment pg0 t f eh k = Ok tt k' ∧ own_space (<[t := a']> A) fl' tl' (tms_of k') t a' ∧
    (∀ va, uaddr va → mem_view (tms_of k') a' va = load_view data pgs (mem_view (tms_of k) a) va) ∧
    mm_heap (tms_of k') t = Some (load_heap pgs h) ∧ (∀ P, others_keep P A tl (tms_of k) tl' (tms_of k') t) ∧
    load_frame f k k' ∧ ∃ off', file_ready f i ino v data off' k'.
Proof.
  intros Os R Hh Hpg n Hoff Hlen Hfl Hr pgs Hsg.
  destruct (load_seek f i ino v data off (e_phoff eh) k R) as (k1 & X1 & R1 & T1 & L1); [lia|].
  rewrite <- T1 in Os, Hh. change (k_vmas k) with (ts_vmas (tms_of k)) in Hr. rewrite <- T1 in Hr. change (ts_vmas (tms_of k1)) with (k_vmas k1) in Hr.
  destruct (load_loop_spec t f i ino v data n A fl tl a _ pg0 k1 h Os R1 Hh Hpg Hlen Hfl Hr Hsg)
    as (k' & fl' & tl' & a' & X & Os' & R' & W & H' & K & L).
  exists k', fl', tl', a'. rewrite T1 in W, K. split; [unfold load_segment; by run X1|]. split_and!; try done.
  - by eapply load_frame_trans.
  - by eexists.
Qed.

(** C8: [load_segment] loads an executable of at most 12288 bytes (the direct blocks of
    its inode) whose segments start at page boundaries of the user's addresses, have some
    right and hold at most a page of the file each, when the pages for it are free; for
    bigger segments it faults ([load_big_segment]).  It maps one page for each segment,
    whatever [memsz] says.  It returns, and the task sees at every address what the reference gives, the bytes of
    the file with zeros behind them in the page of each segment, with the rights of its
    flags (a later segment covers an earlier one), and elsewhere what it saw before; the
    heap starts behind the last segment; the other tasks keep their memory, the disk and
    the other open files do not change. *)
Theorem load_segment_maps A fl tl t a f i ino v data off eh pg0 k h : own_space A fl tl (tms_of k) t a → file_ready f i ino v data off k →
  mm_heap (tms_of k) t = Some h → length pg0 = SZ_PROGHDR → let n := Z.to_nat (e_phnum eh) in
  0 ≤ e_phoff eh → e_phoff eh + 56 * Z.of_nat n ≤ Z.of_nat (length data) → (4 * n ≤ length fl)%nat →
  refs (k_vmas k) + Z.of_nat n ≤ Z.of_nat (NSLOT_DEFAULT * NVMA_CHUNK) →
  let pgs := headers data (e_phoff eh) n in (∀ pg, pg ∈ pgs → is_load pg = true → seg_ok data pg) →
  ∃ k' fl' tl' a', load_segment pg0 t f eh k = Ok tt k' ∧ own_space (<[t := a']> A) fl' tl' (tms_of k') t a' ∧
    (∀ va, uaddr va → mem_view (tms_of k') a' va = load_view data pgs (mem_view (tms_of k) a) va) ∧
    mm_heap (tms_of k') t = Some (load_heap pgs h) ∧ (∀ P, others_keep P A tl (tms_of k) tl' (tms_of k') t) ∧
    load_frame f k k'.
Proof.
  intros Os R Hh Hpg n Hoff Hlen Hfl Hr pgs Hsg.
  destruct (load_segment_spec A fl tl t a f i ino v data off eh pg0 k h Os R Hh Hpg Hoff Hlen Hfl Hr Hsg) as (k' & fl' & tl' & a' & E & H1 & H2 & H3 & H4 & H5 & _).
  exists k', fl', tl', a'. split_and!; [exact E|exact H1|exact H2|exact H3|exact H4|exact H5].
Qed.
End load.
