(* ===== verification/ElfExec.v ===== *)
(** Results on [sys_exec] (kernel/syscall/systask.c): from [reset_vma] to the point where
    the task waits to run its new program. *)
From S2P Require Import Prelude Bytes ListNode Machine BlockIO Fs Inode PageAlloc Vm Pipe Slot File Sysfs UserCopy TaskMem TaskSpace TaskDrop Task ProcTree TaskResults Elf ElfResults.

(** ** Closing the file *)

Definition drop_ref (a : inode) : inode := set_irefc (u32 (i_refc a - 1)) a.
Section close.
Context {S : Type} {IO : BlockIO S} {U : Type} {UM : UserMem U}.

(** [iput] under another lock. *)
Lemma iput_locked i (s : S) l a : m_wf (bmach s) → lock_free (bmach s) (L_inode i) → l !! i = Some a →
  iput i (s, l) = Ok tt (bset_mach (touch (bmach s)) s, <[i := drop_ref a]> l).
Proof.
  intros Hw Hf E. unfold iput.
  run (onmach_ok (spin_get (L_inode i)) s l tt _ (spin_get_free (L_inode i) _ Hf)).
  run (mod_inode_ok i (λ a, set_irefc (u32 (i_refc a - 1)) a) (bset_mach (acq (L_inode i) (bmach s)) s) l a E).
  rewrite (onmach_ok (spin_put (L_inode i)) (bset_mach (acq (L_inode i) (bmach s)) s) _ tt (touch (bmach s))).
  - by rewrite bset_mach_twice.
  - rewrite bmach_set, spin_put_held by apply acq_held. by rewrite rel_acq.
Qed.
(** The last [fclose] of a file: the inode loses a reference and the slot is free. *)
Lemma fclose_last f i (s : S) l a p (st : slots file) (r : list pipe * U) fl tl : quiet (bmach s) → l !! i = Some a →
  slots_inv NFILE_CHUNK file0 tl p st → pages_inv fl tl p → live NFILE_CHUNK file0 st f → let v := c_obj (chunk_of file0 st f) in
  f_refc v = 1 → f_type v = INODE → f_obj v = Some i →
  ∃ p' st' fl', fclose f ((s, l), ((p, st), r)) = Ok tt ((bset_mach (touch (bmach s)) s, <[i := drop_ref a]> l), ((p', st'), r)) ∧
    pages_inv fl' tl p' ∧ slots_inv NFILE_CHUNK file0 tl p' st' ∧ ¬ live NFILE_CHUNK file0 st' f ∧
    (∀ g, g ≠ f → (live NFILE_CHUNK file0 st' g ↔ live NFILE_CHUNK file0 st g) ∧
       (live NFILE_CHUNK file0 st g → c_obj (chunk_of file0 st' g) = c_obj (chunk_of file0 st g))) ∧
    fl' = (if decide (n_inuse NFILE_CHUNK file0 st f.1 = 1)%nat then fl ++ [f.1] else fl) ∧
    pg_inuse p' = (if decide (n_inuse NFILE_CHUNK file0 st f.1 = 1)%nat then pg_inuse p ∖ {[ f.1 ]} else pg_inuse p) ∧ pg_data p' = pg_data p.
Proof.
  intros Hq E Is Ip Hl v Hrc Hty Hobj. set (m := bmach s) in *. set (st1 := store_obj file0 f (set_refc 0 v) st).
  set (s1 := bset_mach (acq (L_of f) m) s). assert (Hlv : spinlevel (m_cpu m) = 0) by apply Hq.
  assert (Ht : touch (acq (L_of f) m) = acq (L_of f) m).
  { unfold touch, set_cpu, acq, push_intr. cbn. rewrite Hlv. done. }
  assert (Hi : iput i (s1, l) = Ok tt (bset_mach (acq (L_of f) m) s, <[i := drop_ref a]> l)).
  { assert (Em : bmach s1 = acq (L_of f) m) by apply bmach_set. rewrite (iput_locked i s1 l a); [by rewrite Em, Ht; unfold s1; rewrite bset_mach_twice| | |done].
    - rewrite Em. apply acq_wf; [auto with mach|lia].
    - rewrite Em. unfold lock_free, acq. cbn. rewrite lookup_insert_ne by done. apply (quiet_free m (L_inode i) Hq). }
  destruct (free_slot_spec FileSlot NFILE_CHUNK file0 ltac:(unfold NFILE_CHUNK; lia) (touch m) p st1 fl tl f) as (p' & st' & fl' & Ef & Ip' & Is' & (_ & Hd & Ho) & Efl & Hu & Hdt & _);
    [auto with mach|by apply store_obj_inv|done|by apply store_obj_live|].
  assert (Hn : n_inuse NFILE_CHUNK file0 st1 f.1 = n_inuse NFILE_CHUNK file0 st f.1).
  { unfold n_inuse, flags. f_equal. apply list_fmap_ext. intros _ j _. apply store_obj_same. }
  rewrite Hn in Efl, Hu. exists p', st', fl'. split_and!; try done.
  - unfold fclose.
    run (on_ist_ok _ _ ((p, st), r) _ _ (onmach_ok (spin_get (L_of f)) s l tt _ (spin_get_free (L_of f) m (quiet_free _ _ Hq)))). fold s1.
    run (file_at_ok f (s1, l) ((p, st), r)). change (the_file ((p, st), r) f) with v. rewrite Hrc, Hty, Hobj.
    change (1 =? 0) with false. cbv iota. change (u32 (1 - 1)) with 0. change (0 =? 0) with true. cbv iota.
    run (put_file_ok f (set_refc 0 v) (s1, l) ((p, st), r)). change (with_file ((p, st), r) f (set_refc 0 v)) with (p, st1, r).
    run (on_ist_ok _ _ ((p, st1), r) _ _ Hi). fold s1.
    assert (Hp : onmach (spin_put (L_of f)) (s1, <[i := drop_ref a]> l) = Ok tt (bset_mach (touch m) s, <[i := drop_ref a]> l)).
    { rewrite (onmach_ok (spin_put (L_of f)) s1 _ tt (touch m)); [by unfold s1; rewrite bset_mach_twice|].
      unfold s1. rewrite bmach_set, spin_put_held by apply acq_held. rewrite rel_acq; auto with mach. }
    run (on_ist_ok _ _ ((p, st1), r) _ _ Hp). unfold free_file_slot, on_slots, zoom. cbn [fst snd]. rewrite bmach_set, Ef. cbn [fst snd].
    by rewrite bset_mach_twice, touch_touch.
  - intros g Hg. destruct (Ho g Hg) as [H1 H2]. pose proof (store_obj_live NFILE_CHUNK file0 f (set_refc 0 v) st g) as Hsl.
    split; [rewrite H1; exact Hsl|]. intros Hlg. rewrite H2 by (by apply Hsl). fold st1. unfold st1. destruct (store_obj_same file0 f (set_refc 0 v) st g) as (_ & _ & Hv). etransitivity; [exact Hv|].
    by rewrite decide_False.
Qed.
End close.

(** ** [exec_image] *)

(** Physical memory whose lists changed, but neither contents nor use. *)
Lemma tasks_inv_pm A fl tl s m p' : tasks_inv A fl tl s → pages_inv fl tl p' → pg_inuse p' = pg_inuse (pmem_of s) →
  pg_data p' = pg_data (pmem_of s) → mach_frame (mach_of s) m → tasks_inv A fl tl (set_pm (m, p') s) ∧
  ∀ b va, mem_view (set_pm (m, p') s) b va = mem_view s b va.
Proof.
  intros [I1 I2 I3 I4 I5 I6 I7 I8] Ip Hu Hd Hm. set (s' := set_pm (m, p') s).
  assert (Hp : ∀ i, page_data (pmem_of s') i = page_data (pmem_of s) i) by (intros i; unfold page_data; change (pmem_of s') with p'; by rewrite Hd).
  assert (Hok : ∀ q, page_ok tl (pmem_of s) q → page_ok tl p' q) by (intros q (? & ? & ?); split_and!; [done|by rewrite Hu|done]).
  split.
  - split; try done; [by eapply slots_inv_pages, I2|by eapply slots_inv_pages, I3|by eapply frame_quiet|].
    intros t b Hb. destruct (I5 t b Hb) as [S1 S2 S3 S4 S5 S6 S7]. split; try done. apply (pt_inv_same _ _ _ _ S3). intros y i Hy. split; [apply Hp|].
    change (pmem_of s') with p'. rewrite Hu. by apply (pt_page _ _ _ S3 y).
  - intros b va. assert (T : trans (sp_pt b) (pmem_of s') va = trans (sp_pt b) (pmem_of s) va).
    { unfold trans, leaf, entry. destruct (sp_pt b !! _); [|done]. by rewrite Hp. }
    unfold mem_view, pte_view. rewrite T. destruct (pte_frame _ va); [|done]. cbn. by rewrite Hp.
Qed.
(** [reset_vma] keeps what the task sees. *)
Lemma reset_step A fl tl s t a h : own_space A fl tl s t a → mm_heap s t = Some h →
  ∃ s' fl' a', reset_vma t s = Ok tt s' ∧ own_space (<[t := a']> A) fl' tl s' t a' ∧ mm_heap s' t = Some h ∧
    (∀ va, mem_view s' a' va = mem_view s a va) ∧ (length fl ≤ length fl')%nat ∧ refs (ts_vmas s') ≤ refs (ts_vmas s) ∧
    mach_frame (mach_of s) (mach_of s') ∧ others_keep (λ q, ∀ o, vma_live s o → o.1 ≠ q) A tl s tl s' t.
Proof.
  intros [I Ha Fr] Hh. destruct (drop_records_spec (λ v, negb (bool_decide (v_type v = STACK))) A fl tl s t a I Ha) as (s' & fl' & E & I' & D). cbn zeta in I'.
  eexists s', fl', _. split; [exact E|]. pose proof D as [D1 D2 D3 D4 D5 D6 [e De] D8 D9].
  assert (Hp : ∀ i, page_data (pmem_of s') i = page_data (pmem_of s) i) by (intros i; unfold page_data; by rewrite D3).
  assert (Hheap : ∀ x, mm_heap s' x = mm_heap s x) by (intros x; unfold mm_heap, mm_ptr, mm_val; by rewrite D4, D5).
  assert (T : ∀ b va, trans (sp_pt b) (pmem_of s') va = trans (sp_pt b) (pmem_of s) va).
  { intros b va. unfold trans, leaf, entry. destruct (sp_pt b !! _); [|done]. by rewrite Hp. }
  split; [split; [exact I'|apply lookup_insert_eq|]|split; [by rewrite Hheap|split; [|split; [rewrite De, length_app; lia|split; [done|split; [done|]]]]]].
  - intros va i Hva Hi. unfold mem_frame in Hi. rewrite T in Hi. by apply (Fr va i).
  - intros va. exact (dropped_view _ _ _ _ _ a va D).
  - split.
    + intros t' b Hb Hne. split; [|apply Hheap]. split; [intros i Hi; split; [done|apply Hp]|]. intros o Ho. apply D2.
      apply (so_live _ _ _ _ (ti_space _ _ _ _ I' t' b ltac:(by rewrite lookup_insert_ne))). done.
    + intros q Hq (H1 & H2 & H3). split_and!; [done|by apply D9|done].
Qed.

Section exec.
Context {S : Type} {IO : BlockIO S} (sb : superblock) (WF : sb_wf sb).
Implicit Types (k : @kern S).

(** The slot of the open file [f]; another file is open in the same page. *)
Record files_ready (tl : gmap nat (list nat)) (f : optr) k : Prop := {
  fo_inv : slots_inv NFILE_CHUNK file0 tl (k_pmem k) (k_files k);
  fo_live : live NFILE_CHUNK file0 (k_files k) f;
  fo_more : (2 ≤ n_inuse NFILE_CHUNK file0 (k_files k) f.1)%nat;
}.
Lemma same_live f st st' g : same_files f st st' → live NFILE_CHUNK file0 st' g ↔ live NFILE_CHUNK file0 st g.
Proof. intros [H1 H2 _ _]. unfold live. by rewrite H1, H2. Qed.
Lemma files_step tl tl' f k k' : files_ready tl f k → same_files f (k_files k) (k_files k') →
  (∀ g, live NFILE_CHUNK file0 (k_files k) g → page_ok tl (k_pmem k) g.1 → page_ok tl' (k_pmem k') g.1) → files_ready tl' f k'.
Proof.
  intros [[I1 I2 I3 I4] Hl Hm] Sf Hp. pose proof Sf as [S1 S2 S3 S4].
  assert (Hn : ∀ q, n_inuse NFILE_CHUNK file0 (k_files k') q = n_inuse NFILE_CHUNK file0 (k_files k) q).
  { intros q. unfold n_inuse, flags. f_equal. apply list_fmap_ext. intros _ j _. apply S2. }
  split; [split|by apply (same_live f _ _ f Sf)|by rewrite Hn].
  - by rewrite S1.
  - intros j sl. rewrite S1. apply I2.
  - intros j sl E. rewrite S1 in E. pose proof (I3 j sl E) as H. unfold slot_ok in *. destruct (s_slot sl) as [q|] eqn:Eq; [|done].
    destruct H as (H1 & H2 & H3 & H4). split; [|split; [done|split; [by rewrite Hn|]]].
    + destruct (slot_live NFILE_CHUNK file0 ltac:(unfold NFILE_CHUNK; lia) tl (k_pmem k) (k_files k) j sl q) as [x Hx]; [by split|done|done|].
      by apply (Hp (q, x)).
    + intros x Hx. rewrite S2, S3. by apply H4.
  - intros j j' sl sl' q. rewrite S1. apply I4.
Qed.

(** [fclose] of the program's file, on the whole state. *)
Lemma exec_close A fl tl t a f i ino v data off k : own_space A fl tl (tms_of k) t a → file_ready sb f i ino v data off k →
  files_ready tl f k → f_refc v = 1 →
  ∃ k', on_kst (fclose f) k = Ok tt k' ∧ tasks_inv A fl tl (tms_of k') ∧ (∀ b va, mem_view (tms_of k') b va = mem_view (tms_of k) b va) ∧
    (∀ x, mm_heap (tms_of k') x = mm_heap (tms_of k) x) ∧ (∀ t' b, keeps tl (tms_of k) tl (tms_of k') t' b) ∧ k_tmem k' = k_tmem k ∧ k_procs k' = k_procs k ∧
    (k_st k').1.2 = <[i := drop_ref ino]> (k_st k).1.2 ∧ ¬ live NFILE_CHUNK file0 (k_files k') f ∧
    (∀ g, g ≠ f → live NFILE_CHUNK file0 (k_files k) g → live NFILE_CHUNK file0 (k_files k') g ∧ file_in k' g = file_in k g) ∧
    mach_frame (k_mach k) (k_mach k').
Proof.
  intros Os R [Is Hl Hm] Hrc. pose proof (os_inv _ _ _ _ _ _ Os) as I. destruct (fr_slot _ _ _ _ _ _ _ _ R) as (Ea & _).
  assert (Ev : c_obj (chunk_of file0 (k_files k) f) = set_off off v) by apply R.
  destruct (fclose_last f i (io_of k) (k_st k).1.2 ino (k_pmem k) (k_files k) (k_st k).2.2 fl tl) as (p' & st' & fl' & E & Ip & Is' & Hd & Ho & Efl & Hu & Hdt);
    [apply I|done|done|apply I|done|by rewrite Ev|rewrite Ev; apply R|rewrite Ev; apply R|].
  rewrite decide_False in Efl by lia. rewrite decide_False in Hu by lia. subst fl'.
  destruct (tasks_inv_pm A fl tl (tms_of k) (touch (k_mach k)) p' I Ip Hu Hdt (touch_frame _)) as [I' W].
  eexists. split. { unfold on_kst, zoom. replace (k_st k) with (((io_of k, (k_st k).1.2), ((k_pmem k, k_files k), (k_st k).2.2)) : @kst S unit).
    - rewrite E. done. - unfold io_of, k_pmem, k_files. by destruct (k_st k) as [[? ?] [[? ?] ?]]. }
  set (k' := set_st _ k). assert (Em : k_mach k' = touch (k_mach k)) by apply bmach_set.
  assert (T : tms_of k' = set_pm (touch (k_mach k), p') (tms_of k)) by (unfold tms_of at 1; by rewrite Em).
  rewrite T. split_and!; try done.
  - intros t' b. split; [|done]. intros j Hj. split; [done|]. unfold page_data. change (pmem_of (set_pm (touch (k_mach k), p') (tms_of k))) with p'. by rewrite Hdt.
  - intros g Hg Hlg. destruct (Ho g Hg) as [H1 H2]. split; [by apply H1|]. by apply H2.
  - by rewrite Em.
Qed.

(** The end of [exec_image]: the task is put back in the queue. *)
Lemma exec_leave k t p tm addr entry : quiet (k_mach k) → (t < length (m_tasks (k_mach k)))%nat → k_procs k !! t = Some p → k_tmem k !! t = Some tm →
  (2 ≤ length (p_ctx p))%nat →
  ∃ k', (mod_proc t (set_entry entry) ;;
         mod_proc t (λ p, set_ctx (<[0%nat := addr]> (p_ctx p)) p) ;;
         let! tm := on_tms (task_mem t) in
         mod_proc t (λ p, set_ctx (<[1%nat := t_kstack tm]> (p_ctx p)) p) ;;
         on_km (spin_get (L_task t)) ;;
         put_state t READY ;;
         (λ k, Switch k)) k = Switch k' (A:=Z) ∧
    k_procs k' !! t = Some (set_ctx (addr :: t_kstack tm :: drop 2 (p_ctx p)) (set_entry entry p)) ∧
    (tstate <$> m_tasks (k_mach k') !! t = Some READY) ∧ m_spin (k_mach k') = {[ L_task t := MkSpin true (Some (cpu_id (m_cpu (k_mach k)))) ]} ∧
    tms_of k' = with_mach (k_mach k') (tms_of k) ∧ (k_st k').1.2 = (k_st k).1.2 ∧ (k_st k').2 = (k_st k).2 ∧
    mach_frame (k_mach k) (rel (L_task t) (k_mach k')).
Proof.
  intros Hq Hlt Hp Htm Hc. destruct (p_ctx p) as [|x [|y c]] eqn:Ec; [cbn in Hc; lia..|]. cbn [drop].
  assert (Hmod : ∀ (j : @kern S) q g, k_procs j !! t = Some q → mod_proc t g j = Ok tt (set_procs (insert t (g q)) j)) by (intros j q g E; unfold mod_proc, update; cbn; by rewrite E).
  assert (Hlk : ∀ (j : @kern S) q, (t < length (k_procs j))%nat → k_procs (set_procs (insert t q) j) !! t = Some q) by (intros; by apply list_lookup_insert_eq).
  pose proof (lookup_lt_Some _ _ _ Hp) as Hpl.
  set (q1 := set_entry entry p). set (k1 := set_procs (insert t q1) k). assert (H1 : k_procs k1 !! t = Some q1) by (by apply Hlk).
  set (q2 := set_ctx (<[0%nat := addr]> (p_ctx q1)) q1). set (k2 := set_procs (insert t q2) k1).
  assert (H2 : k_procs k2 !! t = Some q2) by (apply Hlk; by eapply lookup_lt_Some).
  set (q3 := set_ctx (<[1%nat := t_kstack tm]> (p_ctx q2)) q2). set (k3 := set_procs (insert t q3) k2).
  assert (H3 : k_procs k3 !! t = Some q3) by (apply Hlk; by eapply lookup_lt_Some).
  set (m := k_mach k) in *. set (k4 := set_kmach (acq (L_task t) m) k3). destruct (lookup_lt_is_Some_2 (m_tasks m) t Hlt) as [ts Hts].
  set (m5 := MkMach (m_cpu (acq (L_task t) m)) (m_spin (acq (L_task t) m)) (<[t := MkTsk READY (tchan ts)]> (m_tasks m))).
  assert (Em4 : k_mach k4 = acq (L_task t) m) by apply bmach_set.
  exists (set_kmach m5 k4). assert (Em : k_mach (set_kmach m5 k4) = m5) by apply bmach_set. rewrite Em. split; [|split_and!].
  - rewrite (bind_ok _ _ _ _ _ (Hmod k p _ Hp)). fold q1 k1. rewrite (bind_ok _ _ _ _ _ (Hmod k1 q1 _ H1)). fold q2 k2.
    rewrite (bind_ok _ _ _ _ _ (on_tms_task k2 t tm Htm)). rewrite (bind_ok _ _ _ _ _ (Hmod k2 q2 _ H2)). fold q3 k3.
    assert (Eg : on_km (spin_get (L_task t)) k3 = Ok tt k4).
    { unfold on_km, zoom. change (k_mach k3) with m. by rewrite (spin_get_free _ _ (quiet_free _ (L_task t) Hq)). }
    rewrite (bind_ok _ _ _ _ _ Eg). assert (Ep : put_state t READY k4 = Ok tt (set_kmach m5 k4)).
    { unfold put_state, on_km, zoom. rewrite Em4. unfold task_at, set_task. cbn [m_tasks acq]. rewrite (bind_deref _ _ _ ts) by done. done. }
    by rewrite (bind_ok _ _ _ _ _ Ep).
  - change (k_procs (set_kmach m5 k4)) with (k_procs k3). rewrite H3. unfold q3, q2, q1, set_ctx, set_entry. cbn. rewrite Ec. done.
  - cbn [m_tasks m5]. rewrite list_lookup_insert_eq by done. done.
  - cbn [m_spin m5 acq]. destruct Hq as [_ ->]. apply insert_empty.
  - unfold tms_of at 1. rewrite Em. done.
  - done.
  - done.
  - change m5 with (set_tasks <[t := MkTsk READY (tchan ts)]> (acq (L_task t) m)). rewrite rel_acq_tasks by auto with mach.
    etransitivity; [apply (touch_frame m)|]. unfold mach_frame, set_tasks. cbn [m_cpu m_spin m_tasks]. rewrite length_insert. done.
Qed.

(** A state in which task [t] has opened the program [f] and put its arguments away. *)
Record exec_ready (A : gmap nat space) (fl : list nat) (tl : gmap nat (list nat)) (t : nat) (a : space) (h : Z) (p : proc)
    (f : optr) (i : nat) (ino : inode) (v : file) (data : list Z) (off : Z) k : Prop := {
  er_space : own_space A fl tl (tms_of k) t a;
  er_heap : mm_heap (tms_of k) t = Some h;
  er_file : file_ready sb f i ino v data off k;
  er_refc : f_refc v = 1;
  er_slots : files_ready tl f k;
  er_sep o g : vma_live (tms_of k) o → live NFILE_CHUNK file0 (k_files k) g → o.1 ≠ g.1;
  er_proc : k_procs k !! t = Some p;
  er_ctx : (2 ≤ length (p_ctx p))%nat;
  er_tasks : (t < length (m_tasks (k_mach k)))%nat;
}.
(** An executable that [load_segment] can load with the memory there is. *)
Record image_ok (data eh : list Z) (fl : list nat) k : Prop := {
  io_off : 0 ≤ e_phoff eh;
  io_len : e_phoff eh + 56 * Z.of_nat (Z.to_nat (e_phnum eh)) ≤ Z.of_nat (length data);
  io_mem : (4 * Z.to_nat (e_phnum eh) ≤ length fl)%nat;
  io_vmas : refs (k_vmas k) + Z.of_nat (Z.to_nat (e_phnum eh)) ≤ Z.of_nat (NSLOT_DEFAULT * NVMA_CHUNK);
  io_segs pg : pg ∈ headers data (e_phoff eh) (Z.to_nat (e_phnum eh)) → is_load pg = true → seg_ok data pg;
}.

(** C7: [sys_exec] replaces the program of the task: from [reset_vma] on it gives the CPU up
    with the task READY and its lock held, the saved context at [first_sched] on the
    kernel stack, the entry point that of the file, the file closed and its inode
    released.  The memory of the task has one page for each segment, with the bytes of the
    file and zeros behind them (the code maps one page whatever [memsz] says); at the other
    addresses it is still the old program's, which the code does not unmap.  The other
    tasks and open files keep what they had.  This is for an executable of at most 12288
    bytes, the direct blocks of an inode, whose segments start at page boundaries of the
    user's addresses, have some right and hold at most a page of the file each, when the
    pages for it are free; the kernel faults on bigger segments ([load_big_segment]) and
    on files that use the last indirect blocks ([blockno_beyond]). *)
Theorem exec_replaces_program A fl tl t a h p f i ino v data off eh pg0 addr k : exec_ready A fl tl t a h p f i ino v data off k →
  image_ok data eh fl k → length pg0 = SZ_PROGHDR → let pgs := headers data (e_phoff eh) (Z.to_nat (e_phnum eh)) in
  ∃ k' fl' tl' a' tm, exec_image addr pg0 t f eh k = Switch k' ∧
    tasks_inv (<[t := a']> A) fl' tl' (with_mach (rel (L_task t) (k_mach k')) (tms_of k')) ∧
    (∀ va, uaddr va → mem_view (tms_of k') a' va = load_view data pgs (mem_view (tms_of k) a) va) ∧
    mm_heap (tms_of k') t = Some (load_heap pgs h) ∧ k_tmem k' !! t = Some tm ∧
    k_procs k' !! t = Some (set_ctx (addr :: t_kstack tm :: drop 2 (p_ctx p)) (set_entry (e_entry eh) p)) ∧
    tstate <$> m_tasks (k_mach k') !! t = Some READY ∧ m_spin (k_mach k') = {[ L_task t := MkSpin true (Some (cpu_id (m_cpu (k_mach k)))) ]} ∧
    (k_st k').1.2 = <[i := drop_ref ino]> (k_st k).1.2 ∧ ¬ live NFILE_CHUNK file0 (k_files k') f ∧
    (∀ g, g ≠ f → live NFILE_CHUNK file0 (k_files k) g → live NFILE_CHUNK file0 (k_files k') g ∧ file_in k' g = file_in k g) ∧
    (∀ t' b, A !! t' = Some b → t' ≠ t → keeps tl (tms_of k) tl' (tms_of k') t' b ∧ mm_heap (tms_of k') t' = mm_heap (tms_of k) t').
Proof.
  intros [Os Hh R Hrc Fo Sep Hp Hc Ht] [G1 G2 G3 G4 G5] Hpg pgs.
  destruct (reset_step A fl tl (tms_of k) t a h Os Hh) as (s1 & fl1 & a1 & E1 & Os1 & H1 & W1 & N1 & V1 & M1 & K1).
  destruct (load_tms sb WF _ _ _ _ _ _ _ k tt s1 R E1 M1) as (k1 & X1 & R1 & T1 & _ & L1). rewrite <- T1 in Os1, H1, W1, V1, K1.
  assert (Fo1 : files_ready tl f k1).
  { eapply files_step; [exact Fo|apply L1|]. intros g Hg. apply (ok_page _ _ _ _ _ _ _ K1). intros o Ho. by apply Sep. }
  destruct (load_segment_spec sb WF _ fl1 tl t a1 f i ino v data off eh pg0 k1 h Os1 R1 H1 Hpg G1 G2 ltac:(lia))
    as (k2 & fl2 & tl2 & a2 & X2 & Os2 & W2 & H2 & K2 & L2 & off2 & R2); [change (k_vmas k1) with (ts_vmas (tms_of k1)); change (k_vmas k) with (ts_vmas (tms_of k)) in G4; lia|exact G5|].
  rewrite insert_insert_eq in Os2. pose proof (load_frame_trans _ _ _ _ L1 L2) as L.
  assert (Fo2 : files_ready tl2 f k2).
  { eapply files_step; [exact Fo1|apply L2|]. intros g Hg. exact (ok_page _ _ _ _ _ _ _ (K2 (λ _, True)) g.1 Logic.I). }
  destruct (exec_close _ fl2 tl2 t a2 f i ino v data off2 k2 Os2 R2 Fo2 Hrc) as (k3 & X3 & I3 & W3 & H3 & Kp3 & Tm3 & P3 & El3 & Fd3 & Fo3 & M3).
  assert (Hm : mach_frame (k_mach k) (k_mach k3)) by (etransitivity; [apply (st_mach _ _ _ (lf_io _ _ _ L))|exact M3]).
  pose proof (so_ptb _ _ _ _ (ti_space _ _ _ _ I3 t a2 ltac:(apply lookup_insert_eq))) as Hptb.
  destruct (ts_tasks (tms_of k3) !! t) as [tm|] eqn:Etm; [|done]. change (ts_tasks (tms_of k3)) with (k_tmem k3) in Etm.
  destruct (exec_leave k3 t p tm addr (e_entry eh) (ti_quiet _ _ _ _ I3)) as (k' & X & Pr & St & Sp & T & Ei & Ex & Mr);
    [destruct Hm as (_ & _ & _ & _ & _ & ->); done|rewrite P3, (lf_procs _ _ _ L); exact Hp|exact Etm|exact Hc|].
  assert (Hcpu : cpu_id (m_cpu (k_mach k3)) = cpu_id (m_cpu (k_mach k))) by apply Hm.
  exists k', fl2, tl2, a2, tm. split_and!.
  - unfold exec_image. run X1. run X2. run X3. exact X.
  - rewrite T. exact (proj1 (with_mach_step _ _ _ (tms_of k3) t a2 _ I3 Mr)).
  - intros va Hva. rewrite T. change (mem_view (with_mach (k_mach k') (tms_of k3)) a2 va) with (mem_view (tms_of k3) a2 va).
    rewrite W3, W2 by done. apply view_ext. apply W1.
  - rewrite T. change (mm_heap (with_mach (k_mach k') (tms_of k3)) t) with (mm_heap (tms_of k3) t). by rewrite H3.
  - change (k_tmem k') with (ts_tasks (tms_of k')). rewrite T. exact Etm.
  - exact Pr.
  - exact St.
  - by rewrite Sp, Hcpu.
  - by rewrite Ei, El3, (lf_inodes _ _ _ L).
  - unfold k_files. rewrite Ex. exact Fd3.
  - intros g Hg Hlg. unfold k_files, file_in. rewrite Ex. destruct (Fo3 g Hg) as [Q1 Q2].
    { apply (same_live f _ _ g (lf_files _ _ _ L)). done. }
    split; [exact Q1|]. etransitivity; [exact Q2|]. by apply (sf_obj _ _ _ (lf_files _ _ _ L)).
  - intros t' b Hb Hne. destruct (ok_task _ _ _ _ _ _ _ (others_trans _ _ _ _ _ _ _ _ _ _ K1 (K2 _)) t' b Hb Hne) as [Q1 Q2].
    rewrite T. split; [|etransitivity; [apply H3|exact Q2]]. destruct (keeps_trans _ _ _ _ _ _ _ _ Q1 (Kp3 t' b)) as [Q3 Q4]. by split.
Qed.
End exec.
