(* ===== verification/ElfStart.v ===== *)
(** The first run of a task (kernel/task/sche.c: [first_sched]): from the kernel into
    its program. *)
From S2P Require Import Prelude Machine Sched BlockIO PageAlloc Vm TaskMem Task ProcTree Riscv Trap TrapResults Elf.

(** Clearing a bit of the status and setting another one. *)
Lemma land_not_bit x n k : 0 ≤ n < 64 → 0 ≤ k < 64 → Z.testbit (Z.land x (u64 (Z.lnot (Z.shiftl 1 n)))) k = Z.testbit x k && negb (bool_decide (k = n)).
Proof.
  intros Hn Hk. unfold u64. rewrite Z.land_spec, Z.mod_pow2_bits_low, Z.lnot_spec by lia. f_equal. rewrite Z.shiftl_1_l, Z.pow2_bits_eqb by lia.
  case_bool_decide; destruct (Z.eqb_spec n k); done || lia.
Qed.

Section first.
Context {S : Type} {IO : BlockIO S} (trampoline utrap_entry run_new_task_addr : Z).

(** [enter_user] leaves supervisor mode at [entry] with the given stack. *)
Lemma enter_user_spec mmu entry ustack h : 0 ≤ ustack < 2 ^ 64 →
  ∃ h', enter_user trampoline utrap_entry run_new_task_addr mmu entry ustack h = Ok tt h' ∧
    h_mode h' = User ∧ h_pc h' = entry ∧ h_reg h' Sp = ustack ∧ h_reg h' A0 = (if ustack =? USTACK + PGSIZE then 0 else ustack) ∧
    h_csr h' Satp = h_mem h (u64 (h_reg h Tp + CPU_SATP)) ∧ h_csr h' Stvec = u64 (utrap_entry - trampoline + TRAMPOLINE) ∧
    status_bit SIE_BIT h' = true ∧ h_reg h' Tp = h_reg h Tp ∧ h_mem h' = h_mem h.
Proof.
  intros Hu. set (satp := h_mem h (u64 (h_reg h Tp + CPU_SATP))). set (opt := if ustack =? USTACK + PGSIZE then 0 else ustack).
  set (h1 := write_csr Stvec (u64 (utrap_entry - trampoline + TRAMPOLINE)) (write_csr Sstatus (Z.land (read_csr Sstatus h) (u64 (Z.lnot SSTATUS_SIE))) h)).
  set (st := Z.lor (Z.land (read_csr Sstatus h1) (u64 (Z.lnot SSTATUS_SPP))) SSTATUS_SPIE).
  set (h2 := write_csr Sepc entry (write_csr Sstatus st h1)).
  set (h3 := set_pc (u64 (run_new_task_addr - trampoline + TRAMPOLINE)) (set_reg A2 opt (set_reg A1 ustack (set_reg A0 satp h2)))).
  set (h4 := set_reg A0 (u64 (opt + 0)) (set_reg Sp (u64 (ustack + 0)) (write_csr Satp satp h3))).
  destruct (sret_spec h4) as (R & Hm & Hs & Hv & Hp & Ho & Hb). exists (sret h4). split; [reflexivity|].
  assert (Hbit : ∀ n, n ∈ s_bits → status_bit n h4 = Z.testbit st n).
  { intros n Hn. change (status_bit n h4) with (status_bit n (write_csr Sstatus st h1)). by apply write_sstatus_bit. }
  assert (Hspp : Z.testbit st SPP_BIT = false).
  { unfold st. rewrite Z.lor_spec. change SSTATUS_SPP with (Z.shiftl 1 SPP_BIT). rewrite land_not_bit by (unfold SPP_BIT; lia).
    rewrite bool_decide_eq_true_2 by done. by rewrite andb_false_r. }
  assert (Hspie : Z.testbit st SPIE_BIT = true) by (unfold st; rewrite Z.lor_spec; apply orb_true_r).
  assert (Hopt : 0 ≤ opt < 2 ^ 64) by (unfold opt; destruct (ustack =? USTACK + PGSIZE); lia).
  rewrite R, Hm, Hs, Hv, Hp, Ho, Hb, !Hbit, Hspp, Hspie by auto with riscv.
  split_and!; try reflexivity; cbn; rewrite !Z.add_0_r; by apply u64_id.
Qed.

Lemma cpu_words h : u64 (h_reg h Tp + CPU_KSTACK) ≠ u64 (h_reg h Tp + CPU_SATP).
Proof.
  unfold CPU_KSTACK, CPU_SATP, u64. intros E. pose proof (Z.div_mod (h_reg h Tp + 8) (2 ^ 64) ltac:(lia)).
  pose proof (Z.div_mod (h_reg h Tp + 16) (2 ^ 64) ltac:(lia)). lia.
Qed.
Lemma on_kern_ok {A} (f : M (@kern S) A) k k' hb a : f k = Ok a k' → on_kern f (k, hb) = Ok a (k', hb).
Proof. intros E. unfold on_kern, zoom. cbn [fst snd]. by rewrite E. Qed.
Lemma on_h_ok {A} (f : HM A) (k : @kern S) h b a h' : f h = Ok a h' → on_h f (k, (h, b)) = Ok a (k, (h', b)).
Proof. intros E. unfold on_h, zoom. cbn [fst snd]. by rewrite E. Qed.
(** The state behind the dispatch of a READY task, and the machine after its lock is
    given back. *)
Definition chosen_mach (t : nat) (ts : tsk) (m : mach) : mach := cur (Some t) (put_task t (MkTsk RUN (tchan ts)) (acq (L_task t) m)).
Definition running_mach (t : nat) (ts : tsk) (m : mach) : mach := cur (Some t) (put_task t (MkTsk RUN (tchan ts)) (touch m)).
Definition cpu_for (tm : tmem) (h : hart) : hart :=
  set_word (u64 (h_reg h Tp + CPU_SATP)) (Z.lor SATP_MODE (Z.shiftr (t_pagetable tm) 12)) (set_word (u64 (h_reg h Tp + CPU_KSTACK)) (t_kstack tm) h).
Lemma dispatch_spec (k : @kern S) h b t ts tm : quiet (k_mach k) → m_tasks (k_mach k) !! t = Some ts → tstate ts = READY → k_tmem k !! t = Some tm →
  dispatch t (k, (h, b)) = Ok true (set_kmach (chosen_mach t ts (k_mach k)) k, (cpu_for tm h, b)).
Proof.
  intros Hq Ets Hr Htm. unfold dispatch. set (k1 := set_kmach (chosen_mach t ts (k_mach k)) k).
  assert (E1 : on_km (sched_visit t) k = Ok true k1).
  { apply on_km_ok. rewrite (sched_visit_spec t (k_mach k) ts Hq Ets). by rewrite decide_True. }
  run (on_kern_ok _ _ _ (h, b) _ E1). run (on_kern_ok _ _ _ (h, b) _ (on_tms_task k1 t tm Htm)). reflexivity.
Qed.
Lemma first_lock (k : @kern S) h b t ts : quiet (k_mach k) →
  on_kern (on_km (spin_put (L_task t))) (set_kmach (chosen_mach t ts (k_mach k)) k, (h, b)) =
    Ok tt (set_kmach (running_mach t ts (k_mach k)) k, (h, b)).
Proof.
  intros Hq. apply on_kern_ok. erewrite on_km_ok; [by rewrite set_kmach_twice|]. rewrite k_mach_set. unfold chosen_mach, put_task.
  rewrite put_held. by rewrite rel_task.
Qed.

(** C27: A task that the scheduler chooses for the first time enters its program.  From a
    machine with no lock held and a READY task, the visit of the scheduler and
    [first_sched], to which it switches, release the task's lock and leave the hart in
    user mode at the entry of the program, on the task's own page table, with its stack
    pointer and with interrupts on; [a0] holds the argument string, if there is one, the
    next trap goes to [utrap_entry] and finds the task's kernel stack in [struct cpu].
    The very first task ([b]) loads "/bin/init" in between and enters that. *)
Theorem first_sched_enters eh0 pg0 mmu (k : @kern S) h (b : bool) t ts tm p tm' k' : quiet (k_mach k) →
  m_tasks (k_mach k) !! t = Some ts → tstate ts = READY → k_tmem k !! t = Some tm →
  (if b then load_init eh0 pg0 t (set_kmach (running_mach t ts (k_mach k)) k) = Ok tt k'
   else k' = set_kmach (running_mach t ts (k_mach k)) k) →
  k_procs k' !! t = Some p → k_tmem k' !! t = Some tm' → 0 ≤ t_ustack tm' < 2 ^ 64 →
  ∃ s1 h', dispatch t (k, (h, b)) = Ok true s1 ∧
    first_sched trampoline utrap_entry run_new_task_addr eh0 pg0 mmu s1 = Ok tt (k', (h', false)) ∧
    h_mode h' = User ∧ h_pc h' = p_entry p ∧ h_reg h' Sp = t_ustack tm' ∧
    h_reg h' A0 = (if t_ustack tm' =? USTACK + PGSIZE then 0 else t_ustack tm') ∧
    h_csr h' Satp = Z.lor SATP_MODE (Z.shiftr (t_pagetable tm) 12) ∧
    h_csr h' Stvec = u64 (utrap_entry - trampoline + TRAMPOLINE) ∧ status_bit SIE_BIT h' = true ∧
    h_mem h' (u64 (h_reg h Tp + CPU_KSTACK)) = t_kstack tm ∧
    (b = false → quiet (k_mach k') ∧ mytask (k_mach k') = Some t ∧ m_tasks (k_mach k') = <[t := MkTsk RUN (tchan ts)]> (m_tasks (k_mach k))).
Proof.
  intros Hq Ets Hr Htm Hk' Hp Htm' Hu. set (k1 := set_kmach (running_mach t ts (k_mach k)) k) in *.
  destruct (enter_user_spec mmu (p_entry p) (t_ustack tm') (cpu_for tm h) Hu) as (h' & E & Q1 & Q2 & Q3 & Q4 & Q5 & Q6 & Q7 & _ & Q9).
  exists (set_kmach (chosen_mach t ts (k_mach k)) k, (cpu_for tm h, b)), h'. split; [by apply dispatch_spec|]. split.
  - unfold first_sched.
    assert (E1 : on_kern self_task (set_kmach (chosen_mach t ts (k_mach k)) k, (cpu_for tm h, b)) =
      Ok t (set_kmach (chosen_mach t ts (k_mach k)) k, (cpu_for tm h, b))).
    { apply on_kern_ok. unfold self_task, deref. by rewrite k_mach_set. }
    run E1. run (first_lock k (cpu_for tm h) b t ts Hq). fold k1. go. cbn [snd].
    assert (E2 : (if b then modify (λ s : @kern S * (hart * bool), (s.1, (s.2.1, false))) ;; on_kern (load_init eh0 pg0 t) else ret tt) (k1, (cpu_for tm h, b)) =
      Ok tt (k', (cpu_for tm h, false))).
    { destruct b; [|by rewrite Hk']. go. cbn [fst snd]. by apply on_kern_ok. }
    run E2. assert (E3 : proc_at t k' = Ok p k') by (unfold proc_at, deref; by rewrite Hp).
    run (on_kern_ok _ _ _ (cpu_for tm h, false) _ E3). run (on_kern_ok _ _ _ (cpu_for tm h, false) _ (on_tms_task k' t tm' Htm')).
    by apply on_h_ok.
  - change (h_reg (cpu_for tm h) Tp) with (h_reg h Tp) in Q5.
    split_and!; try done.
    + rewrite Q5. unfold cpu_for, set_word, fset. cbn [h_mem]. by rewrite decide_True.
    + rewrite Q9. unfold cpu_for, set_word, fset. cbn [h_mem h_reg]. rewrite decide_False by apply cpu_words. by rewrite decide_True.
    + intros ->. subst k'. unfold k1. by rewrite k_mach_set.
Qed.
End first.
