(* ===== verification/ElfKernel.v ===== *)
(** The theorems on programs at work: an executable of one segment in the file system
    of [Boot], and a task that loads it, replaces its program by it and enters it. *)
From S2P Require Import Prelude Bytes ListNode Machine Sched BlockIO Bio Fs Inode PageAlloc Vm Pipe Slot File Sysfs UserCopy Boot TaskMem TaskSpace Task TaskResults SysResults ProcResults Elf ElfResults ElfExec ElfStart Riscv.
Import Cache.

(** ** The file *)

(** The header, one program header for 8 bytes of code at address 4096, the code. *)
Definition elf_bytes : list Z :=
  [127; 69; 76; 70; 2; 1; 1; 0; 0; 0; 0; 0; 0; 0; 0; 0; 2; 0; 243; 0; 1; 0; 0; 0; 0; 16; 0; 0; 0; 0; 0; 0;
   64; 0; 0; 0; 0; 0; 0; 0; 0; 0; 0; 0; 0; 0; 0; 0; 0; 0; 0; 0; 64; 0; 56; 0; 1; 0; 0; 0; 0; 0; 0; 0;
   1; 0; 0; 0; 5; 0; 0; 0; 120; 0; 0; 0; 0; 0; 0; 0; 0; 16; 0; 0; 0; 0; 0; 0; 0; 0; 0; 0; 0; 0; 0; 0;
   8; 0; 0; 0; 0; 0; 0; 0; 8; 0; 0; 0; 0; 0; 0; 0; 0; 16; 0; 0; 0; 0; 0; 0; 19; 5; 0; 0; 115; 0; 0; 0].
Definition elf_block : list Z := blit 0 elf_bytes zero_block.
Definition elf_data : list Z := elf_block ++ replicate 1024 66.
Definition elf_head : list Z := take SZ_ELFHDR elf_data.
Definition disk1 : ram_disk := <[7 := elf_block]> (disk0 : gmap Z (list Z)).
Lemma elf_bytes_ok : bytes_ok elf_data.
Proof. apply Forall_app. split; [|by apply Forall_replicate]. apply bytes_ok_blit; [repeat constructor; lia|apply bytes_ok_replicate]. Qed.
Lemma disk1_blocks : ram_rd 7 disk1 = elf_block ∧ ram_rd 8 disk1 = replicate 1024 66.
Proof. split; vm_compute; reflexivity. Qed.
Lemma elf_headers : headers elf_data (e_phoff elf_head) (Z.to_nat (e_phnum elf_head)) = [header_at elf_data 64].
Proof. vm_compute. reflexivity. Qed.
Lemma elf_seg : is_load (header_at elf_data 64) = true ∧ seg_ok elf_data (header_at elf_data 64).
Proof. split; [by vm_compute|]. split; vm_compute; congruence. Qed.
Lemma is_exec_elf : is_exec elf_head = true ∧ e_entry elf_head = 4096.
Proof. by vm_compute. Qed.

(** ** The state *)

(** Two open files in page [q], the program the first. *)
Definition elf_file : file := MkFile O_RDONLY INODE 1 0 (Some 1%nat).
Definition elf_slots (q : nat) : slots file :=
  put_slot 0 (MkSlot 2 (Some q) (Some 1%nat)) (put_chunk (q, 1%nat) (MkChunk elf_file (Some 0%nat) true)
    (put_chunk (q, 0%nat) (MkChunk elf_file (Some 0%nat) true) init_slots)).
Lemma elf_chunk q o : chunk_of file0 (elf_slots q) o =
  if decide (o = (q, 0%nat) ∨ o = (q, 1%nat)) then MkChunk elf_file (Some 0%nat) true else chunk0 file0.
Proof.
  unfold chunk_of, elf_slots. cbn. destruct (decide (o = (q, 1%nat))) as [->|H1]; [by rewrite lookup_insert_eq, decide_True by auto|].
  rewrite lookup_insert_ne by done. destruct (decide (o = (q, 0%nat))) as [->|H0]; [by rewrite lookup_insert_eq, decide_True by auto|].
  rewrite lookup_insert_ne, lookup_empty by done. rewrite decide_False by tauto. done.
Qed.
Lemma elf_slots_inuse q : n_inuse NFILE_CHUNK file0 (elf_slots q) q = 2%nat.
Proof.
  set (c := MkChunk elf_file (Some 0%nat) true). set (st0 := init_slots (T:=file)). set (st1 := put_chunk (q, 0%nat) c st0).
  assert (HN : (0 < NFILE_CHUNK < 4096)%nat) by (unfold NFILE_CHUNK; lia). assert (H1N : (1 < NFILE_CHUNK)%nat) by (unfold NFILE_CHUNK; lia).
  assert (H0 : n_inuse NFILE_CHUNK file0 st0 q = 0%nat).
  { unfold n_inuse, flags. erewrite list_fmap_ext; [|intros; reflexivity]. reflexivity. }
  pose proof (n_inuse_put NFILE_CHUNK file0 HN st0 q 0 c (proj1 HN)) as E1. pose proof (n_inuse_put NFILE_CHUNK file0 HN st1 q 1 c H1N) as E2.
  assert (C0 : c_inuse (chunk_of file0 st0 (q, 0%nat)) = false) by reflexivity.
  assert (C1 : c_inuse (chunk_of file0 st1 (q, 1%nat)) = false) by (unfold chunk_of, st1, put_chunk; cbn [sl_chunks]; by rewrite lookup_insert_ne by congruence).
  rewrite C0 in E1. rewrite C1 in E2. change (c_inuse c) with true in E1, E2. fold st1 in E1. cbv iota in E1, E2.
  assert (E : n_inuse NFILE_CHUNK file0 (elf_slots q) q = n_inuse NFILE_CHUNK file0 (put_chunk (q, 1%nat) c st1) q).
  { apply n_inuse_ext. intros i _. reflexivity. }
  rewrite E. clear - E1 E2 H0. lia.
Qed.
Lemma elf_slots_inv tl p q : page_ok tl p q → slots_inv NFILE_CHUNK file0 tl p (elf_slots q).
Proof.
  intros Hq. assert (Hs : ∀ k sl, sl_slots (elf_slots q) !! k = Some sl →
    (k = 0%nat ∧ sl = MkSlot 2 (Some q) (Some 1%nat)) ∨ (k = 1%nat ∧ sl = MkSlot 0 None (Some 2%nat)) ∨ (k = 2%nat ∧ sl = MkSlot 0 None None)).
  { intros [|[|[|k]]] sl E; cbn in E; [injection E as <-; tauto..|done]. }
  split; [done| | |].
  - intros k sl [[-> ->]|[[-> ->]|[-> ->]]]%Hs; done.
  - intros k sl [[-> ->]|[[-> ->]|[-> ->]]]%Hs; [|done..]. unfold slot_ok. cbn [s_slot s_refc]. rewrite elf_slots_inuse.
    split; [done|]. split; [done|]. split; [done|]. intros i _. rewrite elf_chunk. by case_decide.
  - intros k k' sl sl' x [[-> ->]|[[-> ->]|[-> ->]]]%Hs [[-> ->]|[[-> ->]|[-> ->]]]%Hs; done.
Qed.
Lemma elf_slots_live q g : live NFILE_CHUNK file0 (elf_slots q) g → g.1 = q.
Proof. intros (k & sl & E & Es & _ & Hu). rewrite elf_chunk in Hu. case_decide as H; [by destruct H as [-> | ->]|done]. Qed.

(** A page for the kernel, taken beside the tasks. *)
Lemma tasks_inv_grow A i fl tl s : tasks_inv A (i :: fl) tl s →
  ∃ p, alloc_page (ts_pm s) = Ok i (touch (mach_of s), p) ∧ let s' := set_pm (touch (mach_of s), p) s in
    tasks_inv A fl tl s' ∧ page_ok tl p i ∧ i ∉ pg_inuse (pmem_of s) ∧
    (∀ t a, A !! t = Some a → ∀ va, trans (sp_pt a) p va = trans (sp_pt a) (pmem_of s) va).
Proof.
  intros [I1 I2 I3 I4 I5 I6 I7 I8]. destruct (alloc_page_spec i fl tl (mach_of s) (pmem_of s) I1 (quiet_mem_free _ I4)) as (p & E & Ip & Hi & Hn & Hu & _ & Hd & Hl).
  exists p. split; [by rewrite (surjective_pairing (ts_pm s))|].
  assert (Hok : ∀ q, page_ok tl (pmem_of s) q → page_ok tl p q) by (intros q (? & ? & ?); split_and!; [done|rewrite Hu; set_solver|done]).
  assert (Hpt : ∀ t a y j, A !! t = Some a → sp_pt a !! y = Some j → page_data p j = page_data (pmem_of s) j ∧ j ∈ pg_inuse p).
  { intros t a y j Ha Hy. destruct (owns_page _ _ _ _ _ I1 (so_owned _ _ _ _ (I5 t a Ha) y j Hy)) as [_ Hj]. split; [apply Hd; by intros ->|rewrite Hu; set_solver]. }
  split; [|split; [split_and!; [done|rewrite Hu; set_solver|done]|split; [done|]]].
  - split; try done; [by eapply slots_inv_pages, I2|by eapply slots_inv_pages, I3|].
    intros t a Ha. destruct (I5 t a Ha) as [S1 S2 S3 S4 S5 S6 S7]. split; try done. apply (pt_inv_same _ _ _ _ S3). intros y j. by apply Hpt with t.
  - intros t a Ha. apply (pt_inv_same _ _ _ _ (so_tree _ _ _ _ (I5 t a Ha))). intros y j. by apply Hpt with t.
Qed.

Definition elf_proc : proc := MkProc 1 1 None 0 None 0 (replicate 14 0) (replicate 16 0).
(** The kernel with the memory of [s] and the program open. *)
Definition elf_kern (s : tms) (q : nat) : kern (S:=mach * @bcache ram_disk) :=
  MkKern ((bset_mach (mach_of s) (cache0 disk1), icache0), ((pmem_of s, elf_slots q), (pipes0, tt))) (ts_vmas s) (ts_mms s) (ts_nodes s)
    (ts_tasks s) init_slots [1; 0; 0; 0] (elf_proc :: replicate (NPROC - 1) elf_proc) ∅.
Lemma elf_kern_tms s q : tms_of (elf_kern s q) = s.
Proof. unfold tms_of, k_mach, elf_kern. cbn [k_st fst]. rewrite bmach_set. destruct s as [[m p] ? ? ? ?]. reflexivity. Qed.
Lemma elf_kern_file s q : mach_frame mach0 (mach_of s) → file_ready sb0 (q, 0%nat) 1 in_file elf_file elf_data 0 (elf_kern s q).
Proof.
  intros Hm. destruct (cache0_ok disk1) as (Hok & Hn & Em & Hd & Hh).
  destruct (bset_mach_view (cache0 disk1) (mach_of s)) as (V1 & V2 & V3). set (s1 := bset_mach (mach_of s) (cache0 disk1)) in *.
  assert (Hok1 : bio_ok s1) by (apply bset_mach_ok; [done|by rewrite Em]).
  assert (Hdiv : ∀ p, 0 ≤ p < 2048 → p / 1024 = 0 ∧ p < 1024 ∧ p mod 1024 = p ∨ p / 1024 = 1 ∧ 1024 ≤ p ∧ p mod 1024 = p - 1024).
  { intros p Hp. pose proof (Z.div_mod p 1024 ltac:(lia)). pose proof (Z.mod_pos_bound p 1024 ltac:(lia)).
    assert (p / 1024 = 0 ∨ p / 1024 = 1) by (pose proof (Z.div_lt_upper_bound p 1024 2 ltac:(lia) ltac:(lia)); pose proof (Z.div_pos p 1024 ltac:(lia) ltac:(lia)); lia). lia. }
  assert (Hle : length elf_block = 1024%nat) by (by vm_compute).
  split.
  - exact Hok1.
  - unfold room. change (io_of (elf_kern s q)) with s1. rewrite V3, Hn. unfold NIOBUF. lia.
  - exact slot_file.
  - intros p Hp. change (io_of (elf_kern s q)) with s1. change (di_fsize (i_di in_file)) with 2048 in Hp.
    assert (Hnh : ∀ e, not_held s1 e) by (intros e b d; rewrite V2; apply Hh).
    destruct (Hdiv p Hp) as [(-> & _)|(-> & _)]; [exists 7|exists 8]; (split; [reflexivity|split; [by vm_compute|apply Hnh]]).
  - intros p Hp. change (io_of (elf_kern s q)) with s1. change (di_fsize (i_di in_file)) with 2048 in Hp. unfold file_byte.
    change (di_iblock (i_di in_file)) with (7 :: 8 :: replicate 13 0).
    destruct disk1_blocks as [D7 D8]. destruct (Hdiv p Hp) as [(-> & Hl & ->)|(-> & Hl & ->)]; cbn [mbind option_bind].
    + change ((7 :: 8 :: replicate 13 0) !! Z.to_nat 0) with (Some 7). cbn [mbind option_bind]. rewrite V1, Hd, D7. unfold elf_data. rewrite lookup_app_l by (rewrite Hle; lia). done.
    + change ((7 :: 8 :: replicate 13 0) !! Z.to_nat 1) with (Some 8). cbn [mbind option_bind]. rewrite V1, Hd, D8. unfold elf_data. rewrite lookup_app_r by (rewrite Hle; lia).
      f_equal. rewrite Hle. lia.
  - unfold elf_data. rewrite length_app, Hle, length_replicate. reflexivity.
  - vm_compute. congruence.
  - exact elf_bytes_ok.
  - reflexivity.
  - reflexivity.
  - unfold file_in, the_file. change (c_obj (chunk_of file0 (elf_slots q) (q, 0%nat)) = set_off 0 elf_file). rewrite elf_chunk, decide_True by (by left). reflexivity.
  - split; vm_compute; congruence.
Qed.
(** The first task with the program open. *)
Lemma elf_state : ∃ k fl tl a q, exec_ready sb0 {[ 0%nat := a ]} fl tl 0 a 0 elf_proc (q, 0%nat) 1 in_file elf_file elf_data 0 k ∧
  image_ok elf_data elf_head fl k.
Proof.
  pose proof NPAGE_Z as HN.
  destruct (mm_init_new_spec tramp0 (2 ^ 63) (2 ^ 19) ∅ _ ∅ boot_tms 0 boot_tms_inv (lookup_empty _) (lookup_empty _))
    as (s & fl & tl & a & E & I & D & Hn & _ & _ & Hh & _ & Hfl & Hv & Hm & Hts & Hmf & Htl);
    [unfold boot_tms; cbn [ts_tasks]; rewrite length_replicate; unfold NPROC; lia|cbn [length]; rewrite length_seq; lia|done|done|done|lia|done|lia|].
  cbn [length] in Hfl. rewrite length_seq in Hfl. rewrite insert_empty in I. destruct fl as [|q fl]; [cbn in Hfl; lia|]. cbn [length] in Hfl.
  destruct (tasks_inv_grow _ q fl tl s I) as (p & _ & I1 & Hok & Hnu & T). set (s1 := set_pm (touch (mach_of s), p) s) in *.
  assert (Ha : ({[ 0%nat := a ]} : gmap nat space) !! 0%nat = Some a) by apply lookup_singleton_eq.
  assert (Hmf1 : mach_frame mach0 (mach_of s1)) by (etransitivity; [exact Hmf|apply touch_frame]).
  exists (elf_kern s1 q), fl, tl, a, q. split; [split|].
  - rewrite elf_kern_tms. split; [exact I1|exact Ha|]. intros va i Hva Hi. unfold mem_frame in Hi. change (pmem_of s1) with p in Hi.
    rewrite (T _ _ Ha) in Hi. exact (desc_frame tl s 0 a va i D Hva Hi).
  - rewrite elf_kern_tms. exact Hh.
  - by apply elf_kern_file.
  - reflexivity.
  - split; [by apply elf_slots_inv| |change (k_files (elf_kern s1 q)) with (elf_slots q); cbn [fst]; rewrite elf_slots_inuse; lia].
    exists 0%nat, (MkSlot 2 (Some q) (Some 1%nat)). split; [reflexivity|]. split; [reflexivity|]. split; [unfold NFILE_CHUNK; cbn; lia|].
    change (k_files (elf_kern s1 q)) with (elf_slots q). rewrite elf_chunk, decide_True by (by left). reflexivity.
  - intros o g Ho Hg. rewrite elf_kern_tms in Ho. rewrite (elf_slots_live q g Hg). intros Eo. destruct Ho as (k & sl & E1 & E2 & _).
    pose proof (sv_slot _ _ _ _ _ (ti_vmas _ _ _ _ I) k sl E1) as Hs. unfold slot_ok in Hs. rewrite E2, Eo in Hs. by apply Hnu, Hs.
  - reflexivity.
  - cbn. lia.
  - change (k_mach (elf_kern s1 q)) with (mach_of (tms_of (elf_kern s1 q))). rewrite elf_kern_tms. destruct Hmf1 as (_ & _ & _ & _ & _ & ->). cbn. lia.
  - split.
    + by vm_compute.
    + by vm_compute.
    + change (Z.to_nat (e_phnum elf_head)) with 1%nat. lia.
    + change (k_vmas (elf_kern s1 q)) with (ts_vmas s). change (Z.to_nat (e_phnum elf_head)) with 1%nat. rewrite Hv.
      assert (refs (ts_vmas boot_tms) = 0) as -> by reflexivity. unfold NSLOT_DEFAULT, NVMA_CHUNK. lia.
    + rewrite elf_headers. intros pg ->%list_elem_of_singleton _. apply elf_seg.
Qed.
(** The code at address 4096, readable and executable. *)
Lemma elf_loaded w : load_view elf_data (headers elf_data (e_phoff elf_head) (Z.to_nat (e_phnum elf_head))) w 4096 = Some (19, 27) ∧
  load_view elf_data (headers elf_data (e_phoff elf_head) (Z.to_nat (e_phnum elf_head))) w 4104 = Some (0, 27) ∧
  load_heap (headers elf_data (e_phoff elf_head) (Z.to_nat (e_phnum elf_head))) 0 = 8192.
Proof. rewrite elf_headers. vm_compute. split_and!; reflexivity. Qed.

Lemma load_segment_maps_witness : ∃ (k k' : kern (S:=mach * @bcache ram_disk)) f a', load_segment (replicate SZ_PROGHDR 0) 0 f elf_head k = Ok tt k' ∧
  mem_view (tms_of k') a' 4096 = Some (19, 27) ∧ mem_view (tms_of k') a' 4104 = Some (0, 27) ∧ mm_heap (tms_of k') 0 = Some 8192.
Proof.
  destruct elf_state as (k & fl & tl & a & q & [Os Hh R Hrc Fo Sep Hp Hc Ht] & [G1 G2 G3 G4 G5]).
  destruct (load_segment_maps sb0 sb0_wf _ fl tl 0 a (q, 0%nat) 1 in_file elf_file elf_data 0 elf_head (replicate SZ_PROGHDR 0) k 0 Os R Hh
    (length_replicate _ _) G1 G2 G3 G4 G5) as (k' & fl' & tl' & a' & E & _ & W & H' & _).
  exists k, k', (q, 0%nat), a'. split; [exact E|]. destruct (elf_loaded (mem_view (tms_of k) a)) as (V1 & V2 & V3).
  rewrite !W by (split; vm_compute; congruence). rewrite V3 in H'. split; [exact V1|]. split; [exact V2|exact H'].
Defined.
Lemma exec_replaces_program_witness : ∃ (k k' : kern (S:=mach * @bcache ram_disk)) f a' p, exec_image 0x80001000 (replicate SZ_PROGHDR 0) 0 f elf_head k = Switch k' ∧
  mem_view (tms_of k') a' 4096 = Some (19, 27) ∧ k_procs k' !! 0%nat = Some p ∧ p_entry p = 4096 ∧ p_ctx p !! 0%nat = Some 0x80001000.
Proof.
  destruct elf_state as (k & fl & tl & a & q & Er & Im).
  destruct (exec_replaces_program sb0 sb0_wf _ fl tl 0 a 0 elf_proc (q, 0%nat) 1 in_file elf_file elf_data 0 elf_head (replicate SZ_PROGHDR 0) 0x80001000 k
    Er Im (length_replicate _ _)) as (k' & fl' & tl' & a' & tm & E & _ & W & _ & _ & P & _).
  eexists k, k', (q, 0%nat), a', _. split; [exact E|]. destruct (elf_loaded (mem_view (tms_of k) a)) as (V1 & _ & _).
  rewrite W by (split; vm_compute; congruence). split; [exact V1|]. split; [exact P|]. split; [exact (proj2 is_exec_elf)|reflexivity].
Defined.

(** A task that is READY, with its page table at 0x80005000. *)
Definition hart0 : hart := MkHart (λ _, 0) (λ _, 0) Supervisor 0 (λ _, 0).
Definition ready0 : mach := MkMach (m_cpu mach0) ∅ (MkTsk READY None :: drop 1 (m_tasks mach0)).
Definition start_tmem : tmem := MkTmem None 0x80005000 (USTACK + PGSIZE - 16) 0x80007000.
Definition start_kern : kern (S:=mach * @bcache ram_disk) :=
  MkKern ((bset_mach ready0 fs_state, icache0), ((boot_mem, init_slots), (pipes0, tt))) init_slots init_slots ∅
    [start_tmem] init_slots [1; 0; 0; 0] [set_entry 4096 elf_proc] ∅.
Lemma first_sched_enters_witness : ∃ s1 k' h', dispatch 0 (start_kern, (hart0, false)) = Ok true s1 ∧
  first_sched 0 0 0 [] [] (λ _ a, Some a) s1 = Ok tt (k', (h', false)) ∧
  h_mode h' = User ∧ h_pc h' = 4096 ∧ h_reg h' A0 = USTACK + PGSIZE - 16 ∧ h_csr h' Satp = 0x8000000000080005 ∧ status_bit SIE_BIT h' = true.
Proof.
  assert (Em : k_mach start_kern = ready0) by apply bmach_set.
  destruct (first_sched_enters 0 0 0 [] [] (λ _ a, Some a) start_kern hart0 false 0 (MkTsk READY None) start_tmem (set_entry 4096 elf_proc) start_tmem
    (set_kmach (running_mach 0 (MkTsk READY None) (k_mach start_kern)) start_kern))
    as (s1 & h' & E1 & E2 & H1 & H2 & _ & H3 & H4 & _ & H5 & _);
    [rewrite Em; by split|rewrite Em; reflexivity|reflexivity|reflexivity|reflexivity|reflexivity|reflexivity|split; vm_compute; congruence|].
  exists s1, (set_kmach (running_mach 0 (MkTsk READY None) (k_mach start_kern)) start_kern), h'. split; [exact E1|]. split; [exact E2|].
  split; [exact H1|]. split; [exact H2|]. split; [exact H3|]. split; [exact H4|exact H5].
Defined.
