(* ===== verification/MkfsWalk.v ===== *)
(** The kernel on an image of mkfs: looking names up and walking paths
    (kernel/fs/dir.c) in the directories mkfs has written. *)
From S2P Require Import Prelude Bytes CString Machine BlockIO Fs Inode Dir File FsResults DirResults Mkfs MkfsLayout MkfsTree.

(** ** The index of a file *)

Lemma layout_file_block disk b q k : indexed disk b q → (k < q)%nat → (q ≤ MAXQ)%nat →
  file_block disk (layout_ib b q) (Z.of_nat k) = Some (blk_at b k) ∧
  (Z.of_nat NDIRECT ≤ Z.of_nat k → ∀ x, index_block (layout_ib b q) (Z.of_nat k) = Some x → ∃ i, x = idx_at b i ∧ (12 + 256 * i < q)%nat).
Proof.
  intros Hx Hk Hq. unfold file_block, index_block, index_slot. change (Z.of_nat NDIRECT) with 12. change (Z.of_nat IDX_CNT) with 256.
  change NDIRECT with 12%nat. destruct (Z.ltb_spec (Z.of_nat k) 12) as [H12|H12].
  - split; [|lia]. rewrite Nat2Z.id, layout_direct_lookup by lia. destruct (Nat.ltb_spec k q); [|lia]. by rewrite blk_at_direct by lia.
  - destruct (split_index k ltac:(lia)) as (i & j & -> & Hj). unfold MAXQ in Hq.
    assert (E1 : (Z.of_nat (12 + 256 * i + j) - 12) / 256 = Z.of_nat i) by (symmetry; apply Z.div_unique with (Z.of_nat j); lia).
    assert (E2 : (Z.of_nat (12 + 256 * i + j) - 12) mod 256 = Z.of_nat j) by (symmetry; apply Z.mod_unique with (Z.of_nat i); lia).
    rewrite E1, E2, !Nat2Z.id. rewrite layout_index by lia. destruct (Nat.ltb_spec (12 + 256 * i) q); [|lia]. split.
    + cbn [fmap option_fmap option_map]. rewrite Hx by lia. unfold idx_entry. by destruct (Nat.ltb_spec (12 + 256 * i + j) q); [|lia].
    + intros _ x [= <-]. by exists i.
Qed.

(** ** Directory blocks *)

Lemma name_of_zeros n k : Forall (λ c, 0 < c < 256) n → name_of (n ++ replicate k 0) = n.
Proof.
  induction n as [|c n IH]; intros H; [by destruct k|]. apply Forall_cons in H as [Hc H]. cbn. destruct (Z.eqb_spec c 0); [lia|]. by rewrite IH.
Qed.
Lemma name_of_pad n : name_ok n → name_of (pad_name n) = n.
Proof. intros (Hl & _ & Hn). unfold pad_name, blit. rewrite drop_replicate. cbn [take app]. by apply name_of_zeros. Qed.
Lemma countb_seq (f : nat → bool) a n m : (n ≤ m)%nat → (∀ j, (j < n)%nat → f (a + j)%nat = true) →
  (∀ j, (n ≤ j < m)%nat → f (a + j)%nat = false) → countb f (seq a m) = n.
Proof.
  revert a n. induction m as [|m IH]; intros a n Hn H1 H2; [cbn; lia|]. cbn [seq countb]. destruct n as [|n].
  - rewrite <- (Nat.add_0_r a) at 1. rewrite H2 by lia. apply IH; [lia|lia|]. intros j Hj. rewrite Nat.add_succ_comm. apply H2. lia.
  - rewrite <- (Nat.add_0_r a) at 1. rewrite H1 by lia. f_equal. apply IH; [lia|..]; intros j Hj; rewrite Nat.add_succ_comm; [apply H1|apply H2]; lia.
Qed.
Lemma find_seq (f : nat → bool) a n m : (n < m)%nat → (∀ j, (j < n)%nat → f (a + j)%nat = false) → f (a + n)%nat = true →
  List.find f (seq a m) = Some (a + n)%nat.
Proof.
  revert a n. induction m as [|m IH]; intros a n Hn H1 H2; [lia|]. cbn [seq List.find]. destruct n as [|n].
  - rewrite Nat.add_0_r in *. by rewrite H2.
  - rewrite <- (Nat.add_0_r a) at 1. rewrite H1 by lia. rewrite (IH (S a) n); [f_equal; lia|lia| |by rewrite Nat.add_succ_comm].
    intros j Hj. rewrite Nat.add_succ_comm. apply H1. lia.
Qed.
Section block.
Context (d : list Z) (l : list (list Z * Z)).
Hypothesis Hd : dir_holds d l.
Hypothesis Hl : (length l ≤ 31)%nat.
Hypothesis Hn : Forall (λ x, name_ok x.1) l.
Lemma holds_name j : (j < 31)%nat → name_of (dt_name (S j) d) = from_option fst [] (l !! j).
Proof.
  intros Hj. destruct (l !! j) as [[n c]|] eqn:E; cbn [from_option].
  - destruct (sh_entry _ _ (proj1 Hd) j n c E) as [_ ->]. apply name_of_pad. by apply (proj1 (Forall_lookup _ _) Hn _ _ E).
  - apply lookup_ge_None in E. by rewrite (sh_free _ _ (proj1 Hd) j) by lia.
Qed.
Lemma holds_ok : dir_block_ok d.
Proof.
  split; [apply (sh_block _ _ (proj1 Hd))|]. rewrite (proj2 Hd). f_equal. symmetry. change DENTRY_MAXCNT_PER_BLOCK with 31%nat.
  apply countb_seq; [done|..]; intros j Hj; unfold live; change (1 + j)%nat with (S j); rewrite holds_name by lia.
  - destruct (lookup_lt_is_Some_2 l j Hj) as [[n c] E]. rewrite E. cbn [from_option fst].
    rewrite bool_decide_eq_false_2; [done|]. by apply (proj1 (Forall_lookup _ _) Hn _ _ E).
  - rewrite lookup_ge_None_2 by lia. done.
Qed.
Lemma holds_find w c : w ≠ [] → NoDup l.*1 → (w, c) ∈ l → ∃ j, block_find d w = Some j ∧ dt_inum j d = c.
Proof.
  intros Hw Hnd [j Hj]%list_elem_of_lookup. pose proof (lookup_lt_Some _ _ _ Hj) as Hlt. exists (S j). split; [|by apply (sh_entry _ _ (proj1 Hd) j w c)].
  unfold block_find, by_name. change DENTRY_MAXCNT_PER_BLOCK with 31%nat. apply (find_seq _ 1 j); [lia|..].
  - intros j' Hj'. change (1 + j')%nat with (S j'). rewrite holds_name by lia. destruct (lookup_lt_is_Some_2 l j') as [[n' c'] E']; [lia|]. rewrite E'. cbn.
    apply bool_decide_eq_false_2. intros ->. assert (j = j') as ->; [|lia].
    eapply (NoDup_lookup l.*1); [done|rewrite list_lookup_fmap, Hj; done|rewrite list_lookup_fmap, E'; done].
  - change (1 + j)%nat with (S j). rewrite holds_name by lia. rewrite Hj. by apply bool_decide_eq_true_2.
Qed.
Lemma holds_find_none w : w ≠ [] → w ∉ l.*1 → block_find d w = None.
Proof.
  intros Hw Hni. apply find_none_iff, Forall_forall. change DENTRY_MAXCNT_PER_BLOCK with 31%nat. intros j Hj%elem_of_seq. destruct j as [|j]; [lia|].
  unfold by_name. rewrite holds_name by lia. apply bool_decide_eq_false_2. destruct (l !! j) as [[n c]|] eqn:E; cbn; [|done]. intros ->. apply Hni.
  apply list_elem_of_fmap. exists (w, c). split; [done|]. by eapply list_elem_of_lookup_2.
Qed.
End block.

(** ** A directory *)
Section dir.
Context (disk : Z → list Z) (b : Z) (q : nat) (L : list (list Z * Z)).
Hypothesis Hx : indexed disk b q.
Hypothesis Hq : (q ≤ MAXQ)%nat.
Hypothesis Hblk : ∀ k, (k < q)%nat → dir_holds (disk (blk_at b k)) (take 31 (drop (31 * k) L)).
Hypothesis Hn : Forall (λ x, name_ok x.1) L.
Lemma names_part k : Forall (λ x, name_ok x.1) (take 31 (drop (31 * k) L)).
Proof. by apply Forall_take, Forall_drop. Qed.
Lemma dir_lookup_built w c n i : w ≠ [] → NoDup L.*1 → (length L ≤ 31 * q)%nat → (i + n = q)%nat → (w, c) ∈ drop (31 * i) L →
  dir_lookup disk (layout_ib b q) w n (Z.of_nat i) = Some c.
Proof.
  intros Hw Hnd HL. revert i. induction n as [|n IH]; intros i Hin Hwc.
  { rewrite drop_ge in Hwc by lia. by apply elem_of_nil in Hwc. }
  cbn [dir_lookup]. destruct (layout_file_block disk b q i Hx ltac:(lia) Hq) as [-> _]. set (X := drop (31 * i) L) in *.
  assert (Hle : (length (take 31 X) ≤ 31)%nat) by (rewrite length_take; lia).
  assert (HndX : NoDup X.*1) by (unfold X; rewrite fmap_drop; eapply sublist_NoDup; [exact Hnd|apply sublist_drop]).
  rewrite <- (take_drop 31 X), fmap_app in HndX. apply NoDup_app in HndX as (Hnd1 & Hdisj & _).
  rewrite <- (take_drop 31 X) in Hwc. apply elem_of_app in Hwc as [Hwc|Hwc].
  - destruct (holds_find _ _ (Hblk i ltac:(lia)) Hle (names_part i) w c Hw Hnd1 Hwc) as (j & -> & ->). done.
  - rewrite (holds_find_none _ _ (Hblk i ltac:(lia)) Hle (names_part i) w Hw).
    + replace (Z.of_nat i + 1) with (Z.of_nat (S i)) by lia. apply IH; [lia|]. unfold X in Hwc. rewrite drop_drop in Hwc.
      by replace (31 * S i)%nat with (31 * i + 31)%nat by lia.
    + intros Hw'. apply (Hdisj w Hw'). apply list_elem_of_fmap. by exists (w, c).
Qed.
End dir.

(** ** Paths in the host directory *)

Definition assoc {A} (c : list Z) (l : list (list Z * A)) : option A := snd <$> List.find (λ x, bool_decide (x.1 = c)) l.
Lemma assoc_lookup {A} c (l : list (list Z * A)) v : assoc c l = Some v → ∃ i, l !! i = Some (c, v).
Proof.
  unfold assoc. destruct (List.find _ l) as [[n v']|] eqn:E; [|done]. intros [= <-]. apply find_split in E as (l1 & l2 & -> & Hc & _).
  apply bool_decide_eq_true in Hc. cbn in Hc. subst n. exists (length l1). by apply list_lookup_middle.
Qed.
(** A file or a directory of the host. *)
Definition node : Type := list dirent + list Z.
Definition host_step (es : list dirent) (c : list Z) : option node :=
  match assoc c (sub_dirs es) with Some sub => Some (inl sub) | None => inr <$> assoc c (reg_files es) end.
Fixpoint host_find (t : node) (cs : list (list Z)) : option node :=
  match cs with
  | [] => Some t
  | c :: cs => match t with inl es => host_step es c ≫= λ t, host_find t cs | inr _ => None end
  end.
(** No two entries of a directory have the same name. *)
Definition names_distinct (es : list dirent) : Prop := NoDup ([DOT] :: [DOT; DOT] :: (sub_dirs es).*1 ++ (reg_files es).*1).
Fixpoint ent_distinct (e : dirent) : Prop :=
  match e with
  | HDir n sub => is_dots n = true ∨ names_distinct sub ∧ foldr (λ e P, ent_distinct e ∧ P) True sub
  | _ => True
  end.
Definition dir_distinct (es : list dirent) : Prop := names_distinct es ∧ foldr (λ e P, ent_distinct e ∧ P) True es.
Lemma sub_distinct es n sub : foldr (λ e P, ent_distinct e ∧ P) True es → (n, sub) ∈ sub_dirs es → dir_distinct sub.
Proof.
  induction es as [|e es IH]; intros H Hin; [by apply elem_of_nil in Hin|]. destruct H as [He H].
  destruct e as [n' d'|n' sub'|n']; [by apply IH|rewrite dirs_dir in Hin|by apply IH].
  destruct (is_dots n') eqn:Ed; [by apply IH|]. apply elem_of_cons in Hin as [[= -> ->]|Hin]; [|by apply IH].
  destruct He as [He|He]; [congruence|done].
Qed.
Definition node_ok (t : node) : Prop := match t with inl es => dir_ok es ∧ dir_distinct es | inr d => (data_blocks (length d) ≤ MAXQ)%nat end.
Definition node_inodes (t : node) : nat := match t with inl es => dir_inodes es | inr _ => 1 end.
Definition node_blocks (t : node) : nat := match t with inl es => dir_blocks es | inr d => file_blocks (data_blocks (length d)) end.

Lemma dir_names_lookup ds g i n sub : ds !! i = Some (n, sub) → dir_names ds g !! i = Some (n, g + Z.of_nat (sum_of sub_inodes (take i ds))).
Proof.
  revert i g. induction ds as [|[n' sub'] ds IH]; intros [|i] g Hi; try done; cbn [dir_names take].
  - injection Hi as -> ->. cbn. by rewrite Z.add_0_r.
  - cbn [lookup list_lookup]. rewrite sum_of_cons. change (sub_inodes (n', sub')) with (dir_inodes sub'). fold (dir_names ds).
    rewrite Nat2Z.inj_add, Z.add_assoc. by apply (IH i).
Qed.
Lemma file_names_lookup fs g i n d : fs !! i = Some (n, d) → file_names fs g !! i = Some (n, g + Z.of_nat i).
Proof.
  revert i g. induction fs as [|[n' d'] fs IH]; intros [|i] g Hi; try done; cbn [file_names].
  - injection Hi as -> ->. cbn. by rewrite Z.add_0_r.
  - replace (g + Z.of_nat (S i)) with (g + 1 + Z.of_nat i) by lia. by apply (IH i).
Qed.
Lemma files_built_lookup D im fs g b i n d : files_built D im fs g b → fs !! i = Some (n, d) →
  file_built D im d (g + Z.of_nat i) (b + Z.of_nat (sum_of file_size (take i fs))).
Proof.
  revert i g b. induction fs as [|[n' d'] fs IH]; intros [|i] g b H Hi; try done; destruct H as [H1 H2].
  - injection Hi as -> ->. cbn [take sum_of foldr]. by rewrite !Z.add_0_r.
  - cbn [take]. rewrite sum_of_cons, Nat2Z.inj_add, Z.add_assoc. replace (g + Z.of_nat (S i)) with (g + 1 + Z.of_nat i) by lia. by apply (IH i).
Qed.
Lemma dir_list_names es pinum g : (dir_list es pinum g).*1 = [DOT] :: [DOT; DOT] :: (sub_dirs es).*1 ++ (reg_files es).*1.
Proof.
  unfold dir_list. cbn. rewrite fmap_app. do 3 f_equal.
  - generalize (g + 1 + Z.of_nat (length (reg_files es))). induction (sub_dirs es) as [|[n sub] ds IH]; intros z; [done|]. cbn. by rewrite IH.
  - generalize (g + 1). induction (reg_files es) as [|[n d] fs IH]; intros z; [done|]. cbn. by rewrite IH.
Qed.
Lemma dir_list_ok es pinum g : dir_ok es → Forall (λ x, name_ok x.1) (dir_list es pinum g) ∧ (length (dir_list es pinum g) ≤ 31 * dir_q es)%nat.
Proof.
  intros [[Hq Hr] He]. split.
  - assert (H : Forall name_ok (dir_list es pinum g).*1); [|exact (proj1 (Forall_fmap _ _ _) H)]. rewrite dir_list_names. apply Forall_cons_2; [exact dot_ok|]. apply Forall_cons_2; [exact dots_ok|].
    apply Forall_app. split; apply Forall_fmap, Forall_forall; intros [n x] Hx; cbn; [by eapply sub_dirs_ok|by eapply reg_files_ok].
  - unfold dir_list. cbn [length]. rewrite length_app, length_dir_names, length_file_names. lia.
Qed.

(** ** The kernel on the image *)
Section kernel.
Context {S : Type} {IO : BlockIO S} (s : S) (NI NB : nat).
#[local] Abbreviation disk := (bio_disk s).
#[local] Abbreviation D := (disk_inode mk_sb (bio_disk s)).
Hypothesis HNI : Z.of_nat NI ≤ MAX_FILE_NUMBER.
Hypothesis HNB : Z.of_nat NB ≤ DATA_BLOCK_NUMBER.
Hypothesis Hmap : ∀ g, 0 ≤ g < Z.of_nat NI → map_bit disk (sb_imap mk_sb) g = true.
Hypothesis Hheld : ∀ e, data_blk mk_sb e → not_held s e.

(** A file or a directory of the host stands at inode [g] and block [b], inside the
    part of the image that is in use. *)
Definition node_at (t : node) (g b : Z) : Prop :=
  match t with inl es => ∃ pinum, dir_built D disk pinum es g b | inr d => file_built D disk d g b end ∧
  0 ≤ g ∧ g + Z.of_nat (node_inodes t) ≤ Z.of_nat NI ∧
  sb_blocks mk_sb ≤ b ∧ b + Z.of_nat (node_blocks t) ≤ sb_blocks mk_sb + Z.of_nat NB.
Lemma area_blk e : sb_blocks mk_sb ≤ e < sb_blocks mk_sb + Z.of_nat NB → data_blk mk_sb e.
Proof.
  intros He. unfold data_blk, nblocks. rewrite bits_per_block. change (sb_blocks mk_sb - sb_bmap mk_sb) with 128.
  change DATA_BLOCK_NUMBER with 1048576 in HNB. lia.
Qed.
(** The directory of a node as the kernel sees it. *)
Lemma node_dir es g b : node_at (inl es) g b → node_ok (inl es) → ∃ b1,
  D g = MkDi DIRECTORY 0 (2 + Z.of_nat (length (sub_dirs es))) (1024 * Z.of_nat (dir_q es)) (layout_ib b1 (dir_q es)) ∧
  Z.to_nat (iblock_cnt (D g)) = dir_q es ∧ dir_blocks_ok mk_sb s (di_iblock (D g)) (dir_q es) 0 ∧
  (∀ c t, host_step es c = Some t → c ≠ [] → ∃ g' b', dir_lookup disk (di_iblock (D g)) c (dir_q es) 0 = Some g' ∧ node_at t g' b' ∧ node_ok t).
Proof.
  intros [[pinum Hb] (Hg0 & Hg & Hb0 & HbN)] [Hok [Hnd Hsubd]]. inversion Hb as [pinum' es' g0 b0 b1 g2 b2 Hfs Hh Hds]. subst pinum' es' g0 b0.
  destruct Hh as (HD & Hx & Hblk). exists b1. cbn [node_inodes node_blocks] in Hg, HbN. unfold dir_inodes, dir_blocks in Hg, HbN.
  rewrite ents_inodes in Hg. rewrite ents_blocks in HbN. pose proof Hok as [[Hq Hroom] Hents].
  destruct (dir_list_ok es pinum g Hok) as [Hnames HlenL]. pose proof (dir_list_names es pinum g) as Hln.
  split; [done|]. split; [|split].
  - rewrite HD. unfold iblock_cnt. cbn [di_fsize]. change (Z.of_nat BSIZE) with 1024. unfold MAXQ in Hq.
    rewrite (Z.mul_comm 1024), Z.div_mul, Z.mod_mul by lia. change (0 =? 0) with true. cbn iota.
    rewrite Z.sub_0_r, u32_id, i32_id by lia. apply Nat2Z.id.
  - intros k Hk. rewrite HD. cbn [di_iblock]. destruct (layout_file_block disk b1 (dir_q es) (Z.to_nat k) Hx ltac:(lia) Hq) as [E1 E2].
    rewrite Z2Nat.id in E1, E2 by lia. exists (blk_at b1 (Z.to_nat k)). split; [done|].
    pose proof (blk_at_range b1 (dir_q es) (Z.to_nat k) ltac:(lia)) as Hr.
    assert (Hdb : data_blk mk_sb (blk_at b1 (Z.to_nat k))) by (apply area_blk; unfold b1 in *; lia).
    split; [done|]. split; [by apply Hheld|]. split.
    + eapply holds_ok; [apply Hblk; lia|rewrite length_take; lia|by apply Forall_take, Forall_drop].
    + intros H12 x Ex. destruct (E2 H12 x Ex) as (i & -> & Hi). pose proof (idx_at_range b1 (dir_q es) i Hi).
      assert (data_blk mk_sb (idx_at b1 i)) by (apply area_blk; unfold b1 in *; lia). split; [done|by apply Hheld].
  - intros c t Ht Hc. rewrite HD. cbn [di_iblock].
    assert (Hlk : ∀ g', (c, g') ∈ dir_list es pinum g → dir_lookup disk (layout_ib b1 (dir_q es)) c (dir_q es) 0 = Some g').
    { intros g' Hin. apply (dir_lookup_built disk b1 (dir_q es) (dir_list es pinum g) Hx Hq Hblk Hnames c g' (dir_q es) 0);
        [done|by rewrite Hln|done|lia|done]. }
    unfold host_step in Ht. destruct (assoc c (sub_dirs es)) as [sub|] eqn:Ea.
    + injection Ht as <-. destruct (assoc_lookup _ _ _ Ea) as [i Hi]. pose proof (sum_of_take sub_inodes _ _ _ Hi) as S1.
      pose proof (sum_of_take sub_blocks _ _ _ Hi) as S2. change (sub_inodes (c, sub)) with (dir_inodes sub) in S1. change (sub_blocks (c, sub)) with (dir_blocks sub) in S2.
      assert (Hin : (c, sub) ∈ sub_dirs es) by (by eapply list_elem_of_lookup_2).
      eexists _, _. split; [|split; [split; [exists g; by apply (Hds i c sub)|cbn [node_inodes node_blocks]; unfold g2, b2, b1; lia]|]].
      * apply Hlk. unfold dir_list. right; right. apply elem_of_app. left. eapply list_elem_of_lookup_2, dir_names_lookup, Hi.
      * split; [by apply (sub_dirs_ok es c sub)|by eapply sub_distinct].
    + destruct (assoc c (reg_files es)) as [d|] eqn:Ef; [|done]. injection Ht as <-. destruct (assoc_lookup _ _ _ Ef) as [i Hi].
      pose proof (sum_of_take file_size _ _ _ Hi) as S2. change (file_size (c, d)) with (file_blocks (data_blocks (length d))) in S2.
      pose proof (lookup_lt_Some _ _ _ Hi).
      eexists _, _. split; [|split; [split; [by eapply files_built_lookup|cbn [node_inodes node_blocks]; lia]|]].
      2: { apply (reg_files_ok es c d Hents). by eapply list_elem_of_lookup_2. }
      apply Hlk. unfold dir_list. right; right. apply elem_of_app. right. eapply list_elem_of_lookup_2, file_names_lookup, Hi.
Qed.

(** The cache agrees with the disk, and the walk will find a slot when it leaves the
    inode of slot [cur]. *)
Record cache_good (l : list inode) (cur : nat) : Prop := {
  cg_inv : icache_inv l;
  cg_disk i a : l !! i = Some a → i_sb a = Some mk_sb → i_di a = D (i_inum a);
  cg_room : (∃ a, l !! cur = Some a ∧ i_refc a = 1) ∨ ∃ f, f ≠ cur ∧ free_at l f = true;
}.
Lemma put_ref_free l cur a : cache_good l cur → l !! cur = Some a → let l1 := <[cur := put_ref a]> l in
  icache_inv l1 ∧ (∀ i a, l1 !! i = Some a → i_sb a = Some mk_sb → i_di a = D (i_inum a)) ∧ ∃ f, free_at l1 f = true.
Proof.
  intros [H1 H2 H3] Ea l1. pose proof (lookup_lt_Some _ _ _ Ea) as Hlt. split; [|split].
  - apply (icache_inv_refc l cur a (λ v, u32 (v - 1))); [done|done|]. intros v. apply u32_bound.
  - intros i x Hi. unfold l1 in Hi. destruct (decide (cur = i)) as [<-|Hne].
    + rewrite list_lookup_insert_eq in Hi by done. injection Hi as <-. exact (H2 cur a Ea).
    + rewrite list_lookup_insert_ne in Hi by done. exact (H2 i x Hi).
  - destruct H3 as [(a' & Ea' & Hr)|(f & Hf & Hfree)].
    + exists cur. unfold free_at, l1. rewrite list_lookup_insert_eq by done. rewrite Ea in Ea'. injection Ea' as <-. cbn. by rewrite Hr.
    + exists f. unfold free_at, l1 in *. by rewrite list_lookup_insert_ne.
Qed.
Lemma iget_built l g : icache_inv l → (∀ i a, l !! i = Some a → i_sb a = Some mk_sb → i_di a = D (i_inum a)) → (∃ f, free_at l f = true) →
  0 ≤ g < Z.of_nat NI →
  ∃ k l' a, iget_result mk_sb g s l = Some (Some (k, l')) ∧ slot_of mk_sb l' k a ∧ i_di a = D g ∧ cache_good l' k.
Proof.
  intros IC Hc [f Hf] Hg.
  assert (Hex : ∃ k l' x a, iget_result mk_sb g s l = Some (Some (k, l')) ∧ l !! k = Some x ∧ l' = <[k := a]> l ∧
    i_di a = D g ∧ i_sb a = Some mk_sb ∧ i_inum a = g ∧ (i_refc a = 1 ∨ f ≠ k)).
  { unfold iget_result. destruct (List.find (hit_at mk_sb g l) (seq 0 NINODE)) as [k|] eqn:Eh.
    - apply List.find_some in Eh as [_ Hh]. apply hit_at_Some in Hh as (x & Ex & Hsb & Hn). exists k, (alter inc_ref k l), x, (inc_ref x).
      split; [done|]. split; [done|]. split; [by rewrite (list_alter_insert _ _ _ _ Ex)|]. split; [cbn; rewrite <- Hn; by apply (Hc k)|].
      split; [done|]. split; [done|]. destruct (decide (f = k)) as [->|]; [left|by right]. unfold free_at in Hf. rewrite Ex in Hf.
      apply Z.eqb_eq in Hf. cbn. by rewrite Hf.
    - rewrite Hmap by done. cbn [negb]. destruct (List.find (free_at l) (seq 0 NINODE)) as [k|] eqn:Ef.
      + apply List.find_some in Ef as [_ Hk]. unfold free_at in Hk. destruct (l !! k) as [x|] eqn:Ex; [|done]. eexists k, _, x, _.
        split; [reflexivity|]. split; [done|]. split; [by rewrite (list_alter_insert _ _ _ _ Ex)|]. cbn. split_and!; try done. by left.
      + exfalso. apply find_none_iff in Ef. rewrite Forall_forall in Ef. assert (Hfl : (f < NINODE)%nat).
        { unfold free_at in Hf. destruct (l !! f) eqn:E; [|done]. apply lookup_lt_Some in E. by rewrite (ic_len _ IC) in E. }
        rewrite Ef in Hf; [done|]. apply elem_of_seq. lia. }
  destruct Hex as (k & l' & x & a & E & Ex & -> & Hdi & Hsb & Hn & Hr). pose proof (lookup_lt_Some _ _ _ Ex) as Hlt.
  destruct (iget_result_inv _ _ _ _ _ _ IC E) as (IC' & _). assert (Ek : <[k := a]> l !! k = Some a) by (by apply list_lookup_insert_eq).
  exists k, (<[k := a]> l), a. split; [done|]. split; [split; [done|]; split; [by apply (ic_slot _ IC' k)|done]|]. split; [done|]. split; [done|..].
  - intros i y Hi Hs. destruct (decide (k = i)) as [<-|Hne].
    + rewrite Ek in Hi. injection Hi as <-. by rewrite Hdi, Hn.
    + rewrite list_lookup_insert_ne in Hi by done. by apply (Hc i).
  - destruct Hr as [Hr|Hne]; [left; by exists a|right]. exists f. split; [done|]. unfold free_at in *. by rewrite list_lookup_insert_ne.
Qed.

(** Along a path of the host directory the kernel comes to the file or directory the
    path names there. *)
Lemma resolve_built cs : ∀ t t' g b l cur a, Forall comp_ok cs → host_find t cs = Some t' → node_at t g b → node_ok t →
  slot_of mk_sb l cur a → i_di a = D g → cache_good l cur →
  walk_ok mk_sb s cs l cur ∧
  ∃ k l' a' g' b', resolve mk_sb s cs l cur = Found k l' ∧ slot_of mk_sb l' k a' ∧ i_di a' = D g' ∧ node_at t' g' b' ∧ node_ok t'.
Proof.
  induction cs as [|c cs IH]; intros t t' g b l cur a Hcs Ht Hat Hok Hsl Hdi HC.
  { injection Ht as <-. split; [done|]. exists cur, l, a, g, b. done. }
  apply Forall_cons in Hcs as [Hc Hcs]. cbn [host_find] in Ht. destruct t as [es|d]; [|done].
  destruct (host_step es c) as [t1|] eqn:Et; [|done]. cbn [mbind option_bind] in Ht.
  destruct (node_dir es g b Hat Hok) as (b1 & _ & Hnb & Hblk & Hstep).
  destruct (Hstep c t1 Et (proj1 (proj2 Hc))) as (g1 & b1' & Hlk & Hat1 & Hok1). clear Hstep.
  pose proof Hsl as (Ea & Es & Esb). assert (Enb : nblk a = dir_q es) by (unfold nblk; by rewrite Hdi).
  destruct (put_ref_free l cur a HC Ea) as (IC1 & Hd1 & Hf1).
  assert (Hg1 : 0 ≤ g1 < Z.of_nat NI).
  { destruct Hat1 as (_ & Hg1 & Hg2 & _). assert (0 < node_inodes t1)%nat by (destruct t1; unfold node_inodes, dir_inodes; lia). lia. }
  destruct (iget_built _ g1 IC1 Hd1 Hf1 Hg1) as (k1 & l2 & a2 & E2 & Hs2 & Hdi2 & HC2).
  destruct (IH t1 t' g1 b1' l2 k1 a2 Hcs Ht Hat1 Hok1 Hs2 Hdi2 HC2) as (Hw & R).
  split.
  - cbn [walk_ok]. exists a. split; [done|]. rewrite Enb, Hdi. split; [done|]. intros inum Hi. rewrite Hlk in Hi. injection Hi as <-.
    change MAX_FILE_NUMBER with 16384 in HNI. split; [change (ninodes mk_sb) with 16393; lia|].
    split; [rewrite bits_per_block; change (sb_inodes mk_sb - sb_imap mk_sb) with 2; lia|].
    intros k l' E. rewrite E2 in E. by injection E as <- <-.
  - cbn [resolve]. rewrite Ea, Enb, Hdi, Hlk, E2. exact R.
Qed.
End kernel.
