(* ===== verification/MkfsResults.v ===== *)
(** Results on mkfs (mkfs/mkfs.cc): the image it writes is a file system of the kernel
    that holds the host directory. *)
From S2P Require Import Prelude Bytes CString Machine BlockIO Bio Fs Inode Dir PageAlloc Vm Pipe Slot File Boot FsResults DirResults Mkfs MkfsLayout MkfsTree MkfsWalk.

(** ** Writing the tables *)

Lemma write_blocks_spec n b data s : 0 ≤ b → b + Z.of_nat n ≤ MAX_DATA_BLOCKNO → length data = (1024 * n)%nat → bytes_ok data →
  mk_inv s → ∃ s', write_blocks n b data s = Ok tt s' ∧ mk_inv s' ∧ imap s' = imap s ∧ bmap s' = bmap s ∧ DINODES s' = DINODES s ∧
    ∀ y, img_at s' y = if decide (b ≤ y < b + Z.of_nat n) then take 1024 (drop (1024 * Z.to_nat (y - b)) data) else img_at s y.
Proof.
  revert b data s. induction n as [|n IH]; intros b data s Hb Hmax Hlen Hby I.
  { exists s. split_and!; try done. intros y. by rewrite decide_False by lia. }
  cbn [write_blocks]. run (write_block_ok b (take BSIZE data) s ltac:(lia)). set (s1 := set_img _ s).
  assert (I1 : mk_inv s1).
  { apply mk_inv_img; [done|]. split; [rewrite length_take; unfold BSIZE; lia|auto with bytes]. }
  destruct (IH (b + 1) (drop BSIZE data) s1) as (s2 & E2 & I2 & A2 & B2 & D2 & Im2);
    [lia|lia|rewrite length_drop; unfold BSIZE; lia|auto with bytes|done|].
  exists s2. split; [done|]. split; [done|]. split; [by rewrite A2|]. split; [by rewrite B2|]. split; [by rewrite D2|]. intros y. rewrite Im2.
  destruct (decide (b + 1 ≤ y < b + 1 + Z.of_nat n)) as [Hy|Hy].
  - rewrite decide_True by lia. rewrite drop_drop. do 2 f_equal. unfold BSIZE. lia.
  - unfold s1. rewrite img_set. destruct (decide (y = b)) as [->|Hne].
    + rewrite decide_True by lia. rewrite Z.sub_diag, Nat.mul_0_r, drop_0. done.
    + by rewrite decide_False by lia.
Qed.
(** A part of a row of parts of the same length. *)
Lemma join_part {A} n (l : list (list A)) i x : Forall (λ y, length y = n) l → l !! i = Some x → take n (drop (n * i) (mjoin l)) = x.
Proof.
  revert i. induction l as [|y l IH]; intros [|i] Hl Hx; try done; apply Forall_cons in Hl as [Hy Hl].
  - injection Hx as <-. rewrite Nat.mul_0_r, drop_0. change (mjoin (y :: l)) with (y ++ mjoin l). by rewrite take_app_length'.
  - change (mjoin (y :: l)) with (y ++ mjoin l). rewrite Nat.mul_succ_r, Nat.add_comm, <- drop_drop, drop_app_length' by done. by apply IH.
Qed.
Lemma parts_length {A} n (l : list (list A)) : Forall (λ y, length y = n) l → length (mjoin l) = (n * length l)%nat.
Proof. induction 1 as [|y l Hy _ IH]; [cbn; lia|]. change (mjoin (y :: l)) with (y ++ mjoin l). rewrite length_app, Hy, IH. cbn [length]. lia. Qed.
Lemma join_bytes (l : list (list Z)) : Forall bytes_ok l → bytes_ok (mjoin l).
Proof. induction 1 as [|y l Hy _ IH]; [constructor|]. change (mjoin (y :: l)) with (y ++ mjoin l). by apply bytes_ok_app. Qed.

(** A block of the table of inodes. *)
Lemma dinode_block_ok s i : mk_inv s → 0 ≤ i → is_block (dinode_block s i) ∧
  ∀ o, (o < 13)%nat → take 76 (drop (76 * o) (dinode_block s i)) = dinode_encode (di s (13 * i + Z.of_nat o)).
Proof.
  intros I Hi. unfold dinode_block. mknum. rewrite N10. set (l := _ <$> seq 0 (Z.to_nat 13)).
  assert (Hptr : ∀ o, (o < 13)%nat → (i, Z.of_nat o) = inum_to_dinode (13 * i + Z.of_nat o)).
  { intros o Ho. unfold inum_to_dinode. rewrite N10. f_equal; [apply Z.div_unique with (Z.of_nat o); lia|apply Z.mod_unique with i; lia]. }
  assert (Hl : Forall (λ y, length y = 76%nat) l).
  { apply Forall_fmap, Forall_forall. intros o Ho%elem_of_seq. cbn. rewrite Hptr by lia. change 76%nat with SZDINODE. apply length_encode, (mi_wf _ I). }
  assert (Hlen : length (mjoin l) = 988%nat) by (rewrite (parts_length 76 l Hl); unfold l; by rewrite length_fmap, length_seq).
  split.
  - split; [rewrite length_app, length_replicate, Hlen; done|]. apply bytes_ok_app. split; [|auto with bytes]. apply join_bytes, Forall_fmap, Forall_forall.
    intros o _. apply bytes_ok_encode.
  - intros o Ho. rewrite drop_app_le by lia. rewrite take_app_le by (rewrite length_drop; lia). unfold l in *. apply join_part; [done|].
    rewrite list_lookup_fmap, lookup_seq_lt by lia. cbn. unfold di. by rewrite Hptr.
Qed.
Definition dinode_table (s : mkst) : list Z := mjoin (dinode_block s <$> (Z.of_nat <$> seq 0 (Z.to_nat DINODES_BLOCKNUM))).
Lemma dinode_table_ok s : mk_inv s → length (dinode_table s) = (1024 * Z.to_nat DINODES_BLOCKNUM)%nat ∧ bytes_ok (dinode_table s) ∧
  ∀ i, (i < 1261)%nat → take 1024 (drop (1024 * i) (dinode_table s)) = dinode_block s (Z.of_nat i).
Proof.
  intros I. unfold dinode_table. set (l := dinode_block s <$> _).
  assert (Hl : Forall is_block l) by (apply Forall_fmap, Forall_fmap, Forall_forall; intros i _; apply dinode_block_ok; [done|lia]).
  assert (Hl1 : Forall (λ y, length y = 1024%nat) l) by (eapply Forall_impl; [exact Hl|by intros y [? _]]).
  split; [rewrite (parts_length 1024 l Hl1); f_equal; unfold l; by rewrite !length_fmap, length_seq|]. split.
  - apply join_bytes. eapply Forall_impl; [exact Hl|by intros y [_ ?]].
  - intros i Hi. apply (join_part 1024 l i); [done|]. unfold l. mknum. rewrite N5, !list_lookup_fmap, lookup_seq_lt by lia. done.
Qed.

(** ** The image *)

Lemma mk_sb_wf : sb_wf mk_sb.
Proof. split; by vm_compute. Qed.
Lemma map_zero size : map_ok (replicate (Z.to_nat size) 0) size 0.
Proof.
  split; [apply length_replicate|apply bytes_ok_replicate|]. intros g _. unfold bit_at. rewrite nth_lookup. destruct (Z.ltb_spec (Z.of_nat g) 0); [lia|].
  destruct (replicate (Z.to_nat size) 0 !! (g / 8)%nat) as [v|] eqn:E; [apply lookup_replicate in E as [-> _]|]; apply Z.testbit_0_l.
Qed.
Lemma mk0_inv : mk_inv mk0.
Proof.
  split.
  - cbn [mk0 free_inum]. by mknum; lia.
  - cbn [mk0 bfreeno]. by mknum; lia.
  - apply map_zero.
  - cbn [mk0 bfreeno bmap]. rewrite Z.sub_diag. apply map_zero.
  - intros g _. unfold di, dinode_of. cbn [mk0 DINODES]. by rewrite lookup_empty.
  - intros g. unfold di, dinode_of. cbn [mk0 DINODES]. rewrite lookup_empty. split; [|done]. by repeat constructor.
  - intros b. unfold img_at. cbn [mk0 img]. rewrite lookup_empty. exact zero_block_ok.
Qed.
Lemma sb_image : is_block (blit 0 (sb_encode mk_sb) zero_block) ∧ sb_decode (blit 0 (sb_encode mk_sb) zero_block) = mk_sb.
Proof.
  split; [split; [by vm_compute|]|by vm_compute]. apply bytes_ok_blit; [|apply zero_block_ok]. unfold sb_encode. apply bytes_ok_app. split.
  - apply join_bytes, Forall_fmap, Forall_forall. intros w _. apply bytes_ok_le_split.
  - unfold bytes_ok. cbn [mk_sb sb_name]. repeat (apply Forall_cons_2; [lia|]). constructor.
Qed.
(** A bit of a map, read from the blocks the map was written to. *)
Lemma map_image disk m start n N g : map_ok m (1024 * Z.of_nat N) n →
  (∀ y, start ≤ y < start + Z.of_nat N → disk y = take 1024 (drop (1024 * Z.to_nat (y - start)) m)) →
  0 ≤ g < 8192 * Z.of_nat N → map_bit disk start g = (g <? n).
Proof.
  intros [_ _ Bt] Hd Hg. unfold map_bit, map_blk, map_idx. rewrite bits_per_block. pose proof (Z.div_mod g 8192 ltac:(lia)).
  pose proof (Z.mod_pos_bound g 8192 ltac:(lia)). rewrite Hd by lia. rewrite bit_at_take_drop by lia.
  replace (8 * (1024 * Z.to_nat (start + g / 8192 - start)) + Z.to_nat (g mod 8192))%nat with (Z.to_nat g) by lia.
  rewrite Bt by lia. f_equal. lia.
Qed.

(** An inode, read from the blocks the table was written to. *)
Lemma table_inode s disk g : mk_inv s → 0 ≤ g < MAX_FILE_NUMBER →
  (∀ y, 4 ≤ y < 4 + 1261 → disk y = take 1024 (drop (1024 * Z.to_nat (y - 4)) (dinode_table s))) → disk_inode mk_sb disk g = di s g.
Proof.
  mknum. intros I Hg Hd. rewrite N1 in Hg. unfold disk_inode, blockno_of_inode, offset_of_inode. rewrite N10. change (sb_inodes mk_sb) with 4.
  pose proof (Z.div_mod g 13 ltac:(lia)) as Hdm. pose proof (Z.mod_pos_bound g 13 ltac:(lia)) as Hmb. rewrite u32_id by lia. rewrite Hd by lia.
  destruct (dinode_table_ok s I) as (_ & _ & Tb). replace (4 + g / 13 - 4) with (g / 13) by lia. rewrite Tb by lia.
  change SZDINODE with 76%nat. rewrite (proj2 (dinode_block_ok s (Z.of_nat (Z.to_nat (g / 13))) I ltac:(lia))) by lia.
  rewrite decode_encode by apply (mi_wf _ I). f_equal. lia.
Qed.

Lemma mkfs_image fuel es : (dir_depth es ≤ fuel)%nat → dir_ok es → Z.of_nat (dir_inodes es) ≤ MAX_FILE_NUMBER →
  Z.of_nat (dir_blocks es) ≤ DATA_BLOCK_NUMBER →
  ∃ s, mkfs_main fuel es mk0 = Ok tt s ∧ let disk := img_at s in
    (∀ b, is_block (disk b)) ∧ sb_decode (disk 1) = mk_sb ∧ sb_wf mk_sb ∧
    (∀ g, 0 ≤ g < MAX_FILE_NUMBER → map_bit disk (sb_imap mk_sb) g = (g <? Z.of_nat (dir_inodes es))) ∧
    (∀ e, data_blk mk_sb e → used mk_sb disk e = (e <? sb_blocks mk_sb + Z.of_nat (dir_blocks es))) ∧
    dir_built (disk_inode mk_sb disk) disk ROOTINUM es ROOTINUM (sb_blocks mk_sb).
Proof.
  intros Hf Hok HM HB. mknum. assert (N11 : DATA_BLOCK_NUMBER = 1048576) by done.
  set (s1 := set_img (<[1 := blit 0 (sb_encode mk_sb) zero_block]> (img mk0)) mk0).
  assert (Ez : img_at mk0 1 = zero_block) by (unfold img_at; cbn [mk0 img]; by rewrite lookup_empty).
  assert (E1 : superblock_write mk0 = Ok tt s1).
  { unfold superblock_write, read_block. rewrite bind_gets. change SB_START_BLOCKNO with 1. rewrite seek_id, Ez by lia. by apply write_block_ok; lia. }
  assert (I1 : mk_inv s1) by (apply mk_inv_img; [exact mk0_inv|apply sb_image]).
  assert (F1 : free_inum s1 = 0) by exact eq_refl. assert (B1 : bfreeno s1 = MIN_DATA_BLOCKNO) by exact eq_refl.
  assert (Hs1 : img_at s1 1 = blit 0 (sb_encode mk_sb) zero_block) by (unfold s1; by rewrite img_set, decide_True). clearbody s1.
  destruct (directory_copy_spec fuel true es (u32 (-1)) s1 Hf Hok I1) as (s2 & E2 & I2 & F2 & B2 & Hb & Fr); [by vm_compute|lia|lia|].
  rewrite F1, B1 in *.
  destruct (write_blocks_spec (Z.to_nat IMAP_BLOCKNUM) IMAP_START_BLOCKNO (imap s2) s2) as (s3 & E3 & I3 & A3 & M3 & D3 & Im3);
    [lia|change (Z.to_nat IMAP_BLOCKNUM) with 2%nat; lia|rewrite (mp_len _ _ _ (mi_imap _ I2)), N2; reflexivity|apply (mi_imap _ I2)|done|].
  destruct (dinode_table_ok s3 I3) as (TL & TB & Tblk).
  destruct (write_blocks_spec (Z.to_nat DINODES_BLOCKNUM) DINODES_START_BLOCKNO (dinode_table s3) s3) as (s4 & E4 & I4 & A4 & M4 & D4 & Im4);
    [lia|lia|exact TL|exact TB|done|].
  destruct (write_blocks_spec (Z.to_nat BMAP_BLOCKNUM) BMAP_START_BLOCKNO (bmap s4) s4) as (s5 & E5 & I5 & A5 & M5 & D5 & Im5);
    [lia|change BMAP_BLOCKNUM with 128; lia|rewrite (mp_len _ _ _ (mi_bmap _ I4)), N7; change BMAP_BLOCKNUM with 128; lia|apply (mi_bmap _ I4)|done|].
  exists s5. split.
  { unfold mkfs_main. run E1. rewrite (bind_ok _ _ _ _ _ E2). unfold dinode_bitmap_write. rewrite (bind_ok (let! m := _ in _) _ s2 tt s3) by (by rewrite bind_gets).
    unfold dinodes_write. rewrite (bind_ok (let! s := _ in _) _ s3 tt s4) by (rewrite bind_gets; exact E4).
    unfold block_bitmap_write. by rewrite bind_gets. }
  cbn zeta. change (Z.of_nat (Z.to_nat IMAP_BLOCKNUM)) with 2 in Im3. rewrite N5 in Im4. change (Z.of_nat (Z.to_nat 1261)) with 1261 in Im4.
  change (Z.of_nat (Z.to_nat BMAP_BLOCKNUM)) with 128 in Im5. rewrite N3 in Im3. rewrite N4 in Im4. rewrite N6 in Im5.
  assert (Hdata : ∀ y, 1393 ≤ y → img_at s5 y = img_at s2 y).
  { intros y Hy. rewrite Im5, decide_False, Im4, decide_False, Im3, decide_False by lia. done. }
  split; [apply I5|]. split.
  { rewrite Im5, decide_False, Im4, decide_False, Im3, decide_False by lia. rewrite (proj1 Fr 1) by (rewrite N8; lia). rewrite Hs1. apply sb_image. }
  split; [exact mk_sb_wf|]. split; [|split].
  - intros g Hg. change (sb_imap mk_sb) with 2. replace (Z.of_nat (dir_inodes es)) with (free_inum s2) by lia.
    pose proof (mi_imap _ I2) as Hm. rewrite N2 in Hm. apply (map_image _ (imap s2) 2 _ 2); [exact Hm| |lia].
    intros y Hy. rewrite Im5, decide_False, Im4, decide_False, Im3, decide_True by lia. done.
  - intros e He. unfold used, data_blk, nblocks in *. rewrite bits_per_block in He.
    change (sb_bmap mk_sb) with 1265 in *. change (sb_blocks mk_sb) with 1393 in *.
    rewrite (map_image _ (bmap s4) 1265 (bfreeno s2 - 1393) 128).
    + apply eq_true_iff_eq. rewrite !Z.ltb_lt. lia.
    + pose proof (mi_bmap _ I2) as Hm. rewrite N7, N8 in Hm. rewrite M4, M3. exact Hm.
    + intros y Hy. rewrite Im5, decide_True by lia. done.
    + lia.
  - change (sb_blocks mk_sb) with 1393. rewrite N8 in Hb, Fr. eapply dir_built_ext; [exact Hb| |].
    + intros g Hg. unfold ROOTINUM in Hg. rewrite (table_inode s3 (img_at s5) g); [unfold di, dinode_of; by rewrite D3|done|lia|].
      intros y Hy. rewrite Im5, decide_False, Im4, decide_True by lia. done.
    + intros y Hy. apply Hdata. lia.
Qed.

(** C9: mkfs copies a host directory whose files and directories fit: it ends, and the
    image has the superblock the kernel expects, its inode map and its block map mark
    exactly the inodes and the blocks in use, and from the root inode on it holds the
    directory: every file with its bytes, every directory with its entries, each at the
    place the layout gives it, so that no two of them share an inode or a block. *)
Theorem mkfs_builds fuel es : (dir_depth es ≤ fuel)%nat → dir_ok es → Z.of_nat (dir_inodes es) ≤ MAX_FILE_NUMBER →
  Z.of_nat (dir_blocks es) ≤ DATA_BLOCK_NUMBER →
  ∃ s, mkfs_main fuel es mk0 = Ok tt s ∧ let disk := img_at s in
    (∀ b, is_block (disk b)) ∧ sb_decode (disk 1) = mk_sb ∧ sb_wf mk_sb ∧
    (∀ g, 0 ≤ g < MAX_FILE_NUMBER → map_bit disk (sb_imap mk_sb) g = (g <? Z.of_nat (dir_inodes es))) ∧
    (∀ e, data_blk mk_sb e → used mk_sb disk e = (e <? sb_blocks mk_sb + Z.of_nat (dir_blocks es))) ∧
    dir_built (disk_inode mk_sb disk) disk ROOTINUM es ROOTINUM (sb_blocks mk_sb).
Proof. apply mkfs_image. Qed.

(** ** The kernel on the image *)

Lemma init_icache_inv : icache_inv init_icache.
Proof.
  split; [apply length_replicate| |].
  - intros i a [-> _]%lookup_replicate. split; [done|]. split; [done|]. cbn. lia.
  - intros i j a b [-> _]%lookup_replicate _ [x Hx]. done.
Qed.
(** The byte of a file at offset [p]. *)
Definition data_at (disk : Z → list Z) (ib : list Z) (p : nat) : option Z :=
  e ← file_block disk ib (Z.of_nat (p / 1024)); disk e !! (p mod 1024)%nat.

(** C10: when the disk holds an image of mkfs, [dentry_find] of a path finds the inode
    of the file or directory the path names in the host directory: for a file the inode
    has its size and, through its direct and index blocks, its bytes. *)
Theorem mkfs_kernel_finds {S} `{IO : BlockIO S} fuel es m (s : S) cs t cwd r dname : (dir_depth es ≤ fuel)%nat → dir_ok es → dir_distinct es →
  Z.of_nat (dir_inodes es) ≤ MAX_FILE_NUMBER → Z.of_nat (dir_blocks es) ≤ DATA_BLOCK_NUMBER →
  mkfs_main fuel es mk0 = Ok tt m → (∀ b, blk b → bio_disk s b = img_at m b) →
  room 2 s → imap_free mk_sb s → itable_free mk_sb s → (∀ e, data_blk mk_sb e → not_held s e) →
  Forall comp_ok cs → host_find (inl es) cs = Some t → length dname = DLENGTH →
  ∃ k s' l' a, dentry_find mk_sb cwd (SLASH :: join cs ++ 0 :: r) dname (s, init_icache) = Ok (Some k) (s', l') ∧
    io_step keep s s' ∧ slot_of mk_sb l' k a ∧
    match t with
    | inl _ => di_type (i_di a) = DIRECTORY
    | inr d => di_type (i_di a) = REGULAR ∧ di_fsize (i_di a) = Z.of_nat (length d) ∧
               ∀ p, (p < length d)%nat → data_at (bio_disk s) (di_iblock (i_di a)) p = d !! p
    end.
Proof.
  intros Hf Hok Hdist HM HB Em Hdisk Hroom Him Hit Hheld Hcs Ht Hdn.
  destruct (mkfs_image fuel es Hf Hok HM HB) as (m' & Em' & Hblk & Hsb & WF & Hmap & _ & Hb). rewrite Em in Em'. injection Em' as <-.
  cbn zeta in *. set (NI := dir_inodes es) in *. mknum. rewrite N1 in *. change DATA_BLOCK_NUMBER with 1048576 in HB.
  assert (Hmap' : ∀ g, 0 ≤ g < Z.of_nat NI → map_bit (bio_disk s) (sb_imap mk_sb) g = true).
  { intros g Hg. unfold map_bit, map_blk. rewrite bits_per_block. rewrite Hdisk.
    - transitivity (map_bit (img_at m) (sb_imap mk_sb) g); [unfold map_bit, map_blk; by rewrite bits_per_block|]. rewrite Hmap by lia. apply Z.ltb_lt. lia.
    - change (sb_imap mk_sb) with 2. pose proof (Z.div_pos g 8192). pose proof (Z.div_lt_upper_bound g 8192 2). unfold blk. lia. }
  assert (Hat : node_at s NI (dir_blocks es) (inl es) 0 (sb_blocks mk_sb)).
  { split; [exists 0|cbn [node_inodes node_blocks]; fold NI; lia]. eapply dir_built_ext; [exact Hb|..].
    - intros g Hg. unfold ROOTINUM in Hg. unfold disk_inode. fold NI in Hg. rewrite Hdisk; [done|]. unfold blockno_of_inode. rewrite N10. change (sb_inodes mk_sb) with 4.
      pose proof (Z.div_pos g 13). pose proof (Z.div_lt_upper_bound g 13 1261). rewrite u32_id by lia. unfold blk. lia.
    - intros b Hbb. apply Hdisk. change (sb_blocks mk_sb) with 1393 in Hbb. unfold blk. lia. }
  destruct (iget_built s NI (dir_blocks es) Hmap' init_icache 0 init_icache_inv) as (k & l1 & a & E1 & Hs1 & Hd1 & HC1);
    [intros i x [-> _]%lookup_replicate; done|exists 0%nat; reflexivity|unfold NI, dir_inodes; lia|].
  destruct (resolve_built s NI (dir_blocks es) ltac:(lia) ltac:(change DATA_BLOCK_NUMBER with 1048576; lia) Hmap' Hheld cs (inl es) t 0 _ l1 k a Hcs Ht Hat (conj Hok Hdist) Hs1 Hd1 HC1)
    as (Hw & k' & l' & a' & g' & b' & Er & Hs' & Hd' & Hat' & Hok').
  pose proof (dentry_find_walk mk_sb s init_icache cwd cs r dname k l1 WF init_icache_inv Hcs Hdn Hroom Him Hit E1 Hw) as Hfind.
  cbn zeta in Hfind. rewrite Er in Hfind. destruct Hfind as (s' & Ef & St). exists k', s', l', a'. split; [done|]. split; [done|]. split; [done|].
  rewrite Hd'. destruct t as [es'|d].
  - destruct (node_dir s NI (dir_blocks es) ltac:(change DATA_BLOCK_NUMBER with 1048576; lia) Hheld es' g' b' Hat' Hok') as (b1 & -> & _). done.
  - destruct Hat' as ((HD & Hx & Hdata) & _). rewrite HD. split; [done|]. split; [done|]. intros p Hp. unfold data_at. cbn [di_iblock].
    destruct (layout_file_block (bio_disk s) b' (data_blocks (length d)) (p / 1024) Hx (data_blocks_bound _ _ Hp)) as [-> _]; [exact Hok'|by apply Hdata].
Qed.

(** ** Limits *)

(** [block_alloc] compares the next block with the number behind the last one: when
    all blocks are in use it writes behind the block map instead of ending. *)
Lemma block_alloc_full s : length (bmap s) = Z.to_nat BMAP_SIZE → bfreeno s = MAX_DATA_BLOCKNO → block_alloc s = Fault s.
Proof.
  intros Hl Hb. unfold block_alloc. rewrite bind_gets, Hb, Z.ltb_irrefl. unfold bind, update, mark.
  rewrite lookup_ge_None_2; [done|]. rewrite Hl. mknum. rewrite N7, N8, N9. change (u32 (1049969 - 1393) / 8) with 131072. lia.
Qed.
(** A directory of 61 files: the blocks mkfs computes for 63 entries hold 62. *)
Definition many : list dirent :=
  HDir [DOT] [] :: HDir [DOT; DOT] [] :: ((λ k, HReg [97; Z.of_nat k] []) <$> seq 1 61).
Lemma mkfs_loses_entry :
  match directory_copy 2 true many 0 mk0 with
  | Ok _ s => free_inum s = 62 ∧ bfreeno s = MIN_DATA_BLOCKNO + 2 ∧
              ∀ k, k = 0 ∨ k = 1 → block_find (img_at s (MIN_DATA_BLOCKNO + k)) [97; 61] = None
  | _ => False
  end.
Proof.
  assert (match directory_copy 2 true many 0 mk0 with
    | Ok _ s => (free_inum s =? 62) && (bfreeno s =? MIN_DATA_BLOCKNO + 2) &&
        bool_decide (block_find (img_at s (MIN_DATA_BLOCKNO + 0)) [97; 61] = None) &&
        bool_decide (block_find (img_at s (MIN_DATA_BLOCKNO + 1)) [97; 61] = None)
    | _ => false end = true) as H by (vm_compute; reflexivity).
  destruct (directory_copy 2 true many 0 mk0) as [x s|?|?|?|?]; try discriminate H. rewrite !andb_true_iff, !Z.eqb_eq in H.
  destruct H as [[[H1 H2] H3] H4]. apply bool_decide_eq_true in H3, H4. split; [exact H1|]. split; [exact H2|].
  intros k [-> | ->]; [exact H3|exact H4].
Qed.

(** ** A host directory with a file and a directory *)

Definition host0 : list dirent :=
  [HDir [DOT] []; HDir [DOT; DOT] []; HReg [97] [1; 2; 3];
   HDir [98] [HDir [DOT] []; HDir [DOT; DOT] []; HReg [99] [7]]; HOther [100]].
Lemma small_name c : 0 < c < 256 → name_ok [c].
Proof. intros H. split; [unfold DLENGTH; cbn; lia|]. split; [done|]. by apply Forall_singleton. Qed.
Lemma host0_ok : dir_ok host0 ∧ dir_distinct host0.
Proof.
  pose proof (small_name 97 ltac:(lia)). pose proof (small_name 98 ltac:(lia)). pose proof (small_name 99 ltac:(lia)). pose proof (small_name 100 ltac:(lia)).
  pose proof dot_ok. pose proof dots_ok.
  assert (Hr : ∀ es q, dir_q es = q → (q ≤ MAXQ)%nat → (2 + length (sub_dirs es) + length (reg_files es) ≤ 31 * q)%nat → dir_room es).
  { intros es q <- ? ?. by split. }
  split; split.
  - apply (Hr _ 1%nat); [reflexivity|apply Nat.leb_le; reflexivity|apply Nat.leb_le; reflexivity].
  - repeat split; try done; try (by left); try (by repeat constructor); try (apply Nat.leb_le; reflexivity).
  - unfold names_distinct. by apply (bool_decide_unpack _).
  - repeat split; try (by left). right. split; [by apply (bool_decide_unpack _)|]. repeat split; by left.
Qed.
Lemma mkfs_builds_witness : ∃ s, mkfs_main 3 host0 mk0 = Ok tt s ∧ sb_decode (img_at s 1) = mk_sb ∧
  map_bit (img_at s) (sb_imap mk_sb) 3 = true ∧ map_bit (img_at s) (sb_imap mk_sb) 4 = false.
Proof.
  destruct (mkfs_builds 3 host0) as (s & E & _ & Hsb & _ & Hm & _);
    [apply Nat.leb_le; reflexivity|apply host0_ok|apply Z.leb_le; reflexivity|apply Z.leb_le; reflexivity|].
  exists s. split; [exact E|]. split; [exact Hsb|]. split; (rewrite Hm; [reflexivity|split; [lia|apply Z.ltb_lt; reflexivity]]).
Defined.

Lemma ram_img m b : (∀ b, is_block (img_at m b)) → ram_rd b (img m) = img_at m b.
Proof.
  intros Hb. specialize (Hb b). unfold ram_rd, img_at in *. destruct (img m !! b) as [v|]; [|done]. cbn [default] in *. apply decide_True. exact Hb.
Qed.
Import Cache.
(** The file "c" of the directory "b". *)
Definition path_bc : list Z := SLASH :: join [[98]; [99]] ++ [0].
Lemma mkfs_kernel_finds_witness : ∃ m k s' l' a, mkfs_main 3 host0 mk0 = Ok tt m ∧
  dentry_find mk_sb 0 path_bc (replicate DLENGTH 0) (cache0 (img m), init_icache) = Ok (Some k) (s', l') ∧
  slot_of mk_sb l' k a ∧ di_type (i_di a) = REGULAR ∧ di_fsize (i_di a) = 1 ∧
  data_at (bio_disk (cache0 (img m))) (di_iblock (i_di a)) 0 = Some 7.
Proof.
  assert (HD : (dir_depth host0 ≤ 3)%nat) by (apply Nat.leb_le; reflexivity). destruct host0_ok as [Hok Hdist].
  assert (HM : Z.of_nat (dir_inodes host0) ≤ MAX_FILE_NUMBER) by (apply Z.leb_le; reflexivity).
  assert (HB : Z.of_nat (dir_blocks host0) ≤ DATA_BLOCK_NUMBER) by (apply Z.leb_le; reflexivity).
  destruct (mkfs_image 3 host0 HD Hok HM HB) as (m & E & Hblk & _). cbn zeta in Hblk. exists m.
  destruct (cache0_ok (img m)) as (Cok & Cn & _ & Cd & Ch).
  assert (Hroom : ∀ k, (k ≤ NIOBUF)%nat → room k (cache0 (img m))) by (intros k Hk; unfold room; rewrite Cn; lia).
  assert (Harea : ∀ lo hi, area_free lo hi (cache0 (img m))).
  { intros lo hi. split; [exact Cok|]. split; [apply Hroom; unfold NIOBUF; lia|]. intros n _. apply Ch. }
  destruct (mkfs_kernel_finds 3 host0 m (cache0 (img m)) [[98]; [99]] (inr [7]) 0 [] (replicate DLENGTH 0) HD Hok Hdist HM HB E)
    as (k & s' & l' & a & Ef & _ & Hs & Ht & Hz & Hd).
  - intros b _. rewrite Cd. by apply ram_img.
  - apply Hroom. unfold NIOBUF. lia.
  - apply Harea.
  - apply Harea.
  - intros e _. apply Ch.
  - assert (∀ c, 47 < c < 256 → comp_ok [c]) as Hc by (intros c Hc; split; [|split; [done|unfold DLENGTH; cbn; lia]]; apply Forall_singleton; unfold SLASH; lia).
    apply Forall_cons; split; [apply Hc; lia|]. apply Forall_singleton, Hc. lia.
  - vm_compute. reflexivity.
  - apply length_replicate.
  - exists k, s', l', a. split; [exact E|]. split; [exact Ef|]. split; [exact Hs|]. split; [exact Ht|]. split; [exact Hz|].
    apply (Hd 0%nat). cbn. lia.
Defined.
